(* ===== verification/_CoqProject ===== *)
-Q . S2P
Prelude.v
RustStr.v
LoginFailure.v
HomedeskNet.v
HomedeskConfig.v
NestlinkAuth.v
NestlinkPermit.v
Float.v
TunnelRuntime.v
VideoQos.v
BrowserHost.v
Service.v
Effects.v
ProfileSave.v
Rendezvous.v
FileSystem.v
PortableCache.v
PortablePackage.v
Posix.v
IpcChannel.v
Message.v
ClientConfig.v
Controller.v
SessionScope.v
ServerReg.v
ConnState.v
Connection.v
ConnScope.v
ConnLogin.v
ConnPolicy.v
ConnLoop.v
ConnSafety.v
ConnLife.v
ConnTrust.v
ConnManager.v
ConnFiles.v
ConnAccept.v
ClientSync.v
TerminalBuffer.v
Terminal.v
