(* ===== verification/Prelude.v ===== *)
(** * Verification of the home-tunnel client (NestLink / HomeDesk)

    The repository is a remote-desktop client derived from RustDesk, hardened for
    a family: a user logs in to a self-hosted server, every remote session needs a
    short-lived permit signed by that server, connections are direct
    (peer-to-peer, no relay), and a separate tunnel agent is run on the side.
    This library models the Rust code that carries those guarantees, and the
    long-lived server components of the client.  Paths below are relative to
    [src/client/src].

    ** How the parts interact

    The user interface logs in through [nestlink_auth::install], which asks the
    server for the device's presence, saves the network profile it names
    ([homedesk_config]) and installs an authorization with a 15-second lease, a
    revision (which login attempt) and an epoch (which authorization scope).  A
    monitor renews the lease; logging out or losing the account moves the epoch,
    which ends every session guard, stops the browser host and restarts the
    signaling client.  Addresses are admitted by [homedesk_net].  A controller
    prepares a permit and the host accepts it (both in [nestlink_auth]): the
    controller ([client.rs]) asks the signaling server for the peer, connects
    directly, exchanges keys, logs in with the permit and the proof of a password,
    and sends the options its user toggles; a browser
    session runs in the worker of [nestlink_browser] as long as its grant and its
    epoch are live.  [homedesk_tunnel_runtime] runs the tunnel helper under a
    permission that [homedesk_config] can revoke.  On the host, a connection
    ([server/connection.rs]) is admitted by its source address, presents a permit
    and a password under the login-failure policies (or is approved by the host's
    user), and becomes a session of the type it asked for: remote control, file
    transfer, port forwarding, camera, terminal.  Its loop handles the peer's
    messages within the scope of that type and the permissions the connection
    manager and the account grant, registers with the server ([server.rs]) and the
    services it follows ([server/service.rs]), is served video at a rate chosen by
    [server/video_qos.rs], may open terminals ([server/terminal_service.rs]), and
    ends when the permit is revoked.  Inbound connections come about through the
    signaling client ([rendezvous_mediator.rs]), which registers the device at the
    configured server and answers its requests for hole punching.  Every connection
    has a task in the connection manager's process ([ui_cm_interface.rs]), which
    shows it to the host's user, carries the user's commands back and does its file
    work.  The processes talk over local sockets whose directory and peers are
    checked by [ipc/fs.rs] and [ipc/auth.rs]; a change of the network profile
    travels from the interface through a task thread ([flutter.rs]) to the service.
    The Windows package unpacks itself into a cache it owns ([libs/portable]).

    ** Files

    - [Prelude]: results and options of Rust with the [?] operator as monadic
      bind, machine-width integers with their wrap-around, tactics, hints.
    - [RustStr]: strings as lists of Unicode scalar values, UTF-8, and the
      standard library's parsers and formatters the sources use (integers, IPv4
      and IPv6 addresses, socket addresses, trimming, splitting, ASCII classes).
    - [Float]: binary32 and binary64 arithmetic on the Standard Library's
      [SpecFloat], with the order lemmas the clients need.
    - [HomedeskNet]: [homedesk_net.rs] and [homedesk_connection_path.rs].
    - [HomedeskConfig]: [homedesk_config.rs]; the configuration store is the class
      [ConfigStore] with [ConfigLaws], the build constants [BuildEnv], DNS, URL
      parsing and base64 [Externals]; resolving an endpoint is a check, an await
      and a choice ([resolve_check], [resolve_pick]).
    - [NestlinkAuth]: [nestlink_auth.rs], the authorization machine [Auth] and its
      tasks.  Every shared-state access under a lock is one operation; [auth_step]
      is the step relation, [run] its closure; asynchronous gaps are functions on
      the state that [respects] the steps.
    - [NestlinkPermit]: the permit half of [nestlink_auth.rs]; Ed25519, base64,
      JSON and UUIDs are [PermitExternals] with the laws [PermitLaws] (what a
      generated key pair signs, it verifies).
    - [TunnelRuntime]: [homedesk_tunnel_runtime.rs] and
      [homedesk_runtime_compatibility.rs]; a [System] is the controller, the worker
      threads (with a program counter [Pc] between their lock regions) and the
      helper processes.
    - [BrowserHost]: [nestlink_browser.rs]; injected input is a log of
      [DeviceEvent]s.
    - [LoginFailure]: [server/login_failure_check.rs] and the failure tables of
      [server/connection.rs]; [BackoffSpec] states the waiting times by their values.
    - [Service]: [server/service.rs]; a subscriber is the class [Subscriber]; what
      one acquisition of the service's lock covers is a [Region], so that a snapshot
      is a region for its test, one for each send and one for the swap.
    - [VideoQos]: [server/video_qos.rs] and [Quality] of
      [libs/scrap/src/common/codec.rs].
    - [ProfileSave]: saving the network profile from the interface process
      ([homedesk_async.rs], the task thread of [flutter.rs], the service's handler
      in [ipc.rs]); [System] holds both processes, [step] is one atomic action of a
      caller, the task thread or the service, [run] a list of [Label]s.
    - [Rendezvous]: [rendezvous_mediator.rs] and the creation of inbound connections
      in [server.rs]; handlers are computations on the state [Rz] whose traffic is a
      list of [Fx]; [run_loop] is a mediator over a list of events, [all_step] the
      restart loop among its interruptions; class [RzEnv] answers for the network, and
      [Others] is what the rest of the program does while a task waits.
    - [FileSystem], [PortableCache], [PortablePackage]: a file system of files,
      directories and links with path resolution; [homedesk_cache.rs]; the package
      format and the launcher of [libs/portable].
    - [Posix], [IpcChannel]: inodes with owners and modes, sockets and processes;
      [ipc/fs.rs], [ipc/auth.rs] and the accept loop of [ipc.rs] on Linux.
    - [ConnManager]: [ui_cm_interface.rs] on the desktop and the channel between it
      and the connection.  [ConnFiles]: which requests of a connection justify a file
      operation of the manager.  [ConnAccept]: both ends composed.
    - [Effects]: the monad of the connection handlers, state passing with the
      effects listed in order, field update for records, and the rules [obeys] that
      the proofs about handlers apply.
    - [Message]: the protocol messages the connection tells apart (generated code,
      given as data types).
    - [ClientConfig]: [LoginConfigHandler] of [client.rs], a session's settings on
      the controller; the stored peers are the class [PeerStore], option names
      [ClientKeys], hashing, JSON and the build [ClientEnv].
    - [Controller]: [Client::start] and the login functions of [client.rs]; computations
      on [Ctl] whose traffic is a list of [Fx]; class [CtlEnv] answers for the network,
      moment by moment.
      [ClientSync]: the controller composed with the host's connection.
    - [SessionScope]: session types and their scope checks in
      [server/connection.rs].
    - [ServerReg]: the registry of connections and services of [server.rs].
    - [ConnState]: the connection ([Conn]), the state connections share ([Glob]),
      their effects, and the class [Env] of what the outside answers.
    - [Connection]: the handlers of [server/connection.rs] for an authorized session.
    - [ConnLogin]: opening, the login request and authorization; class [LoginEnv].
    - [ConnLoop]: the select loop, the forwarding loop and the tear-down; [step] is
      one event, [run] a list of [Tick]s, [life] a connection from its start.
    - [ConnScope]: lemmas on what each session type may do ([allowed]) and on
      permissions ([permitted]).  [ConnSafety]: the invariant of the loop
      ([main_inv]) through the login.  [ConnLife]: closing, the registry and the
      phases.  [ConnTrust]: the claims about lives.  [ConnPolicy]: passwords,
      permissions, the removal log.
    - [TerminalBuffer], [Terminal]: [server/terminal_service.rs] (Linux build).

    In each file the operations keep the source's names; the theorems that state
    what the component promises are in the module [<File>Claims] at its end,
    each theorem with hypotheses followed by an instance at concrete values.

    ** What the theorems show

    - Authorization: the newest login attempt wins whatever the interleaving; a
      session not revoked keeps its account scope; revocation is permanent; a login
      is all or nothing; a request is sent at most twice, the second time only
      with a validated replacement token of the same scope; the lease needs a
      confirmation within 15 seconds; the account tasks only take steps of the
      machine, so the invariants hold for them.
    - Permits: an accepted permit is signed, fresh and in scope; the host accepts a
      connection only for its own account, device, identity and connection number;
      what a controller prepares is accepted; permits and browser grants are never
      confused.
    - Configuration and addresses: a rejected or unpersisted profile changes
      nothing; without a confirmed profile and a live login every remote entry
      fails closed; imported options cannot cross the boundary; whitelists decide
      by CIDR membership and never admit public addresses.
    - Tunnel runtime: stopped owners never run, a stop silences helpers
      synchronously, at most one helper acts, superseded commands are inert, only
      verified files are launched; for every interleaving of threads.
    - Browser host: nothing stays pressed and nothing is captured without a live
      grant; silence releases input; frame conversion stays in bounds.
    - Login failures: the credential policy refines a specification by failure
      streaks, with 15 seconds after the third failure doubling up to half an hour and
      two hours of quiet forgetting it; the tables decide by the history of failures; IPv6 rotation inside a
      prefix does not evade the lock-out.
    - Connections: a connection is authorized only while the account is logged in,
      with a permit accepted for it, and by the host's user, a recent session's
      password, or a valid password from an address not locked out; before that the
      peer causes nothing beyond the login; the session keeps the type it asked
      for, and no message makes the host do what the type does not allow or what a
      permission withholds; every ending event of the phase the connection is in ends
      it at once (in the forwarding loop a revocation is not one: that loop does not
      notice it), and the end is announced once and leaves nothing registered.  Option messages are reduced to the largest
      part their type may set; the two-bit permissions, the password comparison and
      the rotation of the temporary password do what they say.
    - The controller: a session it starts is direct, encrypted, and with the key the
      permit names, whatever the server and the peer answer; it dials the signaling
      server under the login and the profile it checked before asking the name
      service (a change during that await is not noticed), no relay and no address
      typed in by hand; with punching disabled it stays on TCP; a
      toggle flips one option; passwords of shared address books are not stored.
    - Both ends: the host's flags follow the controller's settings, and the proof
      of a password is accepted at the login and at a reconnection.  A toggle that
      view-only mode masks is refused by neither end: the interface disables it.
    - Saving a profile: a save the user was told was not sent never reaches the
      service; when its outcome is unknown new connections are refused; once all
      calls have returned and nothing is under way a confirmed profile is the
      service's one, or one of five causes has occurred ([Cause]; two of them are
      shown to confirm a stale profile); account tasks run in order.
    - Signaling: inbound sessions are direct, keyed and from addresses admitted when
      they were checked, however the configuration changes while a task waits,
      except that an IPv6 candidate is not checked; no relay is dialed or offered; no
      mediator
      runs on a stale configuration once the change is announced; key registrations
      are spaced; the registration loop's timeouts and latencies stay in range.
    - Connection manager: a session is authorized by its user or a proof; a file
      operation is done only for an authorized session that asked for it by a
      request of its own, and only for accepted jobs; frames round-trip; a read turn
      accounts for every job.
    - Portable package: the cache touches nothing but its own directory; only
      verified programs are launched; the format round-trips.
    - IPC: the channel's directory is hardened before the listener starts, except
      for a directory adopted from another owner; the service channel admits the
      active user's trusted program only, and only synchronizes.
    - Services: what each connection received refines a per-connection
      specification, lock region by lock region; a connection that waits when a
      snapshot begins gets all of it before the stream, one that comes while it is
      under way only the rest; back-off is bounded.
    - Video: the controller never fails and stays in its envelope; the shared rate
      serves the slowest viewer; congestion lowers the rate.
    - Terminals: a reconnection replays all of a short history and the newest part of
      a long one, and then streams each byte once, in order, except for chunks that
      come while 500 are waiting; child
      processes are never forgotten; closed terminals are announced once and
      removed; the SIGWINCH sequence ends; the splitter never cuts a character;
      the replay buffer is a bounded suffix, except while a line stays open.

    ** Bounds, fuel, time

    Integers are [Z] with the wrap-around of their Rust width written out where the
    code can reach it; theorems about revision, epoch and serial counters bound the
    number of steps by the counter's range ([fits], [sroom]), 2^64 steps being out
    of reach.  No definition runs on fuel except [from_utf8] and [write_loop] (bounded
    by the length of their input), path resolution (40 links, the limit of the
    system, after which the code sees the same error), the scan of a cache tree
    (bounded by the depth of the tree, with a lemma that this is enough) and the
    loops over what the environment does next (the answers of
    the network or of threads), which are recursions over the list of those
    answers: theorems hold for every such list ([ConnLoop.run] recurses over the
    events of a connection, [ProfileSave.run] and [Rendezvous.all_run] over the
    actions of their threads).  Where [Controller] or a task of [Rendezvous] awaits, an
    arbitrary function changes the configuration and the login; of two attempts that
    run concurrently the effects are listed one after the other.  Times are nanoseconds, given to
    the operation that reads the clock.

    ** Not modelled

    Device and network I/O, the platform layers, the user interface, codecs and
    the Go agent: they appear as arguments.  Of [server/connection.rs] the input,
    IPC and wake-lock threads, the file clipboard, plugins, remote printing and the
    Windows parts; of [server.rs] the start-up; of [client.rs] the message loop after
    the login ([client/io_loop.rs]), the media, clipboard and input helpers and the
    status queries.  The file system of the portable cache is case-sensitive,
    one volume, and not changed by others during an operation; the transfer jobs of the
    file library, JSON and Brotli are arguments with laws; of [ipc.rs] the request
    handler is modelled for the network profile only.  Setting the cached options and
    the service's handling of one profile are single actions of [ProfileSave].  The
    Windows helper mode of terminals and the Android and iOS variants are left out.  A
    handler of a connection runs to its end before the next event: the loop awaits
    it.  The state that connections share ([Glob]) is changed in a [life] by this
    connection and by the events it receives only; what other connections do to it in
    between is not modelled (the registry itself is the subject of [ServerReg]).  In
    [TunnelRuntime] the kill signal to a helper's process group takes effect at once
    and the group is one process: the delay of the signal and the agent that the
    helper starts in its group are not modelled.  Memory
    ordering is sequentially consistent: the sources use [SeqCst] and locks. *)
From stdpp Require Import base gmap list strings pretty.
From Stdlib Require Import ZArith Lia.

#[global] Open Scope Z_scope.

(** ** Results: Rust's [Result], with the [?] operator as monadic bind *)

Inductive result (E A : Type) : Type :=
| Ok (a : A)
| Err (e : E).
Arguments Ok {E A} a.
Arguments Err {E A} e.

#[global] Instance result_ret E : MRet (result E) := fun A a => Ok a.
#[global] Instance result_bind E : MBind (result E) := fun A B f r =>
  match r with Ok a => f a | Err e => Err e end.
#[global] Instance result_fmap E : FMap (result E) := fun A B f r =>
  match r with Ok a => Ok (f a) | Err e => Err e end.

Definition is_ok {E A} (r : result E A) : bool :=
  match r with Ok _ => true | Err _ => false end.

(** [Result::ok] *)
Definition result_ok {E A} (r : result E A) : option A :=
  match r with Ok a => Some a | Err _ => None end.

(** [Option::ok_or] *)
Definition ok_or {E A} (o : option A) (e : E) : result E A :=
  match o with Some a => Ok a | None => Err e end.

(** [if c { bail!(e) }; k] *)
Definition bail_if {E A} (c : bool) (e : E) (k : result E A) : result E A :=
  if c then Err e else k.

Lemma bail_if_ok {E A} c (e : E) (k : result E A) a :
  bail_if c e k = Ok a <-> c = false /\ k = Ok a.
Proof. destruct c; simpl; naive_solver. Qed.

Lemma bind_ok {E A B} (r : result E A) (f : A -> result E B) b :
  (r ≫= f) = Ok b <-> exists a, r = Ok a /\ f a = Ok b.
Proof. destruct r; simpl; naive_solver. Qed.

Lemma ok_or_ok {E A} (o : option A) (e : E) a : ok_or o e = Ok a <-> o = Some a.
Proof. destruct o; simpl; naive_solver. Qed.

(** ** Machine integers

    A [w]-bit integer is the [Z] it denotes; arithmetic that may leave the
    range is wrapped (release-build semantics) or saturated explicitly. *)

Definition wrapu (w x : Z) : Z := x mod 2 ^ w.
Definition wraps (w x : Z) : Z := (x + 2 ^ (w - 1)) mod 2 ^ w - 2 ^ (w - 1).
Definition u_max (w : Z) : Z := 2 ^ w - 1.
Definition s_max (w : Z) : Z := 2 ^ (w - 1) - 1.
Definition s_min (w : Z) : Z := - 2 ^ (w - 1).
Definition clamp (lo hi x : Z) : Z := if x <? lo then lo else if hi <? x then hi else x.

Definition u64_add (a b : Z) : Z := wrapu 64 (a + b).
Definition u32_add (a b : Z) : Z := wrapu 32 (a + b).
Definition u32_mul (a b : Z) : Z := wrapu 32 (a * b).
Definition i64_add (a b : Z) : Z := wraps 64 (a + b).
Definition i64_sub (a b : Z) : Z := wraps 64 (a - b).
Definition i32_add (a b : Z) : Z := wraps 32 (a + b).
Definition i32_sub (a b : Z) : Z := wraps 32 (a - b).
Definition i32_saturating_add (a b : Z) : Z := clamp (s_min 32) (s_max 32) (a + b).
Definition i64_saturating_sub (a b : Z) : Z := clamp (s_min 64) (s_max 64) (a - b).
Definition u64_saturating_add (a b : Z) : Z := clamp 0 (u_max 64) (a + b).
Definition u64_checked_sub (a b : Z) : option Z := if b <=? a then Some (a - b) else None.

Definition is_u (w x : Z) : Prop := 0 <= x < 2 ^ w.
Definition is_s (w x : Z) : Prop := - 2 ^ (w - 1) <= x < 2 ^ (w - 1).

Lemma wrapu_small w x : is_u w x -> wrapu w x = x.
Proof. intros H. by apply Z.mod_small. Qed.

Lemma wraps_small w x : 0 < w -> is_s w x -> wraps w x = x.
Proof.
  unfold is_s, wraps. intros Hw H. rewrite Z.mod_small; [lia|].
  replace (2 ^ w) with (2 * 2 ^ (w - 1)); [lia|].
  rewrite <- Z.pow_succ_r; [f_equal; lia | lia].
Qed.

Lemma clamp_bounds lo hi x : lo <= hi -> lo <= clamp lo hi x <= hi.
Proof. unfold clamp. intros. destruct (Z.ltb_spec x lo), (Z.ltb_spec hi x); lia. Qed.

Lemma clamp_id lo hi x : lo <= x <= hi -> clamp lo hi x = x.
Proof. unfold clamp. intros. destruct (Z.ltb_spec x lo), (Z.ltb_spec hi x); lia. Qed.

(** ** Automation *)

Create HintDb rust.
#[export] Hint Resolve clamp_bounds wrapu_small wraps_small : rust.

(** Splits every boolean comparison in sight into its arithmetic reading. *)
Ltac zcases :=
  repeat match goal with
  | |- context [?a <? ?b] => destruct (Z.ltb_spec a b)
  | |- context [?a <=? ?b] => destruct (Z.leb_spec a b)
  | |- context [?a =? ?b] => destruct (Z.eqb_spec a b)
  | H : context [?a <? ?b] |- _ => destruct (Z.ltb_spec a b)
  | H : context [?a <=? ?b] |- _ => destruct (Z.leb_spec a b)
  | H : context [?a =? ?b] |- _ => destruct (Z.eqb_spec a b)
  end.

Ltac bools :=
  repeat match goal with
  | H : (_ && _)%bool = true |- _ => apply andb_prop in H as [? ?]
  | H : (_ || _)%bool = false |- _ => apply orb_false_elim in H as [? ?]
  | H : negb _ = true |- _ => apply negb_true_iff in H
  | H : negb _ = false |- _ => apply negb_false_iff in H
  | H : (_ <? _) = true |- _ => apply Z.ltb_lt in H
  | H : (_ <? _) = false |- _ => apply Z.ltb_ge in H
  | H : (_ <=? _) = true |- _ => apply Z.leb_le in H
  | H : (_ <=? _) = false |- _ => apply Z.leb_gt in H
  | H : (_ =? _) = true |- _ => apply Z.eqb_eq in H
  | H : (_ =? _) = false |- _ => apply Z.eqb_neq in H
  | H : bool_decide _ = true |- _ => apply bool_decide_eq_true in H
  | H : bool_decide _ = false |- _ => apply bool_decide_eq_false in H
  end.
