(* ===== verification/RustStr.v ===== *)
(** * Strings, numbers and addresses of the Rust standard library

    What the modelled code uses of [str], [char], [u8], [str::parse] and
    [std::net].  A [str] is the list of its Unicode scalar values; its byte
    length and bytes are those of its UTF-8 encoding. *)
From stdpp Require Import base gmap list strings pretty.
From Stdlib Require Import ZArith Lia Ascii.
From S2P Require Import Prelude.

#[global] Open Scope Z_scope.
#[global] Open Scope list_scope.

Abbreviation str := (list Z).

(** ** UTF-8 *)

Definition utf8_width (c : Z) : Z :=
  if c <? 0x80 then 1 else if c <? 0x800 then 2 else if c <? 0x10000 then 3 else 4.

Definition utf8_char (c : Z) : list Z :=
  if c <? 0x80 then [c]
  else if c <? 0x800 then [0xC0 + c / 64; 0x80 + c mod 64]
  else if c <? 0x10000 then [0xE0 + c / 4096; 0x80 + (c / 64) mod 64; 0x80 + c mod 64]
  else [0xF0 + c / 262144; 0x80 + (c / 4096) mod 64; 0x80 + (c / 64) mod 64; 0x80 + c mod 64].

(** [str::as_bytes] and [str::len] *)
Definition str_bytes (s : str) : list Z := s ≫= utf8_char.
Definition str_len (s : str) : Z := Z.of_nat (length (str_bytes s)).

Definition is_cont (b : Z) : bool := (0x80 <=? b) && (b <=? 0xBF).

(** [core::str::from_utf8]: rejects overlong forms, surrogates and values
    above U+10FFFF. *)
Fixpoint from_utf8_go (fuel : nat) (bs : list Z) : option str :=
  match fuel with
  | O => match bs with [] => Some [] | _ => None end
  | S k =>
    match bs with
    | [] => Some []
    | b :: r =>
      if b <? 0x80 then cons b <$> from_utf8_go k r
      else if (0xC2 <=? b) && (b <=? 0xDF) then
        match r with
        | b1 :: r1 => if is_cont b1 then cons ((b - 0xC0) * 64 + (b1 - 0x80)) <$> from_utf8_go k r1 else None
        | _ => None
        end
      else if (0xE0 <=? b) && (b <=? 0xEF) then
        match r with
        | b1 :: b2 :: r2 =>
          let c := (b - 0xE0) * 4096 + (b1 - 0x80) * 64 + (b2 - 0x80) in
          if is_cont b1 && is_cont b2 && (0x800 <=? c) && negb ((0xD800 <=? c) && (c <=? 0xDFFF))
          then cons c <$> from_utf8_go k r2 else None
        | _ => None
        end
      else if (0xF0 <=? b) && (b <=? 0xF4) then
        match r with
        | b1 :: b2 :: b3 :: r3 =>
          let c := (b - 0xF0) * 262144 + (b1 - 0x80) * 4096 + (b2 - 0x80) * 64 + (b3 - 0x80) in
          if is_cont b1 && is_cont b2 && is_cont b3 && (0x10000 <=? c) && (c <=? 0x10FFFF)
          then cons c <$> from_utf8_go k r3 else None
        | _ => None
        end
      else None
    end
  end.

Definition from_utf8 (bs : list Z) : option str := from_utf8_go (length bs) bs.

(** String literals: the bytes of a Rocq literal, decoded. *)
Definition of_ascii (s : string) : list Z := (fun a => Z.of_nat (nat_of_ascii a)) <$> String.list_ascii_of_string s.
Definition lit (s : string) : str := default [] (from_utf8 (of_ascii s)).
Arguments lit s%_string : simpl never.

(** ** Character classes *)

Definition is_ascii_digit (c : Z) : bool := (48 <=? c) && (c <=? 57).
Definition is_ascii_uppercase (c : Z) : bool := (65 <=? c) && (c <=? 90).
Definition is_ascii_lowercase (c : Z) : bool := (97 <=? c) && (c <=? 122).
Definition is_ascii_alphabetic (c : Z) : bool := is_ascii_uppercase c || is_ascii_lowercase c.
Definition is_ascii_alphanumeric (c : Z) : bool := is_ascii_alphabetic c || is_ascii_digit c.
Definition is_ascii_hexdigit (c : Z) : bool :=
  is_ascii_digit c || ((65 <=? c) && (c <=? 70)) || ((97 <=? c) && (c <=? 102)).
(** [char::is_control]: general category Cc *)
Definition is_control (c : Z) : bool := ((0 <=? c) && (c <=? 31)) || ((127 <=? c) && (c <=? 159)).
(** [char::is_whitespace]: Unicode White_Space *)
Definition is_whitespace (c : Z) : bool :=
  ((9 <=? c) && (c <=? 13)) || (c =? 32) || (c =? 0x85) || (c =? 0xA0) || (c =? 0x1680)
  || ((0x2000 <=? c) && (c <=? 0x200A)) || (c =? 0x2028) || (c =? 0x2029) || (c =? 0x202F)
  || (c =? 0x205F) || (c =? 0x3000).
Definition to_ascii_lowercase_c (c : Z) : Z := if is_ascii_uppercase c then c + 32 else c.
Definition to_ascii_uppercase_c (c : Z) : Z := if is_ascii_lowercase c then c - 32 else c.
Definition to_ascii_lowercase (s : str) : str := to_ascii_lowercase_c <$> s.
Definition to_ascii_uppercase (s : str) : str := to_ascii_uppercase_c <$> s.
Definition eq_ignore_ascii_case (a b : str) : bool :=
  bool_decide (to_ascii_lowercase a = to_ascii_lowercase b).

(** ** Slicing *)

Fixpoint trim_start (s : str) : str :=
  match s with [] => [] | c :: r => if is_whitespace c then trim_start r else s end.
Definition trim_end (s : str) : str := reverse (trim_start (reverse s)).
Definition trim (s : str) : str := trim_end (trim_start s).

(** [str::split] by a character predicate: always at least one piece. *)
Fixpoint split (sep : Z -> bool) (s : str) : list str :=
  match s with
  | [] => [[]]
  | c :: r =>
    if sep c then [] :: split sep r
    else match split sep r with [] => [[c]] | w :: ws => (c :: w) :: ws end
  end.
Definition split_char (c : Z) (s : str) : list str := split (fun x => x =? c) s.

(** [str::split_once] and [str::rsplit_once] by a character *)
Fixpoint split_once (c : Z) (s : str) : option (str * str) :=
  match s with
  | [] => None
  | x :: r => if x =? c then Some ([], r)
              else '(a, b) ← split_once c r; Some (x :: a, b)
  end.
Fixpoint rsplit_once (c : Z) (s : str) : option (str * str) :=
  match s with
  | [] => None
  | x :: r =>
    match rsplit_once c r with
    | Some (a, b) => Some (x :: a, b)
    | None => if x =? c then Some ([], r) else None
    end
  end.

Definition contains_c (p : Z -> bool) (s : str) : bool := existsb p s.

Fixpoint strip_prefix (p s : str) : option str :=
  match p, s with
  | [], _ => Some s
  | a :: p', b :: s' => if a =? b then strip_prefix p' s' else None
  | _ :: _, [] => None
  end.
Definition starts_with (p s : str) : bool := bool_decide (is_Some (strip_prefix p s)).
Definition strip_suffix (p s : str) : option str := reverse <$> strip_prefix (reverse p) (reverse s).
Definition ends_with (p s : str) : bool := bool_decide (is_Some (strip_suffix p s)).

Definition join (sep : str) (ws : list str) : str :=
  match ws with [] => [] | w :: r => w ++ (r ≫= fun x => sep ++ x) end.

(** ** Numbers *)

(** [Display] of an integer *)
Definition fmt_Z (z : Z) : str := of_ascii (pretty z).

Definition digits_val (s : str) : Z := foldl (fun acc c => acc * 10 + (c - 48)) 0 s.

(** [str::parse::<uW>]: an optional plus sign, then at least one digit. *)
Definition parse_u (w : Z) (s : str) : option Z :=
  let ds := match s with c :: r => if c =? 43 then r else s | [] => [] end in
  if bool_decide (ds = []) || negb (forallb is_ascii_digit ds) then None
  else let v := digits_val ds in if v <=? u_max w then Some v else None.

(** ** IPv4 addresses: a [u32] in host order *)

Definition octets (ip : Z) : Z * Z * Z * Z :=
  ((ip / 16777216) mod 256, (ip / 65536) mod 256, (ip / 256) mod 256, ip mod 256).
Definition ipv4_new (a b c d : Z) : Z := ((a * 256 + b) * 256 + c) * 256 + d.

(** One decimal octet: one to three digits, no leading zero, at most 255. *)
Definition parse_octet (s : str) : option Z :=
  if forallb is_ascii_digit s && (Z.of_nat (length s) <=? 3) && negb (bool_decide (s = []))
     && ((Z.of_nat (length s) =? 1) || negb (bool_decide (head s = Some 48)))
  then let v := digits_val s in if v <=? 255 then Some v else None
  else None.

(** [str::parse::<Ipv4Addr>] *)
Definition parse_ipv4 (s : str) : option Z :=
  match split_char 46 s with
  | [a; b; c; d] =>
    x ← parse_octet a; y ← parse_octet b; z ← parse_octet c; w ← parse_octet d;
    Some (ipv4_new x y z w)
  | _ => None
  end.

(** [Display] of an [Ipv4Addr] *)
Definition fmt_ipv4 (ip : Z) : str :=
  let '(a, b, c, d) := octets ip in
  fmt_Z a ++ [46] ++ fmt_Z b ++ [46] ++ fmt_Z c ++ [46] ++ fmt_Z d.

Inductive SocketAddr :=
| V4 (ip : Z) (port : Z)
| V6 (ip : Z) (port : Z).

(** ** IPv6 addresses: a [u128] in host order *)

Definition hex_digit (c : Z) : option Z :=
  if is_ascii_digit c then Some (c - 48)
  else if (97 <=? c) && (c <=? 102) then Some (c - 87)
  else if (65 <=? c) && (c <=? 70) then Some (c - 55) else None.

(** [Parser::read_number(16, Some(4), true)] *)
Fixpoint hex_run (s : str) : list Z * str :=
  match s with
  | c :: r => match hex_digit c with Some d => let '(ds, t) := hex_run r in (d :: ds, t) | None => ([], s) end
  | [] => ([], [])
  end.
Definition read_hex_group (s : str) : option (Z * str) :=
  let '(ds, t) := hex_run s in
  if bool_decide (ds = []) || (4 <? Z.of_nat (length ds)) then None
  else Some (foldl (fun acc d => acc * 16 + d) 0 ds, t).

(** [Parser::read_ipv4_addr] on a prefix of the input *)
Fixpoint digit_run (s : str) : str * str :=
  match s with
  | c :: r => if is_ascii_digit c then let '(ds, t) := digit_run r in (c :: ds, t) else ([], s)
  | [] => ([], [])
  end.
Definition read_octet (s : str) : option (Z * str) :=
  let '(ds, t) := digit_run s in v ← parse_octet ds; Some (v, t).
Definition read_char (c : Z) (s : str) : option str :=
  match s with x :: r => if x =? c then Some r else None | [] => None end.
Definition read_ipv4 (s : str) : option (Z * str) :=
  '(a, s) ← read_octet s; s ← read_char 46 s;
  '(b, s) ← read_octet s; s ← read_char 46 s;
  '(c, s) ← read_octet s; s ← read_char 46 s;
  '(d, s) ← read_octet s; Some (ipv4_new a b c d, s).

(** [Parser::read_separator(':', index, inner)] *)
Definition read_sep {A} (index : nat) (inner : str -> option (A * str)) (s : str) : option (A * str) :=
  match index with O => inner s | S _ => s ← read_char 58 s; inner s end.

(** [read_groups]: up to [limit] groups; [true] when an IPv4 tail ended it. *)
Fixpoint read_groups (limit index : nat) (s : str) : list Z * bool * str :=
  match limit with
  | O => ([], false, s)
  | S l =>
    let v4 := match l with O => None | S _ => read_sep index read_ipv4 s end in
    match v4 with
    | Some (ip, t) => ([ip / 65536; ip mod 65536], true, t)
    | None =>
      match read_sep index read_hex_group s with
      | Some (g, t) => let '(gs, b, t') := read_groups l (S index) t in (g :: gs, b, t')
      | None => ([], false, s)
      end
    end
  end.

Definition groups_val (gs : list Z) : Z := foldl (fun acc g => acc * 65536 + g) 0 gs.

(** [str::parse::<Ipv6Addr>] *)
Definition parse_ipv6 (s : str) : option Z :=
  let '(head, head_v4, rest) := read_groups 8 0 s in
  let n := length head in
  if bool_decide (n = 8%nat) then (if bool_decide (rest = []) then Some (groups_val head) else None)
  else if head_v4 then None
  else
    rest ← read_char 58 rest; rest ← read_char 58 rest;
    let '(tail, _, rest) := read_groups (8 - (n + 1)) 0 rest in
    if bool_decide (rest = [])
    then Some (groups_val (head ++ replicate (8 - n - length tail) 0 ++ tail)) else None.

Definition segments (ip : Z) : list Z :=
  (fun i => (ip / 65536 ^ i) mod 65536) <$> [7; 6; 5; 4; 3; 2; 1; 0].

Definition hex_char (d : Z) : Z := if d <? 10 then 48 + d else 87 + d.
(** [{:x}] of a [u16] *)
Definition fmt_hex16 (g : Z) : str :=
  let ds := [g / 4096; (g / 256) mod 16; (g / 16) mod 16; g mod 16] in
  let fix strip (l : list Z) := match l with [] => [] | [d] => [d] | d :: r => if d =? 0 then strip r else l end in
  hex_char <$> strip ds.

(** The longest run of zero segments, the first one on a tie: (start, length). *)
Fixpoint longest_zeroes (gs : list Z) (i : nat) (cur best : nat * nat) : nat * nat :=
  match gs with
  | [] => best
  | g :: r =>
    if g =? 0 then
      let cur := (if bool_decide (cur.2 = 0%nat) then i else cur.1, S cur.2) in
      longest_zeroes r (S i) cur (if bool_decide (best.2 < cur.2)%nat then cur else best)
    else longest_zeroes r (S i) (0%nat, 0%nat) best
  end.

(** [Display] of an [Ipv6Addr] *)
Definition fmt_ipv6 (ip : Z) : str :=
  let gs := segments ip in
  if bool_decide (take 6 gs = [0; 0; 0; 0; 0; 0xffff])
  then lit "::ffff:" ++ fmt_ipv4 (ip mod 2 ^ 32)
  else
    let sub := fun l => join [58] (fmt_hex16 <$> l) in
    let '(start, len) := longest_zeroes gs 0 (0%nat, 0%nat) (0%nat, 0%nat) in
    if bool_decide (1 < len)%nat
    then sub (take start gs) ++ [58; 58] ++ sub (drop (start + len) gs)
    else sub gs.

(** [str::parse::<SocketAddr>]: [ip:port], or [[ip]:port] with an optional
    numeric scope for IPv6; the port is digits only. *)
Definition parse_port (s : str) : option Z :=
  if bool_decide (s = []) || negb (forallb is_ascii_digit s) then None
  else let v := digits_val s in if v <=? 65535 then Some v else None.
Definition parse_scope (s : str) : option Z :=
  if bool_decide (s = []) || negb (forallb is_ascii_digit s) then None
  else let v := digits_val s in if v <=? u_max 32 then Some v else None.
Definition parse_socket_addr (s : str) : option SocketAddr :=
  '(host, port) ← rsplit_once 58 s;
  port ← parse_port port;
  match parse_ipv4 host with
  | Some ip => Some (V4 ip port)
  | None =>
    inner ← strip_prefix [91] host; inner ← strip_suffix [93] inner;
    match split_once 37 inner with
    | Some (addr, scope) => ip ← parse_ipv6 addr; _ ← parse_scope scope; Some (V6 ip port)
    | None => ip ← parse_ipv6 inner; Some (V6 ip port)
    end
  end.

(** ** Lemmas *)

Lemma trim_start_id s : Forall (fun c => is_whitespace c = false) s -> trim_start s = s.
Proof. destruct 1 as [|c r Hc _]; simpl; [done|]. by rewrite Hc. Qed.

Lemma trim_id s : Forall (fun c => is_whitespace c = false) s -> trim s = s.
Proof.
  intros H. unfold trim, trim_end. rewrite (trim_start_id s H), trim_start_id, reverse_involutive; [done|].
  by apply Forall_reverse.
Qed.

Lemma trim_start_all s : Forall (fun c => is_whitespace c = true) s -> trim_start s = [].
Proof. induction 1 as [|c r Hc _ IH]; simpl; [done|]. by rewrite Hc. Qed.

Lemma rsplit_once_none c s : Forall (fun x => (x =? c) = false) s -> rsplit_once c s = None.
Proof. induction 1 as [|x r Hx _ IH]; simpl; [done|]. by rewrite IH, Hx. Qed.

Lemma split_nonempty sep s : split sep s <> [].
Proof. induction s as [|c r IH]; simpl; [done|]. destruct (sep c); [done|]. by destruct (split sep r). Qed.

(** A piece without separators, followed by a separator, is split off whole. *)
Lemma split_app_sep sep w c s :
  Forall (fun x => sep x = false) w -> sep c = true ->
  split sep (w ++ c :: s) = w :: split sep s.
Proof.
  intros Hw Hc. induction Hw as [|x w Hx _ IH]; simpl; [by rewrite Hc|].
  by rewrite Hx, IH.
Qed.

Lemma split_none sep w : Forall (fun x => sep x = false) w -> split sep w = [w].
Proof. induction 1 as [|x w Hx _ IH]; simpl; [done|]. by rewrite Hx, IH. Qed.

Lemma split_pieces sep s : Forall (Forall (fun x => sep x = false)) (split sep s).
Proof.
  induction s as [|c r IH]; simpl; [repeat constructor|].
  destruct (sep c) eqn:Hc; [by constructor|].
  destruct (split sep r) as [|w ws]; [by repeat constructor|].
  inversion IH; subst. by repeat constructor.
Qed.

(** Splitting undoes joining. *)
Lemma split_join sep c ws :
  sep c = true -> ws <> [] -> Forall (Forall (fun x => sep x = false)) ws ->
  split sep (join [c] ws) = ws.
Proof.
  intros Hc Hne Hws. destruct ws as [|w ws]; [done|]. clear Hne.
  inversion Hws as [|? ? Hw Hrest]; subst. unfold join. clear Hws.
  revert w Hw. induction ws as [|v vs IH]; intros w Hw.
  - unfold mbind, list_bind. rewrite app_nil_r. by apply split_none.
  - inversion Hrest; subst. change ((v :: vs) ≫= λ x : str, [c] ++ x) with ((c :: v) ++ (vs ≫= fun x => [c] ++ x)).
    simpl app at 2. rewrite split_app_sep by done. f_equal. apply (IH ltac:(done) v). done.
Qed.

Lemma of_ascii_inj s t : of_ascii s = of_ascii t -> s = t.
Proof.
  unfold of_ascii. revert t. induction s as [|a s IH]; intros [|b t]; simpl; try done.
  intros [= Hab Hst]. f_equal; [|by apply IH].
  apply Nat2Z.inj in Hab. rewrite <- (ascii_nat_embedding a), <- (ascii_nat_embedding b). congruence.
Qed.

Lemma fmt_Z_inj a b : fmt_Z a = fmt_Z b -> a = b.
Proof. intros H. apply of_ascii_inj in H. by apply (inj pretty) in H. Qed.

(** Decides a property of all octets by evaluation. *)
Lemma octet_check (P : Z -> bool) :
  forallb P (Z.of_nat <$> seq 0 256) = true -> forall v, 0 <= v < 256 -> P v = true.
Proof.
  intros H v Hv. rewrite forallb_forall in H. apply H.
  apply list_elem_of_In, list_elem_of_fmap. exists (Z.to_nat v).
  rewrite elem_of_seq. lia.
Qed.

Lemma fmt_octet v : 0 <= v < 256 ->
  parse_octet (fmt_Z v) = Some v /\ Forall (fun x => (x =? 46) = false) (fmt_Z v)
  /\ fmt_Z v <> [].
Proof.
  intros Hv.
  assert (H : bool_decide (parse_octet (fmt_Z v) = Some v)
    && forallb (fun x => negb (x =? 46)) (fmt_Z v) && negb (bool_decide (fmt_Z v = [])) = true).
  { revert v Hv. apply octet_check. vm_compute. reflexivity. }
  bools. split; [done|]. split; [|done].
  apply Forall_forall. intros x Hx. rewrite forallb_forall in H1.
  apply negb_true_iff, H1. by apply list_elem_of_In.
Qed.

Lemma fmt_octet_chars v : 0 <= v < 256 -> Forall (fun x => is_ascii_digit x = true) (fmt_Z v).
Proof.
  intros Hv. assert (H : forallb is_ascii_digit (fmt_Z v) = true).
  { revert v Hv. apply octet_check. vm_compute. reflexivity. }
  apply Forall_forall. intros x Hx. rewrite forallb_forall in H. apply H. by apply list_elem_of_In.
Qed.

Lemma octets_new ip : is_u 32 ip ->
  let '(a, b, c, d) := octets ip in
  (0 <= a < 256 /\ 0 <= b < 256 /\ 0 <= c < 256 /\ 0 <= d < 256) /\ ipv4_new a b c d = ip.
Proof.
  unfold is_u, octets, ipv4_new. intros H.
  repeat split; try (apply Z.mod_pos_bound; lia).
  rewrite (Z.mod_small (ip / 16777216)) by (split; [apply Z.div_pos; lia | apply Z.div_lt_upper_bound; lia]).
  replace (ip / 16777216) with (ip / 256 / 256 / 256) by (rewrite !Z.div_div by lia; f_equal; lia).
  replace (ip / 65536) with (ip / 256 / 256) by (rewrite Z.div_div by lia; f_equal; lia).
  pose proof (Z.div_mod ip 256). pose proof (Z.div_mod (ip / 256) 256).
  pose proof (Z.div_mod (ip / 256 / 256) 256). lia.
Qed.

Lemma octets_ipv4_new a b c d :
  0 <= a < 256 -> 0 <= b < 256 -> 0 <= c < 256 -> 0 <= d < 256 ->
  octets (ipv4_new a b c d) = (a, b, c, d).
Proof.
  unfold octets, ipv4_new. intros.
  repeat f_equal; Z.div_mod_to_equations; lia.
Qed.

(** Parsing undoes printing of an IPv4 address. *)
Lemma parse_fmt_ipv4 ip : is_u 32 ip -> parse_ipv4 (fmt_ipv4 ip) = Some ip.
Proof.
  intros H. pose proof (octets_new ip H) as Ho. unfold fmt_ipv4, parse_ipv4.
  destruct (octets ip) as [[[a b] c] d]. destruct Ho as [(Ha & Hb & Hc & Hd) <-].
  apply fmt_octet in Ha as (Pa & Fa & _), Hb as (Pb & Fb & _), Hc as (Pc & Fc & _), Hd as (Pd & Fd & _).
  unfold split_char. simpl app.
  rewrite !split_app_sep by done. rewrite split_none by done.
  by rewrite Pa, Pb, Pc, Pd.
Qed.

Lemma digits_fold_nonneg s acc : 0 <= acc -> forallb is_ascii_digit s = true ->
  0 <= foldl (fun acc c => acc * 10 + (c - 48)) acc s.
Proof.
  revert acc. induction s as [|x s IH]; intros acc Hacc; simpl; [done|].
  intros [Hx Hs]%andb_prop. unfold is_ascii_digit in Hx. bools. apply IH; [lia|done].
Qed.

Lemma digits_val_nonneg s : forallb is_ascii_digit s = true -> 0 <= digits_val s.
Proof. by apply digits_fold_nonneg. Qed.

Lemma parse_u_range w s v : parse_u w s = Some v -> 0 <= v <= u_max w.
Proof.
  unfold parse_u. set (ds := match s with [] => [] | c :: r => if c =? 43 then r else s end).
  destruct (_ || _)%bool eqn:E; [done|]. bools. pose proof (digits_val_nonneg ds).
  destruct (Z.leb_spec (digits_val ds) (u_max w)); intros; simplify_eq. auto.
Qed.

Lemma parse_octet_range s v : parse_octet s = Some v -> 0 <= v < 256.
Proof.
  unfold parse_octet. destruct (_ && _)%bool eqn:E; [|done].
  destruct (Z.leb_spec (digits_val s) 255); intros; simplify_eq.
  bools. pose proof (digits_val_nonneg s). auto with lia.
Qed.

Lemma parse_ipv4_range s ip : parse_ipv4 s = Some ip -> is_u 32 ip.
Proof.
  unfold parse_ipv4. intros H. destruct (split_char 46 s) as [|a [|b [|c [|d [|]]]]]; try done.
  apply bind_Some in H as (x & E1 & H). apply bind_Some in H as (y & E2 & H).
  apply bind_Some in H as (z & E3 & H). apply bind_Some in H as (w & E4 & H). simplify_eq.
  apply parse_octet_range in E1, E2, E3, E4. unfold is_u, ipv4_new. lia.
Qed.

(** A printed address has only digits and dots. *)
Lemma fmt_ipv4_chars ip : is_u 32 ip ->
  Forall (fun x => is_ascii_digit x = true \/ x = 46) (fmt_ipv4 ip).
Proof.
  intros H. pose proof (octets_new ip H) as Ho. unfold fmt_ipv4.
  destruct (octets ip) as [[[a b] c] d]. destruct Ho as [(Ha & Hb & Hc & Hd) _].
  assert (Hd' : forall v, 0 <= v < 256 -> Forall (fun x => is_ascii_digit x = true \/ x = 46) (fmt_Z v)).
  { intros v Hv. eapply Forall_impl; [by apply fmt_octet_chars|]. simpl. auto. }
  rewrite !Forall_app. repeat split; auto; by constructor; [right|constructor].
Qed.

Lemma fmt_ipv4_no_colon ip : is_u 32 ip -> rsplit_once 58 (fmt_ipv4 ip) = None.
Proof.
  intros H. apply rsplit_once_none. eapply Forall_impl; [by apply fmt_ipv4_chars|].
  intros x [Hx| ->]; [|done]. unfold is_ascii_digit in Hx. bools. by apply Z.eqb_neq; lia.
Qed.

Lemma digit_not_whitespace x : is_ascii_digit x = true -> is_whitespace x = false.
Proof.
  intros H. assert (Hx : 0 <= x < 256) by (unfold is_ascii_digit in H; bools; lia).
  assert (Hc : negb (is_ascii_digit x) || negb (is_whitespace x) = true).
  { revert x Hx H. intros x Hx _. revert x Hx. apply octet_check. vm_compute. reflexivity. }
  rewrite H in Hc. simpl in Hc. by apply negb_true_iff in Hc.
Qed.

Lemma join_split c s : join [c] (split_char c s) = s.
Proof.
  unfold split_char. induction s as [|x r IH]; [done|]. simpl.
  destruct (Z.eqb_spec x c) as [->|_].
  - destruct (split _ r) as [|w ws] eqn:E; [by destruct (split_nonempty _ _ E)|].
    change (c :: join [c] (w :: ws) = c :: r). by rewrite IH.
  - destruct (split _ r) as [|w ws] eqn:E; [by destruct (split_nonempty _ _ E)|].
    change (x :: join [c] (w :: ws) = x :: r). by rewrite IH.
Qed.

Lemma pretty_N_char_digit (n : N) : is_ascii_digit (Z.of_nat (nat_of_ascii (pretty_N_char n))) = true.
Proof. unfold pretty_N_char. repeat case_match; reflexivity. Qed.

Lemma pretty_N_go_digits (n : N) (s : string) :
  Forall (fun c => is_ascii_digit c = true) (of_ascii s) ->
  Forall (fun c => is_ascii_digit c = true) (of_ascii (pretty_N_go n s)).
Proof.
  revert s. induction (N.lt_wf_0 n) as [n _ IH]. intros s Hs.
  destruct (N.eq_dec n 0) as [->|Hn]; [by rewrite pretty_N_go_0|].
  rewrite pretty_N_go_step by lia. apply IH; [apply N.div_lt; lia|].
  unfold of_ascii; simpl. constructor; [apply pretty_N_char_digit|exact Hs].
Qed.

Lemma fmt_Z_digits z : 0 <= z -> Forall (fun c => is_ascii_digit c = true) (fmt_Z z).
Proof.
  intros Hz. unfold fmt_Z. destruct z as [|p|p]; [|by apply pretty_N_go_digits; constructor|lia].
  by constructor.
Qed.

(** What precedes and follows the last separator is determined. *)
Lemma app_sep_inj c (a b a' b' : str) :
  Forall (fun x => x <> c) b -> Forall (fun x => x <> c) b' ->
  a ++ c :: b = a' ++ c :: b' -> a = a' /\ b = b'.
Proof.
  intros Hb Hb' E.
  assert (Hr : forall (p q : str), Forall (fun x => x <> c) q -> rsplit_once c (p ++ c :: q) = Some (p, q)).
  { intros p q Hq. induction p as [|x p IH]; simpl.
    - rewrite rsplit_once_none; [by rewrite Z.eqb_refl|].
      eapply Forall_impl; [exact Hq|]. intros x Hx. simpl in Hx. by apply Z.eqb_neq.
    - by rewrite IH. }
  pose proof (Hr a b Hb) as E1. rewrite E, (Hr a' b' Hb') in E1. by injection E1 as -> ->.
Qed.

(** ** UTF-8 round trip *)

Definition is_scalar (c : Z) : Prop := 0 <= c < 0xD800 \/ 0xE000 <= c <= 0x10FFFF.

Ltac divmod := Z.div_mod_to_equations; lia.

Lemma from_utf8_char c k rest : is_scalar c ->
  from_utf8_go (S k) (utf8_char c ++ rest) = cons c <$> from_utf8_go k rest.
Proof.
  unfold is_scalar, utf8_char. intros Hc.
  destruct (Z.ltb_spec c 0x80); [|destruct (Z.ltb_spec c 0x800); [|destruct (Z.ltb_spec c 0x10000)]]; simpl.
  - by rewrite (proj2 (Z.ltb_lt c 128)) by lia.
  - rewrite (proj2 (Z.ltb_ge (192 + c / 64) 128)) by divmod.
    rewrite (proj2 (Z.leb_le 194 (192 + c / 64))), (proj2 (Z.leb_le (192 + c / 64) 223)) by divmod. simpl.
    unfold is_cont. rewrite (proj2 (Z.leb_le 128 (128 + c mod 64))), (proj2 (Z.leb_le (128 + c mod 64) 191)) by divmod. simpl.
    do 2 f_equal. divmod.
  - rewrite (proj2 (Z.ltb_ge (224 + c / 4096) 128)) by divmod.
    rewrite (proj2 (Z.leb_gt (224 + c / 4096) 223)), andb_false_r by divmod.
    rewrite (proj2 (Z.leb_le 224 (224 + c / 4096))), (proj2 (Z.leb_le (224 + c / 4096) 239)) by divmod. simpl.
    assert (E : (224 + c / 4096 - 224) * 4096 + (128 + (c / 64) mod 64 - 128) * 64 + (128 + c mod 64 - 128) = c) by divmod.
    rewrite E. unfold is_cont.
    rewrite (proj2 (Z.leb_le 128 (128 + c mod 64))), (proj2 (Z.leb_le (128 + c mod 64) 191)) by divmod.
    rewrite (proj2 (Z.leb_le 128 (128 + (c / 64) mod 64))), (proj2 (Z.leb_le (128 + (c / 64) mod 64) 191)) by divmod.
    rewrite (proj2 (Z.leb_le 2048 c)) by lia. simpl.
    destruct (Z.leb_spec 55296 c), (Z.leb_spec c 57343); simpl; (done || lia).
  - rewrite (proj2 (Z.ltb_ge (240 + c / 262144) 128)) by divmod.
    rewrite (proj2 (Z.leb_gt (240 + c / 262144) 223)), andb_false_r by divmod.
    rewrite (proj2 (Z.leb_gt (240 + c / 262144) 239)), andb_false_r by divmod.
    rewrite (proj2 (Z.leb_le 240 (240 + c / 262144))), (proj2 (Z.leb_le (240 + c / 262144) 244)) by divmod. simpl.
    assert (E : (240 + c / 262144 - 240) * 262144 + (128 + (c / 4096) mod 64 - 128) * 4096
                + (128 + (c / 64) mod 64 - 128) * 64 + (128 + c mod 64 - 128) = c) by divmod.
    rewrite E. unfold is_cont.
    rewrite (proj2 (Z.leb_le 128 (128 + c mod 64))), (proj2 (Z.leb_le (128 + c mod 64) 191)) by divmod.
    rewrite (proj2 (Z.leb_le 128 (128 + (c / 64) mod 64))), (proj2 (Z.leb_le (128 + (c / 64) mod 64) 191)) by divmod.
    rewrite (proj2 (Z.leb_le 128 (128 + (c / 4096) mod 64))), (proj2 (Z.leb_le (128 + (c / 4096) mod 64) 191)) by divmod.
    by rewrite (proj2 (Z.leb_le 65536 c)), (proj2 (Z.leb_le c 1114111)) by lia.
Qed.

Lemma utf8_char_length c : (1 <= length (utf8_char c) <= 4)%nat.
Proof. unfold utf8_char. repeat case_match; simpl; lia. Qed.

Lemma from_utf8_bytes s : Forall is_scalar s -> from_utf8 (str_bytes s) = Some s.
Proof.
  intros Hs. unfold from_utf8.
  assert (Hgen : forall k, (length (str_bytes s) <= k)%nat -> from_utf8_go k (str_bytes s) = Some s).
  { induction Hs as [|c s Hc Hs IH]; intros k Hk.
    - by destruct k.
    - change (str_bytes (c :: s)) with (utf8_char c ++ str_bytes s) in *. rewrite length_app in Hk.
      pose proof (utf8_char_length c). destruct k as [|k]; [lia|].
      rewrite from_utf8_char by done. rewrite IH by lia. done. }
  by apply Hgen.
Qed.

(** ** Printed numbers are read back *)

Lemma digits_fold s acc :
  foldl (fun a c => a * 10 + (c - 48)) acc s = acc * 10 ^ Z.of_nat (length s) + digits_val s.
Proof.
  revert acc. induction s as [|c s IH]; intros acc; [unfold digits_val; simpl; lia|].
  unfold digits_val. cbn [foldl length]. rewrite !IH, Nat2Z.inj_succ, Z.pow_succ_r by lia. lia.
Qed.

Lemma digits_val_cons c s : digits_val (c :: s) = (c - 48) * 10 ^ Z.of_nat (length s) + digits_val s.
Proof. unfold digits_val at 1. cbn [foldl]. by rewrite digits_fold. Qed.

Lemma pretty_N_char_val (n : N) : (n < 10)%N -> Z.of_nat (nat_of_ascii (pretty_N_char n)) - 48 = Z.of_N n.
Proof.
  intros Hn. rewrite <- (N2Nat.id n) in *. generalize dependent (N.to_nat n). intros k Hk.
  do 10 (destruct k as [|k]; [done|]). lia.
Qed.

Lemma pretty_N_go_val (n : N) (s : string) :
  digits_val (of_ascii (pretty_N_go n s))
  = Z.of_N n * 10 ^ Z.of_nat (length (of_ascii s)) + digits_val (of_ascii s).
Proof.
  revert s. induction (N.lt_wf_0 n) as [n _ IH]. intros s.
  destruct (N.eq_dec n 0) as [->|Hn]; [rewrite pretty_N_go_0; lia|].
  rewrite pretty_N_go_step, IH by (apply N.div_lt || idtac; lia).
  unfold of_ascii. cbn [String.list_ascii_of_string fmap list_fmap length].
  rewrite digits_val_cons, pretty_N_char_val by (apply N.mod_lt; lia).
  rewrite Nat2Z.inj_succ, Z.pow_succ_r by lia.
  pose proof (N.div_mod' n 10) as E. apply (f_equal Z.of_N) in E. rewrite N2Z.inj_add, N2Z.inj_mul in E. lia.
Qed.

Lemma digits_val_fmt z : 0 <= z -> digits_val (fmt_Z z) = z.
Proof.
  intros Hz. unfold fmt_Z. destruct z as [|p|p]; [done| |lia].
  change (pretty (Z.pos p)) with (pretty_N_go (N.pos p) ""). rewrite pretty_N_go_val. simpl. unfold digits_val. simpl. lia.
Qed.

Lemma fmt_Z_nonempty z : 0 <= z -> fmt_Z z <> [].
Proof.
  intros Hz E. pose proof (digits_val_fmt z Hz) as H. rewrite E in H. unfold digits_val in H. simpl in H. by subst z.
Qed.

Lemma pretty_N_go_length k : forall (n : N) (s : string), (n < 10 ^ N.of_nat k)%N ->
  (length (of_ascii (pretty_N_go n s)) <= k + length (of_ascii s))%nat.
Proof.
  induction k as [|k IH]; intros n s Hn.
  - assert (n = 0%N) as -> by (simpl in Hn; lia). by rewrite pretty_N_go_0.
  - destruct (N.eq_dec n 0) as [->|Hz]; [rewrite pretty_N_go_0; lia|].
    rewrite pretty_N_go_step by lia. etransitivity; [apply IH|].
    + apply N.Div0.div_lt_upper_bound. rewrite Nat2N.inj_succ, N.pow_succ_r' in Hn. lia.
    + unfold of_ascii. cbn [String.list_ascii_of_string fmap list_fmap length]. lia.
Qed.

(** A number below [10^k] is printed with at most [k] digits, zero with one. *)
Lemma fmt_Z_length z k : 0 <= z < 10 ^ Z.of_nat k -> (length (fmt_Z z) <= 1 `max` k)%nat.
Proof.
  intros Hz. unfold fmt_Z. destruct z as [|p|p]; [simpl; lia| |lia].
  change (pretty (Z.pos p)) with (pretty_N_go (N.pos p) "").
  etransitivity; [apply (pretty_N_go_length k)|simpl; lia].
  apply N2Z.inj_lt. rewrite N2Z.inj_pow. simpl Z.of_N. rewrite nat_N_Z. lia.
Qed.

Lemma parse_fmt_u w z : 0 <= z <= u_max w -> parse_u w (fmt_Z z) = Some z.
Proof.
  intros Hz. pose proof (fmt_Z_digits z (proj1 Hz)) as Hd. unfold parse_u.
  destruct (fmt_Z z) as [|c r] eqn:E; [by apply fmt_Z_nonempty in E; [|lia]|].
  assert (Hc : (c =? 43) = false).
  { apply Forall_cons in Hd as [Hc _]. unfold is_ascii_digit in Hc. bools. apply Z.eqb_neq. lia. }
  rewrite Hc, <- E, digits_val_fmt by lia.
  assert (Hf : forallb is_ascii_digit (fmt_Z z) = true) by (rewrite E; apply forallb_forall; rewrite Forall_forall in Hd; intros x Hx; apply Hd; by apply list_elem_of_In).
  rewrite Hf, bool_decide_false by (rewrite E; done). simpl. by rewrite (proj2 (Z.leb_le _ _)) by lia.
Qed.

(** ** Lines and lossy decoding *)

(** [str::lines]: a final line ending is not followed by an empty line, and a
    carriage return before a line feed is dropped *)
Definition drop_cr (l : str) : str := default l (strip_suffix [13] l).
Fixpoint lines_go (ps : list str) : list str :=
  match ps with
  | [] => []
  | [p] => if bool_decide (p = []) then [] else [p]
  | p :: r => drop_cr p :: lines_go r
  end.
Definition lines (s : str) : list str := lines_go (split_char 10 s).

(** [String::from_utf8_lossy]: every maximal ill-formed part becomes U+FFFD *)
Definition ok_second (b b1 : Z) : bool :=
  if b =? 0xE0 then (0xA0 <=? b1) && (b1 <=? 0xBF)
  else if b =? 0xED then (0x80 <=? b1) && (b1 <=? 0x9F)
  else if b =? 0xF0 then (0x90 <=? b1) && (b1 <=? 0xBF)
  else if b =? 0xF4 then (0x80 <=? b1) && (b1 <=? 0x8F)
  else is_cont b1.
Fixpoint from_utf8_lossy_go (fuel : nat) (bs : list Z) : str :=
  match fuel with
  | O => []
  | S k =>
    match bs with
    | [] => []
    | b :: r =>
      if b <? 0x80 then b :: from_utf8_lossy_go k r
      else if (0xC2 <=? b) && (b <=? 0xF4) then
        match r with
        | b1 :: r1 =>
          if negb (ok_second b b1) then 0xFFFD :: from_utf8_lossy_go k r
          else if b <=? 0xDF then ((b - 0xC0) * 64 + (b1 - 0x80)) :: from_utf8_lossy_go k r1
          else match r1 with
               | b2 :: r2 =>
                 if negb (is_cont b2) then 0xFFFD :: from_utf8_lossy_go k r1
                 else if b <=? 0xEF
                 then ((b - 0xE0) * 4096 + (b1 - 0x80) * 64 + (b2 - 0x80)) :: from_utf8_lossy_go k r2
                 else match r2 with
                      | b3 :: r3 =>
                        if negb (is_cont b3) then 0xFFFD :: from_utf8_lossy_go k r2
                        else ((b - 0xF0) * 262144 + (b1 - 0x80) * 4096 + (b2 - 0x80) * 64 + (b3 - 0x80))
                             :: from_utf8_lossy_go k r3
                      | [] => [0xFFFD]
                      end
               | [] => [0xFFFD]
               end
        | [] => [0xFFFD]
        end
      else 0xFFFD :: from_utf8_lossy_go k r
    end
  end.
Definition from_utf8_lossy (bs : list Z) : str := from_utf8_lossy_go (length bs) bs.
