(* ===== verification/LoginFailure.v ===== *)
(** * Login-failure policies of the controlled side

    Models [client/src/server/login_failure_check.rs] (the back-off policy for
    operating-system credentials) and the per-address failure tables of
    [client/src/server/connection.rs] ([LOGIN_FAILURES], [check_failure],
    [update_failure] and their helpers). *)
From stdpp Require Import base gmap list strings pretty.
From Stdlib Require Import ZArith Lia.
From S2P Require Import Prelude RustStr.

#[local] Open Scope Z_scope.

(** ** Data *)

Definition OS_CREDENTIAL_LOGIN_TOTAL_IDLE_RESET_MS : Z := 120 * 60 * 1000.
Definition OS_CREDENTIAL_LOGIN_BACKOFF_BASE_SECONDS : Z := 15.
Definition OS_CREDENTIAL_LOGIN_BACKOFF_MAX_SECONDS : Z := 30 * 60.

Inductive FailureScope := Default | TerminalOsLogin.
#[global] Instance FailureScope_eq_dec : EqDecision FailureScope.
Proof. solve_decision. Defined.

Inductive AlarmAuditType :=
| IpWhitelist
| ExceedThirtyAttempts
| SixAttemptsWithinOneMinute
| ExceedIPv6PrefixAttempts
| TerminalOsLoginBackoff
| TerminalOsLoginConcurrency
| SessionScopeViolation.

Record OsCredentialPolicyDecision := Decide {
  allowed : bool;
  login_error : option str;
  audit : option AlarmAuditType;
}.

(** [total_failures] is an [i32], the instants are [i64] milliseconds. *)
Record OsCredentialFailureState := OsState {
  total_failures : Z;
  backoff_until_ms : option Z;
  last_failure_ms : option Z;
}.

Definition os_state_default : OsCredentialFailureState := OsState 0 None None.

(** ** The back-off policy *)

Definition is_os_credential_scope (scope : FailureScope) : bool :=
  match scope with TerminalOsLogin => true | Default => false end.

Definition backoff_audit_type_for_scope (scope : FailureScope) : option AlarmAuditType :=
  match scope with TerminalOsLogin => Some TerminalOsLoginBackoff | Default => None end.

Definition os_credential_login_backoff_seconds (total_failures : Z) : Z :=
  if total_failures <=? 2 then 0
  else
    let exp := Z.min (total_failures - 3) 7 in
    let seconds := OS_CREDENTIAL_LOGIN_BACKOFF_BASE_SECONDS * Z.shiftl 1 exp in
    Z.min seconds OS_CREDENTIAL_LOGIN_BACKOFF_MAX_SECONDS.

Definition normalize_backoff (st : OsCredentialFailureState) (now_ms : Z) : OsCredentialFailureState :=
  match backoff_until_ms st with
  | Some until_ms =>
    if until_ms <=? now_ms
    then OsState (total_failures st) None (last_failure_ms st) else st
  | None => st
  end.

Definition reset_totals_on_idle (st : OsCredentialFailureState) (now_ms : Z) : OsCredentialFailureState :=
  match last_failure_ms st with
  | Some last_ms =>
    if OS_CREDENTIAL_LOGIN_TOTAL_IDLE_RESET_MS <=? i64_saturating_sub now_ms last_ms
    then OsState 0 None None else st
  | None => st
  end.

Definition allow_decision : OsCredentialPolicyDecision := Decide true None None.
Definition block_decision (login_error : str) (alarm_type : option AlarmAuditType) :=
  Decide false (Some login_error) alarm_type.

(** The mutex guards one state; the decision comes with the state it leaves. *)
Definition evaluate_os_credential_policy (scope : FailureScope) (now_ms : Z)
    (st : OsCredentialFailureState) : OsCredentialPolicyDecision * OsCredentialFailureState :=
  if negb (is_os_credential_scope scope) then (allow_decision, st)
  else
    let st := reset_totals_on_idle st now_ms in
    let st := normalize_backoff st now_ms in
    match backoff_until_ms st with
    | Some until_ms =>
      let remaining_ms := Z.max (i64_sub until_ms now_ms) 0 in
      let remaining_seconds := Z.max (Z.quot (i64_add remaining_ms 999) 1000) 1 in
      let seconds_label := if remaining_seconds =? 1 then lit "second" else lit "seconds" in
      (block_decision
         (lit "Please try again in " ++ fmt_Z remaining_seconds ++ lit " " ++ seconds_label ++ lit ".")
         (backoff_audit_type_for_scope scope), st)
    | None => (allow_decision, st)
    end.

(** [now_ms] is the [get_time()] read under the lock. *)
Definition record_os_credential_failure (scope : FailureScope) (now_ms : Z)
    (st : OsCredentialFailureState) : OsCredentialFailureState :=
  if negb (is_os_credential_scope scope) then st
  else
    let st := reset_totals_on_idle st now_ms in
    let st := normalize_backoff st now_ms in
    let total := i32_saturating_add (total_failures st) 1 in
    let backoff_seconds := os_credential_login_backoff_seconds total in
    OsState total
      (if 0 <? backoff_seconds then Some (i64_add now_ms (backoff_seconds * 1000))
       else backoff_until_ms st)
      (Some now_ms).

(** [try_acquire_os_credential_login_gate]: [true] is the held mutex. *)
Definition try_acquire_os_credential_login_gate (held : bool) : result unit bool :=
  if held then Err () else Ok true.

(** ** The per-address tables of connection.rs *)

(** (minute of the last failure, failures in that minute, failures in all) *)
Abbreviation entry := (Z * Z * Z)%type.

Definition entry_or_zero (o : option entry) : entry := default (0, 0, 0) o.

Definition mask_u128 (addr prefix : Z) : Z :=
  let mask := if (prefix =? 0) || (128 <? prefix) then 0
              else wrapu 128 (Z.shiftl (u_max 128) (128 - prefix)) in
  Z.land addr mask.

Definition get_ipv6_prefixes (ip : str) : option (str * str * str) :=
  let ip_only := trim (default ip (head (split_char 37 ip))) in
  as_u128 ← parse_ipv6 ip_only;
  let p n := fmt_ipv6 (mask_u128 as_u128 n) in
  Some (p 64 ++ lit "/64", p 56 ++ lit "/56", p 48 ++ lit "/48").

Definition bump_failure_entry (cur : entry) (time : Z) : entry :=
  let '(c0, c1, c2) := cur in
  if c0 =? time then (c0, i32_add c1 1, i32_add c2 1)
  else (time, 1, i32_add c2 1).

Record FailureTables := Tables {
  login_failures : list (gmap str entry);
  os_state : OsCredentialFailureState;
}.

Definition bump_key (time : Z) (key : str) (m : gmap str entry) : gmap str entry :=
  <[key := bump_failure_entry (entry_or_zero (m !! key)) time]> m.

(** [ip] is the connection's address, [now_ms] the clock; [None] is the panic
    of an index outside [LOGIN_FAILURES]. *)
Definition update_failure_with_scope (ip : str) (now_ms : Z) (failure : entry) (time : Z)
    (remove : bool) (i : nat) (scope : FailureScope) (t : FailureTables) : option FailureTables :=
  if is_os_credential_scope scope then
    Some (if remove then t
          else Tables (login_failures t) (record_os_credential_failure scope now_ms (os_state t)))
  else
    m ← login_failures t !! i;
    let m' :=
      if remove then
        if failure.1.1 =? 0 then m
        else match get_ipv6_prefixes ip with
             | Some (p64, p56, p48) => delete ip (delete p48 (delete p56 (delete p64 m)))
             | None => delete ip m
             end
      else
        match get_ipv6_prefixes ip with
        | Some (p64, p56, p48) =>
          bump_key time ip (foldl (fun m k => bump_key time k m) m [p64; p56; p48])
        | None => bump_key time ip m
        end in
    Some (Tables (<[i := m']> (login_failures t)) (os_state t)).

Definition update_failure (ip : str) (now_ms : Z) (failure : entry * Z) (remove : bool) (i : nat)
    (t : FailureTables) : option FailureTables :=
  update_failure_with_scope ip now_ms failure.1 failure.2 remove i Default t.

(** What a check sends out: a login error to the peer, an alarm to the audit. *)
Inductive CheckEffect :=
| SendLoginError (msg : str)
| PostAlarm (typ : AlarmAuditType).

Definition check_failure_ipv6_prefix (m : gmap str entry) (time : Z) (prefix : str)
    (prefix_num thresh : Z) : option (entry * Z * bool * list CheckEffect) :=
  let failure_prefix := entry_or_zero (m !! prefix) in
  if thresh <? failure_prefix.2 then
    Some (failure_prefix, time, false,
      [SendLoginError (lit "Too many wrong attempts for IPv6 prefix /" ++ fmt_Z prefix_num);
       PostAlarm ExceedIPv6PrefixAttempts])
  else None.

Definition check_failure_direct (m : gmap str entry) (time : Z) (ip : str)
    : entry * Z * bool * list CheckEffect :=
  let failure := entry_or_zero (m !! ip) in
  if 30 <? failure.2 then
    (failure, time, false, [SendLoginError (lit "Too many wrong attempts"); PostAlarm ExceedThirtyAttempts])
  else if (time =? failure.1.1) && (6 <? failure.1.2) then
    (failure, time, false, [SendLoginError (lit "Please try 1 minute later"); PostAlarm SixAttemptsWithinOneMinute])
  else (failure, time, true, []).

(** [check_failure_with_scope]; the two clock reads are [now1] and [now2]. *)
Definition check_failure_with_scope (ip : str) (now1 now2 : Z) (i : nat) (scope : FailureScope)
    (t : FailureTables) : option (entry * Z * bool * list CheckEffect * FailureTables) :=
  let time := wraps 32 (Z.quot now1 60000) in
  if is_os_credential_scope scope then
    let '(decision, st) := evaluate_os_credential_policy scope now2 (os_state t) in
    let t' := Tables (login_failures t) st in
    if allowed decision then Some ((0, 0, 0), time, true, [], t')
    else Some ((0, 0, 0), time, false,
      match login_error decision with Some e => [SendLoginError e] | None => [] end
      ++ match audit decision with Some a => [PostAlarm a] | None => [] end, t')
  else
    m ← login_failures t !! i;
    let direct := check_failure_direct m time ip in
    let r :=
      match get_ipv6_prefixes ip with
      | Some (p64, p56, p48) =>
        match check_failure_ipv6_prefix m time p64 64 60 with
        | Some r => r
        | None =>
          match check_failure_ipv6_prefix m time p56 56 80 with
          | Some r => r
          | None =>
            match check_failure_ipv6_prefix m time p48 48 100 with Some r => r | None => direct end
          end
        end
      | None => direct
      end in
    Some (r, t).

Definition check_failure (ip : str) (now1 now2 : Z) (i : nat) (t : FailureTables) :=
  check_failure_with_scope ip now1 now2 i Default t.

(** ** Specification of the back-off policy

    The policy as its users see it: consecutive failures form a streak that
    two idle hours end; the [c]-th failure of a streak closes the login for
    [wait c] seconds.  The specification keeps
    the streak's length and its last instant, and nothing else. *)
Module BackoffSpec.

Definition streak := option (Z * Z).

(** Seconds to wait after [c] failures in a row: none for the first two, then
    15 s, doubled by every further failure, and half an hour at most. *)
Definition wait (c : Z) : Z := if c <=? 2 then 0 else Z.min 1800 (15 * 2 ^ (c - 3)).

Definition fail (now : Z) (s : streak) : streak :=
  match s with
  | Some (c, l) => if 7200000 <=? now - l then Some (1, now) else Some (c + 1, now)
  | None => Some (1, now)
  end.

Definition blocked (now : Z) (s : streak) : bool :=
  match s with
  | Some (c, l) => now <? l + wait c * 1000
  | None => false
  end.

Inductive event := Attempt (now : Z) | Failure (now : Z).
Definition ev_time (e : event) : Z := match e with Attempt n | Failure n => n end.

(** The answers to the attempts of a history. *)
Fixpoint run (evs : list event) (s : streak) : list bool :=
  match evs with
  | [] => []
  | Attempt now :: r => negb (blocked now s) :: run r s
  | Failure now :: r => run r (fail now s)
  end.

Fixpoint run_impl (evs : list event) (st : OsCredentialFailureState) : list bool :=
  match evs with
  | [] => []
  | Attempt now :: r =>
    let '(d, st) := evaluate_os_credential_policy TerminalOsLogin now st in
    allowed d :: run_impl r st
  | Failure now :: r => run_impl r (record_os_credential_failure TerminalOsLogin now st)
  end.

(** A clock that does not run backwards and stays below 2^62 ms. *)
Fixpoint clocked (t : Z) (evs : list event) : Prop :=
  match evs with
  | [] => True
  | e :: r => t <= ev_time e < 2 ^ 62 /\ clocked (ev_time e) r
  end.

(** The concrete state at time [t] represents a streak. *)
Definition rep (t : Z) (st : OsCredentialFailureState) (s : streak) : Prop :=
  match s with
  | None => st = os_state_default
  | Some (c, l) =>
    1 <= c /\ 0 <= l <= t /\
    ((st = os_state_default /\ 7200000 <= t - l) \/
     (total_failures st = Z.min c (2 ^ 31 - 1) /\ last_failure_ms st = Some l /\
      (backoff_until_ms st = Some (l + wait c * 1000) \/
       (backoff_until_ms st = None /\ l + wait c * 1000 <= t))))
  end.

(** The code's shift with a capped exponent is this doubling. *)
Lemma backoff_wait c : os_credential_login_backoff_seconds c = wait c.
Proof.
  unfold os_credential_login_backoff_seconds, wait, OS_CREDENTIAL_LOGIN_BACKOFF_BASE_SECONDS,
    OS_CREDENTIAL_LOGIN_BACKOFF_MAX_SECONDS.
  destruct (Z.leb_spec c 2); [done|]. rewrite Z.shiftl_mul_pow2, Z.mul_1_l by lia.
  destruct (Z.le_gt_cases (c - 3) 7); [rewrite (Z.min_l (c - 3)) by lia; lia|].
  rewrite (Z.min_r (c - 3)) by lia. pose proof (Z.pow_le_mono_r 2 7 (c - 3)). lia.
Qed.

Lemma backoff_range c : 0 <= wait c <= 1800.
Proof. unfold wait. destruct (Z.leb_spec c 2); [lia|]. pose proof (Z.pow_nonneg 2 (c - 3)). lia. Qed.

Lemma backoff_cap c : 10 <= c -> wait c = 1800.
Proof.
  intros. unfold wait. destruct (Z.leb_spec c 2); [lia|]. pose proof (Z.pow_le_mono_r 2 7 (c - 3)). lia.
Qed.

Lemma backoff_min c : wait (Z.min c (2 ^ 31 - 1)) = wait c.
Proof.
  destruct (Z.le_gt_cases c (2 ^ 31 - 1)); [by rewrite Z.min_l|]. rewrite !backoff_cap; [done|lia|lia].
Qed.

Lemma backoff_positive c : 3 <= c -> 0 < wait c.
Proof. unfold wait. intros. destruct (Z.leb_spec c 2); [lia|]. pose proof (Z.pow_pos_nonneg 2 (c - 3)). lia. Qed.

Lemma backoff_le2 c : c <= 2 -> wait c = 0.
Proof. intros. unfold wait. by destruct (Z.leb_spec c 2); [|lia]. Qed.

(** The concrete state after the two lazy clean-ups. *)
Definition settle (st : OsCredentialFailureState) (now : Z) : OsCredentialFailureState :=
  normalize_backoff (reset_totals_on_idle st now) now.

Lemma settle_rep t now st s :
  rep t st s -> t <= now < 2 ^ 62 ->
  rep now (settle st now) s /\
  backoff_until_ms (settle st now) =
    (if blocked now s
     then match s with Some (c, l) => Some (l + wait c * 1000) | None => None end
     else None) /\
  total_failures (settle st now) =
    match s with
    | Some (c, l) => if 7200000 <=? now - l then 0 else Z.min c (2 ^ 31 - 1)
    | None => 0
    end.
Proof.
  intros Hrep Ht. destruct s as [[c l]|]; simpl in Hrep; [|by subst].
  destruct Hrep as (Hc & Hl & Hcase). pose proof (backoff_range c) as Hb.
  assert (Hsub : i64_saturating_sub now l = now - l) by (apply clamp_id; unfold s_min, s_max; lia).
  unfold settle, blocked, reset_totals_on_idle, rep.
  destruct Hcase as [[-> Hidle]|(Htot & Hlast & Hback)]; simpl;
    change OS_CREDENTIAL_LOGIN_TOTAL_IDLE_RESET_MS with 7200000 in *.
  - destruct (Z.ltb_spec now (l + wait c * 1000)); [lia|].
    destruct (Z.leb_spec 7200000 (now - l)); [|lia].
    repeat split; try lia. left. split; [done|lia].
  - rewrite Hlast, Hsub.
    destruct (Z.leb_spec 7200000 (now - l)) as [Hi|Hi]; simpl.
    + destruct (Z.ltb_spec now (l + wait c * 1000)); [lia|].
      repeat split; try lia. left. split; [done|lia].
    + unfold normalize_backoff.
      destruct (Z.ltb_spec now (l + wait c * 1000)), Hback as [Hu|[Hu Hexp]];
        try lia; rewrite Hu; simpl.
      * destruct (Z.leb_spec (l + wait c * 1000) now); [lia|].
        rewrite Hu. repeat split; try lia. right. auto.
      * destruct (Z.leb_spec (l + wait c * 1000) now); [|lia].
        simpl. repeat split; try lia. right. repeat split; auto.
      * rewrite Hu. repeat split; try lia. right. repeat split; auto.
Qed.

Lemma evaluate_rep t now st s :
  rep t st s -> t <= now < 2 ^ 62 ->
  let r := evaluate_os_credential_policy TerminalOsLogin now st in
  allowed r.1 = negb (blocked now s) /\ rep now r.2 s.
Proof.
  intros Hrep Ht. destruct (settle_rep t now st s Hrep Ht) as (Hr & Hu & _).
  unfold evaluate_os_credential_policy; simpl. fold (settle st now). rewrite Hu.
  destruct s as [[c l]|]; [|done]. by destruct (blocked now (Some (c, l))).
Qed.

Lemma record_rep t now st s :
  rep t st s -> 0 <= t -> t <= now < 2 ^ 62 ->
  rep now (record_os_credential_failure TerminalOsLogin now st) (fail now s).
Proof.
  intros Hrep H0 Ht. destruct (settle_rep t now st s Hrep Ht) as (Hr & Hu & Htot).
  unfold record_os_credential_failure; simpl. fold (settle st now). rewrite Hu, Htot, !backoff_wait. clear Hu Htot Hr.
  assert (Hgen : forall c total, 1 <= c -> total = Z.min c (2 ^ 31 - 1) ->
    forall b, (c <= 2 -> b = None) ->
    rep now (OsState total
      (if 0 <? wait total
       then Some (i64_add now (wait total * 1000)) else b) (Some now)) (Some (c, now))).
  { intros c total Hc -> b Hb. rewrite backoff_min. pose proof (backoff_range c).
    unfold rep; simpl. split; [lia|]. split; [lia|]. right. repeat split.
    unfold i64_add. rewrite wraps_small by (unfold is_s; lia).
    destruct (Z.ltb_spec 0 (wait c)); [by left|].
    right. split; [|lia]. apply Hb. destruct (Z.le_gt_cases c 2); [done|].
    pose proof (backoff_positive c). lia. }
  assert (Hsat : forall z, 0 <= z <= 2 ^ 31 - 1 -> i32_saturating_add z 1 = Z.min (z + 1) (2 ^ 31 - 1)).
  { intros z Hz. unfold i32_saturating_add, clamp, s_min, s_max. zcases; lia. }
  destruct s as [[c l]|]; simpl.
  - destruct Hrep as (Hc & Hl & _).
    destruct (Z.leb_spec 7200000 (now - l)).
    + apply Hgen; [lia|by rewrite Hsat by lia|]. intros _.
      pose proof (backoff_range c).
      by destruct (Z.ltb_spec now (l + wait c * 1000)); [lia|].
    + apply Hgen; [lia|rewrite Hsat by lia; lia|]. intros Hc2.
      rewrite (backoff_le2 c) by lia. by destruct (Z.ltb_spec now (l + 0 * 1000)); [lia|].
  - apply (Hgen 1 (i32_saturating_add 0 1)); [lia|by rewrite Hsat by lia|done].
Qed.

Lemma run_rep evs t st s :
  0 <= t -> rep t st s -> clocked t evs -> run_impl evs st = run evs s.
Proof.
  revert t st s. induction evs as [|[now|now] r IH]; intros t st s H0 Hrep Hc; simpl in *; [done| |];
    destruct Hc as [Ht Hc].
  - destruct (evaluate_rep t now st s Hrep Ht) as [Ha Hr].
    destruct (evaluate_os_credential_policy TerminalOsLogin now st) as [d st']; simpl in *.
    rewrite Ha. f_equal. apply (IH now); [lia|done|done].
  - apply (IH now); [lia| |done]. by apply (record_rep t).
Qed.

End BackoffSpec.

(** ** The per-address tables *)
Module FailureTable.

Definition count (m : gmap str entry) (k : str) : Z := (entry_or_zero (m !! k)).2.

(** The table after an address failed at the given minutes. *)
Definition failures_at (ip : str) (ts : list Z) (m : gmap str entry) : gmap str entry :=
  foldl (fun m t => bump_key t ip m) m ts.

(** How many of the last entries of a list equal its last entry. *)
Fixpoint leading (t : Z) (l : list Z) : Z :=
  match l with x :: r => if x =? t then 1 + leading t r else 0 | [] => 0 end.
Definition trailing (ts : list Z) : Z :=
  match reverse ts with t :: r => 1 + leading t r | [] => 0 end.

Lemma leading_bounds t l : 0 <= leading t l <= Z.of_nat (length l).
Proof. induction l as [|x r IH]; simpl; [lia|]. destruct (x =? t); lia. Qed.

Lemma failures_entry ip ts :
  Z.of_nat (length ts) < 2 ^ 31 -> ts <> [] ->
  entry_or_zero (failures_at ip ts ∅ !! ip) = (default 0 (last ts), trailing ts, Z.of_nat (length ts)).
Proof.
  induction ts as [|t ts IH] using rev_ind; [done|]. intros Hlen _.
  rewrite length_app in Hlen; simpl in Hlen.
  unfold failures_at. rewrite foldl_app; simpl. fold (failures_at ip ts ∅).
  unfold bump_key. rewrite lookup_insert_eq; simpl. rewrite last_snoc. simpl.
  unfold trailing. rewrite reverse_app; simpl. rewrite length_app; simpl.
  destruct (decide (ts = [])) as [->|Hne].
  - unfold failures_at, bump_failure_entry; simpl. rewrite lookup_empty; simpl.
    by destruct t.
  - rewrite IH by (done || lia). unfold bump_failure_entry.
    destruct ts as [|u us _] using rev_ind; [done|]. rewrite last_snoc; simpl.
    unfold trailing. rewrite reverse_app; simpl.
    pose proof (leading_bounds u (reverse us)) as Hb. rewrite length_reverse in Hb.
    rewrite length_app in *; simpl in *.
    assert (forall z, 0 <= z <= Z.of_nat (length us + 1) -> i32_add z 1 = z + 1) as Hadd
      by (intros z Hz; apply wraps_small; unfold is_s; lia).
    destruct (Z.eqb_spec u t) as [->|].
    + rewrite !Hadd by lia. f_equal; [f_equal|]; lia.
    + rewrite Hadd by lia. f_equal; lia.
Qed.

Lemma count_bump t k m k' : 0 <= count m k' < 2 ^ 31 - 1 ->
  count (bump_key t k m) k' = if decide (k = k') then count m k' + 1 else count m k'.
Proof.
  unfold count, bump_key. intros Hc. rewrite lookup_insert. case_decide as Hk; [subst k'|done]. simpl.
  destruct (entry_or_zero (m !! k)) as [[c0 c1] c2]; simpl in *. unfold bump_failure_entry.
  destruct (c0 =? t); simpl; apply wraps_small; unfold is_s; lia.
Qed.

Lemma count_bump_le t k m k' : 0 <= count m k' < 2 ^ 31 - 1 ->
  count m k' <= count (bump_key t k m) k' <= count m k' + 1 /\
  (k' = k -> count (bump_key t k m) k' = count m k' + 1).
Proof. intros H. rewrite count_bump by done. case_decide; split; try lia; congruence. Qed.

(** One failure of an IPv6 address bumps its /64 bucket and no other bucket down. *)
Lemma count_update ip t m k p64 p56 p48 :
  0 <= count m k < 2 ^ 31 - 8 ->
  let m' := bump_key t ip (foldl (fun m k => bump_key t k m) m [p64; p56; p48]) in
  count m k <= count m' k <= count m k + 4 /\ (k = p64 -> count m k + 1 <= count m' k).
Proof.
  intros Hk. simpl.
  destruct (count_bump_le t p64 m k) as [H1 H1']; [lia|].
  destruct (count_bump_le t p56 (bump_key t p64 m) k) as [H2 _]; [lia|].
  destruct (count_bump_le t p48 (bump_key t p56 (bump_key t p64 m)) k) as [H3 _]; [lia|].
  destruct (count_bump_le t ip (bump_key t p48 (bump_key t p56 (bump_key t p64 m))) k) as [H4 _]; [lia|].
  split; [lia|]. intros Hp. specialize (H1' Hp). lia.
Qed.

End FailureTable.

(** ** Properties *)
Module LoginFailureClaims.
Import BackoffSpec FailureTable.

(** C34: The operating-system credential policy answers every history of
    attempts and failures exactly as the abstract streak policy does, for a
    clock that does not run backwards: three failures in a row close the login
    for 15 s, each further one doubles the wait up to 30 min, and two idle
    hours end the streak. *)
Theorem os_credential_policy_refines_streak (evs : list event) (H : clocked 0 evs) :
  run_impl evs os_state_default = run evs None.
Proof. by apply (run_rep evs 0). Qed.

Lemma os_credential_policy_refines_streak_witness :
  run_impl [Failure 1000; Failure 2000; Attempt 2500; Failure 3000; Attempt 17999; Attempt 18000; Failure 20000; Attempt 40000]
    os_state_default = [true; false; true; false].
Proof.
  rewrite (os_credential_policy_refines_streak
    [Failure 1000; Failure 2000; Attempt 2500; Failure 3000; Attempt 17999; Attempt 18000; Failure 20000; Attempt 40000]);
    [vm_compute; reflexivity | simpl; lia].
Defined.

(** A refusal by the policy always carries its audit type and a message
    naming a wait of at least one second and at most thirty minutes. *)
Theorem os_credential_block_wait_bounded (t now : Z) (st : OsCredentialFailureState) (s : streak)
    (Hrep : rep t st s) (Ht : t <= now < 2 ^ 62)
    (Hblk : allowed (evaluate_os_credential_policy TerminalOsLogin now st).1 = false) :
  exists secs, 1 <= secs <= 1800 /\
    login_error (evaluate_os_credential_policy TerminalOsLogin now st).1 =
      Some (lit "Please try again in " ++ fmt_Z secs ++ lit " "
            ++ (if secs =? 1 then lit "second" else lit "seconds") ++ lit ".") /\
    audit (evaluate_os_credential_policy TerminalOsLogin now st).1 = Some TerminalOsLoginBackoff.
Proof.
  destruct (settle_rep t now st s Hrep Ht) as (Hr & Hu & _).
  unfold evaluate_os_credential_policy in *; simpl in *. fold (settle st now) in *. rewrite Hu in *.
  destruct s as [[c l]|]; [|by destruct (blocked now None)].
  destruct (blocked now (Some (c, l))) eqn:Hb; [|done]. simpl in *. bools.
  destruct Hr as (Hc & Hl & _). pose proof (backoff_range c).
  eexists. split; [|split; reflexivity].
  unfold i64_add, i64_sub. rewrite (wraps_small 64 (_ - _)) by (unfold is_s; lia).
  rewrite wraps_small by (unfold is_s; lia).
  rewrite Z.quot_div_nonneg by lia. Z.div_mod_to_equations. lia.
Qed.

Lemma os_credential_block_wait_bounded_witness :
  exists secs, 1 <= secs <= 1800 /\
    login_error (evaluate_os_credential_policy TerminalOsLogin 4000 (OsState 3 (Some 18000) (Some 3000))).1 =
      Some (lit "Please try again in " ++ fmt_Z secs ++ lit " "
            ++ (if secs =? 1 then lit "second" else lit "seconds") ++ lit ".") /\
    audit (evaluate_os_credential_policy TerminalOsLogin 4000 (OsState 3 (Some 18000) (Some 3000))).1 = Some TerminalOsLoginBackoff.
Proof.
  apply (os_credential_block_wait_bounded 3000 4000 (OsState 3 (Some 18000) (Some 3000)) (Some (3, 3000)));
    [simpl; repeat split; try lia; right; repeat split; left; reflexivity | lia | vm_compute; reflexivity].
Defined.

(** The tables after failures of several addresses. *)
Definition fail_all (i : nat) (fs : list (str * Z)) (t : FailureTables) : option FailureTables :=
  foldl (fun o '(ip, time) => t ← o; update_failure ip 0 ((0, 0, 0), time) false i t) (Some t) fs.

Lemma fail_all_direct ip ts t i m :
  get_ipv6_prefixes ip = None -> login_failures t !! i = Some m ->
  exists t', fail_all i ((fun x => (ip, x)) <$> ts) t = Some t' /\
    login_failures t' !! i = Some (failures_at ip ts m).
Proof.
  intros Hip. revert t m. induction ts as [|x ts IH]; intros t m Hm; [by exists t|].
  unfold fail_all; simpl. unfold update_failure at 2, update_failure_with_scope; simpl. rewrite Hm; simpl. rewrite Hip.
  apply IH. apply list_lookup_insert_eq. by apply lookup_lt_Some in Hm.
Qed.

(** For an address that is not IPv6, the tables decide exactly by the
    history of its failures: a check refuses iff the address has failed more
    than thirty times in all, or more than six times in a row in the minute of
    the check, and it changes nothing. *)
Theorem check_failure_by_history (ip : str) (ts : list Z) (i : nat) (t : FailureTables) (now1 now2 : Z)
    (Hip : get_ipv6_prefixes ip = None) (Hempty : login_failures t !! i = Some ∅)
    (Hlen : Z.of_nat (length ts) < 2 ^ 31) (Hne : ts <> []) :
  let time := wraps 32 (Z.quot now1 60000) in
  exists t' e fx, fail_all i ((fun x => (ip, x)) <$> ts) t = Some t' /\
    check_failure ip now1 now2 i t' =
      Some (e, time, negb ((30 <? Z.of_nat (length ts))
                           || ((time =? default 0 (last ts)) && (6 <? trailing ts))), fx, t').
Proof.
  intros time. destruct (fail_all_direct ip ts t i ∅ Hip Hempty) as (t' & Hr & Hm).
  exists t'. unfold check_failure, check_failure_with_scope; simpl. fold time. rewrite Hm, Hip. simpl.
  unfold check_failure_direct. rewrite failures_entry by done. simpl.
  destruct (30 <? Z.of_nat (length ts)); [by eauto|]. destruct ((_ =? _) && _)%bool; by eauto.
Qed.

Lemma check_failure_by_history_witness :
  exists t' e fx,
    fail_all 1 ((fun x => (lit "192.168.1.5", x)) <$> [7; 8; 8; 8; 8; 8; 8; 8]) (Tables [∅; ∅] os_state_default) = Some t' /\
    check_failure (lit "192.168.1.5") 480500 480600 1 t' = Some (e, 8, false, fx, t').
Proof.
  apply (check_failure_by_history (lit "192.168.1.5") [7; 8; 8; 8; 8; 8; 8; 8] 1 (Tables [∅; ∅] os_state_default) 480500 480600);
    [vm_compute; reflexivity | reflexivity | simpl; lia | discriminate].
Defined.

Lemma fail_all_count p64 fs t i m :
  login_failures t !! i = Some m ->
  Forall (fun f => exists p56 p48, get_ipv6_prefixes f.1 = Some (p64, p56, p48)) fs ->
  0 <= count m p64 -> count m p64 + 8 * Z.of_nat (length fs) < 2 ^ 31 - 8 ->
  exists t' m', fail_all i fs t = Some t' /\ login_failures t' !! i = Some m' /\
    count m p64 + Z.of_nat (length fs) <= count m' p64 <= count m p64 + 4 * Z.of_nat (length fs).
Proof.
  revert t m. induction fs as [|[ip time] fs IH]; intros t m Hm Hall H0 Hb; simpl in *.
  { exists t, m. repeat split; try done; lia. }
  inversion Hall as [|? ? (p56 & p48 & Hp) Hrest]; subst. simpl in Hp.
  destruct (count_update ip time m p64 p64 p56 p48 ltac:(lia)) as [Hle Hplus].
  specialize (Hplus eq_refl).
  unfold fail_all; simpl. unfold update_failure at 2, update_failure_with_scope; simpl. rewrite Hm; simpl. rewrite Hp.
  set (m1 := bump_key time ip _) in *.
  destruct (IH (Tables (<[i := m1]> (login_failures t)) (os_state t)) m1) as (t' & m' & Hr & Hm' & Hcnt);
    [apply list_lookup_insert_eq; by apply lookup_lt_Some in Hm | done | lia | lia |].
  exists t', m'. split; [exact Hr|]. split; [done|]. lia.
Qed.

(** Rotating addresses inside one /64 network does not evade the lock-out:
    after more than sixty failures from any addresses of the network, every
    address of that network is refused, whatever the clock says. *)
Theorem ipv6_prefix_lockout (p64 : str) (fs : list (str * Z)) (i : nat) (t : FailureTables)
    (ip : str) (p56 p48 : str) (now1 now2 : Z)
    (Hempty : login_failures t !! i = Some ∅)
    (Hall : Forall (fun f => exists p56 p48, get_ipv6_prefixes f.1 = Some (p64, p56, p48)) fs)
    (Hmany : 60 < Z.of_nat (length fs) < 2 ^ 20)
    (Hip : get_ipv6_prefixes ip = Some (p64, p56, p48)) :
  exists t' e time fx t'', fail_all i fs t = Some t' /\
    check_failure ip now1 now2 i t' = Some (e, time, false, fx, t'') /\
    In (PostAlarm ExceedIPv6PrefixAttempts) fx.
Proof.
  destruct (fail_all_count p64 fs t i ∅ Hempty Hall) as (t' & m' & Hr & Hm' & Hc);
    [done | unfold count; rewrite lookup_empty; simpl; lia |].
  unfold check_failure, check_failure_with_scope; simpl.
  exists t'. rewrite Hm'. simpl. rewrite Hip. unfold check_failure_ipv6_prefix.
  unfold count in Hc. rewrite lookup_empty in Hc. simpl in Hc.
  destruct (Z.ltb_spec 60 (entry_or_zero (m' !! p64)).2); [|lia].
  repeat eexists; [done|]. simpl. by right; left.
Qed.

Lemma ipv6_prefix_lockout_witness :
  let addr := fun k : nat => lit "2001:db8::" ++ fmt_Z (Z.of_nat k) in
  exists t' e time fx t'', fail_all 0 ((fun k => (addr k, 5)) <$> seq 1 61) (Tables [∅; ∅] os_state_default) = Some t' /\
    check_failure (lit "2001:db8::abcd") 600000 600000 0 t' = Some (e, time, false, fx, t'') /\
    In (PostAlarm ExceedIPv6PrefixAttempts) fx.
Proof.
  intros addr.
  apply (ipv6_prefix_lockout (lit "2001:db8::/64") _ 0 (Tables [∅; ∅] os_state_default)
    (lit "2001:db8::abcd") (lit "2001:db8::/56") (lit "2001:db8::/48") 600000 600000).
  - reflexivity.
  - apply Forall_fmap, Forall_forall. intros k Hk.
    assert (Hc : forallb (fun k => bool_decide (get_ipv6_prefixes (addr k) =
      Some (lit "2001:db8::/64", lit "2001:db8::/56", lit "2001:db8::/48"))) (seq 1 61) = true) by (vm_compute; reflexivity).
    rewrite forallb_forall in Hc. exists (lit "2001:db8::/56"), (lit "2001:db8::/48").
    apply (bool_decide_eq_true_1 _), Hc. by apply list_elem_of_In.
  - vm_compute. split; reflexivity.
  - vm_compute. reflexivity.
Defined.

End LoginFailureClaims.
