(* ===== verification/HomedeskNet.v ===== *)
(** * Address boundaries of the network modes

    Models [client/src/homedesk_net.rs] (network modes, server and whitelist
    validation, endpoint policy) and [client/src/homedesk_connection_path.rs]
    (classification of the selected path).  Shifts follow the release build:
    the amount wraps to 32 bits and is masked to five. *)
From stdpp Require Import base gmap list strings.
From Stdlib Require Import ZArith Lia.
From S2P Require Import Prelude RustStr.

#[local] Open Scope Z_scope.

Inductive NetworkMode := LanOnly | SelfHosted.
#[global] Instance NetworkMode_eq_dec : EqDecision NetworkMode.
Proof. solve_decision. Defined.

Definition mode_parse (value : str) : option NetworkMode :=
  if bool_decide (value = lit "lan_only") then Some LanOnly
  else if bool_decide (value = lit "self_hosted") then Some SelfHosted else None.

Definition mode_as_str (m : NetworkMode) : str :=
  match m with LanOnly => lit "lan_only" | SelfHosted => lit "self_hosted" end.

(** ** Host names *)

Definition split_host_port (value : str) : option (str * option Z) :=
  let value := trim value in
  if bool_decide (value = []) || contains_c (fun c => bool_decide (c ∈ lit "/\@[]")) value then None
  else
    match rsplit_once 58 value with
    | Some (host, port) =>
      port ← (p ← parse_u 16 port; if 0 <? p then Some p else None);
      if bool_decide (host = []) || contains_c (fun c => c =? 58) host then None
      else Some (host, Some port)
    | None => Some (value, None)
    end.

Definition valid_label (label : str) : bool :=
  negb (bool_decide (label = [])) && (str_len label <=? 63)
  && negb (starts_with [45] label) && negb (ends_with [45] label)
  && forallb (fun c => is_ascii_alphanumeric c || (c =? 45)) (str_bytes label).

Definition is_valid_domain (host : str) : bool :=
  (str_len host <=? 253) && contains_c (fun c => c =? 46) host
  && negb (forallb (fun c => is_ascii_digit c || (c =? 46)) (str_bytes host))
  && negb (match last (split_char 46 host) with
           | None => true
           | Some label => forallb is_ascii_digit (str_bytes label)
           end)
  && forallb valid_label (split_char 46 host).

(** ** Address classes *)

Definition oct_a (ip : Z) : Z := (octets ip).1.1.1.
Definition oct_b (ip : Z) : Z := (octets ip).1.1.2.

Definition is_special (ip : Z) : bool :=
  let a := oct_a ip in let b := oct_b ip in
  (ip =? 0) (* unspecified *) || (a =? 127) (* loopback *)
  || ((a =? 169) && (b =? 254)) (* link-local *)
  || ((224 <=? a) && (a <=? 239)) (* multicast *)
  || (ip =? u_max 32) (* broadcast *)
  || (a =? 0) || (240 <=? a) || ((a =? 100) && (64 <=? b) && (b <=? 127)).

Definition is_rfc1918 (ip : Z) : bool :=
  let a := oct_a ip in let b := oct_b ip in
  (a =? 10) || ((a =? 172) && (16 <=? b) && (b <=? 31)) || ((a =? 192) && (b =? 168)).

Definition private_block (raw_address : Z) : option Z :=
  let a := oct_a raw_address in let b := oct_b raw_address in
  if a =? 10 then Some 10
  else if (a =? 172) && (16 <=? b) && (b <=? 31) then Some 172
  else if (a =? 192) && (b =? 168) then Some 192 else None.

(** ** CIDR entries *)

Definition list_sep (c : Z) : bool := (c =? 44) || (c =? 59) || is_whitespace c.

(** [u32 << n] of the release build *)
Definition u32_shl (x n : Z) : Z := wrapu 32 (Z.shiftl x (Z.land (wrapu 32 n) 31)).
Definition u32_not (x : Z) : Z := u_max 32 - x.

Definition cidr_mask (prefix : Z) : Z := if prefix =? 0 then 0 else u32_shl (u_max 32) (32 - prefix).

Definition split_cidr (entry : str) : str * str :=
  default (entry, lit "32") (split_once 47 entry).

(** [(ip.parse::<Ipv4Addr>(), prefix.parse::<u32>())] *)
Definition parse_cidr (entry : str) : option (Z * Z) :=
  let '(ip, prefix) := split_cidr entry in
  ip ← parse_ipv4 ip; prefix ← parse_u 32 prefix; Some (ip, prefix).

Definition whitelist_items (value : str) : list str :=
  List.filter (fun item => negb (bool_decide (item = []))) (split list_sep value).

Definition is_family_network_or_broadcast (address : Z) (whitelist : str) : bool :=
  existsb (fun entry =>
    match parse_cidr entry with
    | None => false
    | Some (ip, prefix) =>
      let mask := cidr_mask prefix in
      let network := Z.land ip mask in
      let broadcast := Z.lor network (u32_not mask) in
      (prefix <? 32) && ((address =? network) || (address =? broadcast))
    end) (split list_sep whitelist).

Definition private_item (item : str) : bool :=
  let '(address, prefix) := default (trim item, lit "32") (split_once 47 (trim item)) in
  match parse_ipv4 address with
  | None => false
  | Some address =>
    match parse_u 32 prefix with
    | None => false
    | Some prefix =>
      if 32 <? prefix then false
      else
        let mask := cidr_mask prefix in
        let network := Z.land address mask in
        let broadcast := Z.lor network (u32_not mask) in
        bool_decide (is_Some (private_block network))
        && bool_decide (private_block network = private_block broadcast)
    end
  end.

Definition normalize_private_whitelist (value : str) : option str :=
  let items := whitelist_items value in
  if bool_decide (items = []) then None
  else if forallb private_item items then Some (join (lit ",") items) else None.

Definition is_private_whitelist (value : str) : bool :=
  bool_decide (is_Some (normalize_private_whitelist value)).

Definition source_item (item : str) : bool :=
  match parse_cidr item with
  | None => false
  | Some (address, prefix) => (0 <? prefix) && (prefix <=? 32) && negb (is_special address)
  end.

Definition normalize_source_whitelist (value : str) : option str :=
  if bool_decide (trim value = []) then Some []
  else
    let items := whitelist_items value in
    if forallb source_item items then Some (join (lit ",") items) else None.

Definition cidr_match (address : Z) (entry : str) : bool :=
  match parse_cidr entry with
  | None => false
  | Some (ip, prefix) => let mask := cidr_mask prefix in Z.land address mask =? Z.land ip mask
  end.

Definition source_endpoint_allowed (endpoint : SocketAddr) (whitelist : str) : bool :=
  if bool_decide (trim whitelist = []) then true
  else match endpoint with
       | V6 _ _ => false
       | V4 ip _ => existsb (cidr_match ip) (split list_sep whitelist)
       end.

(** [address.rsplit_once(':').filter(port > 0).map_or(address, ip)] *)
Definition strip_port (address : str) : str :=
  match rsplit_once 58 address with
  | Some (ip, port) =>
    match parse_u 16 port with Some p => if 0 <? p then ip else address | None => address end
  | None => address
  end.

Definition address_in_whitelist (address whitelist : str) : bool :=
  match parse_ipv4 (strip_port address) with
  | None => false
  | Some address =>
    if negb (is_private_whitelist whitelist) then false
    else existsb (cidr_match address) (split list_sep whitelist)
  end.

(** ** Policy *)

Definition is_valid_server (server : str) (mode : NetworkMode) : bool :=
  match split_host_port server with
  | None => false
  | Some (host, _) =>
    match parse_ipv4 host with
    | Some ip => negb (is_special ip) && (bool_decide (mode = SelfHosted) || is_rfc1918 ip)
    | None => bool_decide (mode = SelfHosted) && is_valid_domain host
    end
  end.

Definition is_private_rendezvous_server (server : str) : bool := is_valid_server server LanOnly.

Definition relay_allowed (_candidate : str) : bool := false.
Definition remote_request_allowed (force_relay websocket proxy : bool) : bool :=
  negb force_relay && negb websocket && negb proxy.
Definition direct_session_allowed (direct secured verified_peer_key : bool) : bool :=
  direct && secured && verified_peer_key.

Definition peer_endpoint_allowed (endpoint : SocketAddr) (mode : NetworkMode) (is_local : bool)
    (family_cidr : str) : bool :=
  match endpoint with
  | V6 _ _ => false
  | V4 ip port =>
    if (port =? 0) || is_special ip then false
    else
      let family := address_in_whitelist (fmt_ipv4 ip) family_cidr
                    && negb (is_family_network_or_broadcast ip family_cidr) in
      match mode with
      | LanOnly => family
      | SelfHosted => if is_rfc1918 ip then is_local && family else true
      end
  end.

Definition secure_session_allowed (_mode : NetworkMode) (is_secured has_verified_peer_key : bool) : bool :=
  is_secured && has_verified_peer_key.
Definition console_allowed (mode : NetworkMode) (enabled trusted_path : bool) : bool :=
  enabled && (bool_decide (mode = LanOnly) || trusted_path).
Definition home_tunnel_allowed (_mode : NetworkMode) (_profile_confirmed : bool) : bool := true.
Definition configured_key_allowed (candidate configured : str) : bool :=
  bool_decide (candidate = []) || bool_decide (candidate = configured).

(** ** Path classification (homedesk_connection_path.rs) *)

(** [endpoint.ip()] with the port [SocketAddr::new(ip, 1)] adds is all the
    code reads; the transport is compared with the literal ["TCP"]. *)
Definition classify (direct : bool) (endpoint : option SocketAddr) (local_hint : bool)
    (family_cidr transport : str) : str :=
  if negb direct then lit "relay"
  else if negb (bool_decide (transport = lit "TCP")) then lit "direct_unknown"
  else match endpoint with
  | None => lit "direct_unknown"
  | Some (V6 _ _) => lit "direct_unknown"
  | Some (V4 ip _) =>
    if is_rfc1918 ip then
      if local_hint && address_in_whitelist (fmt_ipv4 ip) family_cidr then lit "lan"
      else lit "direct_unknown"
    else if is_valid_server (fmt_ipv4 ip) SelfHosted then lit "p2p" else lit "direct_unknown"
  end.

Definition classify_manual (peer family_cidr transport : str) : str :=
  let endpoint :=
    match parse_socket_addr peer with
    | Some a => Some a
    | None =>
      match parse_ipv4 peer with
      | Some ip => Some (V4 ip 1)
      | None => ip ← parse_ipv6 peer; Some (V6 ip 1)
      end
    end in
  classify true endpoint true family_cidr transport.

(** ** CIDR arithmetic *)

Lemma land_high_bits k x : 0 <= k <= 32 -> is_u 32 x -> Z.land x (2 ^ 32 - 2 ^ k) = x - x mod 2 ^ k.
Proof.
  intros Hk Hx. unfold is_u in Hx.
  replace (2 ^ 32 - 2 ^ k) with (Z.shiftl (Z.ones (32 - k)) k).
  2: { rewrite Z.shiftl_mul_pow2, Z.ones_equiv by lia. unfold Z.pred.
       rewrite Z.mul_add_distr_r, <- Z.pow_add_r by lia. replace (32 - k + k) with 32 by lia. lia. }
  replace (x - x mod 2 ^ k) with (Z.shiftl (Z.shiftr x k) k).
  2: { rewrite Z.shiftl_mul_pow2, Z.shiftr_div_pow2 by lia.
       pose proof (Z.div_mod x (2 ^ k)). lia. }
  apply Z.bits_inj'. intros n Hn. rewrite Z.land_spec, !Z.shiftl_spec by lia.
  destruct (Z.lt_ge_cases n k) as [Hlt|Hge].
  - rewrite (Z.testbit_neg_r _ (n - k)) by lia. rewrite (Z.testbit_neg_r _ (n - k)) by lia. by rewrite andb_false_r.
  - rewrite Z.shiftr_spec by lia. replace (n - k + k) with n by lia.
    destruct (Z.lt_ge_cases n 32) as [Hlt|Hge32].
    + rewrite Z.ones_spec_low by lia. by rewrite andb_true_r.
    + destruct (Z.eq_dec x 0) as [->|]; [by rewrite Z.testbit_0_l|].
      rewrite (Z.bits_above_log2 x n); [done|lia|].
      apply Z.log2_lt_pow2; [lia|]. apply Z.lt_le_trans with (2 ^ 32); [lia|]. by apply Z.pow_le_mono_r.
Qed.

Lemma cidr_mask_val p : 0 <= p <= 32 -> cidr_mask p = 2 ^ 32 - 2 ^ (32 - p).
Proof.
  intros Hp. assert (Hc : forallb (fun p => cidr_mask p =? 2 ^ 32 - 2 ^ (32 - p)) (Z.of_nat <$> seq 0 33) = true)
    by (vm_compute; reflexivity).
  rewrite forallb_forall in Hc. apply Z.eqb_eq, Hc, list_elem_of_In, list_elem_of_fmap.
  exists (Z.to_nat p). rewrite elem_of_seq. lia.
Qed.

(** Network and broadcast address of a block are its first and last address. *)
Lemma cidr_bounds ip p : is_u 32 ip -> 0 <= p <= 32 ->
  let network := Z.land ip (cidr_mask p) in
  network = ip - ip mod 2 ^ (32 - p) /\
  Z.lor network (u32_not (cidr_mask p)) = network + (2 ^ (32 - p) - 1).
Proof.
  intros Hip Hp network. unfold network. rewrite cidr_mask_val by lia.
  rewrite land_high_bits by (done || lia). split; [done|].
  unfold u32_not, u_max. replace (2 ^ 32 - 1 - (2 ^ 32 - 2 ^ (32 - p))) with (Z.ones (32 - p)).
  2: { rewrite Z.ones_equiv. lia. }
  rewrite <- Z.add_nocarry_lor.
  { rewrite Z.ones_equiv. lia. }
  rewrite Z.land_ones by lia.
  pose proof (Z.pow_pos_nonneg 2 (32 - p)).
  replace (ip - ip mod 2 ^ (32 - p)) with (ip / 2 ^ (32 - p) * 2 ^ (32 - p)) by (pose proof (Z.div_mod ip (2 ^ (32 - p))); lia).
  apply Z.mod_mul. lia.
Qed.

Lemma same_block a ip p : is_u 32 a -> is_u 32 ip -> 0 <= p <= 32 ->
  (Z.land a (cidr_mask p) = Z.land ip (cidr_mask p) <-> a / 2 ^ (32 - p) = ip / 2 ^ (32 - p)).
Proof.
  intros Ha Hip Hp. rewrite (proj1 (cidr_bounds a p Ha Hp)), (proj1 (cidr_bounds ip p Hip Hp)).
  pose proof (Z.pow_pos_nonneg 2 (32 - p)).
  pose proof (Z.div_mod a (2 ^ (32 - p))). pose proof (Z.div_mod ip (2 ^ (32 - p))).
  split; [|intros Heq; rewrite Heq in *; lia].
  intros Heq. apply (Z.mul_reg_l _ _ (2 ^ (32 - p))); lia.
Qed.

Lemma oct_ab x : is_u 32 x ->
  oct_a x = x / 16777216 /\ oct_b x = x / 65536 - 256 * (x / 16777216).
Proof.
  unfold is_u, oct_a, oct_b, octets; simpl. intros Hx.
  split; [apply Z.mod_small|]; Z.div_mod_to_equations; lia.
Qed.

(** The three private blocks are intervals. *)
Definition private_interval (b lo hi : Z) : Prop :=
  (b = 10 /\ lo = 10 * 2 ^ 24 /\ hi = 11 * 2 ^ 24) \/
  (b = 172 /\ lo = (172 * 256 + 16) * 2 ^ 16 /\ hi = (172 * 256 + 32) * 2 ^ 16) \/
  (b = 192 /\ lo = (192 * 256 + 168) * 2 ^ 16 /\ hi = (192 * 256 + 169) * 2 ^ 16).

Lemma private_block_interval x b : is_u 32 x -> private_block x = Some b ->
  exists lo hi, private_interval b lo hi /\ lo <= x < hi.
Proof.
  intros Hx. unfold private_block. destruct (oct_ab x Hx) as [-> ->].
  assert (Hab : 16777216 * (x / 16777216) <= x < 16777216 * (x / 16777216) + 16777216) by (Z.div_mod_to_equations; lia).
  assert (Hbb : 65536 * (x / 65536) <= x < 65536 * (x / 65536) + 65536) by (Z.div_mod_to_equations; lia).
  unfold private_interval. repeat case_match; intros; simplify_eq; bools; do 2 eexists;
    (split; [naive_solver | lia]).
Qed.

Lemma interval_rfc1918 x b lo hi : is_u 32 x -> private_interval b lo hi -> lo <= x < hi -> is_rfc1918 x = true.
Proof.
  intros Hx. unfold is_rfc1918. destruct (oct_ab x Hx) as [-> ->].
  assert (Hab : 16777216 * (x / 16777216) <= x < 16777216 * (x / 16777216) + 16777216) by (Z.div_mod_to_equations; lia).
  assert (Hbb : 65536 * (x / 65536) <= x < 65536 * (x / 65536) + 65536) by (Z.div_mod_to_equations; lia).
  unfold private_interval. intros [(-> & -> & ->)|[(-> & -> & ->)|(-> & -> & ->)]] ?; zcases; simpl; lia || done.
Qed.

Lemma private_block_between x y z : is_u 32 x -> is_u 32 y -> x <= z <= y ->
  is_Some (private_block x) -> private_block x = private_block y -> is_rfc1918 z = true.
Proof.
  intros Hx Hy Hz [b Hb] Heq. rewrite Hb in Heq. symmetry in Heq.
  assert (Hzu : is_u 32 z) by (unfold is_u in *; lia).
  destruct (private_block_interval x b Hx Hb) as (lo & hi & Hi & Hxr).
  destruct (private_block_interval y b Hy Heq) as (lo' & hi' & Hi' & Hyr).
  apply (interval_rfc1918 z b lo hi Hzu Hi). unfold private_interval in *. lia.
Qed.

(** ** Whitelists *)

Lemma sep_not_space c : list_sep c = false -> is_whitespace c = false.
Proof. unfold list_sep. intros. bools. done. Qed.

(** A piece of a split list is its own trimmed form. *)
Lemma piece_trim e w : e ∈ split list_sep w -> trim e = e.
Proof.
  intros He. apply trim_id. pose proof (split_pieces list_sep w) as H. rewrite Forall_forall in H.
  eapply Forall_impl; [by apply H|]. intros c. apply sep_not_space.
Qed.

Lemma parse_cidr_range e ip p : parse_cidr e = Some (ip, p) -> is_u 32 ip /\ 0 <= p <= u_max 32 /\ e <> [].
Proof.
  unfold parse_cidr. destruct (split_cidr e) as [a b] eqn:E. intros H.
  apply bind_Some in H as (x & Hx & H). apply bind_Some in H as (y & Hy & H). simplify_eq.
  split; [by eapply parse_ipv4_range|]. split; [by eapply parse_u_range|].
  intros ->. unfold split_cidr in E; simpl in E. by simplify_eq.
Qed.

Lemma elem_of_items e w : e ∈ whitelist_items w <-> e ∈ split list_sep w /\ e <> [].
Proof.
  unfold whitelist_items. rewrite !list_elem_of_In, filter_In.
  by rewrite negb_true_iff, bool_decide_eq_false.
Qed.

(** An accepted item denotes a block that lies in one private range. *)
Lemma private_item_cidr e w : e ∈ split list_sep w -> private_item e = true ->
  exists ip p, parse_cidr e = Some (ip, p) /\ 0 <= p <= 32 /\ is_u 32 ip /\
    forall a, is_u 32 a -> a / 2 ^ (32 - p) = ip / 2 ^ (32 - p) -> is_rfc1918 a = true.
Proof.
  intros He. unfold private_item, parse_cidr, split_cidr. rewrite (piece_trim e w He).
  destruct (default (e, lit "32") (split_once 47 e)) as [a b].
  destruct (parse_ipv4 a) as [ip|] eqn:Hip; [|done].
  destruct (parse_u 32 b) as [p|] eqn:Hp; [|done].
  destruct (Z.ltb_spec 32 p) as [|Hp32]; [done|]. intros H. bools.
  apply parse_ipv4_range in Hip. apply parse_u_range in Hp.
  exists ip, p. split; [done|]. split; [lia|]. split; [done|]. intros x Hx Hblk.
  destruct (cidr_bounds ip p Hip ltac:(lia)) as [Hn Hb]. rewrite Hb, Hn in H0. rewrite Hn in H.
  pose proof (Z.pow_pos_nonneg 2 (32 - p) ltac:(lia) ltac:(lia)) as Hpos.
  pose proof (Z.div_mod x (2 ^ (32 - p)) ltac:(lia)) as Dx. pose proof (Z.div_mod ip (2 ^ (32 - p)) ltac:(lia)) as Dip.
  pose proof (Z.mod_pos_bound x (2 ^ (32 - p)) Hpos). pose proof (Z.mod_pos_bound ip (2 ^ (32 - p)) Hpos).
  rewrite Hblk in Dx.
  assert (2 ^ 32 = 2 ^ (32 - p) * 2 ^ p) as H32 by (rewrite <- Z.pow_add_r by lia; f_equal; lia).
  assert (0 < 2 ^ p) by (apply Z.pow_pos_nonneg; lia).
  unfold is_u in *. assert (ip / 2 ^ (32 - p) < 2 ^ p) by (apply Z.div_lt_upper_bound; lia).
  assert (0 <= ip / 2 ^ (32 - p)) by (apply Z.div_pos; lia).
  eapply (private_block_between _ _ x); [| | |eassumption|eassumption]; unfold is_u; [nia|nia|lia].
Qed.

Lemma is_private_items w : is_private_whitelist w = true ->
  whitelist_items w <> [] /\ forall e, e ∈ whitelist_items w -> private_item e = true.
Proof.
  unfold is_private_whitelist, normalize_private_whitelist. intros H. bools.
  repeat case_match; try (by destruct H). bools. split; [done|].
  rewrite forallb_forall in H1. intros e He. apply H1. by apply list_elem_of_In.
Qed.

Lemma family_entry a w : is_u 32 a -> is_private_whitelist w = true ->
  existsb (cidr_match a) (split list_sep w) = true ->
  exists e ip p, e ∈ whitelist_items w /\ parse_cidr e = Some (ip, p) /\ 0 <= p <= 32 /\
    a / 2 ^ (32 - p) = ip / 2 ^ (32 - p) /\ is_rfc1918 a = true.
Proof.
  intros Ha Hw Hm. apply existsb_exists in Hm as (e & He%list_elem_of_In & Hm).
  destruct (is_private_items w Hw) as [_ Hall]. unfold cidr_match in Hm.
  destruct (parse_cidr e) as [[ip p]|] eqn:Hp; [|done].
  destruct (parse_cidr_range e ip p Hp) as (Hip & _ & Hne).
  assert (He' : e ∈ whitelist_items w) by (by apply elem_of_items).
  destruct (private_item_cidr e w He (Hall e He')) as (ip' & p' & Hp' & Hr & _ & Hpriv).
  rewrite Hp in Hp'. simplify_eq. bools. apply same_block in Hm; [|done..].
  exists e, ip', p'. repeat split; auto; lia.
Qed.

(** ** Properties *)
Module HomedeskNetClaims.

(** A family whitelist can never admit a public address: whatever text the
    whitelist holds, an address it accepts is an RFC 1918 address lying in one
    of its blocks. *)
Theorem family_whitelist_stays_private (address whitelist : str)
    (H : address_in_whitelist address whitelist = true) :
  exists ip e net p, parse_ipv4 (strip_port address) = Some ip /\ is_rfc1918 ip = true /\
    e ∈ whitelist_items whitelist /\ parse_cidr e = Some (net, p) /\ 0 <= p <= 32 /\
    ip / 2 ^ (32 - p) = net / 2 ^ (32 - p).
Proof.
  unfold address_in_whitelist in H. destruct (parse_ipv4 (strip_port address)) as [ip|] eqn:Hip; [|done].
  destruct (negb (is_private_whitelist whitelist)) eqn:Hw; [done|]. bools.
  destruct (family_entry ip whitelist (parse_ipv4_range _ _ Hip) Hw H) as (e & net & p & He & Hp & Hr & Hb & Hpriv).
  by exists ip, e, net, p.
Qed.

Lemma family_whitelist_stays_private_witness :
  exists ip e net p, parse_ipv4 (strip_port (lit "192.168.50.7:42000")) = Some ip /\ is_rfc1918 ip = true /\
    e ∈ whitelist_items (lit "10.1.0.0/16; 192.168.50.0/24") /\ parse_cidr e = Some (net, p) /\ 0 <= p <= 32 /\
    ip / 2 ^ (32 - p) = net / 2 ^ (32 - p).
Proof. apply family_whitelist_stays_private. vm_compute. reflexivity. Defined.

(** A peer endpoint is accepted only if it is IPv4 with a real port and not
    a special address; a private address (any address, in LAN mode) must lie in
    a family block without being its network or broadcast address, and in
    self-hosted mode must have been announced as local. *)
Theorem peer_endpoint_sound (endpoint : SocketAddr) (mode : NetworkMode) (is_local : bool) (family : str)
    (Hu : forall ip port, endpoint = V4 ip port -> is_u 32 ip)
    (H : peer_endpoint_allowed endpoint mode is_local family = true) :
  exists ip port, endpoint = V4 ip port /\ port <> 0 /\ is_special ip = false /\
    (mode = LanOnly \/ is_rfc1918 ip = true ->
      is_rfc1918 ip = true /\ (mode = SelfHosted -> is_local = true) /\
      exists e net p, e ∈ whitelist_items family /\ parse_cidr e = Some (net, p) /\ 0 <= p <= 32 /\
        ip / 2 ^ (32 - p) = net / 2 ^ (32 - p) /\
        (p < 32 -> ip mod 2 ^ (32 - p) <> 0 /\ ip mod 2 ^ (32 - p) <> 2 ^ (32 - p) - 1)).
Proof.
  destruct endpoint as [ip port|]; [|done]. specialize (Hu ip port eq_refl). simpl in H.
  destruct (_ || _)%bool eqn:Hps in H; [done|]. bools.
  exists ip, port. split; [done|]. split; [done|]. split; [done|]. intros Hmode.
  assert (Hfam : address_in_whitelist (fmt_ipv4 ip) family
    && negb (is_family_network_or_broadcast ip family) = true /\ (mode = SelfHosted -> is_local = true)).
  { destruct mode; [split; [exact H | done]|]. destruct Hmode as [|Hr]; [done|]. rewrite Hr in H. apply andb_prop in H as [? ?]. split; [done | by intros _]. }
  destruct Hfam as [Hfam Hloc]. bools. unfold address_in_whitelist, strip_port in H2.
  rewrite fmt_ipv4_no_colon, parse_fmt_ipv4 in H2 by done.
  destruct (negb (is_private_whitelist family)) eqn:Hw; [done|]. bools.
  destruct (family_entry ip family Hu Hw H2) as (e & net & p & He & Hp & Hr & Hb & Hpriv).
  split; [done|]. split; [done|]. exists e, net, p. repeat (split; [done|]). intros Hlt.
  unfold is_family_network_or_broadcast in H3. apply not_true_iff_false in H3.
  apply elem_of_items in He as [He _].
  destruct (parse_cidr_range e net p Hp) as (Hnet & _ & _).
  destruct (cidr_bounds net p Hnet ltac:(lia)) as [Hn Hbr].
  pose proof (Z.pow_pos_nonneg 2 (32 - p) ltac:(lia) ltac:(lia)) as Hpos.
  pose proof (Z.div_mod ip (2 ^ (32 - p)) ltac:(lia)). pose proof (Z.div_mod net (2 ^ (32 - p)) ltac:(lia)).
  rewrite Hb in *.
  assert (Hno : ip <> Z.land net (cidr_mask p) /\ ip <> Z.lor (Z.land net (cidr_mask p)) (u32_not (cidr_mask p))).
  { split; intros Heq; apply H3, existsb_exists; exists e; (split; [by apply list_elem_of_In|]); rewrite Hp;
      (apply andb_true_intro; split; [by apply Z.ltb_lt | apply orb_true_iff; rewrite !Z.eqb_eq; auto]). }
  rewrite Hbr, Hn in Hno. lia.
Qed.

Lemma peer_endpoint_sound_witness :
  exists ip port, V4 3232248327 42000 = V4 ip port /\ port <> 0 /\ is_special ip = false /\
    (SelfHosted = LanOnly \/ is_rfc1918 ip = true ->
      is_rfc1918 ip = true /\ (SelfHosted = SelfHosted -> true = true) /\
      exists e net p, e ∈ whitelist_items (lit "192.168.50.0/24") /\ parse_cidr e = Some (net, p) /\ 0 <= p <= 32 /\
        ip / 2 ^ (32 - p) = net / 2 ^ (32 - p) /\
        (p < 32 -> ip mod 2 ^ (32 - p) <> 0 /\ ip mod 2 ^ (32 - p) <> 2 ^ (32 - p) - 1)).
Proof.
  apply (peer_endpoint_sound (V4 3232248327 42000) SelfHosted true (lit "192.168.50.0/24"));
    [intros ip port [= <- <-]; vm_compute; split; [discriminate | reflexivity] | vm_compute; reflexivity].
Defined.

(** The normal form of a family whitelist is stable, and stands for the
    same set of addresses as the text it was made from. *)
Theorem normalized_whitelist_equivalent (w n : str) (H : normalize_private_whitelist w = Some n) :
  normalize_private_whitelist n = Some n /\
  forall address, address_in_whitelist address n = address_in_whitelist address w.
Proof.
  assert (Hpriv : is_private_whitelist w = true) by (unfold is_private_whitelist; by rewrite H).
  unfold normalize_private_whitelist in H.
  destruct (bool_decide (whitelist_items w = [])) eqn:Hne; [done|].
  destruct (forallb private_item (whitelist_items w)) eqn:Hall; [|done]. bools. injection H as Hn.
  assert (Hsplit : split list_sep n = whitelist_items w).
  { subst n. change (lit ",") with [44]. apply split_join; [done..|].
    apply Forall_forall. intros e He. apply elem_of_items in He as [He _].
    pose proof (split_pieces list_sep w) as Hp. rewrite Forall_forall in Hp. by apply Hp. }
  assert (Hitems : whitelist_items n = whitelist_items w).
  { unfold whitelist_items at 1. rewrite Hsplit. unfold whitelist_items.
    generalize (split list_sep w) as l. intros l. induction l as [|x l IH]; simpl; [done|].
    destruct (negb (bool_decide (x = []))) eqn:E; simpl; [|done]. by rewrite E, IH. }
  assert (Hnorm : normalize_private_whitelist n = Some n).
  { unfold normalize_private_whitelist. rewrite Hitems, Hall. rewrite bool_decide_eq_false_2 by done. by subst n. }
  split; [done|]. intros address. unfold address_in_whitelist.
  destruct (parse_ipv4 (strip_port address)) as [ip|]; [|done].
  assert (Hpn : is_private_whitelist n = true) by (unfold is_private_whitelist; by rewrite Hnorm).
  rewrite Hpriv, Hpn. simpl. rewrite Hsplit. apply eq_true_iff_eq. rewrite !existsb_exists.
  setoid_rewrite <- list_elem_of_In. split; intros (e & He & Hm); exists e; (split; [|done]).
  - by apply elem_of_items in He as [He _].
  - apply elem_of_items. split; [done|]. intros ->. unfold cidr_match in Hm. by simpl in Hm.
Qed.

Lemma normalized_whitelist_equivalent_witness :
  normalize_private_whitelist (lit "10.1.0.0/16,172.16.1.10") = Some (lit "10.1.0.0/16,172.16.1.10") /\
  forall address, address_in_whitelist address (lit "10.1.0.0/16,172.16.1.10")
                  = address_in_whitelist address (lit " 10.1.0.0/16;; 172.16.1.10 ").
Proof. apply normalized_whitelist_equivalent. vm_compute. reflexivity. Defined.

(** A validated source restriction decides an IPv4 source exactly by CIDR
    membership: the source shares the leading prefix bits of some entry. *)
Theorem source_restriction_is_membership (w n : str) (ip port : Z)
    (Hn : normalize_source_whitelist w = Some n) (Hne : trim w <> []) (Hip : is_u 32 ip) :
  source_endpoint_allowed (V4 ip port) w = true <->
  exists e net p, e ∈ whitelist_items w /\ parse_cidr e = Some (net, p) /\ 1 <= p <= 32 /\
    ip / 2 ^ (32 - p) = net / 2 ^ (32 - p).
Proof.
  unfold normalize_source_whitelist in Hn. rewrite bool_decide_eq_false_2 in Hn by done.
  destruct (forallb source_item (whitelist_items w)) eqn:Hall; [|done]. rewrite forallb_forall in Hall.
  assert (Hitem : forall e net p, e ∈ whitelist_items w -> parse_cidr e = Some (net, p) -> 1 <= p <= 32).
  { intros e net p He Hp. apply list_elem_of_In, Hall in He. unfold source_item in He. rewrite Hp in He. bools. lia. }
  unfold source_endpoint_allowed. rewrite bool_decide_eq_false_2 by done. rewrite existsb_exists.
  setoid_rewrite <- list_elem_of_In. unfold cidr_match. split.
  - intros (e & He & Hm). destruct (parse_cidr e) as [[net p]|] eqn:Hp; [|done].
    destruct (parse_cidr_range e net p Hp) as (Hnet & _ & Hee).
    assert (He' : e ∈ whitelist_items w) by (by apply elem_of_items).
    pose proof (Hitem e net p He' Hp). bools. apply same_block in Hm; [|done|done|lia].
    exists e, net, p. repeat split; auto; lia.
  - intros (e & net & p & He & Hp & Hr & Heq). exists e.
    split; [by apply elem_of_items in He as [? _]|]. rewrite Hp. apply Z.eqb_eq.
    destruct (parse_cidr_range e net p Hp) as (Hnet & _ & _). apply same_block; [done|done|lia|done].
Qed.

Lemma source_restriction_is_membership_witness :
  source_endpoint_allowed (V4 3405803783 443) (lit "203.0.113.0/24;198.51.100.7") = true <->
  exists e net p, e ∈ whitelist_items (lit "203.0.113.0/24;198.51.100.7") /\ parse_cidr e = Some (net, p) /\ 1 <= p <= 32 /\
    3405803783 / 2 ^ (32 - p) = net / 2 ^ (32 - p).
Proof.
  apply (source_restriction_is_membership _ (lit "203.0.113.0/24,198.51.100.7"));
    [vm_compute; reflexivity | vm_compute; discriminate | vm_compute; split; [discriminate | reflexivity]].
Defined.

(** Without that validation the restriction is not a membership test: the
    entry 203.0.113.0/33, which the validator refuses, is read by the matcher
    as a one-bit prefix and admits an unrelated address. *)
Theorem source_prefix_above_32_matches_one_bit :
  normalize_source_whitelist (lit "203.0.113.0/33") = None /\
  source_endpoint_allowed (V4 (ipv4_new 198 51 100 7) 443) (lit "203.0.113.0/33") = true /\
  source_endpoint_allowed (V4 (ipv4_new 198 51 100 7) 443) (lit "203.0.113.0/24") = false.
Proof. vm_compute. repeat split. Qed.

(** The displayed path is honest: "lan" is shown only for a direct TCP
    connection to a private address inside the family blocks, "p2p" only for a
    direct TCP connection to an address that is neither private nor special,
    and "relay" exactly for the connections that are not direct. *)
Theorem classify_sound (direct : bool) (endpoint : option SocketAddr) (hint : bool) (family transport : str)
    (Hu : forall ip port, endpoint = Some (V4 ip port) -> is_u 32 ip) :
  let r := classify direct endpoint hint family transport in
  (r = lit "relay" <-> direct = false) /\
  (r = lit "lan" -> direct = true /\ transport = lit "TCP" /\ hint = true /\
     exists ip port, endpoint = Some (V4 ip port) /\ is_rfc1918 ip = true /\
       address_in_whitelist (fmt_ipv4 ip) family = true) /\
  (r = lit "p2p" -> direct = true /\ transport = lit "TCP" /\
     exists ip port, endpoint = Some (V4 ip port) /\ is_rfc1918 ip = false /\ is_special ip = false).
Proof.
  unfold classify. destruct direct; simpl; [|by repeat split].
  destruct (bool_decide (transport = lit "TCP")) eqn:Ht; simpl; [bools|by repeat split].
  destruct endpoint as [[ip port|]|]; [|by repeat split..].
  specialize (Hu ip port eq_refl).
  destruct (is_rfc1918 ip) eqn:Hr.
  - destruct (hint && _)%bool eqn:Hh; [|by repeat split]. bools. repeat split; try done. by exists ip, port.
  - destruct (is_valid_server _ _) eqn:Hv; [|by repeat split]. repeat split; try done.
    exists ip, port. repeat split; try done. unfold is_valid_server in Hv.
    destruct (split_host_port (fmt_ipv4 ip)) as [[h po]|] eqn:Hs; [|done].
    assert (h = fmt_ipv4 ip) as ->.
    { unfold split_host_port in Hs.
      assert (Htrim : trim (fmt_ipv4 ip) = fmt_ipv4 ip).
      { apply trim_id. eapply Forall_impl; [by apply fmt_ipv4_chars|]. intros x [Hx| ->]; [|done].
        by apply digit_not_whitespace. }
      rewrite Htrim in Hs. destruct (_ || _)%bool; [done|]. rewrite fmt_ipv4_no_colon in Hs by done. by simplify_eq. }
    rewrite parse_fmt_ipv4 in Hv by done. by bools.
Qed.

Lemma classify_sound_witness :
  let r := classify true (Some (V4 3232248340 12345)) true (lit "192.168.50.0/24") (lit "TCP") in
  (r = lit "relay" <-> true = false) /\
  (r = lit "lan" -> true = true /\ lit "TCP" = lit "TCP" /\ true = true /\
     exists ip port, Some (V4 3232248340 12345) = Some (V4 ip port) /\ is_rfc1918 ip = true /\
       address_in_whitelist (fmt_ipv4 ip) (lit "192.168.50.0/24") = true) /\
  (r = lit "p2p" -> true = true /\ lit "TCP" = lit "TCP" /\
     exists ip port, Some (V4 3232248340 12345) = Some (V4 ip port) /\ is_rfc1918 ip = false /\ is_special ip = false).
Proof.
  apply classify_sound. intros ip port [= <- <-]. vm_compute. split; [discriminate | reflexivity].
Defined.

End HomedeskNetClaims.
