(* ===== verification/HomedeskConfig.v ===== *)
(** * Atomic network profiles

    Models [client/src/homedesk_config.rs]: validation, saving and reading of
    the network profile, start-up migration ([apply]), the option filter for
    imports ([sanitize_options]), portal origins and endpoint resolution.

    The option store ([hbb_common::config], a submodule) is an interface:
    class [ConfigStore] holds its operations, [ConfigLaws] the documented
    behaviour the code relies on.  URL parsing, base64, DNS and port completion
    are parameters as well.  The static tables the code writes itself
    (defaults, hard, enforced and local settings) are fields of the state. *)
From stdpp Require Import base gmap list strings.
From Stdlib Require Import ZArith Lia.
From S2P Require Import Prelude RustStr HomedeskNet.

#[local] Open Scope Z_scope.

Abbreviation options_t := (gmap str str).

(** ** External interfaces *)

(** The constants of [hbb_common::config::keys] the code names. *)
Class OptionKeys := {
  OPTION_CUSTOM_RENDEZVOUS_SERVER : str;
  OPTION_RELAY_SERVER : str;
  OPTION_KEY : str;
  OPTION_WHITELIST : str;
  OPTION_API_SERVER : str;
  OPTION_ALLOW_AUTO_UPDATE : str;
  OPTION_ALLOW_INSECURE_TLS_FALLBACK : str;
  OPTION_LANGUAGE : str;
  OPTION_ENABLE_CHECK_UPDATE : str;
  OPTION_ENABLE_UDP_PUNCH : str;
  OPTION_ENABLE_IPV6_PUNCH : str;
}.

(** Values fixed at build time by [env!] and [option_env!]. *)
Class BuildEnv := {
  NET_MODE : str;
  SERVER_HOST : str;
  SERVER_KEY : str;
  WHITELIST_CIDR : str;
  SOURCE_CIDR : str;
  CONSOLE_ENABLED : str;
  CONSOLE_TRUSTED_PATH : str;
  CONSOLE_URL : option str;
  CONSOLE_TOKEN : option str;
}.

Definition RELAY_HOST : str := [].
Definition MODE_KEY : str := lit "homedesk-net-mode".
Definition PROFILE_PREFIX : str := lit "homedesk-profile-".
Definition PROFILE_SCHEMA_KEY : str := lit "homedesk-profile-schema".

(** [Config] and [Config2]: [S] is their memory and their file.  The option
    functions also consult the default and the enforced table, in this order. *)
Class ConfigStore (S : Type) := {
  config2_t : Type;
  (** [Config::get_option], [Config::get_options], [Config::set_options] *)
  get_option : S -> options_t -> options_t -> str -> str;
  get_options : S -> options_t -> options_t -> options_t;
  set_options : options_t -> options_t -> options_t -> S -> S;
  (** [Config2::get()], its field [options], [Config2::set] *)
  config2 : S -> config2_t;
  config2_options : config2_t -> options_t;
  config2_set : config2_t -> S -> S;
  (** [config::load_path::<Config2>(Config2::file()).options] *)
  stored_options : S -> options_t;
  (** [Config::set_socks(None)], [Config::clear_trusted_devices] *)
  set_socks_none : S -> S;
  clear_trusted_devices : S -> S;
}.

(** What the code relies on: an option that is set and not enforced reads back,
    and [Config2::set] installs the value it is given. *)
Class ConfigLaws (S : Type) `{!ConfigStore S} := {
  get_set_option : forall s defaults enforced m k v,
    m !! k = Some v -> enforced !! k = None ->
    get_option (set_options defaults enforced m s) defaults enforced k = v;
  config2_get_set : forall x s, config2 (config2_set x s) = x;
}.

(** The option names are pairwise distinct, and none is a profile field. *)
Class OptionKeysLaws `{!OptionKeys} := {
  option_keys_distinct : NoDup
    [OPTION_CUSTOM_RENDEZVOUS_SERVER; OPTION_RELAY_SERVER; OPTION_KEY; OPTION_WHITELIST; OPTION_API_SERVER;
     OPTION_ALLOW_AUTO_UPDATE; OPTION_ALLOW_INSECURE_TLS_FALLBACK;
     lit "homedesk-net-mode"; lit "force-always-relay"; lit "allow-websocket"];
  option_keys_no_profile : Forall (fun k => starts_with (lit "homedesk-profile-") k = false)
    [OPTION_CUSTOM_RENDEZVOUS_SERVER; OPTION_RELAY_SERVER; OPTION_KEY; OPTION_WHITELIST; OPTION_API_SERVER;
     OPTION_ALLOW_AUTO_UPDATE; OPTION_ALLOW_INSECURE_TLS_FALLBACK];
  option_keys_hidden : Forall (fun k => k ∉
      [OPTION_RELAY_SERVER; OPTION_API_SERVER; OPTION_ALLOW_AUTO_UPDATE; OPTION_ALLOW_INSECURE_TLS_FALLBACK;
       lit "force-always-relay"; lit "allow-websocket"])
    [lit "hide-help-cards"; lit "hide-proxy-settings"; lit "hide-websocket-settings"; lit "hide-remote-printer-settings"];
}.

(** Url of the [url] crate, as far as the code reads it. *)
Record Url := {
  u_scheme : str;
  u_host_str : option str;
  u_username : str;
  u_password : option str;
  u_query : option str;
  u_fragment : option str;
  u_path : str;
  u_port_or_known_default : option Z;
  u_origin : str;
}.

Class Externals := {
  url_parse : str -> option Url;
  decode64 : str -> option (list Z);
  check_port : str -> Z -> str;
  lookup_host : str -> result string (list SocketAddr);
  (** [SocketAddr::to_string] for IPv6 *)
  fmt_v6_socket : Z -> Z -> str;
}.

(** ** State *)

Record NetworkProfile := Profile {
  mode : NetworkMode;
  server : str;
  relay : str;
  key : str;
  family_cidr : str;
  source_cidr : str;
}.

Record HomeConfig (S : Type) := HomeCfg {
  store : S;
  exe_rendezvous_server : str;
  prod_rendezvous_server : str;
  default_settings : options_t;
  default_local_settings : options_t;
  hard_settings : options_t;
  overwrite_settings : options_t;
  overwrite_local_settings : options_t;
  profile_confirmed : bool;
  portal_permission_epoch : Z;
}.
Arguments HomeCfg {S} _ _ _ _ _ _ _ _ _ _.
Arguments store {S} _.
Arguments exe_rendezvous_server {S} _.
Arguments prod_rendezvous_server {S} _.
Arguments default_settings {S} _.
Arguments default_local_settings {S} _.
Arguments hard_settings {S} _.
Arguments overwrite_settings {S} _.
Arguments overwrite_local_settings {S} _.
Arguments profile_confirmed {S} _.
Arguments portal_permission_epoch {S} _.

Definition with_store {S} (f : S -> S) (c : HomeConfig S) : HomeConfig S :=
  HomeCfg (f (store c)) (exe_rendezvous_server c) (prod_rendezvous_server c) (default_settings c)
    (default_local_settings c) (hard_settings c) (overwrite_settings c) (overwrite_local_settings c)
    (profile_confirmed c) (portal_permission_epoch c).

Definition with_confirmed {S} (b : bool) (c : HomeConfig S) : HomeConfig S :=
  HomeCfg (store c) (exe_rendezvous_server c) (prod_rendezvous_server c) (default_settings c)
    (default_local_settings c) (hard_settings c) (overwrite_settings c) (overwrite_local_settings c)
    b (portal_permission_epoch c).

Definition mark_profile_unconfirmed {S} (c : HomeConfig S) : HomeConfig S := with_confirmed false c.
Definition mark_profile_confirmed {S} (c : HomeConfig S) : HomeConfig S := with_confirmed true c.

(** The epoch part of [invalidate_portal_permission]; the caller also stops the
    tunnel runtime. *)
Definition bump_portal_epoch {S} (c : HomeConfig S) : HomeConfig S :=
  HomeCfg (store c) (exe_rendezvous_server c) (prod_rendezvous_server c) (default_settings c)
    (default_local_settings c) (hard_settings c) (overwrite_settings c) (overwrite_local_settings c)
    (profile_confirmed c) (u64_add (portal_permission_epoch c) 1).

Section Config.
Context {S : Type} `{!OptionKeys, !BuildEnv, !ConfigStore S, !Externals}.
Implicit Types (c : HomeConfig S) (p : NetworkProfile).

Definition cfg_get_option c (k : str) : str :=
  get_option (store c) (default_settings c) (overwrite_settings c) k.
Definition cfg_get_options c : options_t :=
  get_options (store c) (default_settings c) (overwrite_settings c).
Definition cfg_set_options (m : options_t) c : HomeConfig S :=
  with_store (set_options (default_settings c) (overwrite_settings c) m) c.

(** ** Portal origins *)

Definition normalize_portal_origin (value : str) : option str :=
  if negb (bool_decide (trim value = value))
     || existsb (fun ch => is_control ch || is_whitespace ch || (ch =? 92)) value then None
  else
    url ← url_parse value;
    if negb (bool_decide (u_scheme url = lit "https")) || negb (bool_decide (is_Some (u_host_str url)))
       || negb (bool_decide (u_username url = [])) || bool_decide (is_Some (u_password url))
       || bool_decide (is_Some (u_query url)) || bool_decide (is_Some (u_fragment url))
       || negb (bool_decide (u_path url = []) || bool_decide (u_path url = lit "/"))
       || bool_decide (u_port_or_known_default url = Some 0) then None
    else Some (u_origin url).

(** ** Profiles *)

Definition profile_key (m : NetworkMode) (field : str) : str :=
  PROFILE_PREFIX ++ mode_as_str m ++ lit "-" ++ field.

Definition compiled_mode : NetworkMode := default LanOnly (mode_parse NET_MODE).

Definition validate_key (value : str) : bool :=
  match decode64 value with Some decoded => Z.of_nat (length decoded) =? 32 | None => false end.

Definition validate_profile p : result string unit :=
  if negb (bool_decide (mode p = SelfHosted)) then Err "请登录自建服务"%string
  else if negb (is_valid_server (server p) (mode p)) then Err "ID 服务器不符合当前网络模式"%string
  else if negb (bool_decide (relay p = [])) then Err "远程控制固定 P2P，不能配置中继服务器"%string
  else if negb (validate_key (key p)) then Err "服务器公钥必须是 32 字节 hbbs Base64 公钥"%string
  else if negb (bool_decide (is_Some (normalize_private_whitelist (family_cidr p)))) then Err "家庭 CIDR 必须完整位于 RFC1918 私网"%string
  else if negb (bool_decide (is_Some (normalize_source_whitelist (source_cidr p)))) then Err "公网来源限制必须是有效 IPv4 CIDR，且不能允许全部地址"%string
  else Ok ().

Definition active_mode c : NetworkMode :=
  if negb (profile_confirmed c) then LanOnly
  else default LanOnly (mode_parse (cfg_get_option c MODE_KEY)).

Definition active_profile c : NetworkProfile :=
  let m := active_mode c in
  if negb (profile_confirmed c) then Profile m [] [] [] [] []
  else Profile m (cfg_get_option c (profile_key m (lit "server"))) []
         (cfg_get_option c (profile_key m (lit "key")))
         (cfg_get_option c (profile_key m (lit "family-cidr")))
         (cfg_get_option c (profile_key m (lit "source-cidr"))).

Definition ingress p : str := if bool_decide (mode p = LanOnly) then family_cidr p else source_cidr p.

(** The options a saved profile leaves: all fields in one map. *)
Definition profile_options p (options : options_t) : options_t :=
  let options := <[profile_key (mode p) (lit "server") := server p]> options in
  let options := <[profile_key (mode p) (lit "relay") := relay p]> options in
  let options := <[profile_key (mode p) (lit "key") := key p]> options in
  let options := <[profile_key (mode p) (lit "family-cidr") := family_cidr p]> options in
  let options := <[profile_key (mode p) (lit "source-cidr") := source_cidr p]> options in
  let options := <[OPTION_CUSTOM_RENDEZVOUS_SERVER := server p]> options in
  let options := <[OPTION_RELAY_SERVER := relay p]> options in
  let options := <[OPTION_KEY := key p]> options in
  let options := <[OPTION_WHITELIST := ingress p]> options in
  let options := <[PROFILE_SCHEMA_KEY := lit "1"]> options in
  <[MODE_KEY := mode_as_str (mode p)]> options.

Definition save_network_profile p c : result string unit * HomeConfig S :=
  match validate_profile p with
  | Err e => (Err e, c)
  | Ok _ =>
    let previous := config2 (store c) in
    let options := profile_options p (cfg_get_options c) in
    let c1 := cfg_set_options options c in
    let current := config2_options (config2 (store c1)) in
    if negb (bool_decide (stored_options (store c1) = current)) then
      (Err "网络配置未能持久化，已回滚内存中的新配置"%string, with_store (config2_set previous) c1)
    else (Ok (), c1)
  end.

(** ** Start-up *)

Definition default_entries : list (str * str) :=
  let m := compiled_mode in
  [(MODE_KEY, mode_as_str m);
   (profile_key m (lit "server"), SERVER_HOST);
   (profile_key m (lit "relay"), RELAY_HOST);
   (profile_key m (lit "key"), SERVER_KEY);
   (profile_key m (lit "family-cidr"), WHITELIST_CIDR);
   (profile_key m (lit "source-cidr"), SOURCE_CIDR);
   (OPTION_CUSTOM_RENDEZVOUS_SERVER, SERVER_HOST);
   (OPTION_RELAY_SERVER, RELAY_HOST);
   (OPTION_KEY, SERVER_KEY);
   (OPTION_WHITELIST, if bool_decide (m = LanOnly) then WHITELIST_CIDR else SOURCE_CIDR)].

Definition insert_all (kvs : list (str * str)) (m : options_t) : options_t :=
  foldl (fun m '(k, v) => <[k := v]> m) m kvs.

Definition enforced_entries : list (str * str) :=
  [(OPTION_API_SERVER, []);
   (OPTION_ALLOW_AUTO_UPDATE, lit "N");
   (lit "hide-help-cards", lit "Y"); (lit "hide-proxy-settings", lit "Y");
   (lit "hide-websocket-settings", lit "Y"); (lit "hide-remote-printer-settings", lit "Y");
   (OPTION_ALLOW_INSECURE_TLS_FALLBACK, lit "N");
   (OPTION_RELAY_SERVER, []);
   (lit "force-always-relay", lit "N");
   (lit "allow-websocket", lit "N")].

Definition local_entries : list (str * str) :=
  [(OPTION_ENABLE_CHECK_UPDATE, lit "N");
   (OPTION_ENABLE_UDP_PUNCH, lit "N");
   (OPTION_ENABLE_IPV6_PUNCH, lit "N");
   (lit "homedesk-console-url", default [] CONSOLE_URL);
   (lit "homedesk-console-token", default [] CONSOLE_TOKEN)].

(** The legacy profile read from the stored options. *)
Definition legacy_profile (stored : options_t) : NetworkProfile :=
  let legacy_server := default [] (stored !! OPTION_CUSTOM_RENDEZVOUS_SERVER) in
  let legacy_key := default [] (stored !! OPTION_KEY) in
  let legacy_cidr := default [] (stored !! OPTION_WHITELIST) in
  Profile LanOnly legacy_server []
    (if bool_decide (legacy_key = []) then SERVER_KEY else legacy_key) legacy_cidr [].

(** The migration block of [apply]. *)
Definition apply_migrate (stored : options_t) c : HomeConfig S :=
  let had_legacy_options := negb (bool_decide (stored = ∅)) in
  let existing_mode := default [] (stored !! MODE_KEY) in
  let existing_schema := default [] (stored !! PROFILE_SCHEMA_KEY) in
  let c :=
    if bool_decide (existing_schema = []) && bool_decide (existing_mode = []) && had_legacy_options then
      let legacy := legacy_profile stored in
      match validate_profile legacy with
      | Err _ =>
        cfg_set_options (insert_all
          [(MODE_KEY, mode_as_str LanOnly); (PROFILE_SCHEMA_KEY, lit "1");
           (profile_key LanOnly (lit "server"), server legacy);
           (profile_key LanOnly (lit "relay"), relay legacy);
           (profile_key LanOnly (lit "key"), key legacy);
           (profile_key LanOnly (lit "family-cidr"), family_cidr legacy);
           (profile_key LanOnly (lit "source-cidr"), [])] (cfg_get_options c)) c
      | Ok _ => (save_network_profile legacy c).2
      end
    else c in
  if bool_decide (existing_schema = []) && negb had_legacy_options then
    cfg_set_options (<[PROFILE_SCHEMA_KEY := lit "1"]> (cfg_get_options c)) c
  else c.

(** The last two blocks: enforced and local settings. *)
Definition apply_enforce c : HomeConfig S :=
  HomeCfg (store c) (exe_rendezvous_server c) (prod_rendezvous_server c) (default_settings c)
    (default_local_settings c) (hard_settings c)
    (insert_all enforced_entries (overwrite_settings c))
    (insert_all local_entries (overwrite_local_settings c))
    (profile_confirmed c) (portal_permission_epoch c).

Definition apply c : HomeConfig S :=
  let c := cfg_set_options (delete (lit "telegram-bot") (delete (lit "2fa") (cfg_get_options c))) c in
  let c := with_store clear_trusted_devices c in
  let stored := config2_options (config2 (store c)) in
  let c := HomeCfg (set_socks_none (store c)) [] SERVER_HOST (insert_all default_entries (default_settings c))
             (default_local_settings c) (hard_settings c) (overwrite_settings c) (overwrite_local_settings c)
             (profile_confirmed c) (portal_permission_epoch c) in
  let c := apply_migrate stored c in
  let c := HomeCfg (store c) (exe_rendezvous_server c) (prod_rendezvous_server c) (default_settings c)
             (<[OPTION_LANGUAGE := lit "zh-cn"]> (default_local_settings c))
             (insert_all [(lit "disable-account", lit "Y"); (lit "disable-ab", lit "Y")] (hard_settings c))
             (overwrite_settings c) (overwrite_local_settings c) (profile_confirmed c) (portal_permission_epoch c) in
  let profile := active_profile c in
  let c := cfg_set_options (insert_all
             [(OPTION_CUSTOM_RENDEZVOUS_SERVER, server profile); (OPTION_RELAY_SERVER, relay profile);
              (OPTION_KEY, key profile); (OPTION_WHITELIST, ingress profile)] (cfg_get_options c)) c in
  apply_enforce c.

(** ** Permissions and endpoints *)

(** [auth_ready] is [nestlink_auth::ready()]. *)
Definition remote_profile_ready (auth_ready : bool) c : bool :=
  auth_ready && is_ok (validate_profile (active_profile c)).

Definition cfg_home_tunnel_allowed c : bool := home_tunnel_allowed (active_mode c) (profile_confirmed c).

(** [later] is the epoch at the second read. *)
Definition home_tunnel_permission c (later : Z) : str :=
  let epoch := portal_permission_epoch c in
  if negb (cfg_home_tunnel_allowed c) || negb (epoch =? later) then [] else fmt_Z epoch.

Definition cfg_console_allowed c : bool :=
  if negb (profile_confirmed c) then false
  else HomedeskNet.console_allowed (active_mode c) (bool_decide (CONSOLE_ENABLED = lit "true"))
         (bool_decide (CONSOLE_TRUSTED_PATH = lit "true")).

Definition allows_http (url : str) c : bool :=
  match url_parse url with
  | None => false
  | Some url =>
    if negb (bool_decide (u_scheme url = lit "http") || bool_decide (u_scheme url = lit "https"))
       || negb (bool_decide (u_username url = [])) || bool_decide (is_Some (u_password url)) then false
    else match u_host_str url with
         | None => false
         | Some host => address_in_whitelist host (family_cidr (active_profile c))
         end
  end.

Definition rendezvous_servers (auth_ready : bool) c : list str :=
  let configured := server (active_profile c) in
  if remote_profile_ready auth_ready c then [configured] else [].

Definition normalize_relay_candidate (_candidate : str) : result string str :=
  Err "远程控制固定 P2P，禁止中继"%string.

(** [SocketAddr::to_string] *)
Definition fmt_socket (a : SocketAddr) : str :=
  match a with V4 ip port => fmt_ipv4 ip ++ lit ":" ++ fmt_Z port | V6 ip port => fmt_v6_socket ip port end.

(** [resolve_configured_endpoint] reads the configuration and the login only
    before it asks the name service: [resolve_check] is what happens before that
    await (the name to ask for, and the mode read), [resolve_pick] what happens
    with the answer.  Callers that other tasks can overtake during the await use
    the two parts. *)
Definition resolve_check (auth_ready : bool) (endpoint : str) (default_port : Z) (relay : bool) c
    : result string (str * NetworkMode) :=
  let profile := active_profile c in
  if relay then Err "远程控制固定 P2P，禁止中继解析"%string
  else if negb (remote_profile_ready auth_ready c) then Err "请先配置并确认自建 hbbs 地址与公钥"%string
  else
    let candidate := check_port endpoint default_port in
    let configured := check_port (server profile) default_port in
    if negb (eq_ignore_ascii_case candidate configured) then Err "目标不属于当前原子配置组"%string
    else Ok (candidate, mode profile).

Definition resolve_pick (m : NetworkMode) (addresses : result string (list SocketAddr)) : result string SocketAddr :=
  match addresses with
  | Err error => Err ("无法解析已配置地址：" +:+ error)%string
  | Ok addresses =>
    ok_or (head (List.filter (fun a =>
      match a with V4 _ _ => is_valid_server (fmt_socket a) m | V6 _ _ => false end) addresses))
      "已配置域名未解析到允许的 IPv4 地址"%string
  end.

Definition resolve_configured_endpoint (auth_ready : bool) (endpoint : str) (default_port : Z) (relay : bool) c
    : result string SocketAddr :=
  match resolve_check auth_ready endpoint default_port relay c with
  | Err e => Err e
  | Ok (candidate, m) => resolve_pick m (lookup_host candidate)
  end.

Definition source_allowed (endpoint : SocketAddr) c : bool :=
  let profile := active_profile c in
  bool_decide (mode profile = LanOnly) || source_endpoint_allowed endpoint (source_cidr profile).

(** ** Imported options *)

Definition sanitize_options (options : options_t) c : options_t :=
  let current := cfg_get_options c in
  let options := filter (fun kv => starts_with PROFILE_PREFIX kv.1 = false) options in
  let options := filter (fun kv => starts_with PROFILE_PREFIX kv.1 = true) current ∪ options in
  let profile := active_profile c in
  let options := insert_all
    [(PROFILE_SCHEMA_KEY, lit "1");
     (MODE_KEY, mode_as_str (mode profile));
     (OPTION_CUSTOM_RENDEZVOUS_SERVER, server profile);
     (OPTION_RELAY_SERVER, relay profile);
     (OPTION_KEY, key profile);
     (OPTION_WHITELIST, ingress profile)] options in
  let options := foldl (fun m k => delete k m) options
    [OPTION_API_SERVER; OPTION_ALLOW_AUTO_UPDATE; OPTION_ALLOW_INSECURE_TLS_FALLBACK;
     lit "force-always-relay"; lit "allow-websocket"] in
  let options := <[OPTION_RELAY_SERVER := []]> options in
  map_imap (fun k v => Some (if starts_with PROFILE_PREFIX k && ends_with (lit "-relay") k then [] else v)) options.

End Config.

(** ** Lemmas *)

Section Lemmas.
Context {S : Type} `{!OptionKeys, !BuildEnv, !ConfigStore S, !Externals}.
Implicit Types (c : HomeConfig S) (p : NetworkProfile).

Lemma profile_key_prefix m f : starts_with PROFILE_PREFIX (profile_key m f) = true.
Proof.
  unfold starts_with, profile_key. apply bool_decide_eq_true.
  assert (Hs : forall a b, strip_prefix a (a ++ b) = Some b).
  { intros a b. induction a as [|x a IH]; simpl; [done|]. by rewrite Z.eqb_refl. }
  rewrite Hs. by eexists.
Qed.

Lemma profile_key_inj m f m' f' : profile_key m f = profile_key m' f' -> m = m' /\ f = f'.
Proof. unfold profile_key. intros Heq. apply app_inv_head in Heq. destruct m, m'; simpl in Heq; by simplify_eq. Qed.

Lemma mode_round_trip m : mode_parse (mode_as_str m) = Some m.
Proof. by destruct m. Qed.

(** Only a self-hosted profile with the right shape is valid. *)
Lemma validate_profile_ok p : validate_profile p = Ok () ->
  mode p = SelfHosted /\ is_valid_server (server p) SelfHosted = true /\ relay p = [] /\ validate_key (key p) = true /\
  is_Some (normalize_private_whitelist (family_cidr p)) /\ is_Some (normalize_source_whitelist (source_cidr p)).
Proof.
  unfold validate_profile. intros Hv. repeat (case_match; [done|]). bools.
  match goal with Hm : mode p = _ |- _ => rewrite Hm in * end. done.
Qed.

Lemma validate_lan_only p : mode p = LanOnly -> validate_profile p = Err "请登录自建服务"%string.
Proof. unfold validate_profile. by intros ->. Qed.

Lemma active_unconfirmed c : profile_confirmed c = false -> active_profile c = Profile LanOnly [] [] [] [] [].
Proof. unfold active_profile, active_mode. by intros ->. Qed.

Lemma active_relay_empty c : relay (active_profile c) = [].
Proof. unfold active_profile. by destruct (profile_confirmed c). Qed.

Lemma active_profile_mode c : mode (active_profile c) = active_mode c.
Proof. unfold active_profile. by destruct (negb (profile_confirmed c)). Qed.

Lemma ready_profile auth c : remote_profile_ready auth c = true ->
  auth = true /\ profile_confirmed c = true /\ validate_profile (active_profile c) = Ok ().
Proof.
  unfold remote_profile_ready. intros Hr. bools.
  destruct (validate_profile (active_profile c)) as [[]|] eqn:Hv; [|done].
  split; [done|]. split; [|done]. destruct (profile_confirmed c) eqn:Hc; [done|].
  rewrite active_unconfirmed in Hv by done. done.
Qed.

(** Reading a map after a list of insertions. *)
Lemma insert_all_lookup (kvs : list (str * str)) (m : options_t) (k : str) :
  (insert_all kvs m) !! k = match list_find (fun kv => kv.1 = k) (reverse kvs) with
                            | Some (_, kv) => Some kv.2 | None => m !! k end.
Proof.
  unfold insert_all. induction kvs as [|[a v] kvs IH] using rev_ind; [done|].
  rewrite foldl_app, reverse_app; simpl. rewrite lookup_insert.
  case_decide as Hd; simpl; [done|]. rewrite IH.
  by destruct (list_find _ (reverse kvs)) as [[? ?]|].
Qed.

Lemma delete_all_lookup (ks : list str) (m : options_t) (k : str) :
  (foldl (fun m k => delete k m) m ks) !! k = if decide (k ∈ ks) then None else m !! k.
Proof.
  revert m. induction ks as [|a ks IH]; intros m; simpl; [done|]. rewrite IH, lookup_delete.
  repeat case_decide; set_solver.
Qed.

(** What passing the check, and a pick among the answers, mean *)
Lemma resolve_check_ok auth endpoint port relay_flag c candidate m :
  resolve_check auth endpoint port relay_flag c = Ok (candidate, m) ->
  relay_flag = false /\ remote_profile_ready auth c = true /\ candidate = check_port endpoint port /\
  m = mode (active_profile c) /\
  eq_ignore_ascii_case (check_port endpoint port) (check_port (server (active_profile c)) port) = true.
Proof.
  unfold resolve_check. destruct relay_flag; [done|]. destruct (remote_profile_ready auth c); [|done]. simpl.
  destruct (eq_ignore_ascii_case _ _) eqn:He; [|done]. simpl. intros [= <- <-]. done.
Qed.

Lemma resolve_pick_ok m answers a : resolve_pick m answers = Ok a ->
  exists l, answers = Ok l /\ a ∈ l /\ exists ip pt, a = V4 ip pt /\ is_valid_server (fmt_socket a) m = true.
Proof.
  unfold resolve_pick. destruct answers as [l|]; [|done]. intros Hk. apply ok_or_ok in Hk.
  pose proof (head_Some_elem_of _ _ Hk) as Hin. apply list_elem_of_In, filter_In in Hin as [Hin Hf].
  exists l. split; [done|]. split; [by apply list_elem_of_In|]. destruct a as [ip pt|]; [|done]. eauto.
Qed.

End Lemmas.

(** Facts about distinct names, ready for [case_decide]. *)
Ltac nodup_facts H :=
  repeat (apply NoDup_cons in H; let H1 := fresh "Hnot" in destruct H as [H1 H]; rewrite ?not_elem_of_cons in H1);
  destruct_and?.
Ltac distinct_names :=
  rewrite ?elem_of_cons, ?elem_of_nil;
  let H := fresh in intros H; destruct_or?; (congruence || done).

(** ** A concrete store, for the witnesses *)
Module ExampleConfig.

Record SimpleStore := { mem : options_t; disk : options_t }.

#[global] Instance simple_store : ConfigStore SimpleStore := {|
  config2_t := options_t;
  get_option s d o k := default [] (match o !! k with Some v => Some v | None =>
                          match mem s !! k with Some v => Some v | None => d !! k end end);
  get_options s d o := o ∪ mem s ∪ d;
  set_options _ _ m _ := {| mem := m; disk := m |};
  config2 := mem;
  config2_options m := m;
  config2_set m _ := {| mem := m; disk := m |};
  stored_options := disk;
  set_socks_none s := s;
  clear_trusted_devices s := s;
|}.

#[global] Instance simple_laws : ConfigLaws SimpleStore.
Proof. split; [|done]. intros s d o m k v Hm Ho. simpl. by rewrite Ho, Hm. Qed.

#[global] Instance real_keys : OptionKeys := {|
  OPTION_CUSTOM_RENDEZVOUS_SERVER := lit "custom-rendezvous-server";
  OPTION_RELAY_SERVER := lit "relay-server";
  OPTION_KEY := lit "key";
  OPTION_WHITELIST := lit "whitelist";
  OPTION_API_SERVER := lit "api-server";
  OPTION_ALLOW_AUTO_UPDATE := lit "allow-auto-update";
  OPTION_ALLOW_INSECURE_TLS_FALLBACK := lit "allow-insecure-tls-fallback";
  OPTION_LANGUAGE := lit "lang";
  OPTION_ENABLE_CHECK_UPDATE := lit "enable-check-update";
  OPTION_ENABLE_UDP_PUNCH := lit "enable-udp-punch";
  OPTION_ENABLE_IPV6_PUNCH := lit "enable-ipv6-punch";
|}.

#[global] Instance real_keys_laws : OptionKeysLaws.
Proof.
  split; [| |]; apply (bool_decide_eq_true_1 _); vm_compute; reflexivity.
Qed.

#[global] Instance build_env : BuildEnv := {|
  NET_MODE := lit "self_hosted"; SERVER_HOST := lit "hbbs.example.com"; SERVER_KEY := lit "k";
  WHITELIST_CIDR := lit "192.168.0.0/16"; SOURCE_CIDR := []; CONSOLE_ENABLED := lit "false";
  CONSOLE_TRUSTED_PATH := lit "false"; CONSOLE_URL := None; CONSOLE_TOKEN := None |}.

(** [https://host] and nothing else; every key decodes to 32 zero bytes; DNS
    knows one name. *)
Definition example_url (s : str) : option Url :=
  host ← strip_prefix (lit "https://") s;
  Some {| u_scheme := lit "https"; u_host_str := Some host; u_username := []; u_password := None; u_query := None;
          u_fragment := None; u_path := lit "/"; u_port_or_known_default := Some 443; u_origin := s |}.

#[global] Instance externals : Externals := {|
  url_parse := example_url;
  decode64 _ := Some (replicate 32 0);
  check_port host port := host ++ lit ":" ++ fmt_Z port;
  lookup_host _ := Ok [V6 1 21116; V4 (ipv4_new 203 0 113 9) 21116];
  fmt_v6_socket _ _ := [] |}.

Definition profile : NetworkProfile :=
  Profile SelfHosted (lit "hbbs.example.com") [] (lit "k") (lit "192.168.50.0/24") [].

Definition config : HomeConfig SimpleStore :=
  HomeCfg {| mem := ∅; disk := ∅ |} [] [] ∅ ∅ ∅ ∅ ∅ true 0.

End ExampleConfig.

(** ** Properties *)
Module HomedeskConfigClaims.

Section Claims.
Context {S : Type} `{!OptionKeys, !OptionKeysLaws, !BuildEnv, !ConfigStore S, !ConfigLaws S, !Externals}.
Implicit Types (c : HomeConfig S) (p : NetworkProfile).

Lemma sanitize_lookup options c k :
  sanitize_options options c !! k =
  (fun v => if starts_with PROFILE_PREFIX k && ends_with (lit "-relay") k then [] else v) <$>
  (if decide (k = OPTION_RELAY_SERVER) then Some []
   else if decide (k ∈ [OPTION_API_SERVER; OPTION_ALLOW_AUTO_UPDATE; OPTION_ALLOW_INSECURE_TLS_FALLBACK;
                        lit "force-always-relay"; lit "allow-websocket"]) then None
   else if decide (k = OPTION_WHITELIST) then Some (ingress (active_profile c))
   else if decide (k = OPTION_KEY) then Some (key (active_profile c))
   else if decide (k = OPTION_CUSTOM_RENDEZVOUS_SERVER) then Some (server (active_profile c))
   else if decide (k = MODE_KEY) then Some (mode_as_str (active_mode c))
   else if decide (k = PROFILE_SCHEMA_KEY) then Some (lit "1")
   else if starts_with PROFILE_PREFIX k then cfg_get_options c !! k else options !! k).
Proof.
  unfold sanitize_options. rewrite map_lookup_imap, lookup_insert.
  destruct (decide (OPTION_RELAY_SERVER = k)) as [<-|Hr]; [rewrite decide_True by done; done|].
  rewrite (decide_False (P := k = OPTION_RELAY_SERVER)) by done. rewrite delete_all_lookup.
  destruct (decide (k ∈ _)) as [|_]; [done|]. rewrite active_profile_mode.
  unfold insert_all. simpl. rewrite !lookup_insert.
  assert (Hsym : forall (A : Type) (a b : str) (x y : A),
    (if decide (a = b) then x else y) = (if decide (b = a) then x else y)).
  { intros. by repeat case_decide; subst. }
  rewrite !(Hsym _ _ k). rewrite !(decide_False (P := k = OPTION_RELAY_SERVER)) by done.
  repeat (case_decide; [done|]).
  f_equal. rewrite lookup_union, !map_lookup_filter.
  destruct (starts_with PROFILE_PREFIX k) eqn:Hk.
  - destruct (cfg_get_options c !! k) eqn:E1, (options !! k) eqn:E2; simpl; rewrite ?Hk; simpl; by repeat case_guard.
  - destruct (cfg_get_options c !! k) eqn:E1, (options !! k) eqn:E2; simpl; rewrite ?Hk; simpl; by repeat case_guard.
Qed.

(** No imported option map can cross the security boundary: after the
    filter, mode, server, key and whitelist are those of the active profile,
    the relay is empty, transport overrides are gone, and every profile field
    has the value the local store already had (relay fields cleared). *)
Theorem imported_options_keep_boundary options c :
  let r := sanitize_options options c in
  let p := active_profile c in
  r !! MODE_KEY = Some (mode_as_str (active_mode c)) /\
  r !! OPTION_CUSTOM_RENDEZVOUS_SERVER = Some (server p) /\ r !! OPTION_KEY = Some (key p) /\
  r !! OPTION_WHITELIST = Some (ingress p) /\ r !! OPTION_RELAY_SERVER = Some [] /\
  (forall k, k ∈ [OPTION_API_SERVER; OPTION_ALLOW_AUTO_UPDATE; OPTION_ALLOW_INSECURE_TLS_FALLBACK;
                  lit "force-always-relay"; lit "allow-websocket"] -> r !! k = None) /\
  (forall k, starts_with PROFILE_PREFIX k = true -> k <> PROFILE_SCHEMA_KEY ->
     r !! k = (fun v => if ends_with (lit "-relay") k then [] else v) <$> cfg_get_options c !! k).
Proof.
  intros r p. unfold r, p. rewrite !sanitize_lookup.
  pose proof option_keys_distinct as Hd. pose proof option_keys_no_profile as Hn.
  fold MODE_KEY in Hd. fold PROFILE_PREFIX in Hn. rewrite !Forall_cons in Hn.
  destruct Hn as (Hn1 & Hn2 & Hn3 & Hn4 & Hn5 & Hn6 & Hn7 & _). rewrite Hn1, Hn2, Hn3, Hn4.
  assert (Hm : starts_with PROFILE_PREFIX MODE_KEY = false) by (vm_compute; reflexivity). rewrite Hm.
  nodup_facts Hd.
  repeat match goal with |- _ /\ _ => split end.
  1-5: repeat first [rewrite decide_True by reflexivity | rewrite decide_False by distinct_names]; done.
  - intros k Hk. rewrite sanitize_lookup. rewrite (decide_True (P := k ∈ _)) by done.
    rewrite decide_False; [done|]. rewrite !elem_of_cons, elem_of_nil in Hk. destruct_or!; congruence.
  - intros k Hk Hs. rewrite sanitize_lookup, Hk. simpl.
    repeat (rewrite decide_False; [|by intros ->; congruence]).
    rewrite (decide_False (P := k ∈ _)); [|].
    + by repeat (rewrite decide_False; [|by intros ->; congruence]).
    + rewrite !elem_of_cons, elem_of_nil. intros Hin.
      assert (starts_with PROFILE_PREFIX (lit "force-always-relay") = false) by (vm_compute; reflexivity).
      assert (starts_with PROFILE_PREFIX (lit "allow-websocket") = false) by (vm_compute; reflexivity).
      destruct Hin as [->|[->|[->|[->|[->|[]]]]]]; congruence.
Qed.

Lemma profile_options_lookup p (options : options_t) :
  profile_options p options !! MODE_KEY = Some (mode_as_str (mode p)) /\
  profile_options p options !! profile_key (mode p) (lit "server") = Some (server p) /\
  profile_options p options !! profile_key (mode p) (lit "key") = Some (key p) /\
  profile_options p options !! profile_key (mode p) (lit "family-cidr") = Some (family_cidr p) /\
  profile_options p options !! profile_key (mode p) (lit "source-cidr") = Some (source_cidr p).
Proof.
  unfold profile_options.
  assert (Hother : forall f, Forall (fun k => k <> profile_key (mode p) f)
    [OPTION_CUSTOM_RENDEZVOUS_SERVER; OPTION_RELAY_SERVER; OPTION_KEY; OPTION_WHITELIST; MODE_KEY]).
  { intros f. pose proof option_keys_no_profile as Hn. fold PROFILE_PREFIX in Hn. rewrite !Forall_cons in *.
    pose proof (profile_key_prefix (mode p) f) as Hp.
    assert (starts_with PROFILE_PREFIX MODE_KEY = false) by (vm_compute; reflexivity).
    destruct_and!. repeat split; try (intros Heq; congruence). constructor. }
  assert (Hschema : forall f, head f <> Some 99 -> PROFILE_SCHEMA_KEY <> profile_key (mode p) f).
  { intros f Hf Heq. unfold profile_key, PROFILE_SCHEMA_KEY in Heq. destruct (mode p); vm_compute in Heq; done. }
  split; [by rewrite lookup_insert_eq|].
  assert (Hread : forall f, head f <> Some 99 -> forall m : options_t,
    (<[MODE_KEY := mode_as_str (mode p)]> (<[PROFILE_SCHEMA_KEY := lit "1"]> (<[OPTION_WHITELIST := ingress p]>
      (<[OPTION_KEY := key p]> (<[OPTION_RELAY_SERVER := relay p]> (<[OPTION_CUSTOM_RENDEZVOUS_SERVER := server p]> m))))))
      !! profile_key (mode p) f = m !! profile_key (mode p) f).
  { intros f Hf m. pose proof (Hother f) as Ho. rewrite !Forall_cons in Ho. destruct_and!.
    rewrite !lookup_insert_ne by (done || by apply Hschema). done. }
  assert (Hf : forall f g, f <> g -> profile_key (mode p) f <> profile_key (mode p) g)
    by (intros f g Hne Heq; apply profile_key_inj in Heq; naive_solver).
  repeat split; rewrite Hread by (vm_compute; discriminate);
    repeat first [by rewrite lookup_insert_eq | rewrite lookup_insert_ne by (apply Hf; vm_compute; discriminate)].
Qed.

Lemma save_profile_facts p c
    (Hfree : forall k, k = MODE_KEY \/ starts_with PROFILE_PREFIX k = true -> overwrite_settings c !! k = None) :
  let '(r, c') := save_network_profile p c in
  match r with
  | Ok _ => validate_profile p = Ok () /\
            stored_options (store c') = config2_options (config2 (store c')) /\
            active_profile (mark_profile_confirmed c') = p
  | Err _ => config2 (store c') = config2 (store c) /\
             (is_ok (validate_profile p) = false -> c' = c)
  end.
Proof.
  unfold save_network_profile. destruct (validate_profile p) as [[]|e] eqn:Hv; [|by split].
  destruct (negb _) eqn:Hst; simpl; bools.
  { split; [apply config2_get_set | done]. }
  split; [done|]. split; [done|].
  destruct (profile_options_lookup p (cfg_get_options c)) as (Hm & Hs & Hk & Hfam & Hsrc).
  apply validate_profile_ok in Hv as (Hmode & _ & Hrel & _).
  assert (Hget : forall k v, (k = MODE_KEY \/ starts_with PROFILE_PREFIX k = true) ->
    profile_options p (cfg_get_options c) !! k = Some v ->
    cfg_get_option (mark_profile_confirmed (cfg_set_options (profile_options p (cfg_get_options c)) c)) k = v).
  { intros k v Hkk Hl. unfold cfg_get_option; simpl. apply get_set_option; [done|]. by apply Hfree. }
  assert (Ham : active_mode (mark_profile_confirmed (cfg_set_options (profile_options p (cfg_get_options c)) c)) = mode p).
  { unfold active_mode; simpl. rewrite (Hget _ _ (or_introl eq_refl) Hm). by rewrite mode_round_trip. }
  unfold active_profile. rewrite Ham. simpl.
  rewrite (Hget _ _ (or_intror (profile_key_prefix _ _)) Hs), (Hget _ _ (or_intror (profile_key_prefix _ _)) Hk),
    (Hget _ _ (or_intror (profile_key_prefix _ _)) Hfam), (Hget _ _ (or_intror (profile_key_prefix _ _)) Hsrc), <- Hrel.
  by destruct p.
Qed.

(** C32: Saving a profile is atomic.  A rejected profile leaves the whole state
    as it was; a profile that could not be persisted leaves the previous
    in-memory configuration; a saved profile reads back field by field as the
    active profile once it is confirmed. *)
Theorem save_profile_atomic p c
    (Hfree : forall k, k = MODE_KEY \/ starts_with PROFILE_PREFIX k = true -> overwrite_settings c !! k = None) :
  let '(r, c') := save_network_profile p c in
  match r with
  | Ok _ => validate_profile p = Ok () /\
            stored_options (store c') = config2_options (config2 (store c')) /\
            active_profile (mark_profile_confirmed c') = p
  | Err _ => config2 (store c') = config2 (store c) /\
             (is_ok (validate_profile p) = false -> c' = c)
  end.
Proof. exact (save_profile_facts p c Hfree). Qed.

(** C33: The client fails closed: without a confirmed profile, or without a live
    account authorization, there is no rendezvous server and no endpoint is
    resolved; a relay endpoint is never resolved at all. *)
Theorem unconfirmed_or_logged_out_fails_closed (auth_ready relay_flag : bool) c (endpoint : str) (port : Z)
    (Hdown : profile_confirmed c = false \/ auth_ready = false \/ relay_flag = true) :
  is_ok (resolve_configured_endpoint auth_ready endpoint port relay_flag c) = false /\
  (relay_flag = false -> rendezvous_servers auth_ready c = []).
Proof.
  unfold resolve_configured_endpoint, resolve_check, rendezvous_servers. destruct relay_flag; [by split|].
  destruct (remote_profile_ready auth_ready c) eqn:Hr; [|by split].
  apply ready_profile in Hr as (Ha & Hc & _). destruct_or!; congruence.
Qed.

(** A resolved endpoint is one of the DNS answers for the configured
    server, an IPv4 address that is no special address, under a valid confirmed
    self-hosted profile of a logged-in account. *)
Theorem resolved_endpoint_sound (auth_ready relay_flag : bool) c (endpoint : str) (port : Z) (a : SocketAddr)
    (Hres : resolve_configured_endpoint auth_ready endpoint port relay_flag c = Ok a) :
  relay_flag = false /\ auth_ready = true /\ profile_confirmed c = true /\ active_mode c = SelfHosted /\
  eq_ignore_ascii_case (check_port endpoint port) (check_port (server (active_profile c)) port) = true /\
  (exists answers, lookup_host (check_port endpoint port) = Ok answers /\ a ∈ answers) /\
  exists ip pt, a = V4 ip pt /\ is_valid_server (fmt_socket a) SelfHosted = true.
Proof.
  unfold resolve_configured_endpoint in Hres. destruct (resolve_check _ _ _ _ _) as [[candidate m]|] eqn:Hc; [|done].
  apply resolve_check_ok in Hc as (-> & Hr & -> & -> & Heq). apply ready_profile in Hr as (Ha & Hc & Hv).
  apply validate_profile_ok in Hv as (Hm & _). rewrite active_profile_mode in *.
  apply resolve_pick_ok in Hres as (answers & Hl & Hin & ip & pt & -> & Hv4). rewrite Hm in Hv4. eauto 12.
Qed.

(** The start-up migration never accepts a legacy configuration: the
    profile it builds is in LAN mode, which validation always refuses, so the
    old settings always end in the isolated lan_only group and the saving
    branch is dead. *)
Theorem legacy_profile_never_saved (stored : options_t) c
    (Hlegacy : default [] (stored !! PROFILE_SCHEMA_KEY) = [] /\ default [] (stored !! MODE_KEY) = [] /\ stored <> ∅) :
  is_ok (validate_profile (legacy_profile stored)) = false /\
  apply_migrate stored c = cfg_set_options (insert_all
    [(MODE_KEY, lit "lan_only"); (PROFILE_SCHEMA_KEY, lit "1");
     (profile_key LanOnly (lit "server"), server (legacy_profile stored));
     (profile_key LanOnly (lit "relay"), []);
     (profile_key LanOnly (lit "key"), key (legacy_profile stored));
     (profile_key LanOnly (lit "family-cidr"), family_cidr (legacy_profile stored));
     (profile_key LanOnly (lit "source-cidr"), [])] (cfg_get_options c)) c.
Proof.
  destruct Hlegacy as (Hs & Hm & Hne). rewrite validate_lan_only by done. split; [done|].
  unfold apply_migrate. rewrite Hs, Hm, (bool_decide_eq_false_2 (stored = ∅)) by done.
  rewrite !bool_decide_eq_true_2 by done. cbv zeta. rewrite validate_lan_only by done. reflexivity.
Qed.

Lemma enforced_lookup (m : options_t) :
  let o := insert_all enforced_entries m in
  o !! OPTION_RELAY_SERVER = Some [] /\ o !! OPTION_API_SERVER = Some [] /\
  o !! OPTION_ALLOW_INSECURE_TLS_FALLBACK = Some (lit "N") /\ o !! OPTION_ALLOW_AUTO_UPDATE = Some (lit "N") /\
  o !! lit "force-always-relay" = Some (lit "N") /\ o !! lit "allow-websocket" = Some (lit "N").
Proof.
  unfold enforced_entries, insert_all. simpl foldl.
  pose proof option_keys_distinct as Hd. pose proof option_keys_hidden as Hh.
  assert (Hfw : lit "force-always-relay" <> lit "allow-websocket") by (vm_compute; discriminate).
  rewrite !Forall_cons in Hh. rewrite ?not_elem_of_cons in Hh. nodup_facts Hd.
  generalize dependent (lit "force-always-relay"). generalize dependent (lit "allow-websocket").
  generalize dependent (lit "hide-help-cards"). generalize dependent (lit "hide-proxy-settings").
  generalize dependent (lit "hide-websocket-settings"). generalize dependent (lit "hide-remote-printer-settings").
  intros. destruct_and?.
  repeat split; repeat first [by rewrite lookup_insert_eq | rewrite lookup_insert_ne by congruence].
Qed.

(** After start-up the strict peer-to-peer policy is enforced whatever the
    stored configuration was: no relay server, no forced relay, no web socket,
    no insecure TLS, no API server. *)
Theorem apply_enforces_direct c :
  let o := overwrite_settings (apply c) in
  o !! OPTION_RELAY_SERVER = Some [] /\ o !! OPTION_API_SERVER = Some [] /\
  o !! OPTION_ALLOW_INSECURE_TLS_FALLBACK = Some (lit "N") /\ o !! OPTION_ALLOW_AUTO_UPDATE = Some (lit "N") /\
  o !! lit "force-always-relay" = Some (lit "N") /\ o !! lit "allow-websocket" = Some (lit "N").
Proof.
  unfold apply. cbv zeta. apply enforced_lookup.
Qed.

End Claims.

Import ExampleConfig.

Lemma imported_options_keep_boundary_witness :
  let evil := <[profile_key SelfHosted (lit "server") := lit "evil.example.com"]>
                (<[lit "relay-server" := lit "evil"]> ∅) in
  let r := sanitize_options evil config in
  let p := active_profile config in
  r !! MODE_KEY = Some (mode_as_str (active_mode config)) /\
  r !! OPTION_CUSTOM_RENDEZVOUS_SERVER = Some (server p) /\ r !! OPTION_KEY = Some (key p) /\
  r !! OPTION_WHITELIST = Some (ingress p) /\ r !! OPTION_RELAY_SERVER = Some [] /\
  (forall k, k ∈ [OPTION_API_SERVER; OPTION_ALLOW_AUTO_UPDATE; OPTION_ALLOW_INSECURE_TLS_FALLBACK;
                  lit "force-always-relay"; lit "allow-websocket"] -> r !! k = None) /\
  (forall k, starts_with PROFILE_PREFIX k = true -> k <> PROFILE_SCHEMA_KEY ->
     r !! k = (fun v => if ends_with (lit "-relay") k then [] else v) <$> cfg_get_options config !! k).
Proof. apply imported_options_keep_boundary. Defined.

Lemma save_profile_atomic_witness :
  let '(r, c') := save_network_profile profile config in
  match r with
  | Ok _ => validate_profile profile = Ok () /\
            stored_options (store c') = config2_options (config2 (store c')) /\
            active_profile (mark_profile_confirmed c') = profile
  | Err _ => config2 (store c') = config2 (store config) /\
             (is_ok (validate_profile profile) = false -> c' = config)
  end /\ r = Ok ().
Proof.
  pose proof (save_profile_atomic profile config) as H.
  destruct (save_network_profile profile config) as [r c'] eqn:E.
  split; [apply H; intros; reflexivity|].
  assert (Hr : (save_network_profile profile config).1 = Ok ()) by (vm_compute; reflexivity).
  rewrite E in Hr. exact Hr.
Defined.

Lemma unconfirmed_or_logged_out_fails_closed_witness :
  is_ok (resolve_configured_endpoint false (lit "hbbs.example.com") 21116 false config) = false /\
  (false = false -> rendezvous_servers false config = []).
Proof. apply unconfirmed_or_logged_out_fails_closed. right. left. reflexivity. Defined.

Lemma resolved_endpoint_sound_witness :
  let c := mark_profile_confirmed (save_network_profile profile config).2 in
  exists ip p, V4 (ipv4_new 203 0 113 9) 21116 = V4 ip p /\ is_valid_server (fmt_socket (V4 (ipv4_new 203 0 113 9) 21116)) SelfHosted = true.
Proof.
  refine (proj2 (proj2 (proj2 (proj2 (proj2 (proj2 (resolved_endpoint_sound true false
    (mark_profile_confirmed (save_network_profile profile config).2) (lit "HBBS.example.com") 21116
    (V4 (ipv4_new 203 0 113 9) 21116) _))))))).
  vm_compute. reflexivity.
Defined.

Lemma legacy_profile_never_saved_witness :
  is_ok (validate_profile (legacy_profile {[ lit "key" := lit "k" ]})) = false /\
  apply_migrate {[ lit "key" := lit "k" ]} config = cfg_set_options (insert_all
    [(MODE_KEY, lit "lan_only"); (PROFILE_SCHEMA_KEY, lit "1");
     (profile_key LanOnly (lit "server"), server (legacy_profile {[ lit "key" := lit "k" ]}));
     (profile_key LanOnly (lit "relay"), []);
     (profile_key LanOnly (lit "key"), key (legacy_profile {[ lit "key" := lit "k" ]}));
     (profile_key LanOnly (lit "family-cidr"), family_cidr (legacy_profile {[ lit "key" := lit "k" ]}));
     (profile_key LanOnly (lit "source-cidr"), [])] (cfg_get_options config)) config.
Proof.
  apply legacy_profile_never_saved. split; [|split]; [vm_compute; reflexivity.. |].
  apply (bool_decide_eq_false_1 _). vm_compute. reflexivity.
Defined.

Lemma apply_enforces_direct_witness :
  let o := overwrite_settings (apply config) in
  o !! OPTION_RELAY_SERVER = Some [] /\ o !! OPTION_API_SERVER = Some [] /\
  o !! OPTION_ALLOW_INSECURE_TLS_FALLBACK = Some (lit "N") /\ o !! OPTION_ALLOW_AUTO_UPDATE = Some (lit "N") /\
  o !! lit "force-always-relay" = Some (lit "N") /\ o !! lit "allow-websocket" = Some (lit "N").
Proof. apply apply_enforces_direct. Defined.

End HomedeskConfigClaims.
