(* ===== verification/NestlinkAuth.v ===== *)
(** * Account authorization: the shared state machine

    Models the state part of [client/src/nestlink_auth.rs]: the statics [AUTH],
    [REVISION], [EPOCH], [MONITORING], [WATCHING], [AUTH_UPDATES] and
    [AUTH_CHANGED], and every function that reads or changes them.  A lock
    region is one atomic step; an [await] is a point where the environment may
    replace the whole state (an argument of the definitions that await).
    Instants are nanoseconds.  HTTP and JSON are parameters. *)
From stdpp Require Import base gmap list strings.
From Stdlib Require Import ZArith Lia.
From S2P Require Import Prelude RustStr HomedeskNet HomedeskConfig.

#[local] Open Scope Z_scope.

(** ** Data *)

Record AuthRequest := MkRequest { origin : str; device_id : str; access_token : str }.
#[global] Instance AuthRequest_eq_dec : EqDecision AuthRequest.
Proof. solve_decision. Defined.

Record Trust := MkTrust { algorithm : str; public_key : str; realm : str }.
#[global] Instance Trust_eq_dec : EqDecision Trust.
Proof. solve_decision. Defined.

Record Presence := MkPresence {
  p_device_id : str; p_session_id : str; p_server : str; p_key : str; p_key_sha256 : str;
  p_family_cidr : str; p_source_cidr : str; permit_trust : Trust }.
#[global] Instance Presence_eq_dec : EqDecision Presence.
Proof. solve_decision. Defined.

Record ValidatedAuth := Validated {
  request_of : AuthRequest; presence : Presence; valid_until : Z; va_revision : Z; va_epoch : Z }.

(** [anyhow::Error]: the type it can be downcast to, and the texts of its chain. *)
Inductive ErrorKind :=
| AuthorizationHttpError (status : Z)
| ReqwestError (is_timeout is_decode : bool)
| SerdeJsonError
| OtherError.
Record error := MkError { e_kind : ErrorKind; e_chain : list str }.
Definition anyhow (msg : string) : error := MkError OtherError [lit msg].

Definition http_error (status : Z) : error :=
  MkError (AuthorizationHttpError status) [lit "账号或远控许可已失效（HTTP " ++ fmt_Z status ++ lit "）"].

(** ** Diagnostics *)

Definition str_contains (needle hay : str) : bool :=
  existsb (fun i => starts_with needle (drop i hay)) (seq 0 (S (length hay))).

Definition cause_code (message : str) : option str :=
  if str_contains (lit "Unknown TLS backend passed to `use_preconfigured_tls`") message
     || str_contains (lit "Unknown TLS backend passed to use_preconfigured_tls") message
  then Some (lit "NESTLINK_NATIVE_AUTH_V1:TLS_CONFIGURATION")
  else if str_contains (lit "rustls-platform-verifier not initialized") message
  then Some (lit "NESTLINK_NATIVE_AUTH_V1:PLATFORM_VERIFIER")
  else if str_contains (lit "invalid peer certificate") message || str_contains (lit "certificate verify failed") message
  then Some (lit "NESTLINK_NATIVE_AUTH_V1:CERTIFICATE_REJECTED")
  else if bool_decide (message ∈ [lit "自建服务登录信息无效"; lit "自建服务没有返回有效的设备授权"; lit "服务返回了超出限制的数据"])
  then Some (lit "NESTLINK_NATIVE_AUTH_V1:INVALID_RESPONSE")
  else if bool_decide (message ∈ [lit "请先登录自建服务"; lit "账号授权已被更新或退出"; lit "账号授权已结束"])
  then Some (lit "NESTLINK_NATIVE_AUTH_V1:AUTH_REQUIRED")
  else None.

Definition native_failure_code (e : error) : str :=
  let by_chain :=
    match head (omap cause_code (e_chain e)) with
    | Some code => code
    | None => match e_kind e with
              | ReqwestError _ _ => lit "NESTLINK_NATIVE_AUTH_V1:NETWORK"
              | _ => lit "NESTLINK_NATIVE_AUTH_V1:UNKNOWN"
              end
    end in
  match e_kind e with
  | AuthorizationHttpError s =>
    if s =? 401 then lit "NESTLINK_NATIVE_AUTH_V1:HTTP_401"
    else if s =? 403 then lit "NESTLINK_NATIVE_AUTH_V1:HTTP_403"
    else lit "NESTLINK_NATIVE_AUTH_V1:HTTP_OTHER"
  | ReqwestError true _ => lit "NESTLINK_NATIVE_AUTH_V1:TIMEOUT"
  | ReqwestError false true => lit "NESTLINK_NATIVE_AUTH_V1:INVALID_RESPONSE"
  | SerdeJsonError => lit "NESTLINK_NATIVE_AUTH_V1:INVALID_RESPONSE"
  | _ => by_chain
  end.

(** ** External services *)

Class AuthExternals := {
  json : Type;
  json_null : json;
  (** [serde_json::from_slice::<Value>] *)
  json_parse : list Z -> option json;
  (** [serde_json::from_value::<Presence>] *)
  presence_of_json : json -> option Presence;
  (** [uuid::Uuid::parse_str(_).is_ok()] *)
  uuid_ok : str -> bool;
  (** base64 [STANDARD] decoding followed by [sign::PublicKey::from_slice] *)
  std_decode : str -> option (list Z);
  pk_from_slice : list Z -> option (list Z);
}.

(** What [reqwest] hands back: a transport failure, or a response whose body
    arrives in chunks. *)
Record Response := MkResponse { status : Z; content_length : option Z; chunks : list (list Z) }.

Definition json_error : error := MkError SerdeJsonError [].

(** ** State *)

Record Auth (S : Type) := MkAuth {
  auth : option ValidatedAuth;
  revision : Z;
  epoch : Z;
  monitoring : bool;
  watching : bool;
  updates : Z;           (** value of the [AUTH_UPDATES] channel *)
  notified : nat;        (** calls of [AUTH_CHANGED.notify_waiters] *)
  restarts : nat;        (** calls of [RendezvousMediator::restart] *)
  browser_stops : nat;   (** calls of [nestlink_browser::stop] *)
  config : HomeConfig S;
}.
Arguments MkAuth {S} _ _ _ _ _ _ _ _ _ _.
Arguments auth {S} _.
Arguments revision {S} _.
Arguments epoch {S} _.
Arguments monitoring {S} _.
Arguments watching {S} _.
Arguments updates {S} _.
Arguments notified {S} _.
Arguments restarts {S} _.
Arguments browser_stops {S} _.
Arguments config {S} _.

(** [Duration::from_secs] *)
Definition secs (n : Z) : Z := n * 1000000000.

Section Machine.
Context {S : Type} `{!OptionKeys, !BuildEnv, !ConfigStore S, !Externals, !AuthExternals}.
Implicit Types (a : Auth S) (now : Z) (rev : Z).

(** ** Reading *)

Definition live_auth now a : option ValidatedAuth :=
  v ← auth a; if now <? valid_until v then Some v else None.

Definition ready now a : bool := bool_decide (is_Some (live_auth now a)).
Definition current_request now a : option AuthRequest := request_of <$> live_auth now a.
Definition snapshot now a : result error ValidatedAuth := ok_or (live_auth now a) (anyhow "请先登录自建服务").

(** ** Lock regions *)

Definition drop_auth a : Auth S :=
  MkAuth None (u64_add (revision a) 1) (u64_add (epoch a) 1) (monitoring a) (watching a) (updates a)
    (notified a) (restarts a) (browser_stops a) (config a).

(** [AUTH_CHANGED.notify_waiters(); AUTH_UPDATES.send_replace(REVISION); restart()] *)
Definition announce a : Auth S :=
  MkAuth (auth a) (revision a) (epoch a) (monitoring a) (watching a) (revision a)
    (Datatypes.S (notified a)) (Datatypes.S (restarts a)) (browser_stops a) (config a).

Definition stop_browser a : Auth S :=
  MkAuth (auth a) (revision a) (epoch a) (monitoring a) (watching a) (updates a)
    (notified a) (restarts a) (Datatypes.S (browser_stops a)) (config a).

Definition clear a : Auth S := announce (drop_auth (stop_browser a)).

Definition invalidate_revision rev (require_installed : bool) a : bool * Auth S :=
  if negb (revision a =? rev)
     || (require_installed && negb (bool_decide (va_revision <$> auth a = Some rev)))
  then (false, a) else (true, drop_auth a).

Definition clear_if_revision rev (require_installed : bool) a : Auth S :=
  let '(done, a') := invalidate_revision rev require_installed a in
  if done then announce a' else a'.

Definition clear_revision rev a : Auth S := clear_if_revision rev true a.

Definition set_auth (v : ValidatedAuth) (ep : Z) a : Auth S :=
  MkAuth (Some v) (revision a) ep (monitoring a) (watching a) (updates a)
    (notified a) (restarts a) (browser_stops a) (config a).

Definition scope_changed (req : AuthRequest) (p : Presence) a : bool :=
  match auth a with
  | None => true
  | Some old => negb (bool_decide (origin (request_of old) = origin req)) || negb (bool_decide (presence old = p))
  end.

Definition store_validated_auth now (req : AuthRequest) (p : Presence) rev a : bool * Auth S :=
  let changed := scope_changed req p a in
  let ep := if changed then u64_add (epoch a) 1 else epoch a in
  (changed, set_auth (Validated req p (now + secs 15) rev ep) ep a).

Definition renew_presence_revision now rev a : Auth S :=
  match auth a with
  | Some v =>
    if va_revision v =? rev
    then set_auth (Validated (request_of v) (presence v) (now + secs 15) (va_revision v) (va_epoch v)) (epoch a) a
    else a
  | None => a
  end.

(** ** HTTP (request) *)

(** The body, read chunk by chunk under the 64 KiB limit. *)
Fixpoint read_body (bytes : list Z) (cs : list (list Z)) : result error (list Z) :=
  match cs with
  | [] => Ok bytes
  | c :: r =>
    if 64 * 1024 <? Z.of_nat (length bytes) + Z.of_nat (length c) then Err (anyhow "服务返回了超出限制的数据")
    else read_body (bytes ++ c) r
  end.

(** [request] after [send().await] delivered [resp]. *)
Definition decode_response (resp : result error Response) : result error json :=
  r ← resp;
  if negb ((200 <=? status r) && (status r <? 300)) then Err (http_error (status r))
  else if status r =? 204 then Ok json_null
  else if match content_length r with Some n => 64 * 1024 <? n | None => false end
  then Err (anyhow "服务返回了超出限制的数据")
  else bytes ← read_body [] (chunks r); ok_or (json_parse bytes) json_error.

(** ** Logging in (install) *)

Definition valid_request (req : AuthRequest) : bool :=
  bool_decide (normalize_portal_origin (origin req) = Some (origin req))
  && uuid_ok (device_id req)
  && negb ((str_len (access_token req) <? 32) || (256 <? str_len (access_token req))).

(** Up to the request: validation, then the revision this attempt owns. *)
Definition install_begin (req : AuthRequest) a : result error Z * Auth S :=
  if negb (valid_request req) then (Err (anyhow "自建服务登录信息无效"), a)
  else
    let rev := u64_add (revision a) 1 in
    (Ok rev, MkAuth (auth a) rev (epoch a) (monitoring a) (watching a) (updates a)
               (notified a) (restarts a) (browser_stops a) (config a)).

Definition valid_presence (req : AuthRequest) (p : Presence) : bool :=
  bool_decide (p_device_id p = device_id req)
  && bool_decide (algorithm (permit_trust p) = lit "Ed25519")
  && uuid_ok (p_session_id p)
  && negb (bool_decide (realm (permit_trust p) = [])) && (str_len (realm (permit_trust p)) <=? 128)
  && bool_decide (is_Some (k ← std_decode (public_key (permit_trust p)); pk_from_slice k)).

Definition profile_of (p : Presence) : NetworkProfile :=
  Profile SelfHosted (p_server p) [] (p_key p) (p_family_cidr p) (p_source_cidr p).

Definition set_config (cfg : HomeConfig S) a : Auth S :=
  MkAuth (auth a) (revision a) (epoch a) (monitoring a) (watching a) (updates a)
    (notified a) (restarts a) (browser_stops a) cfg.

Inductive Commit :=
| Stale
| SaveFailed (e : string)
| Committed (changed : bool).

(** The region under [AUTH.write()]: a newer revision wins; the profile is saved
    and confirmed before the authorization becomes visible. *)
Definition install_commit now (req : AuthRequest) (p : Presence) rev a : Commit * Auth S :=
  if negb (rev =? revision a) then (Stale, a)
  else
    let '(saved, cfg) := save_network_profile (profile_of p) (config a) in
    match saved with
    | Err e => (SaveFailed e, set_config cfg a)
    | Ok _ =>
      let '(changed, a') := store_validated_auth now req p rev (set_config (mark_profile_confirmed cfg) a) in
      (Committed changed, a')
    end.

(** The end of [install]: publish the revision, announce a changed scope, start
    the monitor once. *)
Definition install_publish rev (changed : bool) a : Auth S :=
  MkAuth (auth a) (revision a) (epoch a) true (watching a) rev
    (if changed then Datatypes.S (notified a) else notified a)
    (if changed then Datatypes.S (restarts a) else restarts a) (browser_stops a) (config a).

(** From the answer of the presence request to the end.  [gap] is what other
    threads do between the commit region and what follows it. *)
Definition install_finish now (gap : Auth S -> Auth S) (req : AuthRequest) rev (answer : result error Presence) a
    : result error unit * Auth S :=
  match answer with
  | Err e => (Err e, clear_if_revision rev false a)
  | Ok p =>
    if negb (valid_presence req p) then
      (Err (anyhow "自建服务没有返回有效的设备授权"), clear_if_revision rev false a)
    else
      match install_commit now req p rev a with
      | (Stale, a') => (Err (anyhow "账号授权已被更新或退出"), a')
      | (SaveFailed e, a') => (Err (anyhow e), clear_if_revision rev false (gap a'))
      | (Committed changed, a') => (Ok (), install_publish rev changed (gap a'))
      end
  end.

Definition presence_answer (resp : result error json) : result error Presence :=
  v ← resp; ok_or (presence_of_json v) json_error.

(** A world: the statics and the clock, as an await returns them. *)
Abbreviation world := (Auth S * Z)%type.

(** [install] as a whole; [http] performs the presence request and returns the
    world in which its answer is processed. *)
Definition install (http : AuthRequest -> world -> result error json * world) (gap : Auth S -> Auth S)
    (req : AuthRequest) (w : world) : result error unit * world :=
  match install_begin req w.1 with
  | (Err e, a) => (Err e, (a, w.2))
  | (Ok rev, a) =>
    let '(resp, (a1, now1)) := http req (a, w.2) in
    let '(r, a2) := install_finish now1 gap req rev (presence_answer resp) a1 in
    (r, (a2, now1))
  end.

(** ** Requests under an authorization *)

(** [replacement_after_401]: the worlds at which the loop body runs, the first
    one being the current world; the end of the list is the timeout. *)
Fixpoint replacement_after_401 (v : ValidatedAuth) (worlds : list world) : result error (ValidatedAuth * world) :=
  match worlds with
  | [] => Err (anyhow "账号授权轮换确认超时")
  | (a, now) :: rest =>
    current ← snapshot now a;
    if negb (va_epoch current =? va_epoch v)
       || negb (bool_decide (origin (request_of current) = origin (request_of v)))
       || negb (bool_decide (device_id (request_of current) = device_id (request_of v)))
       || negb (bool_decide (presence current = presence v))
    then Err (anyhow "账号授权已结束")
    else if negb (va_revision current =? va_revision v) && (va_revision current =? revision a)
            && negb (bool_decide (access_token (request_of current) = access_token (request_of v)))
    then Ok (current, (a, now))
    else replacement_after_401 v rest
  end.

Definition still_authorized (v : ValidatedAuth) (w : world) : bool :=
  (va_epoch v =? epoch w.1) && ready w.2 w.1.

Definition settle_answer {A} (v : ValidatedAuth) (r : result error A) (w : world) : result error A :=
  match r with
  | Ok x => if still_authorized v w then Ok x else Err (anyhow "账号授权已结束")
  | Err e => Err e
  end.

(** [error.downcast_ref::<AuthorizationHttpError>().map(|value| value.0) == Some(401)] *)
Definition is_401 (e : error) : bool :=
  match e_kind e with AuthorizationHttpError s => s =? 401 | _ => false end.

(** [authorized_request_using], with the requests it sent.  [wait] lists the
    later worlds at which the update channel fires before the time-out. *)
Definition authorized_request_using {A} (v : ValidatedAuth)
    (send : AuthRequest -> world -> result error A * world) (wait : world -> list world) (w : world)
    : result error A * list AuthRequest * world :=
  let '(r1, w1) := send (request_of v) w in
  match r1 with
  | Ok _ => (settle_answer v r1 w1, [request_of v], w1)
  | Err e =>
    if negb (is_401 e) then (Err e, [request_of v], w1)
    else
      match replacement_after_401 v (w1 :: wait w1) with
      | Err _ => (Err e, [request_of v], w1)
      | Ok (current, w2) =>
        let '(r2, w3) := send (request_of current) w2 in
        (settle_answer current r2 w3, [request_of v; request_of current], w3)
      end
  end.

(** One tick of the monitor task: the presence request under a snapshot. *)
Definition monitor_tick (http : AuthRequest -> world -> result error json * world) (wait : world -> list world)
    (w : world) : world :=
  match snapshot w.2 w.1 with
  | Err _ => w
  | Ok v =>
    let '(r, _, (a, now)) := authorized_request_using v http wait w in
    match presence_answer r with
    | Ok p => if bool_decide (p = presence v) then (renew_presence_revision now (va_revision v) a, now)
              else (clear_revision (va_revision v) a, now)
    | Err _ => (clear_revision (va_revision v) a, now)
    end
  end.

(** ** The daemon's account (ensure_current, start_account_watch) *)

(** [ipc] is [crate::ipc::nestlink_auth_request().await]. *)
Definition ensure_current (ipc : world -> result error (option AuthRequest) * world)
    (http : AuthRequest -> world -> result error json * world) (gap : Auth S -> Auth S) (w : world)
    : result error unit * world :=
  if ready w.2 w.1 then (Ok (), w)
  else
    let '(r, w1) := ipc w in
    match r with
    | Err e => (Err e, w1)
    | Ok None => (Err (anyhow "请先登录自建服务"), w1)
    | Ok (Some req) =>
      let '(r, (a, now)) := install http gap req w1 in
      match r with
      | Err e => (Err e, (a, now))
      | Ok _ => (Ok (), (MkAuth (auth a) (revision a) (epoch a) (monitoring a) true (updates a)
                           (notified a) (restarts a) (browser_stops a) (config a), now))
      end
    end.

(** Messages on the watch connection. *)
Inductive WatchMessage :=
| WatchAuth (auth : option AuthRequest) (error : option str)
| WatchOther.

(** One round of the subscriber: handle messages until the connection ends or
    one of them is refused, then log out. *)
Fixpoint watch_messages (http : AuthRequest -> world -> result error json * world) (gap : Auth S -> Auth S)
    (msgs : list WatchMessage) (w : world) : result error unit * world :=
  match msgs with
  | [] => (Ok (), w)
  | m :: rest =>
    match m with
    | WatchAuth (Some req) (Some []) =>
      let '(r, w1) := install http gap req w in
      match r with Ok _ => watch_messages http gap rest w1 | Err e => (Err e, w1) end
    | WatchAuth None _ => watch_messages http gap rest (clear w.1, w.2)
    | _ => (Err (anyhow "后台账号授权通知无效"), w)
    end
  end.

Definition watch_round (http : AuthRequest -> world -> result error json * world) (gap : Auth S -> Auth S)
    (msgs : list WatchMessage) (w : world) : world :=
  let '(_, w1) := watch_messages http gap msgs w in (clear w1.1, w1.2).

(** ** Session guards *)

Record SessionGuard := Guard { sg_epoch : Z; permit_id : str; alive : bool }.

Definition guard_start (id : str) (ep : Z) : SessionGuard := Guard ep id true.

(** The condition on which [revoked] returns. *)
Definition revoked now (g : SessionGuard) a : bool :=
  negb (alive g) || negb (sg_epoch g =? epoch a) || negb (ready now a).

(** The heartbeat task over its ticks.  A tick brings the shared [alive] flag and
    the world at the loop head, the world after the timer, and the answer of the
    heartbeat request; the task ends with the guard dead. *)
Fixpoint heartbeat (beat : ValidatedAuth -> world -> result error unit * world) (ep : Z)
    (ticks : list (bool * world * world)) : option bool :=
  match ticks with
  | [] => None
  | (flag, w0, w1) :: rest =>
    if negb (flag && (ep =? epoch w0.1)) then Some false
    else match snapshot w1.2 w1.1 with
         | Err _ => Some false
         | Ok v => match (beat v w1).1 with Err _ => Some false | Ok _ => heartbeat beat ep rest end
         end
  end.

(** Dropping a guard: dead, and a DELETE for its permit if still logged in. *)
Definition guard_drop now (g : SessionGuard) a : SessionGuard * option (AuthRequest * str) :=
  (Guard (sg_epoch g) (permit_id g) false,
   match snapshot now a with
   | Ok v => Some (request_of v, lit "/api/v2/remote/permits/" ++ permit_id g)
   | Err _ => None
   end).

End Machine.

(** ** Interleavings

    Every lock region of the module as a transition, labelled with the instant
    at which it confirms a presence (if it does).  The asynchronous functions
    are sequences of these transitions interleaved with those of other tasks. *)

Section Steps.
Context {S : Type} `{!OptionKeys, !BuildEnv, !ConfigStore S, !Externals, !AuthExternals}.
Implicit Types (a : Auth S) (v : ValidatedAuth) (now rev : Z).

Inductive auth_step : option Z -> Auth S -> Auth S -> Prop :=
| step_begin req a : auth_step None a (install_begin req a).2
| step_clear a : auth_step None a (clear a)
| step_clear_if rev b a : auth_step None a (clear_if_revision rev b a)
| step_commit now req p rev a :
    valid_request req = true -> valid_presence req p = true ->
    auth_step (Some now) a (install_commit now req p rev a).2
| step_renew now rev a : auth_step (Some now) a (renew_presence_revision now rev a)
| step_publish rev b a : auth_step None a (install_publish rev b a)
| step_watch a :
    auth_step None a (MkAuth (auth a) (revision a) (epoch a) (monitoring a) true (updates a)
                        (notified a) (restarts a) (browser_stops a) (config a))
| step_config cfg a : auth_step None a (set_config cfg a).

(** A run: its labels in order. *)
Inductive run : list (option Z) -> Auth S -> Auth S -> Prop :=
| run_nil a : run [] a a
| run_cons l ls a a' a'' : auth_step l a a' -> run ls a' a'' -> run (l :: ls) a a''.

Lemma run_app ls ls' a a' a'' : run ls a a' -> run ls' a' a'' -> run (ls ++ ls') a a''.
Proof. induction 1; simpl; [done|]. intros; econstructor; eauto. Qed.

Lemma run_done a a' : a = a' -> run [] a a'.
Proof. intros ->. constructor. Qed.

(** A step whose result is known by another name. *)
Lemma run_step_to l ls a a1 a' a'' : auth_step l a a1 -> a1 = a' -> run ls a' a'' -> run (l :: ls) a a''.
Proof. intros Hs ->. by econstructor. Qed.

Lemma run_one l a a' : auth_step l a a' -> run [l] a a'.
Proof. intros; econstructor; [eauto|constructor]. Qed.

(** What holds in every reachable state. *)
Definition auth_inv a : Prop :=
  is_u 64 (revision a) /\ is_u 64 (epoch a) /\
  forall v, auth a = Some v ->
    va_epoch v = epoch a /\ va_revision v <= revision a /\
    valid_request (request_of v) = true /\ valid_presence (request_of v) (presence v) = true.

Definition init_auth (cfg : HomeConfig S) : Auth S := MkAuth None 1 1 false false 1 0 0 0 cfg.

Lemma init_inv cfg : auth_inv (init_auth cfg).
Proof. split; [|split]; [unfold is_u; simpl; lia..|]. intros v Hv. discriminate. Qed.

(** How far a step can move the counters, and what it means when the epoch
    stays: same scope, and an authorization that was there is still there. *)
Definition same_scope v v' : Prop :=
  origin (request_of v) = origin (request_of v') /\ presence v = presence v'.

Definition advances a a' : Prop :=
  revision a <= revision a' <= revision a + 1 /\ epoch a <= epoch a' <= epoch a + 1 /\
  (epoch a' = epoch a -> forall v, auth a = Some v -> exists v', auth a' = Some v' /\ same_scope v v').

Lemma u64_add_1 x : is_u 64 x -> x + 1 < 2 ^ 64 -> u64_add x 1 = x + 1.
Proof. unfold u64_add. intros. apply wrapu_small. unfold is_u in *. lia. Qed.

Definition room a : Prop := revision a + 1 < 2 ^ 64 /\ epoch a + 1 < 2 ^ 64.

Lemma advances_same a a' :
  auth a' = auth a -> revision a' = revision a -> epoch a' = epoch a -> advances a a'.
Proof.
  intros Ha Hr He. unfold advances. rewrite Hr, He, Ha. repeat split; try lia.
  intros _ v Hv. exists v. done.
Qed.

Lemma drop_advances a : auth_inv a -> room a -> advances a (drop_auth a).
Proof.
  intros (Hr & He & _) [Hr1 He1]. unfold advances; simpl.
  rewrite !u64_add_1 by (done || lia). repeat split; lia.
Qed.

Lemma store_advances now req p rev a :
  auth_inv a -> room a -> advances a (store_validated_auth now req p rev a).2.
Proof.
  intros (Hr & He & Hv) [Hr1 He1]. unfold advances, store_validated_auth, scope_changed; simpl.
  destruct (auth a) as [old|] eqn:Ho.
  - destruct (bool_decide_reflect (origin (request_of old) = origin req)) as [Ho1|];
      destruct (bool_decide_reflect (presence old = p)) as [Ho2|]; simpl;
      try (rewrite u64_add_1 by (done || lia); repeat split; lia).
    repeat split; try lia. intros _ v [= <-]. eexists. split; [done|]. done.
  - simpl. rewrite u64_add_1 by (done || lia). repeat split; lia.
Qed.

Lemma clear_if_cases rev b a :
  clear_if_revision rev b a = a \/
  (clear_if_revision rev b a = announce (drop_auth a) /\ revision a = rev).
Proof.
  unfold clear_if_revision, invalidate_revision.
  destruct (Z.eqb_spec (revision a) rev); simpl; [|by left].
  destruct (b && _); simpl; [by left|by right].
Qed.

Lemma commit_cases now req p rev a :
  (exists cfg, (install_commit now req p rev a).2 = set_config cfg a) \/
  (revision a = rev /\ exists cfg, (install_commit now req p rev a).2 = (store_validated_auth now req p rev (set_config cfg a)).2).
Proof.
  unfold install_commit. destruct (Z.eqb_spec rev (revision a)) as [->|]; simpl.
  - destruct (save_network_profile (profile_of p) (config a)) as [[[]|e] cfg]; simpl.
    + right. split; [done|]. by eexists.
    + left. by eexists.
  - left. exists (config a). by destruct a.
Qed.

Lemma renew_cases now rev a :
  renew_presence_revision now rev a = a \/
  exists v, auth a = Some v /\ renew_presence_revision now rev a =
    set_auth (Validated (request_of v) (presence v) (now + secs 15) (va_revision v) (va_epoch v)) (epoch a) a.
Proof.
  unfold renew_presence_revision. destruct (auth a) as [v|]; [|by left].
  destruct (va_revision v =? rev); [|by left]. right. eauto.
Qed.

Lemma step_advances l a a' : auth_inv a -> room a -> auth_step l a a' -> advances a a'.
Proof.
  intros Hi Hroom Hs. pose proof Hi as (Hr & He & Hv). destruct Hs as
    [req a|a|rev b a|now req p rev a Hq Hp|now rev a|rev b a|a|cfg a]; try by apply advances_same.
  - unfold install_begin. destruct (negb _); simpl; [by apply advances_same|].
    destruct Hroom. unfold advances; simpl. rewrite u64_add_1 by done.
    repeat split; try lia. intros _ v ?. by exists v.
  - apply (drop_advances a Hi Hroom).
  - destruct (clear_if_cases rev b a) as [->|[-> _]]; [by apply advances_same|]. apply (drop_advances a Hi Hroom).
  - destruct (commit_cases now req p rev a) as [[cfg ->]|[_ [cfg ->]]]; [by apply advances_same|].
    apply (store_advances now req p rev (set_config cfg a) Hi Hroom).
  - destruct (renew_cases now rev a) as [->|[v [Ha ->]]]; [by apply advances_same|].
    unfold advances; simpl. repeat split; try lia. rewrite Ha. intros _ v' [= <-]. eexists. done.
Qed.

Lemma inv_no_auth a : is_u 64 (revision a) -> is_u 64 (epoch a) -> auth a = None -> auth_inv a.
Proof. intros ? ? Hn. split; [done|split; [done|]]. rewrite Hn. congruence. Qed.

Lemma u64_add_u x y : is_u 64 (u64_add x y).
Proof. unfold is_u, u64_add, wrapu. apply Z.mod_pos_bound. lia. Qed.

Lemma step_inv l a a' : auth_inv a -> room a -> auth_step l a a' -> auth_inv a'.
Proof.
  intros Hi Hroom Hs. pose proof Hi as (Hr & He & Hv). pose proof Hroom as [Hr1 He1].
  destruct Hs as [req a|a|rev b a|now req p rev a Hq Hp|now rev a|rev b a|a|cfg a]; try exact Hi.
  - unfold install_begin. destruct (negb _); simpl; [exact Hi|].
    split; [apply u64_add_u|split; [done|]]. simpl. intros v Ha. destruct (Hv v Ha) as (? & ? & ?).
    rewrite u64_add_1 by done. split; [done|split; [lia|done]].
  - apply inv_no_auth; simpl; auto using u64_add_u.
  - destruct (clear_if_cases rev b a) as [->|[-> _]]; [done|]. apply inv_no_auth; simpl; auto using u64_add_u.
  - destruct (commit_cases now req p rev a) as [[cfg ->]|[<- [cfg ->]]]; [exact Hi|].
    unfold store_validated_auth; simpl. split; [done|]. simpl.
    split; [destruct (scope_changed _ _ _); auto using u64_add_u|].
    intros v [= <-]; simpl. repeat split; (done || lia).
  - destruct (renew_cases now rev a) as [->|[v [Ha ->]]]; [done|].
    split; [done|split; [done|]]. simpl. intros v' [= <-]; simpl. by apply Hv.
Qed.

(** Runs that fit in 64 bits. *)
Definition fits (ls : list (option Z)) a : Prop :=
  revision a + Z.of_nat (length ls) < 2 ^ 64 /\ epoch a + Z.of_nat (length ls) < 2 ^ 64.

Lemma fits_step l ls a a' : auth_inv a -> fits (l :: ls) a -> auth_step l a a' ->
  room a /\ advances a a' /\ auth_inv a' /\ fits ls a'.
Proof.
  unfold fits, room. simpl length. intros Hi [Hf1 Hf2] Hs.
  assert (Hroom : room a) by (unfold room; lia).
  pose proof (step_advances _ _ _ Hi Hroom Hs) as Hadv. pose proof Hadv as (Hr & He & _).
  split; [unfold room in Hroom; lia|]. split; [done|]. split; [by eapply step_inv|]. lia.
Qed.

Lemma run_inv ls a a' : run ls a a' -> auth_inv a -> fits ls a -> auth_inv a'.
Proof.
  induction 1 as [|l ls a a1 a2 Hs Hrun IH]; [done|]. intros Hi Hf.
  destruct (fits_step _ _ _ _ Hi Hf Hs) as (_ & _ & Hi1 & Hf1). auto.
Qed.

Lemma run_monotone ls a a' : run ls a a' -> auth_inv a -> fits ls a ->
  revision a <= revision a' /\ epoch a <= epoch a'.
Proof.
  induction 1 as [|l ls a a1 a2 Hs Hrun IH]; [lia|]. intros Hi Hf.
  destruct (fits_step _ _ _ _ Hi Hf Hs) as (_ & (Hr & He & _) & Hi1 & Hf1).
  specialize (IH Hi1 Hf1). lia.
Qed.

Lemma run_same_epoch ls a a' v : run ls a a' -> auth_inv a -> fits ls a ->
  epoch a' = epoch a -> auth a = Some v -> exists v', auth a' = Some v' /\ same_scope v v'.
Proof.
  intros Hrun. revert v. induction Hrun as [a|l ls a a1 a2 Hs Hrun IH]; intros v Hi Hf Hep Ha.
  - by exists v.
  - destruct (fits_step _ _ _ _ Hi Hf Hs) as (_ & (_ & He & Hsc) & Hi1 & Hf1).
    destruct (run_monotone _ _ _ Hrun Hi1 Hf1) as [_ He2].
    destruct (Hsc ltac:(lia) v Ha) as (v1 & Ha1 & Hs1).
    destruct (IH v1 Hi1 Hf1 ltac:(lia) Ha1) as (v2 & Ha2 & Hs2).
    exists v2. split; [done|]. destruct Hs1, Hs2. split; congruence.
Qed.

(** The lease: an authorization that is live was confirmed under 15 s ago. *)
Lemma run_lease ls a a' v : run ls a a' -> auth a' = Some v ->
  auth a = Some v \/ exists t, Some t ∈ ls /\ valid_until v = t + secs 15.
Proof.
  induction 1 as [a|l ls a a1 a2 Hs Hrun IH]; [by left|]. intros Ha2.
  destruct (IH Ha2) as [Ha1|(t & Ht & Hu)]; [|right; exists t; split; [by right|done]].
  destruct Hs as [req a|a|rev b a|now req p rev a Hq Hp|now rev a|rev b a|a|cfg a]; try by left.
  - left. revert Ha1. unfold install_begin. by destruct (negb _).
  - destruct (clear_if_cases rev b a) as [Hc|[Hc _]]; rewrite Hc in Ha1; [by left|done].
  - destruct (commit_cases now req p rev a) as [[cfg Hc]|[_ [cfg Hc]]]; rewrite Hc in Ha1; [by left|].
    right. exists now. split; [left|]. simpl in Ha1. by injection Ha1 as <-.
  - destruct (renew_cases now rev a) as [Hc|[v0 [Ha Hc]]]; rewrite Hc in Ha1; [by left|].
    right. exists now. split; [left|]. simpl in Ha1. by injection Ha1 as <-.
Qed.

End Steps.

(** ** The tasks as runs *)

Section Tasks.
Context {S : Type} `{!OptionKeys, !BuildEnv, !ConfigStore S, !Externals, !AuthExternals}.
Implicit Types (a : Auth S) (now rev : Z).

(** Other tasks only act through the lock regions. *)
Definition respects {A} (f : Auth S * Z -> A * (Auth S * Z)) : Prop :=
  forall w, exists ls, run ls w.1 (f w).2.1.
Definition gap_respects (gap : Auth S -> Auth S) : Prop := forall a, exists ls, run ls a (gap a).

Lemma some_run_trans a b c :
  (exists ls, run ls a b) -> (exists ls, run ls b c) -> exists ls, run ls a c.
Proof. intros [ls1 Hr1] [ls2 Hr2]. exists (ls1 ++ ls2). by eapply run_app. Qed.

Lemma some_run_step l a b : auth_step l a b -> exists ls, run ls a b.
Proof. intros Hs. exists [l]. by apply run_one. Qed.

Lemma some_run_refl a : exists ls, run ls a a.
Proof. exists []. constructor. Qed.

Lemma install_finish_run now gap req rev answer a :
  gap_respects gap -> valid_request req = true ->
  exists ls, run ls a (install_finish now gap req rev answer a).2.
Proof.
  intros Hg Hq. unfold install_finish. destruct answer as [p|e]; simpl; [|eapply some_run_step; constructor].
  destruct (valid_presence req p) eqn:Hp; simpl; [|eapply some_run_step; constructor].
  pose proof (some_run_step _ _ _ (step_commit now req p rev a Hq Hp)) as Hc.
  destruct (install_commit now req p rev a) as [[|e|ch] a'] eqn:E; simpl in *; [done| |];
    (eapply some_run_trans; [exact Hc|eapply some_run_trans; [apply Hg|eapply some_run_step; constructor]]).
Qed.

Lemma install_run http gap req w :
  (forall r, respects (http r)) -> gap_respects gap ->
  exists ls, run ls w.1 (install http gap req w).2.1.
Proof.
  intros Hh Hg. unfold install. destruct (install_begin req w.1) as [[rev|e] a] eqn:Hb; simpl.
  - assert (Hq : valid_request req = true).
    { unfold install_begin in Hb. by destruct (valid_request req). }
    pose proof (some_run_step _ _ _ (step_begin req w.1)) as Hr1. rewrite Hb in Hr1; simpl in Hr1.
    pose proof (Hh req (a, w.2)) as Hr2.
    destruct (http req (a, w.2)) as [resp [a1 now1]]; simpl in Hr2.
    pose proof (install_finish_run now1 gap req rev (presence_answer resp) a1 Hg Hq) as Hr3.
    destruct (install_finish _ _ _ _ _ _) as [r a2]; simpl in *.
    eauto using some_run_trans.
  - unfold install_begin in Hb. destruct (negb _); [|done]. injection Hb as _ <-. apply some_run_refl.
Qed.

Lemma replacement_world v (worlds : list (Auth S * Z)) cur w :
  replacement_after_401 v worlds = Ok (cur, w) -> w ∈ worlds.
Proof.
  induction worlds as [|[a now] rest IH]; simpl; [done|]. intros Hrep.
  destruct (snapshot now a) as [c|]; simpl in Hrep; [|done].
  destruct (_ || _); [done|]. destruct (_ && _).
  - injection Hrep as <- <-. left.
  - right. auto.
Qed.

Lemma authorized_run {A} v (send : AuthRequest -> Auth S * Z -> result error A * (Auth S * Z)) wait w :
  (forall r, respects (send r)) ->
  (forall w w', w' ∈ wait w -> exists ls, run ls w.1 w'.1) ->
  exists ls, run ls w.1 (authorized_request_using v send wait w).2.1.
Proof.
  intros Hs Hw. unfold authorized_request_using.
  pose proof (Hs (request_of v) w) as Hr1. destruct (send (request_of v) w) as [[x|e] w1]; simpl in Hr1; [done|].
  destruct (negb (is_401 e)); [done|].
  destruct (replacement_after_401 v (w1 :: wait w1)) as [[cur w2]|] eqn:E; [|done].
  pose proof (Hs (request_of cur) w2) as Hr2. destruct (send (request_of cur) w2) as [r2 w3]; simpl in Hr2.
  apply replacement_world in E. eapply some_run_trans; [exact Hr1|]. eapply some_run_trans; [|exact Hr2].
  apply elem_of_cons in E as [->|E]; [apply some_run_refl|by apply Hw].
Qed.

Lemma monitor_run http wait w :
  (forall r, respects (http r)) ->
  (forall w w', w' ∈ wait w -> exists ls, run ls w.1 w'.1) ->
  exists ls, run ls w.1 (monitor_tick http wait w).1.
Proof.
  intros Hh Hw. unfold monitor_tick. destruct (snapshot w.2 w.1) as [v|]; [|apply some_run_refl].
  pose proof (authorized_run v http wait w Hh Hw) as Hr1.
  destruct (authorized_request_using v http wait w) as [[r rs] [a now]]; simpl in Hr1.
  eapply some_run_trans; [exact Hr1|].
  destruct (presence_answer r) as [p|e]; [case_bool_decide|]; simpl; eapply some_run_step; unfold clear_revision; constructor.
Qed.

Lemma watch_messages_run http gap msgs w :
  (forall r, respects (http r)) -> gap_respects gap ->
  exists ls, run ls w.1 (watch_messages http gap msgs w).2.1.
Proof.
  intros Hh Hg. revert w. induction msgs as [|m rest IH]; intros w; simpl; [apply some_run_refl|].
  destruct m as [[req|] [[|c e]|]|]; simpl; try apply some_run_refl;
    try (eapply some_run_trans; [|apply IH]; eapply some_run_step; constructor).
  pose proof (install_run http gap req w Hh Hg) as Hr1.
  destruct (install http gap req w) as [[[]|e] w1]; simpl in *; [|done].
  eapply some_run_trans; [exact Hr1|apply IH].
Qed.

End Tasks.

(** ** Concrete parameters, for the witnesses *)
Module ExampleAuth.
Import ExampleConfig.

Definition device : str := lit "3f0c1a52-7d0b-4f1e-9a55-0d7f5a1c2b3d".
Definition session : str := lit "9b1c1a52-7d0b-4f1e-9a55-0d7f5a1c2b3d".
Definition trust : Trust := MkTrust (lit "Ed25519") (lit "0123456789abcdef0123456789abcdef") (lit "home").
Definition example_presence : Presence :=
  MkPresence device session (lit "hbbs.example.com") (lit "k") (lit "00") (lit "192.168.50.0/24") [] trust.

(** JSON documents are the texts themselves; one text encodes the presence. *)
#[global] Instance auth_externals : AuthExternals := {|
  json := list Z;
  json_null := [];
  json_parse b := Some b;
  presence_of_json j := if bool_decide (j = [1]) then Some example_presence else None;
  uuid_ok s := str_len s =? 36;
  std_decode s := Some s;
  pk_from_slice b := if Z.of_nat (length b) =? 32 then Some b else None |}.

Definition token1 : str := lit "aaaaaaaaaaaaaaaaaaaaaaaaaaaaaaaa".
Definition token2 : str := lit "bbbbbbbbbbbbbbbbbbbbbbbbbbbbbbbb".
Definition request1 : AuthRequest := MkRequest (lit "https://home.example.com") device token1.
Definition request2 : AuthRequest := MkRequest (lit "https://home.example.com") device token2.

Definition start : Auth SimpleStore := init_auth ExampleConfig.config.
Definition http_ok (_ : AuthRequest) (w : Auth SimpleStore * Z) : result error json * (Auth SimpleStore * Z) :=
  (Ok ([1] : json), w).
(** The state after that login, evaluated. *)
Definition logged_in : Auth SimpleStore := Eval vm_compute in (install http_ok id request1 (start, 0)).2.1.

Definition validated1 : ValidatedAuth := Validated request1 example_presence (secs 15) 2 2.

Lemma logged_in_auth : auth logged_in = Some validated1.
Proof. vm_compute. reflexivity. Qed.

Lemma logged_in_inv : auth_inv logged_in.
Proof.
  split; [vm_compute; split; congruence|]. split; [vm_compute; split; congruence|].
  rewrite logged_in_auth. intros v [= <-]. vm_compute. repeat split; congruence.
Qed.

Lemma logged_in_fits (ls : list (option Z)) : Z.of_nat (length ls) < 2 ^ 32 -> fits ls logged_in.
Proof.
  unfold fits. replace (revision logged_in) with 2 by (vm_compute; reflexivity).
  replace (epoch logged_in) with 2 by (vm_compute; reflexivity). lia.
Qed.

End ExampleAuth.

(** ** Properties *)
Module NestlinkAuthClaims.

Section Claims.
Context {S : Type} `{!OptionKeys, !OptionKeysLaws, !BuildEnv, !ConfigStore S, !ConfigLaws S, !Externals, !AuthExternals}.
Implicit Types (a : Auth S) (v : ValidatedAuth) (g : SessionGuard) (now rev : Z).

Lemma not_revoked now g a : revoked now g a = false ->
  alive g = true /\ sg_epoch g = epoch a /\ exists v, auth a = Some v /\ now < valid_until v.
Proof.
  unfold revoked, ready, live_auth. intros Hrev. bools. split; [done|split; [done|]].
  destruct (auth a) as [v|]; simpl in *; [|match goal with H : is_Some None |- _ => by destruct H end].
  exists v. split; [done|]. destruct (Z.ltb_spec now (valid_until v)); [done|].
  match goal with H : is_Some None |- _ => by destruct H end.
Qed.

(** As long as a session is not revoked, whatever logins, logouts, token
    rotations, renewals and expiries happened since it started, the account it
    was opened under is still the one installed: same portal origin, same
    device, session, server, key and trust anchor, inside its lease. *)
Theorem live_session_keeps_scope (ls : list (option Z)) a a' v now (id : str)
    (Hinv : auth_inv a) (Hauth : auth a = Some v) (Hfits : fits ls a) (Hrun : run ls a a')
    (Hlive : revoked now (guard_start id (va_epoch v)) a' = false) :
  exists v', auth a' = Some v' /\ origin (request_of v') = origin (request_of v) /\
    presence v' = presence v /\ now < valid_until v'.
Proof.
  destruct (not_revoked _ _ _ Hlive) as (_ & Hep & v' & Ha' & Hnow). simpl in Hep.
  pose proof Hinv as (_ & _ & Hi). destruct (Hi v Hauth) as [Hve _].
  destruct (run_same_epoch ls a a' v Hrun Hinv Hfits ltac:(congruence) Hauth) as (v2 & Ha2 & [Ho Hp]).
  exists v'. rewrite Ha' in Ha2. injection Ha2 as <-. done.
Qed.

(** C2: Revocation is permanent: once the authorization a session started under
    has been dropped, or replaced by one of another scope, the session reads as
    revoked in every later state, also when the same account logs in again. *)
Theorem revocation_is_permanent (ls ls' : list (option Z)) a a1 a2 v now (id : str)
    (Hinv : auth_inv a) (Hauth : auth a = Some v) (Hfits : fits (ls ++ ls') a)
    (Hrun : run ls a a1) (Hrun' : run ls' a1 a2)
    (Hlost : auth a1 = None \/ exists v1, auth a1 = Some v1 /\
       (origin (request_of v1) <> origin (request_of v) \/ presence v1 <> presence v)) :
  revoked now (guard_start id (va_epoch v)) a2 = true.
Proof.
  apply not_false_iff_true. intros Hrev. destruct (not_revoked _ _ _ Hrev) as (_ & Hep & v2 & Ha2 & _). simpl in Hep.
  pose proof Hinv as (_ & _ & Hi). destruct (Hi v Hauth) as [Hve _].
  assert (Hf1 : fits ls a) by (unfold fits in *; rewrite length_app in Hfits; lia).
  assert (Hf2 : fits ls' a1).
  { pose proof (run_app _ _ _ _ _ Hrun Hrun') as Hall.
    clear - Hrun Hinv Hfits. induction Hrun as [|l ls a a1 a2 Hs Hrun IH]; [done|].
    simpl in Hfits. destruct (fits_step _ _ _ _ Hinv Hfits Hs) as (_ & _ & ? & ?). auto. }
  pose proof (run_inv _ _ _ Hrun Hinv Hf1) as Hinv1.
  destruct (run_monotone _ _ _ Hrun Hinv Hf1) as [_ Hm1]. destruct (run_monotone _ _ _ Hrun' Hinv1 Hf2) as [_ Hm2].
  destruct (run_same_epoch ls a a1 v Hrun Hinv Hf1 ltac:(lia) Hauth) as (v1 & Ha1 & [Ho Hp]).
  destruct Hlost as [Hn|(v1' & Ha1' & [Hd|Hd])]; congruence.
Qed.

(** C1: The newest login attempt wins: once a later attempt has started, an older
    one can neither install its authorization nor log the newer one out,
    however late its answer arrives. *)
Theorem newest_login_wins (req r : AuthRequest) (p : Presence) (ls : list (option Z)) a a1 a' rev2 rev now (b : bool)
    (Hinv : auth_inv a) (Hbegin : install_begin req a = (Ok rev2, a1)) (Hold : rev <= revision a)
    (Hfits : fits (None :: ls) a) (Hrun : run ls a1 a') :
  install_commit now r p rev a' = (Stale, a') /\ clear_if_revision rev b a' = a'.
Proof.
  assert (Hs : auth_step None a a1).
  { replace a1 with (install_begin req a).2 by (by rewrite Hbegin). constructor. }
  destruct (fits_step _ _ _ _ Hinv Hfits Hs) as ([Hr1 _] & _ & Hinv1 & Hf1).
  destruct (run_monotone _ _ _ Hrun Hinv1 Hf1) as [Hm _].
  assert (Hrev : revision a1 = revision a + 1).
  { unfold install_begin in Hbegin. destruct (negb _); [done|]. injection Hbegin as <- <-. simpl.
    apply u64_add_1; [apply Hinv|done]. }
  split.
  - unfold install_commit. destruct (Z.eqb_spec rev (revision a')); [lia|done].
  - destruct (clear_if_cases rev b a') as [->|[_ ?]]; [done|lia].
Qed.

(** The lease: starting from a fresh process, whatever happens, the client is
    ready only within 15 seconds of an instant at which the server's presence
    answer was confirmed. *)
Theorem ready_needs_recent_confirmation (cfg : HomeConfig S) (ls : list (option Z)) a' now
    (Hrun : run ls (init_auth cfg) a') (Hready : ready now a' = true) :
  exists t, Some t ∈ ls /\ now < t + secs 15.
Proof.
  unfold ready, live_auth in Hready. bools. destruct (auth a') as [v|] eqn:Ha; simpl in *; [|by destruct Hready].
  destruct (Z.ltb_spec now (valid_until v)); [|by destruct Hready].
  destruct (run_lease _ _ _ _ Hrun Ha) as [?|(t & Ht & Hu)]; [done|].
  exists t. split; [done|]. by rewrite <- Hu.
Qed.

Lemma replacement_sound v (worlds : list (Auth S * Z)) cur w :
  replacement_after_401 v worlds = Ok (cur, w) ->
  auth w.1 = Some cur /\ w.2 < valid_until cur /\ va_epoch cur = va_epoch v /\ same_scope v cur /\
  device_id (request_of cur) = device_id (request_of v) /\
  va_revision cur = revision w.1 /\ va_revision cur <> va_revision v /\
  access_token (request_of cur) <> access_token (request_of v).
Proof.
  induction worlds as [|[a now] rest IH]; simpl; [done|]. intros Hrep.
  unfold snapshot, live_auth in Hrep. destruct (auth a) as [c|] eqn:Ha; simpl in Hrep; [|done].
  destruct (Z.ltb_spec now (valid_until c)); simpl in Hrep; [|done].
  destruct (_ || _) eqn:E1 in Hrep; [done|]. destruct (_ && _) eqn:E2 in Hrep; [|auto].
  injection Hrep as <- <-. bools. unfold same_scope. simpl. repeat split; (done || congruence).
Qed.

(** A request under an authorization is sent at most twice; a second time only
    after the server answered 401 and a server-validated replacement with
    another token was installed in the same scope; its value is returned only
    if the authorization epoch did not move and the lease is live at the end. *)
Theorem authorized_request_discipline {A} v (send : AuthRequest -> Auth S * Z -> result error A * (Auth S * Z))
    (wait : Auth S * Z -> list (Auth S * Z)) (w : Auth S * Z) :
  let '(r, sent, w') := authorized_request_using v send wait w in
  (forall x, r = Ok x -> va_epoch v = epoch w'.1 /\ ready w'.2 w'.1 = true) /\
  (sent = [request_of v] \/
   exists cur e, sent = [request_of v; request_of cur] /\ (send (request_of v) w).1 = Err e /\
     e_kind e = AuthorizationHttpError 401 /\ same_scope v cur /\
     device_id (request_of cur) = device_id (request_of v) /\ va_epoch cur = va_epoch v /\
     access_token (request_of cur) <> access_token (request_of v)).
Proof.
  unfold authorized_request_using.
  assert (Hsettle : forall v' (r : result error A) (w' : Auth S * Z) x, settle_answer v' r w' = Ok x ->
    va_epoch v' = epoch w'.1 /\ ready w'.2 w'.1 = true).
  { intros v' [y|e] w' x; simpl; [|done]. unfold still_authorized. destruct (_ && _) eqn:E; [|done]. by bools. }
  destruct (send (request_of v) w) as [[x|e] w1].
  - split; [apply (Hsettle v (Ok x) w1)|by left].
  - unfold is_401. destruct (e_kind e) as [s| | |] eqn:Ek; try (split; [done|by left]).
    destruct (Z.eqb_spec s 401) as [->|]; simpl negb; [|split; [done|by left]].
    destruct (replacement_after_401 v (w1 :: wait w1)) as [[cur w2]|] eqn:Erep; [|split; [done|by left]].
    destruct (replacement_sound _ _ _ _ Erep) as (_ & _ & Hep & Hsc & Hdev & _ & _ & Htok).
    destruct (send (request_of cur) w2) as [r2 w3]. split.
    + intros x Hx. rewrite <- Hep. by apply (Hsettle cur r2 w3 x).
    + right. exists cur, e. done.
Qed.

Definition profile_keys_free (cfg : HomeConfig S) : Prop :=
  forall k, k = MODE_KEY \/ starts_with PROFILE_PREFIX k = true -> overwrite_settings cfg !! k = None.

(** Logging in is all or nothing: a successful login has installed exactly the
    presence the server returned for this request, validated, under the current
    epoch and revision, for 15 seconds, with its network profile active and
    confirmed; a failed one leaves the authorization that was there or none. *)
Theorem install_all_or_nothing (http : AuthRequest -> Auth S * Z -> result error json * (Auth S * Z))
    (req : AuthRequest) (w : Auth S * Z)
    (Hfree : profile_keys_free (config (http req ((install_begin req w.1).2, w.2)).2.1)) :
  let '(resp, w1) := http req ((install_begin req w.1).2, w.2) in
  let '(r, w2) := install http id req w in
  match r with
  | Ok _ => exists p, valid_request req = true /\ valid_presence req p = true /\ presence_answer resp = Ok p /\
      auth w2.1 = Some (Validated req p (w2.2 + secs 15) (revision w2.1) (epoch w2.1)) /\
      active_profile (config w2.1) = profile_of p /\ ready w2.2 w2.1 = true /\
      updates w2.1 = revision w2.1 /\ monitoring w2.1 = true
  | Err _ => if valid_request req then auth w2.1 = None \/ auth w2.1 = auth w1.1 else w2 = w
  end.
Proof.
  unfold install, install_begin. destruct (valid_request req) eqn:Hq; simpl; [|clear Hfree; destruct w; simpl; by destruct (http _ _)].
  unfold install_begin in Hfree. rewrite Hq in Hfree. simpl in Hfree.
  set (w0 := (_, w.2)) in *. destruct (http req w0) as [resp [a1 now1]]; simpl in Hfree |- *.
  set (rev := u64_add (revision w.1) 1).
  unfold install_finish. destruct (presence_answer resp) as [p|e] eqn:Ep.
  2:{ destruct (clear_if_cases rev false a1) as [->|[-> _]]; [by right|by left]. }
  destruct (valid_presence req p) eqn:Hp; simpl.
  2:{ destruct (clear_if_cases rev false a1) as [->|[-> _]]; [by right|by left]. }
  unfold install_commit. destruct (Z.eqb_spec rev (revision a1)) as [Hrev|]; simpl; [|by right].
  pose proof (HomedeskConfigClaims.save_profile_facts (profile_of p) (config a1) Hfree) as Hsave.
  destruct (save_network_profile (profile_of p) (config a1)) as [[[]|e] cfg]; simpl.
  - exists p. repeat (split; [done|]). rewrite <- Hrev. split; [done|]. split; [apply Hsave|].
    split; [|done]. unfold ready, live_auth; simpl.
    destruct (Z.ltb_spec now1 (now1 + secs 15)) as [|Hn]; [done|]. unfold secs in Hn. lia.
  - destruct (clear_if_cases rev false (set_config cfg a1)) as [->|[-> _]]; [by right|by left].
Qed.

(** Every account task (login, presence monitor, account subscription) is a
    sequence of the module's lock regions, interleaved with those of other
    tasks: the step relation above covers all of their behaviours. *)
Theorem account_tasks_refine_steps
    (http : AuthRequest -> Auth S * Z -> result error json * (Auth S * Z)) (gap : Auth S -> Auth S)
    (wait : Auth S * Z -> list (Auth S * Z)) (req : AuthRequest) (msgs : list WatchMessage) (w : Auth S * Z)
    (Hhttp : forall r, respects (http r)) (Hgap : gap_respects gap)
    (Hwait : forall w w', w' ∈ wait w -> exists ls, run ls w.1 w'.1) :
  (exists ls, run ls w.1 (install http gap req w).2.1) /\
  (exists ls, run ls w.1 (monitor_tick http wait w).1) /\
  (exists ls, run ls w.1 (watch_round http gap msgs w).1).
Proof.
  split; [by apply install_run|]. split; [by apply monitor_run|].
  unfold watch_round. pose proof (watch_messages_run http gap msgs w Hhttp Hgap) as Hm.
  destruct (watch_messages http gap msgs w) as [r w1]; simpl in *.
  eapply some_run_trans; [exact Hm|]. eapply some_run_step. constructor.
Qed.

End Claims.

(** *** Witnesses *)

Import ExampleConfig ExampleAuth.

Lemma live_session_keeps_scope_witness :
  exists v', auth (renew_presence_revision (secs 10) 2 logged_in) = Some v' /\
    origin (request_of v') = origin request1 /\ presence v' = example_presence /\ secs 20 < valid_until v'.
Proof.
  apply (live_session_keeps_scope [Some (secs 10)] logged_in _ validated1 (secs 20) (lit "p")).
  - exact logged_in_inv.
  - exact logged_in_auth.
  - apply logged_in_fits. simpl. lia.
  - apply run_one. constructor.
  - vm_compute. reflexivity.
Defined.

(** Logout, then the same account logs in again: the old session stays dead. *)
Definition logged_in_again : Auth SimpleStore :=
  install_publish 4 true (install_commit 0 request1 example_presence 4 (install_begin request1 (clear logged_in)).2).2.
Lemma revocation_is_permanent_witness : revoked (secs 1) (guard_start (lit "p") 2) logged_in_again = true.
Proof.
  assert (Hq : valid_request request1 = true) by (vm_compute; reflexivity).
  assert (Hp : valid_presence request1 example_presence = true) by (vm_compute; reflexivity).
  apply (revocation_is_permanent [None] [None; Some 0; None] logged_in (clear logged_in) _ validated1 (secs 1) (lit "p")).
  - exact logged_in_inv.
  - exact logged_in_auth.
  - apply logged_in_fits. simpl. lia.
  - apply run_one. constructor.
  - econstructor; [apply (step_begin request1)|]. econstructor; [apply (step_commit 0 request1 example_presence 4 _ Hq Hp)|].
    econstructor; [apply (step_publish 4 true)|]. constructor.
  - left. vm_compute. reflexivity.
Defined.

Lemma newest_login_wins_witness :
  install_commit 0 request1 example_presence 2 (install_begin request2 logged_in).2 =
    (Stale, (install_begin request2 logged_in).2) /\
  clear_if_revision 2 false (install_begin request2 logged_in).2 = (install_begin request2 logged_in).2.
Proof.
  apply (newest_login_wins request2 request1 example_presence [] logged_in (install_begin request2 logged_in).2 _ 3 2 0 false).
  - exact logged_in_inv.
  - vm_cast_no_check (eq_refl (install_begin request2 logged_in)).
  - vm_compute. congruence.
  - apply logged_in_fits. simpl. lia.
  - constructor.
Defined.

Lemma ready_needs_recent_confirmation_witness :
  exists t, Some t ∈ [None; Some 0; None] /\ secs 14 < t + secs 15.
Proof.
  apply (ready_needs_recent_confirmation ExampleConfig.config [None; Some 0; None] logged_in (secs 14)).
  - econstructor; [apply (step_begin request1)|].
    econstructor; [apply (step_commit 0 request1 example_presence 2); vm_compute; reflexivity|].
    apply (run_step_to _ _ _ _ logged_in _ (step_publish 2 true _)); [vm_compute; reflexivity|]. constructor.
  - vm_compute. reflexivity.
Defined.

Lemma install_all_or_nothing_witness :
  let '(resp, w1) := http_ok request1 ((install_begin request1 start).2, 0) in
  let '(r, w2) := install http_ok id request1 (start, 0) in
  match r with
  | Ok _ => exists p, valid_request request1 = true /\ valid_presence request1 p = true /\ presence_answer resp = Ok p /\
      auth w2.1 = Some (Validated request1 p (w2.2 + secs 15) (revision w2.1) (epoch w2.1)) /\
      active_profile (NestlinkAuth.config w2.1) = profile_of p /\ ready w2.2 w2.1 = true /\
      updates w2.1 = revision w2.1 /\ monitoring w2.1 = true
  | Err _ => if valid_request request1 then auth w2.1 = None \/ auth w2.1 = auth w1.1 else w2 = (start, 0)
  end.
Proof. apply (install_all_or_nothing http_ok request1 (start, 0)). intros k _. reflexivity. Defined.

Lemma account_tasks_refine_steps_witness :
  (exists ls, run ls start (install http_ok id request1 (start, 0)).2.1) /\
  (exists ls, run ls start (monitor_tick http_ok (fun _ => []) (start, 0)).1) /\
  (exists ls, run ls start (watch_round http_ok id [WatchAuth (Some request1) (Some [])] (start, 0)).1).
Proof.
  apply (account_tasks_refine_steps http_ok id (fun _ => []) request1 [WatchAuth (Some request1) (Some [])] (start, 0)).
  - intros r w. exists []. constructor.
  - intros a. exists []. constructor.
  - intros w w' Hw. by apply not_elem_of_nil in Hw.
Defined.

End NestlinkAuthClaims.
