(* ===== verification/NestlinkPermit.v ===== *)
(** * Remote-control permits

    Models the second half of [client/src/nestlink_auth.rs]: the claims of a
    browser grant and of a peer permit and their verification
    ([verify_browser_grant_at], [browser_grant], [browser_epoch_live],
    [verify_permit_at]), and the two ends of a connection: the controller
    ([prepare], [attach]) and the host ([accept]), with [binding_proof].
    Base64, Ed25519, JSON and the protobuf message are parameters; wall-clock
    time is an argument in seconds. *)
From stdpp Require Import base gmap list strings.
From Stdlib Require Import ZArith Lia.
From S2P Require Import Prelude RustStr HomedeskNet HomedeskConfig NestlinkAuth.

#[local] Open Scope Z_scope.

(** ** Data *)

Record BrowserClaims := MkBrowserClaims {
  b_v : Z; b_typ : str; b_jti : str; b_realm : str; b_host_device : str; b_host_session : str;
  b_controller_session : str; b_offer_sha256 : str; b_answer_sha256 : str;
  b_iat : Z; b_exp : Z; b_policy : str }.

Record PermitClaims := MkPermitClaims {
  p_v : Z; typ : str; jti : str; claim_realm : str; iat : Z; exp : Z;
  controller_device : str; host_device : str; controller_session : str; host_session : str;
  controller_id : str; host_id : str; controller_key : str; host_key : str; policy : str }.

Record Envelope := MkEnvelope { permit : str; proof : str }.

Definition PERMIT_FIELD : Z := 100.

(** [hbb_common::protobuf::UnknownValueRef] *)
Inductive UnknownValue :=
| Fixed32 (x : Z) | Fixed64 (x : Z) | Varint (x : Z) | LengthDelimited (bytes : list Z).

(** ** What the module calls *)

Class PermitExternals `{!AuthExternals} := {
  (** base64 [URL_SAFE_NO_PAD] decoding, [STANDARD] encoding, and their error *)
  url_decode : str -> option (list Z);
  std_encode : list Z -> str;
  decode_error : error;
  (** [sign::Signature::from_bytes], [sign::SecretKey::from_slice], signing and verification *)
  sig_from_bytes : list Z -> option (list Z);
  sk_from_slice : list Z -> option (list Z);
  sign_detached : list Z -> list Z -> list Z;
  verify_detached : list Z -> list Z -> list Z -> bool;
  (** [sign::keypair_from_seed]: the public and the secret key made from a seed *)
  keypair_from_seed : list Z -> list Z * list Z;
  (** [serde_json::from_slice] and [to_vec] at the three claim types *)
  browser_claims_of : list Z -> option BrowserClaims;
  permit_claims_of : list Z -> option PermitClaims;
  envelope_of : list Z -> option Envelope;
  envelope_to : Envelope -> list Z;
  (** [reply["permit"].as_str()] *)
  reply_permit : json -> option str;
  (** [message_proto::LoginRequest], as far as the module touches it *)
  LoginRequest : Type;
  my_id : LoginRequest -> str;
  session_id : LoginRequest -> Z;
  unknown_get : Z -> LoginRequest -> option UnknownValue;
  add_length_delimited : Z -> list Z -> LoginRequest -> LoginRequest;
}.

(** Documented behaviour of those libraries the round trip relies on. *)
Class PermitLaws `{!AuthExternals, !PermitExternals} := {
  (** The two keys of one generated pair fit: what one signs the other verifies,
      and both have the length of their type. *)
  pair_verifies seed pk sk msg : keypair_from_seed seed = (pk, sk) -> length seed = 32%nat ->
    verify_detached (sign_detached msg sk) msg pk = true;
  pair_lengths seed pk sk : keypair_from_seed seed = (pk, sk) -> length seed = 32%nat ->
    pk_from_slice pk = Some pk /\ sk_from_slice sk = Some sk;
  encode_decodes b : std_decode (std_encode b) = Some b;
  signature_bytes msg sk : sig_from_bytes (sign_detached msg sk) = Some (sign_detached msg sk);
  envelope_round_trip e : envelope_of (envelope_to e) = Some e;
  add_then_get n b m : unknown_get n m = None -> unknown_get n (add_length_delimited n b m) = Some (LengthDelimited b);
  add_keeps_id n b m : my_id (add_length_delimited n b m) = my_id m;
  add_keeps_session n b m : session_id (add_length_delimited n b m) = session_id m;
}.

Section Permits.
Context {S : Type} `{!OptionKeys, !BuildEnv, !ConfigStore S, !Externals, !AuthExternals, !PermitExternals}.
Implicit Types (a : Auth S) (trust : Trust) (now : Z) (token : str) (w : Auth S * Z).

(** ** Verification *)

Definition public_key_of trust (bad : error) : result error (list Z) :=
  bytes ← ok_or (std_decode (public_key trust)) decode_error;
  ok_or (pk_from_slice bytes) bad.

Definition signature_of (part : str) (bad : error) : result error (list Z) :=
  bytes ← ok_or (url_decode part) decode_error;
  ok_or (sig_from_bytes bytes) bad.

Definition sha256_hex (h : str) : bool := (str_len h =? 64) && forallb is_ascii_hexdigit (str_bytes h).

Definition browser_scope_ok (c : BrowserClaims) trust now : bool :=
  negb (negb (b_v c =? 1)
  || negb (bool_decide (b_typ c = lit "NestLink-Browser"))
  || negb (bool_decide (b_realm c = realm trust))
  || negb (bool_decide (b_policy c = lit "require_direct"))
  || (u64_saturating_add now 5 <? b_iat c)
  || (b_exp c <=? now)
  || negb (bool_decide (u64_checked_sub (b_exp c) (b_iat c) = Some 15))
  || existsb (fun id => negb (uuid_ok id)) [b_jti c; b_host_device c; b_host_session c; b_controller_session c]
  || negb (forallb sha256_hex [b_offer_sha256 c; b_answer_sha256 c])).

Definition verify_browser_grant_at token trust now : result error BrowserClaims :=
  let parts := split_char 46 token in
  if (4096 <? str_len token) || negb (Z.of_nat (length parts) =? 3)
     || negb (bool_decide (head parts = Some (lit "nlb1")))
     || negb (bool_decide (algorithm trust = lit "Ed25519"))
  then Err (anyhow "浏览器远控许可无效")
  else
    let part1 := nth 1 parts [] in
    let part2 := nth 2 parts [] in
    k ← public_key_of trust (anyhow "服务公钥无效");
    signature ← signature_of part2 (anyhow "许可签名无效");
    if negb (verify_detached signature (str_bytes (lit "nlb1." ++ part1)) k) then Err (anyhow "许可签名无效")
    else
      bytes ← ok_or (url_decode part1) decode_error;
      claims ← ok_or (browser_claims_of bytes) json_error;
      if negb (browser_scope_ok claims trust now) then Err (anyhow "浏览器远控许可已失效或范围无效")
      else Ok claims.

Definition permit_scope_ok (c : PermitClaims) trust now : bool :=
  negb (negb (p_v c =? 2)
  || negb (bool_decide (typ c = lit "NestLink-P2P"))
  || negb (bool_decide (claim_realm c = realm trust))
  || negb (bool_decide (policy c = lit "require_direct"))
  || (u64_saturating_add now 5 <? iat c)
  || (exp c <=? now)
  || negb (bool_decide (u64_checked_sub (exp c) (iat c) = Some 45))
  || negb (uuid_ok (jti c))).

Definition verify_permit_at token trust now : result error PermitClaims :=
  if 4096 <? str_len token then Err (anyhow "远控许可超出长度限制")
  else
    let parts := split_char 46 token in
    if negb (Z.of_nat (length parts) =? 3) || negb (bool_decide (head parts = Some (lit "nlp2")))
    then Err (anyhow "远控许可格式无效")
    else
      let part1 := nth 1 parts [] in
      let part2 := nth 2 parts [] in
      signature ← signature_of part2 (anyhow "远控许可签名无效");
      k ← public_key_of trust (anyhow "服务公钥无效");
      if negb (verify_detached signature (str_bytes (lit "nlp2." ++ part1)) k) then Err (anyhow "远控许可签名无效")
      else
        bytes ← ok_or (url_decode part1) decode_error;
        claims ← ok_or (permit_claims_of bytes) json_error;
        if negb (permit_scope_ok claims trust now) then Err (anyhow "远控许可已过期或属于其他自建服务")
        else Ok claims.

(** ** Browser grants *)

Definition sharing_stopped a : bool := bool_decide (cfg_get_option (config a) (lit "stop-service") = lit "Y").

(** [browser_grant]: the authorization epoch and the seconds the grant has left. *)
Definition browser_grant token (expected_id offer answer : str) (wall : Z) w : result error (Z * Z) :=
  va ← snapshot w.2 w.1;
  if sharing_stopped w.1 then Err (anyhow "本机共享已关闭")
  else
    claims ← verify_browser_grant_at token (permit_trust (presence va)) wall;
    if negb (bool_decide (b_jti claims = expected_id)) || negb (bool_decide (b_offer_sha256 claims = offer))
       || negb (bool_decide (b_answer_sha256 claims = answer))
       || negb (bool_decide (b_host_device claims = device_id (request_of va)))
       || negb (bool_decide (b_host_session claims = p_session_id (presence va)))
    then Err (anyhow "浏览器远控许可已失效或不属于本机登录")
    else Ok (va_epoch va, b_exp claims - wall).

Definition browser_epoch_live (ep : Z) w : bool :=
  ready w.2 w.1 && (ep =? epoch w.1) && negb (sharing_stopped w.1).

(** ** The two ends of a connection *)

Definition login_input (permit : str) (connection_id : Z) : str :=
  lit "NestLink-login-v2:" ++ permit ++ lit ":" ++ fmt_Z connection_id.

Definition target_ok (target : str) (connection_id : Z) : bool :=
  negb (bool_decide (target = []) || (64 <? str_len target)
        || negb (forallb (fun b => is_ascii_alphanumeric b || (b =? 95) || (b =? 45)) (str_bytes target))
        || (connection_id =? 0)).

Record PreparedPermit := MkPrepared { envelope : list Z; p_claims : PermitClaims; guard : SessionGuard }.

(** The last check of both ends: no logout and no scope change in between. *)
Definition finish {A} (va : ValidatedAuth) w (x : A) : result error A :=
  if negb (va_epoch va =? epoch w.1) || negb (ready w.2 w.1) then Err (anyhow "账号授权已结束") else Ok x.

(** [prepare] from its snapshot on, given the server's reply and the device's
    key pair (secret, public), each an await of its own. *)
Definition prepare_checked (target : str) (connection_id wall : Z) (va : ValidatedAuth)
    (reply : json) (pair : result error (list Z * list Z)) w : result error PreparedPermit :=
  permit ← ok_or (reply_permit reply) (anyhow "服务未返回远控许可");
  claims ← verify_permit_at permit (permit_trust (presence va)) wall;
  if negb (bool_decide (controller_device claims = device_id (request_of va)))
     || negb (bool_decide (controller_session claims = p_session_id (presence va)))
     || negb (bool_decide (host_id claims = target))
  then Err (anyhow "远控许可设备范围无效")
  else
    '(secret, public) ← pair;
    if negb (bool_decide (std_encode public = controller_key claims)) then Err (anyhow "本机身份与远控许可不一致")
    else
      sk ← ok_or (sk_from_slice secret) (anyhow "设备私钥无效");
      let proof := std_encode (sign_detached (str_bytes (login_input permit connection_id)) sk) in
      finish va w (MkPrepared (envelope_to (MkEnvelope permit proof)) claims (guard_start (jti claims) (va_epoch va))).

(** [post path (field, value)] is the POST of the JSON object [{field: value}]. *)
Definition prepare (ensure : Auth S * Z -> result error unit * (Auth S * Z))
    (post : str -> str * str -> AuthRequest -> Auth S * Z -> result error json * (Auth S * Z))
    (wait : Auth S * Z -> list (Auth S * Z))
    (pair : Auth S * Z -> result error (list Z * list Z) * (Auth S * Z))
    (target : str) (connection_id wall : Z) w : result error PreparedPermit * (Auth S * Z) :=
  let '(r0, w0) := ensure w in
  match r0 with
  | Err e => (Err e, w0)
  | Ok _ =>
    if negb (target_ok target connection_id) then (Err (anyhow "请使用设备 ID 连接"), w0)
    else match snapshot w0.2 w0.1 with
    | Err e => (Err e, w0)
    | Ok va =>
      let '(r1, _, w1) :=
        authorized_request_using va (post (lit "/api/v2/remote/permits") (lit "target_id", target)) wait w0 in
      match r1 with
      | Err e => (Err e, w1)
      | Ok reply => let '(kp, w2) := pair w1 in (prepare_checked target connection_id wall va reply kp w2, w2)
      end
    end
  end.

Definition attach (request : LoginRequest) (prepared : list Z) : LoginRequest :=
  add_length_delimited PERMIT_FIELD prepared request.

(** [accept] up to its request to the server: the permit's claims. *)
Definition accept_checked (my : str) (my_public : list Z) (login : LoginRequest) (wall : Z) (va : ValidatedAuth)
    : result error PermitClaims :=
  match unknown_get PERMIT_FIELD login with
  | Some (LengthDelimited bytes) =>
    if 6144 <? Z.of_nat (length bytes) then Err (anyhow "远控许可超出长度限制")
    else
      env ← ok_or (envelope_of bytes) json_error;
      claims ← verify_permit_at (permit env) (permit_trust (presence va)) wall;
      if negb (bool_decide (host_device claims = device_id (request_of va)))
         || negb (bool_decide (host_session claims = p_session_id (presence va)))
         || negb (bool_decide (host_id claims = my))
         || negb (bool_decide (controller_id claims = my_id login))
         || (session_id login =? 0)
         || negb (bool_decide (std_encode my_public = host_key claims))
      then Err (anyhow "远控许可与连接设备不一致")
      else
        kbytes ← ok_or (std_decode (controller_key claims)) decode_error;
        k ← ok_or (pk_from_slice kbytes) (anyhow "连接设备公钥无效");
        sbytes ← ok_or (std_decode (proof env)) decode_error;
        signature ← ok_or (sig_from_bytes sbytes) (anyhow "连接设备签名无效");
        if negb (verify_detached signature (str_bytes (login_input (permit env) (session_id login))) k)
        then Err (anyhow "连接设备身份证明无效")
        else Ok claims
  | _ => Err (anyhow "连接缺少已登录账号的远控许可")
  end.

Definition accept (post : str -> str * str -> AuthRequest -> Auth S * Z -> result error json * (Auth S * Z))
    (wait : Auth S * Z -> list (Auth S * Z))
    (my : str) (my_public : list Z) (login : LoginRequest) (wall : Z) w : result error SessionGuard * (Auth S * Z) :=
  match snapshot w.2 w.1 with
  | Err e => (Err e, w)
  | Ok va =>
    match accept_checked my my_public login wall va with
    | Err e => (Err e, w)
    | Ok claims =>
      let '(r, _, w1) :=
        authorized_request_using va
          (post (lit "/api/v2/remote/permits/" ++ jti claims ++ lit "/accept")
                (lit "connection_id", fmt_Z (session_id login))) wait w in
      match r with
      | Err e => (Err e, w1)
      | Ok _ => (finish va w1 (guard_start (jti claims) (va_epoch va)), w1)
      end
    end
  end.

(** [binding_proof]: what is signed, and with what. *)
Definition binding_input (va : ValidatedAuth) (remote_id : str) : str :=
  lit "NestLink-binding-v2:" ++ realm (permit_trust (presence va)) ++ lit ":" ++ device_id (request_of va)
    ++ lit ":" ++ remote_id.

(** The fields of the proof document, in the order of the source. *)
Definition binding_proof (pair : result error (list Z * list Z)) (remote : result error (option str)) w
    : result error (list (str * str)) :=
  va ← snapshot w.2 w.1;
  '(secret, public) ← pair;
  sk ← ok_or (sk_from_slice secret) (anyhow "设备私钥无效");
  found ← remote;
  remote_id ← ok_or (id ← found; if bool_decide (id = []) then None else Some id) (anyhow "后台未返回设备 ID");
  Ok [(lit "device_id", device_id (request_of va)); (lit "remote_id", remote_id);
      (lit "server", p_server (presence va)); (lit "key_sha256", p_key_sha256 (presence va));
      (lit "remote_public_key", std_encode public);
      (lit "remote_proof", std_encode (sign_detached (str_bytes (binding_input va remote_id)) sk))].

End Permits.

(** ** Lemmas *)

Section Lemmas.
Context `{!AuthExternals, !PermitExternals}.
Implicit Types (trust : Trust) (now : Z) (token : str).

(** A token of three parts is its parts. *)
Lemma three_parts token h :
  Z.of_nat (length (split_char 46 token)) = 3 -> head (split_char 46 token) = Some h ->
  token = h ++ lit "." ++ nth 1 (split_char 46 token) [] ++ lit "." ++ nth 2 (split_char 46 token) [].
Proof.
  intros Hlen Hh. pose proof (join_split 46 token) as Hj.
  destruct (split_char 46 token) as [|x [|y [|z [|? ?]]]]; simpl in Hlen, Hh; try lia.
  injection Hh as ->. rewrite <- Hj at 1. simpl. by rewrite app_nil_r.
Qed.

Lemma saturating_5 now x : 0 <= now -> x <= u64_saturating_add now 5 -> x <= now + 5.
Proof. unfold u64_saturating_add, clamp, u_max. zcases; lia. Qed.

Lemma checked_sub_some x y d : u64_checked_sub x y = Some d -> x = y + d /\ 0 <= d.
Proof. unfold u64_checked_sub. zcases; [|done]. intros [= <-]. lia. Qed.

Record signed_by (prefix : str) token trust (payload : str) : Prop := {
  sb_shape : exists part1 part2, token = prefix ++ lit "." ++ part1 ++ lit "." ++ part2 /\ payload = part1 /\
    exists key_bytes k sig_bytes signature,
      std_decode (public_key trust) = Some key_bytes /\ pk_from_slice key_bytes = Some k /\
      url_decode part2 = Some sig_bytes /\ sig_from_bytes sig_bytes = Some signature /\
      verify_detached signature (str_bytes (prefix ++ lit "." ++ part1)) k = true }.

Lemma verify_permit_ok token trust now c : verify_permit_at token trust now = Ok c ->
  str_len token <= 4096 /\ permit_scope_ok c trust now = true /\
  exists payload bytes, signed_by (lit "nlp2") token trust payload /\
    url_decode payload = Some bytes /\ permit_claims_of bytes = Some c.
Proof.
  unfold verify_permit_at, signature_of, public_key_of. intros Hv.
  destruct (Z.ltb_spec 4096 (str_len token)); [done|].
  destruct (_ || _) eqn:Hparts; [done|]. bools.
  repeat (setoid_rewrite bind_ok in Hv). setoid_rewrite ok_or_ok in Hv.
  destruct Hv as (sg & (sb & Hsb & Hsg) & k & (kb & Hkb & Hk) & Hv).
  destruct (verify_detached sg _ k) eqn:Hver; simpl in Hv; [|done].
  repeat (setoid_rewrite bind_ok in Hv). setoid_rewrite ok_or_ok in Hv.
  destruct Hv as (bytes & Hb & c' & Hc & Hv). destruct (permit_scope_ok c' trust now) eqn:Hs; simpl in Hv; [|done].
  injection Hv as ->. split; [lia|]. split; [done|]. exists (nth 1 (split_char 46 token) []), bytes.
  split; [|done]. constructor. exists (nth 1 (split_char 46 token) []), (nth 2 (split_char 46 token) []).
  split; [by apply three_parts|]. split; [done|]. exists kb, k, sb, sg. done.
Qed.

Lemma verify_browser_ok token trust now c : verify_browser_grant_at token trust now = Ok c ->
  str_len token <= 4096 /\ browser_scope_ok c trust now = true /\ algorithm trust = lit "Ed25519" /\
  exists payload bytes, signed_by (lit "nlb1") token trust payload /\
    url_decode payload = Some bytes /\ browser_claims_of bytes = Some c.
Proof.
  unfold verify_browser_grant_at, signature_of, public_key_of. intros Hv.
  destruct (_ || _) eqn:Hparts; [done|]. bools.
  repeat (setoid_rewrite bind_ok in Hv). setoid_rewrite ok_or_ok in Hv.
  destruct Hv as (k & (kb & Hkb & Hk) & sg & (sb & Hsb & Hsg) & Hv).
  destruct (verify_detached sg _ k) eqn:Hver; simpl in Hv; [|done].
  repeat (setoid_rewrite bind_ok in Hv). setoid_rewrite ok_or_ok in Hv.
  destruct Hv as (bytes & Hb & c' & Hc & Hv). destruct (browser_scope_ok c' trust now) eqn:Hs; simpl in Hv; [|done].
  injection Hv as ->. split; [lia|]. split; [done|]. split; [done|]. exists (nth 1 (split_char 46 token) []), bytes.
  split; [|done]. constructor. exists (nth 1 (split_char 46 token) []), (nth 2 (split_char 46 token) []).
  split; [by apply three_parts|]. split; [done|]. exists kb, k, sb, sg. done.
Qed.

(** Only the last check depends on the time. *)
Lemma verify_permit_unsigned token trust : exists r : result error PermitClaims, forall now,
  verify_permit_at token trust now =
  (c ← r; if negb (permit_scope_ok c trust now) then Err (anyhow "远控许可已过期或属于其他自建服务") else Ok c).
Proof.
  unfold verify_permit_at. destruct (4096 <? _); [by eexists (Err _)|].
  destruct (_ || _); [by eexists (Err _)|]. destruct (signature_of _ _) as [sg|]; [|by eexists (Err _)].
  destruct (public_key_of _ _) as [k|]; [|by eexists (Err _)]. simpl.
  destruct (negb _); [by eexists (Err _)|]. destruct (ok_or (url_decode _) _) as [b|]; [|by eexists (Err _)]. simpl.
  destruct (ok_or (permit_claims_of b) _) as [c|]; [by eexists (Ok c)|by eexists (Err _)].
Qed.

Lemma verify_browser_unsigned token trust : exists r : result error BrowserClaims, forall now,
  verify_browser_grant_at token trust now =
  (c ← r; if negb (browser_scope_ok c trust now) then Err (anyhow "浏览器远控许可已失效或范围无效") else Ok c).
Proof.
  unfold verify_browser_grant_at.
  destruct (_ || _); [by eexists (Err _)|]. destruct (public_key_of _ _) as [k|]; [|by eexists (Err _)].
  destruct (signature_of _ _) as [sg|]; [|by eexists (Err _)]. simpl.
  destruct (negb _); [by eexists (Err _)|]. destruct (ok_or (url_decode _) _) as [b|]; [|by eexists (Err _)]. simpl.
  destruct (ok_or (browser_claims_of b) _) as [c|]; [by eexists (Ok c)|by eexists (Err _)].
Qed.

Lemma permit_scope c trust now : 0 <= now -> permit_scope_ok c trust now = true ->
  p_v c = 2 /\ typ c = lit "NestLink-P2P" /\ claim_realm c = realm trust /\ policy c = lit "require_direct" /\
  exp c = iat c + 45 /\ iat c - 5 <= now < exp c /\ uuid_ok (jti c) = true.
Proof.
  unfold permit_scope_ok. intros Hnow Hs. bools.
  match goal with H : u64_checked_sub _ _ = _ |- _ => apply checked_sub_some in H as [Hexp _] end.
  match goal with H : _ <= u64_saturating_add _ _ |- _ => apply saturating_5 in H; [|done] end.
  repeat split; (done || lia).
Qed.

Lemma browser_scope c trust now : 0 <= now -> browser_scope_ok c trust now = true ->
  b_v c = 1 /\ b_typ c = lit "NestLink-Browser" /\ b_realm c = realm trust /\ b_policy c = lit "require_direct" /\
  b_exp c = b_iat c + 15 /\ b_iat c - 5 <= now < b_exp c /\ uuid_ok (b_jti c) = true /\
  sha256_hex (b_offer_sha256 c) = true /\ sha256_hex (b_answer_sha256 c) = true.
Proof.
  unfold browser_scope_ok. intros Hnow Hs. simpl existsb in Hs. simpl forallb in Hs. bools.
  match goal with H : u64_checked_sub _ _ = _ |- _ => apply checked_sub_some in H as [Hexp _] end.
  match goal with H : _ <= u64_saturating_add _ _ |- _ => apply saturating_5 in H; [|done] end.
  repeat split; (done || lia).
Qed.

Lemma login_input_inj p p' n n' : 0 <= n -> 0 <= n' -> login_input p n = login_input p' n' -> p = p' /\ n = n'.
Proof.
  intros Hn Hn' E. unfold login_input in E. apply app_inv_head in E.
  change (lit ":") with [58] in E. simpl in E.
  assert (Hd : forall z, 0 <= z -> Forall (fun x => x <> 58) (fmt_Z z)).
  { intros z Hz. eapply Forall_impl; [by apply fmt_Z_digits|]. intros x Hx ->. done. }
  apply app_sep_inj in E as [-> E]; [|auto..]. split; [done|]. by apply fmt_Z_inj.
Qed.

End Lemmas.

(** ** Concrete parameters, for the witnesses

    A toy signature (the key followed by the message), base64 as the identity
    (URL-safe with a comma for a dot), one permit and one grant. *)
Module ExamplePermit.
Import ExampleConfig ExampleAuth.

Definition host_public : list Z := replicate 32 7.
Definition secret : list Z := replicate 32 1 ++ replicate 32 9.
Definition public : list Z := replicate 32 9.
Definition host : str := lit "home-pc".
Definition controller : str := lit "laptop".
Definition permit_id : str := lit "5d1c1a52-7d0b-4f1e-9a55-0d7f5a1c2b3d".
Definition hex64 : str := replicate 64 97.

Definition claims1 : PermitClaims :=
  MkPermitClaims 2 (lit "NestLink-P2P") permit_id (lit "home") 1000 1045 device device session session
    controller host public host_public (lit "require_direct").
Definition grant1 : BrowserClaims :=
  MkBrowserClaims 1 (lit "NestLink-Browser") permit_id (lit "home") device session session hex64 hex64 1000 1015
    (lit "require_direct").

(** The message under key [k] signs as [k ++ msg]. *)
#[global] Instance permit_externals : PermitExternals := {|
  url_decode s := Some ((fun c => if c =? 44 then 46 else c) <$> s);
  std_encode b := b;
  decode_error := anyhow "decode";
  sig_from_bytes b := Some b;
  sk_from_slice b := if Z.of_nat (length b) =? 64 then Some b else None;
  sign_detached msg sk := drop 32 sk ++ msg;
  verify_detached sg msg pk := bool_decide (sg = pk ++ msg);
  keypair_from_seed seed := (seed, replicate 32 1 ++ seed);
  browser_claims_of b := if bool_decide (b = str_bytes (lit "g")) then Some grant1 else None;
  permit_claims_of b := if bool_decide (b = str_bytes (lit "p")) then Some claims1 else None;
  envelope_of b := match b with
                   | n :: r => Some (MkEnvelope (take (Z.to_nat n) r) (drop (Z.to_nat n) r))
                   | [] => None
                   end;
  envelope_to e := Z.of_nat (length (permit e)) :: permit e ++ proof e;
  reply_permit j := Some (j : list Z);
  LoginRequest := str * Z * gmap Z (list Z);
  my_id m := m.1.1;
  session_id m := m.1.2;
  unknown_get n m := LengthDelimited <$> m.2 !! n;
  add_length_delimited n b m := (m.1, <[n := b]> m.2);
|}.

#[global] Instance permit_laws : PermitLaws.
Proof.
  assert (Hl : forall seed : list Z, length (replicate 32 1 ++ seed) = (32 + length seed)%nat) by (intros; by rewrite length_app, length_replicate).
  split; try done.
  - intros seed pk sk msg [= <- <-] Hs. simpl. by rewrite bool_decide_true.
  - intros seed pk sk E Hs. change ((seed, replicate 32 1 ++ seed) = (pk, sk)) in E. apply pair_equal_spec in E as [<- <-].
    specialize (Hl seed). revert Hl. generalize (replicate 32 1 ++ seed). intros sk Hl. rewrite Hs in Hl. simpl. by rewrite Hl, Hs.
  - intros [p q]. simpl. rewrite Nat2Z.id, take_app_length, drop_app_length. done.
  - intros n b m _. simpl. by rewrite lookup_insert_eq.
Qed.

Definition server_key : list Z := public_key trust.
Definition token_p : str := lit "nlp2.p." ++ server_key ++ lit "nlp2,p".
Definition token_g : str := lit "nlb1.g." ++ server_key ++ lit "nlb1,g".

Definition reply1 : json := token_p.
Definition login1 : LoginRequest := (controller, 77, ∅).
Definition post_ok (_ : str) (_ : str * str) (_ : AuthRequest) (w : Auth SimpleStore * Z)
  : result error json * (Auth SimpleStore * Z) := (Ok reply1, w).
Definition no_wait (_ : Auth SimpleStore * Z) : list (Auth SimpleStore * Z) := [].
Definition ensure_ok (w : Auth SimpleStore * Z) : result error unit * (Auth SimpleStore * Z) := (Ok (), w).
Definition pair_ok (w : Auth SimpleStore * Z) : result error (list Z * list Z) * (Auth SimpleStore * Z) :=
  (Ok (secret, public), w).

Example grant_verifies : verify_browser_grant_at token_g trust 1003 = Ok grant1.
Proof. vm_compute. reflexivity. Qed.

End ExamplePermit.

(** ** Properties *)
Module NestlinkPermitClaims.

Section Claims.
Context {S : Type} `{!OptionKeys, !BuildEnv, !ConfigStore S, !Externals, !AuthExternals, !PermitExternals}.
Implicit Types (a : Auth S) (trust : Trust) (now : Z) (token : str) (w : Auth S * Z).

(** C3: An accepted permit is at most 4096 bytes, carries the server's Ed25519
    signature over its own prefix and payload, decodes to the returned claims,
    names this realm and the direct-only policy, and is inside its 45-second
    life (up to 5 seconds of clock skew before it). *)
Theorem accepted_permit_sound token trust now c (Hnow : 0 <= now) (Hok : verify_permit_at token trust now = Ok c) :
  str_len token <= 4096 /\
  p_v c = 2 /\ typ c = lit "NestLink-P2P" /\ claim_realm c = realm trust /\ policy c = lit "require_direct" /\
  exp c = iat c + 45 /\ iat c - 5 <= now < exp c /\ uuid_ok (jti c) = true /\
  exists part1 part2 bytes key_bytes k sig_bytes signature,
    token = lit "nlp2" ++ lit "." ++ part1 ++ lit "." ++ part2 /\
    url_decode part1 = Some bytes /\ permit_claims_of bytes = Some c /\
    std_decode (public_key trust) = Some key_bytes /\ pk_from_slice key_bytes = Some k /\
    url_decode part2 = Some sig_bytes /\ sig_from_bytes sig_bytes = Some signature /\
    verify_detached signature (str_bytes (lit "nlp2" ++ lit "." ++ part1)) k = true.
Proof.
  apply verify_permit_ok in Hok as (Hlen & Hs & payload & bytes & [(p1 & p2 & Ht & -> & kb & k & sb & sg & Hsig)] & Hb & Hc).
  apply permit_scope in Hs as (? & ? & ? & ? & ? & ? & ?); [|done]. repeat (split; [done|]).
  exists p1, p2, bytes, kb, k, sb, sg. tauto.
Qed.

(** A token is either a permit or a browser grant: no token is accepted as
    both, under any trust anchors and at any times. *)
Theorem permit_never_a_browser_grant token trust trust' now now' :
  ~ (is_ok (verify_permit_at token trust now) = true /\ is_ok (verify_browser_grant_at token trust' now') = true).
Proof.
  intros [Hp Hb].
  destruct (verify_permit_at token trust now) as [c|] eqn:Ep; [|done].
  destruct (verify_browser_grant_at token trust' now') as [c'|] eqn:Eb; [|done].
  apply verify_permit_ok in Ep as (_ & _ & ? & ? & [(p1 & p2 & Ht & _)] & _).
  apply verify_browser_ok in Eb as (_ & _ & _ & ? & ? & [(q1 & q2 & Ht' & _)] & _).
  rewrite Ht in Ht'. discriminate.
Qed.

(** A grant cannot be kept: the instants at which one permit is accepted lie
    within 50 seconds of each other, those of one browser grant within 20. *)
Theorem grants_are_short_lived token trust now now' (Hnow : 0 <= now <= now') :
  (forall c c', verify_permit_at token trust now = Ok c -> verify_permit_at token trust now' = Ok c' -> now' - now < 50) /\
  (forall c c', verify_browser_grant_at token trust now = Ok c -> verify_browser_grant_at token trust now' = Ok c' ->
     now' - now < 20).
Proof.
  split; intros c c' Hok Hok'.
  - destruct (verify_permit_unsigned token trust) as [r Hr]. rewrite Hr in Hok, Hok'.
    destruct r as [d|]; simpl in Hok, Hok'; [|done].
    destruct (permit_scope_ok d trust now) eqn:Hs; [|done]. destruct (permit_scope_ok d trust now') eqn:Hs'; [|done].
    apply permit_scope in Hs; [|lia]. apply permit_scope in Hs'; [|lia]. lia.
  - destruct (verify_browser_unsigned token trust) as [r Hr]. rewrite Hr in Hok, Hok'.
    destruct r as [d|]; simpl in Hok, Hok'; [|done].
    destruct (browser_scope_ok d trust now) eqn:Hs; [|done]. destruct (browser_scope_ok d trust now') eqn:Hs'; [|done].
    apply browser_scope in Hs; [|lia]. apply browser_scope in Hs'; [|lia]. lia.
Qed.

(** The host lets a connection in only for a permit of its own account: the
    permit verifies under the trust anchor of the installed authorization and
    names this device, login session, id and key and the controller's id; the
    controller proved possession of the permitted key over this permit and
    this connection number; the server confirmed; and the authorization epoch
    the guard watches is the current one. *)
Theorem accept_binds_connection post wait (my : str) (my_public : list Z) (login : LoginRequest) (wall : Z) w g w'
    (Hok : accept post wait my my_public login wall w = (Ok g, w')) :
  exists va c env,
    auth w.1 = Some va /\ w.2 < valid_until va /\
    (exists bytes, unknown_get PERMIT_FIELD login = Some (LengthDelimited bytes) /\ envelope_of bytes = Some env /\
                   Z.of_nat (length bytes) <= 6144) /\
    verify_permit_at (permit env) (permit_trust (presence va)) wall = Ok c /\
    host_device c = device_id (request_of va) /\ host_session c = p_session_id (presence va) /\
    host_id c = my /\ controller_id c = my_id login /\ session_id login <> 0 /\ host_key c = std_encode my_public /\
    (exists kb k sb sg, std_decode (controller_key c) = Some kb /\ pk_from_slice kb = Some k /\
       std_decode (proof env) = Some sb /\ sig_from_bytes sb = Some sg /\
       verify_detached sg (str_bytes (login_input (permit env) (session_id login))) k = true) /\
    g = guard_start (jti c) (epoch w'.1) /\ ready w'.2 w'.1 = true.
Proof.
  unfold accept, snapshot, live_auth in Hok. destruct (auth w.1) as [va|] eqn:Ha; simpl in Hok; [|done].
  destruct (Z.ltb_spec w.2 (valid_until va)); simpl in Hok; [|done].
  destruct (accept_checked my my_public login wall va) as [c|] eqn:Hc; [|done].
  destruct (authorized_request_using _ _ _ _) as [[r sent] w1]. destruct r as [x|]; [|done].
  injection Hok as Hok <-. unfold finish in Hok. destruct (_ || _) eqn:Hfin; [done|].
  injection Hok as <-. bools.
  unfold accept_checked in Hc. destruct (unknown_get PERMIT_FIELD login) as [[| | |bytes]|] eqn:Hu; try done.
  destruct (Z.ltb_spec 6144 (Z.of_nat (length bytes))); [done|].
  setoid_rewrite bind_ok in Hc. setoid_rewrite ok_or_ok in Hc. destruct Hc as (env & Henv & Hc).
  apply bind_ok in Hc as (c' & Hver & Hc). destruct (_ || _) eqn:Hbind; [done|]. bools.
  repeat setoid_rewrite bind_ok in Hc. repeat setoid_rewrite ok_or_ok in Hc.
  destruct Hc as (kb & Hkb & k & Hk & sb & Hsb & sg & Hsg & Hc).
  destruct (verify_detached sg _ k) eqn:Hv; simpl in Hc; [|done]. injection Hc as <-.
  exists va, c', env. repeat (split; [by eauto|]). split; [by exists kb, k, sb, sg|].
  split; [|done]. by f_equal.
Qed.

(** C4: Round trip: what a controller prepares, the host accepts. If the same
    permit verifies on both sides and names both of them, and the controller's
    keys are a generated pair, the envelope [prepare] builds and [attach] puts
    into the login request passes every check of [accept]. *)
Theorem prepared_permit_is_accepted `{!PermitLaws} (target : str) (connection_id wall wall' : Z)
    (va vh : ValidatedAuth) (reply : json) (seed sk pk : list Z) w (my_public : list Z)
    (login : LoginRequest) (prepared : PreparedPermit)
    (Hseed : length seed = 32%nat) (Hpair : keypair_from_seed seed = (pk, sk))
    (Hprep : prepare_checked target connection_id wall va reply (Ok (sk, pk)) w = Ok prepared)
    (Hlen : Z.of_nat (length (envelope prepared)) <= 6144)
    (Hfresh : unknown_get PERMIT_FIELD login = None)
    (Hsession : session_id login = connection_id) (Hconn : connection_id <> 0)
    (Hid : my_id login = controller_id (p_claims prepared))
    (Hhost : forall t, reply_permit reply = Some t -> verify_permit_at t (permit_trust (presence vh)) wall' = Ok (p_claims prepared))
    (Hdev : host_device (p_claims prepared) = device_id (request_of vh))
    (Hses : host_session (p_claims prepared) = p_session_id (presence vh))
    (Hkey : host_key (p_claims prepared) = std_encode my_public) :
  accept_checked target my_public (attach login (envelope prepared)) wall' vh = Ok (p_claims prepared).
Proof.
  unfold prepare_checked in Hprep. setoid_rewrite bind_ok in Hprep. setoid_rewrite ok_or_ok in Hprep.
  destruct Hprep as (t & Ht & Hprep). apply bind_ok in Hprep as (c & Hver & Hprep).
  destruct (_ || _) eqn:Hscope; [done|]. bools. simpl in Hprep.
  destruct (bool_decide_reflect (std_encode pk = controller_key c)) as [Hck|]; [|done]. simpl in Hprep.
  destruct (pair_lengths seed pk sk Hpair Hseed) as [Hpk Hsk].
  rewrite Hsk in Hprep. simpl in Hprep. unfold finish in Hprep. destruct (_ || _); [done|]. injection Hprep as <-.
  cbn [envelope p_claims] in *. specialize (Hhost t Ht).
  unfold accept_checked, attach. rewrite add_then_get by done.
  rewrite (proj2 (Z.ltb_ge _ _) Hlen).
  rewrite envelope_round_trip. simpl. rewrite Hhost. simpl.
  rewrite add_keeps_id, add_keeps_session, !bool_decide_true by congruence.
  destruct (Z.eqb_spec (session_id login) 0); [congruence|]. simpl.
  rewrite <- Hck, !encode_decodes. cbn [ok_or mbind result_bind]. rewrite Hpk. cbn [ok_or mbind result_bind].
  rewrite signature_bytes. cbn [ok_or mbind result_bind]. rewrite Hsession, (pair_verifies seed); done.
Qed.

End Claims.

(** *** Witnesses *)

Import ExampleConfig ExampleAuth ExamplePermit.

Lemma accepted_permit_sound_witness :
  str_len token_p <= 4096 /\
  p_v claims1 = 2 /\ typ claims1 = lit "NestLink-P2P" /\ claim_realm claims1 = realm trust /\
  policy claims1 = lit "require_direct" /\
  exp claims1 = iat claims1 + 45 /\ iat claims1 - 5 <= 1003 < exp claims1 /\ uuid_ok (jti claims1) = true /\
  exists part1 part2 bytes key_bytes k sig_bytes signature,
    token_p = lit "nlp2" ++ lit "." ++ part1 ++ lit "." ++ part2 /\
    url_decode part1 = Some bytes /\ permit_claims_of bytes = Some claims1 /\
    std_decode (public_key trust) = Some key_bytes /\ pk_from_slice key_bytes = Some k /\
    url_decode part2 = Some sig_bytes /\ sig_from_bytes sig_bytes = Some signature /\
    verify_detached signature (str_bytes (lit "nlp2" ++ lit "." ++ part1)) k = true.
Proof. apply accepted_permit_sound; [lia|vm_compute; reflexivity]. Defined.

Lemma grants_are_short_lived_witness :
  forall c c', verify_permit_at token_p trust 1003 = Ok c -> verify_permit_at token_p trust 1044 = Ok c' -> 1044 - 1003 < 50.
Proof. apply (grants_are_short_lived token_p trust 1003 1044). lia. Defined.

Definition prepared1 : PreparedPermit :=
  match prepare_checked host 77 1003 validated1 reply1 (Ok (secret, public)) (logged_in, 0) with
  | Ok p => p
  | Err _ => MkPrepared [] claims1 (guard_start [] 0)
  end.
Definition login2 : LoginRequest := attach login1 (envelope prepared1).

Definition world1 : Auth SimpleStore * Z := (logged_in, 0).

Lemma accept_binds_connection_witness :
  exists va c env,
    auth world1.1 = Some va /\ world1.2 < valid_until va /\
    (exists bytes, unknown_get PERMIT_FIELD login2 = Some (LengthDelimited bytes) /\ envelope_of bytes = Some env /\
                   Z.of_nat (length bytes) <= 6144) /\
    verify_permit_at (permit env) (permit_trust (presence va)) 1010 = Ok c /\
    host_device c = device_id (request_of va) /\ host_session c = p_session_id (presence va) /\
    host_id c = host /\ controller_id c = my_id login2 /\ session_id login2 <> 0 /\ host_key c = std_encode host_public /\
    (exists kb k sb sg, std_decode (controller_key c) = Some kb /\ pk_from_slice kb = Some k /\
       std_decode (proof env) = Some sb /\ sig_from_bytes sb = Some sg /\
       verify_detached sg (str_bytes (login_input (permit env) (session_id login2))) k = true) /\
    guard_start permit_id 2 = guard_start (jti c) (epoch world1.1) /\ ready world1.2 world1.1 = true.
Proof.
  apply (accept_binds_connection post_ok no_wait host host_public login2 1010 world1 (guard_start permit_id 2) world1).
  vm_cast_no_check (eq_refl (accept post_ok no_wait host host_public login2 1010 world1)).
Defined.

Lemma prepared_permit_is_accepted_witness :
  accept_checked host host_public login2 1010 validated1 = Ok (p_claims prepared1).
Proof.
  apply (prepared_permit_is_accepted host 77 1003 1010 validated1 validated1 reply1 public secret public (logged_in, 0)
    host_public login1 prepared1).
  - reflexivity.
  - reflexivity.
  - vm_cast_no_check (eq_refl (Ok (E := error) prepared1)).
  - vm_compute. congruence.
  - reflexivity.
  - reflexivity.
  - lia.
  - vm_compute. reflexivity.
  - intros t [= <-]. vm_compute. reflexivity.
  - vm_compute. reflexivity.
  - vm_compute. reflexivity.
  - vm_compute. reflexivity.
Defined.

End NestlinkPermitClaims.
