(* ===== verification/Float.v ===== *)
(** * Floating point: Rust's [f32] and [f64]

    IEEE 754 binary32 and binary64 through the Standard Library's executable
    specification ([SpecFloat]): every operation rounds to nearest even, as the
    hardware does.  The conversions are those of Rust's [as] (saturating, NaN to
    zero), the comparisons those of its operators.  The lemmas are about order:
    comparisons agree with a lexicographic key, arithmetic on finite numbers
    is never NaN, and [clamp] lands in its interval. *)
From stdpp Require Import base list.
From Stdlib Require Import ZArith Lia Floats.SpecFloat.
From S2P Require Import Prelude.

#[local] Open Scope Z_scope.

Abbreviation float := spec_float.

Definition is_nan (x : float) : bool := match x with S754_nan => true | _ => false end.
Definition is_finite (x : float) : bool :=
  match x with S754_zero _ | S754_finite _ _ _ => true | _ => false end.

(** ** Conversions *)

(** The integer part towards zero of a finite number. *)
Definition trunc_Z (x : float) : Z :=
  match x with
  | S754_finite s m e => let q := Z.shiftl (Zpos m) e in if s then - q else q
  | _ => 0
  end.
(** [ceil] and [round] (half away from zero) of a finite number, as integers. *)
Definition ceil_Z (x : float) : Z :=
  match x with
  | S754_finite false m e => - Z.shiftl (- Zpos m) e
  | S754_finite true m e => - Z.shiftl (Zpos m) e
  | _ => 0
  end.
Definition round_Z (x : float) : Z :=
  match x with
  | S754_finite s m e =>
    let q := if 0 <=? e then Z.shiftl (Zpos m) e else Z.shiftr (Zpos m + Z.shiftl 1 (- e - 1)) (- e) in
    if s then - q else q
  | _ => 0
  end.

(** [as uW] and [as iW]: saturating, NaN to 0. *)
Definition saturate (lo hi : Z) (x : float) (z : Z) : Z :=
  match x with
  | S754_nan => 0
  | S754_infinity s => if s then lo else hi
  | _ => clamp lo hi z
  end.
Definition as_u (w : Z) (x : float) : Z := saturate 0 (u_max w) x (trunc_Z x).
Definition ceil_as_u (w : Z) (x : float) : Z := saturate 0 (u_max w) x (ceil_Z x).
Definition as_s (w : Z) (x : float) : Z := saturate (s_min w) (s_max w) x (trunc_Z x).
Definition round_as_s (w : Z) (x : float) : Z := saturate (s_min w) (s_max w) x (round_Z x).
Definition round_as_u (w : Z) (x : float) : Z := saturate 0 (u_max w) x (round_Z x).

(** ** binary32 *)
Module F32.
Definition of_Z (z : Z) : float := binary_normalize 24 128 z 0 false.
Definition add : float -> float -> float := SFadd 24 128.
Definition sub : float -> float -> float := SFsub 24 128.
Definition mul : float -> float -> float := SFmul 24 128.
Definition div : float -> float -> float := SFdiv 24 128.
(** A decimal literal [n/d]: the correctly rounded quotient. *)
Definition dec (n d : Z) : float := div (of_Z n) (of_Z d).
End F32.

(** ** binary64 *)
Module F64.
Definition of_Z (z : Z) : float := binary_normalize 53 1024 z 0 false.
Definition mul : float -> float -> float := SFmul 53 1024.
Definition div : float -> float -> float := SFdiv 53 1024.
Definition dec (n d : Z) : float := div (of_Z n) (of_Z d).
End F64.

(** [fNN::max] and [min]: the other operand when one is NaN. *)
Definition fmax (x y : float) : float :=
  if is_nan x then y else if is_nan y then x else if SFltb x y then y else x.
Definition fmin (x y : float) : float :=
  if is_nan x then y else if is_nan y then x else if SFltb y x then y else x.

(** [fNN::clamp] panics unless [lo <= hi]; a NaN argument is returned. *)
Definition fclamp (lo hi x : float) : option float :=
  if negb (SFleb lo hi) then None
  else Some (let x := if SFltb x lo then lo else x in if SFltb hi x then hi else x).

(** ** Order *)

Definition key (x : float) : Z * Z * Z :=
  match x with
  | S754_nan => (0, 0, 0)
  | S754_infinity true => (-2, 0, 0)
  | S754_finite true m e => (-1, - e, - Zpos m)
  | S754_zero _ => (0, 0, 0)
  | S754_finite false m e => (1, e, Zpos m)
  | S754_infinity false => (2, 0, 0)
  end.

Definition klt (a b : Z * Z * Z) : Prop :=
  a.1.1 < b.1.1 \/ a.1.1 = b.1.1 /\ (a.1.2 < b.1.2 \/ a.1.2 = b.1.2 /\ a.2 < b.2).

Lemma compare_key x y : is_nan x = false -> is_nan y = false ->
  match SFcompare x y with
  | Some Lt => klt (key x) (key y)
  | Some Eq => key x = key y
  | Some Gt => klt (key y) (key x)
  | None => False
  end.
Proof.
  intros Hx Hy. unfold klt.
  destruct x as [sx|sx| |sx mx ex], y as [sy|sy| |sy my ey]; try done;
    destruct sx, sy; simpl; try lia; try done.
  - destruct (Z.compare_spec ex ey) as [->|?|?]; simpl; [|lia..].
    change (Pos.compare_cont Eq mx my) with (Pos.compare mx my).
    destruct (Pos.compare_spec mx my) as [->|?|?]; simpl; (done || lia).
  - destruct (Z.compare_spec ex ey) as [->|?|?]; simpl; [|lia..].
    change (Pos.compare_cont Eq mx my) with (Pos.compare mx my).
    destruct (Pos.compare_spec mx my) as [->|?|?]; simpl; (done || lia).
Qed.

Lemma compare_nan x y : is_nan x = true \/ is_nan y = true -> SFcompare x y = None.
Proof. intros [Hx|Hy]; destruct x as [[]|[]| |[]]; destruct y as [[]|[]| |[]]; done. Qed.

Lemma key_not_lt_self a : ~ klt a a.
Proof. unfold klt. lia. Qed.

Definition kle (a b : Z * Z * Z) : Prop := klt a b \/ a = b.

Lemma kle_not_klt a b : kle a b <-> ~ klt b a.
Proof.
  unfold kle, klt. destruct a as [[a1 a2] a3], b as [[b1 b2] b3]; simpl. split; [intros [?|[= -> -> ->]]; lia|].
  intros Hn. destruct (decide (a1 = b1 /\ a2 = b2 /\ a3 = b3)) as [(-> & -> & ->)|]; [by right|left; lia].
Qed.

Lemma kle_trans a b c : kle a b -> kle b c -> kle a c.
Proof. rewrite !kle_not_klt. unfold klt. lia. Qed.

(** [x <= y] and [x < y] of non-NaN numbers. *)
Lemma leb_iff x y : SFleb x y = true <-> is_nan x = false /\ is_nan y = false /\ kle (key x) (key y).
Proof.
  unfold SFleb. destruct (is_nan x) eqn:Hx; [rewrite compare_nan by auto; naive_solver|].
  destruct (is_nan y) eqn:Hy; [rewrite compare_nan by auto; naive_solver|].
  pose proof (compare_key x y Hx Hy) as Hc. rewrite kle_not_klt.
  destruct (SFcompare x y) as [[]|]; [| | |done].
  - rewrite Hc. split; [intros _; auto using key_not_lt_self|done].
  - split; [intros _|done]. split; [done|split; [done|]]. unfold klt in *. lia.
  - split; [done|]. intros (_ & _ & Hn). by destruct Hn.
Qed.

Lemma ltb_iff x y : SFltb x y = true <-> is_nan x = false /\ is_nan y = false /\ klt (key x) (key y).
Proof.
  unfold SFltb. destruct (is_nan x) eqn:Hx; [rewrite compare_nan by auto; naive_solver|].
  destruct (is_nan y) eqn:Hy; [rewrite compare_nan by auto; naive_solver|].
  pose proof (compare_key x y Hx Hy) as Hc.
  destruct (SFcompare x y) as [[]|]; [| | |done].
  - rewrite Hc. split; [done|]. intros (_ & _ & Hn). by destruct (key_not_lt_self _ Hn).
  - naive_solver.
  - split; [done|]. intros (_ & _ & Hn). unfold klt in *. lia.
Qed.

Lemma leb_refl x : is_nan x = false -> SFleb x x = true.
Proof. intros. apply leb_iff. split; [done|split; [done|by right]]. Qed.

Lemma leb_trans x y z : SFleb x y = true -> SFleb y z = true -> SFleb x z = true.
Proof. rewrite !leb_iff. intros (? & ? & ?) (? & ? & ?). eauto using kle_trans. Qed.

Lemma ltb_false_leb x y : is_nan x = false -> is_nan y = false -> SFltb x y = false -> SFleb y x = true.
Proof.
  intros Hx Hy Hl. apply leb_iff. split; [done|split; [done|]]. apply kle_not_klt. intros Hk.
  assert (SFltb x y = true) by (by apply ltb_iff). congruence.
Qed.

Lemma ltb_leb x y : SFltb x y = true -> SFleb x y = true.
Proof. rewrite ltb_iff, leb_iff. intros (? & ? & ?). split; [done|split; [done|by left]]. Qed.

(** [clamp] of a number lands in the interval. *)
Lemma fclamp_spec lo hi x : SFleb lo hi = true -> is_nan x = false ->
  exists r, fclamp lo hi x = Some r /\ SFleb lo r = true /\ SFleb r hi = true.
Proof.
  intros Hlh Hx. pose proof Hlh as Hlh'. apply leb_iff in Hlh' as (Hlo & Hhi & _).
  unfold fclamp. rewrite Hlh. simpl. eexists. split; [reflexivity|]. destruct (SFltb x lo) eqn:Hl.
  - destruct (SFltb hi lo); auto using leb_refl.
  - destruct (SFltb hi x) eqn:Hh; [by auto using leb_refl|]. split; by apply ltb_false_leb.
Qed.

(** [max] of a number is at least the number. *)
Lemma fmax_ge x y : is_nan y = false -> SFleb y (fmax x y) = true.
Proof.
  intros Hy. unfold fmax. destruct (is_nan x) eqn:Hx; [by apply leb_refl|]. rewrite Hy.
  destruct (SFltb x y) eqn:Hl; [by apply leb_refl|by apply ltb_false_leb].
Qed.

Lemma fmax_le x y z : SFleb x z = true -> SFleb y z = true -> SFleb (fmax x y) z = true.
Proof.
  intros Hx Hy. unfold fmax. repeat case_match; done.
Qed.

(** ** Arithmetic on finite numbers is not NaN *)

Section NotNan.
Variables prec emax : Z.

Lemma shr_1_nonneg r : 0 <= shr_m r -> 0 <= shr_m (shr_1 r).
Proof. destruct r as [[|[p|p|]|p] ? ?]; simpl; lia. Qed.

Lemma iter_shr_nonneg p r : 0 <= shr_m r -> 0 <= shr_m (iter_pos shr_1 p r).
Proof.
  revert r. induction p as [p IH|p IH|]; intros r Hr; simpl; auto using shr_1_nonneg.
Qed.

Lemma shr_fexp_nonneg m e l : 0 <= m -> 0 <= shr_m (shr_fexp prec emax m e l).1.
Proof.
  intros Hm. unfold shr_fexp, shr.
  assert (H0 : 0 <= shr_m (shr_record_of_loc m l)) by (destruct l as [|[]]; done).
  destruct (_ - e); simpl; auto using iter_shr_nonneg.
Qed.

Lemma round_aux_not_nan s m e l : 0 <= m -> is_nan (binary_round_aux prec emax s m e l) = false.
Proof.
  intros Hm. unfold binary_round_aux. pose proof (shr_fexp_nonneg m e l Hm) as Hm1.
  destruct (shr_fexp prec emax m e l) as [r1 e1]; simpl in Hm1.
  assert (Hr : 0 <= round_nearest_even (shr_m r1) (loc_of_shr_record r1)).
  { destruct (loc_of_shr_record r1) as [|[]]; simpl; try lia. case_match; lia. }
  pose proof (shr_fexp_nonneg _ e1 loc_Exact Hr) as Hm2.
  destruct (shr_fexp prec emax _ e1 loc_Exact) as [r2 e2]; simpl in Hm2.
  destruct (shr_m r2); [done|by case_match|lia].
Qed.

Lemma mul_not_nan x y : is_finite x = true -> is_finite y = true -> is_nan (SFmul prec emax x y) = false.
Proof. destruct x, y; try done. intros _ _. by apply round_aux_not_nan. Qed.

Lemma div_core_nonneg m1 e1 m2 e2 : 0 <= m1 -> 0 < m2 -> 0 <= (SFdiv_core_binary prec emax m1 e1 m2 e2).1.1.
Proof.
  intros H1 H2. unfold SFdiv_core_binary. set (m' := match _ with Z0 => _ | _ => _ end).
  assert (Hm : 0 <= m') by (unfold m'; case_match; [done|by apply Z.shiftl_nonneg|done]).
  pose proof (Z.div_pos m' m2 Hm H2) as Hq. unfold Z.div in Hq. by destruct (Z.div_eucl m' m2).
Qed.

(** Division of a number by a finite nonzero one. *)
Lemma div_not_nan x s m e : is_nan x = false -> is_nan (SFdiv prec emax x (S754_finite s m e)) = false.
Proof.
  destruct x as [sx|sx| |sx mx ex]; try done. intros _. unfold SFdiv.
  pose proof (div_core_nonneg (Zpos mx) ex (Zpos m) e ltac:(lia) ltac:(lia)) as Hq.
  destruct (SFdiv_core_binary prec emax _ _ _ _) as [[q e'] l]. by apply round_aux_not_nan.
Qed.

Lemma normalize_not_nan m e s : is_nan (binary_normalize prec emax m e s) = false.
Proof.
  destruct m; simpl; [done|..]; unfold binary_round; destruct (shl_align _ _ _); by apply round_aux_not_nan.
Qed.

End NotNan.
