(* ===== verification/TunnelRuntime.v ===== *)
(** * The managed tunnel runtime

    Models [client/src/homedesk_tunnel_runtime.rs] and
    [homedesk_runtime_compatibility.rs]: the controller behind its mutex, the
    commands, the helper processes with their jobs, and the worker threads that
    run [execute], as a transition system whose atomic steps are the lock
    regions and the system calls between them.  The file system, SHA-256, JSON
    and the operating system's answers are parameters or events. *)
From stdpp Require Import base gmap list strings.
From Stdlib Require Import ZArith Lia.
From S2P Require Import Prelude RustStr HomedeskNet HomedeskConfig.

#[local] Open Scope Z_scope.

(** ** Data *)

Record Request := MkRequest {
  action : str; owner : str; origin : str; user_id : str; permission : str; name : str; registration : str;
  serial : Z }.

Record View := MkView {
  v_owner : str; phase : str; code : str; v_device_id : str; agent_state : str; install_id : str; fingerprint_hash : str }.
Definition view_default : View := MkView [] [] [] [] [] [] [].

(** A job is named by the thread that created it. *)
Record Controller := MkController {
  view : View; c_serial : Z; stopped_owners : gset str; job : option nat; state_path : option str }.

(** A helper process: alive, and whether it received the latch line without
    which it sends nothing. *)
Record Proc := MkProc { alive : bool; latched : bool }.
Definition killed (p : Proc) : Proc := MkProc false (latched p).

(** Where a worker thread is in [execute] and in the closure around it. *)
Inductive Pc :=
| PcPaths                 (** about to resolve and verify the paths *)
| PcAllowed               (** paths done, about to read the permission and spawn *)
| PcSpawned               (** child and job exist, about to read the permission *)
| PcRegister              (** about to take the lock and register the job *)
| PcLatch                 (** registered, about to read the permission *)
| PcWrite                 (** about to write the latch line *)
| PcRead                  (** reading the helper's lines *)
| PcUpdate (phase code device state : str)
| PcFinish (success : bool) (** waited for, about to take the lock *)
| PcFailed (code : str)   (** [execute] returned an error *)
| PcReport (code : str)   (** about to report it *)
| PcDone.
Record Thread := MkThread { t_request : Request; pc : Pc; t_path : str }.

Record System := MkSystem {
  ctl : Controller; procs : gmap nat Proc; threads : gmap nat Thread; next : nat }.

Definition init_system : System :=
  MkSystem (MkController (MkView [] (lit "stopped") [] [] [] [] []) 0 ∅ None None) ∅ ∅ 0.

(** ** Validation *)

Definition valid_owner (value : str) : bool :=
  (str_len value =? 32) && forallb is_ascii_hexdigit (str_bytes value).

Definition valid_user (value : str) : bool :=
  (str_len value =? 36) &&
  forallb (fun '(i, c) => if bool_decide (i ∈ [8; 13; 18; 23]%nat) then c =? 45 else is_ascii_hexdigit c)
    (zip (seq 0 (length (str_bytes value))) (str_bytes value)).

Section Permission.
Context {S : Type} `{!OptionKeys, !BuildEnv, !ConfigStore S, !Externals}.

(** [tunnel_origin] is the local option [homedesk-home-tunnel-origin], [later]
    the permission epoch at its second read. *)
Definition allowed (r : Request) (c : HomeConfig S) (later : Z) (tunnel_origin : str) : bool :=
  valid_owner (owner r) && valid_user (user_id r)
  && cfg_home_tunnel_allowed c
  && negb (bool_decide (permission r = []))
  && bool_decide (permission r = home_tunnel_permission c later)
  && bool_decide (normalize_portal_origin (origin r) = Some (origin r))
  && bool_decide (tunnel_origin = origin r).
End Permission.

(** ** The controller *)

Definition set_job (j : option nat) (c : Controller) : Controller :=
  MkController (view c) (c_serial c) (stopped_owners c) j (state_path c).
Definition set_view (v : View) (c : Controller) : Controller :=
  MkController v (c_serial c) (stopped_owners c) (job c) (state_path c).

(** [Job::terminate]: the signal kills the process group at once; the group is the
    helper alone. *)
Definition terminate (j : nat) (ps : gmap nat Proc) : gmap nat Proc := alter killed j ps.

(** [if let Some(job) = controller.job.take() { job.terminate(); }] *)
Definition take_job (s : System) : System :=
  match job (ctl s) with
  | Some j => MkSystem (set_job None (ctl s)) (terminate j (procs s)) (threads s) (next s)
  | None => s
  end.

Definition with_ctl (f : Controller -> Controller) (s : System) : System :=
  MkSystem (f (ctl s)) (procs s) (threads s) (next s).

Definition add_stopped (o : str) (c : Controller) : Controller :=
  MkController (view c) (c_serial c) ({[o]} ∪ stopped_owners c) (job c) (state_path c).

(** Phase, serial and owner of a stop. *)
Definition mark_stopped (c : Controller) : Controller :=
  let v := view c in
  MkController (MkView [] (lit "stopped") (code v) (v_device_id v) (agent_state v) (install_id v) (fingerprint_hash v))
    (u64_add (c_serial c) 1) (stopped_owners c) (job c) (state_path c).

Definition stop_all (s : System) : System :=
  let o := v_owner (view (ctl s)) in
  let s := if bool_decide (o = []) then s else with_ctl (add_stopped o) s in
  with_ctl mark_stopped (take_job s).

Definition command_stop (o : str) (s : System) : System :=
  let s := with_ctl (add_stopped o) s in
  if bool_decide (v_owner (view (ctl s)) = o) then with_ctl mark_stopped (take_job s) else s.

Definition start_guards (permitted : bool) (r : Request) : bool :=
  negb (negb (bool_decide (action r ∈ [lit "inspect"; lit "register"; lit "run"])) || negb permitted
    || (120 <? Z.of_nat (length (name r))) || existsb is_control (name r)
    || (bool_decide (action r = lit "register")
        && ((str_len (registration r) <? 32) || (4096 <? str_len (registration r)) || existsb is_control (registration r)))).

(** The lock region of a start and the thread it spawns. *)
Definition command_start (permitted : bool) (r : Request) (s : System) : System :=
  if negb (start_guards permitted r) then s
  else if bool_decide (owner r ∈ stopped_owners (ctl s)) then s
  else
    let s := take_job s in
    let c := ctl s in
    let n := u64_add (c_serial c) 1 in
    let r := MkRequest (action r) (owner r) (origin r) (user_id r) (permission r) (name r) (registration r) n in
    MkSystem
      (MkController (MkView (owner r) (lit "working") [] [] [] [] []) n (stopped_owners c) (job c) (state_path c))
      (procs s) (<[next s := MkThread r PcPaths []]> (threads s)) (Datatypes.S (next s)).

(** [command]: [parse] is [serde_json::from_str::<Request>] (serial 0). *)
Definition command (parse : str -> option Request) (permitted : Request -> bool) (value : str) (s : System) : System :=
  if 8192 <? str_len value then s
  else match parse value with
  | None => s
  | Some r =>
    if negb (valid_owner (owner r)) then s
    else if bool_decide (action r = lit "stop") then command_stop (owner r) s
    else command_start (permitted r) r s
  end.

(** The test of every guarded region: is this request still the current one? *)
Definition current (r : Request) (c : Controller) : bool :=
  bool_decide (v_owner (view c) = owner r) && (c_serial c =? serial r).

Definition update (permitted : bool) (r : Request) (ph cd device st : str) (c : Controller) : Controller :=
  if negb permitted then c
  else if negb (current r c) then c
  else
    let v := view c in
    set_view (MkView (v_owner v) ph cd (if valid_user device then device else v_device_id v) st
                (install_id v) (fingerprint_hash v)) c.

(** ** Status *)

Definition agent_states : list str :=
  [lit "Online"; lit "Offline"; lit "Starting"; lit "Applying"; lit "Degraded"; lit "Error"; lit "Revoked";
   lit "ExpiredStop"; lit "RepairRequired"].

(** [read] is the state file's bytes when it is a regular file that could be
    read, [agent] its [agent_state] field. *)
Definition status (read : str -> option (list Z)) (agent : list Z -> option str) (c : Controller) : View :=
  let v := view c in
  if negb (bool_decide (phase v = lit "running")) then v
  else
    match (path ← state_path c; bytes ← read path;
           if Z.of_nat (length bytes) <=? 2 * 1024 * 1024 then a ← agent bytes; Some a else None) with
    | Some a =>
      if bool_decide (a ∈ agent_states)
      then MkView (v_owner v) (phase v) (code v) (v_device_id v) a (install_id v) (fingerprint_hash v)
      else v
    | None => v
    end.

(** [network_identity]: the two fields of its document; [hex_sha256] is the
    lower-case digest of the bytes. *)
Definition network_identity (hex_sha256 : list Z -> str) (p : NetworkProfile) : list (str * str) :=
  if bool_decide (server p = []) || bool_decide (key p = []) then []
  else
    let srv := to_ascii_lowercase (trim (server p)) in
    let srv := if existsb (fun c => c =? 58) srv then srv else srv ++ lit ":21116" in
    [(lit "server", srv); (lit "key_sha256", hex_sha256 (str_bytes (trim (key p))))].

(** ** Files and integrity (platform::regular, verify, paths; validate) *)

(** [fs::symlink_metadata] as the code reads it: the unix mode, or the Windows
    attributes. *)
Record Metadata := MkMeta { is_file : bool; is_dir : bool; is_symlink : bool; mode_bits : Z; attributes : Z }.

Class Files := {
  windows : bool;
  fs_meta : str -> option Metadata;
  fs_read : str -> option (list Z);
  (** [create_dir_all], and the metadata of a directory after it *)
  create_dir_all : str -> bool;
  dir_meta : str -> option Metadata;
  (** [current_exe()?.canonicalize()?], split into its directory and file name *)
  exe_parent : option str;
  exe_name : option str;
  (** the directory of [Config::file()] *)
  config_dir : option str;
  hex_sha256 : list Z -> str;
  (** a JSON document with string fields: [value[name].as_str()] *)
  jvalue : Type;
  json_value : list Z -> option jvalue;
  json_str : jvalue -> str -> option str;
  json_field : jvalue -> str -> jvalue;
  (** [compatibility.json] as embedded at build time, and the crate's version *)
  compatibility : option jvalue;
  CARGO_PKG_VERSION : str;
}.

Section Execute.
Context `{!Files}.

Definition unsafe_metadata (m : Metadata) : bool :=
  if windows then negb (Z.land (attributes m) 0x400 =? 0) else negb (Z.land (mode_bits m) 18 =? 0).

Definition regular (path : str) : result str unit :=
  m ← ok_or (fs_meta path) (lit "RUNTIME_MISSING");
  if negb (is_file m) || is_symlink m || unsafe_metadata m then Err (lit "UNSAFE_PATH") else Ok ().

Definition verify (path expected : str) : result str unit :=
  _ ← regular path;
  if negb (str_len expected =? 64) || negb (forallb is_ascii_hexdigit (str_bytes expected))
  then Err (lit "INTEGRITY_FAILED")
  else
    bytes ← ok_or (fs_read path) (lit "INTEGRITY_FAILED");
    if negb (bool_decide (hex_sha256 bytes = to_ascii_lowercase expected)) then Err (lit "INTEGRITY_FAILED") else Ok ().

Definition validate (manifest : jvalue) (executable : str) : result str unit :=
  compat ← ok_or compatibility (lit "RUNTIME_INCOMPATIBLE");
  let target := json_field compat (lit "target_combination") in
  expected_runtime ← ok_or (v ← json_str target (lit "agent"); if bool_decide (v = []) then None else Some v)
                       (lit "RUNTIME_INCOMPATIBLE");
  if negb (bool_decide (json_str compat (lit "version") = Some CARGO_PKG_VERSION))
     || negb (bool_decide (json_str target (lit "client") = Some CARGO_PKG_VERSION))
     || negb (bool_decide (json_str manifest (lit "version") = Some expected_runtime))
  then Err (lit "RUNTIME_INCOMPATIBLE")
  else if negb (bool_decide (json_str manifest (lit "parent_executable") = Some executable))
  then Err (lit "INTEGRITY_FAILED")
  else Ok ().

(** [Path::join] of a plain name *)
Definition path_join (p x : str) : str := p ++ (if windows then lit "\" else lit "/") ++ x.

Definition helper_name : str := if windows then lit "homedesk-tunnel-helper.exe" else lit "homedesk-tunnel-helper".
Definition agent_name : str := if windows then lit "home-tunnel-agent.exe" else lit "home-tunnel-agent".

Definition safe_dir (p : str) : result str unit :=
  m ← ok_or (dir_meta p) (lit "UNSAFE_PATH");
  if negb (is_dir m) || unsafe_metadata m then Err (lit "UNSAFE_PATH") else Ok ().

(** The helper to run and the state file it owns. *)
Definition paths (r : Request) : result str (str * str) :=
  app ← ok_or exe_parent (lit "RUNTIME_MISSING");
  let runtime := path_join app (lit "tunnel-runtime") in
  m ← ok_or (fs_meta runtime) (lit "RUNTIME_MISSING");
  if negb (is_dir m) || unsafe_metadata m then Err (lit "UNSAFE_PATH")
  else
    let manifest_path := path_join runtime (lit "runtime.json") in
    _ ← regular manifest_path;
    bytes ← ok_or (fs_read manifest_path) (lit "INTEGRITY_FAILED");
    manifest ← ok_or (json_value bytes) (lit "INTEGRITY_FAILED");
    executable_name ← ok_or exe_name (lit "UNSAFE_PATH");
    _ ← validate manifest executable_name;
    let helper := path_join runtime helper_name in
    helper_sha ← ok_or (json_str manifest (lit "helper_sha256")) (lit "INTEGRITY_FAILED");
    _ ← verify helper helper_sha;
    agent_sha ← ok_or (json_str manifest (lit "agent_sha256")) (lit "INTEGRITY_FAILED");
    _ ← verify (path_join runtime agent_name) agent_sha;
    config ← ok_or config_dir (lit "UNSAFE_PATH");
    let root := path_join config (lit "tunnel-local") in
    let scope := hex_sha256 (str_bytes (origin r ++ [0] ++ user_id r)) in
    let directory := path_join root scope in
    if negb (create_dir_all directory) then Err (lit "STATE_PROTECTION_FAILED")
    else
      _ ← safe_dir root;
      _ ← safe_dir directory;
      Ok (helper, path_join directory (lit "state.json")).

(** The arguments of the helper's command line ([parent] is this process). *)
Definition helper_args (r : Request) (state parent : str) : list str :=
  [action r; lit "--state"; state; lit "--origin"; origin r; lit "--parent"; parent; lit "--name"; name r].

(** What the thread writes to the helper's input. *)
Definition helper_input (r : Request) : list Z :=
  str_bytes (lit "HOMEDESK_AGENT_ALLOWED") ++ [10] ++
  (if bool_decide (action r = lit "register") then str_bytes (registration r) ++ [10] else []).

(** ** The worker thread (execute and the closure around it) *)

(** What the operating system and the permission answer at a step. *)
Inductive Event :=
| EvPaths                                  (** resolve and verify the paths *)
| EvSpawn (permitted spawned job_ok : bool)
| EvPermitted (permitted : bool)           (** [allowed] read outside the lock *)
| EvLock                                   (** a lock region *)
| EvWrite (ok : bool)
| EvLine (line : str)
| EvReadError
| EvWait (ok success permitted : bool).    (** output ended, child waited for *)

Definition set_thread (i : nat) (t : Thread) (p : Pc) (s : System) : System :=
  MkSystem (ctl s) (procs s) (<[i := MkThread (t_request t) p (t_path t)]> (threads s)) (next s).
Definition set_procs (ps : gmap nat Proc) (s : System) : System :=
  MkSystem (ctl s) ps (threads s) (next s).

(** The region that stores what an unregistered helper reported. *)
Definition store_identity (r : Request) (value : jvalue) (c : Controller) : Controller :=
  if current r c then
    let v := view c in
    set_view (MkView (v_owner v) (phase v) (code v) (v_device_id v) (agent_state v)
                (default [] (json_str value (lit "install_id")))
                (default [] (json_str value (lit "fingerprint_hash")))) c
  else c.

(** One line of the helper's output: where the thread goes next. *)
Definition read_line (i : nat) (t : Thread) (line : str) (s : System) : System :=
  if 8192 <? str_len line then set_thread i t (PcFailed (lit "RUNTIME_FAILED")) (set_procs (terminate i (procs s)) s)
  else match json_value (str_bytes line) with
  | None => s
  | Some value =>
    let ph := default (lit "error") (json_str value (lit "phase")) in
    if negb (bool_decide (ph ∈ [lit "registered"; lit "needs_registration"; lit "running"; lit "error"])) then s
    else
      let s := if bool_decide (ph = lit "needs_registration") then with_ctl (store_identity (t_request t) value) s else s in
      set_thread i t (PcUpdate ph (default (lit "RUNTIME_FAILED") (json_str value (lit "code")))
                        (default [] (json_str value (lit "device_id")))
                        (default [] (json_str value (lit "agent_state")))) s
  end.

(** The last region of [execute]. *)
Definition finish_region (r : Request) (success : bool) (c : Controller) : Controller :=
  if negb (current r c) then c
  else
    let c := set_job None c in
    let v := view c in
    if bool_decide (action r = lit "run") && bool_decide (phase v = lit "running")
    then set_view (MkView (v_owner v) (lit "error") (lit "AGENT_STOPPED") (v_device_id v) (agent_state v)
                     (install_id v) (fingerprint_hash v)) c
    else if negb success && bool_decide (phase v = lit "working")
    then set_view (MkView (v_owner v) (lit "error") (lit "RUNTIME_FAILED") (v_device_id v) (agent_state v)
                     (install_id v) (fingerprint_hash v)) c
    else c.

Definition register_region (i : nat) (t : Thread) (s : System) : System :=
  let c := ctl s in
  if negb (current (t_request t) c)
  then set_thread i t PcDone (set_procs (terminate i (procs s)) s)
  else set_thread i t PcLatch
         (with_ctl (fun c => MkController (view c) (c_serial c) (stopped_owners c) (Some i) (Some (t_path t))) s).

(** One step of thread [i]; an event that does not fit its place changes nothing. *)
Definition thread_step (i : nat) (ev : Event) (s : System) : System :=
  match threads s !! i with
  | None => s
  | Some t =>
    let r := t_request t in
    match pc t, ev with
    | PcPaths, EvPaths =>
      match paths r with
      | Err e => set_thread i t (PcFailed e) s
      | Ok (_, state) => set_thread i (MkThread r (pc t) state) PcAllowed s
      end
    | PcAllowed, EvSpawn permitted spawned job_ok =>
      if negb permitted then set_thread i t (PcFailed (lit "PERMISSION_CHANGED")) s
      else if negb spawned then set_thread i t (PcFailed (lit "START_FAILED")) s
      else if negb job_ok then set_thread i t (PcFailed (lit "JOB_FAILED")) (set_procs (<[i := MkProc false false]> (procs s)) s)
      else set_thread i t PcSpawned (set_procs (<[i := MkProc true false]> (procs s)) s)
    | PcSpawned, EvPermitted permitted =>
      if permitted then set_thread i t PcRegister s
      else set_thread i t PcDone (set_procs (terminate i (procs s)) s)
    | PcRegister, EvLock => register_region i t s
    | PcLatch, EvPermitted permitted =>
      if permitted then set_thread i t PcWrite s
      else set_thread i t PcDone (set_procs (terminate i (procs s)) s)
    | PcWrite, EvWrite ok =>
      if ok then set_thread i t PcRead (set_procs (alter (fun p => MkProc (alive p) true) i (procs s)) s)
      else set_thread i t (PcFailed (lit "START_FAILED")) (set_procs (alter (fun p => MkProc (alive p) true) i (procs s)) s)
    | PcRead, EvLine line => read_line i t line s
    | PcRead, EvReadError => set_thread i t (PcFailed (lit "RUNTIME_FAILED")) s
    | PcUpdate ph cd dev st, EvPermitted permitted =>
      set_thread i t PcRead (with_ctl (update permitted r ph cd dev st) s)
    | PcRead, EvWait ok success permitted =>
      if negb ok then set_thread i t (PcFailed (lit "RUNTIME_FAILED")) s
      else
        let s := set_procs (alter killed i (procs s)) s in
        if negb permitted then set_thread i t PcDone s else set_thread i t (PcFinish success) s
    | PcFinish success, EvLock => set_thread i t PcDone (with_ctl (finish_region r success) s)
    | PcFailed e, EvLock =>
      set_thread i t (PcReport e) (if current r (ctl s) then take_job s else s)
    | PcReport e, EvPermitted permitted =>
      set_thread i t PcDone (with_ctl (update permitted r (lit "error") e [] []) s)
    | _, _ => s
    end
  end.

End Execute.

(** ** Reachable states *)

Definition unregistered (p : Pc) : bool := match p with PcSpawned | PcRegister => true | _ => false end.
Definition held (p : Pc) : bool :=
  match p with PcLatch | PcWrite | PcRead | PcUpdate _ _ _ _ | PcFailed _ => true | _ => false end.

Section Reachable.
Context `{!Files}.
Implicit Types (s : System) (t : Thread) (i : nat).

Inductive step : System -> System -> Prop :=
| step_stop_all s : step s (stop_all s)
| step_command parse permitted value s : step s (command parse permitted value s)
| step_thread i ev s : step s (thread_step i ev s)
| step_exit i s : step s (set_procs (terminate i (procs s)) s).

(** Why a helper process may be alive. *)
Definition accounted s i (p : Proc) t : Prop :=
  (unregistered (pc t) = true /\ latched p = false) \/
  (held (pc t) = true /\ job (ctl s) = Some i /\ current (t_request t) (ctl s) = true).

Record Inv s : Prop := {
  inv_owner : v_owner (view (ctl s)) ∉ stopped_owners (ctl s);
  inv_empty : [] ∉ stopped_owners (ctl s);
  inv_serial : is_u 64 (c_serial (ctl s));
  inv_threads i t : threads s !! i = Some t -> (i < next s)%nat /\ serial (t_request t) <= c_serial (ctl s);
  inv_distinct i j ti tj : threads s !! i = Some ti -> threads s !! j = Some tj ->
    serial (t_request ti) = serial (t_request tj) -> i = j;
  inv_alive i p : procs s !! i = Some p -> alive p = true -> exists t, threads s !! i = Some t /\ accounted s i p t }.

Lemma init_system_inv : Inv init_system.
Proof.
  split; simpl; try set_solver; try (unfold is_u; lia).
Qed.

Lemma current_iff r c : current r c = true <-> v_owner (view c) = owner r /\ c_serial c = serial r.
Proof.
  unfold current. split; [intros Hc; by bools|]. intros [Ho Hs].
  rewrite bool_decide_true by done. by apply Z.eqb_eq.
Qed.

(** Regions that touch neither owner, serial, stopped owners nor job. *)
Lemma inv_with_ctl f s :
  Inv s -> v_owner (view (f (ctl s))) = v_owner (view (ctl s)) -> c_serial (f (ctl s)) = c_serial (ctl s) ->
  stopped_owners (f (ctl s)) = stopped_owners (ctl s) -> job (f (ctl s)) = job (ctl s) -> Inv (with_ctl f s).
Proof.
  intros [Ho He Hs Ht Hd Ha] E1 E2 E3 E4. split; simpl; rewrite ?E1, ?E2, ?E3; auto.
  intros i p Hp Hl. destruct (Ha i p Hp Hl) as (t & Hti & Hacc). exists t. split; [done|].
  destruct Hacc as [?|(? & ? & Hc)]; [by left|right]. simpl. rewrite E4. split; [done|split; [done|]].
  apply current_iff in Hc. apply current_iff. simpl. by rewrite E1, E2.
Qed.

Lemma inv_set_thread i t t' p s :
  Inv s -> threads s !! i = Some t -> t_request t' = t_request t ->
  (forall pr, procs s !! i = Some pr -> alive pr = true -> accounted s i pr (MkThread (t_request t) p (t_path t'))) ->
  Inv (set_thread i t' p s).
Proof.
  intros [Ho He Hs Ht Hd Ha] Hi Hr Hacc. split; simpl; auto.
  - intros j tj. rewrite lookup_insert_Some. intros [[<- <-]|[_ Hj]]; simpl; [rewrite Hr|]; eauto.
  - intros j k tj tk. rewrite !lookup_insert_Some. intros [[<- <-]|[Hij Hj]] [[<- <-]|[Hik Hk]]; simpl; rewrite ?Hr; eauto.
  - intros j pr Hp Hl. destruct (decide (i = j)) as [<-|Hij].
    + rewrite lookup_insert_eq. eexists. split; [done|]. rewrite Hr. by apply Hacc.
    + rewrite lookup_insert_ne by done. destruct (Ha j pr Hp Hl) as (tj & Hj & Hb). exists tj. done.
Qed.

Lemma inv_kill i s : Inv s -> Inv (set_procs (terminate i (procs s)) s).
Proof.
  intros [Ho He Hs Ht Hd Ha]. split; simpl; auto. intros j p. unfold terminate.
  rewrite lookup_alter_Some. intros [(-> & p0 & Hp & ->)|[_ Hp]] Hl; [done|].
  destruct (Ha j p Hp Hl) as (t & Hj & Hb). exists t. done.
Qed.

Lemma kill_dead i s p : procs (set_procs (terminate i (procs s)) s) !! i = Some p -> alive p = true -> False.
Proof. simpl. unfold terminate. rewrite lookup_alter_eq. intros ?%fmap_Some. destruct_and?. naive_solver. Qed.

Lemma inv_kill_set_thread i t t' p s :
  Inv s -> threads s !! i = Some t -> t_request t' = t_request t ->
  Inv (set_thread i t' p (set_procs (terminate i (procs s)) s)).
Proof.
  intros Hi Ht Hr. eapply inv_set_thread; [by apply inv_kill|exact Ht|done|].
  intros pr Hp Hl. by destruct (kill_dead _ _ _ Hp Hl).
Qed.

(** After [take_job] only helpers that never got the latch are alive. *)
Lemma take_job_alive s i p : Inv s -> procs (take_job s) !! i = Some p -> alive p = true ->
  exists t, threads s !! i = Some t /\ unregistered (pc t) = true /\ latched p = false.
Proof.
  intros Hinv. unfold take_job. destruct (job (ctl s)) as [j|] eqn:Hj; simpl.
  - unfold terminate. rewrite lookup_alter_Some. intros [(-> & p0 & Hp & ->)|[Hne Hp]] Hl; [done|].
    destruct (inv_alive _ Hinv i p Hp Hl) as (t & Ht & [[Hu Hla]|(_ & Hjob & _)]); [by exists t|congruence].
  - intros Hp Hl. destruct (inv_alive _ Hinv i p Hp Hl) as (t & Ht & [[Hu Hla]|(_ & Hjob & _)]); [by exists t|congruence].
Qed.

Lemma take_job_same s :
  threads (take_job s) = threads s /\ next (take_job s) = next s /\ view (ctl (take_job s)) = view (ctl s) /\
  c_serial (ctl (take_job s)) = c_serial (ctl s) /\ stopped_owners (ctl (take_job s)) = stopped_owners (ctl s).
Proof. unfold take_job. by destruct (job (ctl s)). Qed.

Definition sroom s : Prop := c_serial (ctl s) + 1 < 2 ^ 64.

Lemma u64_succ x : is_u 64 x -> x + 1 < 2 ^ 64 -> u64_add x 1 = x + 1.
Proof. unfold u64_add. intros. apply wrapu_small. unfold is_u in *. lia. Qed.

(** Stopping the current command, with its owner recorded or not. *)
Lemma stop_inv s : Inv s -> sroom s -> [] ∉ stopped_owners (ctl s) -> Inv (with_ctl mark_stopped (take_job s)).
Proof.
  intros Hinv Hroom Hne. destruct (take_job_same s) as (E1 & E2 & E3 & E4 & E5). unfold sroom in Hroom.
  pose proof (inv_serial _ Hinv) as Hser.
  split; simpl; rewrite ?E1, ?E2, ?E3, ?E4, ?E5, ?u64_succ by done; auto.
  - unfold is_u in *. lia.
  - intros i t Ht. destruct (inv_threads _ Hinv i t Ht). lia.
  - apply (inv_distinct _ Hinv).
  - intros i p Hp Hl. destruct (take_job_alive s i p Hinv Hp Hl) as (t & Ht & Hu & Hla). exists t. split; [done|by left].
Qed.

Lemma valid_owner_nonempty o : valid_owner o = true -> o <> [].
Proof. intros Hv ->. done. Qed.

Lemma add_stopped_alive o s : Inv s -> forall i p, procs s !! i = Some p -> alive p = true ->
  exists t, threads s !! i = Some t /\ accounted (with_ctl (add_stopped o) s) i p t.
Proof. intros Hinv i p Hp Hl. destruct (inv_alive _ Hinv i p Hp Hl) as (t & Ht & Hacc). by exists t. Qed.

(** The same with the current owner recorded first. *)
Lemma stop_owner_inv o s : Inv s -> sroom s -> o <> [] -> v_owner (view (ctl s)) = o ->
  Inv (with_ctl mark_stopped (take_job (with_ctl (add_stopped o) s))).
Proof.
  intros Hinv Hroom Hne Ho. set (s1 := with_ctl (add_stopped o) s).
  destruct (take_job_same s1) as (E1 & E2 & E3 & E4 & E5). unfold sroom in Hroom.
  pose proof (inv_serial _ Hinv) as Hser. pose proof (inv_empty _ Hinv) as Hemp.
  split; simpl; rewrite ?E1, ?E2, ?E3, ?E4, ?E5; simpl; rewrite ?u64_succ by done.
  - set_solver.
  - set_solver.
  - unfold is_u in *. lia.
  - intros i t Ht. destruct (inv_threads _ Hinv i t Ht). lia.
  - apply (inv_distinct _ Hinv).
  - intros i p Hp Hl. unfold take_job in Hp. simpl in Hp.
    destruct (take_job_alive s i p Hinv) as (t & Ht & Hu & Hla); [|done|].
    + unfold take_job. by destruct (job (ctl s)).
    + exists t. split; [done|by left].
Qed.

Lemma stop_all_inv s : Inv s -> sroom s -> Inv (stop_all s).
Proof.
  intros Hinv Hroom. unfold stop_all. case_bool_decide as Ho.
  - by apply stop_inv; [| |apply (inv_empty _ Hinv)].
  - by apply stop_owner_inv.
Qed.

Lemma command_stop_inv o s : Inv s -> sroom s -> o <> [] -> Inv (command_stop o s).
Proof.
  intros Hinv Hroom Hne. unfold command_stop. simpl. case_bool_decide as Ho; [by apply stop_owner_inv|].
  destruct Hinv as [Ho' He Hs Ht Hd Ha]. split; simpl; auto; set_solver.
Qed.

Lemma command_start_inv b r s : Inv s -> sroom s -> owner r <> [] -> Inv (command_start b r s).
Proof.
  intros Hinv Hroom Hne. unfold command_start. destruct (negb _); [done|]. case_bool_decide as Hst; [done|].
  destruct (take_job_same s) as (E1 & E2 & E3 & E4 & E5). unfold sroom in Hroom.
  pose proof (inv_serial _ Hinv) as Hser.
  split; simpl; rewrite ?E1, ?E2, ?E4, ?E5, ?u64_succ by done; auto.
  - apply (inv_empty _ Hinv).
  - unfold is_u in *. lia.
  - intros i t. rewrite lookup_insert_Some. intros [[<- <-]|[_ Ht]]; simpl; [lia|].
    destruct (inv_threads _ Hinv i t Ht). lia.
  - intros i j ti tj. rewrite !lookup_insert_Some.
    intros [[<- <-]|[Hi Hti]] [[<- <-]|[Hj Htj]]; simpl; intros Heq; auto.
    + destruct (inv_threads _ Hinv j tj Htj). lia.
    + destruct (inv_threads _ Hinv i ti Hti). lia.
    + by apply (inv_distinct _ Hinv i j ti tj).
  - intros i p Hp Hl. destruct (take_job_alive s i p Hinv Hp Hl) as (t & Ht & Hu & Hla).
    destruct (inv_threads _ Hinv i t Ht). exists t. split; [|by left].
    rewrite lookup_insert_ne by lia. done.
Qed.

Lemma command_inv parse permitted value s : Inv s -> sroom s -> Inv (command parse permitted value s).
Proof.
  intros Hinv Hroom. unfold command. destruct (8192 <? _); [done|]. destruct (parse value) as [r|]; [|done].
  destruct (valid_owner (owner r)) eqn:Hv; [|done]. apply valid_owner_nonempty in Hv. simpl.
  case_bool_decide; [by apply command_stop_inv|by apply command_start_inv].
Qed.

(** A thread that moves between two places of the same class. *)
Lemma inv_move i t t' p s :
  Inv s -> threads s !! i = Some t -> t_request t' = t_request t ->
  (unregistered (pc t) = true -> unregistered p = true) ->
  (held (pc t) = true -> held p = true) -> Inv (set_thread i t' p s).
Proof.
  intros Hinv Hi Hr Hu Hh. eapply inv_set_thread; [done..|]. intros pr Hp Hl.
  destruct (inv_alive _ Hinv i pr Hp Hl) as (t0 & Ht0 & Hacc). assert (t0 = t) as -> by congruence.
  destruct Hacc as [[Hun Hla]|(Hhe & Hj & Hc)]; [left|right; simpl; auto].
  auto.
Qed.

(** A place that no live helper can be at. *)
Lemma not_alive_at i t s : Inv s -> threads s !! i = Some t -> unregistered (pc t) = false -> held (pc t) = false ->
  forall pr, procs s !! i = Some pr -> alive pr = true -> False.
Proof.
  intros Hinv Hi Hu Hh pr Hp Hl. destruct (inv_alive _ Hinv i pr Hp Hl) as (t0 & Ht0 & Hacc).
  assert (t0 = t) as -> by congruence. destruct Hacc as [[? _]|[? _]]; congruence.
Qed.

Lemma inv_dead_move i t t' p s :
  Inv s -> threads s !! i = Some t -> t_request t' = t_request t ->
  unregistered (pc t) = false -> held (pc t) = false -> Inv (set_thread i t' p s).
Proof.
  intros Hinv Hi Hr Hu Hh. eapply inv_set_thread; [done..|]. intros pr Hp Hl.
  by destruct (not_alive_at i t s Hinv Hi Hu Hh pr Hp Hl).
Qed.

Lemma inv_spawn i t p pr s :
  Inv s -> threads s !! i = Some t -> (alive pr = true -> unregistered p = true /\ latched pr = false) ->
  Inv (set_thread i t p (set_procs (<[i := pr]> (procs s)) s)).
Proof.
  intros [Ho He Hs Ht Hd Ha] Hi Hpr. split; simpl; auto.
  - intros j tj. rewrite lookup_insert_Some. intros [[<- <-]|[_ Hj]]; simpl; eauto.
  - intros j k tj tk. rewrite !lookup_insert_Some. intros [[<- <-]|[Hij Hj]] [[<- <-]|[Hik Hk]]; simpl; eauto.
  - intros j q. destruct (decide (i = j)) as [<-|Hij].
    + rewrite !lookup_insert_eq. intros [= <-] Hl. eexists. split; [done|]. left. by apply Hpr.
    + rewrite !lookup_insert_ne by done. intros Hq Hl. destruct (Ha j q Hq Hl) as (tj & Hj & Hb). exists tj. done.
Qed.

(** Writing the latch to a registered helper. *)
Lemma inv_latch i t p s :
  Inv s -> threads s !! i = Some t -> unregistered (pc t) = false -> held p = true ->
  Inv (set_thread i t p (set_procs (alter (fun q => MkProc (alive q) true) i (procs s)) s)).
Proof.
  intros [Ho He Hs Ht Hd Ha] Hi Hu Hh. split; simpl; auto.
  - intros j tj. rewrite lookup_insert_Some. intros [[<- <-]|[_ Hj]]; simpl; eauto.
  - intros j k tj tk. rewrite !lookup_insert_Some. intros [[<- <-]|[Hij Hj]] [[<- <-]|[Hik Hk]]; simpl; eauto.
  - intros j q. rewrite lookup_alter_Some. intros [(<- & q0 & Hq & ->)|[Hij Hq]] Hl.
    + rewrite lookup_insert_eq. eexists. split; [done|]. destruct (Ha i q0 Hq Hl) as (t0 & Ht0 & Hacc).
      assert (t0 = t) as -> by congruence. destruct Hacc as [[? _]|(_ & Hj & Hc)]; [congruence|]. by right.
    + rewrite lookup_insert_ne by done. destruct (Ha j q Hq Hl) as (tj & Hj & Hb). exists tj. done.
Qed.

Lemma inv_register i t s : Inv s -> threads s !! i = Some t -> Inv (register_region i t s).
Proof.
  intros Hinv Hi. unfold register_region. destruct (current (t_request t) (ctl s)) eqn:Hc; simpl;
    [|by eapply inv_kill_set_thread].
  destruct Hinv as [Ho He Hs Ht Hd Ha]. split; simpl; auto.
  - intros j tj. rewrite lookup_insert_Some. intros [[<- <-]|[_ Hj]]; simpl; eauto.
  - intros j k tj tk. rewrite !lookup_insert_Some. intros [[<- <-]|[Hij Hj]] [[<- <-]|[Hik Hk]]; simpl; eauto.
  - intros j q Hq Hl. destruct (decide (i = j)) as [<-|Hij].
    + rewrite lookup_insert_eq. eexists. split; [done|]. by right.
    + rewrite lookup_insert_ne by done. destruct (Ha j q Hq Hl) as (tj & Hj & [Hb|(_ & _ & Hcj)]).
      * exists tj. split; [done|by left].
      * destruct Hij. apply current_iff in Hc as [_ Hc]. apply current_iff in Hcj as [_ Hcj].
        apply (Hd i j t tj); [done..|congruence].
Qed.

Lemma inv_take_job s : Inv s -> Inv (take_job s).
Proof.
  intros Hinv. destruct (take_job_same s) as (E1 & E2 & E3 & E4 & E5). pose proof Hinv as [Ho He Hs Ht Hd Ha].
  split; rewrite ?E1, ?E2, ?E3, ?E4, ?E5; auto. intros i p Hp Hl.
  destruct (take_job_alive s i p Hinv Hp Hl) as (t & Hi & Hu & Hla). exists t. split; [done|by left].
Qed.

Lemma finish_same r b c :
  v_owner (view (finish_region r b c)) = v_owner (view c) /\ c_serial (finish_region r b c) = c_serial c /\
  stopped_owners (finish_region r b c) = stopped_owners c.
Proof. unfold finish_region. repeat case_match; done. Qed.

Lemma update_same b r ph cd dev st c :
  v_owner (view (update b r ph cd dev st c)) = v_owner (view c) /\ c_serial (update b r ph cd dev st c) = c_serial c /\
  stopped_owners (update b r ph cd dev st c) = stopped_owners c /\ job (update b r ph cd dev st c) = job c.
Proof. unfold update. repeat case_match; done. Qed.

(** The final region: no other helper can be alive as the registered one. *)
Lemma inv_finish i t b s : Inv s -> threads s !! i = Some t -> pc t = PcFinish b ->
  Inv (with_ctl (finish_region (t_request t) b) s).
Proof.
  intros Hinv Hi Hpc. destruct (finish_same (t_request t) b (ctl s)) as (E1 & E2 & E3).
  destruct (current (t_request t) (ctl s)) eqn:Hc.
  2:{ apply inv_with_ctl; auto. unfold finish_region. by rewrite Hc. }
  pose proof Hinv as [Ho He Hs Ht Hd Ha]. split; simpl; rewrite ?E1, ?E2, ?E3; auto.
  intros j q Hq Hl. destruct (Ha j q Hq Hl) as (tj & Hj & [Hb|(Hh & _ & Hcj)]); [exists tj; split; [done|by left]|].
  exfalso. apply current_iff in Hc as [_ Hc]. apply current_iff in Hcj as [_ Hcj].
  assert (i = j) as <- by (apply (Hd i j t tj); [done..|congruence]).
  assert (t = tj) as <- by congruence. by rewrite Hpc in Hh.
Qed.

Lemma read_line_inv i t line s : Inv s -> threads s !! i = Some t -> pc t = PcRead -> Inv (read_line i t line s).
Proof.
  intros Hinv Hi Hpc. unfold read_line. destruct (8192 <? _); [by eapply inv_kill_set_thread|].
  destruct (json_value (str_bytes line)) as [value|]; [|done]. destruct (negb _); [done|].
  case_bool_decide.
  - eapply inv_move; [|exact Hi|done|by rewrite Hpc|by rewrite Hpc].
    apply inv_with_ctl; [done|..]; unfold store_identity; by destruct (current _ _).
  - eapply inv_move; [done|exact Hi|done|by rewrite Hpc|by rewrite Hpc].
Qed.

Lemma thread_step_inv i ev s : Inv s -> Inv (thread_step i ev s).
Proof.
  intros Hinv. unfold thread_step. destruct (threads s !! i) as [t|] eqn:Hi; [|done].
  destruct (pc t) eqn:Hpc; destruct ev; try done;
    repeat match goal with
    | |- context [if negb ?b then _ else _] => destruct b; simpl
    | |- Inv (if ?b then _ else _) => destruct b
    | |- context [match paths ?r with _ => _ end] => destruct (paths r) as [[? ?]|]
    end;
    try (by eapply inv_kill_set_thread);
    try (by apply inv_register);
    try (by apply read_line_inv);
    try (by apply inv_latch; rewrite ?Hpc);
    try (by apply inv_spawn);
    try (eapply inv_move; [done|exact Hi|done|rewrite Hpc; by auto|rewrite Hpc; by auto]).
  - (* update *)
    destruct (update_same permitted (t_request t) phase0 code0 device state (ctl s)) as (? & ? & ? & ?).
    eapply inv_move; [by apply inv_with_ctl|exact Hi|done|by rewrite Hpc|by rewrite Hpc].
  - (* finish *)
    eapply inv_dead_move; [by apply (inv_finish i)|exact Hi|done|by rewrite Hpc|by rewrite Hpc].
  - (* failed *) destruct (current (t_request t) (ctl s)) eqn:Hc.
    + eapply inv_set_thread; [by apply inv_take_job|by rewrite (proj1 (take_job_same s))|done|].
      intros pr Hp Hl. destruct (take_job_alive s i pr Hinv Hp Hl) as (t0 & Ht0 & Hu & _).
      assert (t0 = t) as -> by congruence. by rewrite Hpc in Hu.
    + eapply inv_set_thread; [done..|]. intros pr Hp Hl.
      destruct (inv_alive _ Hinv i pr Hp Hl) as (t0 & Ht0 & Hacc). assert (t0 = t) as -> by congruence.
      destruct Hacc as [[Hu _]|(_ & _ & Hcc)]; [by rewrite Hpc in Hu|congruence].
  - (* report *)
    destruct (update_same permitted (t_request t) (lit "error") code0 [] [] (ctl s)) as (? & ? & ? & ?).
    eapply inv_dead_move; [by apply inv_with_ctl|exact Hi|done|by rewrite Hpc|by rewrite Hpc].
Qed.

Lemma system_step_inv s s' : Inv s -> sroom s -> step s s' -> Inv s'.
Proof.
  intros Hinv Hroom Hs. destruct Hs; [by apply stop_all_inv|by apply command_inv|by apply thread_step_inv|by apply inv_kill].
Qed.

End Reachable.

(** ** Runs *)

Section Runs.
Context `{!Files}.
Implicit Types (s : System) (t : Thread) (i : nat).

Lemma thread_step_same i ev s :
  c_serial (ctl (thread_step i ev s)) = c_serial (ctl s) /\
  stopped_owners (ctl (thread_step i ev s)) = stopped_owners (ctl s) /\
  forall j t, threads s !! j = Some t -> exists t', threads (thread_step i ev s) !! j = Some t' /\ t_request t' = t_request t.
Proof.
  assert (Hset : forall s0 t0 t1 p, threads s0 !! i = Some t0 -> t_request t1 = t_request t0 ->
    forall j t, threads s0 !! j = Some t -> exists t', threads (set_thread i t1 p s0) !! j = Some t' /\ t_request t' = t_request t).
  { intros s0 t0 t1 p H0 Hr j t Hj. simpl. destruct (decide (i = j)) as [<-|Hne].
    - rewrite lookup_insert_eq. eexists. split; [done|]. simpl. congruence.
    - rewrite lookup_insert_ne by done. eauto. }
  unfold thread_step. destruct (threads s !! i) as [t|] eqn:Hi; [|by eauto].
  destruct (pc t) eqn:Hpc; destruct ev; try (by eauto);
    unfold register_region, read_line;
    repeat match goal with
    | |- context [if negb ?b then _ else _] => destruct b; simpl
    | |- context [match paths ?r with _ => _ end] => destruct (paths r) as [[? ?]|]
    | |- context [match json_value ?r with _ => _ end] => destruct (json_value r)
    | |- context [if ?b then _ else _] => destruct b; simpl
    end; try (split; [done|split; [done|]]; (by eauto || (by eapply Hset; [..|done]))).
  all: try (by split; [|split; [|eapply Hset; done]]; simpl; unfold store_identity; case_match).
  - split; [apply update_same|]. split; [apply update_same|]. apply (Hset (with_ctl _ s) t t _ Hi eq_refl).
  - split; [apply finish_same|]. split; [apply finish_same|]. apply (Hset (with_ctl _ s) t t _ Hi eq_refl).
  - destruct (take_job_same s) as (E1 & _ & _ & E4 & E5). split; [done|split; [done|]].
    intros j tj Hj. rewrite <- E1 in Hi, Hj. exact (Hset (take_job s) t t _ Hi eq_refl j tj Hj).
  - split; [apply update_same|]. split; [apply update_same|]. apply (Hset (with_ctl _ s) t t _ Hi eq_refl).
Qed.

(** What any step keeps: stopped owners stay, serials do not go back, threads
    keep their requests. *)
Record Grows s s' : Prop := {
  grow_serial : c_serial (ctl s) <= c_serial (ctl s') <= c_serial (ctl s) + 1;
  grow_stopped : stopped_owners (ctl s) ⊆ stopped_owners (ctl s');
  grow_threads i t : threads s !! i = Some t -> exists t', threads s' !! i = Some t' /\ t_request t' = t_request t }.

Lemma stop_grows s1 s : Inv s -> sroom s -> ctl s1 = ctl s \/ (exists o, ctl s1 = add_stopped o (ctl s)) ->
  threads s1 = threads s -> Grows s (with_ctl mark_stopped (take_job s1)).
Proof.
  intros Hinv Hroom Hc Ht. destruct (take_job_same s1) as (E1 & _ & _ & E4 & E5).
  unfold sroom in Hroom. pose proof (inv_serial _ Hinv) as Hser.
  split; simpl; rewrite ?E1, ?E4, ?E5, ?Ht; [| |by eauto];
    (destruct Hc as [->|[o ->]]; simpl; [|]; rewrite ?u64_succ by done; (lia || set_solver)).
Qed.

Lemma step_grows s s' : Inv s -> sroom s -> step s s' -> Grows s s'.
Proof.
  intros Hinv Hroom Hs. pose proof (inv_serial _ Hinv) as Hser. destruct Hs as [s|parse permitted value s|i ev s|i s].
  - unfold stop_all. case_bool_decide; apply stop_grows; eauto.
  - unfold command. destruct (8192 <? _); [split; [lia|done|eauto]|].
    destruct (parse value) as [r|]; [|split; [lia|done|eauto]]. destruct (negb _); [split; [lia|done|eauto]|].
    case_bool_decide.
    + unfold command_stop. simpl. case_bool_decide; [apply stop_grows; eauto|].
      split; simpl; [lia|set_solver|eauto].
    + unfold command_start. destruct (negb _); [split; [lia|done|eauto]|]. case_bool_decide; [split; [lia|done|eauto]|].
      destruct (take_job_same s) as (E1 & E2 & _ & E4 & E5). unfold sroom in Hroom.
      split; simpl; rewrite ?E1, ?E2, ?E4, ?E5; [rewrite u64_succ by done; lia|done|].
      intros i t Ht. destruct (inv_threads _ Hinv i t Ht). rewrite lookup_insert_ne by lia. eauto.
  - destruct (thread_step_same i ev s) as (E1 & E2 & Ht). split; [lia|set_solver|done].
  - split; simpl; [lia|done|eauto].
Qed.

Lemma nsteps_inv n s s' : nsteps step n s s' -> Inv s -> c_serial (ctl s) + Z.of_nat n < 2 ^ 64 ->
  Inv s' /\ c_serial (ctl s) <= c_serial (ctl s') <= c_serial (ctl s) + Z.of_nat n /\
  stopped_owners (ctl s) ⊆ stopped_owners (ctl s') /\
  forall i t, threads s !! i = Some t -> exists t', threads s' !! i = Some t' /\ t_request t' = t_request t.
Proof.
  induction 1 as [s|n s s1 s2 Hs Hn IH]; intros Hinv Hroom.
  - repeat (split; [done || lia|]). eauto.
  - assert (Hr : sroom s) by (unfold sroom; lia).
    pose proof (step_grows _ _ Hinv Hr Hs) as [Hg1 Hg2 Hg3].
    destruct (IH (system_step_inv _ _ Hinv Hr Hs)) as (Hinv2 & Hb & Hsub & Hth); [lia|].
    split; [done|split; [lia|split; [set_solver|]]]. intros i t Ht. destruct (Hg3 i t Ht) as (t1 & Ht1 & E1).
    destruct (Hth i t1 Ht1) as (t2 & Ht2 & E2). exists t2. split; [done|congruence].
Qed.

(** Reachable from the initial state in [n] steps. *)
Definition reachable (n : nat) s : Prop := nsteps step n init_system s /\ Z.of_nat n < 2 ^ 63.

Lemma reachable_inv n s : reachable n s -> Inv s /\ c_serial (ctl s) < 2 ^ 63.
Proof.
  intros [Hn Hb]. destruct (nsteps_inv n _ _ Hn init_system_inv) as (Hinv & Hser & _); [simpl; lia|].
  split; [done|]. simpl in Hser. lia.
Qed.

Lemma thread_events_run i (evs : list Event) s :
  nsteps step (length evs) s (foldl (fun s ev => thread_step i ev s) s evs).
Proof. revert s. induction evs as [|ev evs IH]; intros s; simpl; econstructor; [constructor|apply IH]. Qed.

(** A live helper that may act belongs to the current command. *)
Lemma acting_is_current s i p : Inv s -> procs s !! i = Some p -> alive p = true -> latched p = true ->
  exists t, threads s !! i = Some t /\ v_owner (view (ctl s)) = owner (t_request t) /\
    c_serial (ctl s) = serial (t_request t) /\ job (ctl s) = Some i.
Proof.
  intros Hinv Hp Hl Hla. destruct (inv_alive _ Hinv i p Hp Hl) as (t & Ht & [[_ ?]|(_ & Hj & Hc)]); [congruence|].
  apply current_iff in Hc as [? ?]. exists t. done.
Qed.

End Runs.

(** ** A concrete installation, for the witnesses *)
Module ExampleRuntime.

Definition hex64 : str := replicate 64 97.
Definition fields (_ : unit) (n : str) : option str :=
  if bool_decide (n ∈ [lit "version"; lit "agent"; lit "client"]) then Some (lit "14.0.1")
  else if bool_decide (n = lit "parent_executable") then Some (lit "nestlink")
  else if bool_decide (n ∈ [lit "helper_sha256"; lit "agent_sha256"]) then Some hex64
  else if bool_decide (n = lit "phase") then Some (lit "running")
  else None.

#[global] Instance example_files : Files := {|
  windows := false;
  fs_meta p := Some (MkMeta (negb (ends_with (lit "tunnel-runtime") p)) (ends_with (lit "tunnel-runtime") p) false 493 0);
  fs_read _ := Some [];
  create_dir_all _ := true;
  dir_meta _ := Some (MkMeta false true false 448 0);
  exe_parent := Some (lit "/opt/nestlink");
  exe_name := Some (lit "nestlink");
  config_dir := Some (lit "/home/u/.config/nestlink");
  hex_sha256 _ := hex64;
  jvalue := unit; json_value _ := Some tt; json_str := fields; json_field v _ := v;
  compatibility := Some tt; CARGO_PKG_VERSION := lit "14.0.1" |}.

Definition owner1 : str := lit "0123456789abcdef0123456789abcdef".
Definition request1 : Request :=
  MkRequest (lit "run") owner1 (lit "https://home.example.com") (lit "12345678-1234-1234-1234-123456789abc")
    (lit "1") (lit "pc") [] 0.
Definition parse1 (_ : str) : option Request := Some request1.

(** The command, then its thread up to reading the helper's output. *)
Definition events : list Event :=
  [EvPaths; EvSpawn true true true; EvPermitted true; EvLock; EvPermitted true; EvWrite true].
Definition started : System := command parse1 (fun _ => true) [] init_system.
Definition running : System := foldl (fun s ev => thread_step 0 ev s) started events.

Lemma running_reachable : reachable 7 running.
Proof.
  split; [|lia]. apply (nsteps_l _ _ _ started); [constructor|]. apply (thread_events_run 0 events started).
Qed.

Example running_acts : procs running !! 0%nat = Some (MkProc true true).
Proof. vm_compute. reflexivity. Qed.

End ExampleRuntime.

(** ** Properties *)
Module TunnelRuntimeClaims.

Section Claims.
Context `{!Files}.
Implicit Types (s : System) (t : Thread) (i : nat) (p : Proc).

(** C29: A stopped owner never runs again: once an owner has been stopped, it is
    never the current owner in any later state, and no helper started for it
    can act (be alive with the latch), whatever commands and threads do. *)
Theorem stopped_owner_never_runs (n m : nat) s s' (o : str)
    (Hreach : reachable n s) (Hrun : nsteps step m s s') (Hm : Z.of_nat m < 2 ^ 63)
    (Hstopped : o ∈ stopped_owners (ctl s)) :
  v_owner (view (ctl s')) <> o /\
  forall i t p, threads s' !! i = Some t -> owner (t_request t) = o -> procs s' !! i = Some p ->
    alive p && latched p = false.
Proof.
  destruct (reachable_inv _ _ Hreach) as [Hinv Hser].
  destruct (nsteps_inv _ _ _ Hrun Hinv) as (Hinv' & _ & Hsub & _); [lia|].
  assert (Hne : v_owner (view (ctl s')) <> o).
  { intros E. apply (inv_owner _ Hinv'). rewrite E. by apply Hsub. }
  split; [done|]. intros i t p Ht Ho Hp. apply andb_false_iff.
  destruct (alive p) eqn:Hl; [|by left]. destruct (latched p) eqn:Hla; [|by right].
  destruct (acting_is_current _ _ _ Hinv' Hp Hl Hla) as (t' & Ht' & Hown & _). congruence.
Qed.

(** Stopping is synchronous: after [stop_all] no helper that had been started
    can act, immediately and in every later state, including helpers whose
    threads were in the middle of starting them. *)
Theorem stop_all_silences_helpers (n m : nat) s s' (Hreach : reachable n s)
    (Hrun : nsteps step m (stop_all s) s') (Hm : Z.of_nat m < 2 ^ 62) :
  forall i p, is_Some (threads s !! i) -> procs s' !! i = Some p -> alive p && latched p = false.
Proof.
  intros i p [t Ht] Hp. destruct (reachable_inv _ _ Hreach) as [Hinv Hser].
  assert (Hroom : sroom s) by (unfold sroom; lia).
  pose proof (stop_all_inv s Hinv Hroom) as Hinv1. pose proof (step_grows _ _ Hinv Hroom (step_stop_all s)) as [_ _ Hth].
  assert (Hs1 : c_serial (ctl (stop_all s)) = c_serial (ctl s) + 1).
  { unfold stop_all. simpl. rewrite <- (u64_succ (c_serial (ctl s))) by (done || apply (inv_serial _ Hinv)).
    f_equal. case_bool_decide; [apply take_job_same|].
    destruct (take_job_same (with_ctl (add_stopped (v_owner (view (ctl s)))) s)) as (_ & _ & _ & E & _). exact E. }
  destruct (nsteps_inv _ _ _ Hrun Hinv1) as (Hinv' & Hmono & _ & Hth'); [lia|].
  destruct (Hth i t Ht) as (t1 & Ht1 & E1). destruct (Hth' i t1 Ht1) as (t2 & Ht2 & E2).
  destruct (inv_threads _ Hinv i t Ht) as [_ Hle]. apply andb_false_iff.
  destruct (alive p) eqn:Hl; [|by left]. destruct (latched p) eqn:Hla; [|by right].
  destruct (acting_is_current _ _ _ Hinv' Hp Hl Hla) as (t' & Ht' & _ & Hc & _).
  assert (t' = t2) as -> by congruence. rewrite E2, E1 in Hc. lia.
Qed.

(** C30: At most one helper can act at a time, and it is the registered job of the
    command the controller shows. *)
Theorem one_acting_helper (n : nat) s i j p q (Hreach : reachable n s)
    (Hi : procs s !! i = Some p) (Hj : procs s !! j = Some q)
    (Hp : alive p && latched p = true) (Hq : alive q && latched q = true) :
  i = j /\ job (ctl s) = Some i /\
  exists t, threads s !! i = Some t /\ current (t_request t) (ctl s) = true.
Proof.
  destruct (reachable_inv _ _ Hreach) as [Hinv _]. bools.
  destruct (acting_is_current s i p) as (t & Ht & Ho & Hs & Hjob); [done..|].
  destruct (acting_is_current s j q) as (t' & Ht' & _ & _ & Hjob'); [done..|].
  split; [congruence|]. split; [done|]. exists t. split; [done|]. by apply current_iff.
Qed.

(** A superseded command is inert: once a later command or a stop has moved
    the serial on, no step of its thread changes what the controller shows, in
    any later state. *)
Theorem superseded_command_is_inert (n m : nat) s s' i t (ev : Event)
    (Hreach : reachable n s) (Hrun : nsteps step m s s') (Hm : Z.of_nat m < 2 ^ 63)
    (Ht : threads s !! i = Some t) (Hold : serial (t_request t) < c_serial (ctl s)) :
  view (ctl (thread_step i ev s')) = view (ctl s') /\ job (ctl (thread_step i ev s')) = job (ctl s').
Proof.
  destruct (reachable_inv _ _ Hreach) as [Hinv Hser].
  destruct (nsteps_inv _ _ _ Hrun Hinv) as (Hinv' & Hmono & _ & Hth); [lia|].
  destruct (Hth i t Ht) as (t' & Ht' & E). unfold thread_step. rewrite Ht'.
  assert (Hcur : current (t_request t') (ctl s') = false).
  { apply not_true_iff_false. rewrite current_iff, E. lia. }
  destruct (pc t') eqn:Hpc; destruct ev; try done;
    unfold register_region, read_line, update, store_identity, finish_region; simpl; rewrite ?Hcur; simpl;
    repeat case_match; simpl; unfold store_identity, update; rewrite ?Hcur; simpl; try done.
Qed.

(** What is launched is what was shipped: the helper path returned for
    launching is a regular, unlinked file inside the installation that no other
    user can write, the manifest names this client's executable and the agent
    version compiled into it, and helper and agent hash to the manifest's
    digests. *)
Theorem launched_helper_verified (r : Request) (helper state : str) (Hok : paths r = Ok (helper, state)) :
  exists app manifest bytes compat target,
    exe_parent = Some app /\ helper = path_join (path_join app (lit "tunnel-runtime")) helper_name /\
    fs_read (path_join (path_join app (lit "tunnel-runtime")) (lit "runtime.json")) = Some bytes /\
    json_value bytes = Some manifest /\ compatibility = Some compat /\
    target = json_field compat (lit "target_combination") /\
    json_str target (lit "client") = Some CARGO_PKG_VERSION /\
    json_str manifest (lit "version") = json_str target (lit "agent") /\
    json_str manifest (lit "parent_executable") = exe_name /\
    forall file digest,
      (file, digest) = (helper, lit "helper_sha256") \/
      (file, digest) = (path_join (path_join app (lit "tunnel-runtime")) agent_name, lit "agent_sha256") ->
      exists m sha content, fs_meta file = Some m /\ is_file m = true /\ is_symlink m = false /\ unsafe_metadata m = false /\
        json_str manifest digest = Some sha /\ fs_read file = Some content /\ hex_sha256 content = to_ascii_lowercase sha.
Proof.
  assert (Hverify : forall f sha, verify f sha = Ok () -> exists m content, fs_meta f = Some m /\ is_file m = true /\
    is_symlink m = false /\ unsafe_metadata m = false /\ fs_read f = Some content /\ hex_sha256 content = to_ascii_lowercase sha).
  { intros f sha Hv. unfold verify, regular in Hv. apply bind_ok in Hv as ([] & Hreg & Hv).
    apply bind_ok in Hreg as (m & Hm & Hreg). rewrite ok_or_ok in Hm. destruct (_ || _) eqn:E1 in Hreg; [done|].
    destruct (_ || _) eqn:E2 in Hv; [done|]. apply bind_ok in Hv as (content & Hc & Hv). rewrite ok_or_ok in Hc.
    destruct (negb _) eqn:E3 in Hv; [done|]. bools. by exists m, content. }
  unfold paths in Hok.
  apply bind_ok in Hok as (app & Happ & Hok). rewrite ok_or_ok in Happ.
  apply bind_ok in Hok as (m & Hm & Hok). destruct (_ || _) in Hok; [done|].
  apply bind_ok in Hok as ([] & _ & Hok). apply bind_ok in Hok as (bytes & Hb & Hok). rewrite ok_or_ok in Hb.
  apply bind_ok in Hok as (manifest & Hman & Hok). rewrite ok_or_ok in Hman.
  apply bind_ok in Hok as (exe & Hexe & Hok). rewrite ok_or_ok in Hexe.
  apply bind_ok in Hok as ([] & Hval & Hok).
  apply bind_ok in Hok as (hsha & Hhs & Hok). rewrite ok_or_ok in Hhs. apply bind_ok in Hok as ([] & Hvh & Hok).
  apply bind_ok in Hok as (asha & Has & Hok). rewrite ok_or_ok in Has. apply bind_ok in Hok as ([] & Hva & Hok).
  apply bind_ok in Hok as (cfgd & _ & Hok). destruct (negb _) in Hok; [done|].
  apply bind_ok in Hok as ([] & _ & Hok). apply bind_ok in Hok as ([] & _ & Hok). injection Hok as <- <-.
  unfold validate in Hval. apply bind_ok in Hval as (compat & Hcompat & Hval). rewrite ok_or_ok in Hcompat.
  apply bind_ok in Hval as (rt & Hrt & Hval). rewrite ok_or_ok in Hrt.
  destruct (_ || _) eqn:E1 in Hval; [done|]. destruct (negb _) eqn:E2 in Hval; [done|]. bools.
  assert (Hagent : json_str (json_field compat (lit "target_combination")) (lit "agent") = Some rt).
  { destruct (json_str _ (lit "agent")) as [x|]; simpl in Hrt; [|done]. by destruct (bool_decide _). }
  exists app, manifest, bytes, compat, (json_field compat (lit "target_combination")).
  repeat (split; [done || congruence|]).
  intros file digest [[= -> ->]|[= -> ->]].
  - destruct (Hverify _ _ Hvh) as (m' & content & ?). destruct_and?. by exists m', hsha, content.
  - destruct (Hverify _ _ Hva) as (m' & content & ?). destruct_and?. by exists m', asha, content.
Qed.

End Claims.

(** *** Witnesses *)

Import ExampleRuntime.

Lemma stopped_owner_never_runs_witness :
  v_owner (view (ctl (command parse1 (fun _ => true) [] (stop_all running)))) <> owner1.
Proof.
  apply (stopped_owner_never_runs 8 1 (stop_all running)).
  - split; [|lia]. eapply nsteps_r; [apply running_reachable|constructor].
  - apply nsteps_once. constructor.
  - lia.
  - apply (bool_decide_eq_true_1 _). vm_compute. reflexivity.
Defined.

Definition thread0 : Thread := default (MkThread request1 PcDone []) (threads (stop_all running) !! 0%nat).

Lemma stop_all_silences_helpers_witness :
  exists p, procs (stop_all running) !! 0%nat = Some p /\ alive p && latched p = false.
Proof.
  exists (MkProc false true). assert (Hp : procs (stop_all running) !! 0%nat = Some (MkProc false true)) by (vm_compute; reflexivity).
  split; [exact Hp|].
  apply (stop_all_silences_helpers 7 0 running _ running_reachable (nsteps_O _ _) ltac:(lia) 0%nat); [|exact Hp].
  exists (default thread0 (threads running !! 0%nat)). vm_compute. reflexivity.
Defined.

Lemma one_acting_helper_witness :
  0%nat = 0%nat /\ job (ctl running) = Some 0%nat /\
  exists t, threads running !! 0%nat = Some t /\ current (t_request t) (ctl running) = true.
Proof.
  apply (one_acting_helper 7 running 0 0 (MkProc true true) (MkProc true true));
    [exact running_reachable|exact running_acts|exact running_acts|done|done].
Defined.

Lemma superseded_command_is_inert_witness :
  view (ctl (thread_step 0 (EvLine []) (stop_all running))) = view (ctl (stop_all running)) /\
  job (ctl (thread_step 0 (EvLine []) (stop_all running))) = job (ctl (stop_all running)).
Proof.
  apply (superseded_command_is_inert 8 0 (stop_all running) _ 0 thread0).
  - split; [|lia]. eapply nsteps_r; [apply running_reachable|constructor].
  - constructor.
  - lia.
  - vm_compute. reflexivity.
  - vm_compute. reflexivity.
Defined.

Definition helper1 : str := lit "/opt/nestlink/tunnel-runtime/homedesk-tunnel-helper".
Definition state1 : str := lit "/home/u/.config/nestlink/tunnel-local/" ++ hex64 ++ lit "/state.json".

Lemma launched_helper_verified_witness :
  exists app manifest bytes compat target,
    exe_parent = Some app /\ helper1 = path_join (path_join app (lit "tunnel-runtime")) helper_name /\
    fs_read (path_join (path_join app (lit "tunnel-runtime")) (lit "runtime.json")) = Some bytes /\
    json_value bytes = Some manifest /\ compatibility = Some compat /\
    target = json_field compat (lit "target_combination") /\
    json_str target (lit "client") = Some CARGO_PKG_VERSION /\
    json_str manifest (lit "version") = json_str target (lit "agent") /\
    json_str manifest (lit "parent_executable") = exe_name /\
    forall file digest,
      (file, digest) = (helper1, lit "helper_sha256") \/
      (file, digest) = (path_join (path_join app (lit "tunnel-runtime")) agent_name, lit "agent_sha256") ->
      exists m sha content, fs_meta file = Some m /\ is_file m = true /\ is_symlink m = false /\ unsafe_metadata m = false /\
        json_str manifest digest = Some sha /\ fs_read file = Some content /\ hex_sha256 content = to_ascii_lowercase sha.
Proof. apply (launched_helper_verified request1 helper1 state1). vm_compute. reflexivity. Defined.

End TunnelRuntimeClaims.
