(* ===== verification/VideoQos.v ===== *)
(** * Video quality of service

    Models [client/src/server/video_qos.rs]: the round-trip estimator, the
    per-user delay records, and the controller that sets the frame rate and the
    bit-rate ratio shared by all viewers, with the [Quality] of
    [libs/scrap/src/common/codec.rs].  [f32] arithmetic is binary32.  A panic
    ([f32::clamp] with crossed bounds) is [None].  Instants are nanoseconds.
    The iteration order of a hash map is that of the finite map's list; only
    [latest_quality] at equal timestamps depends on it. *)
From stdpp Require Import base gmap list strings.
From Stdlib Require Import ZArith Lia Floats.SpecFloat.
From S2P Require Import Prelude RustStr Float.

#[local] Open Scope Z_scope.

(** ** Constants *)

Definition FPS : Z := 30.
Definition MIN_FPS : Z := 1.
Definition MAX_FPS : Z := 120.
Definition INIT_FPS : Z := 15.
Definition BR_MAX : float := F32.of_Z 40.
Definition BR_MIN : float := F32.dec 2 10.
Definition BR_MIN_HIGH_RESOLUTION : float := F32.dec 1 10.
Definition MAX_BR_MULTIPLE : float := F32.of_Z 1.
Definition HISTORY_DELAY_LEN : nat := 2.
Definition ADJUST_RATIO_INTERVAL : Z := 3.
Definition DYNAMIC_SCREEN_THRESHOLD : Z := 2.
Definition DELAY_THRESHOLD_150MS : Z := 150.
Definition BR_BEST : float := F32.dec 15 10.
Definition BR_BALANCED : float := F32.dec 67 100.
Definition BR_SPEED : float := F32.dec 5 10.

(** ** Data *)

Inductive Quality := Best | Balanced | Low | Custom (v : float).
Definition quality_ratio (q : Quality) : float :=
  match q with Best => BR_BEST | Balanced => BR_BALANCED | Low => BR_SPEED | Custom v => v end.

Record RttCalculator := MkRtt {
  min_rtt : option Z; window_min_rtt : option Z; smoothed_rtt : option Z; samples : list Z }.
Record UserDelay := MkDelay {
  response_delayed : bool; delay_history : list Z; d_fps : option Z; rtt_calculator : RttCalculator;
  quick_increase_fps_count : Z; increase_fps_count : Z }.
Record UserData := MkUser {
  auto_adjust_fps : option Z; custom_fps : option Z; quality : option (Z * Quality); delay : UserDelay; record : bool }.
Record DisplayData := MkDisplay { send_counter : Z; support_changing_quality : bool }.
Record VideoQoS := MkQoS {
  q_fps : Z; ratio_of : float; users : gmap Z UserData; displays : gmap str DisplayData; bitrate_store : Z;
  adjust_ratio_instant : Z; abr_config : bool; new_user_instant : Z }.

Definition rtt_default : RttCalculator := MkRtt None None None [].
Definition user_default : UserData := MkUser None None None (MkDelay false [] None rtt_default 0 0) false.
Definition qos_default (now : Z) : VideoQoS := MkQoS FPS BR_BALANCED ∅ ∅ 0 now true now.

(** [Instant::elapsed().as_secs()] *)
Definition elapsed_secs (now t : Z) : Z := Z.max 0 (now - t) / 1000000000.

(** ** RTT *)

Definition WINDOW_SAMPLES : nat := 60.
Definition MIN_SAMPLES : nat := 10.
Definition ALPHA : float := F32.dec 5 10.

(** [Iterator::min] *)
Definition list_min (l : list Z) : option Z :=
  match l with [] => None | x :: r => Some (foldl Z.min x r) end.
Definition list_max (l : list Z) : option Z :=
  match l with [] => None | x :: r => Some (foldl Z.max x r) end.

(** [VecDeque] push under a limit: pop the front when the length passes [bound]. *)
Definition push_bounded (full : bool) (x : Z) (l : list Z) : list Z :=
  (if full then tail l else l) ++ [x].

Definition rtt_update (d : Z) (r : RttCalculator) : RttCalculator :=
  let mr := match min_rtt r with
            | Some m => if d <? m then Some d else Some m
            | None => Some d
            end in
  let ss := push_bounded (WINDOW_SAMPLES <=? length (samples r))%nat d (samples r) in
  let wm := list_min ss in
  let sm := if (WINDOW_SAMPLES <=? length ss)%nat then
              match mr, wm with
              | Some m, Some w =>
                Some (as_u 32 (F32.add (F32.mul (F32.sub (F32.of_Z 1) ALPHA) (F32.of_Z m)) (F32.mul ALPHA (F32.of_Z w))))
              | _, _ => smoothed_rtt r
              end
            else smoothed_rtt r in
  MkRtt mr wm sm ss.

Definition get_rtt (r : RttCalculator) : option Z :=
  match smoothed_rtt r with
  | Some x => Some x
  | None => if (MIN_SAMPLES <=? length (samples r))%nat then min_rtt r else None
  end.

(** ** A user's delays *)

Definition add_delay (d : Z) (u : UserDelay) : UserDelay :=
  MkDelay (response_delayed u)
    (push_bounded (HISTORY_DELAY_LEN <? length (delay_history u))%nat d (delay_history u))
    (d_fps u) (rtt_update d (rtt_calculator u)) (quick_increase_fps_count u) (increase_fps_count u).

Definition avg_delay (u : UserDelay) : Z :=
  let len := Z.of_nat (length (delay_history u)) in
  if 0 <? len then
    let avg := wrapu 32 (foldr Z.add 0 (delay_history u)) / len in
    match get_rtt (rtt_calculator u) with
    | Some rtt => if rtt <? avg then avg - rtt else avg
    | None => avg
    end
  else DELAY_THRESHOLD_150MS.

Definition user_list (s : VideoQoS) : list UserData := (map_to_list (users s)).*2.

(** ** Reading *)

Definition fps (s : VideoQoS) : Z :=
  if (MIN_FPS <=? q_fps s) && (q_fps s <=? MAX_FPS) then q_fps s else FPS.

Definition set_ratio (r : float) (s : VideoQoS) : VideoQoS :=
  MkQoS (q_fps s) r (users s) (displays s) (bitrate_store s) (adjust_ratio_instant s) (abr_config s) (new_user_instant s).
Definition set_fps (f : Z) (s : VideoQoS) : VideoQoS :=
  MkQoS f (ratio_of s) (users s) (displays s) (bitrate_store s) (adjust_ratio_instant s) (abr_config s) (new_user_instant s).
Definition set_users (us : gmap Z UserData) (s : VideoQoS) : VideoQoS :=
  MkQoS (q_fps s) (ratio_of s) us (displays s) (bitrate_store s) (adjust_ratio_instant s) (abr_config s) (new_user_instant s).
Definition set_displays (ds : gmap str DisplayData) (s : VideoQoS) : VideoQoS :=
  MkQoS (q_fps s) (ratio_of s) (users s) ds (bitrate_store s) (adjust_ratio_instant s) (abr_config s) (new_user_instant s).

Definition store_bitrate (b : Z) (s : VideoQoS) : VideoQoS :=
  MkQoS (q_fps s) (ratio_of s) (users s) (displays s) b (adjust_ratio_instant s) (abr_config s) (new_user_instant s).

(** [ratio]: repairs an out-of-range value before returning it. *)
Definition ratio (s : VideoQoS) : float * VideoQoS :=
  let s := if SFltb (ratio_of s) BR_MIN_HIGH_RESOLUTION || SFltb BR_MAX (ratio_of s) then set_ratio BR_BALANCED s else s in
  (ratio_of s, s).

Definition recording (s : VideoQoS) : bool := existsb record (user_list s).

Definition set_support_changing_quality (n : str) (support : bool) (s : VideoQoS) : VideoQoS :=
  set_displays (alter (fun d => MkDisplay (send_counter d) support) n (displays s)) s.

Definition in_vbr_state (s : VideoQoS) : bool :=
  abr_config s && forallb support_changing_quality (map_to_list (displays s)).*2.

(** ** Targets *)

Definition user_fps (u : UserData) : Z :=
  let f := default FPS (custom_fps u) in
  match auto_adjust_fps u with
  | Some a => if (f =? 0) || (a <? f) then a else f
  | None => f
  end.

Definition highest_fps (s : VideoQoS) : Z :=
  clamp MIN_FPS MAX_FPS (default FPS (list_min (List.filter (fun f => MIN_FPS <=? f) (user_fps <$> user_list s)))).

(** [Iterator::max_by] on the timestamps: the last of the greatest. *)
Definition latest (l : list (Z * Quality)) : option (Z * Quality) :=
  foldl (fun acc q => match acc with
                      | Some a => if q.1 <? a.1 then Some a else Some q
                      | None => Some q
                      end) None l.
Definition latest_quality (s : VideoQoS) : Quality :=
  (default (0, Balanced) (latest (omap quality (user_list s)))).2.

(** ** Adjusting the frame rate *)

Definition adjust_fps (now : Z) (s : VideoQoS) : VideoQoS :=
  let highest := highest_fps s in
  let f := default INIT_FPS (list_min ((fun u => default INIT_FPS (d_fps (delay u))) <$> user_list s)) in
  let f := if existsb (fun u => response_delayed (delay u)) (user_list s)
           then (if MIN_FPS + 1 <? f then MIN_FPS + 1 else f) else f in
  let f := if elapsed_secs now (new_user_instant s) <? 1 then (if INIT_FPS <? f then INIT_FPS else f) else f in
  set_fps (clamp MIN_FPS highest f) s.

(** ** Adjusting the ratio *)

Definition ratio_1mbps (current : float) (bitrate : Z) : option float :=
  if 0 <? bitrate
  then Some (fmax (F32.div (F32.mul current (F32.of_Z 1000)) (F32.of_Z bitrate)) BR_MIN_HIGH_RESOLUTION)
  else None.
Definition ratio_add_150kbps (current : float) (bitrate : Z) : option float :=
  if 0 <? bitrate
  then Some (F32.div (F32.mul (F32.of_Z (u32_add bitrate 150)) current) (F32.of_Z bitrate))
  else None.

Definition lower_to (m : float) (r : option float) : float :=
  match r with Some x => if SFltb x m then x else m | None => m end.

Definition min_ratio (q : Quality) (current : float) (bitrate : Z) : float :=
  match q with
  | Best => fmax (lower_to (F32.div BR_BEST (F32.dec 25 10)) (ratio_1mbps current bitrate)) BR_MIN
  | Balanced =>
    fmax (lower_to (fmin (F32.div BR_BALANCED (F32.of_Z 2)) (F32.dec 4 10)) (ratio_1mbps current bitrate))
      BR_MIN_HIGH_RESOLUTION
  | Low => BR_MIN_HIGH_RESOLUTION
  | Custom _ => BR_MIN_HIGH_RESOLUTION
  end.

Definition scaled_ratio (max_delay : Z) (dynamic_screen : bool) (current : float) : float :=
  if max_delay <? 50 then (if dynamic_screen then F32.mul current (F32.dec 115 100) else current)
  else if max_delay <? 100 then (if dynamic_screen then F32.mul current (F32.dec 11 10) else current)
  else if max_delay <? DELAY_THRESHOLD_150MS then (if dynamic_screen then F32.mul current (F32.dec 105 100) else current)
  else if max_delay <? 200 then F32.mul current (F32.dec 95 100)
  else if max_delay <? 300 then F32.mul current (F32.dec 9 10)
  else if max_delay <? 500 then F32.mul current (F32.dec 85 100)
  else F32.mul current (F32.dec 8 10).

Definition limit_increase (v current : float) (add150 : option float) : float :=
  match add150 with
  | Some a => if SFltb a v && SFltb current a && SFleb BR_SPEED current then a else v
  | None => v
  end.

Definition adjust_ratio (now : Z) (dynamic_screen : bool) (s : VideoQoS) : option VideoQoS :=
  if negb (in_vbr_state s) then Some s
  else match list_max ((fun u => avg_delay (delay u)) <$> user_list s) with
  | None => Some s
  | Some max_delay =>
    let target := latest_quality s in
    let current := ratio_of s in
    let lo := min_ratio target current (bitrate_store s) in
    let hi := F32.mul (quality_ratio target) MAX_BR_MULTIPLE in
    let v := limit_increase (scaled_ratio max_delay dynamic_screen current) current
               (ratio_add_150kbps current (bitrate_store s)) in
    r ← fclamp lo hi v;
    Some (MkQoS (q_fps s) r (users s) (displays s) (bitrate_store s) now (abr_config s) (new_user_instant s))
  end.

(** ** Events *)

(** [ImageQuality] of the message protocol. *)
Class ImageQualityValues := { iq_balanced : Z; iq_low : Z; iq_best : Z }.

Section Events.
Context `{!ImageQualityValues}.

(** [cfg!(target_os = "linux")] *)
Variable linux : bool.

Definition on_connection_open (id : Z) (abr : bool) (now : Z) (s : VideoQoS) : VideoQoS :=
  MkQoS (q_fps s) (ratio_of s) (<[id := user_default]> (users s)) (displays s) (bitrate_store s)
    (adjust_ratio_instant s) abr now.

Definition on_connection_close (id : Z) (now : Z) (s : VideoQoS) : VideoQoS :=
  let us := delete id (users s) in
  if bool_decide (us = ∅) then qos_default now else set_users us s.

Definition update_user (id : Z) (f : UserData -> UserData) (s : VideoQoS) : VideoQoS :=
  set_users (alter f id (users s)) s.

Definition user_custom_fps (id f : Z) (s : VideoQoS) : VideoQoS :=
  if (f <? MIN_FPS) || (MAX_FPS <? f) then s
  else update_user id (fun u => MkUser (auto_adjust_fps u) (Some f) (quality u) (delay u) (record u)) s.

Definition user_auto_adjust_fps (id f : Z) (s : VideoQoS) : VideoQoS :=
  if (f <? MIN_FPS) || (MAX_FPS <? f) then s
  else update_user id (fun u => MkUser (Some f) (custom_fps u) (quality u) (delay u) (record u)) s.

Definition convert_quality (q : Z) : option Quality :=
  if q =? iq_balanced then Some Balanced
  else if q =? iq_low then Some Low
  else if q =? iq_best then Some Best
  else
    let b := F32.div (F32.of_Z (Z.land (Z.shiftr q 8) 0xFFF * 2)) (F32.of_Z 100) in
    v ← fclamp BR_MIN BR_MAX b; Some (Custom v).

Definition user_image_quality (id image_quality time : Z) (s : VideoQoS) : option VideoQoS :=
  q ← convert_quality image_quality;
  match users s !! id with
  | None => Some s
  | Some u =>
    let s := set_users (<[id := MkUser (auto_adjust_fps u) (custom_fps u) (Some (time, q)) (delay u) (record u)]> (users s)) s in
    Some (set_ratio (quality_ratio (latest_quality s)) s)
  end.

Definition user_record (id : Z) (v : bool) (s : VideoQoS) : VideoQoS :=
  update_user id (fun u => MkUser (auto_adjust_fps u) (custom_fps u) (quality u) (delay u) v) s.

(** The frame rate the delay asks for, before the counters and the clamp; and
    the quick-increase counter. *)
Definition delay_fps (min_fps normal_fps avg old_avg f quick : Z) : Z * Z :=
  if avg <? 50 then
    let quick := quick + 1 in
    let step := if f <? normal_fps then 1 else 0 in
    if 3 <=? quick then (Z.max min_fps (u32_add f 5), 0) else (Z.max min_fps (u32_add f step), quick)
  else if avg <? 100 then
    let step := if avg <? old_avg then (if f <? normal_fps then 1 else 0) else 0 in
    (Z.max min_fps (u32_add f step), quick)
  else if avg <? DELAY_THRESHOLD_150MS then (Z.max min_fps f, quick)
  else
    let devide_fps := ceil_as_u 32 (F32.div (F32.of_Z f) (F32.div (F32.of_Z avg) (F32.of_Z DELAY_THRESHOLD_150MS))) in
    let dividend_ms := DELAY_THRESHOLD_150MS * min_fps in
    if avg <? 200 then (Z.max min_fps devide_fps, quick)
    else if avg <? 300 then (Z.min min_fps devide_fps, quick)
    else if avg <? 600 then (dividend_ms / avg, quick)
    else (Z.min (dividend_ms / avg) devide_fps, quick).

Definition fps_bounds (target : float) : Z * Z :=
  if SFleb BR_BEST target then (8, 16) else if SFleb BR_BALANCED target then (10, 20) else (12, 24).

(** The user's record after a delay measurement. *)
Definition measure (f highest : Z) (bounds : Z * Z) (d : Z) (u : UserDelay) : UserDelay :=
  let d := Z.max d 10 in
  let old_avg := avg_delay u in
  let u := add_delay d u in
  let avg := Z.max (avg_delay u) 10 in
  let '(f, quick) := delay_fps bounds.1 bounds.2 avg old_avg f (quick_increase_fps_count u) in
  let inc := if avg <? DELAY_THRESHOLD_150MS then increase_fps_count u + 1 else 0 in
  let '(f, inc) := if 3 <=? inc then (u32_add f 1, 0) else (f, inc) in
  let quick := if 50 <? avg then 0 else quick in
  MkDelay (response_delayed u) (delay_history u) (Some (clamp MIN_FPS highest f)) (rtt_calculator u) quick inc.

Definition user_network_delay (id d now : Z) (s : VideoQoS) : option VideoQoS :=
  let highest := highest_fps s in
  let bounds := fps_bounds (quality_ratio (latest_quality s)) in
  match users s !! id with
  | None => Some (adjust_fps now s)
  | Some u =>
    let first := bool_decide (d_fps (delay u) = None) in
    let u' := MkUser (auto_adjust_fps u) (custom_fps u) (quality u) (measure (q_fps s) highest bounds d (delay u)) (record u) in
    let s := adjust_fps now (set_users (<[id := u']> (users s)) s) in
    if first && negb linux then adjust_ratio now false s else Some s
  end.

Definition user_delay_response_elapsed (id elapsed now : Z) (s : VideoQoS) : VideoQoS :=
  match users s !! id with
  | None => s
  | Some u =>
    let late := 2000 <? elapsed in
    let du := delay u in
    let du := MkDelay late (delay_history du) (d_fps du) (rtt_calculator du) (quick_increase_fps_count du) (increase_fps_count du) in
    let du := if late then add_delay (wrapu 32 elapsed) du else du in
    let s := set_users (<[id := MkUser (auto_adjust_fps u) (custom_fps u) (quality u) du (record u)]> (users s)) s in
    if late then adjust_fps now s else s
  end.

Definition new_display (n : str) (s : VideoQoS) : VideoQoS := set_displays (<[n := MkDisplay 0 false]> (displays s)) s.
Definition remove_display (n : str) (s : VideoQoS) : VideoQoS := set_displays (delete n (displays s)) s.

Definition update_display_data (n : str) (counter now : Z) (s : VideoQoS) : option VideoQoS :=
  let s := set_displays (alter (fun d => MkDisplay (u64_add (send_counter d) counter) (support_changing_quality d)) n (displays s)) s in
  let s := adjust_fps now s in
  if in_vbr_state s then
    if ADJUST_RATIO_INTERVAL <=? elapsed_secs now (adjust_ratio_instant s) then
      let dynamic := existsb (fun d => ADJUST_RATIO_INTERVAL * DYNAMIC_SCREEN_THRESHOLD <=? send_counter d) (map_to_list (displays s)).*2 in
      let s := set_displays ((fun d => MkDisplay 0 (support_changing_quality d)) <$> displays s) s in
      adjust_ratio now dynamic s
    else Some s
  else Some (set_ratio (quality_ratio (latest_quality s)) s).

End Events.

(** ** Invariant *)

(** The values a custom quality can take. *)
Definition custom_base (k : Z) : float := F32.div (F32.of_Z (k * 2)) (F32.of_Z 100).
Definition custom_value (k : Z) : option float := fclamp BR_MIN BR_MAX (custom_base k).

Definition in_range (lo hi x : float) : Prop := SFleb lo x = true /\ SFleb x hi = true.
Definition quality_ok (q : Quality) : Prop :=
  match q with Custom v => exists k, 0 <= k < 4096 /\ custom_value k = Some v | _ => True end.
Definition fps_ok (f : Z) : Prop := MIN_FPS <= f <= MAX_FPS.

Record user_ok (u : UserData) : Prop := {
  uo_custom f : custom_fps u = Some f -> fps_ok f;
  uo_auto f : auto_adjust_fps u = Some f -> fps_ok f;
  uo_quality t q : quality u = Some (t, q) -> quality_ok q;
  uo_fps f : d_fps (delay u) = Some f -> fps_ok f;
  uo_history : (length (delay_history (delay u)) <= 3)%nat;
  uo_samples : (length (samples (rtt_calculator (delay u))) <= 60)%nat }.

Record qos_ok (s : VideoQoS) : Prop := {
  qo_fps : fps_ok (q_fps s);
  qo_ratio : in_range BR_MIN_HIGH_RESOLUTION BR_MAX (ratio_of s);
  qo_users : map_Forall (fun _ u => user_ok u) (users s) }.

(** All 4096 custom qualities, by evaluation. *)
Lemma custom_values : forall k, 0 <= k < 4096 -> exists v, custom_value k = Some v /\
  in_range BR_MIN BR_MAX v /\ in_range BR_MIN BR_MAX (F32.mul v MAX_BR_MULTIPLE) /\
  SFleb (F32.mul v MAX_BR_MULTIPLE) v = true.
Proof.
  set (P := fun k => match custom_value k with
    | Some v => SFleb BR_MIN v && SFleb v BR_MAX && SFleb BR_MIN (F32.mul v MAX_BR_MULTIPLE)
                && SFleb (F32.mul v MAX_BR_MULTIPLE) BR_MAX && SFleb (F32.mul v MAX_BR_MULTIPLE) v
    | None => false end).
  assert (Hall : forallb P (Z.of_nat <$> seq 0 4096) = true) by (vm_compute; reflexivity).
  intros k Hk. rewrite forallb_forall in Hall. assert (HP : P k = true).
  { apply Hall, list_elem_of_In, list_elem_of_fmap. exists (Z.to_nat k). split; [lia|]. apply elem_of_seq. lia. }
  unfold P in HP. destruct (custom_value k) as [v|]; [|done]. bools. exists v. unfold in_range. done.
Qed.

Lemma target_range q : quality_ok q ->
  in_range BR_MIN BR_MAX (quality_ratio q) /\ in_range BR_MIN BR_MAX (F32.mul (quality_ratio q) MAX_BR_MULTIPLE) /\
  SFleb (F32.mul (quality_ratio q) MAX_BR_MULTIPLE) (quality_ratio q) = true.
Proof.
  unfold in_range. destruct q as [| | |v]; [intros _; vm_compute; by repeat split..|].
  intros (k & Hk & Hv). destruct (custom_values k Hk) as (v' & Hv' & ?). simpl. by assert (v = v') as -> by congruence.
Qed.

Lemma low_below_min : SFleb BR_MIN_HIGH_RESOLUTION BR_MIN = true.
Proof. vm_compute. reflexivity. Qed.

Lemma in_range_finite x : in_range BR_MIN_HIGH_RESOLUTION BR_MAX x -> is_finite x = true.
Proof.
  unfold in_range. rewrite !leb_iff. intros [(_ & Hn & H1) (_ & _ & H2)].
  assert (E1 : (key BR_MIN_HIGH_RESOLUTION).1.1 = 1) by (vm_compute; reflexivity).
  assert (E2 : (key BR_MAX).1.1 = 1) by (vm_compute; reflexivity).
  rewrite kle_not_klt in H1, H2. unfold klt in H1, H2. rewrite E1 in H1. rewrite E2 in H2.
  destruct x as [s|[]| |s m e]; try done; simpl in H1, H2; lia.
Qed.

(** ** Preservation *)

Lemma foldl_min_le x l y : y ∈ x :: l -> foldl Z.min x l <= y.
Proof.
  revert x y. induction l as [|z l IH]; intros x y Hy; simpl.
  - apply list_elem_of_singleton in Hy as ->. lia.
  - apply elem_of_cons in Hy as [->|Hy]; [specialize (IH (Z.min x z) (Z.min x z) ltac:(left)); lia|].
    apply elem_of_cons in Hy as [->|Hy]; [specialize (IH (Z.min x z) (Z.min x z) ltac:(left)); lia|].
    apply IH. by right.
Qed.

Lemma list_min_le l m y : list_min l = Some m -> y ∈ l -> m <= y.
Proof. destruct l as [|x l]; [done|]. intros [= <-] Hy. by apply foldl_min_le. Qed.

Lemma list_min_none l : list_min l = None -> l = [].
Proof. by destruct l. Qed.

Lemma highest_ok s : fps_ok (highest_fps s).
Proof. unfold highest_fps, fps_ok, MIN_FPS, MAX_FPS. apply clamp_bounds. lia. Qed.

Lemma clamp_fps_ok f s : fps_ok (clamp MIN_FPS (highest_fps s) f).
Proof.
  pose proof (highest_ok s) as Hh. unfold fps_ok in *.
  pose proof (clamp_bounds MIN_FPS (highest_fps s) f ltac:(lia)). lia.
Qed.

Lemma adjust_fps_ok now s : qos_ok s -> qos_ok (adjust_fps now s).
Proof. intros [H1 H2 H3]. split; simpl; [apply clamp_fps_ok|done|done]. Qed.

Lemma push_bounded_length (full : bool) x l n :
  (length l <= n)%nat -> (full = false -> length l < n)%nat -> (0 < n)%nat -> (length (push_bounded full x l) <= n)%nat.
Proof.
  intros Hl Hf Hn. unfold push_bounded. rewrite length_app. simpl. destruct full; [destruct l; simpl in *; lia|].
  specialize (Hf eq_refl). lia.
Qed.

Lemma add_delay_ok d u : (length (delay_history u) <= 3)%nat -> (length (samples (rtt_calculator u)) <= 60)%nat ->
  (length (delay_history (add_delay d u)) <= 3)%nat /\ (length (samples (rtt_calculator (add_delay d u))) <= 60)%nat.
Proof.
  intros H1 H2. split; apply push_bounded_length; try done; try lia.
  - unfold HISTORY_DELAY_LEN. intros Hf. apply Nat.ltb_ge in Hf. lia.
  - unfold WINDOW_SAMPLES. intros Hf. apply Nat.leb_gt in Hf. lia.
Qed.

Lemma latest_in l q : latest l = Some q -> q ∈ l.
Proof.
  unfold latest. assert (Hgen : forall acc, foldl (fun acc q => match acc with
      | Some a => if (q : Z * Quality).1 <? a.1 then Some a else Some q | None => Some q end) acc l = Some q ->
      acc = Some q \/ q ∈ l).
  { induction l as [|x l IH]; intros acc Hf; simpl in Hf; [by left|].
    destruct (IH _ Hf) as [Hacc|Hin]; [|right; by right]. destruct acc as [a|].
    - destruct (x.1 <? a.1); injection Hacc as <-; [by left|right; left].
    - injection Hacc as <-. right; left. }
  intros Hl. by destruct (Hgen None Hl).
Qed.

Lemma user_list_lookup s u : u ∈ user_list s <-> exists id, users s !! id = Some u.
Proof.
  unfold user_list. rewrite list_elem_of_fmap. split.
  - intros ([id u'] & -> & Hin). exists id. by apply elem_of_map_to_list.
  - intros [id Hid]. exists (id, u). split; [done|]. by apply elem_of_map_to_list.
Qed.

Lemma latest_quality_ok s : map_Forall (fun _ u => user_ok u) (users s) -> quality_ok (latest_quality s).
Proof.
  intros Hu. unfold latest_quality. destruct (latest _) as [[t q]|] eqn:El; simpl; [|done].
  apply latest_in, list_elem_of_omap in El as (u & Hin & Hq). apply user_list_lookup in Hin as [id Hid].
  by apply (uo_quality u (Hu id u Hid) t).
Qed.

Lemma scaled_not_nan d b x : is_finite x = true -> is_nan (scaled_ratio d b x) = false.
Proof.
  intros Hx. assert (Hn : is_nan x = false) by (by destruct x). unfold scaled_ratio.
  repeat case_match; try done; apply mul_not_nan; try done; vm_compute; reflexivity.
Qed.

Lemma limit_not_nan v c a : is_nan v = false -> is_nan (limit_increase v c a) = false.
Proof.
  intros Hv. unfold limit_increase. destruct a as [a|]; [|done]. destruct (_ && _) eqn:E; [|done].
  bools. match goal with H : SFltb a v = true |- _ => apply ltb_iff in H; tauto end.
Qed.

Lemma lower_to_le m r hi : SFleb m hi = true -> SFleb (lower_to m r) hi = true.
Proof.
  intros Hm. unfold lower_to. destruct r as [x|]; [|done]. destruct (SFltb x m) eqn:E; [|done].
  eauto using leb_trans, ltb_leb.
Qed.

(** The lower bound is in range and below the target: [clamp] cannot panic. *)
Lemma min_ratio_ok q c b : quality_ok q ->
  SFleb BR_MIN_HIGH_RESOLUTION (min_ratio q c b) = true /\
  SFleb (min_ratio q c b) (F32.mul (quality_ratio q) MAX_BR_MULTIPLE) = true.
Proof.
  intros Hq. destruct q as [| | |v]; simpl.
  - split; [eapply leb_trans; [apply low_below_min|by apply fmax_ge]|].
    apply fmax_le; [apply lower_to_le|]; vm_compute; reflexivity.
  - split; [by apply fmax_ge|]. apply fmax_le; [apply lower_to_le|]; vm_compute; reflexivity.
  - split; vm_compute; reflexivity.
  - split; [vm_compute; reflexivity|]. destruct (target_range (Custom v) Hq) as (_ & [Hlo _] & _).
    eapply leb_trans; [apply low_below_min|exact Hlo].
Qed.

Lemma adjust_ratio_ok now b s : qos_ok s -> exists s', adjust_ratio now b s = Some s' /\ qos_ok s' /\
  (s' = s \/ SFleb (ratio_of s') (quality_ratio (latest_quality s)) = true).
Proof.
  intros Hs. pose proof Hs as [H1 H2 H3]. unfold adjust_ratio. destruct (negb _); [by eauto|].
  destruct (list_max _) as [d|]; [|by eauto].
  pose proof (latest_quality_ok s H3) as Hq. destruct (min_ratio_ok _ (ratio_of s) (bitrate_store s) Hq) as [Hlo Hhi].
  destruct (target_range _ Hq) as (_ & [_ Hmax] & Hle).
  destruct (fclamp_spec _ _ (limit_increase (scaled_ratio d b (ratio_of s)) (ratio_of s)
    (ratio_add_150kbps (ratio_of s) (bitrate_store s))) Hhi) as (r & -> & Hr1 & Hr2).
  { apply limit_not_nan, scaled_not_nan, in_range_finite, H2. }
  simpl. eexists. split; [reflexivity|]. split; [|right; simpl; eauto using leb_trans].
  split; simpl; [done| |done]. split; eauto using leb_trans.
Qed.

Lemma set_latest_ratio_ok s : qos_ok s -> qos_ok (set_ratio (quality_ratio (latest_quality s)) s).
Proof.
  intros [H1 H2 H3]. split; simpl; [done| |done].
  destruct (target_range _ (latest_quality_ok s H3)) as ([Hlo Hhi] & _). split; [|done].
  eapply leb_trans; [apply low_below_min|exact Hlo].
Qed.

Lemma update_user_ok id f s : qos_ok s -> (forall u, user_ok u -> user_ok (f u)) -> qos_ok (update_user id f s).
Proof.
  intros [H1 H2 H3] Hf. split; simpl; [done|done|]. intros j u. rewrite lookup_alter_Some.
  intros [(-> & u0 & Hu & ->)|[_ Hu]]; [apply Hf|]; by eapply H3.
Qed.

Lemma insert_user_ok id u s : qos_ok s -> user_ok u -> qos_ok (set_users (<[id := u]> (users s)) s).
Proof. intros [H1 H2 H3] Hu. split; simpl; [done|done|]. by apply map_Forall_insert_2. Qed.

Lemma default_ok : user_ok user_default.
Proof. split; simpl; try done; lia. Qed.

Lemma measure_ok f s bounds d u : user_ok u ->
  user_ok (MkUser (auto_adjust_fps u) (custom_fps u) (quality u) (measure f (highest_fps s) bounds d (delay u)) (record u)).
Proof.
  intros [H1 H2 H3 H4 H5 H6]. destruct (add_delay_ok (Z.max d 10) (delay u) H5 H6) as [Hh Hs].
  unfold measure. destruct (delay_fps _ _ _ _ _ _) as [f1 q1].
  destruct (if 3 <=? _ then _ else _) as [f2 i2].
  split; simpl; try done. intros f0 [= <-]. apply clamp_fps_ok.
Qed.

(** A user's own rates are in range. *)
Lemma user_rates_ok u : user_ok u -> fps_ok (default INIT_FPS (d_fps (delay u))) /\ fps_ok (user_fps u).
Proof.
  intros Huo. assert (Hd : fps_ok (default FPS (custom_fps u))).
  { destruct (custom_fps u) eqn:E; [by apply (uo_custom u Huo)|]. unfold fps_ok, FPS, MIN_FPS, MAX_FPS; simpl; lia. }
  split.
  - destruct (d_fps (delay u)) eqn:E; [by apply (uo_fps u Huo)|]. unfold fps_ok, INIT_FPS, MIN_FPS, MAX_FPS; simpl; lia.
  - unfold user_fps. destruct (auto_adjust_fps u) eqn:E; [|done]. case_match; [by apply (uo_auto u Huo)|done].
Qed.

Lemma highest_le_user s id u : users s !! id = Some u -> fps_ok (user_fps u) -> highest_fps s <= user_fps u.
Proof.
  intros Hu Huf. assert (Hf : user_fps u ∈ List.filter (fun f => MIN_FPS <=? f) (user_fps <$> user_list s)).
  { apply list_elem_of_In, filter_In. split; [|apply Z.leb_le, Huf].
    apply list_elem_of_In, list_elem_of_fmap. exists u. split; [done|]. apply user_list_lookup. eauto. }
  unfold highest_fps. destruct (list_min _) as [m|] eqn:Em; simpl.
  - pose proof (list_min_le _ _ _ Em Hf). unfold clamp. unfold fps_ok in Huf. zcases; lia.
  - apply list_min_none in Em. rewrite Em in Hf. by apply not_elem_of_nil in Hf.
Qed.

Lemma slowest_le_user s id u : users s !! id = Some u ->
  default INIT_FPS (list_min ((fun u => default INIT_FPS (d_fps (delay u))) <$> user_list s))
  <= default INIT_FPS (d_fps (delay u)).
Proof.
  intros Hu. assert (Hin : u ∈ user_list s) by (apply user_list_lookup; eauto).
  destruct (list_min _) as [m|] eqn:Em; simpl.
  - eapply list_min_le; [exact Em|]. apply list_elem_of_fmap. eauto.
  - apply list_min_none in Em. apply fmap_nil_inv in Em. rewrite Em in Hin. by apply not_elem_of_nil in Hin.
Qed.

(** ** The controller as a machine *)

Inductive Event :=
| Open (id : Z) (abr : bool) (now : Z)
| Close (id now : Z)
| CustomFps (id f : Z)
| AutoAdjustFps (id f : Z)
| ImageQualitySet (id q time : Z)
| Record_ (id : Z) (v : bool)
| NetworkDelay (id d now : Z)
| ResponseElapsed (id elapsed now : Z)
| StoreBitrate (b : Z)
| ReadRatio
| SupportChangingQuality (n : str) (support : bool)
| NewDisplay (n : str)
| RemoveDisplay (n : str)
| DisplayUpdate (n : str) (counter now : Z).

Section Machine.
Context `{!ImageQualityValues}.
Variable linux : bool.

Definition handle (ev : Event) (s : VideoQoS) : option VideoQoS :=
  match ev with
  | Open id abr now => Some (on_connection_open id abr now s)
  | Close id now => Some (on_connection_close id now s)
  | CustomFps id f => Some (user_custom_fps id f s)
  | AutoAdjustFps id f => Some (user_auto_adjust_fps id f s)
  | ImageQualitySet id q time => user_image_quality id q time s
  | Record_ id v => Some (user_record id v s)
  | NetworkDelay id d now => user_network_delay linux id d now s
  | ResponseElapsed id elapsed now => Some (user_delay_response_elapsed id elapsed now s)
  | StoreBitrate b => Some (store_bitrate b s)
  | ReadRatio => Some (ratio s).2
  | SupportChangingQuality n b => Some (set_support_changing_quality n b s)
  | NewDisplay n => Some (new_display n s)
  | RemoveDisplay n => Some (remove_display n s)
  | DisplayUpdate n c now => update_display_data n c now s
  end.

Definition handle_all (evs : list Event) (s : VideoQoS) : option VideoQoS :=
  foldl (fun acc ev => s ← acc; handle ev s) (Some s) evs.

Lemma default_qos_ok now : qos_ok (qos_default now).
Proof. split; simpl; [unfold fps_ok, FPS, MIN_FPS, MAX_FPS; lia|split; vm_compute; reflexivity|apply map_Forall_empty]. Qed.

Lemma convert_quality_ok q : exists r, convert_quality q = Some r /\ quality_ok r.
Proof.
  unfold convert_quality. destruct (q =? iq_balanced); [by exists Balanced|].
  destruct (q =? iq_low); [by exists Low|]. destruct (q =? iq_best); [by exists Best|].
  assert (Hk : 0 <= Z.land (Z.shiftr q 8) 0xFFF < 4096).
  { change 0xFFF with (Z.ones 12). rewrite Z.land_ones by lia. apply Z.mod_pos_bound. lia. }
  destruct (custom_values _ Hk) as (v & Hv & _). unfold custom_value, custom_base in Hv. rewrite Hv. simpl.
  eexists. split; [reflexivity|]. by exists (Z.land (Z.shiftr q 8) 0xFFF).
Qed.

Lemma fps_guard f : (f <? MIN_FPS) || (MAX_FPS <? f) = false -> fps_ok f.
Proof. intros Hf. bools. split; lia. Qed.

Lemma displays_ok ds s : qos_ok s -> qos_ok (set_displays ds s).
Proof. intros [H1 H2 H3]. by split. Qed.

Lemma network_delay_ok id d now s : qos_ok s -> exists s', user_network_delay linux id d now s = Some s' /\ qos_ok s'.
Proof.
  intros Hs. unfold user_network_delay. destruct (users s !! id) as [u|] eqn:Hu; [|eauto using adjust_fps_ok].
  pose proof (qo_users _ Hs id u Hu) as Huo. simpl in Huo.
  pose proof (insert_user_ok id _ s Hs (measure_ok (q_fps s) s (fps_bounds (quality_ratio (latest_quality s))) d u Huo)) as Hi.
  apply (adjust_fps_ok now) in Hi. destruct (_ && _); [|eauto].
  destruct (adjust_ratio_ok now false _ Hi) as (s' & Hs' & Hok & _). eauto.
Qed.

Lemma display_update_ok n c now s : qos_ok s -> exists s', update_display_data n c now s = Some s' /\ qos_ok s'.
Proof.
  intros Hs. unfold update_display_data. cbv zeta.
  pose proof (adjust_fps_ok now _ (displays_ok (alter (fun d => MkDisplay (u64_add (send_counter d) c)
    (support_changing_quality d)) n (displays s)) s Hs)) as Hi.
  set (s1 := adjust_fps now _) in *. destruct (in_vbr_state s1); [|eauto using set_latest_ratio_ok].
  destruct (_ <=? _); [|eauto].
  destruct (adjust_ratio_ok now (existsb (fun d => ADJUST_RATIO_INTERVAL * DYNAMIC_SCREEN_THRESHOLD <=? send_counter d)
    (map_to_list (displays s1)).*2) _ (displays_ok ((fun d => MkDisplay 0 (support_changing_quality d)) <$> displays s1) s1 Hi))
    as (s' & Hs' & Hok & _). eauto.
Qed.

Lemma response_elapsed_ok id e now s : qos_ok s -> qos_ok (user_delay_response_elapsed id e now s).
Proof.
  intros Hs. unfold user_delay_response_elapsed. destruct (users s !! id) as [u|] eqn:Hu; [|done].
  pose proof (qo_users _ Hs id u Hu) as [H1 H2 H3 H4 H5 H6]. cbv zeta.
  destruct (2000 <? e).
  - apply adjust_fps_ok, insert_user_ok; [done|].
    destruct (add_delay_ok (wrapu 32 e) (MkDelay true (delay_history (delay u)) (d_fps (delay u)) (rtt_calculator (delay u))
      (quick_increase_fps_count (delay u)) (increase_fps_count (delay u))) H5 H6) as [Hh Hsm].
    split; simpl; done.
  - apply insert_user_ok; [done|]. split; simpl; done.
Qed.

Lemma handle_event_ok ev s : qos_ok s -> exists s', handle ev s = Some s' /\ qos_ok s'.
Proof.
  intros Hs. pose proof Hs as [H1 H2 H3].
  destruct ev as [id abr now|id now|id f|id f|id q t|id v|id d now|id e now|b| |n b|n|n|n c now]; simpl.
  - eexists. split; [done|]. split; simpl; [done|done|]. by apply map_Forall_insert_2; [apply default_ok|].
  - eexists. split; [done|]. unfold on_connection_close. case_bool_decide; [apply default_qos_ok|].
    split; simpl; [done|done|]. by apply map_Forall_delete.
  - eexists. split; [done|]. unfold user_custom_fps. destruct (_ || _) eqn:E; [done|]. apply fps_guard in E.
    apply update_user_ok; [done|]. intros u [? ? ? ? ? ?]. split; simpl; try done. by intros f' [= <-].
  - eexists. split; [done|]. unfold user_auto_adjust_fps. destruct (_ || _) eqn:E; [done|]. apply fps_guard in E.
    apply update_user_ok; [done|]. intros u [? ? ? ? ? ?]. split; simpl; try done. by intros f' [= <-].
  - unfold user_image_quality. destruct (convert_quality_ok q) as (r & -> & Hr). simpl.
    destruct (users s !! id) as [u|] eqn:Hu; [|by eauto]. eexists. split; [done|].
    apply set_latest_ratio_ok, insert_user_ok; [done|]. pose proof (H3 id u Hu) as [? ? ? ? ? ?].
    split; simpl; try done. by intros t' q' [= <- <-].
  - eexists. split; [done|]. apply update_user_ok; [done|]. intros u [? ? ? ? ? ?]. by split.
  - by apply network_delay_ok.
  - eexists. split; [done|]. by apply response_elapsed_ok.
  - eexists. split; [done|]. by split.
  - eexists. split; [done|]. unfold ratio. destruct (_ || _); [|done]. split; simpl; [done| |done].
    split; vm_compute; reflexivity.
  - eexists. split; [done|]. by apply displays_ok.
  - eexists. split; [done|]. by apply displays_ok.
  - eexists. split; [done|]. by apply displays_ok.
  - by apply display_update_ok.
Qed.

End Machine.

(** ** Properties *)
Module VideoQosClaims.

Section Claims.
Context `{!ImageQualityValues}.
Variable linux : bool.

(** C39: The controller never fails and stays in its envelope: from the default
    state, after any sequence of events with any arguments and any timing, no
    [clamp] has panicked, the shared frame rate and every user's are within
    1 to 120, the ratio is a number within 0.1 to 40, delay histories hold at
    most 3 and RTT windows at most 60 samples. *)
Theorem qos_stays_in_envelope (evs : list Event) (now : Z) :
  exists s, handle_all linux evs (qos_default now) = Some s /\ fps s = q_fps s /\
    MIN_FPS <= q_fps s <= MAX_FPS /\
    SFleb BR_MIN_HIGH_RESOLUTION (ratio_of s) = true /\ SFleb (ratio_of s) BR_MAX = true /\
    forall id u, users s !! id = Some u ->
      (forall f, d_fps (delay u) = Some f -> MIN_FPS <= f <= MAX_FPS) /\
      (length (delay_history (delay u)) <= 3)%nat /\ (length (samples (rtt_calculator (delay u))) <= 60)%nat.
Proof.
  assert (Hrun : forall s0, qos_ok s0 -> exists s, handle_all linux evs s0 = Some s /\ qos_ok s).
  { unfold handle_all. induction evs as [|ev evs' IH]; intros s0 Hs0; simpl; [eauto|].
    destruct (handle_event_ok linux ev s0 Hs0) as (s1 & -> & Hs1). by apply IH. }
  destruct (Hrun _ (default_qos_ok now)) as (s & Hs & [H1 [H2 H2'] H3]). exists s. split; [done|].
  split. { unfold fps. destruct H1 as [Ha Hb]. apply Z.leb_le in Ha, Hb. by rewrite Ha, Hb. }
  repeat (split; [done|]). intros id u Hu. destruct (H3 id u Hu) as [? ? ? ? ? ?]. done.
Qed.

(** The shared frame rate serves the slowest viewer: after an adjustment it
    exceeds neither any user's own delay-driven rate nor the rate any user
    asked for; it is at most 2 while a user's response is late and at most 15
    in the first second after a connection opens. *)
Theorem shared_fps_bounded_by_every_user (now : Z) (s : VideoQoS) (id : Z) (u : UserData)
    (Hs : qos_ok s) (Hu : users s !! id = Some u) :
  let f := q_fps (adjust_fps now s) in
  f <= default INIT_FPS (d_fps (delay u)) /\ f <= user_fps u /\
  (response_delayed (delay u) = true -> f <= MIN_FPS + 1) /\
  (elapsed_secs now (new_user_instant s) < 1 -> f <= INIT_FPS).
Proof.
  pose proof (highest_ok s) as Hh. pose proof (qo_users _ Hs id u Hu) as Huo. simpl in Huo.
  destruct (user_rates_ok u Huo) as [Hfps Huf]. pose proof (highest_le_user s id u Hu Huf) as Hhigh.
  pose proof (slowest_le_user s id u Hu) as Hmin.
  cbv zeta. unfold adjust_fps. simpl q_fps. set (f0 := default INIT_FPS (list_min _)) in *.
  set (f1 := if existsb _ _ then _ else f0). set (f2 := if elapsed_secs _ _ <? 1 then _ else f1).
  assert (Hf1 : f1 <= f0 /\ (response_delayed (delay u) = true -> f1 <= MIN_FPS + 1)).
  { unfold f1. destruct (existsb _ _) eqn:Ex; [zcases; lia|]. split; [lia|]. intros Hd.
    assert (existsb (fun u => response_delayed (delay u)) (user_list s) = true); [|congruence].
    apply existsb_exists. exists u. split; [|done]. apply list_elem_of_In, user_list_lookup. eauto. }
  assert (Hf2 : f2 <= f1 /\ (elapsed_secs now (new_user_instant s) < 1 -> f2 <= INIT_FPS)).
  { unfold f2. zcases; lia. }
  destruct Hf1 as [Hf1 Hlate], Hf2 as [Hf2 Hnew]. clearbody f0 f1 f2. clear Hs.
  assert (Hc : clamp MIN_FPS (highest_fps s) f2 <= Z.max MIN_FPS f2 /\ clamp MIN_FPS (highest_fps s) f2 <= highest_fps s).
  { unfold clamp, fps_ok in *. zcases; lia. }
  unfold fps_ok, INIT_FPS, MIN_FPS, MAX_FPS, FPS in *. repeat split; [lia..| |].
  - intros Hd. specialize (Hlate Hd). lia.
  - intros He. specialize (Hnew He). lia.
Qed.

Lemma bounds_values t : (fps_bounds t).1 ∈ [8; 10; 12].
Proof. unfold fps_bounds. repeat case_match; simpl; rewrite !elem_of_cons; auto. Qed.

(** The average the measurement is judged by. *)
Definition measured_delay (d : Z) (u : UserDelay) : Z := Z.max (avg_delay (add_delay (Z.max d 10) u)) 10.

(** Congestion slows a user down, whatever the rate was: from an average delay
    of 200 ms on the user's new rate is at most 12, from 300 ms at most 6,
    from 600 ms at most 3. *)
Theorem congestion_caps_user_fps (f highest d : Z) (target : float) (u : UserDelay)
    (Hh : MIN_FPS <= highest <= MAX_FPS) (Hslow : 200 <= measured_delay d u) :
  exists f', d_fps (measure f highest (fps_bounds target) d u) = Some f' /\ f' <= 12 /\
    (300 <= measured_delay d u -> f' <= 6) /\ (600 <= measured_delay d u -> f' <= 3).
Proof.
  pose proof (bounds_values target) as Hb. unfold measure. fold (measured_delay d u).
  set (avg := measured_delay d u) in *. set (b := fps_bounds target) in *. clearbody avg.
  rewrite !elem_of_cons, elem_of_nil in Hb.
  assert (Hmin : 8 <= b.1 <= 12) by (destruct_or?; lia).
  assert (Hq : forall y, 600 <= avg -> 150 * b.1 / avg <= 3 /\ Z.min (150 * b.1 / avg) y <= 3).
  { intros y Ha. assert (150 * b.1 / avg <= 3); [|lia]. apply Z.lt_succ_r, Z.div_lt_upper_bound; lia. }
  assert (Hq' : 300 <= avg -> 150 * b.1 / avg <= 6).
  { intros Ha. apply Z.lt_succ_r, Z.div_lt_upper_bound; lia. }
  unfold delay_fps. set (dv := ceil_as_u _ _). clearbody dv. specialize (Hq dv).
  rewrite (proj2 (Z.ltb_ge avg 50)), (proj2 (Z.ltb_ge avg 100)), (proj2 (Z.ltb_ge avg 200)) by lia.
  rewrite !(proj2 (Z.ltb_ge avg DELAY_THRESHOLD_150MS)) by (unfold DELAY_THRESHOLD_150MS; lia).
  unfold DELAY_THRESHOLD_150MS, MIN_FPS, MAX_FPS in *.
  destruct (Z.ltb_spec avg 300); [|destruct (Z.ltb_spec avg 600)]; simpl; eexists; (split; [reflexivity|]);
    unfold clamp; zcases; lia.
Qed.

(** Between 150 and 199 ms the rate does not fall below the quality's minimum
    (or the highest rate the users allow), while the file's overview says it is
    always lower than that minimum from 150 ms on. *)
Theorem moderate_delay_keeps_min_fps (f highest d : Z) (target : float) (u : UserDelay)
    (Hh : MIN_FPS <= highest <= MAX_FPS) (Hd : 150 <= measured_delay d u < 200) :
  exists f', d_fps (measure f highest (fps_bounds target) d u) = Some f' /\ Z.min highest (fps_bounds target).1 <= f'.
Proof.
  unfold measure. fold (measured_delay d u). set (avg := measured_delay d u) in *. clearbody avg.
  unfold delay_fps. set (dv := ceil_as_u _ _). clearbody dv.
  rewrite (proj2 (Z.ltb_ge avg 50)), (proj2 (Z.ltb_ge avg 100)), (proj2 (Z.ltb_lt avg 200)) by lia.
  rewrite !(proj2 (Z.ltb_ge avg DELAY_THRESHOLD_150MS)) by (unfold DELAY_THRESHOLD_150MS; lia).
  simpl. eexists. split; [reflexivity|]. unfold MIN_FPS, clamp in *. zcases; lia.
Qed.

(** The bit rate follows the latest quality choice: an adjustment in variable
    bit rate succeeds and never leaves the ratio above that quality's. *)
Theorem adjusted_ratio_below_target (now : Z) (dynamic : bool) (s : VideoQoS)
    (Hs : qos_ok s) (Hvbr : in_vbr_state s = true) (Husers : users s <> ∅) :
  exists s', adjust_ratio now dynamic s = Some s' /\
    SFleb BR_MIN_HIGH_RESOLUTION (ratio_of s') = true /\
    SFleb (ratio_of s') (quality_ratio (latest_quality s)) = true /\ adjust_ratio_instant s' = now.
Proof.
  destruct (adjust_ratio_ok now dynamic s Hs) as (s' & Hs' & [_ [Hlo _] _] & _). exists s'. split; [done|]. split; [done|].
  unfold adjust_ratio in Hs'. rewrite Hvbr in Hs'. simpl in Hs'.
  destruct (list_max _) as [m|] eqn:Em in Hs'.
  - destruct (fclamp _ _ _) as [r|] eqn:Er; simpl in Hs'; [|done]. injection Hs' as <-. simpl. split; [|done].
    pose proof (latest_quality_ok s (qo_users _ Hs)) as Hq. destruct (target_range _ Hq) as (_ & _ & Hle).
    destruct (min_ratio_ok _ (ratio_of s) (bitrate_store s) Hq) as [_ Hhi].
    destruct (fclamp_spec _ _ (limit_increase (scaled_ratio m dynamic (ratio_of s)) (ratio_of s)
      (ratio_add_150kbps (ratio_of s) (bitrate_store s))) Hhi) as (r' & Hr' & _ & Hr2).
    { apply limit_not_nan, scaled_not_nan, in_range_finite, Hs. }
    rewrite Er in Hr'. injection Hr' as <-. eauto using leb_trans.
  - exfalso. apply Husers. assert (Hl : user_list s = []).
    { destruct (user_list s); [done|]. simpl in Em. done. }
    unfold user_list in Hl. apply fmap_nil_inv, map_to_list_empty_iff in Hl. done.
Qed.

End Claims.

(** *** Witnesses *)

#[global] Instance proto_values : ImageQualityValues := {| iq_balanced := 3; iq_low := 2; iq_best := 4 |}.

(** One user, best quality, one slow measurement. *)
Definition one_user : VideoQoS :=
  default (qos_default 0)
    (handle_all false [Open 7 true 0; ImageQualitySet 7 4 5; NetworkDelay 7 400 2000000000] (qos_default 0)).
Definition user7 : UserData := default user_default (users one_user !! 7).

Lemma one_user_ok : qos_ok one_user.
Proof.
  assert (Hrun : forall evs s0, qos_ok s0 -> exists s, handle_all false evs s0 = Some s /\ qos_ok s).
  { unfold handle_all. induction evs as [|ev evs IH]; intros s0 Hs0; simpl; [eauto|].
    destruct (handle_event_ok false ev s0 Hs0) as (s1 & -> & Hs1). by apply IH. }
  destruct (Hrun [Open 7 true 0; ImageQualitySet 7 4 5; NetworkDelay 7 400 2000000000] _ (default_qos_ok 0)) as (s & Hs & Hok).
  unfold one_user. by rewrite Hs.
Qed.

Lemma shared_fps_bounded_by_every_user_witness :
  let f := q_fps (adjust_fps 3000000000 one_user) in
  f <= default INIT_FPS (d_fps (delay user7)) /\ f <= user_fps user7 /\
  (response_delayed (delay user7) = true -> f <= MIN_FPS + 1) /\
  (elapsed_secs 3000000000 (new_user_instant one_user) < 1 -> f <= INIT_FPS).
Proof. apply (shared_fps_bounded_by_every_user 3000000000 one_user 7 user7); [exact one_user_ok|vm_compute; reflexivity]. Defined.

Lemma congestion_caps_user_fps_witness :
  exists f', d_fps (measure 60 120 (fps_bounds BR_BEST) 700 (delay user_default)) = Some f' /\ f' <= 12 /\
    (300 <= measured_delay 700 (delay user_default) -> f' <= 6) /\ (600 <= measured_delay 700 (delay user_default) -> f' <= 3).
Proof. apply congestion_caps_user_fps; [unfold MIN_FPS, MAX_FPS; lia|vm_compute; congruence]. Defined.

Lemma moderate_delay_keeps_min_fps_witness :
  exists f', d_fps (measure 30 120 (fps_bounds BR_BEST) 180 (delay user_default)) = Some f' /\ Z.min 120 (fps_bounds BR_BEST).1 <= f'.
Proof. apply moderate_delay_keeps_min_fps; [unfold MIN_FPS, MAX_FPS; lia|vm_compute; split; congruence]. Defined.

Lemma adjusted_ratio_below_target_witness :
  exists s', adjust_ratio 5 true one_user = Some s' /\
    SFleb BR_MIN_HIGH_RESOLUTION (ratio_of s') = true /\
    SFleb (ratio_of s') (quality_ratio (latest_quality one_user)) = true /\ adjust_ratio_instant s' = 5.
Proof.
  apply adjusted_ratio_below_target; [exact one_user_ok|vm_compute; reflexivity|].
  apply (bool_decide_eq_false_1 _). vm_compute. reflexivity.
Defined.

End VideoQosClaims.
