(* ===== verification/BrowserHost.v ===== *)
(** * The browser host

    Models [client/src/nestlink_browser.rs]: the capture and input worker that
    serves a browser under a signed grant.  The state of the worker thread, its
    commands, the input it injects (a log of device events), the loop that
    releases everything when the grant or the heartbeat lapses, and the password
    check.  Screen capture, JPEG and JSON are parameters; coordinates are
    binary64. *)
From stdpp Require Import base gmap list strings.
From Stdlib Require Import ZArith Lia Floats.SpecFloat.
From S2P Require Import Prelude RustStr Float HomedeskNet HomedeskConfig NestlinkAuth NestlinkPermit.

#[local] Open Scope Z_scope.

(** ** Data *)

Inductive Key :=
| Control | Shift | Alt | Meta | Return_ | Tab | Space | Backspace | Escape | Delete_ | Home | End_ | PageUp | PageDown
| LeftArrow | RightArrow | UpArrow | DownArrow
| F1 | F2 | F3 | F4 | F5 | F6 | F7 | F8 | F9 | F10 | F11 | F12
| Layout (c : Z).
#[global] Instance Key_eq_dec : EqDecision Key.
Proof. solve_decision. Defined.

Inductive MouseButton := Left | Middle | Right.
#[global] Instance MouseButton_eq_dec : EqDecision MouseButton.
Proof. solve_decision. Defined.

(** What reaches the input backend. *)
Inductive DeviceEvent :=
| KeyDown (k : Key) | KeyUp (k : Key) | MouseDown (b : MouseButton) | MouseUp (b : MouseButton)
| MoveTo (x y : Z) | ScrollX (n : Z) | ScrollY (n : Z) | KeySequence (s : str).

Inductive Command := Allow (id payload : str) | Frame | Input (payload : str) | Stop.

(** [keys] and [buttons] are [BTreeMap]s: sorted association lists. *)
Record State := MkState {
  s_id : str; s_epoch : Z; until : Z; beat_at : Z; capturer : bool; keys : list (str * Key);
  buttons : list (Z * MouseButton); width : Z; height : Z; s_origin : Z * Z; cached : str; log : list DeviceEvent }.

(** ** Keys *)

Definition key_names : list (string * Key) :=
  [("ControlLeft", Control); ("ControlRight", Control); ("ShiftLeft", Shift); ("ShiftRight", Shift);
   ("AltLeft", Alt); ("AltRight", Alt); ("MetaLeft", Meta); ("MetaRight", Meta);
   ("Enter", Return_); ("NumpadEnter", Return_); ("Tab", Tab); ("Space", Space); ("Backspace", Backspace);
   ("Escape", Escape); ("Delete", Delete_); ("Home", Home); ("End", End_); ("PageUp", PageUp); ("PageDown", PageDown);
   ("ArrowLeft", LeftArrow); ("ArrowRight", RightArrow); ("ArrowUp", UpArrow); ("ArrowDown", DownArrow);
   ("F1", F1); ("F2", F2); ("F3", F3); ("F4", F4); ("F5", F5); ("F6", F6);
   ("F7", F7); ("F8", F8); ("F9", F9); ("F10", F10); ("F11", F11); ("F12", F12);
   ("Comma", Layout 44); ("Period", Layout 46); ("Slash", Layout 47); ("Semicolon", Layout 59); ("Quote", Layout 39);
   ("BracketLeft", Layout 91); ("BracketRight", Layout 93); ("Backslash", Layout 92); ("Backquote", Layout 96);
   ("Minus", Layout 45); ("Equal", Layout 61)]%string.

Definition key (code : str) : option Key :=
  match list_find (fun p => lit p.1 = code) key_names with
  | Some (_, (_, k)) => Some k
  | None =>
    if (str_len code =? 4) && starts_with (lit "Key") code then c ← code !! 3%nat; Some (Layout (to_ascii_lowercase_c c))
    else if (str_len code =? 6) && starts_with (lit "Digit") code then c ← code !! 5%nat; Some (Layout c)
    else None
  end.

(** ** Ordered maps *)

Section BTree.
Context {K V : Type} (lt : K -> K -> bool) `{!EqDecision K}.
Fixpoint bt_insert (k : K) (v : V) (l : list (K * V)) : list (K * V) :=
  match l with
  | [] => [(k, v)]
  | (k', v') :: r => if decide (k = k') then (k, v) :: r else if lt k k' then (k, v) :: l else (k', v') :: bt_insert k v r
  end.
Definition bt_remove (k : K) (l : list (K * V)) : list (K * V) := filter (fun p => p.1 <> k) l.
Definition bt_mem (k : K) (l : list (K * V)) : bool := existsb (fun p => bool_decide (p.1 = k)) l.
End BTree.

Fixpoint str_lt (a b : str) : bool :=
  match a, b with
  | [], [] => false
  | [], _ :: _ => true
  | _ :: _, [] => false
  | x :: a', y :: b' => if x <? y then true else if x =? y then str_lt a' b' else false
  end.

(** ** Parameters *)

Record InputMsg := MkInput {
  kind : str; in_x : option float; in_y : option float; button : option Z; down : option bool;
  in_key : option str; text : option str }.

Inductive Pixfmt := BGRA | RGBA | OtherFmt.
Record PixelBuffer := MkFrame { f_width : nat; f_height : nat; stride : option nat; data : list Z; pixfmt : Pixfmt }.
Inductive FrameResult := FramePixels (f : PixelBuffer) | FrameTexture | FrameWouldBlock | FrameError (e : error).

Class BrowserExternals := {
  (** [serde_json::from_str] at the two payload types *)
  authorization_of : str -> option (str * str * str);
  input_of : str -> option InputMsg;
  (** [Display::primary] with its size and origin; [Capturer::new]; [Capturer::frame] *)
  primary_display : result error (Z * Z * (Z * Z));
  new_capturer : result error unit;
  capture : FrameResult;
  (** resizing above 1920x1080 and JPEG encoding *)
  jpeg : list Z -> nat -> nat -> result error (list Z);
  (** whether the backend accepts a key or button press *)
  press_ok : DeviceEvent -> bool;
  press_error : error;
}.

(** ** Pixels *)

(** [&data[offset..offset+4]]: a panic out of range. *)
Definition slice4 (d : list Z) (offset : nat) : option (list Z) :=
  if (offset + 4 <=? length d)%nat then Some (take 4 (drop offset d)) else None.

Definition pixel_rgb (fmt : Pixfmt) (p : list Z) : list Z :=
  match p with
  | [a; b; c; _] => match fmt with BGRA => [c; b; a] | _ => [a; b; c] end
  | _ => []
  end.

Definition frame_valid (f : PixelBuffer) : bool :=
  let st := default 0%nat (stride f) in
  negb ((st <? f_width f * 4)%nat || (length (data f) <? st * f_height f)%nat
        || match pixfmt f with OtherFmt => true | _ => false end).

(** The two nested loops, row by row. *)
Definition frame_rgb (f : PixelBuffer) : option (list Z) :=
  let st := default 0%nat (stride f) in
  foldl (fun acc row =>
    foldl (fun acc col => rgb ← acc; p ← slice4 (data f) (row * st + col * 4)%nat; Some (rgb ++ pixel_rgb (pixfmt f) p))
      acc (seq 0 (f_width f)))
    (Some []) (seq 0 (f_height f)).

Section Worker.
Context {S : Type} `{!OptionKeys, !BuildEnv, !ConfigStore S, !Externals, !AuthExternals, !PermitExternals, !BrowserExternals}.
Implicit Types (st : State) (w : Auth S * Z).

Definition new_state (now : Z) : State := MkState [] 0 now now false [] [] 0 0 (0, 0) [] [].

Definition emit (evs : list DeviceEvent) st : State :=
  MkState (s_id st) (s_epoch st) (until st) (beat_at st) (capturer st) (keys st) (buttons st) (width st) (height st)
    (s_origin st) (cached st) (log st ++ evs).
Definition set_held (ks : list (str * Key)) (bs : list (Z * MouseButton)) st : State :=
  MkState (s_id st) (s_epoch st) (until st) (beat_at st) (capturer st) ks bs (width st) (height st)
    (s_origin st) (cached st) (log st).

Definition live st w : bool :=
  negb (s_epoch st =? 0) && (w.2 <? until st) && browser_epoch_live (s_epoch st) w.

Definition release st : State :=
  let st := emit ((fun p => KeyUp p.2) <$> keys st) (set_held [] (buttons st) st) in
  emit ((fun p => MouseUp p.2) <$> buttons st) (set_held [] [] st).

Definition reset st : State :=
  let st := release st in
  MkState [] 0 (until st) (beat_at st) false (keys st) (buttons st) (width st) (height st) (s_origin st) [] (log st).

(** *** Input *)

Definition zero_f : float := S754_zero false.
Definition one_f : float := F64.of_Z 1.
Definition unit_interval (x : float) : bool := is_finite x && SFleb zero_f x && SFleb x one_f.
Definition small (x : float) : bool := is_finite x && negb (SFltb (F64.of_Z 5) (SFabs x)).

(** A coordinate on an axis of [size] pixels starting at [o]. *)
Definition axis (o size : Z) (x : float) : Z :=
  i32_add o (round_as_s 32 (F64.mul x (F64.of_Z (wrapu 64 (size - 1))))).

Definition mouse_button (index : Z) : option MouseButton :=
  if index =? 0 then Some Left else if index =? 1 then Some Middle else if index =? 2 then Some Right else None.

Definition press_button (index : Z) (b : MouseButton) (is_down : bool) st : result error unit * State :=
  if is_down then
    if bt_mem index (buttons st) then (Ok (), st)
    else if press_ok (MouseDown b)
    then (Ok (), set_held (keys st) (bt_insert Z.ltb index b (buttons st)) (emit [MouseDown b] st))
    else (Err press_error, st)
  else (Ok (), set_held (keys st) (bt_remove index (buttons st)) (emit [MouseUp b] st)).

Definition press_key (c : str) (k : Key) (is_down : bool) st : result error unit * State :=
  if is_down then
    if bt_mem c (keys st) then (Ok (), st)
    else if press_ok (KeyDown k)
    then (Ok (), set_held (bt_insert str_lt c k (keys st)) (buttons st) (emit [KeyDown k] st))
    else (Err press_error, st)
  else (Ok (), set_held (bt_remove c (keys st)) (buttons st) (emit [KeyUp k] st)).

Definition text_ok (t : str) : bool :=
  negb ((4096 <? str_len t) || existsb (fun c => is_control c && negb ((c =? 10) || (c =? 9))) t).

(** After the heartbeat was stamped. *)
Definition input_kind (m : InputMsg) st : result error unit * State :=
  if bool_decide (kind m = lit "heartbeat") then (Ok (), st)
  else if bool_decide (kind m = lit "release") then (Ok (), release st)
  else if bool_decide (kind m = lit "move") then
    match in_x m, in_y m with
    | None, _ => (Err (anyhow "Missing x"), st)
    | _, None => (Err (anyhow "Missing y"), st)
    | Some x, Some y =>
      if negb (unit_interval x) || negb (unit_interval y) || (width st =? 0) then (Err (anyhow "指针位置无效"), st)
      else (Ok (), emit [MoveTo (axis (s_origin st).1 (width st) x) (axis (s_origin st).2 (height st) y)] st)
    end
  else if bool_decide (kind m = lit "button") then
    match button m with
    | None => (Err (anyhow "Missing button"), st)
    | Some index =>
      match mouse_button index with
      | None => (Err (anyhow "鼠标按钮无效"), st)
      | Some b => press_button index b (bool_decide (down m = Some true)) st
      end
    end
  else if bool_decide (kind m = lit "wheel") then
    let x := default zero_f (in_x m) in
    let y := default zero_f (in_y m) in
    if negb (small x) || negb (small y) then (Err (anyhow "滚动值无效"), st)
    else (Ok (), emit [ScrollX (as_s 32 x); ScrollY (as_s 32 y)] st)
  else if bool_decide (kind m = lit "key") then
    match in_key m with
    | None => (Err (anyhow "Missing key"), st)
    | Some c =>
      match key c with
      | None => (Ok (), st)
      | Some k => press_key c k (bool_decide (down m = Some true)) st
      end
    end
  else if bool_decide (kind m = lit "text") then
    let t := default [] (text m) in
    if negb (text_ok t) then (Err (anyhow "文字输入无效"), st) else (Ok (), emit [KeySequence t] st)
  else (Err (anyhow "输入类型无效"), st).

Definition input (raw : str) (now : Z) st : result error unit * State :=
  if 8192 <? str_len raw then (Err (anyhow "输入超出限制"), st)
  else match input_of raw with
  | None => (Err json_error, st)
  | Some m =>
    input_kind m (MkState (s_id st) (s_epoch st) (until st) now (capturer st) (keys st) (buttons st) (width st) (height st)
                    (s_origin st) (cached st) (log st))
  end.

(** *** Capture *)

Definition open_capturer st : result error unit * State :=
  if capturer st then (Ok (), st)
  else match primary_display with
  | Err e => (Err e, st)
  | Ok (wd, ht, o) =>
    let st := MkState (s_id st) (s_epoch st) (until st) (beat_at st) (capturer st) (keys st) (buttons st) wd ht o (cached st) (log st) in
    if (wd =? 0) || (ht =? 0) || (8192 <? wd) || (8192 <? ht) || (32768000 <? wd * ht) then (Err (anyhow "屏幕尺寸超出限制"), st)
    else match new_capturer with
    | Err e => (Err e, st)
    | Ok _ => (Ok (), MkState (s_id st) (s_epoch st) (until st) (beat_at st) true (keys st) (buttons st) wd ht o (cached st) (log st))
    end
  end.

Definition set_cached (c : str) st : State :=
  MkState (s_id st) (s_epoch st) (until st) (beat_at st) (capturer st) (keys st) (buttons st) (width st) (height st)
    (s_origin st) c (log st).

(** The body of [Frame] after the capturer is open; [None] is a panic. *)
Definition frame_answer st : option (result error str * State) :=
  match capture with
  | FrameWouldBlock => Some (Ok (cached st), st)
  | FrameError e => Some (Err e, st)
  | FrameTexture => Some (Err (anyhow "屏幕捕获格式不支持"), st)
  | FramePixels f =>
    if negb (frame_valid f) then Some (Err (anyhow "屏幕数据无效"), st)
    else
      rgb ← frame_rgb f;
      Some match jpeg rgb (f_width f) (f_height f) with
      | Err e => (Err e, st)
      | Ok bytes =>
        if 2097152 <? Z.of_nat (length bytes) then (Err (anyhow "屏幕帧超出限制"), st)
        else let st := set_cached (std_encode bytes) st in (Ok (cached st), st)
      end
  end.

(** *** Commands *)

(** [w] is the world at the command, [wall] its wall-clock second. *)
Definition handle (cmd : Command) (wall : Z) w st : option (result error str * State) :=
  match cmd with
  | Stop => Some (Ok [], reset st)
  | Allow id payload =>
    match authorization_of payload with
    | None => Some (Err json_error, st)
    | Some (grant, offer, answer) =>
      match browser_grant grant id offer answer wall w with
      | Err e => Some (Err e, st)
      | Ok (ep, remaining) =>
        let st := if bool_decide (s_id st = id) then st
                  else let st := reset st in
                       MkState id (s_epoch st) (until st) w.2 (capturer st) (keys st) (buttons st) (width st) (height st)
                         (s_origin st) (cached st) (log st) in
        Some (Ok [], MkState (s_id st) ep (w.2 + secs remaining) (beat_at st) (capturer st) (keys st) (buttons st)
                       (width st) (height st) (s_origin st) (cached st) (log st))
      end
    end
  | Input raw =>
    if negb (live st w) then Some (Err (anyhow "远控登录或许可已失效"), st)
    else let '(r, st) := input raw w.2 st in Some ((fun _ => []) <$> r, st)
  | Frame =>
    if negb (live st w) then Some (Err (anyhow "远控登录或许可已失效"), st)
    else match open_capturer st with
    | (Err e, st) => Some (Err e, st)
    | (Ok _, st) => frame_answer st
    end
  end.

(** One turn of the worker loop: at most one command, then the two checks, each
    in the world of its moment. *)
Definition turn (cmd : option Command) (wall : Z) (w w1 w2 : Auth S * Z) st : option State :=
  st ← match cmd with
       | None => Some st
       | Some c => '(r, st) ← handle c wall w st;
                   Some (match r with Ok _ => st | Err _ => reset st end)
       end;
  let st := if negb (s_epoch st =? 0) && (negb (live st w1) || (secs 3 <? w1.2 - beat_at st)) then release st else st in
  Some (if negb (s_epoch st =? 0) && negb (live st w2) then reset st else st).

(** [call]: which command a request becomes. *)
Definition command_of (knd id payload : str) : Command :=
  if bool_decide (knd = lit "allow") then Allow id payload
  else if bool_decide (knd = lit "frame") then Frame
  else if bool_decide (knd = lit "input") then Input payload
  else Stop.

End Worker.

(** ** The password check *)

Record PasswordPolicy := MkPolicy {
  auth_ready : bool; approve_click : bool; temporary_enabled : bool; temporary_password : str; permanent_enabled : bool;
  local_storage : str; local_salt : str; preset_storage : str; preset_salt : str;
  (** decoding of the stored digests, and SHA-256 *)
  decode_local_h1 : str -> option (list Z); decode_preset_h1 : str -> option (list Z); sha256 : list Z -> list Z }.

Definition check_password (p : PasswordPolicy) (candidate : str) : bool :=
  if negb (auth_ready p) || bool_decide (candidate = []) || (512 <? str_len candidate) || approve_click p then false
  else if temporary_enabled p && bool_decide (str_bytes candidate = str_bytes (temporary_password p)) then true
  else if negb (permanent_enabled p) then false
  else
    let '(storage, salt, preset) :=
      if bool_decide (local_storage p = []) then (preset_storage p, preset_salt p, true)
      else (local_storage p, local_salt p, false) in
    if bool_decide (storage = []) then false
    else match (if preset then decode_preset_h1 p storage else decode_local_h1 p storage) with
    | Some h => bool_decide (h = sha256 p (str_bytes candidate ++ str_bytes salt))
    | None => bool_decide (str_bytes storage = str_bytes candidate)
    end.

(** ** What is held down *)

Definition step_keys (held : list Key) (ev : DeviceEvent) : list Key :=
  match ev with KeyDown k => k :: held | KeyUp k => filter (fun x => x <> k) held | _ => held end.
Definition step_buttons (held : list MouseButton) (ev : DeviceEvent) : list MouseButton :=
  match ev with MouseDown b => b :: held | MouseUp b => filter (fun x => x <> b) held | _ => held end.
Definition held_keys (l : list DeviceEvent) : list Key := foldl step_keys [] l.
Definition held_buttons (l : list DeviceEvent) : list MouseButton := foldl step_buttons [] l.

(** Everything held is recorded; an idle worker holds and captures nothing. *)
Record worker_ok (st : State) : Prop := {
  wo_keys k : k ∈ held_keys (log st) -> k ∈ (keys st).*2;
  wo_buttons b : b ∈ held_buttons (log st) -> b ∈ (buttons st).*2;
  wo_key_names c k : (c, k) ∈ keys st -> key c = Some k;
  wo_button_names i b : (i, b) ∈ buttons st -> mouse_button i = Some b;
  wo_idle : s_epoch st = 0 -> keys st = [] /\ buttons st = [] /\ capturer st = false /\ s_id st = [] }.

Lemma held_keys_app l l' : held_keys (l ++ l') = foldl step_keys (held_keys l) l'.
Proof. apply foldl_app. Qed.
Lemma held_buttons_app l l' : held_buttons (l ++ l') = foldl step_buttons (held_buttons l) l'.
Proof. apply foldl_app. Qed.

(** Releasing a list of keys lifts each of them. *)
Lemma key_ups (ks : list (str * Key)) held k :
  k ∈ foldl step_keys held ((fun p => KeyUp p.2) <$> ks) <-> k ∈ held /\ k ∉ ks.*2.
Proof.
  revert held. induction ks as [|[c k'] ks IH]; intros held; simpl; [rewrite elem_of_nil; tauto|].
  rewrite IH, list_elem_of_filter, not_elem_of_cons. tauto.
Qed.
Lemma button_ups (bs : list (Z * MouseButton)) held b :
  b ∈ foldl step_buttons held ((fun p => MouseUp p.2) <$> bs) <-> b ∈ held /\ b ∉ bs.*2.
Proof.
  revert held. induction bs as [|[c b'] bs IH]; intros held; simpl; [rewrite elem_of_nil; tauto|].
  rewrite IH, list_elem_of_filter, not_elem_of_cons. tauto.
Qed.
Lemma button_ups_keys (bs : list (Z * MouseButton)) held :
  foldl step_keys held ((fun p => MouseUp p.2) <$> bs) = held.
Proof. induction bs; simpl; auto. Qed.
Lemma key_ups_buttons (ks : list (str * Key)) held :
  foldl step_buttons held ((fun p => KeyUp p.2) <$> ks) = held.
Proof. induction ks; simpl; auto. Qed.

Lemma release_clears st : worker_ok st ->
  held_keys (log (release st)) = [] /\ held_buttons (log (release st)) = [].
Proof.
  intros [Hk Hb _ _ _]. unfold release. simpl.
  rewrite !held_keys_app, !held_buttons_app, button_ups_keys, key_ups_buttons. split.
  - apply elem_of_nil_inv. intros k. rewrite key_ups. intros [Hin Hn]. auto.
  - apply elem_of_nil_inv. intros b. rewrite button_ups. intros [Hin Hn]. auto.
Qed.

Lemma release_ok st : worker_ok st -> worker_ok (release st).
Proof.
  intros Hok. destruct (release_clears st Hok) as [E1 E2]. split.
  - rewrite E1. intros k Hin. by apply not_elem_of_nil in Hin.
  - rewrite E2. intros b Hin. by apply not_elem_of_nil in Hin.
  - intros c k Hin. by apply not_elem_of_nil in Hin.
  - intros i b Hin. by apply not_elem_of_nil in Hin.
  - simpl. intros He. destruct (wo_idle _ Hok He) as (_ & _ & ? & ?). done.
Qed.

Lemma reset_ok st : worker_ok st -> worker_ok (reset st).
Proof. intros Hok. destruct (release_ok st Hok) as [H1 H2 H3 H4 _]. split; simpl in *; auto. Qed.

(** ** Ordered maps *)

Lemma bt_insert_snd {K V} (lt : K -> K -> bool) `{!EqDecision K} k (v x : V) (l : list (K * V)) :
  bt_mem k l = false -> x ∈ (bt_insert lt k v l).*2 <-> x = v \/ x ∈ l.*2.
Proof.
  induction l as [|[k' v'] l IH]; simpl; intros Hm; [rewrite elem_of_cons, elem_of_nil; tauto|].
  apply orb_false_elim in Hm as [Hne Hm]. apply bool_decide_eq_false in Hne. simpl in Hne.
  destruct (decide (k = k')) as [->|]; [done|].
  destruct (lt k k'); simpl; rewrite !elem_of_cons; [tauto|]. rewrite IH by done. tauto.
Qed.

Lemma bt_remove_snd {K V} `{!EqDecision K} k (x : V) (l : list (K * V)) :
  x ∈ l.*2 -> x ∈ (bt_remove k l).*2 \/ (k, x) ∈ l.
Proof.
  intros Hx. apply list_elem_of_fmap in Hx as ([k' x'] & -> & Hin). destruct (decide (k' = k)) as [->|Hne].
  - by right.
  - left. apply list_elem_of_fmap. exists (k', x'). split; [done|]. by apply list_elem_of_filter.
Qed.

Lemma bt_insert_in {K V} (lt : K -> K -> bool) `{!EqDecision K} k (v : V) (l : list (K * V)) p :
  p ∈ bt_insert lt k v l -> p = (k, v) \/ p ∈ l.
Proof.
  induction l as [|[k' v'] l IH]; simpl; [rewrite elem_of_cons, elem_of_nil; tauto|].
  destruct (decide (k = k')) as [->|]; [rewrite !elem_of_cons; tauto|].
  destruct (lt k k'); rewrite !elem_of_cons; [tauto|]. intros [->|Hin]; [tauto|]. destruct (IH Hin); tauto.
Qed.

(** ** Preservation *)

Section Preservation.
Context {S : Type} `{!OptionKeys, !BuildEnv, !ConfigStore S, !Externals, !AuthExternals, !PermitExternals, !BrowserExternals}.
Implicit Types (st : State) (w : Auth S * Z).

(** Steps that keep keys, buttons and what is held. *)
Lemma worker_ok_same st st' :
  worker_ok st -> keys st' = keys st -> buttons st' = buttons st ->
  held_keys (log st') = held_keys (log st) -> held_buttons (log st') = held_buttons (log st) ->
  (s_epoch st' = 0 -> s_epoch st = 0 /\ capturer st' = capturer st /\ s_id st' = s_id st) -> worker_ok st'.
Proof.
  intros [Hw1 Hw2 Hw3 Hw4 Hw5] E1 E2 E3 E4 E5. split; rewrite ?E1, ?E2, ?E3, ?E4; auto.
  intros He. destruct (E5 He) as (He' & E6 & E7). rewrite E6, E7. auto.
Qed.

Lemma press_key_ok c k b st : worker_ok st -> s_epoch st <> 0 -> key c = Some k -> worker_ok (press_key c k b st).2.
Proof.
  intros [Hw1 Hw2 Hw3 Hw4 Hw5] Hep Hc. unfold press_key. destruct b.
  - destruct (bt_mem c (keys st)) eqn:Hm; [by split|]. destruct (press_ok (KeyDown k)); [|by split].
    split; simpl; rewrite ?held_keys_app, ?held_buttons_app; simpl; auto.
    + intros x. rewrite (bt_insert_snd _ _ _ _ _ Hm), elem_of_cons. intros [->|Hx]; auto.
    + intros c' k' Hin. apply bt_insert_in in Hin as [[= -> ->]|Hin]; auto.
    + intros He. congruence.
  - split; simpl; rewrite ?held_keys_app, ?held_buttons_app; simpl; auto.
    + intros x. rewrite list_elem_of_filter. intros [Hne Hx]. destruct (bt_remove_snd c x (keys st) (Hw1 _ Hx)) as [?|Hin]; [done|].
      apply Hw3 in Hin. congruence.
    + intros c' k' Hin. apply Hw3. by apply list_elem_of_filter in Hin as [_ ?].
    + intros He. congruence.
Qed.

Lemma press_button_ok i k b st : worker_ok st -> s_epoch st <> 0 -> mouse_button i = Some k -> worker_ok (press_button i k b st).2.
Proof.
  intros [Hw1 Hw2 Hw3 Hw4 Hw5] Hep Hc. unfold press_button. destruct b.
  - destruct (bt_mem i (buttons st)) eqn:Hm; [by split|]. destruct (press_ok (MouseDown k)); [|by split].
    split; simpl; rewrite ?held_keys_app, ?held_buttons_app; simpl; auto.
    + intros x. rewrite (bt_insert_snd _ _ _ _ _ Hm), elem_of_cons. intros [->|Hx]; auto.
    + intros c' k' Hin. apply bt_insert_in in Hin as [[= -> ->]|Hin]; auto.
    + intros He. congruence.
  - split; simpl; rewrite ?held_keys_app, ?held_buttons_app; simpl; auto.
    + intros x. rewrite list_elem_of_filter. intros [Hne Hx]. destruct (bt_remove_snd i x (buttons st) (Hw2 _ Hx)) as [?|Hin]; [done|].
      apply Hw4 in Hin. congruence.
    + intros c' k' Hin. apply Hw4. by apply list_elem_of_filter in Hin as [_ ?].
    + intros He. congruence.
Qed.

(** Events that press nothing. *)
Lemma emit_ok evs st : worker_ok st ->
  Forall (fun ev => match ev with MoveTo _ _ | ScrollX _ | ScrollY _ | KeySequence _ => True | _ => False end) evs ->
  worker_ok (emit evs st).
Proof.
  intros Hok Hev. assert (Hh : held_keys (log st ++ evs) = held_keys (log st) /\ held_buttons (log st ++ evs) = held_buttons (log st)).
  { rewrite held_keys_app, held_buttons_app. induction Hev as [|ev evs Hev _ IH]; [done|]. simpl. by destruct ev. }
  destruct Hh. by eapply worker_ok_same.
Qed.

Lemma input_kind_ok m st : worker_ok st -> s_epoch st <> 0 -> worker_ok (input_kind m st).2.
Proof.
  intros Hok Hep. unfold input_kind.
  repeat match goal with |- context [bool_decide (kind m = ?x)] => destruct (bool_decide (kind m = x)) end; try done.
  - by apply release_ok.
  - destruct (in_x m); [|done]. destruct (in_y m); [|done]. destruct (_ || _); [done|]. apply emit_ok; [done|]. by repeat constructor.
  - destruct (button m) as [i|]; [|done]. destruct (mouse_button i) as [b|] eqn:Hb; [|done]. by apply press_button_ok.
  - destruct (_ || _); [done|]. apply emit_ok; [done|]. by repeat constructor.
  - destruct (in_key m) as [c|]; [|done]. destruct (key c) as [k|] eqn:Hk; [|done]. by apply press_key_ok.
  - destruct (negb _); [done|]. apply emit_ok; [done|]. by repeat constructor.
Qed.

Lemma live_epoch st w : live st w = true -> s_epoch st <> 0.
Proof. unfold live. intros Hl. bools. done. Qed.

Lemma open_capturer_ok st : worker_ok st -> s_epoch st <> 0 ->
  worker_ok (open_capturer st).2 /\ s_epoch (open_capturer st).2 = s_epoch st.
Proof.
  intros Hok Hep. unfold open_capturer. destruct (capturer st); [done|].
  destruct primary_display as [[[wd ht] o]|]; [|done]. destruct (_ || _); simpl; [split; [|done]; by eapply worker_ok_same|].
  destruct new_capturer; simpl; (split; [|done]); by eapply worker_ok_same.
Qed.

Lemma frame_answer_ok st r st' : worker_ok st -> s_epoch st <> 0 -> frame_answer st = Some (r, st') -> worker_ok st'.
Proof.
  intros Hok Hep. unfold frame_answer. destruct capture; try (by intros [= <- <-]).
  destruct (negb _); [by intros [= <- <-]|]. destruct (frame_rgb f); simpl; [|done].
  destruct (jpeg _ _ _); [|by intros [= <- <-]]. destruct (_ <? _); [by intros [= <- <-]|]. intros [= <- <-].
  by eapply worker_ok_same.
Qed.

(** The epochs of installed authorizations are never zero. *)
Definition epochs_positive w : Prop := forall v, auth w.1 = Some v -> va_epoch v <> 0.

Lemma grant_epoch g id o a wall w ep rem : epochs_positive w -> browser_grant g id o a wall w = Ok (ep, rem) -> ep <> 0.
Proof.
  intros Hep. unfold browser_grant, snapshot, live_auth. destruct (auth w.1) as [v|] eqn:Ha; [|done]. simpl.
  destruct (_ <? _); [|done]. simpl. destruct (sharing_stopped _); [done|].
  destruct (verify_browser_grant_at _ _ _); [|done]. simpl. destruct (_ || _); [done|]. intros [= <- _]. by apply Hep.
Qed.

Lemma handle_ok cmd wall w st r st' : worker_ok st -> epochs_positive w -> handle cmd wall w st = Some (r, st') -> worker_ok st'.
Proof.
  intros Hok Hpos. unfold handle. destruct cmd as [id payload| |raw|].
  - destruct (authorization_of payload) as [[[g o] a]|]; [|by intros [= <- <-]].
    destruct (browser_grant g id o a wall w) as [[ep rem]|] eqn:Hg; [|by intros [= <- <-]]. intros [= <- <-].
    apply grant_epoch in Hg; [|done]. case_bool_decide.
    + eapply worker_ok_same; [exact Hok|done..].
    + eapply worker_ok_same; [exact (reset_ok st Hok)|done..].
  - destruct (live st w) eqn:Hl; simpl; [|by intros [= <- <-]]. apply live_epoch in Hl.
    destruct (open_capturer_ok st Hok Hl) as [Ho He].
    destruct (open_capturer st) as [[[]|e] st1]; simpl in *; [|by intros [= <- <-]].
    intros Hf. eapply frame_answer_ok; [exact Ho|congruence|exact Hf].
  - destruct (live st w) eqn:Hl; simpl; [|by intros [= <- <-]]. apply live_epoch in Hl.
    unfold input. destruct (8192 <? _); [by intros [= <- <-]|]. destruct (input_of raw) as [m|]; [|by intros [= <- <-]].
    pose proof (input_kind_ok m (MkState (s_id st) (s_epoch st) (until st) w.2 (capturer st) (keys st) (buttons st) (width st)
      (height st) (s_origin st) (cached st) (log st))) as Hi.
    destruct (input_kind _ _) as [r0 st0]; simpl in Hi. intros [= <- <-]. apply Hi; [|done]. by eapply worker_ok_same.
  - intros [= <- <-]. by apply reset_ok.
Qed.

(** What the worker holds before the two checks of a turn. *)
Lemma turn_command_ok cmd wall w st st' : worker_ok st -> epochs_positive w ->
  match cmd with
  | None => Some st
  | Some c => '(r, st) ← handle c wall w st; Some (match r with Ok _ => st | Err _ => reset st end)
  end = Some st' -> worker_ok st'.
Proof.
  intros Hok Hpos. destruct cmd as [c|]; [|by intros [= <-]].
  destruct (handle c wall w st) as [[r st1]|] eqn:Hh; simpl; [|done]. apply handle_ok in Hh; [|done..].
  destruct r; intros [= <-]; [done|by apply reset_ok].
Qed.

End Preservation.

(** ** Properties *)
Module BrowserHostClaims.

Section Claims.
Context {S : Type} `{!OptionKeys, !BuildEnv, !ConfigStore S, !Externals, !AuthExternals, !PermitExternals, !BrowserExternals}.
Implicit Types (st : State) (w : Auth S * Z).

(** A sequence of turns, each with its command and its worlds. *)
Definition Turn : Type := option Command * Z * (Auth S * Z) * (Auth S * Z) * (Auth S * Z).
Definition turns (ts : list Turn) st : option State :=
  foldl (fun acc '(cmd, wall, w, w1, w2) => st ← acc; turn cmd wall w w1 w2 st) (Some st) ts.

Lemma turn_ok cmd wall w w1 w2 st st' : worker_ok st -> epochs_positive w -> turn cmd wall w w1 w2 st = Some st' -> worker_ok st'.
Proof.
  intros Hok Hpos. unfold turn. destruct (match cmd with None => _ | Some _ => _ end) as [st1|] eqn:Hc; simpl; [|done].
  apply turn_command_ok in Hc; [|done..]. intros [= <-].
  set (st2 := if negb (s_epoch st1 =? 0) && _ then release st1 else st1).
  assert (Hok2 : worker_ok st2) by (unfold st2; case_match; [by apply release_ok|done]).
  case_match; [by apply reset_ok|done].
Qed.

Lemma new_state_ok now : worker_ok (new_state now).
Proof. split; simpl; intros; try done; (by match goal with H : _ ∈ [] |- _ => apply not_elem_of_nil in H end). Qed.

Lemma turns_ok (ts : list Turn) st st' : worker_ok st -> Forall (fun t : Turn => epochs_positive t.1.1.2) ts ->
  turns ts st = Some st' -> worker_ok st'.
Proof.
  unfold turns. intros Hok Hpos. revert st Hok. induction Hpos as [|[[[[c wall] w] w1] w2] ts Hp _ IH]; intros st Hok; simpl.
  - by intros [= <-].
  - destruct (turn c wall w w1 w2 st) as [st1|] eqn:Ht.
    + intros Hf. eapply IH; [|exact Hf]. by eapply turn_ok.
    + intros Hf. exfalso. clear -Hf. induction ts as [|[[[[? ?] ?] ?] ?] ts IH]; simpl in Hf; [done|]. by apply IH.
Qed.

(** C31: No stuck input and no orphaned capture: whatever the browser sent before,
    when a turn of the worker ends without a live grant (expired, logged out,
    another account, sharing stopped), every key and button it pressed has been
    released, nothing is recorded as held, and the capturer is closed. *)
Theorem nothing_held_without_grant (ts : list Turn) (now : Z) st (cmd : option Command) (wall : Z) w w1 w2 st'
    (Hts : turns ts (new_state now) = Some st)
    (Hpos : Forall (fun t : Turn => epochs_positive t.1.1.2) (ts ++ [(cmd, wall, w, w1, w2)]))
    (Hturn : turn cmd wall w w1 w2 st = Some st') (Hdead : live st' w2 = false) :
  held_keys (log st') = [] /\ held_buttons (log st') = [] /\ keys st' = [] /\ buttons st' = [] /\
  capturer st' = false /\ s_id st' = [] /\ s_epoch st' = 0.
Proof.
  apply Forall_app in Hpos as [Hp1 Hp2]. apply Forall_cons in Hp2 as [Hp2 _]. simpl in Hp2.
  pose proof (turns_ok ts _ st (new_state_ok now) Hp1 Hts) as Hok. pose proof (turn_ok _ _ _ _ _ _ _ Hok Hp2 Hturn) as Hok'.
  assert (He : s_epoch st' = 0).
  { unfold turn in Hturn. destruct (match cmd with None => _ | Some _ => _ end) as [st1|]; simpl in Hturn; [|done].
    injection Hturn as <-. set (st2 := if negb (s_epoch st1 =? 0) && _ then release st1 else st1) in *.
    destruct (Z.eqb_spec (s_epoch st2) 0) as [E|E]; simpl in *; [done|].
    destruct (live st2 w2) eqn:Hl; simpl in *; [congruence|done]. }
  destruct (wo_idle _ Hok' He) as (Hk & Hb & Hc & Hid).
  assert (Hhk : held_keys (log st') = []).
  { apply elem_of_nil_inv. intros k Hin. apply (wo_keys _ Hok') in Hin. rewrite Hk in Hin. by apply not_elem_of_nil in Hin. }
  assert (Hhb : held_buttons (log st') = []).
  { apply elem_of_nil_inv. intros b Hin. apply (wo_buttons _ Hok') in Hin. rewrite Hb in Hin. by apply not_elem_of_nil in Hin. }
  done.
Qed.

(** A silent browser cannot keep a key down: when the last input is more than
    3 seconds old at the check, nothing is held after the turn. *)
Theorem silence_releases_input (cmd : option Command) (wall : Z) w w1 w2 st st'
    (Hok : worker_ok st) (Hpos : epochs_positive w) (Hturn : turn cmd wall w w1 w2 st = Some st')
    (Hsilent : secs 3 < w1.2 - beat_at st') :
  held_keys (log st') = [] /\ held_buttons (log st') = [].
Proof.
  unfold turn in Hturn. destruct (match cmd with None => _ | Some _ => _ end) as [st1|] eqn:Hc; simpl in Hturn; [|done].
  apply turn_command_ok in Hc; [|done..]. injection Hturn as Hst'.
  assert (Hbeat : beat_at st' = beat_at st1) by (rewrite <- Hst'; repeat case_match; done).
  rewrite Hbeat in Hsilent. apply Z.ltb_lt in Hsilent. rewrite Hsilent, orb_true_r, andb_true_r in Hst'.
  destruct (Z.eqb_spec (s_epoch st1) 0) as [He|He]; simpl in Hst'.
  - rewrite He in Hst'. simpl in Hst'. subst st'. destruct (wo_idle _ Hc He) as (Hk & Hb & _).
    split; apply elem_of_nil_inv; intros x Hin.
    + apply (wo_keys _ Hc) in Hin. rewrite Hk in Hin. by apply not_elem_of_nil in Hin.
    + apply (wo_buttons _ Hc) in Hin. rewrite Hb in Hin. by apply not_elem_of_nil in Hin.
  - pose proof (release_ok st1 Hc) as Hr. case_match; subst st'; [apply (release_clears (release st1) Hr)|by apply release_clears].
Qed.

Definition lifts_only (evs : list DeviceEvent) : Prop :=
  Forall (fun ev => match ev with KeyUp _ | MouseUp _ => True | _ => False end) evs.

Lemma release_log st : exists evs, log (release st) = log st ++ evs /\ lifts_only evs.
Proof.
  unfold release; simpl. rewrite <- app_assoc. eexists. split; [done|]. apply Forall_app. unfold lifts_only.
  split; apply Forall_fmap; by apply Forall_true.
Qed.

Lemma reset_log st : exists evs, log (reset st) = log st ++ evs /\ lifts_only evs.
Proof. apply (release_log st). Qed.

(** Input needs a live grant: a turn that starts without one injects nothing;
    the only events it can send are releases. *)
Theorem no_input_without_grant (cmd : option Command) (wall : Z) w w1 w2 st st'
    (Hdead : live st w = false) (Hturn : turn cmd wall w w1 w2 st = Some st') :
  exists evs, log st' = log st ++ evs /\ lifts_only evs.
Proof.
  assert (Hfinish : forall st1, (exists evs, log st1 = log st ++ evs /\ lifts_only evs) ->
    forall b, exists evs, log (if b : bool then release st1 else st1) = log st ++ evs /\ lifts_only evs).
  { intros st1 (evs & E & Hl) []; [|eauto]. destruct (release_log st1) as (evs' & E' & Hl').
    exists (evs ++ evs'). rewrite E', E, app_assoc. split; [done|]. by apply Forall_app. }
  assert (Hfinish' : forall st1, (exists evs, log st1 = log st ++ evs /\ lifts_only evs) ->
    forall b, exists evs, log (if b : bool then reset st1 else st1) = log st ++ evs /\ lifts_only evs).
  { intros st1 (evs & E & Hl) []; [|eauto]. destruct (reset_log st1) as (evs' & E' & Hl').
    exists (evs ++ evs'). rewrite E', E, app_assoc. split; [done|]. by apply Forall_app. }
  assert (Hself : exists evs, log st = log st ++ evs /\ lifts_only evs) by (exists []; rewrite app_nil_r; split; [done|constructor]).
  unfold turn in Hturn. destruct (match cmd with None => _ | Some _ => _ end) as [st1|] eqn:Hc; simpl in Hturn; [|done].
  injection Hturn as <-. apply Hfinish', Hfinish.
  destruct cmd as [[id payload| |raw|]|]; simpl in Hc.
  - destruct (authorization_of payload) as [[[g o] a]|]; simpl in Hc; [|injection Hc as <-; apply reset_log].
    destruct (browser_grant g id o a wall w) as [[ep rem]|]; simpl in Hc; injection Hc as <-; [|apply reset_log].
    simpl. case_bool_decide; [done|apply reset_log].
  - rewrite Hdead in Hc. injection Hc as <-. apply reset_log.
  - rewrite Hdead in Hc. injection Hc as <-. apply reset_log.
  - injection Hc as <-. apply reset_log.
  - injection Hc as <-. done.
Qed.

(** The frame conversion stays inside the captured buffer: a frame that passes
    the size check converts without an out-of-range access to exactly three
    bytes per pixel. *)
Theorem frame_conversion_in_bounds (f : PixelBuffer) (Hvalid : frame_valid f = true) :
  exists rgb, frame_rgb f = Some rgb /\ length rgb = (3 * (f_width f * f_height f))%nat.
Proof.
  unfold frame_valid in Hvalid. apply negb_true_iff, orb_false_elim in Hvalid as [Hvalid _].
  apply orb_false_elim in Hvalid as [Hst Hlen]. apply Nat.ltb_ge in Hst, Hlen. unfold frame_rgb.
  set (sd := default 0%nat (stride f)) in *.
  assert (Hcol : forall row acc n, (row < f_height f)%nat -> (n <= f_width f)%nat -> exists rgb,
    foldl (fun acc col => rgb ← acc; p ← slice4 (data f) (row * sd + col * 4)%nat; Some (rgb ++ pixel_rgb (pixfmt f) p))
      (Some acc) (seq 0 n) = Some rgb /\ length rgb = (length acc + 3 * n)%nat).
  { intros row acc n Hrow. induction n as [|n IH]; intros Hn; [exists acc; split; [done|lia]|].
    destruct IH as (rgb & E & Hl); [lia|]. rewrite seq_S, foldl_app, E. simpl. unfold slice4.
    assert (Hoff : (row * sd + n * 4 + 4 <= length (data f))%nat) by nia. apply Nat.leb_le in Hoff. rewrite Hoff. simpl.
    eexists. split; [reflexivity|]. rewrite length_app. unfold pixel_rgb.
    apply Nat.leb_le in Hoff. pose proof (length_take_le (drop (row * sd + n * 4) (data f)) 4) as Ht.
    rewrite length_drop in Ht. specialize (Ht ltac:(lia)).
    destruct (take 4 _) as [|a [|b [|c [|d [|? ?]]]]]; simpl in Ht; try lia. destruct (pixfmt f); simpl; lia. }
  assert (Hrow : forall n, (n <= f_height f)%nat -> exists rgb,
    foldl (fun acc row => foldl (fun acc col => rgb ← acc; p ← slice4 (data f) (row * sd + col * 4)%nat;
      Some (rgb ++ pixel_rgb (pixfmt f) p)) acc (seq 0 (f_width f))) (Some []) (seq 0 n) = Some rgb /\
    length rgb = (3 * (f_width f * n))%nat).
  { induction n as [|n IH]; intros Hn; [exists []; split; [done|simpl; lia]|].
    destruct IH as (rgb & E & Hl); [lia|]. rewrite seq_S, foldl_app, E. simpl.
    destruct (Hcol n rgb (f_width f)) as (rgb' & E' & Hl'); [lia..|]. exists rgb'. split; [done|]. rewrite Hl', Hl. lia. }
  by apply Hrow.
Qed.

End Claims.

(** *** Witnesses *)

Import ExampleConfig ExampleAuth ExamplePermit.

Definition ctrl_down : InputMsg := MkInput (lit "key") None None None (Some true) (Some (lit "ControlLeft")) None.

#[global] Instance browser_externals : BrowserExternals := {|
  authorization_of _ := Some (token_g, hex64, hex64);
  input_of _ := Some ctrl_down;
  primary_display := Ok (1920, 1080, (0, 0));
  new_capturer := Ok ();
  capture := FrameWouldBlock;
  jpeg _ _ _ := Ok [];
  press_ok _ := true;
  press_error := anyhow "press" |}.

(** The browser is admitted and holds a key; the clock stands still. *)
Definition at_0 : Auth SimpleStore * Z := (logged_in, 0).
Definition at_20 : Auth SimpleStore * Z := (logged_in, secs 20).
Definition history : list (Turn (S := SimpleStore)) :=
  [(Some (Allow permit_id []), 1003, at_0, at_0, at_0); (Some (Input []), 1003, at_0, at_0, at_0)].
Definition holding : State := Eval vm_compute in default (new_state 0) (turns history (new_state 0)).

Example holding_ctrl : held_keys (log holding) = [Control].
Proof. vm_compute. reflexivity. Qed.

Definition after : State := Eval vm_compute in default (new_state 0) (turn None 1023 at_20 at_20 at_20 holding).

Lemma logged_in_positive (now : Z) : epochs_positive (logged_in, now).
Proof. intros v. cbn [fst]. rewrite logged_in_auth. intros [= <-]. done. Qed.

Lemma nothing_held_without_grant_witness :
  held_keys (log after) = [] /\ held_buttons (log after) = [] /\ keys after = [] /\ buttons after = [] /\
  capturer after = false /\ s_id after = [] /\ s_epoch after = 0.
Proof.
  apply (nothing_held_without_grant history 0 holding None 1023 at_20 at_20 at_20).
  - vm_cast_no_check (eq_refl (Some holding)).
  - repeat constructor; apply logged_in_positive.
  - vm_cast_no_check (eq_refl (Some after)).
  - vm_cast_no_check (eq_refl false).
Defined.

Lemma holding_ok : worker_ok holding.
Proof.
  apply (turns_ok history (new_state 0)); [apply new_state_ok|repeat constructor; apply logged_in_positive|].
  vm_cast_no_check (eq_refl (Some holding)).
Qed.

Lemma silence_releases_input_witness : held_keys (log after) = [] /\ held_buttons (log after) = [].
Proof.
  apply (silence_releases_input None 1023 at_20 at_20 at_20 holding).
  - exact holding_ok.
  - apply logged_in_positive.
  - vm_cast_no_check (eq_refl (Some after)).
  - vm_compute. reflexivity.
Defined.

Lemma no_input_without_grant_witness :
  exists evs, log (default holding (turn (Some (Input [])) 1023 at_20 at_20 at_20 holding)) = log holding ++ evs /\ lifts_only evs.
Proof.
  apply (no_input_without_grant (Some (Input [])) 1023 at_20 at_20 at_20 holding).
  - vm_cast_no_check (eq_refl false).
  - vm_cast_no_check (eq_refl (turn (Some (Input [])) 1023 at_20 at_20 at_20 holding)).
Defined.

Lemma frame_conversion_in_bounds_witness :
  exists rgb, frame_rgb (MkFrame 2 2 (Some 9%nat) (replicate 18 5) BGRA) = Some rgb /\ length rgb = 12%nat.
Proof. apply (frame_conversion_in_bounds (MkFrame 2 2 (Some 9%nat) (replicate 18 5) BGRA)). reflexivity. Defined.

End BrowserHostClaims.
