(* ===== verification/Service.v ===== *)
(** * Streaming services

    Models [client/src/server/service.rs]: a service keeps two maps of
    subscribers, those that follow the stream and, when the service needs a
    snapshot, those that still wait for one; broadcasts go to the former,
    [snapshot] feeds the latter and then moves them over.  Every region under the
    lock is one operation; a snapshot is several ([snapshot_begin],
    [snapshot_next]), and those of other threads come in between.  The
    [Subscriber] trait is a type class; [ConnInner] is any instance.  The threads
    ([repeat], [run]) are functions from what each turn observes to what the
    thread does. *)
From stdpp Require Import base gmap list strings.
From Stdlib Require Import ZArith Lia.
From S2P Require Import Prelude RustStr.

#[local] Open Scope Z_scope.

(** ** The subscriber trait *)

Class Subscriber (M T : Type) := {
  sub_id : T -> Z;
  sub_send : M -> T -> T;
  (** what the subscriber has been sent so far *)
  received : T -> list M;
}.

Class SubscriberLaws (M T : Type) `{!Subscriber M T} := {
  send_keeps_id (m : M) (t : T) : sub_id (sub_send m t) = sub_id t;
  send_received (m : M) (t : T) : received (sub_send m t) = received t ++ [m];
}.

Record ServiceInner (T : Type) := MkInner {
  s_name : str; has_handle : bool; subscribes : gmap Z T; new_subscribes : gmap Z T; active : bool;
  need_snapshot : bool; options : gmap str str }.
Arguments MkInner {T} _ _ _ _ _ _ _.
Arguments s_name {T} _.
Arguments has_handle {T} _.
Arguments subscribes {T} _.
Arguments new_subscribes {T} _.
Arguments active {T} _.
Arguments need_snapshot {T} _.
Arguments options {T} _.

Definition HIBERNATE_TIMEOUT : Z := 30.
Definition MAX_ERROR_TIMEOUT : Z := 1000.
Definition SERVICE_OPTION_VALUE_TRUE : str := lit "1".
Definition SERVICE_OPTION_VALUE_FALSE : str := lit "0".

Section Service.
Context {M T : Type} `{!Subscriber M T}.
Implicit Types (s : ServiceInner T) (m : M) (id : Z).

Definition set_maps (subs new : gmap Z T) s : ServiceInner T :=
  MkInner (s_name s) (has_handle s) subs new (active s) (need_snapshot s) (options s).

Definition new_service (name : str) (snap : bool) : ServiceInner T := MkInner name false ∅ ∅ true snap ∅.

(** ** ServiceInner *)

Definition send_new_subscribes m s : ServiceInner T :=
  set_maps (subscribes s) (sub_send m <$> new_subscribes s) s.

(** [drain], each subscriber inserted under its own id. *)
Definition swap_new_subscribes s : ServiceInner T :=
  set_maps (foldr (fun t acc => <[sub_id t := t]> acc) (subscribes s) (map_to_list (new_subscribes s)).*2) ∅ s.

Definition has_subscribes s : bool :=
  negb (bool_decide (subscribes s = ∅)) || negb (bool_decide (new_subscribes s = ∅)).

(** ** The Service trait *)

Definition is_subed id s : bool :=
  bool_decide (is_Some (subscribes s !! id)) || bool_decide (is_Some (new_subscribes s !! id)).

Definition on_subscribe (t : T) s : ServiceInner T :=
  if bool_decide (is_Some (subscribes s !! sub_id t)) then s
  else if need_snapshot s then set_maps (subscribes s) (<[sub_id t := t]> (new_subscribes s)) s
  else set_maps (<[sub_id t := t]> (subscribes s)) (new_subscribes s) s.

Definition on_unsubscribe id s : ServiceInner T :=
  match subscribes s !! id with
  | Some _ => set_maps (delete id (subscribes s)) (new_subscribes s) s
  | None => set_maps (subscribes s) (delete id (new_subscribes s)) s
  end.

(** [join] takes the lock twice. *)
Definition join_stop s : ServiceInner T :=
  MkInner (s_name s) (has_handle s) (subscribes s) (new_subscribes s) false (need_snapshot s) (options s).
Definition join_take s : ServiceInner T :=
  MkInner (s_name s) false (subscribes s) (new_subscribes s) (active s) (need_snapshot s) (options s).

Definition get_option (opt : str) s : option str := options s !! opt.
Definition set_option (opt val : str) s : option str * ServiceInner T :=
  (options s !! opt,
   MkInner (s_name s) (has_handle s) (subscribes s) (new_subscribes s) (active s) (need_snapshot s) (<[opt := val]> (options s))).
Definition is_option_true (opt : str) s : bool :=
  match get_option opt s with Some v => bool_decide (v = SERVICE_OPTION_VALUE_TRUE) | None => false end.
Definition set_option_bool (opt : str) (val : bool) s : ServiceInner T :=
  (set_option opt (if val then SERVICE_OPTION_VALUE_TRUE else SERVICE_OPTION_VALUE_FALSE) s).2.

Definition ok s : bool := active s && has_subscribes s.

(** ** Sending *)

Definition send_shared m s : ServiceInner T := set_maps (sub_send m <$> subscribes s) (new_subscribes s) s.
Definition send_to m id s : ServiceInner T := set_maps (alter (sub_send m) id (subscribes s)) (new_subscribes s) s.
Definition send_to_others m id s : ServiceInner T :=
  set_maps (map_imap (fun sid t => Some (if bool_decide (sid = id) then t else sub_send m t)) (subscribes s)) (new_subscribes s) s.
Definition send_video_frame_shared m s : gset Z * ServiceInner T :=
  let s' := send_shared m s in
  (list_to_set (sub_id <$> (map_to_list (subscribes s')).*2), s').
Definition send_without m sub s : ServiceInner T :=
  set_maps ((fun t => if bool_decide (sub = sub_id t) then t else sub_send m t) <$> subscribes s) (new_subscribes s) s.

(** ** The snapshot handle *)

Definition swap_send_shared m s : ServiceInner T := send_new_subscribes m s.
Definition swap_has_subscribes s : bool := negb (bool_decide (subscribes s = ∅)).

(** A service and the snapshot its thread is taking, if any: what the callback has
    still to send through its handle before it returns, with or without an error,
    and the handle is dropped. *)
Record Svc := MkSvc { sv_inner : ServiceInner T; sv_snap : option (list M) }.

(** [snapshot] looks for waiting subscribers and calls the callback, which will
    send [ms]. *)
Definition snapshot_begin (ms : list M) (v : Svc) : Svc :=
  match sv_snap v with
  | Some _ => v
  | None => if bool_decide (new_subscribes (sv_inner v) = ∅) then v else MkSvc (sv_inner v) (Some ms)
  end.

(** The next send of the callback, or the drop of the handle. *)
Definition snapshot_next (v : Svc) : Svc :=
  match sv_snap v with
  | Some (m :: rest) => MkSvc (swap_send_shared m (sv_inner v)) (Some rest)
  | Some [] => MkSvc (swap_new_subscribes (sv_inner v)) None
  | None => v
  end.

End Service.
Arguments Svc M T : clear implicits.

(** ** Service threads *)

(** [repeat]: what the thread does; the error pause and the pacing sleep are
    milliseconds. *)
Inductive Action := Init | Callback (ok : bool) | ResetState | Sleep (ms : Z).

(** One turn of [repeat]'s loop: whether there are subscribers, what the callback
    returns, how long the turn took. *)
Record RepeatTurn := MkRepeatTurn { rt_has : bool; rt_ok : bool; rt_elapsed : Z }.

Definition repeat_turn (interval : Z) (may_reset : bool) (t : RepeatTurn) : list Action * bool :=
  let '(acts, may_reset) :=
    if rt_has t then
      ((if may_reset then [] else [Init]) ++ [Callback (rt_ok t)] ++ (if rt_ok t then [] else [Sleep MAX_ERROR_TIMEOUT]), true)
    else if may_reset then ([ResetState], false) else ([], may_reset) in
  (acts ++ (if rt_elapsed t <? interval then [Sleep (interval - rt_elapsed t)] else []), may_reset).

(** The loop runs while the service is active. *)
Fixpoint repeat_loop (interval : Z) (may_reset : bool) (ts : list RepeatTurn) : list Action :=
  match ts with
  | [] => []
  | t :: rest => let '(acts, may_reset) := repeat_turn interval may_reset t in acts ++ repeat_loop interval may_reset rest
  end.

(** [run]: one error of the callback after [elapsed] milliseconds. *)
Definition next_error_timeout (error_timeout elapsed : Z) : Z :=
  let t := if MAX_ERROR_TIMEOUT <? elapsed then HIBERNATE_TIMEOUT else wrapu 64 (error_timeout * 2) in
  if MAX_ERROR_TIMEOUT <? t then MAX_ERROR_TIMEOUT else t.

(** A turn of [run]'s loop: no subscribers, a clean return, or an error. *)
Inductive RunTurn := Idle | Clean | Failed (elapsed : Z).

Fixpoint run_loop (error_timeout : Z) (ts : list RunTurn) : list Action :=
  match ts with
  | [] => []
  | Idle :: rest => Sleep HIBERNATE_TIMEOUT :: run_loop error_timeout rest
  | Clean :: rest => Callback true :: Sleep HIBERNATE_TIMEOUT :: run_loop error_timeout rest
  | Failed elapsed :: rest =>
    let t := next_error_timeout error_timeout elapsed in
    Callback false :: Sleep t :: Sleep HIBERNATE_TIMEOUT :: run_loop t rest
  end.
Definition run (ts : list RunTurn) : list Action := run_loop HIBERNATE_TIMEOUT ts.

(** ** What one connection sees: the abstract specification *)

Inductive Status (M : Type) :=
| Absent
| Pending (inbox : list M)   (** subscribed, no snapshot yet *)
| Live (inbox : list M).
Arguments Absent {M}.
Arguments Pending {M} _.
Arguments Live {M} _.

Inductive Op (M T : Type) :=
| Subscribe (t : T)
| Unsubscribe (id : Z)
| Broadcast (m : M)
| SendTo (m : M) (id : Z)
| SendToOthers (m : M) (id : Z)
| SendWithout (m : M) (id : Z)
| JoinStop
| JoinTake.
Arguments Subscribe {M T} _.
Arguments Unsubscribe {M T} _.
Arguments Broadcast {M T} _.
Arguments SendTo {M T} _ _.
Arguments SendToOthers {M T} _ _.
Arguments SendWithout {M T} _ _.
Arguments JoinStop {M T}.
Arguments JoinTake {M T}.

(** What happens under the lock, in its order *)
Inductive Region (M T : Type) :=
| Locked (op : Op M T)          (** of any thread *)
| SnapBegin (ms : list M)       (** of the service's thread *)
| SnapNext.
Arguments Locked {M T} _.
Arguments SnapBegin {M T} _.
Arguments SnapNext {M T}.

Section Spec.
Context {M T : Type} `{!Subscriber M T}.

Definition apply_op (op : Op M T) (s : ServiceInner T) : ServiceInner T :=
  match op with
  | Subscribe t => on_subscribe t s
  | Unsubscribe id => on_unsubscribe id s
  | Broadcast m => send_shared m s
  | SendTo m id => send_to m id s
  | SendToOthers m id => send_to_others m id s
  | SendWithout m id => send_without m id s
  | JoinStop => join_stop s
  | JoinTake => join_take s
  end.

Definition apply_region (r : Region M T) (v : Svc M T) : Svc M T :=
  match r with
  | Locked op => MkSvc (apply_op op (sv_inner v)) (sv_snap v)
  | SnapBegin ms => snapshot_begin ms v
  | SnapNext => snapshot_next v
  end.
Definition run_regions (rs : list (Region M T)) (v : Svc M T) : Svc M T := foldl (fun v r => apply_region r v) v rs.
Definition new_svc (name : str) (snap : bool) : Svc M T := MkSvc (new_service name snap) None.

(** One connection's view of an operation, with no map in sight. *)
Definition spec_op (snap : bool) (id : Z) (op : Op M T) (st : Status M) : Status M :=
  match op, st with
  | Subscribe t, Live l => Live l
  | Subscribe t, _ => if bool_decide (sub_id t = id) then (if snap then Pending (received t) else Live (received t)) else st
  | Unsubscribe i, _ => if bool_decide (i = id) then Absent else st
  | Broadcast m, Live l => Live (l ++ [m])
  | SendTo m i, Live l => if bool_decide (i = id) then Live (l ++ [m]) else Live l
  | SendToOthers m i, Live l => if bool_decide (i = id) then Live l else Live (l ++ [m])
  | SendWithout m i, Live l => if bool_decide (i = id) then Live l else Live (l ++ [m])
  | _, _ => st
  end.

(** One connection's view of the service: where it stands, and what is left of
    the snapshot under way.  A snapshot is sure to begin when the connection waits
    for one; otherwise other connections decide.  A connection that subscribes
    while one is under way gets the rest of it only. *)
Record View := MkView { vw_status : Status M; vw_snap : option (list M) }.
Inductive view_step (snap : bool) (id : Z) : Region M T -> View -> View -> Prop :=
| v_locked op st p : view_step snap id (Locked op) (MkView st p) (MkView (spec_op snap id op st) p)
| v_begin ms st : view_step snap id (SnapBegin ms) (MkView st None) (MkView st (Some ms))
| v_none ms st : (forall l, st <> Pending l) -> view_step snap id (SnapBegin ms) (MkView st None) (MkView st None)
| v_busy ms st p : view_step snap id (SnapBegin ms) (MkView st (Some p)) (MkView st (Some p))
| v_send m rest l : view_step snap id SnapNext (MkView (Pending l) (Some (m :: rest))) (MkView (Pending (l ++ [m])) (Some rest))
| v_pass m rest st : (forall l, st <> Pending l) -> view_step snap id SnapNext (MkView st (Some (m :: rest))) (MkView st (Some rest))
| v_swap l : view_step snap id SnapNext (MkView (Pending l) (Some [])) (MkView (Live l) None)
| v_drop st : (forall l, st <> Pending l) -> view_step snap id SnapNext (MkView st (Some [])) (MkView st None)
| v_idle st : view_step snap id SnapNext (MkView st None) (MkView st None).
Inductive view_run (snap : bool) (id : Z) : list (Region M T) -> View -> View -> Prop :=
| vr_nil v : view_run snap id [] v v
| vr_cons r rs v1 v2 v3 : view_step snap id r v1 v2 -> view_run snap id rs v2 v3 -> view_run snap id (r :: rs) v1 v3.

(** The stream: what is sent to connection [id] while it follows *)
Definition addressed (id : Z) (r : Region M T) : list M :=
  match r with
  | Locked (Broadcast m) => [m]
  | Locked (SendTo m i) => if bool_decide (i = id) then [m] else []
  | Locked (SendToOthers m i) | Locked (SendWithout m i) => if bool_decide (i = id) then [] else [m]
  | _ => []
  end.
Definition stream (id : Z) (rs : list (Region M T)) : list M := rs ≫= addressed id.

(** Connection [id] neither subscribes nor unsubscribes. *)
Definition stays (id : Z) (r : Region M T) : Prop :=
  match r with Locked (Subscribe t) => sub_id t <> id | Locked (Unsubscribe i) => i <> id | _ => True end.

Definition status (id : Z) (s : ServiceInner T) : Status M :=
  match subscribes s !! id with
  | Some t => Live (received t)
  | None => match new_subscribes s !! id with Some t => Pending (received t) | None => Absent end
  end.

End Spec.

(** ** Lemmas *)

Section Lemmas.
Context {M T : Type} `{!Subscriber M T, !SubscriberLaws M T}.
Implicit Types (s : ServiceInner T).

Record svc_ok s : Prop := {
  so_ids id t : subscribes s !! id = Some t -> sub_id t = id;
  so_new_ids id t : new_subscribes s !! id = Some t -> sub_id t = id;
  so_disjoint id t : new_subscribes s !! id = Some t -> subscribes s !! id = None;
  so_direct : need_snapshot s = false -> new_subscribes s = ∅ }.

Lemma new_service_ok name snap : svc_ok (new_service name snap).
Proof. split; simpl; try done; intros id t; rewrite lookup_empty; done. Qed.

(** Moving the pending subscribers over is a left-biased union. *)
Lemma swap_subscribes s : svc_ok s -> subscribes (swap_new_subscribes s) = new_subscribes s ∪ subscribes s.
Proof.
  intros Hok. unfold swap_new_subscribes. simpl.
  assert (Hgen : forall (n m : gmap Z T), (forall id t, n !! id = Some t -> sub_id t = id) ->
    foldr (fun t acc => <[sub_id t := t]> acc) m (map_to_list n).*2 = n ∪ m).
  { intros n m. induction n as [|i t n Hi Hfresh IH] using map_first_key_ind; intros Hid.
    - rewrite map_to_list_empty. simpl. by rewrite map_empty_union.
    - rewrite (map_to_list_insert_first_key _ _ _ Hi Hfresh), fmap_cons. cbn [foldr snd].
      rewrite IH.
      + rewrite (Hid i t) by (by rewrite lookup_insert_eq). by rewrite insert_union_l.
      + intros j u Hj. apply Hid. rewrite lookup_insert_ne; [done|]. intros ->. congruence. }
  by apply Hgen, so_new_ids.
Qed.

Lemma swap_send_ok m s : svc_ok s -> svc_ok (swap_send_shared m s).
Proof.
  intros [H1 H2 H3 H4]. split; simpl; auto.
  - intros id t. rewrite lookup_fmap_Some. intros (t0 & <- & Ht). rewrite send_keeps_id. auto.
  - intros id t. rewrite lookup_fmap_Some. intros (t0 & <- & Ht). eauto.
  - intros Hn. rewrite H4 by done. apply fmap_empty.
Qed.

Lemma swap_ok s : svc_ok s -> svc_ok (swap_new_subscribes s).
Proof.
  intros Hok. pose proof Hok as [H1 H2 H3 H4]. split; rewrite ?swap_subscribes by done; simpl; try done.
  intros id t. rewrite lookup_union_Some_raw. intros [?|[_ ?]]; auto.
Qed.

(** Sends to the streaming map keep everything else. *)
Lemma subs_map_ok s (f : gmap Z T -> gmap Z T) :
  svc_ok s -> (forall id t, f (subscribes s) !! id = Some t -> exists t0, subscribes s !! id = Some t0 /\ sub_id t = sub_id t0) ->
  svc_ok (set_maps (f (subscribes s)) (new_subscribes s) s).
Proof.
  intros [H1 H2 H3 H4] Hf. split; simpl; auto.
  - intros id t Ht. destruct (Hf id t Ht) as (t0 & Ht0 & ->). auto.
  - intros id t Ht. destruct (f (subscribes s) !! id) as [t'|] eqn:E; [|done].
    destruct (Hf id t' E) as (t0 & Ht0 & _). rewrite (H3 id t Ht) in Ht0. done.
Qed.

Lemma apply_op_ok op s : svc_ok s -> svc_ok (apply_op op s).
Proof.
  intros Hok. pose proof Hok as [H1 H2 H3 H4]. destruct op as [t|id|m|m id|m id|m id| |]; simpl.
  - unfold on_subscribe. case_bool_decide as Hs; [done|]. apply eq_None_not_Some in Hs.
    destruct (need_snapshot s) eqn:Hn; split; simpl; auto.
    + intros id t0. rewrite lookup_insert_Some. intros [[<- <-]|[_ ?]]; auto.
    + intros id t0. rewrite lookup_insert_Some. intros [[<- <-]|[_ ?]]; eauto.
    + rewrite Hn. done.
    + intros id t0. rewrite lookup_insert_Some. intros [[<- <-]|[_ ?]]; auto.
    + intros id t0. by rewrite H4.
  - unfold on_unsubscribe. destruct (subscribes s !! id) eqn:Hs.
    + apply subs_map_ok; [done|]. intros i t0. rewrite lookup_delete_Some. intros [_ ?]. eauto.
    + split; simpl; auto.
      * intros i t0. rewrite lookup_delete_Some. intros [_ ?]. auto.
      * intros i t0. rewrite lookup_delete_Some. intros [_ ?]. eauto.
      * intros Hn. rewrite H4 by done. apply delete_empty.
  - apply subs_map_ok; [done|]. intros i t0. rewrite lookup_fmap_Some. intros (t1 & <- & ?). eauto using send_keeps_id.
  - apply subs_map_ok; [done|]. intros i t0. rewrite lookup_alter_Some. intros [(-> & t1 & ? & ->)|[_ ?]]; eauto using send_keeps_id.
  - apply (subs_map_ok s (map_imap (fun sid t => Some (if bool_decide (sid = id) then t else sub_send m t)))); [done|].
    intros i t0. rewrite map_lookup_imap, bind_Some. intros (t1 & ? & [= <-]). exists t1. split; [done|].
    case_bool_decide; [done|apply send_keeps_id].
  - apply (subs_map_ok s (fmap (fun t => if bool_decide (id = sub_id t) then t else sub_send m t))); [done|].
    intros i t0. rewrite lookup_fmap_Some. intros (t1 & <- & ?). exists t1. split; [done|].
    case_bool_decide; [done|apply send_keeps_id].
  - by split.
  - by split.
Qed.

Lemma need_snapshot_op op s : need_snapshot (apply_op op s) = need_snapshot s.
Proof.
  destruct op as [t|id|m|m id|m id|m id| |]; simpl; try done.
  - unfold on_subscribe. repeat case_match; done.
  - unfold on_unsubscribe. by case_match.
Qed.

(** One connection's view after an operation. *)
Lemma status_subscribe t id s : svc_ok s ->
  status id (on_subscribe t s) = spec_op (need_snapshot s) id (Subscribe t) (status id s).
Proof.
  intros [H1 H2 H3 H4]. unfold on_subscribe, status. simpl. case_bool_decide as Hs.
  - destruct (subscribes s !! id) as [t0|] eqn:E; [done|].
    assert (Hne : sub_id t <> id) by (intros <-; rewrite E in Hs; by destruct Hs).
    rewrite bool_decide_false by done. by destruct (new_subscribes s !! id).
  - destruct (need_snapshot s) eqn:Hn; simpl.
    + destruct (subscribes s !! id) as [t0|] eqn:E; [done|].
      destruct (decide (sub_id t = id)) as [<-|Hne].
      * rewrite lookup_insert_eq, bool_decide_true by done. by destruct (new_subscribes s !! sub_id t).
      * rewrite lookup_insert_ne, bool_decide_false by done. by destruct (new_subscribes s !! id).
    + rewrite H4 by done. rewrite lookup_empty. destruct (decide (sub_id t = id)) as [<-|Hne].
      * rewrite lookup_insert_eq. destruct (subscribes s !! sub_id t) eqn:E; [by destruct Hs|]. by rewrite bool_decide_true.
      * rewrite lookup_insert_ne by done. destruct (subscribes s !! id); [done|]. by rewrite bool_decide_false.
Qed.

Lemma status_unsubscribe i id s : svc_ok s -> status id (on_unsubscribe i s) = spec_op (need_snapshot s) id (Unsubscribe i) (status id s).
Proof.
  intros [H1 H2 H3 H4]. unfold on_unsubscribe, status. simpl. destruct (subscribes s !! i) as [t|] eqn:E; simpl.
  - case_bool_decide as Hi.
    + subst i. rewrite lookup_delete_eq. destruct (new_subscribes s !! id) eqn:En; [|done]. rewrite (H3 _ _ En) in E. done.
    + by rewrite lookup_delete_ne.
  - case_bool_decide as Hi; [subst i; by rewrite E, lookup_delete_eq|]. by rewrite lookup_delete_ne.
Qed.

Lemma status_swap_send m id s : status id (swap_send_shared m s) =
  match status id s with Pending l => Pending (l ++ [m]) | st => st end.
Proof.
  unfold status. simpl. rewrite lookup_fmap. destruct (subscribes s !! id); [done|].
  destruct (new_subscribes s !! id); simpl; [by rewrite send_received|done].
Qed.

Lemma status_swap id s : svc_ok s -> status id (swap_new_subscribes s) = match status id s with Pending l => Live l | st => st end.
Proof.
  intros Hok. unfold status. rewrite swap_subscribes by done. simpl. rewrite lookup_empty, lookup_union.
  destruct (new_subscribes s !! id) as [t|] eqn:En; simpl.
  - by rewrite (so_disjoint _ Hok _ _ En).
  - by destruct (subscribes s !! id).
Qed.

Lemma pending_waits id s l : status id s = Pending l -> new_subscribes s <> ∅.
Proof. unfold status. intros Hs E. rewrite E, lookup_empty in Hs. by destruct (subscribes s !! id). Qed.

End Lemmas.

(** The order a service state must see: initialised before callbacks, reset only
    when initialised. *)
Fixpoint bracketed (started : bool) (acts : list Action) : bool :=
  match acts with
  | [] => true
  | Init :: r => negb started && bracketed true r
  | Callback _ :: r => started && bracketed started r
  | ResetState :: r => started && bracketed false r
  | Sleep _ :: r => bracketed started r
  end.

(** ** Properties *)
Module ServiceClaims.

Section Claims.
Context {M T : Type} `{!Subscriber M T, !SubscriberLaws M T}.
Implicit Types (s : ServiceInner T).

Lemma status_op op id s : svc_ok s -> status id (apply_op op s) = spec_op (need_snapshot s) id op (status id s).
Proof.
  intros Hok. destruct op as [t|i|m|m i|m i|m i| |].
  - by apply status_subscribe.
  - by apply status_unsubscribe.
  - unfold status; simpl. rewrite lookup_fmap. destruct (subscribes s !! id); simpl; [by rewrite send_received|].
    by destruct (new_subscribes s !! id).
  - unfold status; simpl. destruct (decide (i = id)) as [<-|Hne].
    + rewrite lookup_alter_eq, bool_decide_true by done. destruct (subscribes s !! i); simpl; [by rewrite send_received|].
      by destruct (new_subscribes s !! i).
    + rewrite lookup_alter_ne, bool_decide_false by done. destruct (subscribes s !! id); [done|].
      by destruct (new_subscribes s !! id).
  - unfold status; simpl. rewrite map_lookup_imap. destruct (subscribes s !! id) as [t|]; simpl.
    + case_bool_decide as Hi; [by rewrite bool_decide_true|]. rewrite bool_decide_false by done. by rewrite send_received.
    + by destruct (new_subscribes s !! id).
  - unfold status; simpl. rewrite lookup_fmap. destruct (subscribes s !! id) as [t|] eqn:E; simpl.
    + rewrite (so_ids _ Hok _ _ E). case_bool_decide; [done|by rewrite send_received].
    + by destruct (new_subscribes s !! id).
  - unfold status; simpl. destruct (subscribes s !! id); [done|]. by destruct (new_subscribes s !! id).
  - unfold status; simpl. destruct (subscribes s !! id); [done|]. by destruct (new_subscribes s !! id).
Qed.

Definition view (id : Z) (v : Svc M T) : View := MkView (status id (sv_inner v)) (sv_snap v).
Definition sound (snap : bool) (v : Svc M T) : Prop := svc_ok (sv_inner v) /\ need_snapshot (sv_inner v) = snap.

Lemma region_view r id v snap : sound snap v -> sound snap (apply_region r v) /\ view_step snap id r (view id v) (view id (apply_region r v)).
Proof.
  intros [Hok Hn]. destruct v as [s p]. simpl in *. destruct r as [op|ms|]; simpl.
  - split; [split; [by apply apply_op_ok|simpl; by rewrite need_snapshot_op]|]. unfold view. simpl. rewrite status_op, Hn by done. constructor.
  - unfold snapshot_begin. simpl. destruct p as [p|]; [split; [done|constructor]|]. case_bool_decide as He; (split; [done|]); [|constructor].
    constructor. simpl. intros l Hl. by apply (pending_waits id s l).
  - unfold snapshot_next. simpl. destruct p as [[|m rest]|]; simpl.
    + split; [split; [by apply swap_ok|done]|]. unfold view. simpl. rewrite status_swap by done.
      destruct (status id s) eqn:E; constructor; by intros ?.
    + split; [split; [by apply swap_send_ok|done]|]. unfold view. simpl. rewrite status_swap_send.
      destruct (status id s) eqn:E; constructor; by intros ?.
    + split; [done|constructor].
Qed.

Lemma regions_view rs id snap : forall v, sound snap v -> sound snap (run_regions rs v) /\ view_run snap id rs (view id v) (view id (run_regions rs v)).
Proof.
  induction rs as [|r rs IH]; intros v Hv; [split; [done|constructor]|]. destruct (region_view r id v snap Hv) as [Hv' Hs].
  destruct (IH _ Hv') as [Hv'' Hr]. split; [done|]. by econstructor.
Qed.

(** *** A subscription, by the specification *)

Lemma following snap id rs l q v : view_run snap id rs (MkView (Live l) q) v -> Forall (stays id) rs ->
  vw_status v = Live (l ++ stream id rs).
Proof.
  revert l q. induction rs as [|r rs IH]; intros l q Hr Hs; inversion Hr as [|? ? ? ? ? Hst Hrun]; subst; [by rewrite app_nil_r|].
  apply Forall_cons in Hs as [Hs Hs']. unfold stream. cbn [mbind list_bind]. fold (stream id rs). rewrite app_assoc.
  inversion Hst as [op ? ?| | | | | | | |]; subst; try (simpl; rewrite app_nil_r; by eapply IH); try done.
  destruct op; simpl in *; try (rewrite app_nil_r; by eapply IH); try (rewrite bool_decide_false in Hrun by done; rewrite app_nil_r; by eapply IH);
    try (by eapply IH); case_bool_decide; rewrite ?app_nil_r; by eapply IH.
Qed.

(** While a snapshot is under way *)
Lemma fed snap id rs l ms v : view_run snap id rs (MkView (Pending l) (Some ms)) v -> Forall (stays id) rs ->
  (exists a b, v = MkView (Pending (l ++ a)) (Some b) /\ ms = a ++ b)
  \/ exists before after, rs = before ++ after /\ vw_status v = Live (l ++ ms ++ stream id after).
Proof.
  revert l ms. induction rs as [|r rs IH]; intros l ms Hr Hs; inversion Hr as [|? ? ? ? ? Hst Hrun]; subst.
  { left. exists [], ms. by rewrite app_nil_r. }
  apply Forall_cons in Hs as [Hs Hs'].
  assert (Hskip : view_run snap id rs (MkView (Pending l) (Some ms)) v ->
    (exists a b, v = MkView (Pending (l ++ a)) (Some b) /\ ms = a ++ b)
    \/ exists before after, r :: rs = before ++ after /\ vw_status v = Live (l ++ ms ++ stream id after)).
  { intros Hrun'. destruct (IH l ms Hrun' Hs') as [?|(before & after & -> & Hv)]; [by left|right]. by exists (r :: before), after. }
  inversion Hst as [op ? ?| | | |m rest ?|? ? ? Hne|?|? Hne|]; subst; try (by apply Hskip); try (by destruct (Hne l)).
  - destruct op; simpl in *; try (by apply Hskip); rewrite bool_decide_false in Hrun by done; by apply Hskip.
  - destruct (IH (l ++ [m]) rest Hrun Hs') as [(a & b & -> & ->)|(before & after & -> & Hv)].
    + left. exists (m :: a), b. by rewrite <- app_assoc.
    + right. exists (SnapNext :: before), after. by rewrite Hv, <- app_assoc.
  - right. exists [SnapNext], rs. split; [done|]. simpl. by eapply following.
Qed.

(** Before one begins *)
Lemma waiting snap id rs l v : view_run snap id rs (MkView (Pending l) None) v -> Forall (stays id) rs ->
  v = MkView (Pending l) None
  \/ exists ms before rest, rs = before ++ SnapBegin ms :: rest /\ view_run snap id rest (MkView (Pending l) (Some ms)) v.
Proof.
  induction rs as [|r rs IH]; intros Hr Hs; inversion Hr as [|? ? ? ? ? Hst Hrun]; subst; [by left|].
  apply Forall_cons in Hs as [Hs Hs'].
  assert (Hskip : view_run snap id rs (MkView (Pending l) None) v -> v = MkView (Pending l) None
    \/ exists ms before rest, r :: rs = before ++ SnapBegin ms :: rest /\ view_run snap id rest (MkView (Pending l) (Some ms)) v).
  { intros Hrun'. destruct (IH Hrun' Hs') as [?|(ms & before & rest & -> & Hv)]; [by left|right]. by exists ms, (r :: before), rest. }
  inversion Hst as [op ? ?|ms ?|? ? Hne| |m rest ?|? ? ? Hne|?|? Hne|]; subst; try (by apply Hskip); try (by destruct (Hne l)).
  - destruct op; simpl in *; try (by apply Hskip); rewrite bool_decide_false in Hrun by done; by apply Hskip.
  - right. by exists ms, [], rs.
Qed.

(** What a connection that subscribed with [l0] received, [p] being what was left of
    the snapshot under way then and [rs] what has happened since *)
Definition served (id : Z) (l0 : list M) (p : option (list M)) (rs : list (Region M T)) (st : Status M) : Prop :=
  match st with
  | Absent => False
  | Pending l => exists a b, l = l0 ++ a /\ (p = Some (a ++ b) \/ p = None /\ (a = [] \/ SnapBegin (a ++ b) ∈ rs))
  | Live l => exists ms before after, rs = before ++ after /\ l = l0 ++ ms ++ stream id after
                /\ (p = Some ms \/ p = None /\ SnapBegin ms ∈ before)
  end.

Lemma subscription_served snap id rs l0 p v : view_run snap id rs (MkView (Pending l0) p) v -> Forall (stays id) rs ->
  served id l0 p rs (vw_status v).
Proof.
  intros Hr Hs. destruct p as [p|].
  - destruct (fed _ _ _ _ _ _ Hr Hs) as [(a & b & -> & ->)|(before & after & -> & ->)]; simpl; [eauto 10|].
    exists p, before, after. auto.
  - destruct (waiting _ _ _ _ _ Hr Hs) as [->|(ms & before & rest & -> & Hf)]; simpl.
    + exists [], []. rewrite app_nil_r. auto.
    + apply Forall_app in Hs as [_ [_ Hs]%Forall_cons].
      destruct (fed _ _ _ _ _ _ Hf Hs) as [(a & b & -> & ->)|(b1 & after & -> & ->)]; simpl.
      * exists a, b. split; [done|]. right. split; [done|]. right. apply elem_of_app. right. by left.
      * exists ms, (before ++ SnapBegin ms :: b1), after. rewrite <- app_assoc. split; [done|]. split; [done|]. right. split; [done|].
        apply elem_of_app. right. by left.
Qed.

(** C36: Refinement: whatever regions under the lock the threads pass through, and in
    whatever order (subscriptions, unsubscriptions and sends of any threads between
    the steps of a snapshot), each connection sees a run of the one-connection
    specification.  So a connection that subscribes to a service with snapshots, and
    stays, receives nothing of the stream until the snapshot's handle is dropped, and
    from then on every message sent to it, in order, each once; before the stream it
    receives the messages of the first snapshot that begins after it subscribed, or, if
    one was under way when it subscribed, only what was left of that one (possibly
    nothing). *)
Theorem service_refines_connection_view (name : str) (snap : bool) (rs rs' : list (Region M T)) (t : T) :
  let v := run_regions rs (new_svc name snap) in let v' := run_regions rs' (apply_region (Locked (Subscribe t)) v) in
  (forall id, view_run snap id rs (MkView Absent None) (MkView (status id (sv_inner v)) (sv_snap v)))
  /\ (snap = true -> (forall l, status (sub_id t) (sv_inner v) <> Live l) -> Forall (stays (sub_id t)) rs' ->
      served (sub_id t) (received t) (sv_snap v) rs' (status (sub_id t) (sv_inner v'))).
Proof.
  assert (H0 : sound snap (new_svc name snap)) by (split; [apply new_service_ok|done]).
  assert (Hv0 : forall id, view id (new_svc name snap) = MkView Absent None).
  { intros id. unfold view, status. simpl. by rewrite !lookup_empty. }
  cbv zeta. set (v := run_regions rs (new_svc name snap)). split.
  - intros id. rewrite <- (Hv0 id). apply (regions_view rs id snap _ H0).
  - intros -> Hl Hs. destruct (regions_view rs (sub_id t) true _ H0) as [Hv _]. fold v in Hv.
    destruct (region_view (Locked (Subscribe t)) (sub_id t) v true Hv) as [Hv1 _].
    destruct (regions_view rs' (sub_id t) true _ Hv1) as [_ Hr]. unfold view in Hr at 1. simpl in Hr. destruct Hv as [Hok Hn].
    rewrite (status_subscribe t (sub_id t) (sv_inner v) Hok), Hn in Hr. simpl in Hr.
    refine (subscription_served true (sub_id t) rs' (received t) (sv_snap v) (view (sub_id t) (run_regions rs' _)) _ Hs).
    destruct (status (sub_id t) (sv_inner v)) eqn:E; [| |by destruct (Hl inbox)]; rewrite bool_decide_true in Hr by done; exact Hr.
Qed.

End Claims.

(** The error back-off of a service thread: every pause is between 30 ms and
    one second; after [n] quick failures in a row the next one waits
    min(1000, 30 * 2^(n+1)) ms; a failure after a long run starts over. *)
Theorem run_backoff_bounded (ts : list RunTurn) (n : nat) (quick : Z) (Hquick : quick <= MAX_ERROR_TIMEOUT) :
  Forall (fun a => match a with Sleep t => HIBERNATE_TIMEOUT <= t <= MAX_ERROR_TIMEOUT | _ => True end) (run ts) /\
  Nat.iter n (fun t => next_error_timeout t quick) HIBERNATE_TIMEOUT = Z.min MAX_ERROR_TIMEOUT (HIBERNATE_TIMEOUT * 2 ^ Z.of_nat n) /\
  forall t, next_error_timeout t (MAX_ERROR_TIMEOUT + 1) = HIBERNATE_TIMEOUT.
Proof.
  assert (Hstep : forall t e, HIBERNATE_TIMEOUT <= t <= MAX_ERROR_TIMEOUT ->
    HIBERNATE_TIMEOUT <= next_error_timeout t e <= MAX_ERROR_TIMEOUT /\
    (e <= MAX_ERROR_TIMEOUT -> next_error_timeout t e = Z.min MAX_ERROR_TIMEOUT (2 * t))).
  { intros t e Ht. unfold next_error_timeout, HIBERNATE_TIMEOUT, MAX_ERROR_TIMEOUT in *.
    rewrite (wrapu_small 64 (t * 2)) by (unfold is_u; lia). zcases; lia. }
  split; [|split].
  - unfold run. assert (Hgen : forall t, HIBERNATE_TIMEOUT <= t <= MAX_ERROR_TIMEOUT -> Forall (fun a => match a with
      Sleep t => HIBERNATE_TIMEOUT <= t <= MAX_ERROR_TIMEOUT | _ => True end) (run_loop t ts)).
    { induction ts as [|[| |e] ts IH]; intros t Ht; simpl; [constructor|..].
      - constructor; [unfold HIBERNATE_TIMEOUT, MAX_ERROR_TIMEOUT; lia|auto].
      - repeat constructor; [unfold HIBERNATE_TIMEOUT, MAX_ERROR_TIMEOUT; lia..|auto].
      - destruct (Hstep t e Ht) as [Hn _]. repeat constructor; [lia..| | |auto]; unfold HIBERNATE_TIMEOUT, MAX_ERROR_TIMEOUT; lia. }
    apply Hgen. unfold HIBERNATE_TIMEOUT, MAX_ERROR_TIMEOUT. lia.
  - assert (Hb : forall k, HIBERNATE_TIMEOUT <= Z.min MAX_ERROR_TIMEOUT (HIBERNATE_TIMEOUT * 2 ^ Z.of_nat k) <= MAX_ERROR_TIMEOUT).
    { intros k. unfold HIBERNATE_TIMEOUT, MAX_ERROR_TIMEOUT. pose proof (Z.pow_pos_nonneg 2 (Z.of_nat k)). lia. }
    induction n as [|n IH]; [done|]. simpl Nat.iter. rewrite IH.
    rewrite (proj2 (Hstep _ quick (Hb n)) Hquick). rewrite Nat2Z.inj_succ, Z.pow_succ_r by lia.
    unfold HIBERNATE_TIMEOUT, MAX_ERROR_TIMEOUT. lia.
  - intros t. done.
Qed.

(** A repeating service never runs on an uninitialised state: whatever the
    subscribers and the callback do, each callback comes after an [init] that
    no [reset] followed, and resets only follow initialisations. *)
Theorem repeat_initialises_before_use (interval : Z) (ts : list RepeatTurn) :
  bracketed false (repeat_loop interval false ts) = true.
Proof.
  generalize false as b. induction ts as [|[has okk el] ts IH]; intros b; [done|]. simpl.
  unfold repeat_turn; simpl. destruct has, b, okk; simpl; destruct (el <? interval); simpl; rewrite ?IH; done.
Qed.

(** *** Witnesses *)

(** A connection as an id and an inbox. *)
Record Inbox := MkInbox { ib_id : Z; ib_msgs : list str }.
#[global] Instance inbox_subscriber : Subscriber str Inbox :=
  {| sub_id := ib_id; sub_send m t := MkInbox (ib_id t) (ib_msgs t ++ [m]); received := ib_msgs |}.
#[global] Instance inbox_laws : SubscriberLaws str Inbox.
Proof. by split. Qed.

Definition sample_before : list (Region str Inbox) := [Locked (Subscribe (MkInbox 3 [])); Locked (Broadcast (lit "a"))].
Definition sample_after : list (Region str Inbox) :=
  [Locked (Broadcast (lit "b")); SnapBegin [lit "S"; lit "T"]; SnapNext; Locked (Broadcast (lit "c")); SnapNext; SnapNext; Locked (Broadcast (lit "d"))].

Lemma service_refines_connection_view_witness :
  served 7 [] None sample_after (Live [lit "S"; lit "T"; lit "d"]).
Proof.
  destruct (service_refines_connection_view (lit "video") true sample_before sample_after (MkInbox 7 [])) as [_ H].
  specialize (H eq_refl). cbn [sub_id inbox_subscriber ib_id received ib_msgs] in H.
  assert (E : status 7 (sv_inner (run_regions sample_after (apply_region (Locked (Subscribe (MkInbox 7 []))) (run_regions sample_before (new_svc (lit "video") true)))))
    = Live [lit "S"; lit "T"; lit "d"]) by (vm_compute; reflexivity).
  rewrite E in H. apply H; [vm_compute; by intros|]. unfold sample_after. repeat constructor.
Defined.

(** A connection that subscribes after the callback's last send follows the stream
    without having got any of the snapshot. *)
Example late_subscriber_misses_snapshot :
  status 7 (sv_inner (run_regions
    [Locked (Subscribe (MkInbox 3 [])); SnapBegin [lit "S"]; SnapNext; Locked (Subscribe (MkInbox 7 [])); SnapNext; Locked (Broadcast (lit "d"))]
    (new_svc (lit "video") true))) = Live [lit "d"].
Proof. vm_compute. reflexivity. Qed.

Lemma run_backoff_bounded_witness :
  Nat.iter 6 (fun t => next_error_timeout t 5) HIBERNATE_TIMEOUT = 1000.
Proof. apply (run_backoff_bounded [Failed 5] 6 5). unfold MAX_ERROR_TIMEOUT. lia. Defined.

End ServiceClaims.
