(* ===== verification/Effects.v ===== *)
(** * Stateful handlers with observable effects

    The handlers of a connection read and write the connection, and act on the
    outside world (the peer, the connection manager, the input thread, the
    operating system).  They are computations of the monad [M S E]: state [S]
    passed explicitly, effects [E] listed in the order they happen.  The file
    also has field update for records ([r <| f := v |>]) and the rules that the
    proofs about handlers use. *)
From stdpp Require Import base list sets.
From Stdlib Require Import ZArith Lia.
From S2P Require Import Prelude.

(** ** Field update

    [eta_record] rebuilds a record from its fields; the update of a field is
    that expression with the field's projection replaced. *)

Class EtaRecord (R : Type) := eta_record : R -> R.

Class Setter {R T : Type} (proj : R -> T) := set_field : (T -> T) -> R -> R.
Arguments set_field {R T} proj {_} _ _ /.

Ltac solve_setter :=
  match goal with
  | |- @Setter ?R ?T ?proj =>
    let f := fresh "f" in let r := fresh "r" in
    unfold Setter; intros f r;
    let inst := constr:(_ : EtaRecord R) in
    let inst := eval red in inst in
    let e := eval cbv beta in (inst r) in
    match e with context C [proj r] => let t := context C [f (proj r)] in exact t end
  end.

#[global] Hint Extern 1 (Setter _) => solve_setter : typeclass_instances.

Declare Scope record_scope.
Notation "r <| f := v |>" := (set_field f (fun _ => v) r)
  (at level 1, f at next level, left associativity) : record_scope.
Notation "r <| f ::= g |>" := (set_field f g r)
  (at level 1, f at next level, left associativity) : record_scope.
Open Scope record_scope.

(** ** The monad *)

Definition M (S E A : Type) : Type := S -> A * S * list E.

Section Monad.
Context {S E : Type}.

Definition res {A} (m : M S E A) (s : S) : A := (m s).1.1.
Definition st {A} (m : M S E A) (s : S) : S := (m s).1.2.
Definition fx {A} (m : M S E A) (s : S) : list E := (m s).2.

#[global] Instance M_ret : MRet (M S E) := fun A a s => (a, s, []).
#[global] Instance M_bind : MBind (M S E) := fun A B k m s =>
  let '(a, s1, l1) := m s in
  let '(b, s2, l2) := k a s1 in (b, s2, l1 ++ l2).

Definition gets {A} (f : S -> A) : M S E A := fun s => (f s, s, []).
Definition modify (f : S -> S) : M S E unit := fun s => (tt, f s, []).
Definition emit (e : E) : M S E unit := fun s => (tt, s, [e]).
Definition emits (l : list E) : M S E unit := fun s => (tt, s, l).
Definition skip : M S E unit := mret tt.
Definition when (b : bool) (m : M S E unit) : M S E unit := if b then m else skip.

(** [for x in l { m(x) }] *)
Fixpoint for_each {A} (m : A -> M S E unit) (l : list A) : M S E unit :=
  match l with [] => skip | x :: r => _ ← m x; for_each m r end.

Lemma run_bind {A B} (m : M S E A) (k : A -> M S E B) s :
  (m ≫= k) s = (res (k (res m s)) (st m s), st (k (res m s)) (st m s), fx m s ++ fx (k (res m s)) (st m s)).
Proof.
  unfold mbind, M_bind, res, st, fx. destruct (m s) as [[a s1] l1]. simpl. by destruct (k a s1) as [[b s2] l2].
Qed.

Lemma res_bind {A B} (m : M S E A) (k : A -> M S E B) s : res (m ≫= k) s = res (k (res m s)) (st m s).
Proof. unfold res at 1. by rewrite run_bind. Qed.
Lemma st_bind {A B} (m : M S E A) (k : A -> M S E B) s : st (m ≫= k) s = st (k (res m s)) (st m s).
Proof. unfold st at 1. by rewrite run_bind. Qed.
Lemma fx_bind {A B} (m : M S E A) (k : A -> M S E B) s :
  fx (m ≫= k) s = fx m s ++ fx (k (res m s)) (st m s).
Proof. unfold fx at 1. by rewrite run_bind. Qed.

Lemma run_gets_bind {A B} (f : S -> A) (k : A -> M S E B) s : (gets f ≫= k) s = k (f s) s.
Proof. unfold mbind, M_bind, gets. by destruct (k (f s) s) as [[??]?]. Qed.

(** ** What a handler keeps and does

    From state [s], the handler moves along [R] and has only effects in [F]. *)

Definition obeys (R : S -> S -> Prop) (F : E -> Prop) (s : S) {A} (m : M S E A) : Prop :=
  R s (st m s) /\ Forall F (fx m s).

Context (R : S -> S -> Prop) (F : E -> Prop) `{!PreOrder R}.

Lemma obeys_ret {A} (a : A) s : obeys R F s (mret a).
Proof. split; [reflexivity|constructor]. Qed.

Lemma obeys_gets {A} (f : S -> A) s : obeys R F s (gets f).
Proof. split; [reflexivity|constructor]. Qed.

Lemma obeys_modify f s : R s (f s) -> obeys R F s (modify f).
Proof. intros H. split; [exact H|constructor]. Qed.

Lemma obeys_emit e s : F e -> obeys R F s (emit e).
Proof. intros H. split; [reflexivity|]. by repeat constructor. Qed.

Lemma obeys_emits l s : Forall F l -> obeys R F s (emits l).
Proof. intros H. split; [reflexivity|done]. Qed.

Lemma obeys_bind {A B} (m : M S E A) (k : A -> M S E B) s :
  obeys R F s m -> (R s (st m s) -> obeys R F (st m s) (k (res m s))) -> obeys R F s (m ≫= k).
Proof.
  intros [Hr Hf] Hk. destruct (Hk Hr) as [Hr' Hf']. split; [rewrite st_bind; by etransitivity|].
  rewrite fx_bind. by apply Forall_app.
Qed.

(** As [obeys_bind], forgetting how the first part got to its state. *)
Lemma obeys_seq {A B} (m : M S E A) (k : A -> M S E B) s :
  obeys R F s m -> (forall s' a, R s s' -> obeys R F s' (k a)) -> obeys R F s (m ≫= k).
Proof. intros Hm Hk. apply obeys_bind; [done|]. intros Hr. by apply Hk. Qed.

(** The state read by [gets] is the state the continuation runs in. *)
Lemma obeys_gets_bind {A B} (f : S -> A) (k : A -> M S E B) s :
  obeys R F s (k (f s)) -> obeys R F s (gets f ≫= k).
Proof. intros H. by apply obeys_bind; [apply obeys_gets|]. Qed.

Lemma obeys_when b m s : (b = true -> obeys R F s m) -> obeys R F s (when b m).
Proof. destruct b; simpl; [auto|intros _; apply obeys_ret]. Qed.

Lemma obeys_for_each {A} (m : A -> M S E unit) l :
  (forall x s, x ∈ l -> obeys R F s (m x)) -> forall s, obeys R F s (for_each m l).
Proof.
  induction l as [|x l IH]; simpl; intros Hm s; [apply obeys_ret|].
  apply obeys_bind; [apply Hm; set_solver|]. intros _. apply IH. intros y s' Hy. apply Hm. set_solver.
Qed.

End Monad.

(** Applies the rules; the leaves are facts on effects and states. *)
Ltac obey_step :=
  match goal with
  | |- obeys _ _ _ (mret _) => apply obeys_ret; exact _
  | |- obeys _ _ _ skip => apply obeys_ret; exact _
  | |- obeys _ _ _ (gets _ ≫= _) => apply obeys_gets_bind; [exact _|]
  | |- obeys _ _ _ (_ ≫= _) => apply obeys_bind; [exact _| |intros ?]
  | |- obeys _ _ _ (modify _) => apply obeys_modify
  | |- obeys _ _ _ (emit _) => apply obeys_emit; [exact _|]
  | |- obeys _ _ _ (emits _) => apply obeys_emits; [exact _|]
  | |- obeys _ _ _ (when _ _) => apply obeys_when; [exact _|intros ?]
  | |- obeys _ _ _ (if ?b then _ else _) => destruct b eqn:?
  | |- obeys _ _ _ (match ?x with _ => _ end) => destruct x eqn:?
  end.
