(* ===== verification/ProfileSave.v ===== *)
(** * Saving the network profile across two processes

    Models the asynchronous save of the network profile: the entry point of the
    user interface ([main_save_homedesk_network_profile] of
    [client/src/flutter_ffi.rs]), the task queue and its runner ([async_tasks] of
    [client/src/flutter.rs]) with the claim and abandon flags of
    [client/src/homedesk_async.rs], the messages to the background service and
    its handler ([client/src/ipc.rs]), and the option cache of the interface
    ([client/src/ui_interface.rs]).  The same runner serves the account tasks.

    Callers, the runner and the service are threads: [step] is one region of one
    of them, a label says which and what the outside answers, and a run is any
    list of labels.  A message the runner has sent is handled at any later time,
    also after the runner has given up.  [set_homedesk_options_cache] and the
    service's handler run as one region each. *)
From stdpp Require Import base gmap list strings.
From Stdlib Require Import ZArith Lia.
From S2P Require Import Prelude RustStr Effects HomedeskNet HomedeskConfig NestlinkAuth.

#[local] Open Scope Z_scope.

(** ** Deadlines and flags ([homedesk_async.rs]) *)

Inductive EnqueueError := Busy | Stopped.

(** A bounded channel as its sender sees it: [None] when the receiver is gone. *)
Definition try_enqueue {A} (capacity : nat) (channel : option (list A)) (task : A) : result EnqueueError (list A) :=
  match channel with
  | None => Err Stopped
  | Some q => if bool_decide (length q < capacity)%nat then Ok (q ++ [task]) else Err Busy
  end.

Definition save_request_may_execute (abandoned : bool) (now deadline : Z) : bool :=
  negb abandoned && (now <? deadline).

(** [compare_exchange(0, new)]: whether it succeeded, and the value after. *)
Definition compare_exchange_0 (new state : Z) : bool * Z :=
  if state =? 0 then (true, new) else (false, state).
Definition claim_queued_save : Z -> bool * Z := compare_exchange_0 1.
Definition abandon_queued_save : Z -> bool * Z := compare_exchange_0 2.

(** ** Data *)

Record NetworkValues := Values { v_mode : str; v_server : str; v_relay : str; v_key : str; v_family : str; v_source : str }.

(** Why a save failed; [failure_text] is what the user reads. *)
Inductive SaveFailure :=
| ModeInvalid
| SessionsOpen
| RunnerNotReady
| QueueRefused
| QueueExpired
| RequestAbandoned
| IpcNotSent (error : string)
| ResyncFailed (reason error : string)
| OutcomeUnknown.

Definition failure_text (f : SaveFailure) : string :=
  match f with
  | ModeInvalid => "网络模式无效"
  | SessionsOpen => "请先断开全部主控会话，再保存网络配置"
  | RunnerNotReady => "HomeDesk 异步任务服务尚未就绪"
  | QueueRefused => "原生异步任务队列正忙或已停止；配置尚未发送"
  | QueueExpired => "保存任务排队超时，未发送到后台；旧配置保持不变"
  | RequestAbandoned => "保存任务已被调用方放弃，未发送到后台；旧配置保持不变"
  | IpcNotSent error => error
  | ResyncFailed reason error => "保存结果未知（" +:+ reason +:+ "），且无法重新同步后台：" +:+ error +:+ "；已暂停新连接"
  | OutcomeUnknown => "保存结果未知且尚未重新同步后台状态；已暂停新连接，请重启客户端后核对当前模式"
  end%string.

(** The failures that tell the user nothing was sent *)
Definition says_not_sent (f : SaveFailure) : bool :=
  match f with ResyncFailed _ _ | OutcomeUnknown => false | _ => true end.

(** What the runner answers a caller: the service's error text with its options *)
Abbreviation Reply := (result SaveFailure (string * options_t)).

(** Where a caller of [save_network_profile] is. *)
Inductive CallPc :=
| Waiting                                (** in [recv_timeout] *)
| Expired                                (** it timed out; [abandoned] not yet stored *)
| Abandoning                             (** stored; about to [abandon_queued_save] *)
| Doubting                               (** the request was claimed; about to mark the profile unconfirmed *)
| Installing (options : options_t)       (** a successful answer; about to set the cache *)
| Returned (said : result SaveFailure string).

(** A call and what it shares with its [SaveNetworkRequest] *)
Record Call := mkCall {
  c_values : NetworkValues;
  c_deadline : Z;
  c_abandoned : bool;
  c_state : Z;
  c_response : option Reply;             (** the channel of capacity one *)
  c_pc : CallPc;
}.

Inductive Task :=
| NestLinkAccount (id : nat) (action : str) (auth : option AuthRequest)
| QueryOnlines (ids : list str)
| SaveNetworkProfile (id : nat).

Definition TASK_CAPACITY : nat := 4.
Definition SAVE_DEADLINE : Z := 4 * 10 ^ 9.

(** Where the runner is. *)
Inductive Runner :=
| NotStarted
| Idle                                   (** in [rx.recv()] *)
| Checked (id : nat)                     (** the request may execute; about to claim it *)
| Connecting (id : nat)
| Sending (id : nat)
| Sent (id conn : nat)                   (** awaiting the confirmation *)
| Resync (id : nat) (reason : string)
| ResyncSent (id : nat) (reason : string) (conn : nat)
| Answering (id : nat) (reply : Reply)
| AccountUpdate (id : nat) (auth : option AuthRequest) (* [ipc::nestlink_auth_update] *)
| AccountInstall (id : nat) (auth : AuthRequest)
| AccountBinding (id : nat)
| Querying (ids : list str)
| Ended.

(** Messages to the service and its replies; [id] names the request a message
    comes from and is not part of it *)
Inductive SvcMsg := ProfileMsg (id : nat) (request : option NetworkValues) | OptionsMsg.
Inductive SvcReply := ProfileReply (response : string * options_t) | OptionsReply (options : options_t).

Inductive SvcFx := RefreshPolicy | RestartRendezvous.

(** What the account tasks did, in order *)
Inductive AccountFx :=
| ServiceUpdated (auth : option AuthRequest) (r : result error unit)
| LocallyInstalled (auth : AuthRequest) (r : result error unit)
| LocallyCleared.

#[global] Instance NetworkValues_eq_dec : EqDecision NetworkValues.
Proof. solve_decision. Defined.
#[global] Instance SaveFailure_eq_dec : EqDecision SaveFailure.
Proof. solve_decision. Defined.
#[global] Instance said_eq_dec : EqDecision (result SaveFailure string).
Proof. solve_decision. Defined.
#[global] Instance CallPc_eq_dec : EqDecision CallPc.
Proof. solve_decision. Defined.

(** ** The service's side *)

Section Flow.
Context {S : Type} `{!OptionKeys, !BuildEnv, !ConfigStore S, !Externals}.

(** The branch [Data::HomeDeskNetworkProfile] of [ipc::handle]; [alive] and
    [attempts] are [has_alive_connections] and [has_homedesk_connection_attempts]. *)
Definition handle_profile (alive attempts : bool) (request : option NetworkValues) (c : HomeConfig S)
    : string * HomeConfig S * list SvcFx :=
  match request with
  | None => ("缺少 HomeDesk 网络配置"%string, c, [])
  | Some v =>
    if alive || attempts then ("请先断开全部被控会话和正在进行的握手，再保存网络配置"%string, c, [])
    else match mode_parse (v_mode v) with
         | None => ("网络模式无效"%string, c, [])
         | Some mode =>
           match save_network_profile (Profile mode (v_server v) (v_relay v) (v_key v) (v_family v) (v_source v)) c with
           | (Ok _, c') => (""%string, c', [RefreshPolicy; RestartRendezvous])
           | (Err error, c') => (error, c', [])
           end
         end
  end.

(** [ui_interface::set_homedesk_options_cache]: the cache and the process's own
    configuration *)
Definition set_homedesk_options_cache (options : options_t) (c : HomeConfig S) : options_t * HomeConfig S :=
  let c := if bool_decide (cfg_get_options c = options) then c else mark_profile_unconfirmed c in
  (options, mark_profile_confirmed (cfg_set_options options c)).

(** ** The system *)

Record System := mkSystem {
  ui : HomeConfig S;
  ui_options : options_t;                (** [OPTIONS] *)
  svc : HomeConfig S;
  tx : bool;                             (** [TX_FLUTTER_ASYNC_TASK] is set *)
  queue : list Task;
  runner : Runner;
  calls : gmap nat Call;
  accounts : gmap nat (option (result str str));   (** answered account calls *)
  inflight : list (nat * SvcMsg);
  replies : gmap nat SvcReply;
  next_conn : nat;
  sent : list nat;                       (** requests given to the service *)
  svc_fx : list SvcFx;
  account_fx : list AccountFx;
}.
#[export] Instance eta_System : EtaRecord System := fun s =>
  mkSystem (ui s) (ui_options s) (svc s) (tx s) (queue s) (runner s) (calls s) (accounts s) (inflight s) (replies s)
    (next_conn s) (sent s) (svc_fx s) (account_fx s).
#[export] Instance eta_Call : EtaRecord Call := fun c =>
  mkCall (c_values c) (c_deadline c) (c_abandoned c) (c_state c) (c_response c) (c_pc c).

Implicit Types s : System.

Definition set_call (id : nat) (f : Call -> Call) s : System := s <| calls ::= alter f id |>.
Definition set_pc (id : nat) (p : CallPc) s : System := set_call id (fun c => c <| c_pc := p |>) s.
Definition goto (r : Runner) s : System := s <| runner := r |>.

(** Whether the receiver of a response is still there *)
Definition receiving (p : CallPc) : bool := match p with Waiting => true | _ => false end.

(** [request.response.send(result)]: fails silently when the caller is gone. *)
Definition respond (id : nat) (r : Reply) s : System :=
  set_call id (fun c => if receiving (c_pc c) then c <| c_response := Some r |> else c) s.
Definition respond_account (id : nat) (r : result str str) s : System :=
  s <| accounts ::= alter (fun _ => Some r) id |>.

(** *** Callers *)

(** A call up to [recv_timeout]: [main_save_homedesk_network_profile] and
    [save_network_profile]. *)
Definition call_save (id : nat) (now : Z) (sessions_empty : bool) (v : NetworkValues) s : System :=
  let fail f := s <| calls ::= <[id := mkCall v (now + SAVE_DEADLINE) false 0 None (Returned (Err f))]> |> in
  match mode_parse (v_mode v) with
  | None => fail ModeInvalid
  | Some mode =>
    if negb sessions_empty then fail SessionsOpen
    else if negb (tx s) then fail RunnerNotReady
    else
      let v := Values (mode_as_str mode) (v_server v) (v_relay v) (v_key v) (v_family v) (v_source v) in
      match try_enqueue TASK_CAPACITY (Some (queue s)) (SaveNetworkProfile id) with
      | Err _ => fail QueueRefused
      | Ok q =>
        s <| calls ::= <[id := mkCall v (now + SAVE_DEADLINE) false 0 None Waiting]> |> <| queue := q |>
      end
  end.

(** The answer arrives. *)
Definition call_receive (id : nat) s : option System :=
  c ← calls s !! id;
  if negb (receiving (c_pc c)) then None else
  r ← c_response c;
  Some (match r with
        | Ok (error, options) => if bool_decide (error = ""%string) then set_pc id (Installing options) s
                                 else set_pc id (Returned (Ok error)) s
        | Err f => set_pc id (Returned (Err f)) s
        end).

Definition call_install (id : nat) s : option System :=
  c ← calls s !! id;
  match c_pc c with
  | Installing options =>
    let '(o, u) := set_homedesk_options_cache options (ui s) in
    Some (set_pc id (Returned (Ok ""%string)) (s <| ui_options := o |> <| ui := u |>))
  | _ => None
  end.

(** [recv_timeout] gives up, which it does only when no answer is there. *)
Definition call_expire (id : nat) s : option System :=
  c ← calls s !! id;
  if receiving (c_pc c) && negb (bool_decide (is_Some (c_response c))) then Some (set_pc id Expired s) else None.

Definition call_store_abandoned (id : nat) s : option System :=
  c ← calls s !! id;
  match c_pc c with
  | Expired => Some (set_call id (fun c => c <| c_abandoned := true |> <| c_pc := Abandoning |>) s)
  | _ => None
  end.

Definition call_abandon (id : nat) s : option System :=
  c ← calls s !! id;
  match c_pc c with
  | Abandoning =>
    let '(ok, state) := abandon_queued_save (c_state c) in
    Some (set_call id (fun c => c <| c_state := state |>
            <| c_pc := if ok then Returned (Err QueueExpired) else Doubting |>) s)
  | _ => None
  end.

Definition call_unconfirm (id : nat) s : option System :=
  c ← calls s !! id;
  match c_pc c with
  | Doubting => Some (set_pc id (Returned (Err OutcomeUnknown)) (s <| ui ::= mark_profile_unconfirmed |>))
  | _ => None
  end.

(** [nestlink_account] up to [recv_timeout]; [None] in [accounts] is a call that
    waits.  Its time-out leaves the answer unread. *)
Definition call_account (id : nat) (action : str) (auth : option AuthRequest) s : System :=
  if negb (tx s) then s <| accounts ::= <[id := Some (Err (lit "原生服务尚未就绪"))]> |>
  else match try_enqueue TASK_CAPACITY (Some (queue s)) (NestLinkAccount id action auth) with
       | Err _ => s <| accounts ::= <[id := Some (Err (lit "原生服务正忙，请稍后重试"))]> |>
       | Ok q => s <| accounts ::= <[id := None]> |> <| queue := q |>
       end.

(** [query_onlines] *)
Definition call_query (ids : list str) s : System :=
  if negb (tx s) then s
  else match try_enqueue TASK_CAPACITY (Some (queue s)) (QueryOnlines ids) with Err _ => s | Ok q => s <| queue := q |> end.

(** *** The runner *)

Definition start_flutter_async_runner s : option System :=
  match runner s with NotStarted => Some (s <| tx := true |> <| runner := Idle |>) | _ => None end.
Definition stop_flutter_async_runner s : System := s <| tx := false |>.

(** [rx.recv()] and the work up to the first await of the task; without a
    sender and with an empty queue the loop ends. *)
Definition runner_take (now : Z) s : option System :=
  match runner s with
  | Idle =>
    match queue s with
    | [] => if tx s then None else Some (goto Ended s)
    | SaveNetworkProfile id :: q =>
      c ← calls s !! id;
      let s := s <| queue := q |> in
      Some (if save_request_may_execute (c_abandoned c) now (c_deadline c) then goto (Checked id) s
            else respond id (Err QueueExpired) s)
    | NestLinkAccount id action auth :: q =>
      let s := s <| queue := q |> in
      Some (if bool_decide (action = lit "install") then
              match auth with
              | None => respond_account id (Err (native_failure_code (anyhow "缺少账号授权"))) s
              | Some a => goto (AccountUpdate id (Some a)) s
              end
            else if bool_decide (action = lit "clear") then
              goto (AccountUpdate id None) (s <| account_fx ::= fun l => l ++ [LocallyCleared] |>)
            else if bool_decide (action = lit "binding") then goto (AccountBinding id) s
            else respond_account id (Err (native_failure_code (anyhow "账号授权操作无效"))) s)
    | QueryOnlines ids :: q => Some (goto (Querying ids) (s <| queue := q |>))
    end
  | _ => None
  end.

Definition runner_claim s : option System :=
  match runner s with
  | Checked id =>
    c ← calls s !! id;
    let '(ok, state) := claim_queued_save (c_state c) in
    let s := set_call id (fun c => c <| c_state := state |>) s in
    Some (if ok then goto (Connecting id) s else goto Idle (respond id (Err RequestAbandoned) s))
  | _ => None
  end.

(** [set_homedesk_network_profile_async] *)
Definition runner_connect (r : result string unit) s : option System :=
  match runner s with
  | Connecting id => Some (match r with
      | Ok _ => goto (Sending id) s
      | Err error => goto (Answering id (Err (IpcNotSent ("无法连接 HomeDesk 后台服务：" +:+ error)))) s
      end)
  | _ => None
  end.

Definition runner_send (r : result string unit) s : option System :=
  match runner s with
  | Sending id =>
    c ← calls s !! id;
    Some (match r with
      | Ok _ =>
        s <| inflight ::= fun l => l ++ [(next_conn s, ProfileMsg id (Some (c_values c)))] |>
          <| sent ::= fun l => l ++ [id] |> <| next_conn ::= Datatypes.S |> <| runner := Sent id (next_conn s) |>
      | Err error => goto (Answering id (Err (IpcNotSent ("未能发送网络配置：" +:+ error)))) s
      end)
  | _ => None
  end.

(** The confirmation is read; the profile is confirmed before the answer. *)
Definition runner_ack s : option System :=
  match runner s with
  | Sent id conn =>
    match replies s !! conn with
    | Some (ProfileReply value) => Some (goto (Answering id (Ok value)) (s <| ui ::= mark_profile_confirmed |>))
    | _ => None
    end
  | _ => None
  end.

(** No confirmation: the connection failed, ended or answered something else. *)
Definition runner_unacknowledged (error : option string) s : option System :=
  match runner s with
  | Sent id _ => Some (goto (Resync id (match error with
      | Some e => "等待后台确认失败：" +:+ e
      | None => "HomeDesk 后台服务未确认网络配置保存结果" end)) s)
  | _ => None
  end%string.

(** The remaining time runs out, at any await of the request. *)
Definition runner_elapsed s : option System :=
  match runner s with
  | Connecting id | Sending id | Sent id _ => Some (goto (Resync id "后台确认超时"%string) s)
  | _ => None
  end.

(** [resync_network_profile_after_unknown] with [get_options_confirmed_async] *)
Definition runner_resync_send s : option System :=
  match runner s with
  | Resync id reason =>
    Some (s <| inflight ::= fun l => l ++ [(next_conn s, OptionsMsg)] |> <| next_conn ::= Datatypes.S |>
            <| runner := ResyncSent id reason (next_conn s) |>)
  | _ => None
  end.

Definition runner_resync_done s : option System :=
  match runner s with
  | ResyncSent id reason conn =>
    match replies s !! conn with
    | Some (OptionsReply options) =>
      let '(o, u) := set_homedesk_options_cache options (ui s) in
      Some (goto (Answering id (Ok ("保存结果未知（" +:+ reason +:+ "）；已重新同步后台有效配置，请核对当前模式后重试", options)%string))
              (s <| ui_options := o |> <| ui := mark_profile_confirmed u |>))
    | _ => None
    end
  | _ => None
  end.

Definition runner_resync_failed (error : string) s : option System :=
  match runner s with
  | Resync id reason | ResyncSent id reason _ =>
    Some (goto (Answering id (Err (ResyncFailed reason error))) (s <| ui ::= mark_profile_unconfirmed |>))
  | _ => None
  end.

Definition runner_answer s : option System :=
  match runner s with Answering id reply => Some (goto Idle (respond id reply s)) | _ => None end.

(** An await of an account task or of a query ends. *)
Definition runner_account (r : result error unit) (proof : str) s : option System :=
  let answer id := match r with
    | Ok _ => respond_account id (Ok [])
    | Err e => respond_account id (Err (native_failure_code e)) end in
  match runner s with
  | AccountUpdate id auth =>
    let s := s <| account_fx ::= fun l => l ++ [ServiceUpdated auth r] |> in
    Some (match auth, r with
          | Some a, Ok _ => goto (AccountInstall id a) s
          | _, _ => goto Idle (answer id s)
          end)
  | AccountInstall id a => Some (goto Idle (answer id (s <| account_fx ::= fun l => l ++ [LocallyInstalled a r] |>)))
  | AccountBinding id => Some (goto Idle (match r with Ok _ => respond_account id (Ok proof) s | Err _ => answer id s end))
  | Querying _ => Some (goto Idle s)
  | _ => None
  end.

(** *** The service *)

Definition remove_nth {A} (k : nat) (l : list A) : list A := take k l ++ drop (Datatypes.S k) l.

(** The service handles the [k]-th message that is on its way. *)
Definition svc_handle (k : nat) (alive attempts : bool) s : option System :=
  '(conn, m) ← inflight s !! k;
  let s := s <| inflight ::= remove_nth k |> in
  Some (match m with
        | OptionsMsg => s <| replies ::= <[conn := OptionsReply (cfg_get_options (svc s))]> |>
        | ProfileMsg _ request =>
          let '(error, c, fx) := handle_profile alive attempts request (svc s) in
          s <| svc := c |> <| svc_fx ::= fun l => l ++ fx |>
            <| replies ::= <[conn := ProfileReply (error, cfg_get_options c)]> |>
        end).

(** ** Steps and runs *)

Inductive Label :=
| L_Save (id : nat) (now : Z) (sessions_empty : bool) (v : NetworkValues)
| L_Receive (id : nat) | L_Install (id : nat) | L_Expire (id : nat) | L_StoreAbandoned (id : nat)
| L_Abandon (id : nat) | L_Unconfirm (id : nat)
| L_Account (id : nat) (action : str) (auth : option AuthRequest)
| L_Query (ids : list str)
| L_Start | L_Stop | L_Take (now : Z) | L_Claim
| L_Connect (r : result string unit) | L_Send (r : result string unit) | L_Ack | L_Unacknowledged (error : option string)
| L_Elapsed | L_ResyncSend | L_ResyncDone | L_ResyncFailed (error : string) | L_Answer
| L_AccountDone (r : result error unit) (proof : str)
| L_Svc (k : nat) (alive attempts : bool)
| L_Elsewhere (ui' svc' : HomeConfig S).  (** other code of the two processes *)

Definition step (l : Label) s : option System :=
  match l with
  | L_Save id now e v => if bool_decide (calls s !! id = None) then Some (call_save id now e v s) else None
  | L_Receive id => call_receive id s
  | L_Install id => call_install id s
  | L_Expire id => call_expire id s
  | L_StoreAbandoned id => call_store_abandoned id s
  | L_Abandon id => call_abandon id s
  | L_Unconfirm id => call_unconfirm id s
  | L_Account id action auth => if bool_decide (accounts s !! id = None) then Some (call_account id action auth s) else None
  | L_Query ids => Some (call_query ids s)
  | L_Start => start_flutter_async_runner s
  | L_Stop => Some (stop_flutter_async_runner s)
  | L_Take now => runner_take now s
  | L_Claim => runner_claim s
  | L_Connect r => runner_connect r s
  | L_Send r => runner_send r s
  | L_Ack => runner_ack s
  | L_Unacknowledged e => runner_unacknowledged e s
  | L_Elapsed => runner_elapsed s
  | L_ResyncSend => runner_resync_send s
  | L_ResyncDone => runner_resync_done s
  | L_ResyncFailed e => runner_resync_failed e s
  | L_Answer => runner_answer s
  | L_AccountDone r proof => runner_account r proof s
  | L_Svc k alive attempts => svc_handle k alive attempts s
  | L_Elsewhere u v => Some (s <| ui := u |> <| svc := v |>)
  end.

Fixpoint run (ls : list Label) s : option System :=
  match ls with [] => Some s | l :: r => s' ← step l s; run r s' end.

Definition start (u v : HomeConfig S) : System :=
  mkSystem u (cfg_get_options u) v false [] NotStarted ∅ ∅ [] ∅ 0 [] [] [].

End Flow.
Arguments System S : clear implicits.
Arguments Label S : clear implicits.

(** ** What a request's state says

    [held] are the requests in the queue or with the runner, each once. *)
Section Safety.
Context {S : Type} `{!OptionKeys, !BuildEnv, !ConfigStore S, !Externals}.
Implicit Types s : System S.

Definition saves (q : list Task) : list nat :=
  omap (fun t => match t with SaveNetworkProfile id => Some id | _ => None end) q.

Definition runner_id (r : Runner) : option nat :=
  match r with
  | Checked id | Connecting id | Sending id | Sent id _ | Resync id _ | ResyncSent id _ _ | Answering id _ => Some id
  | _ => None
  end.

Definition held s : list nat := option_list (runner_id (runner s)) ++ saves (queue s).

(** A request that is over without having reached the service *)
Definition closed s (id : nat) : Prop := (id ∉ sent s) /\ (id ∉ held s).

Definition unclaimed s (id : nat) : Prop := id ∈ saves (queue s) \/ runner s = Checked id.

(** What the runner's place says of its request *)
Definition runner_ok s : Prop :=
  match runner s with
  | Connecting id | Sending id => (id ∉ sent s) /\ (exists c, calls s !! id = Some c /\ c_state c = 1)
  | Sent id _ => id ∈ sent s
  | Answering id (Err f) => says_not_sent f = true -> id ∉ sent s
  | _ => True
  end.

Record call_ok s (id : nat) (c : Call) : Prop := {
  k_sent : id ∈ sent s -> c_state c = 1;
  k_unclaimed : unclaimed s id -> c_state c <> 1;
  k_response : forall f, c_response c = Some (Err f) -> says_not_sent f = true -> closed s id;
  k_returned : forall f, c_pc c = Returned (Err f) -> says_not_sent f = true -> closed s id \/ c_state c = 2;
}.

Record Inv s : Prop := {
  i_held : NoDup (held s);
  i_dom : forall id, id ∈ held s \/ id ∈ sent s -> is_Some (calls s !! id);
  i_sent : NoDup (sent s);
  i_runner : runner_ok s;
  i_calls : forall id c, calls s !! id = Some c -> call_ok s id c;
}.

(** Steps that leave the requests where they are *)
Lemma inv_frame s s' : Inv s -> calls s' = calls s -> saves (queue s') = saves (queue s) ->
  sent s' = sent s -> runner_id (runner s') = runner_id (runner s) ->
  (forall id, runner s' = Checked id -> runner s = Checked id) ->
  runner_ok s' -> Inv s'.
Proof.
  intros [N1 N2 N3 N4 N5] Hc Hq Hs Hr Hk Hok. assert (Hh : held s' = held s) by (unfold held; by rewrite Hq, Hr).
  split; rewrite ?Hh, ?Hs, ?Hc; auto. intros id c Hid. destruct (N5 id c Hid) as [J1 J2 J3 J4].
  split; unfold closed, unclaimed in *; rewrite ?Hh, ?Hs, ?Hq; auto. intros [Hu|Hu]; apply J2; auto.
Qed.

(** A call changes in what its caller writes *)
Lemma inv_call s (id : nat) f : Inv s ->
  (forall c, calls s !! id = Some c -> call_ok s id c ->
     (c_state (f c) = c_state c \/ (c_state c = 0 /\ c_state (f c) = 2)) /\
     (forall e, c_response (f c) = Some (Err e) -> says_not_sent e = true -> closed s id) /\
     (forall e, c_pc (f c) = Returned (Err e) -> says_not_sent e = true -> closed s id \/ c_state (f c) = 2)) ->
  Inv (set_call id f s).
Proof.
  intros [N1 N2 N3 N4 N5] Hf. split; try done.
  - intros i Hi. simpl. rewrite lookup_alter_is_Some. by apply N2.
  - unfold runner_ok in *. simpl. destruct (runner s) as [| | |i|i| | | | | | | | |]; try done;
      destruct N4 as (Hn & c & Hc & Hst); (split; [done|]); destruct (decide (i = id)) as [->|Hne];
      (rewrite lookup_alter_eq, Hc || rewrite lookup_alter_ne by done); eauto; eexists; (split; [done|]);
      destruct (Hf c Hc (N5 _ _ Hc)) as ([E|[E _]] & _); congruence.
  - intros i c Hlk. simpl in Hlk. apply lookup_alter_Some in Hlk as [(<- & c0 & Hc & ->)|(Hne & Hc)].
    + destruct (N5 _ _ Hc) as [J1 J2 J3 J4]. destruct (Hf c0 Hc (N5 _ _ Hc)) as (E & Hr & Hp).
      split; auto; [intros Hin; specialize (J1 Hin); destruct E as [E|[E _]]; congruence|].
      intros Hu. specialize (J2 Hu). destruct E as [E|[_ E]]; congruence.
    + by destruct (N5 _ _ Hc).
Qed.

Lemma inv_pc s (id : nat) p : Inv s ->
  (forall e c, calls s !! id = Some c -> p = Returned (Err e) -> says_not_sent e = true -> closed s id \/ c_state c = 2) ->
  Inv (set_pc id p s).
Proof.
  intros Hi Hp. apply inv_call; [done|]. intros c Hc [J1 J2 J3 J4]. simpl. split_and!; eauto.
Qed.

(** The runner lets go of a request *)
Lemma inv_release s (id : nat) r : Inv s -> runner_id (runner s) = Some id ->
  (forall f, r = Err f -> says_not_sent f = true -> id ∉ sent s) -> Inv (goto Idle (respond id r s)).
Proof.
  intros [N1 N2 N3 N4 N5] Hr Hs. unfold held in *. rewrite Hr in *. simpl in *. apply NoDup_cons in N1 as [Hnq N1].
  split; try done.
  - intros i [Hi|Hi]; simpl; rewrite lookup_alter_is_Some; apply N2; set_solver.
  - assert (Hcl : forall i, closed s i -> closed (goto Idle (respond id r s)) i).
    { intros i [Ha Hb]. split; [done|]. unfold held in *. simpl. set_solver. }
    intros i c Hlk. simpl in Hlk. apply lookup_alter_Some in Hlk as [(<- & c0 & Hc & ->)|(Hne & Hc)]; destruct (N5 _ _ Hc) as [J1 J2 J3 J4].
    + split.
      * simpl. intros. destruct (receiving _); by apply J1.
      * intros [Hu|Hu]; [done|by simpl in Hu].
      * intros f. assert (Hc0 : forall f, r = Err f -> says_not_sent f = true -> closed (goto Idle (respond id r s)) id).
        { intros g -> Hg. split; [by eapply Hs|]. unfold held. simpl. done. }
        destruct (receiving _); simpl; [intros [= ->]; by apply Hc0|]. eauto.
      * intros f. destruct (receiving (c_pc c0)) eqn:Er; simpl; [by destruct (c_pc c0)|]. intros Hf Hn.
        destruct (J4 f Hf Hn); auto.
    + split; eauto.
      * intros [Hu|Hu]; [by apply J2; left|by simpl in Hu].
      * intros f Hf Hn. destruct (J4 f Hf Hn); auto.
Qed.

(** The runner moves on with its request *)
Lemma flow_inv_move s (id : nat) r : Inv s -> runner_id (runner s) = Some id -> runner_id r = Some id ->
  (forall i, r <> Checked i) -> runner_ok (goto r s) -> Inv (goto r s).
Proof.
  intros Hi0 Hr Hr' Hk Hok. eapply inv_frame; eauto; simpl; [by rewrite Hr|]. intros i Hi. by destruct (Hk i).
Qed.

Lemma saves_app q q' : saves (q ++ q') = saves q ++ saves q'.
Proof. apply omap_app. Qed.

Lemma inv_fresh s (id : nat) : Inv s -> calls s !! id = None -> closed s id.
Proof.
  intros Hi Hn. split; intros Hin; destruct (i_dom _ Hi id) as [c Hc]; auto; congruence.
Qed.

(** A new call, refused or queued *)
Lemma inv_new s (id : nat) c (queued : bool) : Inv s -> calls s !! id = None ->
  c_state c = 0 -> c_response c = None -> (queued = true -> c_pc c = Waiting) ->
  Inv (s <| calls ::= <[id := c]> |> <| queue ::= fun q => q ++ (if queued then [SaveNetworkProfile id] else []) |>).
Proof.
  intros Hi Hn Hs Hr Hp. pose proof (inv_fresh s id Hi Hn) as [Hcs Hch]. destruct Hi as [N1 N2 N3 N4 N5].
  assert (Hh : held (s <| calls ::= <[id := c]> |> <| queue ::= fun q => q ++ (if queued then [SaveNetworkProfile id] else []) |>)
               = held s ++ (if queued then [id] else [])).
  { unfold held. simpl. rewrite saves_app, app_assoc. by destruct queued. }
  split; try done.
  - rewrite Hh. destruct queued; [|by rewrite app_nil_r]. apply NoDup_app. split_and!; [done| |apply NoDup_singleton]. set_solver.
  - intros i. rewrite Hh. simpl. rewrite lookup_insert_is_Some. destruct queued; set_solver.
  - unfold runner_ok in *. simpl. destruct (runner s) as [| | |i|i| | | | | | | | |]; try done;
      destruct N4 as (Ha & c0 & Hc & Hst); (split; [done|]); exists c0; rewrite lookup_insert_ne by congruence; done.
  - assert (Hcl : forall i, closed s i -> i <> id -> closed (s <| calls ::= <[id := c]> |> <| queue ::= fun q => q ++ (if queued then [SaveNetworkProfile id] else []) |>) i).
    { intros i [Ha Hb] Hne. split; [done|]. rewrite Hh. destruct queued; set_solver. }
    intros i ci Hlk. simpl in Hlk. apply lookup_insert_Some in Hlk as [[<- <-]|[Hne Hc]].
    + split; rewrite ?Hs, ?Hr; try done. intros f Hf Hnf. left. split; [done|]. rewrite Hh.
      destruct queued; [by rewrite Hp in Hf|]. by rewrite app_nil_r.
    + destruct (N5 _ _ Hc) as [J1 J2 J3 J4]. split; auto.
      * intros [Hu|Hu]; apply J2; [|by right]. left. simpl in Hu. rewrite saves_app in Hu. destruct queued; set_solver.
      * intros f Hf Hnf. apply Hcl; eauto.
      * intros f Hf Hnf. destruct (J4 f Hf Hnf); eauto.
Qed.

(** The runner takes a request from the queue *)
Lemma inv_take s (id : nat) q r : Inv s -> runner s = Idle -> queue s = SaveNetworkProfile id :: q ->
  r = Checked id -> Inv (goto r (s <| queue := q |>)).
Proof.
  intros [N1 N2 N3 N4 N5] Hr Hq ->. unfold held in *. rewrite Hr, Hq in *. simpl in *. split; try done.
  intros i c Hc. destruct (N5 _ _ Hc) as [J1 J2 J3 J4].
  assert (Hcl : forall i, closed s i -> closed (goto (Checked id) (s <| queue := q |>)) i).
  { intros j [Ha Hb]. split; [done|]. unfold held in *. rewrite Hr, Hq in Hb. done. }
  split; eauto.
  - unfold unclaimed in *. rewrite Hq in J2. simpl in *. intros [Hu|[= ->]]; apply J2; left; set_solver.
  - intros f Hf Hn. destruct (J4 f Hf Hn); eauto.
Qed.

Lemma inv_refuse s (id : nat) q : Inv s -> runner s = Idle -> queue s = SaveNetworkProfile id :: q ->
  Inv (respond id (Err QueueExpired) (s <| queue := q |>)).
Proof.
  intros Hi Hr Hq. pose proof (inv_take s id q _ Hi Hr Hq eq_refl) as Ht.
  assert (Hns : id ∉ sent s).
  { intros Hin. destruct (i_dom _ Hi id) as [c Hc]; [by right|]. destruct (i_calls _ Hi id c Hc) as [J1 J2 _ _].
    apply J2; [left; rewrite Hq; simpl; set_solver|auto]. }
  eapply (inv_frame (goto Idle (respond id (Err QueueExpired) (goto (Checked id) (s <| queue := q |>))))); simpl;
    [by apply inv_release| | | | | |]; try done; rewrite Hr; done.
Qed.

Lemma inv_claim s (id : nat) : Inv s -> runner s = Checked id -> forall c, calls s !! id = Some c -> c_state c = 0 ->
  Inv (goto (Connecting id) (set_call id (fun c => c <| c_state := 1 |>) s)).
Proof.
  intros [N1 N2 N3 N4 N5] Hr c Hc Hs0. unfold held in *. rewrite Hr in *. simpl in *.
  assert (Hns : id ∉ sent s) by (intros Hin; destruct (N5 _ _ Hc) as [J1 _ _ _]; specialize (J1 Hin); lia).
  apply NoDup_cons in N1 as [Hnq N1]. split; try done.
  - unfold held. simpl. by apply NoDup_cons.
  - intros i Hi. simpl. rewrite lookup_alter_is_Some. by apply N2.
  - split; [done|]. exists (c <| c_state := 1 |>). simpl. by rewrite lookup_alter_eq, Hc.
  - assert (Hcl : forall i, closed s i -> closed (goto (Connecting id) (set_call id (fun c => c <| c_state := 1 |>) s)) i).
    { intros i [Ha Hb]. split; [done|]. unfold held in *. rewrite Hr in Hb. done. }
    intros i ci Hlk. simpl in Hlk. apply lookup_alter_Some in Hlk as [(<- & c0 & Hc0 & ->)|(Hne & Hci)].
    + simplify_eq. destruct (N5 _ _ Hc) as [J1 J2 J3 J4]. split; simpl; eauto.
      * intros [Hu|Hu]; done.
      * intros f Hf Hn. destruct (J4 f Hf Hn); [auto|lia].
    + destruct (N5 _ _ Hci) as [J1 J2 J3 J4]. split; eauto.
      * intros [Hu|Hu]; [by apply J2; left|done].
      * intros f Hf Hn. destruct (J4 f Hf Hn); eauto.
Qed.

Lemma inv_send s (id conn : nat) msgs n : Inv s -> runner s = Sending id ->
  Inv (s <| inflight := msgs |> <| sent ::= fun l => l ++ [id] |> <| next_conn := n |> <| runner := Sent id conn |>).
Proof.
  intros [N1 N2 N3 N4 N5] Hr. unfold runner_ok, held in *. rewrite Hr in *. simpl in *. destruct N4 as (Hns & c & Hc & Hs1).
  split; try done.
  - simpl. intros i Hi. apply N2. set_solver.
  - simpl. apply NoDup_app. split_and!; [done|set_solver|apply NoDup_singleton].
  - simpl. set_solver.
  - set (s' := s <| inflight := msgs |> <| sent ::= fun l => l ++ [id] |> <| next_conn := n |> <| runner := Sent id conn |>).
    assert (Hcl : forall i, closed s i -> closed s' i).
    { intros i [Ha Hb]. unfold closed, held in *. rewrite Hr in Hb. simpl in *. split; set_solver. }
    intros i ci Hci. simpl in Hci. destruct (N5 _ _ Hci) as [J1 J2 J3 J4]. split; eauto.
    + simpl. intros Hin. destruct (decide (i = id)) as [->|Hne]; [by simplify_eq|]. apply J1. set_solver.
    + intros [Hu|Hu]; [by apply J2; left|done].
    + intros f Hf Hn. destruct (J4 f Hf Hn); eauto.
Qed.

(** Leaving the queue and the requests alone *)
Ltac frame Hi := eapply (inv_frame _ _ Hi); simpl; try done.

Lemma inv_runner_take now s s' : runner_take now s = Some s' -> Inv s -> Inv s'.
Proof.
  unfold runner_take. intros E Hi. destruct (runner s) eqn:Hr; try done.
  assert (Hok : runner_ok s) by apply Hi. unfold runner_ok in Hok.
  destruct (queue s) as [|[id action auth|ids|id] q] eqn:Hq.
  - destruct (tx s); [done|]. injection E as <-. frame Hi. by rewrite Hr.
  - destruct (bool_decide (action = _)); [|destruct (bool_decide (action = _)); [|destruct (bool_decide (action = _))]];
      try destruct auth; injection E as <-; (frame Hi; rewrite ?Hq, ?Hr; done).
  - injection E as <-. frame Hi; rewrite ?Hq, ?Hr; done.
  - destruct (calls s !! id) as [c|] eqn:Hc; [|done]. simpl in E.
    destruct (save_request_may_execute _ _ _); injection E as <-; [by eapply inv_take|by eapply inv_refuse].
Qed.

Lemma inv_runner_account r proof s s' : runner_account r proof s = Some s' -> Inv s -> Inv s'.
Proof.
  unfold runner_account. intros E Hi. destruct (runner s) as [| | | | | | | | |id [a|]|id a|id|ids|] eqn:Hr; try done; try destruct r;
    injection E as <-; (frame Hi; by rewrite Hr).
Qed.

Lemma inv_step l s s' : step l s = Some s' -> Inv s -> Inv s'.
Proof.
  intros E Hi. destruct l; simpl in E.
  - case_bool_decide as Hn; [|done]. injection E as <-. unfold call_save.
    assert (Hf : forall f, Inv (s <| calls ::= <[id := mkCall v (now + SAVE_DEADLINE) false 0 None (Returned (Err f))]> |>)).
    { intros f. eapply (inv_frame (s <| calls ::= <[id := mkCall v (now + SAVE_DEADLINE) false 0 None (Returned (Err f))]> |> <| queue ::= fun q => q ++ [] |>));
        [by apply (inv_new s id _ false)|..]; simpl; rewrite ?app_nil_r; try done.
      apply (inv_new s id (mkCall v (now + SAVE_DEADLINE) false 0 None (Returned (Err f))) false); done. }
    destruct (mode_parse _); [|done]. destruct (negb _); [done|]. destruct (negb _); [done|].
    unfold try_enqueue. case_bool_decide; [|done]. by apply (inv_new s id _ true).
  - unfold call_receive in E. destruct (calls s !! id) as [c|] eqn:Hc; [|done]. simpl in E.
    destruct (receiving (c_pc c)) eqn:Er; [|done]. simpl in E. destruct (c_response c) as [[[e o]|f]|] eqn:Hr; simpl in E; [| |done].
    + case_bool_decide; injection E as <-; by apply inv_pc.
    + injection E as <-. apply inv_pc; [done|]. intros e c' Hc' [= <-] Hn. left. eapply k_response; eauto. by apply Hi.
  - unfold call_install in E. destruct (calls s !! id) as [c|] eqn:Hc; [|done]. simpl in E. destruct (c_pc c); try done.
    injection E as <-. apply inv_pc; [|done]. frame Hi. apply Hi.
  - unfold call_expire in E. destruct (calls s !! id) as [c|] eqn:Hc; [|done]. simpl in E. destruct (_ && _); [|done].
    injection E as <-. by apply inv_pc.
  - unfold call_store_abandoned in E. destruct (calls s !! id) as [c|] eqn:Hc; [|done]. simpl in E. destruct (c_pc c); try done.
    injection E as <-. apply inv_call; [done|]. intros c' Hc' [J1 J2 J3 J4]. simpl. split_and!; eauto. done.
  - unfold call_abandon in E. destruct (calls s !! id) as [c|] eqn:Hc; [|done]. simpl in E. destruct (c_pc c) eqn:Hp; try done.
    unfold abandon_queued_save, compare_exchange_0 in E. destruct (Z.eqb_spec (c_state c) 0) as [Hz|Hz]; injection E as <-;
      (apply inv_call; [done|]); intros c' Hc' [J1 J2 J3 J4]; simplify_eq; simpl; (split_and!; [auto|done|done || auto]).
  - unfold call_unconfirm in E. destruct (calls s !! id) as [c|] eqn:Hc; [|done]. simpl in E. destruct (c_pc c); try done.
    injection E as <-. apply inv_pc; [|by intros ? ? ? [= <-]]. frame Hi. apply Hi.
  - case_bool_decide; [|done]. injection E as <-. unfold call_account. destruct (negb _); [frame Hi; apply Hi|].
    unfold try_enqueue. case_bool_decide; [|frame Hi; apply Hi]. frame Hi; [by rewrite saves_app, app_nil_r|apply Hi].
  - injection E as <-. unfold call_query. destruct (negb _); [done|].
    unfold try_enqueue. case_bool_decide; [|done]. frame Hi; [by rewrite saves_app, app_nil_r|apply Hi].
  - unfold start_flutter_async_runner in E. destruct (runner s) eqn:Hr; try done. injection E as <-. frame Hi. by rewrite Hr.
  - injection E as <-. frame Hi. apply Hi.
  - by eapply inv_runner_take.
  - unfold runner_claim in E. destruct (runner s) as [| |id| | | | | | | | | | |] eqn:Hr; try done.
    destruct (calls s !! id) as [c|] eqn:Hc; [|done]. simpl in E. unfold claim_queued_save, compare_exchange_0 in E.
    destruct (Z.eqb_spec (c_state c) 0) as [Hz|Hz]; injection E as <-; [by eapply inv_claim|].
    apply inv_release; [|by simpl; rewrite Hr|].
    + apply inv_call; [done|]. intros c' Hc' [J1 J2 J3 J4]. simplify_eq. simpl. split_and!; eauto.
    + intros f _ _ Hin. simpl in Hin. destruct (i_calls _ Hi id c Hc) as [J1 J2 _ _]. apply J2; [by right|auto].
  - unfold runner_connect in E. destruct (runner s) eqn:Hr; try done. pose proof (i_runner _ Hi) as Hk. unfold runner_ok in Hk.
    rewrite Hr in Hk. destruct r; injection E as <-; (eapply flow_inv_move; [done|by rewrite Hr|done|done|]); [exact Hk|].
    intros _. apply Hk.
  - unfold runner_send in E. destruct (runner s) eqn:Hr; try done. destruct (calls s !! id) as [c|] eqn:Hc; [|done].
    pose proof (i_runner _ Hi) as Hk. unfold runner_ok in Hk. rewrite Hr in Hk.
    destruct r; injection E as <-; [by apply inv_send|]. eapply flow_inv_move; [done|by rewrite Hr|done|done|]. intros _. apply Hk.
  - unfold runner_ack in E. destruct (runner s) eqn:Hr; try done. destruct (replies s !! conn) as [[]|]; try done.
    injection E as <-. frame Hi. by rewrite Hr.
  - unfold runner_unacknowledged in E. destruct (runner s) eqn:Hr; try done. injection E as <-. frame Hi. by rewrite Hr.
  - unfold runner_elapsed in E. destruct (runner s) eqn:Hr; try done; injection E as <-; frame Hi; by rewrite Hr.
  - unfold runner_resync_send in E. destruct (runner s) eqn:Hr; try done. injection E as <-. frame Hi. by rewrite Hr.
  - unfold runner_resync_done in E. destruct (runner s) eqn:Hr; try done. destruct (replies s !! conn) as [[]|]; try done.
    injection E as <-. frame Hi. by rewrite Hr.
  - unfold runner_resync_failed in E. destruct (runner s) eqn:Hr; try done; injection E as <-; frame Hi; by rewrite Hr.
  - unfold runner_answer in E. destruct (runner s) as [| | | | | | | |id rep| | | | |] eqn:Hr; try done. injection E as <-.
    apply inv_release; [done|by rewrite Hr|]. intros f -> Hn. pose proof (i_runner _ Hi) as Hk. unfold runner_ok in Hk.
    rewrite Hr in Hk. auto.
  - by eapply inv_runner_account.
  - unfold svc_handle in E. destruct (inflight s !! k) as [[conn m]|]; [|done]. simpl in E.
    destruct m; [destruct (handle_profile _ _ _ _) as [[e c] fx]|]; injection E as <-; (frame Hi; apply Hi).
  - injection E as <-. frame Hi. apply Hi.
Qed.

Lemma runner_sent s (id conn : nat) : Inv s -> runner s = Sent id conn -> id ∈ sent s.
Proof. intros Hi Hr. pose proof (i_runner _ Hi) as Hk. unfold runner_ok in Hk. by rewrite Hr in Hk. Qed.

Lemma inv_start u v : Inv (start u v).
Proof. split; simpl; try done; [apply NoDup_nil_2|set_solver|apply NoDup_nil_2]. Qed.

Lemma inv_run ls s s' : run ls s = Some s' -> Inv s -> Inv s'.
Proof.
  revert s. induction ls as [|l ls IH]; simpl; intros s E Hi; [by simplify_eq|].
  destruct (step l s) as [s1|] eqn:El; [|done]. simpl in E. eapply IH; [exact E|]. by eapply inv_step.
Qed.

End Safety.

(** ** Agreement of the two processes *)

(** What the interface relies on in [hbb_common::config]: an option is read from
    the merged map, saving a merged map of a process with the same tables reads
    back as that map, and the merged map depends on [Config2] and the tables only. *)
Class ConfigViews (S : Type) `{!ConfigStore S} := {
  get_option_reads : forall s d e k, get_option s d e k = default [] (get_options s d e !! k);
  get_options_set : forall s s' d e, get_options (set_options d e (get_options s' d e) s) d e = get_options s' d e;
  get_options_config2 : forall s s' d e, config2 s = config2 s' -> get_options s d e = get_options s' d e;
}.

Section Agreement.
Context {S : Type} `{!OptionKeys, !BuildEnv, !ConfigStore S, !Externals}.
Implicit Types s : System S.

Definition same_tables (u v : HomeConfig S) : Prop :=
  default_settings u = default_settings v /\ overwrite_settings u = overwrite_settings v.

Definition agree s : Prop := cfg_get_options (ui s) = cfg_get_options (svc s).

Definition is_returned (p : CallPc) : bool := match p with Returned _ => true | _ => false end.
Definition all_returned s : bool := bool_decide (map_Forall (fun _ c => is_returned (c_pc c) = true) (calls s)).

Definition is_profile (m : nat * SvcMsg) : bool := match m.2 with ProfileMsg _ _ => true | OptionsMsg => false end.
Definition profiles s : list (nat * SvcMsg) := List.filter is_profile (inflight s).

(** No call waits, the runner has no request and no save is on its way. *)
Definition settled s : bool :=
  all_returned s && bool_decide (held s = []) && bool_decide (profiles s = []).

(** A run is orderly when calls do not overlap, the service answers a resync only
    after the saves it was sent, it refuses a save only while the profile is
    confirmed, its confirmation of a save is read before the caller gave up, and
    nothing else changes the two configurations. *)
Definition orderly (l : Label S) s : bool :=
  match l with
  | L_Save _ _ _ _ => settled s
  | L_Svc k _ _ => match inflight s !! k with Some (_, OptionsMsg) => bool_decide (profiles s = []) | _ => true end
  | L_Ack =>
    match runner s with
    | Sent id conn =>
      match replies s !! conn with
      | Some (ProfileReply (error, _)) =>
        if bool_decide (error = ""%string) then match calls s !! id with Some c => negb (is_returned (c_pc c)) | None => true end
        else profile_confirmed (ui s)
      | _ => true
      end
    | _ => true
    end
  | L_Elsewhere _ _ => false
  | _ => true
  end.

Fixpoint orderly_run (ls : list (Label S)) s : bool :=
  match ls with
  | [] => true
  | l :: r => orderly l s && match step l s with Some s' => orderly_run r s' | None => true end
  end.

(** What can bring the two apart, step by step: a save is started while another
    one is under way; the service answers a resync before a save it was sent
    earlier; the interface reads a refusal (which makes it confirm its own
    profile) while its profile is unconfirmed; it reads the confirmation of a save
    whose caller has already given up; something else changes a configuration. *)
Inductive Cause (s : System S) : Label S -> Prop :=
| OverlappingSave id now empty values : settled s = false -> Cause s (L_Save id now empty values)
| ResyncOvertakes k conn alive attempts : inflight s !! k = Some (conn, OptionsMsg) -> profiles s <> [] ->
    Cause s (L_Svc k alive attempts)
| RefusedWhileUnconfirmed id conn error o : runner s = Sent id conn -> replies s !! conn = Some (ProfileReply (error, o)) ->
    error <> ""%string -> profile_confirmed (ui s) = false -> Cause s L_Ack
| ConfirmedTooLate id conn o c said : runner s = Sent id conn -> replies s !! conn = Some (ProfileReply (""%string, o)) ->
    calls s !! id = Some c -> c_pc c = Returned said -> Cause s L_Ack
| ChangedElsewhere u v : Cause s (L_Elsewhere u v).

Lemma disorder_cause l s : orderly l s = false -> Cause s l.
Proof.
  destruct l; simpl; try done; intros Ho.
  - by apply OverlappingSave.
  - destruct (runner s) as [| | | | |id conn| | | | | | | |] eqn:Er; try done. destruct (replies s !! conn) as [[[error o]|]|] eqn:Ep; try done.
    case_bool_decide as He; [|by eapply RefusedWhileUnconfirmed]. subst error.
    destruct (calls s !! id) as [c|] eqn:Ec; [|done]. destruct (c_pc c) eqn:Epc; try done. by eapply ConfirmedTooLate.
  - destruct (inflight s !! k) as [[conn []]|] eqn:Ei; try done. apply bool_decide_eq_false in Ho. by eapply ResyncOvertakes.
  - apply ChangedElsewhere.
Qed.

Lemma orderly_or_cause ls s : orderly_run ls s = true \/
  exists before l after s1, ls = before ++ l :: after /\ run before s = Some s1 /\ Cause s1 l.
Proof.
  revert s. induction ls as [|l ls IH]; intros s; simpl; [by left|].
  destruct (orderly l s) eqn:Ho; [|right; exists [], l, ls, s; split; [done|]; split; [done|]; by apply disorder_cause].
  simpl. destruct (step l s) as [s1|] eqn:Es; [|by left].
  destruct (IH s1) as [Hy|(before & l' & after & s2 & -> & Hr & Hc)]; [by left|right].
  exists (l :: before), l', after, s2. split; [done|]. split; [|done]. simpl. by rewrite Es.
Qed.

(** Options a caller is about to install: the answer to a successful save *)
Definition runner_owed s (o : options_t) : Prop :=
  match runner s with
  | Sent _ conn => replies s !! conn = Some (ProfileReply (""%string, o))
  | Answering _ (Ok (error, o')) => error = ""%string /\ o' = o
  | _ => False
  end.
Definition call_owed (c : Call) (o : options_t) : Prop :=
  match c_pc c with
  | Waiting => c_response c = Some (Ok (""%string, o))
  | Installing o' => o' = o
  | _ => False
  end.
Definition owed s (o : options_t) : Prop := runner_owed s o \/ exists id c, calls s !! id = Some c /\ call_owed c o.

(** Why a confirmed profile may differ from the service's for the moment: such an
    answer is on its way, a resync is, or a caller will mark it unconfirmed *)
Definition runner_doubt s : Prop :=
  match runner s with
  | Sent _ conn => exists o, replies s !! conn = Some (ProfileReply (""%string, o))
  | Resync _ _ | ResyncSent _ _ _ => True
  | Answering id (Ok (error, _)) => error = ""%string /\ exists c, calls s !! id = Some c /\ c_pc c = Waiting
  | _ => False
  end.
Definition call_doubt (c : Call) : Prop :=
  match c_pc c with
  | Waiting => exists o, c_response c = Some (Ok (""%string, o))
  | Installing _ => True
  | Expired | Abandoning | Doubting => c_state c = 1
  | Returned _ => False
  end.
Definition doubt s : Prop := runner_doubt s \/ exists id c, calls s !! id = Some c /\ call_doubt c.

(** A request with the runner or a call that has not returned *)
Definition busy s (id : nat) : Prop :=
  id ∈ held s \/ exists c, calls s !! id = Some c /\ is_returned (c_pc c) = false.

Definition unsent_runner (r : Runner) : bool := match r with Checked _ | Connecting _ | Sending _ => true | _ => false end.
Definition sent_runner (r : Runner) : bool := match r with Sent _ _ | Resync _ _ | ResyncSent _ _ _ => true | _ => false end.

(** The connections: each has one message, its reply comes after it. *)
Record conns_ok s : Prop := {
  n_nodup : NoDup (inflight s).*1;
  n_fresh : forall conn, (next_conn s <= conn)%nat -> (conn ∉ (inflight s).*1) /\ replies s !! conn = None;
  n_open : forall conn, conn ∈ (inflight s).*1 -> replies s !! conn = None;
}.

Record Agrees s : Prop := {
  a_tables : same_tables (ui s) (svc s);
  a_one : forall i j, busy s i -> busy s j -> i = j;
  a_held : forall id c, id ∈ held s -> calls s !! id = Some c -> c_response c = None /\ forall o, c_pc c <> Installing o;
  a_unsent : unsent_runner (runner s) = true \/ saves (queue s) <> [] -> profiles s = [];
  a_short : (length (profiles s) <= 1)%nat;
  a_sent : forall id conn, runner s = Sent id conn ->
    (replies s !! conn = None /\ exists m, profiles s = [(conn, m)])
    \/ (profiles s = [] /\ exists v, replies s !! conn = Some (ProfileReply v));
  a_inflight : profiles s <> [] -> sent_runner (runner s) = true \/ profile_confirmed (ui s) = false;
  a_owed : forall o, owed s o -> o = cfg_get_options (svc s) /\ profiles s = [];
  a_answer : forall id o c, runner s = Answering id (Ok (""%string, o)) -> calls s !! id = Some c -> c_state c = 1;
  a_resync : forall id r conn o, runner s = ResyncSent id r conn -> replies s !! conn = Some (OptionsReply o) ->
    o = cfg_get_options (svc s) /\ profiles s = [];
  a_conns : conns_ok s;
  a_agree : profile_confirmed (ui s) = true -> agree s \/ doubt s;
}.

(** *** The configuration *)

Context `{!ConfigViews S, !ConfigLaws S}.

Lemma cache_agrees (u v : HomeConfig S) : same_tables u v ->
  let u' := (set_homedesk_options_cache (cfg_get_options v) u).2 in
  cfg_get_options u' = cfg_get_options v /\ same_tables u' v /\ profile_confirmed u' = true.
Proof.
  intros [Hd Ho]. unfold set_homedesk_options_cache, cfg_get_options, cfg_set_options.
  case_bool_decide; simpl; rewrite <- ?Hd, <- ?Ho; split_and!; try done; apply get_options_set.
Qed.

Lemma save_keeps (p : NetworkProfile) (c : HomeConfig S) : let '(r, c') := save_network_profile p c in
  same_tables c' c /\ (is_ok r = false -> cfg_get_options c' = cfg_get_options c).
Proof.
  unfold save_network_profile. destruct (validate_profile p); [|done]. destruct (negb _); simpl; [|done]. split; [done|].
  intros _. unfold cfg_get_options. simpl. apply get_options_config2, config2_get_set.
Qed.

Lemma handle_profile_keeps alive attempts request (c : HomeConfig S) :
  let '(error, c', _) := handle_profile alive attempts request c in
  same_tables c' c /\ (error <> ""%string -> cfg_get_options c' = cfg_get_options c).
Proof.
  unfold handle_profile. destruct request as [v|]; [|done]. destruct (alive || attempts); [done|].
  destruct (mode_parse _) as [m|]; [|done].
  pose proof (save_keeps (Profile m (v_server v) (v_relay v) (v_key v) (v_family v) (v_source v)) c) as Hk.
  destruct (save_network_profile _ c) as [[[]|e] c']; destruct Hk as [Ht He]; split; auto; done.
Qed.

Lemma agree_profile (u v : HomeConfig S) : same_tables u v -> cfg_get_options u = cfg_get_options v ->
  profile_confirmed u = profile_confirmed v -> active_profile u = active_profile v.
Proof.
  intros [Hd Ho] Hg Hc. assert (Hopt : forall k, cfg_get_option u k = cfg_get_option v k).
  { intros k. unfold cfg_get_option. rewrite !get_option_reads. unfold cfg_get_options in Hg. by rewrite Hg. }
  assert (Hm : active_mode u = active_mode v) by (unfold active_mode; by rewrite Hc, Hopt).
  unfold active_profile. by rewrite Hm, Hc, !Hopt.
Qed.

(** *** Steps that keep the agreement *)

(** The parts of a system that [Agrees] reads are the same *)
Lemma agrees_frame s s' : Agrees s ->
  ui s' = ui s -> svc s' = svc s -> runner s' = runner s -> saves (queue s') = saves (queue s) -> calls s' = calls s ->
  inflight s' = inflight s -> replies s' = replies s -> next_conn s' = next_conn s -> Agrees s'.
Proof.
  intros [A1 A2 A3 A4 A5 A6 A7 A8 A9 A10 [B1 B2 B3] A11] E1 E2 E3 E4 E5 E6 E7 E8.
  assert (Eh : held s' = held s) by (unfold held; by rewrite E3, E4).
  assert (Ep : profiles s' = profiles s) by (unfold profiles; by rewrite E6).
  split; unfold busy, agree, doubt, owed, runner_doubt, runner_owed in *; rewrite ?E1, ?E2, ?E3, ?E4, ?E5, ?E7, ?Eh, ?Ep; auto.
  split; rewrite ?E6, ?E7, ?E8; auto.
Qed.

(** A caller's step on its own call *)
Lemma agrees_call s (id : nat) c f : Agrees s -> calls s !! id = Some c ->
  (is_returned (c_pc (f c)) = false -> is_returned (c_pc c) = false) ->
  (c_state c = 1 -> c_state (f c) = 1) -> c_response (f c) = c_response c ->
  (forall o, c_pc (f c) = Installing o -> id ∉ held s) ->
  (forall o, call_owed (f c) o -> owed s o) ->
  (profile_confirmed (ui s) = true -> agree s \/ call_doubt (f c)
     \/ (~ call_doubt c /\ (runner_doubt s -> runner_doubt (set_call id f s)))) ->
  Agrees (set_call id f s).
Proof.
  intros [A1 A2 A3 A4 A5 A6 A7 A8 A9 A10 A11 A12] Hc Hr Hs Hre Hin How Hdo.
  assert (Hl : forall i ci, alter f id (calls s) !! i = Some ci -> (i = id /\ ci = f c) \/ (i <> id /\ calls s !! i = Some ci)).
  { intros i ci Hi. apply lookup_alter_Some in Hi as [(-> & c0 & Hc0 & ->)|(Hne & Hi)]; [left; split; congruence|by right]. }
  assert (Hb : forall i, busy (set_call id f s) i -> busy s i).
  { intros i [Hh|(ci & Hi & Hp)]; [by left|]. destruct (Hl _ _ Hi) as [[-> ->]|[_ Hi']]; right; eauto. }
  split; auto.
  - intros i ci Hh Hi. destruct (Hl _ _ Hi) as [[-> ->]|[_ Hi']]; [|by eapply A3].
    rewrite Hre. split; [by eapply A3|]. intros o Ho. by destruct (Hin o Ho).
  - intros o Ho. apply A8. destruct Ho as [Ho|(i & ci & Hi & Ho)]; [by left|].
    destruct (Hl _ _ Hi) as [[-> ->]|[_ Hi']]; [by apply How|]. right. eauto.
  - intros i o ci Hru Hi. destruct (Hl _ _ Hi) as [[-> ->]|[_ Hi']]; [|by eapply A9]. apply Hs. by eapply A9.
  - by destruct A11.
  - intros Hcf. specialize (A12 Hcf). destruct (Hdo Hcf) as [Hag|[Hd|[Hnd Hnr]]]; [by left| |].
    { right. right. exists id, (f c). split; [|done]. simpl. by rewrite lookup_alter_eq, Hc. }
    destruct A12 as [Hag|[Hd|(i & ci & Hi & Hd)]]; [by left| |].
    + right. left. auto.
    + right. right. exists i, ci. split; [|done]. simpl. rewrite lookup_alter_ne; [done|]. intros ->. congruence.
Qed.

(** Changes of the interface's configuration *)
Lemma agrees_ui s u : Agrees s -> same_tables u (svc s) ->
  (profile_confirmed u = true -> profiles s = [] \/ sent_runner (runner s) = true) ->
  (profile_confirmed u = true -> cfg_get_options u = cfg_get_options (svc s) \/ doubt s) ->
  Agrees (s <| ui := u |>).
Proof.
  intros [A1 A2 A3 A4 A5 A6 A7 A8 A9 A10 A11 A12] Ht Hp Hd. split; auto; [|by destruct A11].
  simpl. intros Hne. destruct (profile_confirmed u) eqn:Hc; [|by right]. destruct (Hp eq_refl); [done|by left].
Qed.

Lemma agrees_unconfirm s : Agrees s -> Agrees (s <| ui ::= mark_profile_unconfirmed |>).
Proof. intros Ha. apply (agrees_ui s _ Ha); try done. apply (a_tables _ Ha). Qed.

(** The runner moves with its request *)
Lemma agrees_move s r : Agrees s -> runner_id r = runner_id (runner s) ->
  (unsent_runner r = true -> unsent_runner (runner s) = true) ->
  (sent_runner (runner s) = true -> sent_runner r = true \/ profile_confirmed (ui s) = false \/ profiles s = []) ->
  (forall id conn, r <> Sent id conn) -> (forall id x conn, r <> ResyncSent id x conn) ->
  (forall o, runner_owed (goto r s) o -> owed s o) ->
  (forall id o c, r = Answering id (Ok (""%string, o)) -> calls s !! id = Some c -> c_state c = 1) ->
  (profile_confirmed (ui s) = true -> runner_doubt s -> agree s \/ doubt (goto r s)) ->
  Agrees (goto r s).
Proof.
  intros [A1 A2 A3 A4 A5 A6 A7 A8 A9 A10 A11 A12] Hid Hun Hse Hns Hnr How Hst Hdo.
  assert (Hh : held (goto r s) = held s) by (unfold held; simpl; by rewrite Hid).
  split; unfold busy; rewrite ?Hh; auto.
  - simpl. intros [Hu|Hu]; auto.
  - intros id conn Hr. by destruct (Hns id conn).
  - simpl. intros Hne. destruct (A7 Hne) as [Hs|Hs]; [|by right]. destruct (Hse Hs) as [|[|]]; auto.
  - intros o [Ho|Ho]; apply A8; [auto|by right].
  - intros id x conn o Hr. by destruct (Hnr id x conn).
  - by destruct A11.
  - simpl. intros Hc. destruct (A12 Hc) as [Ha|[Hd|Hd]]; [by left|auto|]. right. by right.
Qed.

(** The runner answers its request and is idle again *)
Lemma agrees_release s (id : nat) r : Agrees s -> runner_id (runner s) = Some id -> NoDup (held s) ->
  sent_runner (runner s) = false ->
  (forall o, r = Ok (""%string, o) -> runner s = Answering id r) ->
  (profile_confirmed (ui s) = true -> runner_doubt s -> exists o, r = Ok (""%string, o)) ->
  Agrees (goto Idle (respond id r s)).
Proof.
  intros [A1 A2 A3 A4 A5 A6 A7 A8 A9 A10 A11 A12] Hid Hnd Hse Hok Hdo.
  set (f := fun c => if receiving (c_pc c) then c <| c_response := Some r |> else c).
  assert (Hpc : forall c, c_pc (f c) = c_pc c) by (intros c; unfold f; by destruct (receiving (c_pc c))).
  assert (Hst : forall c, c_state (f c) = c_state c) by (intros c; unfold f; by destruct (receiving (c_pc c))).
  assert (Hl : forall i ci, alter f id (calls s) !! i = Some ci ->
    exists c, calls s !! i = Some c /\ ((i = id /\ ci = f c) \/ (i <> id /\ ci = c))).
  { intros i ci Hi. apply lookup_alter_Some in Hi as [(-> & c0 & Hc0 & ->)|(Hne & Hi)]; eauto. }
  assert (Hq : saves (queue s) = []).
  { destruct (saves (queue s)) as [|j l] eqn:Eq; [done|]. exfalso. unfold busy, held in *. rewrite Hid, Eq in *. simpl in *.
    apply NoDup_cons in Hnd as [Hn _]. apply Hn. rewrite (A2 id j); set_solver. }
  assert (Hh : held (goto Idle (respond id r s)) = []) by (unfold held; simpl; by rewrite Hq).
  assert (Hb : forall i, busy (goto Idle (respond id r s)) i -> busy s i).
  { intros i [Hi|(ci & Hi & Hp)]; [rewrite Hh in Hi; set_solver|]. destruct (Hl _ _ Hi) as (c & Hc & [[-> ->]|[_ ->]]); right; exists c;
      rewrite ?Hpc in Hp; done. }
  split; auto.
  - intros i c Hi. rewrite Hh in Hi. set_solver.
  - simpl. intros [Hu|Hu]; [done|auto].
  - done.
  - simpl. intros Hne. destruct (A7 Hne) as [Hs|Hs]; [congruence|by right].
  - intros o [Ho|(i & ci & Hi & Ho)]; [done|]. apply A8. destruct (Hl _ _ Hi) as (c & Hc & [[-> ->]|[_ ->]]); [|right; eauto].
    unfold call_owed in Ho. rewrite Hpc in Ho. unfold f in Ho. destruct (c_pc c) eqn:Ep; simpl in Ho; try done.
    + left. unfold runner_owed. simplify_eq. by rewrite (Hok o eq_refl).
    + right. exists id, c. split; [done|]. unfold call_owed. by rewrite Ep.
  - done.
  - done.
  - by destruct A11.
  - simpl. intros Hc. destruct (A12 Hc) as [Ha|[Hd|(i & ci & Hi & Hd)]]; [by left| |].
    + right. right. destruct (Hdo Hc Hd) as [o ->]. unfold runner_doubt in Hd. rewrite (Hok o eq_refl) in Hd.
      destruct Hd as (_ & c & Hci & Hp). exists id, (f c). split; [simpl; by rewrite lookup_alter_eq, Hci|].
      unfold call_doubt. rewrite Hpc, Hp. unfold f. rewrite Hp. simpl. eauto.
    + right. right. destruct (decide (i = id)) as [->|Hne].
      * exists id, (f ci). split; [simpl; by rewrite lookup_alter_eq, Hi|]. unfold call_doubt in *. rewrite Hpc, Hst.
        destruct (c_pc ci) eqn:Ep; try done. destruct Hd as [o Ho].
        destruct (A3 id ci) as [Hn _]; [unfold held; rewrite Hid; set_solver|done|congruence].
      * exists i, ci. split; [|done]. simpl. by rewrite lookup_alter_ne.
Qed.

Lemma profiles_app s m : profiles (s <| inflight ::= fun l => l ++ [m] |>) = profiles s ++ (if is_profile m then [m] else []).
Proof. unfold profiles. simpl. rewrite List.filter_app. simpl. by destruct (is_profile m). Qed.

Lemma agrees_take s (id : nat) q : Agrees s -> runner s = Idle -> queue s = SaveNetworkProfile id :: q ->
  Agrees (goto (Checked id) (s <| queue := q |>)).
Proof.
  intros [A1 A2 A3 A4 A5 A6 A7 A8 A9 A10 A11 A12] Hr Hq.
  assert (Hh : held (goto (Checked id) (s <| queue := q |>)) = held s) by (unfold held; simpl; by rewrite Hr, Hq).
  assert (Hp : profiles s = []) by (apply A4; right; by rewrite Hq).
  split; unfold busy, doubt, runner_doubt, owed, runner_owed in *; rewrite ?Hh, ?Hr in *; simpl in *; auto; try done.
  by destruct A11.
Qed.

Lemma agrees_refuse s (id : nat) q : Agrees s -> NoDup (held s) -> runner s = Idle -> queue s = SaveNetworkProfile id :: q ->
  Agrees (respond id (Err QueueExpired) (s <| queue := q |>)).
Proof.
  intros Ha Hnd Hr Hq. eapply (agrees_frame (goto Idle (respond id (Err QueueExpired) (goto (Checked id) (s <| queue := q |>))))); try done.
  apply agrees_release; try done; [by apply agrees_take|]. unfold held in *. simpl. by rewrite Hr, Hq in Hnd.
Qed.

(** A request with the runner has no answer yet. *)
Lemma held_no_answer s (id : nat) c o : Agrees s -> id ∈ held s -> calls s !! id = Some c -> ~ call_owed c o.
Proof.
  intros Ha Hin Hc Ho. destruct (a_held _ Ha id c Hin Hc) as [Hn Hi]. unfold call_owed in Ho.
  destruct (c_pc c) eqn:Ep; try done; [congruence|]. by destruct (Hi options).
Qed.

Lemma held_one s (id : nat) : Agrees s -> NoDup (held s) -> runner_id (runner s) = Some id -> saves (queue s) = [].
Proof.
  intros Ha Hnd Hid. destruct (saves (queue s)) as [|j l] eqn:Eq; [done|]. exfalso.
  pose proof (a_one _ Ha id j) as H2. unfold busy, held in *. rewrite Hid, Eq in *. simpl in *.
  apply NoDup_cons in Hnd as [Hn _]. apply Hn. rewrite H2; set_solver.
Qed.

Lemma agrees_claim s (id : nat) c : Agrees s -> runner s = Checked id -> calls s !! id = Some c -> c_state c = 0 ->
  Agrees (goto (Connecting id) (set_call id (fun c => c <| c_state := 1 |>) s)).
Proof.
  intros Ha Hr Hc Hz. assert (Hin : id ∈ held s) by (unfold held; rewrite Hr; set_solver).
  assert (Hd : ~ call_doubt c).
  { unfold call_doubt. destruct (a_held _ Ha id c Hin Hc) as [Hn Hi].
    destruct (c_pc c) eqn:Ep; try lia; try done; [intros [o Ho]; congruence|by destruct (Hi options)]. }
  apply agrees_move; simpl; rewrite ?Hr; try done.
  - eapply agrees_call; eauto; simpl.
    + intros o Ho. by destruct (proj2 (a_held _ Ha id c Hin Hc) o).
    + intros o Ho. right. exists id, c. split; [done|]. exact Ho.
    + intros _. right. right. split; [done|]. unfold runner_doubt. by rewrite Hr.
  - intros _. unfold runner_doubt. simpl. by rewrite Hr.
Qed.

Lemma conns_add s m r sn : conns_ok s ->
  conns_ok (s <| inflight ::= fun l => l ++ [(next_conn s, m)] |> <| sent := sn |> <| next_conn ::= Datatypes.S |> <| runner := r |>).
Proof.
  intros [B1 B2 B3]. destruct (B2 (next_conn s)) as [Hf Hn]; [lia|].
  split; simpl; rewrite fmap_app; simpl.
  - apply NoDup_app. split_and!; [done|set_solver|apply NoDup_singleton].
  - intros conn Hge. destruct (B2 conn) as [Ha Hb]; [lia|]. split; [|done].
    rewrite elem_of_app, list_elem_of_singleton. intros [?|?]; [done|lia].
  - intros conn. rewrite elem_of_app, list_elem_of_singleton. intros [?| ->]; auto.
Qed.

Lemma agrees_send s (id : nat) m : Agrees s -> NoDup (held s) -> runner s = Sending id ->
  Agrees (s <| inflight ::= fun l => l ++ [(next_conn s, ProfileMsg id m)] |>
            <| sent ::= fun l => l ++ [id] |> <| next_conn ::= Datatypes.S |> <| runner := Sent id (next_conn s) |>).
Proof.
  intros Ha Hnd Hr. pose proof (held_one s id Ha Hnd ltac:(by rewrite Hr)) as Hq.
  pose proof (held_no_answer s id) as Hno. pose proof Ha as [A1 A2 A3 A4 A5 A6 A7 A8 A9 A10 A11 A12].
  set (s' := s <| inflight ::= fun l => l ++ [(next_conn s, ProfileMsg id m)] |> <| sent ::= fun l => l ++ [id] |>
               <| next_conn ::= Datatypes.S |> <| runner := Sent id (next_conn s) |>).
  assert (Hh : held s' = held s) by (unfold held; simpl; by rewrite Hr).
  assert (Hin : id ∈ held s) by (unfold held; rewrite Hr; set_solver).
  assert (Hp0 : profiles s = []) by (apply A4; left; by rewrite Hr).
  assert (Hp : profiles s' = [(next_conn s, ProfileMsg id m)]).
  { transitivity (profiles s ++ [(next_conn s, ProfileMsg id m)]); [|by rewrite Hp0]. apply (profiles_app s (next_conn s, ProfileMsg id m)). }
  destruct (n_fresh _ A11 (next_conn s) ltac:(lia)) as [_ Hrn].
  split; unfold busy; rewrite ?Hh; auto.
  - simpl. rewrite Hq. intros [Hu|Hu]; done.
  - by rewrite Hp.
  - simpl. intros i conn [= <- <-]. left. rewrite Hp. eauto.
  - intros o [Ho|(i & c & Hc & Ho)]; exfalso; [unfold runner_owed in Ho; simpl in Ho; congruence|].
    assert (Hi : i = id); [|subst; by eapply Hno]. apply A2; [right|by left]. exists c. split; [done|].
    unfold call_owed in Ho. by destruct (c_pc c).
  - done.
  - done.
  - by apply conns_add.
  - simpl. intros Hc. destruct (A12 Hc) as [Hag|[Hd|Hd]]; [by left|unfold runner_doubt in Hd; by rewrite Hr in Hd|]. right. by right.
Qed.

Lemma agrees_resync_send s (id : nat) x : Agrees s -> runner s = Resync id x ->
  Agrees (s <| inflight ::= fun l => l ++ [(next_conn s, OptionsMsg)] |> <| next_conn ::= Datatypes.S |>
            <| runner := ResyncSent id x (next_conn s) |>).
Proof.
  intros Ha Hr. pose proof Ha as [A1 A2 A3 A4 A5 A6 A7 A8 A9 A10 A11 A12].
  set (s' := s <| inflight ::= fun l => l ++ [(next_conn s, OptionsMsg)] |> <| next_conn ::= Datatypes.S |>
               <| runner := ResyncSent id x (next_conn s) |>).
  assert (Hh : held s' = held s) by (unfold held; simpl; by rewrite Hr).
  assert (Hp : profiles s' = profiles s).
  { transitivity (profiles s ++ []); [apply (profiles_app s (next_conn s, OptionsMsg))|by rewrite app_nil_r]. }
  destruct (n_fresh _ A11 (next_conn s) ltac:(lia)) as [_ Hrn].
  split; unfold busy; rewrite ?Hh, ?Hp; auto.
  - simpl. intros [Hu|Hu]; [done|auto].
  - done.
  - intros o [Ho|Ho]; [done|]. apply A8. by right.
  - done.
  - simpl. intros i y conn o [= <- <- <-]. congruence.
  - apply (conns_add s OptionsMsg _ (sent s) A11).
  - simpl. intros Hc. right. by left.
Qed.

(** The service handles a message *)
Lemma remove_nth_split {A} (k : nat) (l : list A) x : l !! k = Some x ->
  exists l1 l2, l = l1 ++ x :: l2 /\ remove_nth k l = l1 ++ l2.
Proof.
  intros Hk. exists (take k l), (drop (Datatypes.S k) l). split; [|done]. symmetry. by apply take_drop_middle.
Qed.

Lemma conns_reply s (k conn : nat) m r : conns_ok s -> inflight s !! k = Some (conn, m) ->
  conns_ok (s <| inflight ::= remove_nth k |> <| replies ::= <[conn := r]> |>).
Proof.
  intros [B1 B2 B3] Hk. apply remove_nth_split in Hk as (l1 & l2 & Hl & Hr).
  assert (Hf : (inflight s).*1 = l1.*1 ++ conn :: l2.*1) by (by rewrite Hl, fmap_app). rewrite Hf in B1.
  split; simpl; rewrite Hr, ?fmap_app.
  - apply NoDup_app in B1 as (C1 & C2 & C3). apply NoDup_cons in C3 as [C3 C4]. apply NoDup_app. set_solver.
  - intros c Hge. destruct (B2 c Hge) as [Ha Hb]. rewrite Hf in Ha. split; [set_solver|]. rewrite lookup_insert_ne; [done|]. set_solver.
  - intros c Hc. rewrite lookup_insert_ne; [apply B3; rewrite Hf; set_solver|]. intros ->.
    apply NoDup_app in B1 as (C1 & C2 & C3). apply NoDup_cons in C3 as [C3 C4]. set_solver.
Qed.

Lemma agrees_options s (k conn : nat) : Agrees s -> inflight s !! k = Some (conn, OptionsMsg) -> profiles s = [] ->
  Agrees (s <| inflight ::= remove_nth k |> <| replies ::= <[conn := OptionsReply (cfg_get_options (svc s))]> |>).
Proof.
  intros [A1 A2 A3 A4 A5 A6 A7 A8 A9 A10 A11 A12] Hk Hp.
  set (s' := s <| inflight ::= remove_nth k |> <| replies ::= <[conn := OptionsReply (cfg_get_options (svc s))]> |>).
  assert (Hp' : profiles s' = []).
  { unfold profiles in *. apply remove_nth_split in Hk as (l1 & l2 & Hl & Hr). simpl. rewrite Hr. rewrite Hl in Hp.
    rewrite List.filter_app in *. simpl in Hp. by apply app_eq_nil in Hp as [-> ->]. }
  assert (Hop : replies s !! conn = None) by (apply (n_open _ A11), list_elem_of_fmap; exists (conn, OptionsMsg); split; [done|]; by eapply list_elem_of_lookup_2).
  assert (Hre : forall c v, replies s !! c = Some (ProfileReply v) <-> replies s' !! c = Some (ProfileReply v)).
  { intros c v. simpl. rewrite lookup_insert_Some. split; [|by intros [[_ [=]]|[_ ?]]]. intros Hc. right. split; [congruence|done]. }
  split; auto; rewrite ?Hp'; try done.
  - simpl. lia.
  - intros id c Hr. right. split; [done|]. destruct (A6 id c Hr) as [[_ [m Hm]]|[_ [v Hv]]]; [by rewrite Hp in Hm|].
    exists v. by apply Hre.
  - intros o Ho. split; [|done]. apply A8. destruct Ho as [Ho|Ho]; [left|by right]. unfold runner_owed in *. simpl in *.
    destruct (runner s); try done. by apply Hre.
  - simpl. intros id r c o Hr. rewrite lookup_insert_Some. intros [[_ [= <-]]|[_ Ho]]; [done|]. split; [|done]. by eapply A10.
  - by apply (conns_reply s k conn OptionsMsg).
  - intros Hc. destruct (A12 Hc) as [Ha|[Hd|Hd]]; [by left| |right; by right]. right. left. unfold runner_doubt in *. simpl in *.
    destruct (runner s); try done. destruct Hd as [o Ho]. exists o. by apply Hre.
Qed.

Lemma agrees_profile s (k conn id : nat) request alive attempts : Agrees s -> inflight s !! k = Some (conn, ProfileMsg id request) ->
  let '(error, c, fx) := handle_profile alive attempts request (svc s) in
  Agrees (s <| inflight ::= remove_nth k |> <| svc := c |> <| svc_fx ::= fun l => l ++ fx |>
            <| replies ::= <[conn := ProfileReply (error, cfg_get_options c)]> |>).
Proof.
  intros [A1 A2 A3 A4 A5 A6 A7 A8 A9 A10 A11 A12] Hk.
  pose proof (handle_profile_keeps alive attempts request (svc s)) as Hh.
  destruct (handle_profile alive attempts request (svc s)) as [[error c] fx]. destruct Hh as [Ht He].
  set (s' := s <| inflight ::= remove_nth k |> <| svc := c |> <| svc_fx ::= fun l => l ++ fx |>
               <| replies ::= <[conn := ProfileReply (error, cfg_get_options c)]> |>).
  assert (Hps : profiles s = [(conn, ProfileMsg id request)] /\ profiles s' = []).
  { unfold profiles in *. apply remove_nth_split in Hk as (l1 & l2 & Hl & Hr). simpl. rewrite Hr. rewrite Hl in A5 |- *.
    rewrite !List.filter_app in *. simpl in *. rewrite length_app in A5. simpl in A5.
    destruct (List.filter is_profile l1), (List.filter is_profile l2); simpl in A5; try lia. done. }
  destruct Hps as [Hp Hp'].
  assert (Hrun : forall i cn, runner s = Sent i cn -> cn = conn).
  { intros i cn Hr. destruct (A6 i cn Hr) as [[_ [m Hm]]|[Hm _]]; rewrite Hp in Hm; [by injection Hm|done]. }
  assert (Hno : forall o, ~ owed s o) by (intros o Ho; destruct (A8 o Ho) as [_ Hx]; by rewrite Hp in Hx).
  split; rewrite ?Hp'; try done.
  - split; simpl; [rewrite (proj1 A1)|rewrite (proj2 A1)]; symmetry; apply Ht.
  - simpl. lia.
  - intros i cn Hr. simpl in *. rewrite (Hrun i cn Hr). right. split; [done|]. rewrite lookup_insert_eq. eauto.
  - intros o [Ho|(i & ci & Hi & Ho)]; [|destruct (Hno o); right; eauto]. split; [|done].
    unfold runner_owed in Ho. simpl in Ho. destruct (runner s) as [| | | | |i cn| | |i [[e o']|]| | | | |] eqn:Hr; try done.
    + rewrite (Hrun i cn eq_refl), lookup_insert_eq in Ho. by injection Ho.
    + destruct (Hno o). left. unfold runner_owed. by rewrite Hr.
  - simpl. intros i r cn o Hr. rewrite lookup_insert_Some. intros [[_ [=]]|[_ Ho]].
    destruct (A10 i r cn o Hr Ho) as [_ Hx]. by rewrite Hp in Hx.
  - destruct (conns_reply s k conn _ (ProfileReply (error, cfg_get_options c)) A11 Hk) as [B1 B2 B3]. by split.
  - simpl. intros Hc. destruct (A7 ltac:(by rewrite Hp)) as [Hs|Hs]; [|congruence].
    destruct (runner s) as [| | | | |i cn| | | | | | | |] eqn:Hr; try done; [|right; left; unfold runner_doubt; simpl; by rewrite Hr..].
    destruct (decide (error = ""%string)) as [->|Hne].
    + right. left. unfold runner_doubt. simpl. rewrite Hr, (Hrun i cn eq_refl), lookup_insert_eq. eauto.
    + destruct (A12 Hc) as [Ha|[Hd|Hd]]; [left; unfold agree in *; simpl; by rewrite (He Hne)| |right; by right].
      unfold runner_doubt in Hd. rewrite Hr in Hd. destruct Hd as [o Ho]. destruct (Hno o). left. unfold runner_owed. by rewrite Hr.
Qed.

(** A new call *)
Lemma agrees_new s (id : nat) c (queued : bool) : Agrees s -> settled s = true -> calls s !! id = None ->
  c_response c = None -> (queued = true -> c_pc c = Waiting) -> (queued = false -> is_returned (c_pc c) = true) ->
  Agrees (s <| calls ::= <[id := c]> |> <| queue ::= fun q => q ++ (if queued then [SaveNetworkProfile id] else []) |>).
Proof.
  intros [A1 A2 A3 A4 A5 A6 A7 A8 A9 A10 A11 A12] Hset Hn Hr Hpc Hret.
  unfold settled in Hset. bools. match goal with H : all_returned s = true |- _ => rename H into Hall end.
  match goal with H : held s = [] |- _ => rename H into Hh end. match goal with H : profiles s = [] |- _ => rename H into Hp end.
  apply bool_decide_eq_true in Hall.
  set (s' := s <| calls ::= <[id := c]> |> <| queue ::= fun q => q ++ (if queued then [SaveNetworkProfile id] else []) |>).
  assert (Hh' : held s' = if queued then [id] else []).
  { unfold held in *. simpl. rewrite saves_app, app_assoc, Hh. by destruct queued. }
  assert (Hb : forall i, busy s' i -> i = id).
  { intros i [Hi|(ci & Hi & Hpi)]; [rewrite Hh' in Hi; destruct queued; set_solver|].
    simpl in Hi. apply lookup_insert_Some in Hi as [[<- _]|[_ Hi]]; [done|]. specialize (Hall i ci Hi). simpl in Hall. congruence. }
  assert (Hl : forall i ci, calls s !! i = Some ci -> calls s' !! i = Some ci) by (intros i ci Hi; simpl; rewrite lookup_insert_ne; congruence).
  assert (Ho : forall o, ~ call_owed c o) by (intros o; unfold call_owed; destruct queued; [by rewrite Hpc, Hr|]; specialize (Hret eq_refl); intros Hx; destruct (c_pc c); simpl in *; congruence).
  split; auto.
  - intros i j Hi Hj. by rewrite (Hb i Hi), (Hb j Hj).
  - intros i ci Hi. rewrite Hh' in Hi. destruct queued; [|set_solver]. apply list_elem_of_singleton in Hi as ->. simpl.
    rewrite lookup_insert_eq. intros [= <-]. split; [done|]. by rewrite Hpc.
  - intros o [Hx|(i & ci & Hi & Hx)]; apply A8; [by left|]. simpl in Hi.
    apply lookup_insert_Some in Hi as [[<- <-]|[_ Hi]]; [by destruct (Ho o)|]. right. eauto.
  - simpl. intros i o ci Hru. unfold held in Hh. by rewrite Hru in Hh.
  - by destruct A11.
  - intros Hc. destruct (A12 Hc) as [Ha|[Hd|(i & ci & Hi & Hd)]]; [by left| |right; right; eauto]. right. left.
    unfold runner_doubt, held in *. simpl in *. by destruct (runner s).
Qed.

(** A caller that gave up moves on *)
Lemma expired_doubt s (id : nat) c f : calls s !! id = Some c -> (c_pc c = Expired \/ c_pc c = Abandoning) ->
  (c_state c = 1 -> call_doubt (f c)) ->
  call_doubt (f c) \/ (~ call_doubt c /\ (runner_doubt s -> runner_doubt (set_call id f s))).
Proof.
  intros Hc Hp Hf. destruct (Z.eq_dec (c_state c) 1) as [Hz|Hz]; [left; auto|]. right.
  split; [unfold call_doubt; by destruct Hp as [-> | ->]|]. unfold runner_doubt. simpl.
  destruct (runner s) as [| | | | | | | |i [[e o]|]| | | | |] eqn:Hr; try done.
  intros (-> & ci & Hci & Hpi). split; [done|]. exists ci. split; [|done]. rewrite lookup_alter_ne; [done|]. intros <-. simplify_eq.
  destruct Hp; congruence.
Qed.

Ltac by_expired :=
  match goal with |- _ \/ (_ /\ (runner_doubt ?s -> runner_doubt (set_call ?id ?f _))) =>
    apply (expired_doubt s id _ f); [done|by auto|by simpl; intros; lia || auto] end.

(** Every step of an orderly run *)
Lemma agrees_caller l s s' : Inv s -> Agrees s -> step l s = Some s' ->
  match l with L_Receive _ | L_Install _ | L_Expire _ | L_StoreAbandoned _ | L_Abandon _ | L_Unconfirm _ => Agrees s' | _ => True end.
Proof.
  intros Hi Ha E. destruct l; try done; simpl in E.
  - unfold call_receive in E. destruct (calls s !! id) as [c|] eqn:Hc; [|done]. simpl in E.
    destruct (c_pc c) eqn:Ep; try done. simpl in E. destruct (c_response c) as [r|] eqn:Hre; [|done]. simpl in E.
    assert (Hnh : id ∉ held s) by (intros Hh; destruct (a_held _ Ha id c Hh Hc) as [Hx _]; congruence).
    assert (Hrd : forall f, runner_doubt s -> runner_doubt (set_call id f s)).
    { intros f. unfold runner_doubt, held in *. simpl. destruct (runner s) as [| | | | | | | |i [[e o]|]| | | | |]; try done.
      intros (He & ci & Hci & Hp). split; [done|]. exists ci. split; [|done]. rewrite lookup_alter_ne; [done|]. set_solver. }
    assert (Hret : forall said, (forall o, r <> Ok (""%string, o)) -> Agrees (set_pc id (Returned said) s)).
    { intros said Hne. eapply agrees_call; eauto; simpl; try done; try by rewrite Ep.
      intros _. right. right. split; [|auto]. unfold call_doubt. rewrite Ep. intros [o Ho]. rewrite Hre in Ho. injection Ho. apply Hne. }
    destruct r as [[error o]|f]; [case_bool_decide as Hem|]; injection E as <-; [|apply Hret; congruence..].
    subst error. eapply agrees_call; eauto; simpl; try done; try by rewrite Ep. 2: by right; left.
    intros o' Ho'. right. exists id, c. split; [done|]. unfold call_owed in *. rewrite Ep. simpl in Ho'. by subst.
  - unfold call_install in E. destruct (calls s !! id) as [c|] eqn:Hc; [|done]. simpl in E. destruct (c_pc c) eqn:Ep; try done.
    destruct (a_owed _ Ha options) as [Ho Hp]; [right; exists id, c; unfold call_owed; by rewrite Ep|]. subst options.
    pose proof (cache_agrees (ui s) (svc s) (a_tables _ Ha)) as Hca.
    injection E as <-. unfold set_homedesk_options_cache in Hca. simpl in Hca. set (u := mark_profile_confirmed _) in *.
    destruct Hca as (Hg & Ht & _).
    assert (Ha' : Agrees (s <| ui_options := cfg_get_options (svc s) |> <| ui := u |>)).
    { apply (agrees_ui (s <| ui_options := cfg_get_options (svc s) |>)); auto. by eapply (agrees_frame s). }
    eapply agrees_call; eauto; simpl; try done; try by rewrite Ep.
  - unfold call_expire in E. destruct (calls s !! id) as [c|] eqn:Hc; [|done]. simpl in E.
    destruct (c_pc c) eqn:Ep; try done. simpl in E. destruct (c_response c) eqn:Hre; [done|]. injection E as <-.
    eapply agrees_call; eauto; simpl; try done; try by rewrite Ep. intros _. right.
    destruct (Z.eq_dec (c_state c) 1) as [Hz|Hz]; [by left|]. right. unfold call_doubt. rewrite Ep, Hre. split; [by intros [? ?]|].
    unfold runner_doubt. simpl. destruct (runner s) as [| | | | | | | |i [[e o]|]| | | | |] eqn:Hr; try done.
    intros (-> & ci & Hci & Hp). split; [done|]. exists ci. split; [|done]. rewrite lookup_alter_ne; [done|]. intros <-. simplify_eq.
    by destruct Hz; eapply (a_answer _ Ha).
  - unfold call_store_abandoned in E. destruct (calls s !! id) as [c|] eqn:Hc; [|done]. simpl in E. destruct (c_pc c) eqn:Ep; try done.
    injection E as <-. eapply agrees_call; eauto; simpl; try done; try by rewrite Ep. intros _. right. by_expired.
  - unfold call_abandon in E. destruct (calls s !! id) as [c|] eqn:Hc; [|done]. simpl in E. destruct (c_pc c) eqn:Ep; try done.
    unfold abandon_queued_save, compare_exchange_0 in E. destruct (Z.eqb_spec (c_state c) 0) as [Hz|Hz]; injection E as <-.
    + eapply agrees_call; eauto; simpl; try done; try lia. intros _. right. by_expired.
    + eapply agrees_call; eauto; simpl; try done; try by rewrite Ep. intros _. right. by_expired.
  - unfold call_unconfirm in E. destruct (calls s !! id) as [c|] eqn:Hc; [|done]. simpl in E. destruct (c_pc c) eqn:Ep; try done.
    injection E as <-. eapply agrees_call; [by apply agrees_unconfirm|eauto..]; simpl; done.
Qed.

Lemma agrees_runner_take now s s' : Inv s -> Agrees s -> runner_take now s = Some s' -> Agrees s'.
Proof.
  unfold runner_take. intros Hi Ha E. destruct (runner s) eqn:Hr; try done.
  destruct (queue s) as [|[id action auth|ids|id] q] eqn:Hq.
  - destruct (tx s); [done|]. injection E as <-. apply agrees_move; simpl; try done; by rewrite Hr || (unfold runner_doubt; rewrite Hr).
  - assert (Hs : Agrees (s <| queue := q |>)) by (eapply (agrees_frame s); try done; simpl; by rewrite Hq).
    assert (Hm : forall r, runner_id r = None -> sent_runner r = false -> unsent_runner r = false -> Agrees (goto r (s <| queue := q |>))).
    { intros r Hid Hse Hun. apply (agrees_move _ _ Hs); simpl; rewrite ?Hr, ?Hid, ?Hse, ?Hun; try done; try by destruct r.
      all: try (intros o; unfold runner_owed; simpl; by destruct r).
      all: intros _; unfold runner_doubt; simpl; by rewrite Hr. }
    destruct (bool_decide (action = _)); [|destruct (bool_decide (action = _)); [|destruct (bool_decide (action = _))]];
      try destruct auth; injection E as <-;
      first [by apply Hm | by eapply (agrees_frame (s <| queue := q |>)) | eapply (agrees_frame (goto (AccountUpdate id None) (s <| queue := q |>))); try done; by apply Hm].
  - injection E as <-. assert (Hs : Agrees (s <| queue := q |>)) by (eapply (agrees_frame s); try done; simpl; by rewrite Hq).
    apply (agrees_move _ _ Hs); simpl; try done; by rewrite Hr || (unfold runner_doubt; simpl; rewrite Hr).
  - destruct (calls s !! id) as [c|] eqn:Hc; [|done]. simpl in E.
    destruct (save_request_may_execute _ _ _); injection E as <-; [by apply agrees_take|by apply agrees_refuse; [|apply Hi| |]].
Qed.

Lemma set_call_same s (id : nat) f : f <$> calls s !! id = calls s !! id -> set_call id f s = s.
Proof.
  intros Hf. unfold set_call. simpl. destruct s as [? ? ? ? ? ? cs]. simpl in *. f_equal. apply map_eq. intros i.
  destruct (decide (i = id)) as [->|]; [by rewrite lookup_alter_eq|by rewrite lookup_alter_ne].
Qed.

Lemma agrees_ack s s' : Inv s -> Agrees s -> orderly L_Ack s = true -> runner_ack s = Some s' -> Agrees s'.
Proof.
  unfold runner_ack. simpl. intros Hi Ha Ho E. destruct (runner s) as [| | | | |id conn| | | | | | | |] eqn:Hr; try done.
  destruct (replies s !! conn) as [[[error o]|]|] eqn:Hre; try done. injection E as <-.
  destruct (a_sent _ Ha id conn Hr) as [[Hx _]|[Hp _]]; [congruence|].
  assert (Hin : id ∈ held s) by (unfold held; rewrite Hr; set_solver).
  destruct (i_dom _ Hi id (or_introl Hin)) as [c Hc].
  assert (Hst : error = ""%string -> c_state c = 1) by (intros _; apply (k_sent _ _ _ (i_calls _ Hi id c Hc)), (runner_sent s id conn Hi Hr)).
  assert (Ha' : Agrees (s <| ui ::= mark_profile_confirmed |>)).
  { apply (agrees_ui s (mark_profile_confirmed (ui s)) Ha); [apply (a_tables _ Ha)|by left|]. intros _.
    case_bool_decide as Hem; [|by apply (a_agree _ Ha)]. right. left. unfold runner_doubt. rewrite Hr. subst. eauto. }
  apply (agrees_move _ _ Ha'); simpl; rewrite ?Hr; try done; auto.
  - intros o'. unfold runner_owed. simpl. intros [-> ->]. left. unfold runner_owed. simpl. by rewrite ?Hr.
  - intros i o' ci [= <- -> ->] Hci. simplify_eq. auto.
  - intros _. unfold runner_doubt, doubt. simpl. rewrite ?Hr, Hre. intros [o' [= -> ->]]. right. rewrite Hc in Ho. simpl in Ho.
    destruct (a_held _ Ha id c Hin Hc) as [_ Hni].
    destruct (c_pc c) eqn:Ep; try done; [left; split; [done|eauto]|right; exists id, c; unfold call_doubt; rewrite Ep; auto..|by destruct (Hni options)].
Qed.

Lemma agrees_resync_done s s' : Agrees s -> runner_resync_done s = Some s' -> Agrees s'.
Proof.
  unfold runner_resync_done. intros Ha E. destruct (runner s) as [| | | | | | |id reason conn| | | | | |] eqn:Hr; try done.
  destruct (replies s !! conn) as [[|o]|] eqn:Hre; try done. destruct (a_resync _ Ha id reason conn o Hr Hre) as [-> Hp].
  pose proof (cache_agrees (ui s) (svc s) (a_tables _ Ha)) as Hca. injection E as <-.
  unfold set_homedesk_options_cache in Hca. simpl in Hca. set (u := mark_profile_confirmed _) in *.
  destruct Hca as (Hg & Ht & Hcf).
  assert (Ha' : Agrees (s <| ui_options := cfg_get_options (svc s) |> <| ui := mark_profile_confirmed u |>)).
  { apply (agrees_ui (s <| ui_options := cfg_get_options (svc s) |>)); auto. by eapply (agrees_frame s). }
  apply (agrees_move _ _ Ha'); simpl; rewrite ?Hr; try done; auto.
  intros o'. unfold runner_owed. simpl. by intros [? _].
Qed.

Lemma agrees_step l s s' : Inv s -> Agrees s -> orderly l s = true -> step l s = Some s' -> Agrees s'.
Proof.
  intros Hi Ha Ho E. pose proof (agrees_caller l s s' Hi Ha E) as Hcaller. destruct l; try exact Hcaller; clear Hcaller; simpl in E, Ho.
  - case_bool_decide as Hn; [|done]. injection E as <-. unfold call_save.
    assert (Hf : forall f, Agrees (s <| calls ::= <[id := mkCall v (now + SAVE_DEADLINE) false 0 None (Returned (Err f))]> |>)).
    { intros f. eapply (agrees_frame _ _ (agrees_new s id (mkCall v (now + SAVE_DEADLINE) false 0 None (Returned (Err f))) false Ha Ho Hn eq_refl
        ltac:(done) ltac:(done))); try done. simpl. by rewrite app_nil_r. }
    destruct (mode_parse _); [|done]. destruct (negb _); [done|]. destruct (negb _); [done|].
    unfold try_enqueue. case_bool_decide; [|done]. by apply (agrees_new s id _ true).
  - case_bool_decide; [|done]. injection E as <-. unfold call_account, try_enqueue.
    destruct (negb _); [|case_bool_decide]; eapply (agrees_frame s); try done. simpl. by rewrite saves_app, app_nil_r.
  - injection E as <-. unfold call_query, try_enqueue.
    destruct (negb _); [done|case_bool_decide; [|done]]; eapply (agrees_frame s); try done. simpl. by rewrite saves_app, app_nil_r.
  - unfold start_flutter_async_runner in E. destruct (runner s) eqn:Hr; try done. injection E as <-.
    eapply (agrees_frame (goto Idle s)); try done.
    apply agrees_move; simpl; try done; by rewrite Hr || (unfold runner_doubt; rewrite Hr).
  - injection E as <-. by eapply (agrees_frame s).
  - by eapply agrees_runner_take.
  - unfold runner_claim in E. destruct (runner s) as [| |id| | | | | | | | | | |] eqn:Hr; try done.
    destruct (calls s !! id) as [c|] eqn:Hc; [|done]. simpl in E. unfold claim_queued_save, compare_exchange_0 in E.
    destruct (Z.eqb_spec (c_state c) 0) as [Hz|Hz]; injection E as <-; [by eapply agrees_claim|].
    apply agrees_release; simpl; rewrite ?Hr; try done.
    + rewrite set_call_same by (rewrite Hc; by destruct c). done.
    + unfold held. simpl. pose proof (i_held _ Hi) as Hh. unfold held in Hh. by rewrite Hr in *.
    + intros _. unfold runner_doubt. simpl. by rewrite Hr.
  - unfold runner_connect in E. destruct (runner s) eqn:Hr; try done.
    destruct r; injection E as <-; apply agrees_move; simpl; rewrite ?Hr; try done; intros _; unfold runner_doubt; by rewrite Hr.
  - unfold runner_send in E. destruct (runner s) eqn:Hr; try done. destruct (calls s !! id) as [c|] eqn:Hc; [|done].
    destruct r; injection E as <-; [by apply agrees_send; [|apply Hi|]|].
    apply agrees_move; simpl; rewrite ?Hr; try done; intros _; unfold runner_doubt; by rewrite Hr.
  - by apply (agrees_ack s s' Hi Ha Ho).
  - unfold runner_unacknowledged in E. destruct (runner s) eqn:Hr; try done. injection E as <-.
    apply agrees_move; simpl; rewrite ?Hr; try done; [by left|]. intros _ _. right. by left.
  - unfold runner_elapsed in E. destruct (runner s) eqn:Hr; try done; injection E as <-;
      (apply (agrees_move _ _ Ha); simpl; rewrite ?Hr; try done; auto; intros _ _; right; by left).
  - unfold runner_resync_send in E. destruct (runner s) eqn:Hr; try done. injection E as <-. by apply agrees_resync_send.
  - by apply (agrees_resync_done s s' Ha).
  - unfold runner_resync_failed in E. destruct (runner s) eqn:Hr; try done; injection E as <-;
      (apply (agrees_move _ (Answering id (Err (ResyncFailed reason error))) (agrees_unconfirm s Ha)); simpl; rewrite ?Hr; try done; auto).
  - unfold runner_answer in E. destruct (runner s) as [| | | | | | | |id rep| | | | |] eqn:Hr; try done. injection E as <-.
    apply agrees_release; rewrite ?Hr; try done; [apply Hi|]. intros _. unfold runner_doubt. rewrite Hr.
    destruct rep as [[e o]|]; [|done]. intros (-> & _). eauto.
  - unfold runner_account in E. destruct (runner s) as [| | | | | | | | |id [a|]|id a|id|ids|] eqn:Hr; try done; try destruct r;
      injection E as <-;
      match goal with |- Agrees (goto ?x _) => eapply (agrees_frame (goto x s)); try done end;
      (apply agrees_move; simpl; rewrite ?Hr; try done; intros _; unfold runner_doubt; by rewrite Hr).
  - unfold svc_handle in E. destruct (inflight s !! k) as [[conn [id request|]]|] eqn:Hk; [| |done]; simpl in E.
    + pose proof (agrees_profile s k conn id request alive attempts Ha Hk) as Hp.
      destruct (handle_profile alive attempts request (svc s)) as [[e c] fx]. by injection E as <-.
    + injection E as <-. apply agrees_options; [done|done|by bools].
  - done.
Qed.

Lemma agrees_run ls s s' : Inv s -> Agrees s -> orderly_run ls s = true -> run ls s = Some s' -> Inv s' /\ Agrees s'.
Proof.
  revert s. induction ls as [|l ls IH]; simpl; intros s Hi Ha Ho E; [by simplify_eq|]. apply andb_true_iff in Ho as [Ho Hr].
  destruct (step l s) as [s1|] eqn:El; [|done]. simpl in E.
  apply (IH s1 (inv_step l s s1 El Hi) (agrees_step l s s1 Hi Ha Ho El) Hr E).
Qed.

Lemma agrees_start u v : same_tables u v -> (profile_confirmed u = true -> cfg_get_options u = cfg_get_options v) -> Agrees (start u v).
Proof.
  intros Ht Hc. split; simpl; try done; auto.
  all: try (intros i j [Hi|(c & Hi & _)]; [set_solver|simpl in Hi; by rewrite lookup_empty in Hi]).
  all: try (intros o [[]|(i & c & Hi & _)]; simpl in Hi; by rewrite lookup_empty in Hi).
  all: try (split; simpl; [apply NoDup_nil_2|set_solver|set_solver]).
  intros Hu. left. by apply Hc.
Qed.

Lemma settled_no_doubt s : settled s = true -> ~ doubt s.
Proof.
  unfold settled, all_returned. intros Hs Hd. bools. destruct Hd as [Hd|(i & c & Hc & Hd)].
  - unfold runner_doubt, held in *. by destruct (runner s).
  - match goal with H : map_Forall _ _ |- _ => specialize (H i c Hc) as Hr end. simpl in Hr. unfold call_doubt in Hd. by destruct (c_pc c).
Qed.

End Agreement.

(** ** What stays: the order of the account tasks, results *)
Section Accounts.
Context {S : Type} `{!OptionKeys, !BuildEnv, !ConfigStore S, !Externals}.
Implicit Types s : System S.

(** Every local installation follows the service's acknowledgement of it; a
    runner about to install has just received one. *)
Inductive account_log : list AccountFx -> Prop :=
| account_log_nil : account_log []
| account_log_update l a r : account_log l -> account_log (l ++ [ServiceUpdated a r])
| account_log_clear l : account_log l -> account_log (l ++ [LocallyCleared])
| account_log_install l a r : account_log (l ++ [ServiceUpdated (Some a) (Ok ())]) ->
    account_log ((l ++ [ServiceUpdated (Some a) (Ok ())]) ++ [LocallyInstalled a r]).

Definition account_ok s : Prop :=
  account_log (account_fx s) /\
  match runner s with
  | AccountInstall _ a => exists l, account_fx s = l ++ [ServiceUpdated (Some a) (Ok ())]
  | _ => True
  end.

Lemma account_log_prefix l a r l1 l2 : account_log l -> l = l1 ++ LocallyInstalled a r :: l2 ->
  exists l0, l1 = l0 ++ [ServiceUpdated (Some a) (Ok ())].
Proof.
  intros Hl. revert l1 l2. induction Hl as [|l x y _ IH|l _ IH|l x y _ IH]; intros l1 l2 E.
  - by destruct l1.
  - destruct l2 as [|z l2 _] using rev_ind; [apply app_inj_tail in E as [_ E]; done|].
    rewrite app_comm_cons, app_assoc in E. apply app_inj_tail in E as [E _]. eauto.
  - destruct l2 as [|z l2 _] using rev_ind; [apply app_inj_tail in E as [_ E]; done|].
    rewrite app_comm_cons, app_assoc in E. apply app_inj_tail in E as [E _]. eauto.
  - destruct l2 as [|z l2 _] using rev_ind; [apply app_inj_tail in E as [E [= <- <-]]; eauto|].
    rewrite app_comm_cons, app_assoc in E. apply app_inj_tail in E as [E _]. eauto.
Qed.

Lemma account_step l s s' : step l s = Some s' -> account_ok s -> account_ok s'.
Proof.
  intros E [Hl Hr]. unfold account_ok.
  assert (Hsame : forall t : System S, account_fx t = account_fx s -> (forall id a, runner t = AccountInstall id a -> runner s = AccountInstall id a) ->
    account_log (account_fx t) /\ match runner t with AccountInstall _ a => exists l, account_fx t = l ++ [ServiceUpdated (Some a) (Ok ())] | _ => True end).
  { intros t -> Hru. split; [done|]. destruct (runner t) as [| | | | | | | | | |id a| | |] eqn:Hrs; try done. by rewrite (Hru id a eq_refl) in Hr. }
  destruct l; simpl in E.
  - case_bool_decide; [|done]. injection E as <-. unfold call_save. destruct (mode_parse _); [|by apply Hsame].
    destruct (negb _); [by apply Hsame|]. destruct (negb _); [by apply Hsame|]. unfold try_enqueue. case_bool_decide; by apply Hsame.
  - unfold call_receive in E. destruct (calls s !! id) as [c|]; [|done]. simpl in E. destruct (negb _); [done|].
    destruct (c_response c) as [[[e o]|f]|]; simpl in E; [case_bool_decide| |done]; injection E as <-; by apply Hsame.
  - unfold call_install in E. destruct (calls s !! id) as [c|]; [|done]. simpl in E. destruct (c_pc c); try done. injection E as <-. by apply Hsame.
  - unfold call_expire in E. destruct (calls s !! id) as [c|]; [|done]. simpl in E. destruct (_ && _); [|done]. injection E as <-. by apply Hsame.
  - unfold call_store_abandoned in E. destruct (calls s !! id) as [c|]; [|done]. simpl in E. destruct (c_pc c); try done. injection E as <-. by apply Hsame.
  - unfold call_abandon in E. destruct (calls s !! id) as [c|]; [|done]. simpl in E. destruct (c_pc c); try done.
    destruct (abandon_queued_save _). injection E as <-. by apply Hsame.
  - unfold call_unconfirm in E. destruct (calls s !! id) as [c|]; [|done]. simpl in E. destruct (c_pc c); try done. injection E as <-. by apply Hsame.
  - case_bool_decide; [|done]. injection E as <-. unfold call_account, try_enqueue. destruct (negb _); [|case_bool_decide]; by apply Hsame.
  - injection E as <-. unfold call_query, try_enqueue. destruct (negb _); [|case_bool_decide]; by apply Hsame.
  - unfold start_flutter_async_runner in E. destruct (runner s); try done. injection E as <-. by apply Hsame.
  - injection E as <-. by apply Hsame.
  - unfold runner_take in E. destruct (runner s) eqn:Hs; try done. destruct (queue s) as [|[id action auth|ids|id] q].
    + destruct (tx s); [done|]. injection E as <-. by apply Hsame.
    + destruct (bool_decide (action = _)); [destruct auth|destruct (bool_decide (action = _)); [|destruct (bool_decide (action = _))]];
        injection E as <-; try (apply Hsame; simpl; congruence). split; [by constructor|done].
    + injection E as <-. by apply Hsame.
    + destruct (calls s !! id); [|done]. simpl in E. destruct (save_request_may_execute _ _ _); injection E as <-; apply Hsame; simpl; congruence.
  - unfold runner_claim in E. destruct (runner s); try done. destruct (calls s !! id); [|done]. simpl in E.
    destruct (claim_queued_save _) as [[] z]; injection E as <-; by apply Hsame.
  - unfold runner_connect in E. destruct (runner s); try done. destruct r; injection E as <-; by apply Hsame.
  - unfold runner_send in E. destruct (runner s); try done. destruct (calls s !! id); [|done]. simpl in E. destruct r; injection E as <-; by apply Hsame.
  - unfold runner_ack in E. destruct (runner s); try done. destruct (replies s !! conn) as [[]|]; try done. injection E as <-. by apply Hsame.
  - unfold runner_unacknowledged in E. destruct (runner s); try done. injection E as <-. by apply Hsame.
  - unfold runner_elapsed in E. destruct (runner s); try done; injection E as <-; by apply Hsame.
  - unfold runner_resync_send in E. destruct (runner s); try done. injection E as <-. by apply Hsame.
  - unfold runner_resync_done in E. destruct (runner s); try done. destruct (replies s !! conn) as [[]|]; try done. injection E as <-. by apply Hsame.
  - unfold runner_resync_failed in E. destruct (runner s); try done; injection E as <-; by apply Hsame.
  - unfold runner_answer in E. destruct (runner s); try done. injection E as <-. by apply Hsame.
  - unfold runner_account in E. destruct (runner s) as [| | | | | | | | |id [a|]|id a|id|ids|] eqn:Hs; try done; rewrite ?Hs in Hr;
      try destruct r as [[]|]; injection E as <-; try (apply Hsame; simpl; congruence); try (split; [by constructor|by eauto]).
    { split; simpl; [by constructor|by exists (account_fx s)]. }
    all: destruct Hr as [l0 El]; simpl; rewrite El in *; (split; [by constructor|done]).
  - unfold svc_handle in E. destruct (inflight s !! k) as [[conn [id request|]]|]; [| |done]; simpl in E;
      [destruct (handle_profile _ _ _ _) as [[e c] fx]|]; injection E as <-; by apply Hsame.
  - injection E as <-. by apply Hsame.
Qed.

Lemma account_run ls s s' : run ls s = Some s' -> account_ok s -> account_log (account_fx s').
Proof.
  revert s. induction ls as [|l ls IH]; simpl; intros s E Ha; [simplify_eq; apply Ha|].
  destruct (step l s) as [s1|] eqn:El; [|done]. simpl in E. eapply IH; [exact E|]. by eapply account_step.
Qed.

(** A call that has returned stays so. *)
Lemma returned_step l s s' (id : nat) said : step l s = Some s' ->
  (exists c, calls s !! id = Some c /\ c_pc c = Returned said) -> exists c, calls s' !! id = Some c /\ c_pc c = Returned said.
Proof.
  intros E (c & Hc & Hp).
  destruct l; simpl in E;
    unfold call_save, call_receive, call_install, call_expire, call_store_abandoned, call_abandon, call_unconfirm, call_account, call_query,
      try_enqueue, start_flutter_async_runner, stop_flutter_async_runner, runner_take, runner_claim, runner_connect, runner_send, runner_ack,
      runner_unacknowledged, runner_elapsed, runner_resync_send, runner_resync_done, runner_resync_failed, runner_answer, runner_account,
      svc_handle, mbind, option_bind in E;
    repeat case_match; simplify_eq/=; eauto.
  all: try (bools; rewrite lookup_insert_ne by congruence; by eauto).
  all: destruct (decide (id0 = id)) as [->|Hne]; [|rewrite !lookup_alter_ne by done; by eauto].
  all: simplify_eq; rewrite ?Hp in *; try done; rewrite !lookup_alter_eq;
    match goal with H : calls _ !! _ = Some _ |- _ => rewrite H end; simpl; rewrite Hp; eauto.
Qed.

Lemma returned_stays ls s s' (id : nat) said c : run ls s = Some s' -> calls s !! id = Some c -> c_pc c = Returned said ->
  exists c', calls s' !! id = Some c' /\ c_pc c' = Returned said.
Proof.
  intros E Hc Hp. assert (Hx : exists c, calls s !! id = Some c /\ c_pc c = Returned said) by eauto. clear Hc Hp c. revert s E Hx.
  induction ls as [|l ls IH]; simpl; intros s E Hx; [by simplify_eq|].
  destruct (step l s) as [s1|] eqn:El; [|done]. simpl in E. eapply IH; [exact E|]. by eapply returned_step.
Qed.

End Accounts.

(** ** Properties *)
Module ProfileSaveClaims.
Import ExampleConfig.

Section Claims.
Context {S : Type} `{!OptionKeys, !BuildEnv, !ConfigStore S, !Externals}.

(** C21: A save reported as not sent never reaches the service: whatever
    the interleaving of callers, runner and service, before, at or after the
    report, a request whose caller was told that nothing was sent (the queue was
    full, it expired in the queue, the caller abandoned it, the connection
    failed) is never handed to the service; and every request is handed to it at
    most once. *)
Theorem unsent_save_never_arrives (u v : HomeConfig S) ls s :
  run ls (start u v) = Some s ->
  NoDup (sent s) /\
  forall id c f, calls s !! id = Some c -> c_pc c = Returned (Err f) -> says_not_sent f = true ->
    (id ∉ sent s) /\ forall ls' s', run ls' s = Some s' -> id ∉ sent s'.
Proof.
  intros E. pose proof (inv_run ls _ _ E (inv_start u v)) as Hi. split; [apply Hi|]. intros id c f Hc Hp Hn.
  assert (Hnot : forall s : System S, Inv s -> (exists c, calls s !! id = Some c /\ c_pc c = Returned (Err f)) -> id ∉ sent s).
  { intros s0 Hi0 (c0 & Hc0 & Hp0) Hin. destruct (i_calls _ Hi0 id c0 Hc0) as [J1 _ _ J4].
    destruct (J4 f Hp0 Hn) as [[Hx _]|Hx]; [done|]. rewrite (J1 Hin) in Hx. done. }
  split; [eauto|]. intros ls' s' E'. apply Hnot; [by eapply inv_run|]. eapply returned_stays; eauto.
Qed.

(** While the outcome of a save is unknown the interface fails closed: the step
    in which a caller gives up on a request that was taken, and the step in which
    the resynchronization fails, leave the profile unconfirmed, and then there is
    no rendezvous server and no endpoint is resolved. *)
Theorem unknown_outcome_fails_closed (l : Label S) s s' :
  step l s = Some s' -> (exists id, l = L_Unconfirm id) \/ (exists e, l = L_ResyncFailed e) ->
  profile_confirmed (ui s') = false /\
  forall ready endpoint port, rendezvous_servers ready (ui s') = [] /\
    is_ok (resolve_configured_endpoint ready endpoint port false (ui s')) = false.
Proof.
  intros E Hl. assert (Hc : profile_confirmed (ui s') = false).
  { destruct Hl as [[id ->]|[e ->]]; simpl in E.
    - unfold call_unconfirm in E. destruct (calls s !! id) as [c|]; [|done]. simpl in E. destruct (c_pc c); try done. by injection E as <-.
    - unfold runner_resync_failed in E. destruct (runner s); try done; by injection E as <-. }
  split; [done|]. intros ready endpoint port. unfold rendezvous_servers, resolve_configured_endpoint, resolve_check.
  destruct (remote_profile_ready ready (ui s')) eqn:Hr; [|done]. apply ready_profile in Hr as (_ & Hx & _). congruence.
Qed.

(** An account is installed in the interface's process only right after the
    service acknowledged the same account. *)
Theorem account_order (u v : HomeConfig S) ls s a r l1 l2 :
  run ls (start u v) = Some s -> account_fx s = l1 ++ LocallyInstalled a r :: l2 ->
  exists l0, l1 = l0 ++ [ServiceUpdated (Some a) (Ok ())].
Proof.
  intros E Hl. eapply account_log_prefix; [|exact Hl]. eapply (account_run ls); [exact E|]. split; [constructor|done].
Qed.

Context `{!ConfigViews S, !ConfigLaws S}.

(** C22: A confirmed profile of the interface is the service's, or the run shows
    why it is not: from two processes that agree (or with an unconfirmed profile),
    whenever no save is under way and the interface's profile is confirmed, its
    active profile is the service's, unless at some step a save was started while
    another was under way, the service answered a resync before a save it had been
    sent earlier, the interface read a refusal while its profile was unconfirmed,
    it read a confirmation after the caller had given up, or something other than
    saving changed a configuration.  (The second and the third do happen and
    confirm a stale profile: [stale_profile_confirmed].)  Refusals read
    while the profile is confirmed, saves that fail, expire or are abandoned, lost
    confirmations and failed resyncs are no causes. *)
Theorem stale_profile_has_a_cause (u v : HomeConfig S) ls s :
  same_tables u v -> (profile_confirmed u = true -> cfg_get_options u = cfg_get_options v) ->
  run ls (start u v) = Some s -> settled s = true -> profile_confirmed (ui s) = true ->
  active_profile (ui s) = active_profile (mark_profile_confirmed (svc s)) \/
  exists before l after s1, ls = before ++ l :: after /\ run before (start u v) = Some s1 /\ Cause s1 l.
Proof.
  intros Ht Hc E Hs Hcf. destruct (orderly_or_cause ls (start u v)) as [Ho|Hx]; [left|by right].
  destruct (agrees_run ls _ _ (inv_start u v) (agrees_start u v Ht Hc) Ho E) as [_ Ha].
  apply agree_profile; [apply (a_tables _ Ha)| |done]. destruct (a_agree _ Ha Hcf) as [Hag|Hd]; [done|].
  by destruct (settled_no_doubt s Hs).
Qed.

End Claims.

(** Two processes that agree, and a save from the first *)
#[global] Instance simple_views : ConfigViews SimpleStore.
Proof.
  split; simpl; intros.
  - rewrite !lookup_union. destruct (e !! k), (mem s !! k), (d !! k); done.
  - apply map_eq. intros i. rewrite !lookup_union. destruct (e !! i), (mem s' !! i), (d !! i); done.
  - congruence.
Qed.

Definition sample_values (host : string) : NetworkValues :=
  Values (lit "self_hosted") (lit host) [] (lit "k") (lit "192.168.50.0/24") [].
Definition saved (host : string) : HomeConfig SimpleStore :=
  (save_network_profile (Profile SelfHosted (lit host) [] (lit "k") (lit "192.168.50.0/24") []) config).2.

(** A save up to the request's message, and a save that is confirmed *)
Definition reach (id : nat) (host : string) : list (Label SimpleStore) :=
  [L_Save id 0 true (sample_values host); L_Take 1; L_Claim; L_Connect (Ok ()); L_Send (Ok ())].
Definition confirmed_save : list (Label SimpleStore) :=
  L_Start :: reach 0 "b.example.com" ++ [L_Svc 0 false false; L_Ack; L_Answer; L_Receive 0; L_Install 0].

(** A save whose outcome stays unknown, so that the interface is unconfirmed
    while the service has the new profile; then a save the service refuses
    because a session is open *)
Definition refused_after_unknown : list (Label SimpleStore) :=
  L_Start :: reach 0 "b.example.com" ++ [L_Elapsed; L_ResyncFailed "down"; L_Answer; L_Receive 0; L_Svc 0 false false]
  ++ reach 1 "c.example.com" ++ [L_Svc 0 true false; L_Ack; L_Answer; L_Receive 1].

(** A save that the service handles only after it answered the resync *)
Definition resync_overtakes : list (Label SimpleStore) :=
  L_Start :: reach 0 "b.example.com" ++ [L_Elapsed; L_ResyncSend; L_Svc 1 false false; L_ResyncDone; L_Answer; L_Receive 0; L_Svc 0 false false].

Definition stale_after (ls : list (Label SimpleStore)) : bool :=
  match run ls (start (saved "a.example.com") (saved "a.example.com")) with
  | Some s => settled s && profile_confirmed (ui s)
      && bool_decide (server (active_profile (ui s)) = lit "a.example.com")
      && bool_decide (server (active_profile (mark_profile_confirmed (svc s))) = lit "b.example.com")
  | None => false
  end.

(** The two can differ with the profile confirmed: a refused
    save after one with an unknown outcome confirms the stale profile, and so
    does a resynchronization that overtakes the save it asks about. *)
Theorem stale_profile_confirmed :
  stale_after refused_after_unknown = true /\ stale_after resync_overtakes = true.
Proof. split; vm_compute; reflexivity. Qed.

Definition expired_in_queue : list (Label SimpleStore) :=
  [L_Start; L_Save 0 0 true (sample_values "b.example.com"); L_Expire 0; L_StoreAbandoned 0; L_Abandon 0; L_Take 1].

Lemma unsent_save_never_arrives_witness : exists s, run expired_in_queue (start config config) = Some s /\ 0%nat ∉ sent s.
Proof.
  assert (Hb : match run expired_in_queue (start config config) with
    | Some s => bool_decide (c_pc <$> calls s !! 0%nat = Some (Returned (Err QueueExpired))) | None => false end = true)
    by (vm_compute; reflexivity).
  destruct (run expired_in_queue (start config config)) as [s|] eqn:E; [|done]. apply bool_decide_eq_true in Hb.
  exists s. split; [done|]. destruct (calls s !! 0%nat) as [c|] eqn:Hc; [|done]. injection Hb as Hp.
  apply (proj2 (unsent_save_never_arrives config config expired_in_queue s E) 0%nat c QueueExpired Hc Hp eq_refl).
Defined.

Lemma unknown_outcome_fails_closed_witness : exists s s', step (L_ResyncFailed "down") s = Some s' /\ profile_confirmed (ui s') = false.
Proof.
  set (s := goto (Resync 0 "late") (start config config)).
  destruct (step (L_ResyncFailed "down") s) as [s'|] eqn:E; [|vm_compute in E; discriminate]. exists s, s'. split; [done|].
  apply (unknown_outcome_fails_closed (L_ResyncFailed "down") s s' E). right. by eexists.
Defined.

Definition sample_auth : AuthRequest := MkRequest (lit "o") (lit "d") (lit "t").
Definition account_run_sample : list (Label SimpleStore) :=
  [L_Start; L_Account 0 (lit "install") (Some sample_auth); L_Take 0; L_AccountDone (Ok ()) []; L_AccountDone (Ok ()) []].

Lemma account_order_witness : exists l0 : list AccountFx, [ServiceUpdated (Some sample_auth) (Ok ())] = l0 ++ [ServiceUpdated (Some sample_auth) (Ok ())].
Proof.
  destruct (run account_run_sample (start config config)) as [s|] eqn:E; [|vm_compute in E; discriminate].
  apply (account_order config config account_run_sample s sample_auth (Ok ()) [ServiceUpdated (Some sample_auth) (Ok ())] [] E).
  vm_compute in E. by injection E as <-.
Defined.

Definition agreed_after (ls : list (Label SimpleStore)) : bool :=
  match run ls (start (saved "a.example.com") (saved "a.example.com")) with
  | Some s => settled s && profile_confirmed (ui s) && bool_decide (server (active_profile (ui s)) = lit "b.example.com")
  | None => false
  end.

Lemma stale_profile_has_a_cause_witness : exists s,
  run refused_after_unknown (start (saved "a.example.com") (saved "a.example.com")) = Some s /\
  (active_profile (ui s) = active_profile (mark_profile_confirmed (svc s)) \/
   exists before l after s1, refused_after_unknown = before ++ l :: after /\
     run before (start (saved "a.example.com") (saved "a.example.com")) = Some s1 /\ Cause s1 l).
Proof.
  assert (Hb : stale_after refused_after_unknown = true) by (vm_compute; reflexivity).
  unfold stale_after in Hb. revert Hb. generalize (saved "a.example.com"). intros v.
  destruct (run refused_after_unknown (start v v)) as [s|] eqn:E; [|done]. intros Hb. bools. exists s. split; [done|].
  by apply (stale_profile_has_a_cause v v refused_after_unknown s).
Defined.

(** A save that is confirmed brings both to the new profile, without any of the
    causes. *)
Example confirmed_save_agrees :
  agreed_after confirmed_save = true /\ orderly_run confirmed_save (start (saved "a.example.com") (saved "a.example.com")) = true.
Proof. split; vm_compute; reflexivity. Qed.

End ProfileSaveClaims.
