(* ===== verification/Rendezvous.v ===== *)
(** * The rendezvous mediator and inbound connections

    Models [client/src/rendezvous_mediator.rs] (registration with the signaling
    server over UDP and TCP, its messages, hole punching, intranet and relay
    requests, the direct listener, restarts) and the entry of inbound
    connections in [client/src/server.rs] ([accept_connection],
    [create_tcp_connection], [create_relay_connection]), with the IPv6 probe and
    the UDP punch of [client/src/common.rs].

    Handlers are computations of the monad of [Effects] that end in a result;
    what sockets, DNS and the key store answer is the class [RzEnv].  A spawned
    task is an effect of its parent and an operation of its own; while it waits
    the rest of the program may change the configuration and the login (the class
    [Others]), and its effects carry the configuration of the check they rest on.
    [hbb_common]
    (a submodule) gives the constants [RzConsts], the address encoding and the
    options; times are nanoseconds. *)
From stdpp Require Import base gmap list strings.
From Stdlib Require Import ZArith Lia Sorted.
From S2P Require Import Prelude RustStr Effects HomedeskNet HomedeskConfig.

#[local] Open Scope Z_scope.

(** ** Data *)

Class RzConsts := {
  CONNECT_TIMEOUT : Z;      (** milliseconds *)
  REG_INTERVAL : Z;         (** milliseconds *)
  RENDEZVOUS_PORT : Z;
  DEFAULT_KEEP_ALIVE : Z;   (** milliseconds *)
}.

Definition DEPLOY_RETRY_INTERVAL : Z := 30000.
Definition MIN_REG_TIMEOUT : Z := 3000.
Definition MAX_REG_TIMEOUT : Z := 30000.
Definition MAX_FAILS1 : Z := 2.
Definition MAX_FAILS2 : Z := 4.
Definition DNS_INTERVAL : Z := 60000.

(** [elapsed().as_millis()], [as_micros()] and [as_secs()] *)
Definition millis (ns : Z) : Z := ns / 10 ^ 6.
Definition micros (ns : Z) : Z := ns / 10 ^ 3.
Definition secs (ns : Z) : Z := ns / 10 ^ 9.

(** Messages of the signaling protocol (generated code), as far as they are read.
    Permissions and context travel through unread. *)
Abbreviation blob := (list Z).

Record PunchHole := mkPunchHole {
  ph_socket_addr : blob; ph_socket_addr_v6 : blob; ph_relay_server : str; ph_force_relay : bool; ph_udp_port : Z;
  ph_permissions : option blob; ph_context : option blob;
}.
Record RequestRelay := mkRequestRelay {
  rr_socket_addr : blob; rr_relay_server : str; rr_uuid : str; rr_secure : bool;
  rr_permissions : option blob; rr_context : option blob;
}.
Record FetchLocalAddr := mkFetchLocalAddr {
  fla_socket_addr : blob; fla_socket_addr_v6 : blob; fla_relay_server : str;
  fla_permissions : option blob; fla_context : option blob;
}.
Inductive PkResult := PK_OK | PK_UUID_MISMATCH | PK_NOT_DEPLOYED | PK_OTHER.
Inductive RzMessage :=
| RegisterPeerResponse (request_pk : bool)
| RegisterPkResponse (result : PkResult) (keep_alive : Z)
| M_PunchHole (ph : PunchHole)
| M_RequestRelay (rr : RequestRelay)
| M_FetchLocalAddr (fla : FetchLocalAddr)
| ConfigureUpdate (rendezvous_servers : list str) (serial : Z)
| M_Other.

(** [server::ConnectionMeta] *)
Record ConnectionMeta := mkMeta { homedesk_relay : bool; control_permissions : option blob; controlled_context : option blob }.
Definition connection_meta (permissions context : option blob) : ConnectionMeta := mkMeta false permissions context.

Record RendezvousMediator := mkRz { rz_addr : SocketAddr; rz_host : str; rz_host_prefix : str; rz_keep_alive : Z }.

(** What a peer does in the key exchange of [create_tcp_connection] *)
Inductive Handshake :=
| Hs_SendFailed (e : string)
| Hs_TimedOut (e : string)
| Hs_Closed
| Hs_RecvFailed (e : string)
| Hs_NotAMessage
| Hs_OtherMessage
| Hs_PublicKey (symmetric_value asymmetric_value : blob).

Inductive Task :=
| HandlePunchHole (ph : PunchHole) (rz : RendezvousMediator)
| HandleRequestRelay (rr : RequestRelay) (rz : RendezvousMediator)
| HandleIntranet (fla : FetchLocalAddr) (rz : RendezvousMediator)
| UdpNatListen (peer_addr peer_addr_v4 : SocketAddr) (meta : ConnectionMeta)
| ResendPunch (host : str) (copies : Z).

(** What the mediator and its tasks do.  Where an address was checked, the effect
    carries the configuration of that check. *)
Inductive Fx (S : Type) :=
| SentRegisterPk (id : str) | SentRegisterPeer (id : str) (serial : Z)
| SentHeartbeat
| ConnectedHost (host : str)                                    (** [connect_tcp] to the signaling server *)
| SentRelayResponse (socket_addr : blob) (relay_server : str)
| SentLocalAddr (peer local_addr : SocketAddr) (relay_server : str) (socket_addr_v6 : blob)
| SentPunchHole (socket_addr : blob) (relay_server : str) (socket_addr_v6 : blob)
| DialedPeer (checked : HomeConfig S) (peer : SocketAddr)       (** [connect_tcp_local] *)
| DialedRelay (relay_server : str)
| UdpConnected (peer : SocketAddr)
| Listening (addr : SocketAddr)
| ProbedIpv6                                                    (** the public STUN name is resolved *)
| Rebound (host : str)
| StartedConnection (checked : HomeConfig S) (addr : SocketAddr) (id : Z) (secured : bool) (meta : ConnectionMeta)
| ClosedConnections
| Spawned (checked : HomeConfig S) (t : Task).
Arguments SentRegisterPk {S} _. Arguments SentRegisterPeer {S} _ _. Arguments SentHeartbeat {S}. Arguments ConnectedHost {S} _.
Arguments SentRelayResponse {S} _ _. Arguments SentLocalAddr {S} _ _ _ _. Arguments SentPunchHole {S} _ _ _.
Arguments DialedPeer {S} _ _. Arguments DialedRelay {S} _. Arguments UdpConnected {S} _. Arguments Listening {S} _.
Arguments ProbedIpv6 {S}. Arguments Rebound {S} _. Arguments StartedConnection {S} _ _ _ _ _. Arguments ClosedConnections {S}.
Arguments Spawned {S} _ _.

#[global] Instance SocketAddr_eq_dec : EqDecision SocketAddr.
Proof. solve_decision. Defined.
#[global] Instance PkResult_eq_dec : EqDecision PkResult.
Proof. solve_decision. Defined.

(** ** State *)

(** The variables of a mediator's loop, over UDP and over TCP *)
Record Loop := mkLoop {
  reg_timeout : Z;
  fails : Z;
  last_register_resp : option Z;
  last_register_sent : option Z;
  last_dns_check : Z;
  old_latency : Z;
  ema_latency : Z;
  last_recv_msg : Z;
}.

Record Rz (S : Type) := mkState {
  now : Z;
  cfg : HomeConfig S;
  auth_ready : bool;                                  (** [nestlink_auth::ready()] *)
  solving_pk_mismatch : str;
  last_msg : SocketAddr * Z;
  last_relay_msg : SocketAddr * Z;
  should_exit : bool;
  manual_restarted : bool;
  sent_register_pk : bool;
  needs_deploy : bool;
  last_not_deployed_register : option Z;
  (** [Config]: key confirmations, the device's id and serial, latencies *)
  key_confirmed : bool;
  host_key_confirmed : gmap str bool;
  device_id : str;
  serial : Z;
  latency : gmap str Z;
  public_ipv6_addr : option SocketAddr * option Z;
  connection_attempts : Z;                            (** [HOMEDESK_CONNECTION_ATTEMPTS] *)
  id_count : Z;                                       (** [Server::id_count] *)
  lp : Loop;
  awaits : nat;                                       (** how often a task has waited *)
}.
Arguments mkState {S} _ _ _ _ _ _ _ _ _ _ _ _ _ _ _ _ _ _ _ _ _.
Arguments now {S} _. Arguments cfg {S} _. Arguments auth_ready {S} _. Arguments solving_pk_mismatch {S} _.
Arguments last_msg {S} _. Arguments last_relay_msg {S} _. Arguments should_exit {S} _. Arguments manual_restarted {S} _.
Arguments sent_register_pk {S} _. Arguments needs_deploy {S} _. Arguments last_not_deployed_register {S} _.
Arguments key_confirmed {S} _. Arguments host_key_confirmed {S} _. Arguments device_id {S} _. Arguments serial {S} _.
Arguments latency {S} _. Arguments public_ipv6_addr {S} _. Arguments connection_attempts {S} _. Arguments id_count {S} _.
Arguments lp {S} _. Arguments awaits {S} _.

#[export] Instance eta_Loop : EtaRecord Loop := fun l =>
  mkLoop (reg_timeout l) (fails l) (last_register_resp l) (last_register_sent l) (last_dns_check l) (old_latency l)
    (ema_latency l) (last_recv_msg l).
#[export] Instance eta_Rz {S} : EtaRecord (Rz S) := fun s =>
  mkState (now s) (cfg s) (auth_ready s) (solving_pk_mismatch s) (last_msg s) (last_relay_msg s) (should_exit s)
    (manual_restarted s) (sent_register_pk s) (needs_deploy s) (last_not_deployed_register s) (key_confirmed s)
    (host_key_confirmed s) (device_id s) (serial s) (latency s) (public_ipv6_addr s) (connection_attempts s) (id_count s) (lp s) (awaits s).
#[export] Instance eta_Mediator : EtaRecord RendezvousMediator := fun r =>
  mkRz (rz_addr r) (rz_host r) (rz_host_prefix r) (rz_keep_alive r).
#[export] Instance eta_Meta : EtaRecord ConnectionMeta := fun m =>
  mkMeta (homedesk_relay m) (control_permissions m) (controlled_context m).

(** What the outside answers *)
Class RzEnv := {
  addr_decode : blob -> SocketAddr;                     (** [AddrMangle::decode] *)
  addr_encode : SocketAddr -> blob;
  sink_send : result string unit;                       (** the socket of the mediator *)
  connect_host : str -> result string SocketAddr;       (** [connect_tcp(host)], its local address *)
  connect_relay : str -> result string SocketAddr;
  send_raw : result string unit;                        (** sending on a connection just made *)
  udp_socket_for : str -> result string unit;           (** [new_direct_udp_for] and the first packet *)
  rebind_udp : str -> result string (option SocketAddr);
  listen_accept : SocketAddr -> result string (option SocketAddr);  (** [new_listener], [accept] within the timeout *)
  use_ws : bool; is_proxy : bool; is_disable_tcp_listen : bool;
  ipv6_probe : result string SocketAddr;                (** [test_bind_ipv6] *)
  ipv6_bind : SocketAddr -> option SocketAddr;          (** binding a socket, its address *)
  udp_punch : SocketAddr -> result string unit;         (** connect, punch and accept the KCP stream *)
  handshake : Handshake;
  key_pair_valid : bool;                                (** the key pair has the right lengths *)
  encrypt_decode : blob -> blob -> result string unit;  (** [Encrypt::decode] *)
  public_key_bytes : Z;
  fresh_id : str;                                       (** [Config::update_id] *)
}.

(** What the rest of the program does to the configuration and the login while a
    task waits, at its n-th await *)
Class Others (S : Type) := others : nat -> HomeConfig S * bool -> HomeConfig S * bool.
(** Nothing *)
Definition alone {S} : Others S := fun _ w => w.

(** [Config::set_option] *)
Class SetOption (S : Type) := set_option : str -> str -> S -> S.

(** ** Small functions *)

(** [str::parse::<i32>().is_ok()] *)
Definition parses_i32 (s : str) : bool :=
  match s with
  | 45 :: r => match parse_u 64 r with
               | Some n => (n <=? 2 ^ 31) && negb (bool_decide (head r = Some 43))
               | None => false end
  | _ => match parse_u 64 s with Some n => n <? 2 ^ 31 | None => false end
  end.

Definition get_host_prefix (host : str) : str :=
  match split_char 46 host with
  | x :: _ => if parses_i32 x then host else x
  | [] => host
  end.

Definition is_ipv4 (a : SocketAddr) : bool := match a with V4 _ _ => true | V6 _ _ => false end.
Definition port_of (a : SocketAddr) : Z := match a with V4 _ p => p | V6 _ p => p end.
Definition set_port (p : Z) (a : SocketAddr) : SocketAddr := match a with V4 ip _ => V4 ip p | V6 ip _ => V6 ip p end.

(** ** The mediator *)

Section Mediator.
Context {S : Type} `{!OptionKeys, !BuildEnv, !ConfigStore S, !SetOption S, !Externals, !RzConsts, !RzEnv, !Others S}.

Abbreviation Do A := (M (Rz S) (Fx S) A).
Abbreviation Try A := (M (Rz S) (Fx S) (result string A)).
Implicit Types rz : RendezvousMediator.

(** The [?] operator *)
Definition try_bind {A B} (m : Try A) (k : A -> Try B) : Try B :=
  r ← m; match r with Ok a => k a | Err e => mret (Err e) end.
Notation "'let?' x ':=' m 'in' k" := (try_bind m (fun x => k)) (at level 10, x binder, k at level 200).
Definition ok {A} (a : A) : Try A := mret (Ok a).
Definition bail {A} (e : string) : Try A := mret (Err e).
Definition lift {A} (r : result string A) : Try A := mret r.
Definition run_ {A} (m : Do A) : Try A := a ← m; mret (Ok a).
Definition ensure (b : bool) (e : string) : Try unit := if b then ok tt else bail e.

(** Other tasks run. *)
Definition await : Do unit := modify (fun s =>
  let w := others (awaits s) (cfg s, auth_ready s) in
  s <| cfg := w.1 |> <| auth_ready := w.2 |> <| awaits ::= Datatypes.S |>).

(** *** Registration *)

(** An attempt of the last 30 seconds while the device awaits its deployment *)
Definition awaits_deploy (s : Rz S) : bool :=
  needs_deploy s
  && match last_not_deployed_register s with
     | Some t => millis (now s - t) <? DEPLOY_RETRY_INTERVAL
     | None => false end.

Definition deploy_register_throttled : Do bool := gets awaits_deploy.

Definition register_pk : Try unit :=
  s ← gets id;
  if awaits_deploy s then ok tt
  else
    _ ← modify (fun s => s <| last_not_deployed_register := if needs_deploy s then Some (now s) else None |>);
    match sink_send with
    | Err e => bail e
    | Ok _ =>
      _ ← emit (SentRegisterPk (device_id s));
      run_ (modify (fun s => s <| sent_register_pk := true |>))
    end.

Definition handle_uuid_mismatch rz : Try unit :=
  s ← gets id;
  if bool_decide (solving_pk_mismatch s = []) || bool_decide (solving_pk_mismatch s = rz_host rz) then
    _ ← modify (fun s => s <| key_confirmed := false |> <| device_id := fresh_id |> <| solving_pk_mismatch := rz_host rz |>);
    register_pk
  else ok tt.

Definition host_confirmed rz (s : Rz S) : bool := default false (host_key_confirmed s !! rz_host_prefix rz).

Definition register_peer rz : Try unit :=
  s ← gets id;
  if negb (bool_decide (solving_pk_mismatch s = []) || bool_decide (solving_pk_mismatch s = rz_host rz)) then ok tt
  else if negb (key_confirmed s) || negb (host_confirmed rz s) then register_pk
  else match sink_send with
       | Err e => bail e
       | Ok _ => run_ (emit (SentRegisterPeer (device_id s) (serial s)))
       end.

(** [restart] *)
Definition restart : Do unit := modify (fun s => s <| should_exit := true |> <| manual_restarted := true |>).

(** *** Latency *)

Definition set_latency (host : str) (l : Z) : Do unit := modify (fun s => s <| latency ::= <[host := l]> |>).
Definition mod_loop (f : Loop -> Loop) : Do unit := modify (fun s => s <| lp ::= f |>).

(** [i64::abs] and division round towards zero. *)
Definition update_latency_udp (host : str) : Do unit :=
  s ← gets id;
  let l := lp s in
  let lat := match last_register_sent l with Some x => micros (now s - x) | None => 0 end in
  _ ← mod_loop (fun l => l <| last_register_resp := Some (now s) |> <| fails := 0 |> <| reg_timeout := MIN_REG_TIMEOUT |>
                           <| last_register_sent := None |>);
  if (lat <? 0) || (1000000 <? lat) then skip
  else
    let '(ema, lat) := if ema_latency l =? 0 then (lat, lat)
      else let ema := Z.quot lat 30 + Z.quot (ema_latency l * 29) 30 in (ema, ema) in
    _ ← mod_loop (fun l => l <| ema_latency := ema |>);
    let n := Z.max 3000 (Z.quot lat 5) in
    if (n <? Z.abs (lat - old_latency l)) || (old_latency l <=? 0) then
      _ ← set_latency host lat; mod_loop (fun l => l <| old_latency := lat |>)
    else skip.

Definition update_latency_tcp (host : str) : Do unit :=
  s ← gets id;
  set_latency host (match last_register_sent (lp s) with Some x => micros (now s - x) | None => 0 end).

(** *** Messages *)

Definition servers (s : Rz S) : list str := rendezvous_servers (auth_ready s) (cfg s).

Definition cfg_set_option (k v : str) : HomeConfig S -> HomeConfig S := with_store (set_option k v).

Definition on_register_pk_response (rz : RendezvousMediator) (result : PkResult) : Try unit :=
  match result with
  | PK_OK => run_ (modify (fun s => s <| key_confirmed := true |> <| host_key_confirmed ::= <[rz_host_prefix rz := true]> |>
                                      <| solving_pk_mismatch := [] |> <| needs_deploy := false |>))
  | PK_UUID_MISMATCH => handle_uuid_mismatch rz
  | PK_NOT_DEPLOYED => run_ (modify (fun s => s <| needs_deploy := true |> <| key_confirmed := false |>
                                                <| host_key_confirmed ::= <[rz_host_prefix rz := false]> |>))
  | PK_OTHER => ok tt
  end.

(** [handle_resp]: the mediator after it, since a response sets the keep-alive *)
Definition handle_resp (update_latency : Do unit) (msg : RzMessage) rz : Try RendezvousMediator :=
  match msg with
  | RegisterPeerResponse request_pk =>
    _ ← update_latency;
    if request_pk then let? _ := register_pk in ok rz else ok rz
  | RegisterPkResponse result keep_alive =>
    _ ← update_latency;
    let? _ := on_register_pk_response rz result in
    ok (if 0 <? keep_alive then rz <| rz_keep_alive := wraps 32 (keep_alive * 1000) |> else rz)
  | M_PunchHole ph => s ← gets id; _ ← emit (Spawned (cfg s) (HandlePunchHole ph rz)); ok rz
  | M_RequestRelay rr => s ← gets id; _ ← emit (Spawned (cfg s) (HandleRequestRelay rr rz)); ok rz
  | M_FetchLocalAddr fla => s ← gets id; _ ← emit (Spawned (cfg s) (HandleIntranet fla rz)); ok rz
  | ConfigureUpdate pushed sn =>
    v0 ← gets servers;
    _ ← modify (fun s => s <| cfg ::= cfg_set_option (lit "rendezvous-servers")
          (join [44] (List.filter (fun x => bool_decide (x = server (active_profile (cfg s)))) pushed)) |>
        <| serial := sn |>);
    v1 ← gets servers;
    _ ← when (negb (bool_decide (v0 = v1))) restart;
    ok rz
  | M_Other => ok rz
  end.

(** *** Inbound connections ([server.rs]) *)

Definition get_new_id : Do Z :=
  _ ← modify (fun s => s <| id_count ::= fun n => wraps 32 (n + 1) |>); gets id_count.

(** The policy on the peer of an inbound connection *)
Definition admitted (addr : SocketAddr) (s : Rz S) : bool :=
  peer_endpoint_allowed addr (active_mode (cfg s)) true (family_cidr (active_profile (cfg s)))
  && source_allowed addr (cfg s).

(** The key exchange: whether the stream got a session key *)
Definition key_exchange : Try bool :=
  match handshake with
  | Hs_SendFailed e | Hs_TimedOut e | Hs_RecvFailed e => bail e
  | Hs_Closed => bail "Failed to receive public key"
  | Hs_NotAMessage => bail "Handshake failed: invalid message format"
  | Hs_OtherMessage => ok false
  | Hs_PublicKey symmetric asymmetric =>
    if Z.of_nat (length asymmetric) =? public_key_bytes then let? _ := lift (encrypt_decode symmetric asymmetric) in ok true
    else if bool_decide (asymmetric = []) then _ ← modify (fun s => s <| key_confirmed := false |>); ok false
    else bail "Handshake failed: invalid public sign key length from peer"
  end.

(** [requires_secure_session()] *)
Definition requires_secure_session : bool := true.
Definition require_direct : bool := true.

(** [HomeDeskConnectionAttempt] is held to the end of the connection. *)
Definition create_tcp_connection (addr : SocketAddr) (secure : bool) (meta : ConnectionMeta) : Try unit :=
  s ← gets id;
  if homedesk_relay meta || negb (admitted addr s) then bail "远控策略拒绝非直连或未获准的入站对端"
  else
    _ ← modify (fun s => s <| connection_attempts ::= Z.succ |>);
    id ← get_new_id;
    r ← (if secure && key_pair_valid then (_ ← await; key_exchange) else ok false);
    r ← (match r with
         | Err e => mret (Err e)
         | Ok secured =>
           if requires_secure_session && negb secured then mret (Err "远控拒绝未完成加密握手的入站会话"%string)
           else run_ (emit (StartedConnection (cfg s) addr id secured meta))
         end);
    _ ← modify (fun s => s <| connection_attempts ::= Z.pred |>);
    mret r.

Definition accept_connection_ (local_addr : SocketAddr) (secure : bool) (meta : ConnectionMeta) : Try unit :=
  _ ← emit (Listening local_addr);
  _ ← await;
  match listen_accept local_addr with
  | Err e => bail e
  | Ok None => ok tt
  | Ok (Some addr) => create_tcp_connection addr secure meta
  end.

(** Errors are logged. *)
Definition accept_connection (local_addr : SocketAddr) (secure : bool) (meta : ConnectionMeta) : Do unit :=
  _ ← accept_connection_ local_addr secure meta; skip.

Definition create_relay_connection_ (relay_server : str) (peer_addr : SocketAddr) (secure : bool) (meta : ConnectionMeta) : Try unit :=
  if require_direct then bail "远程控制固定 P2P，禁止被控端中继"
  else
    _ ← emit (DialedRelay relay_server);
    _ ← await;
    let? _ := lift (connect_relay relay_server) in
    let? _ := lift send_raw in
    _ ← await;
    create_tcp_connection peer_addr secure meta.

Definition create_relay_connection (relay_server : str) (peer_addr : SocketAddr) (secure : bool) (meta : ConnectionMeta) : Do unit :=
  _ ← create_relay_connection_ relay_server peer_addr secure (meta <| homedesk_relay := true |>); skip.

(** *** Relay, intranet and hole punching *)

Definition create_relay rz (socket_addr : blob) (relay_server : str) (secure initiate : bool) (meta : ConnectionMeta) : Try unit :=
  s ← gets id;
  let peer_addr := addr_decode socket_addr in
  if negb (peer_endpoint_allowed peer_addr (active_mode (cfg s)) true (family_cidr (active_profile (cfg s)))) then
    bail "网络策略拒绝入站对端地址"
  else if negb (source_allowed peer_addr (cfg s)) then bail "网络策略拒绝来源限制外的对端地址"
  else if negb (relay_allowed relay_server) then bail "网络策略拒绝未配置的中继服务器"
  else
    _ ← emit (ConnectedHost (rz_host rz));
    _ ← await;
    let? _ := lift (connect_host (rz_host rz)) in
    let? _ := lift send_raw in
    _ ← emit (SentRelayResponse socket_addr (if initiate then relay_server else []));
    run_ (create_relay_connection relay_server peer_addr secure meta).

Definition handle_request_relay (rr : RequestRelay) rz : Try unit :=
  if require_direct then bail "远程控制固定 P2P，拒绝入站中继请求"
  else
    s ← gets id;
    let addr := addr_decode (rr_socket_addr rr) in
    let? relay_server := lift (normalize_relay_candidate (rr_relay_server rr)) in
    _ ← await;
    let last := last_relay_msg s in
    _ ← modify (fun s => s <| last_relay_msg := (addr, now s) |>);
    if bool_decide (last.1 = addr) && (millis (now s - last.2) <? 100) then ok tt
    else create_relay rz (rr_socket_addr rr) relay_server (rr_secure rr) false
           (connection_meta (rr_permissions rr) (rr_context rr)).

Definition get_relay_server (provided : str) (s : Rz S) : str :=
  let configured := cfg_get_option (cfg s) (lit "relay-server") in
  let relay_server := if bool_decide (configured = []) then provided else configured in
  if relay_allowed relay_server then relay_server else [].

(** [test_ipv6]: the probe runs at most once a minute; an address that is not
    globally routable is not kept.  The STUN queries it starts end in an error,
    since [public_stun_allowed] is false. *)
Definition global_unicast (a : SocketAddr) : bool :=
  match a with
  | V6 ip _ => Z.land (Z.shiftr ip 112) 57344 =? 8192    (* 0xe000, 0x2000: loopback, unspecified and multicast excluded *)
  | V4 _ _ => false
  end.

Definition test_ipv6 : Do unit :=
  s ← gets id;
  if match (public_ipv6_addr s).2 with Some t => secs (now s - t) <? 60 | None => false end then skip
  else
    _ ← modify (fun s => s <| public_ipv6_addr := ((public_ipv6_addr s).1, Some (now s)) |>);
    _ ← emit ProbedIpv6;
    _ ← await;
    match ipv6_probe with
    | Ok addr => when (global_unicast addr) (modify (fun s => s <| public_ipv6_addr := (Some (set_port 0 addr), (public_ipv6_addr s).2) |>))
    | Err _ => skip
    end.

Definition get_ipv6_socket : Do (option blob) :=
  s ← gets id;
  _ ← await;
  mret (addr ← (public_ipv6_addr s).1; local ← ipv6_bind addr; Some (addr_encode local)).

(** [checked] is the configuration under which the caller admitted [peer_addr_v4]. *)
Definition start_ipv6 (checked : HomeConfig S) (peer_addr_v6 peer_addr_v4 : SocketAddr) (meta : ConnectionMeta) : Do blob :=
  _ ← test_ipv6;
  socket ← get_ipv6_socket;
  match socket with
  | Some local_addr_v6 => _ ← emit (Spawned checked (UdpNatListen peer_addr_v6 peer_addr_v4 meta)); mret local_addr_v6
  | None => mret []
  end.

(** The UDP socket is connected, punched and becomes a KCP stream; the
    connection is created for [peer_addr_v4]. *)
Definition udp_nat_listen (peer_addr peer_addr_v4 : SocketAddr) (meta : ConnectionMeta) : Try unit :=
  _ ← emit (UdpConnected peer_addr);
  _ ← await;
  let? _ := lift (udp_punch peer_addr) in
  create_tcp_connection peer_addr_v4 true meta.

(** A message that repeats the last one within 100 ms is skipped. *)
Definition repeats (addr : SocketAddr) (last : SocketAddr * Z) (t : Z) : bool :=
  bool_decide (last.1 = addr) && (millis (t - last.2) <? 100).

Definition handle_intranet_ (fla : FetchLocalAddr) rz (relay_server : str) (socket_addr_v6 : blob) (meta : ConnectionMeta) : Try unit :=
  let peer_addr := addr_decode (fla_socket_addr fla) in
  _ ← emit (ConnectedHost (rz_host rz));
  _ ← await;
  let? local_addr := lift (connect_host (rz_host rz)) in
  (* an IPv6 address printed without brackets does not parse back *)
  let? _ := ensure (is_ipv4 local_addr) "invalid socket address syntax" in
  let? _ := lift send_raw in
  _ ← emit (SentLocalAddr peer_addr local_addr relay_server socket_addr_v6);
  _ ← await;
  run_ (accept_connection local_addr true meta).

Definition handle_intranet (fla : FetchLocalAddr) rz : Try unit :=
  s ← gets id;
  let addr := addr_decode (fla_socket_addr fla) in
  if negb (peer_endpoint_allowed addr (active_mode (cfg s)) true (family_cidr (active_profile (cfg s)))) then bail "网络策略拒绝局域网候选地址"
  else if negb (source_allowed addr (cfg s)) then bail "网络策略拒绝来源限制外的对端地址"
  else
    _ ← await;
    _ ← modify (fun s => s <| last_msg := (addr, now s) |>);
    if repeats addr (last_msg s) (now s) then ok tt
    else
      let peer_addr_v6 := addr_decode (fla_socket_addr_v6 fla) in
      relay_server ← gets (get_relay_server (fla_relay_server fla));
      let relay := use_ws || is_proxy in
      let meta := connection_meta (fla_permissions fla) (fla_context fla) in
      socket_addr_v6 ← (if (0 <? port_of peer_addr_v6) && negb relay then start_ipv6 (cfg s) peer_addr_v6 addr meta else mret []);
      let fallback := create_relay rz (fla_socket_addr fla) relay_server true true meta in
      if is_ipv4 (rz_addr rz) && negb relay && negb is_disable_tcp_listen then
        r ← handle_intranet_ fla rz relay_server socket_addr_v6 meta;
        match r with Ok _ => ok tt | Err _ => fallback end
      else fallback.

Definition punch_udp_hole (peer_addr : SocketAddr) rz (socket_addr : blob) (relay_server : str) (socket_addr_v6 : blob)
    (meta : ConnectionMeta) : Try unit :=
  _ ← await;
  let? _ := lift (udp_socket_for (rz_host rz)) in
  _ ← emit (SentPunchHole socket_addr relay_server socket_addr_v6);
  _ ← await;
  s ← gets id;
  _ ← emit (Spawned (cfg s) (ResendPunch (rz_host rz) 2));
  udp_nat_listen peer_addr peer_addr meta.

Definition handle_punch_hole (ph : PunchHole) rz : Try unit :=
  s ← gets id;
  let peer_addr := addr_decode (ph_socket_addr ph) in
  if negb (peer_endpoint_allowed peer_addr (active_mode (cfg s)) true (family_cidr (active_profile (cfg s)))) then bail "网络策略拒绝打洞候选地址"
  else if negb (source_allowed peer_addr (cfg s)) then bail "网络策略拒绝来源限制外的对端地址"
  else
    _ ← await;
    _ ← modify (fun s => s <| last_msg := (peer_addr, now s) |>);
    if repeats peer_addr (last_msg s) (now s) then ok tt
    else
      let peer_addr_v6 := addr_decode (ph_socket_addr_v6 ph) in
      let relay := use_ws || is_proxy || ph_force_relay ph in
      if relay then bail "远程控制固定 P2P，拒绝强制中继打洞请求"
      else
        let meta := connection_meta (ph_permissions ph) (ph_context ph) in
        socket_addr_v6 ← (if (0 <? port_of peer_addr_v6) && negb relay then start_ipv6 (cfg s) peer_addr_v6 peer_addr meta else mret []);
        relay_server ← gets (get_relay_server (ph_relay_server ph));
        if is_disable_tcp_listen && (ph_udp_port ph <=? 0) then bail "P2P 直连不可用：本机禁用了直连监听"
        else if 0 <? ph_udp_port ph then
          punch_udp_hole (set_port (wrapu 16 (ph_udp_port ph)) peer_addr) rz (ph_socket_addr ph) relay_server socket_addr_v6 meta
        else
          _ ← emit (ConnectedHost (rz_host rz));
          _ ← await;
          let? local_addr := lift (connect_host (rz_host rz)) in
          _ ← emit (DialedPeer (cfg s) peer_addr);
          _ ← await;
          let? _ := lift send_raw in
          _ ← emit (SentPunchHole (ph_socket_addr ph) relay_server socket_addr_v6);
          _ ← await;
          run_ (accept_connection local_addr true meta).

(** A spawned task; its errors are logged. *)
Definition run_task (t : Task) : Do unit :=
  match t with
  | HandlePunchHole ph rz => _ ← handle_punch_hole ph rz; skip
  | HandleRequestRelay rr rz => _ ← handle_request_relay rr rz; skip
  | HandleIntranet fla rz => _ ← handle_intranet fla rz; skip
  | UdpNatListen a b meta => _ ← udp_nat_listen a b meta; skip
  | ResendPunch _ _ => skip
  end.

(** *** The loops *)

(** [using_public_server]: no custom server is configured. *)
Definition using_public_server (s : Rz S) : bool :=
  bool_decide (cfg_get_option (cfg s) (lit "custom-rendezvous-server") = []).

Inductive Event :=
| Ev_Message (msg : option RzMessage)    (** bytes arrived; [None] when they are no message *)
| Ev_Heartbeat                           (** an empty frame, over TCP *)
| Ev_Failed (e : string)                 (** receiving failed *)
| Ev_Closed
| Ev_Tick.

(** How a turn of the loop ends: it goes on, is asked to exit, or fails. *)
Inductive Turn := Continue (rz : RendezvousMediator) | Exit | Fail (e : string).
Definition turn (m : Try RendezvousMediator) : Do Turn :=
  r ← m; mret (match r with Ok rz => Continue rz | Err e => Fail e end).

Definition rebind rz : Try RendezvousMediator :=
  let? new_addr := lift (rebind_udp (rz_host rz)) in
  _ ← when (bool_decide (is_Some new_addr)) (emit (Rebound (rz_host rz)));
  s ← gets id;
  _ ← mod_loop (fun l => l <| last_dns_check := now s |>);
  ok (match new_addr with Some a => rz <| rz_addr := a |> | None => rz end).

(** What a registration that timed out does before the next one *)
Definition on_reg_timeout rz : Try RendezvousMediator :=
  _ ← mod_loop (fun l => l <| fails ::= Z.succ |>);
  s ← gets id;
  if MAX_FAILS2 <=? fails (lp s) then
    _ ← set_latency (rz_host rz) (-1);
    _ ← mod_loop (fun l => l <| old_latency := 0 |>);
    if DNS_INTERVAL <? millis (now s - last_dns_check (lp s)) then rebind rz else ok rz
  else if MAX_FAILS1 <=? fails (lp s) then
    _ ← set_latency (rz_host rz) 0;
    _ ← mod_loop (fun l => l <| old_latency := 0 |>);
    ok rz
  else ok rz.

Definition tick_udp rz : Do Turn :=
  s ← gets id;
  if should_exit s then mret Exit
  else
    deploy_register_throttled ≫= fun throttled : bool =>
    if throttled then mret (Continue rz)
    else
      let l := lp s in
      let expired := match last_register_resp l with Some x => REG_INTERVAL <=? millis (now s - x) | None => true end in
      let timeout := match last_register_sent l with Some x => reg_timeout l <=? millis (now s - x) | None => false end in
      _ ← when (using_public_server s && timeout && (reg_timeout l <? MAX_REG_TIMEOUT))
            (mod_loop (fun l => l <| reg_timeout ::= Z.add MIN_REG_TIMEOUT |>));
      if timeout || (negb (bool_decide (is_Some (last_register_sent l))) && expired) then
        turn (let? rz := (if timeout then on_reg_timeout rz else ok rz) in
              let? _ := register_peer rz in
              _ ← mod_loop (fun l => l <| last_register_sent := Some (now s) |>);
              ok rz)
      else mret (Continue rz).

Definition udp_turn (e : Event) rz : Do Turn :=
  match e with
  | Ev_Message (Some msg) => turn (handle_resp (update_latency_udp (rz_host rz)) msg rz)
  | Ev_Message None | Ev_Heartbeat => mret (Continue rz)
  | Ev_Failed e => mret (Fail ("Failed to receive next: " +:+ e))
  | Ev_Closed => mret (Fail "Socket receive none. Maybe socks5 server is down.")
  | Ev_Tick => tick_udp rz
  end.

Definition tick_tcp rz : Do Turn :=
  s ← gets id;
  if should_exit s then mret Exit
  else if wrapu 64 (rz_keep_alive rz) * 3 / 2 <? millis (now s - last_recv_msg (lp s)) then mret (Fail "Rendezvous connection is timeout")
  else if (negb (key_confirmed s) || negb (host_confirmed rz s))
          && (REG_INTERVAL <=? match last_register_sent (lp s) with Some x => millis (now s - x) | None => REG_INTERVAL end) then
    turn (let? _ := register_pk in
          _ ← mod_loop (fun l => l <| last_register_sent := Some (now s) |>);
          ok rz)
  else mret (Continue rz).

Definition tcp_turn (e : Event) rz : Do Turn :=
  let received := s ← gets id; mod_loop (fun l => l <| last_recv_msg := now s |>) in
  match e with
  | Ev_Message (Some msg) => _ ← received; turn (handle_resp (update_latency_tcp (rz_host rz)) msg rz)
  | Ev_Message None => _ ← received; mret (Fail "parse")
  | Ev_Heartbeat => _ ← received; turn (let? _ := lift sink_send in _ ← emit SentHeartbeat; ok rz)
  | Ev_Failed e => _ ← received; mret (Fail e)
  | Ev_Closed => _ ← received; mret (Fail "Rendezvous connection is reset by the peer")
  | Ev_Tick => tick_tcp rz
  end.

(** *** Starting *)

Definition fresh_loop (t : Z) : Loop := mkLoop MIN_REG_TIMEOUT 0 None None t 0 0 t.

(** The endpoint a mediator is started for: [check_port] and
    [resolve_configured_endpoint], read under the configuration of the moment *)
Definition resolve_host (host : str) (s : Rz S) : result string str :=
  match resolve_configured_endpoint (auth_ready s) (check_port host RENDEZVOUS_PORT) RENDEZVOUS_PORT false (cfg s) with
  | Ok a => Ok (fmt_socket a)
  | Err e => Err e
  end.

(** [start_udp] and [start_tcp] up to their loops, after the endpoint was
    resolved; [connect] is the socket's address after connecting and, over TCP,
    securing the stream. *)
Definition start_mediator (tcp : bool) (connect : result string SocketAddr) (resolved : result string str) : Try RendezvousMediator :=
  s ← gets id;
  let? host := lift resolved in
  let? addr := lift connect in
  let rz := mkRz addr host (get_host_prefix host) DEFAULT_KEEP_ALIVE in
  _ ← mod_loop (fun _ => fresh_loop (now s));
  _ ← when tcp (modify (fun s => s <| host_key_confirmed ::= <[rz_host_prefix rz := false]> |>));
  ok rz.

(** *** The direct listener *)

Definition get_direct_port (s : Rz S) : Z :=
  let port := match cfg_get_option (cfg s) (lit "direct-access-port") with
    | 45 :: _ => 0
    | v => match parse_u 64 v with Some n => if n <? 2 ^ 31 then n else 0 | None => 0 end end in
  if port <=? 0 then RENDEZVOUS_PORT + 2 else port.

(** A turn of [direct_server]: [listener] is the port it listens on; [option2bool]
    is applied by the caller. *)
Definition direct_server_turn (direct_server stop_service : bool) (listen : result string unit) (accepted : option SocketAddr)
    (listener : option Z) : Do (option Z) :=
  let disabled := negb direct_server || stop_service || requires_secure_session in
  port ← gets get_direct_port;
  listener ← (if negb disabled && negb (bool_decide (is_Some listener)) then
                match listen with
                | Ok _ => _ ← emit (Listening (V4 0 port)); mret (Some port)
                | Err _ => mret None
                end
              else mret listener);
  match listener with
  | Some p =>
    if disabled || negb (p =? port) then mret None
    else match accepted with
         | Some addr => _ ← (create_tcp_connection addr false (mkMeta false None None) : Try unit); mret (Some p)
         | None => mret (Some p)
         end
  | None => mret None
  end.

End Mediator.

(** ** Rules for handlers that may fail *)
Section Rules.
Context {St : Type} (R : Rz St -> Rz St -> Prop) (F : Fx St -> Prop) `{!PreOrder R}.

Lemma obeys_try {A B} s (m : M (Rz St) (Fx St) (result string A)) (k : A -> M (Rz St) (Fx St) (result string B)) :
  obeys R F s m -> (forall a s', R s s' -> obeys R F s' (k a)) -> obeys R F s (try_bind m k).
Proof.
  intros Hm Hk. apply (obeys_seq _ _ m); [done|]. intros s' [a|e] Hs; [auto|]. apply obeys_ret. exact _.
Qed.

Lemma obeys_run {A} s (m : M (Rz St) (Fx St) A) : obeys R F s m -> obeys R F s (run_ m).
Proof. intros Hm. apply (obeys_seq _ _ m); [done|]. intros. apply obeys_ret. exact _. Qed.

Lemma obeys_turn s (m : M (Rz St) (Fx St) (result string RendezvousMediator)) : obeys R F s m -> obeys R F s (turn m).
Proof. intros Hm. apply (obeys_seq _ _ m); [done|]. intros. apply obeys_ret. exact _. Qed.

End Rules.

(** Walks a handler with the rules; what remains are effects, changes and tests. *)
Ltac walk :=
  repeat match goal with
  | |- obeys _ _ _ (bail _) => apply obeys_ret; exact _
  | |- obeys _ _ _ (ok _) => apply obeys_ret; exact _
  | |- obeys _ _ _ (lift _) => apply obeys_ret; exact _
  | |- obeys _ _ _ (ensure ?b _) => destruct b; apply obeys_ret; exact _
  | |- obeys _ _ _ (try_bind _ _) => apply obeys_try; [exact _| |intros ? ? ?]
  | |- obeys _ _ _ (run_ _) => apply obeys_run; [exact _|]
  | |- obeys _ _ _ (turn _) => apply obeys_turn; [exact _|]
  | H : forall s, obeys _ _ s await |- obeys _ _ _ await => apply H
  | |- obeys _ _ _ (modify _) => apply obeys_modify; try done
  | |- obeys _ _ _ (emit _) => apply obeys_emit; [exact _|]
  | |- _ => obey_step
  end.

(** ** What tasks may do

    While a task waits, the configuration and the login may change in any way;
    [policy e]: the effect is one that the policy admits under the configuration
    of the check it carries. *)
Section Tasks.
Context {S : Type} `{!OptionKeys, !BuildEnv, !ConfigStore S, !SetOption S, !Externals, !RzConsts, !RzEnv, !Others S}.
Implicit Types (s : Rz S) (c : HomeConfig S).

Definition admitted_by c (addr : SocketAddr) : bool :=
  peer_endpoint_allowed addr (active_mode c) true (family_cidr (active_profile c)) && source_allowed addr c.

(** Inbound sessions have an admitted address, a session key and no relay; no
    relay is dialed and none is offered to the peer; a peer dialed over TCP is
    admitted. *)
Definition policy (e : Fx S) : Prop :=
  match e with
  | StartedConnection c addr _ secured meta => admitted_by c addr = true /\ secured = true /\ homedesk_relay meta = false
  | DialedPeer c addr => admitted_by c addr = true
  | Spawned c (UdpNatListen _ v4 meta) => admitted_by c v4 = true /\ homedesk_relay meta = false
  | SentPunchHole _ relay_server _ | SentLocalAddr _ _ relay_server _ => relay_server = []
  | DialedRelay _ | SentRelayResponse _ _ => False
  | _ => True
  end.

(** Only the others change the configuration. *)
Definition same_cfg (s s' : Rz S) : Prop := (forall n w, (others n w).1 = w.1) -> cfg s' = cfg s.
#[local] Instance same_cfg_preorder : PreOrder same_cfg.
Proof. split; [intros s _; done|]. unfold same_cfg. intros a b d Ha Hb Ho. rewrite Hb, Ha; done. Qed.

Abbreviation good := (obeys same_cfg policy).

Lemma await_good s : good s await.
Proof. apply obeys_modify. intros Ho. simpl. apply (Ho _ (_, _)). Qed.
Ltac walk_good := pose proof await_good; walk; try (intros _; done).

Lemma key_exchange_good s : good s key_exchange.
Proof. unfold key_exchange. destruct handshake; walk_good. Qed.

Lemma create_tcp_good s addr secure meta : good s (create_tcp_connection addr secure meta).
Proof.
  unfold create_tcp_connection. walk_good; try apply key_exchange_good; simpl; try done.
  match goal with H : _ || _ = false |- _ => apply orb_false_iff in H as [Hr Ha] end. apply negb_false_iff in Ha.
  match goal with H : _ && negb ?b = false |- _ => destruct b; [|done] end. by split_and!.
Qed.

Lemma accept_good s local secure meta : good s (accept_connection local secure meta).
Proof. unfold accept_connection, accept_connection_. walk_good; try done. by apply create_tcp_good. Qed.

Lemma create_relay_good s rz socket_addr relay_server secure initiate meta :
  good s (create_relay rz socket_addr relay_server secure initiate meta).
Proof. unfold create_relay, relay_allowed. walk_good; done. Qed.

Lemma test_ipv6_good s : good s test_ipv6.
Proof. unfold test_ipv6. walk_good; done. Qed.

Lemma start_ipv6_good c s v6 v4 meta : admitted_by c v4 = true -> homedesk_relay meta = false -> good s (start_ipv6 c v6 v4 meta).
Proof. intros Ha Hm. unfold start_ipv6, get_ipv6_socket. walk_good; [apply test_ipv6_good|done]. Qed.

Lemma udp_nat_listen_good s a v4 meta : good s (udp_nat_listen a v4 meta).
Proof. unfold udp_nat_listen. walk_good; [done|]. apply create_tcp_good. Qed.

(** The two tests of a candidate address *)
Lemma candidate_admitted addr s :
  negb (peer_endpoint_allowed addr (active_mode (cfg s)) true (family_cidr (active_profile (cfg s)))) = false ->
  negb (source_allowed addr (cfg s)) = false -> admitted_by (cfg s) addr = true.
Proof. unfold admitted_by. intros H4 H5. apply negb_false_iff in H4, H5. by rewrite H4, H5. Qed.

Lemma handle_intranet_good s fla rz : good s (handle_intranet fla rz).
Proof.
  unfold handle_intranet, handle_intranet_. walk_good; try done; try apply create_relay_good; try apply accept_good.
  all: try (apply start_ipv6_good; [by eapply candidate_admitted|done]).
Qed.

Lemma handle_punch_hole_good s ph rz : good s (handle_punch_hole ph rz).
Proof.
  unfold handle_punch_hole, punch_udp_hole. walk_good; try done; try apply udp_nat_listen_good; try apply accept_good.
  all: try (apply start_ipv6_good; [by eapply candidate_admitted|done]).
  all: try (simpl; by eapply candidate_admitted).
Qed.

Lemma run_task_good t s : good s (run_task t).
Proof.
  destruct t; simpl; walk_good; [apply handle_punch_hole_good| |apply handle_intranet_good|by apply udp_nat_listen_good].
  unfold handle_request_relay, require_direct. walk_good.
Qed.

(** A connection gives its place among the attempts back. *)
Lemma create_tcp_attempts addr secure meta s :
  connection_attempts (st (create_tcp_connection addr secure meta) s) = connection_attempts s.
Proof.
  unfold create_tcp_connection. rewrite st_bind. unfold gets at 1 2. unfold res, st, id. simpl.
  destruct (homedesk_relay meta || negb (admitted addr s)); [done|].
  unfold mbind, M_bind, modify, get_new_id, key_exchange, try_bind, run_, ok, bail, lift, gets, emit, mbind, M_bind, mret, M_ret. simpl.
  repeat (case_match; simplify_eq/=); lia.
Qed.

End Tasks.

(** ** The loops *)
Section Loops.
Context {S : Type} `{!OptionKeys, !BuildEnv, !ConfigStore S, !SetOption S, !Externals, !RzConsts, !RzEnv, !Others S}.
Implicit Types s : Rz S.

(** The variables of the UDP loop stay in range: the timeout between its bounds
    in steps of [MIN_REG_TIMEOUT], latencies up to a second. *)
Definition loop_ok (l : Loop) : Prop :=
  MIN_REG_TIMEOUT <= reg_timeout l <= MAX_REG_TIMEOUT /\ reg_timeout l mod MIN_REG_TIMEOUT = 0 /\
  0 <= fails l /\ 0 <= ema_latency l <= 1000000 /\ 0 <= old_latency l <= 1000000.
Definition latency_ok s : Prop := loop_ok (lp s) /\ map_Forall (fun _ v => -1 <= v <= 1000000) (latency s).

Definition stays_ok s s' : Prop := latency_ok s -> latency_ok s'.
#[local] Instance stays_ok_preorder : PreOrder stays_ok.
Proof. split; [by intros s H4|]. intros a b d Ha Hb H4. auto. Qed.
Abbreviation bounded := (obeys stays_ok (fun _ => True)).

Lemma set_latency_ok s host v : -1 <= v <= 1000000 -> bounded s (set_latency host v).
Proof. intros Hv. apply obeys_modify. intros [Hl Hm]. split; [done|]. by apply map_Forall_insert_2. Qed.

Lemma mod_loop_ok s f : (latency_ok s -> loop_ok (f (lp s))) -> bounded s (mod_loop f).
Proof. intros Hf. apply obeys_modify. intros Hl. split; [by apply Hf|apply Hl]. Qed.

(** A change of other fields *)
Ltac untouched := try done; try (let Hx := fresh in intros Hx; exact Hx).

Lemma register_pk_ok s : bounded s register_pk.
Proof. unfold register_pk. walk; untouched. Qed.

Lemma register_peer_ok s rz : bounded s (register_peer rz).
Proof. unfold register_peer. walk; untouched. apply register_pk_ok. Qed.

Lemma mod_loop_ok_all s f : (forall l, loop_ok l -> loop_ok (f l)) -> bounded s (mod_loop f).
Proof. intros Hf. apply mod_loop_ok. intros [Hl _]. by apply Hf. Qed.

(** A new average of two latencies in range is in range. *)
Lemma ema_range a b : 0 <= a <= 1000000 -> 0 <= b <= 1000000 -> 0 <= Z.quot a 30 + Z.quot (b * 29) 30 <= 1000000.
Proof.
  intros Ha Hb. rewrite !Z.quot_div_nonneg by lia.
  pose proof (Z.div_lt_upper_bound a 30 33334 ltac:(lia) ltac:(lia)). pose proof (Z.div_lt_upper_bound (b * 29) 30 966667 ltac:(lia) ltac:(lia)).
  pose proof (Z.div_pos a 30). pose proof (Z.div_pos (b * 29) 30). lia.
Qed.

Lemma update_latency_bounded s host : bounded s (update_latency_udp host).
Proof.
  split; [|by apply Forall_forall].
  intros [(Hr & Hm & Hf & He & Ho) Hl]. unfold update_latency_udp, st, mod_loop, set_latency, mbind, M_bind, gets, modify, skip, mret, M_ret, id.
  simpl. set (lat := match last_register_sent (lp s) with Some x => _ | None => 0 end).
  destruct ((lat <? 0) || (1000000 <? lat)) eqn:Hb.
  { simpl. split; [|done]. unfold loop_ok, MIN_REG_TIMEOUT, MAX_REG_TIMEOUT in *. simpl. split_and!; done || lia. }
  apply orb_false_iff in Hb as [H4 H5]. apply Z.ltb_ge in H4, H5.
  pose proof (ema_range lat (ema_latency (lp s)) ltac:(lia) He) as Hr'.
  destruct (ema_latency (lp s) =? 0); cbv zeta; destruct (_ || _); simpl; (split; [|try by apply map_Forall_insert_2; [lia|]]);
    unfold loop_ok, MIN_REG_TIMEOUT, MAX_REG_TIMEOUT in *; simpl; try done; split_and!; try done; lia.
Qed.

Lemma handle_resp_ok s msg rz : bounded s (handle_resp (update_latency_udp (rz_host rz)) msg rz).
Proof.
  unfold handle_resp, on_register_pk_response, handle_uuid_mismatch, restart.
  destruct msg; walk; untouched; try apply update_latency_bounded; try apply register_pk_ok.
Qed.

Ltac loop_change := apply mod_loop_ok_all; intros l (Hr & Hm & Hf & He & Ho); unfold loop_ok in *; simpl; split_and!; done || lia.

Lemma on_reg_timeout_ok s rz : bounded s (on_reg_timeout rz).
Proof. unfold on_reg_timeout, rebind. walk; try done; try (apply set_latency_ok; lia); loop_change. Qed.

Lemma tick_udp_ok s rz : bounded s (tick_udp rz).
Proof.
  unfold tick_udp, deploy_register_throttled. walk; try done.
  all: try apply on_reg_timeout_ok; try apply register_peer_ok; try loop_change.
  apply mod_loop_ok. intros [(Hr & Hm & Hf & He & Ho) _]. unfold id in *. bools.
  unfold loop_ok, MIN_REG_TIMEOUT, MAX_REG_TIMEOUT in *. simpl in *. split_and!; try done; try lia.
  - assert (Hd : exists q, reg_timeout (lp s) = 3000 * q) by (exists (reg_timeout (lp s) / 3000); pose proof (Z.div_mod (reg_timeout (lp s)) 3000 ltac:(lia)); lia).
    destruct Hd as [q Hq]. lia.
  - rewrite <- Z.add_mod_idemp_r, Hm by lia. done.
Qed.

Lemma udp_turn_ok s e rz : bounded s (udp_turn e rz).
Proof. destruct e as [[msg|]| | | |]; simpl; walk; [apply handle_resp_ok|apply tick_udp_ok]. Qed.

(** *** Spacing of key registrations *)

Definition is_pk (e : Fx S) : bool := match e with SentRegisterPk _ => true | _ => false end.
Definition pks (l : list (Fx S)) : list (Fx S) := List.filter is_pk l.

(** While the device awaits its deployment: nothing is registered and the time
    of the last attempt stays, or an attempt is due and made now, once. *)
Definition attempt_due s : Prop :=
  match last_not_deployed_register s with Some t => DEPLOY_RETRY_INTERVAL <= millis (now s - t) | None => True end.
Definition waits s s' (l : list (Fx S)) : Prop := needs_deploy s = true ->
  needs_deploy s' = true /\ now s' = now s /\
  ((pks l = [] /\ last_not_deployed_register s' = last_not_deployed_register s)
   \/ (attempt_due s /\ last_not_deployed_register s' = Some (now s) /\ (length (pks l) <= 1)%nat)).

Lemma waits_trans s s1 s2 l1 l2 : waits s s1 l1 -> waits s1 s2 l2 -> waits s s2 (l1 ++ l2).
Proof.
  intros H4 H5 Hn. destruct (H4 Hn) as (Hn1 & Ht1 & Hc1). destruct (H5 Hn1) as (Hn2 & Ht2 & Hc2).
  split; [done|]. split; [congruence|]. unfold pks in *. rewrite List.filter_app.
  destruct Hc1 as [[Hp1 Hl1]|(Hd1 & Hl1 & Hp1)], Hc2 as [[Hp2 Hl2]|(Hd2 & Hl2 & Hp2)].
  - left. rewrite Hp1, Hp2. split; [done|congruence].
  - right. rewrite Hp1. unfold attempt_due in *. rewrite Hl1, Ht1 in *. done.
  - right. rewrite Hp2, app_nil_r. split_and!; [done|congruence|done].
  - exfalso. unfold attempt_due in Hd2. rewrite Hl1, Ht1, Z.sub_diag in Hd2. done.
Qed.

Definition waiting {A} s (m : M (Rz S) (Fx S) A) : Prop := waits s (st m s) (fx m s).

Lemma waiting_quiet {A} s (m : M (Rz S) (Fx S) A) :
  needs_deploy (st m s) = needs_deploy s \/ needs_deploy (st m s) = true -> now (st m s) = now s ->
  last_not_deployed_register (st m s) = last_not_deployed_register s -> pks (fx m s) = [] -> waiting s m.
Proof. intros Hn Ht Hl Hp Hd. destruct Hn as [Hn|Hn]; (split; [congruence|]); auto. Qed.

Lemma waiting_bind {A B} s (m : M (Rz S) (Fx S) A) (k : A -> M (Rz S) (Fx S) B) :
  waiting s m -> (forall a, waiting (st m s) (k a)) -> waiting s (m ≫= k).
Proof. intros Hm Hk. unfold waiting. rewrite st_bind, fx_bind. eapply waits_trans; [exact Hm|apply Hk]. Qed.

Lemma waiting_ret {A} s (a : A) : waiting s (mret a).
Proof. by apply waiting_quiet; auto. Qed.

Lemma waiting_try {A B} s (m : M (Rz S) (Fx S) (result string A)) (k : A -> M (Rz S) (Fx S) (result string B)) :
  waiting s m -> (forall a, waiting (st m s) (k a)) -> waiting s (try_bind m k).
Proof. intros Hm Hk. apply (waiting_bind s m); [done|]. intros [a|e]; [apply Hk|apply waiting_ret]. Qed.

Lemma waiting_gets {A B} s (f : Rz S -> A) (k : A -> M (Rz S) (Fx S) B) : waiting s (k (f s)) -> waiting s (gets f ≫= k).
Proof. unfold waiting, st, fx. by rewrite run_gets_bind. Qed.

Lemma register_pk_waits s : waiting s register_pk.
Proof.
  unfold register_pk. apply waiting_gets. unfold id. destruct (awaits_deploy s) eqn:Hd; [apply waiting_ret|].
  intros Hn. unfold awaits_deploy in Hd. rewrite Hn in Hd. simpl in Hd.
  assert (Hdue : attempt_due s).
  { unfold attempt_due. destruct (last_not_deployed_register s); [|done]. by apply Z.ltb_ge in Hd. }
  unfold st, fx, mbind, M_bind, modify, run_, bail, emit, mbind, M_bind, mret, M_ret. destruct sink_send; simpl; rewrite Hn;
    (split; [done|split; [done|right; split_and!; [done..|simpl; lia]]]).
Qed.

Lemma waiting_modify s f : (needs_deploy s = true -> needs_deploy (f s) = true) -> now (f s) = now s ->
  last_not_deployed_register (f s) = last_not_deployed_register s -> waiting s (modify f).
Proof. intros Hn Ht Hl Hd. split; [by apply Hn|]. split; [done|]. by left. Qed.

Lemma waiting_emit s e : is_pk e = false -> waiting s (emit e).
Proof. intros He. apply waiting_quiet; auto. unfold pks, fx. simpl. by rewrite He. Qed.

Lemma waiting_run {A} s (m : M (Rz S) (Fx S) A) : waiting s m -> waiting s (run_ m).
Proof. intros Hm. apply (waiting_bind s m); [done|]. intros. apply waiting_ret. Qed.

Lemma waiting_turn s (m : M (Rz S) (Fx S) (result string RendezvousMediator)) : waiting s m -> waiting s (turn m).
Proof. intros Hm. apply (waiting_bind s m); [done|]. intros. apply waiting_ret. Qed.

Lemma waiting_when s b (m : M (Rz S) (Fx S) unit) : waiting s m -> waiting s (when b m).
Proof. destruct b; [done|]. intros _. apply waiting_ret. Qed.

Ltac wait :=
  repeat match goal with
  | |- waiting _ (bail _) => apply waiting_ret
  | |- waiting _ (ok _) => apply waiting_ret
  | |- waiting _ (lift _) => apply waiting_ret
  | |- waiting _ (mret _) => apply waiting_ret
  | |- waiting _ skip => apply waiting_ret
  | |- waiting _ (try_bind _ _) => apply waiting_try; [|intros ?]
  | |- waiting _ (run_ _) => apply waiting_run
  | |- waiting _ (turn _) => apply waiting_turn
  | |- waiting _ (when _ _) => apply waiting_when
  | |- waiting _ (gets _ ≫= _) => apply waiting_gets
  | |- waiting _ (_ ≫= _) => apply waiting_bind; [|intros ?]
  | |- waiting _ (modify _) => apply waiting_modify; done
  | |- waiting _ (emit _) => apply waiting_emit; done
  | |- waiting _ register_pk => apply register_pk_waits
  | |- waiting _ (if ?b then _ else _) => destruct b
  | |- waiting _ (match ?x with _ => _ end) => destruct x
  end.

(** A message that says the device is deployed *)
Definition deploys (e : Event) : bool :=
  match e with Ev_Message (Some (RegisterPkResponse PK_OK _)) => true | _ => false end.

Lemma handle_resp_waits s (up : M (Rz S) (Fx S) unit) msg rz : (forall s, waiting s up) -> deploys (Ev_Message (Some msg)) = false ->
  waiting s (handle_resp up msg rz).
Proof.
  intros Hup Hd. unfold handle_resp, on_register_pk_response, handle_uuid_mismatch, restart.
  destruct msg as [| [] | | | | |]; simpl in Hd; try done; wait; apply Hup.
Qed.

Lemma udp_turn_waits s e rz : deploys e = false -> waiting s (udp_turn e rz).
Proof.
  intros Hd. destruct e as [[msg|]| | | |]; simpl; wait.
  - apply handle_resp_waits; [|done]. intros s'. unfold update_latency_udp, mod_loop, set_latency. wait.
  - unfold tick_udp, deploy_register_throttled, on_reg_timeout, rebind, register_peer, mod_loop, set_latency. wait.
Qed.

Lemma tcp_turn_waits s e rz : deploys e = false -> waiting s (tcp_turn e rz).
Proof.
  intros Hd. destruct e as [[msg|]| | | |]; simpl; unfold mod_loop; wait.
  - apply handle_resp_waits; [|done]. intros s'. unfold update_latency_tcp, set_latency. wait.
  - unfold tick_tcp, mod_loop. wait.
Qed.

(** A run of a loop: the events with their times, the effects with theirs *)
Fixpoint run_loop (tcp : bool) (evs : list (Z * Event)) (rz : RendezvousMediator) s : list (Z * Fx S) * Rz S :=
  match evs with
  | [] => ([], s)
  | (t, e) :: r =>
    let '(out, s', l) := (if tcp then tcp_turn e rz else udp_turn e rz) (s <| now := t |>) in
    let '(rest, s'') := match out with Continue rz' => run_loop tcp r rz' s' | _ => ([], s') end in
    (map (pair t) l ++ rest, s'')
  end.

(** The times at which the key was registered *)
Definition pk_times (l : list (Z * Fx S)) : list Z := map fst (List.filter (fun te => is_pk te.2) l).

Definition spaced : list Z -> Prop := Sorted (fun a b => DEPLOY_RETRY_INTERVAL <= millis (b - a)).

Lemma pk_times_turn t l rest : pk_times (map (pair t) l ++ rest) = map (fun _ => t) (pks l) ++ pk_times rest.
Proof.
  unfold pk_times, pks. rewrite List.filter_app, map_app. f_equal. induction l as [|e l IH]; [done|]. simpl. by destruct (is_pk e); simpl; rewrite IH.
Qed.

Lemma millis_mono a b : a <= b -> millis a <= millis b.
Proof. intros Hab. by apply Z.div_le_mono. Qed.

(** The next registration comes at least an interval after the last attempt. *)
Lemma run_loop_spaced tcp evs rz s b : needs_deploy s = true -> existsb deploys (map snd evs) = false ->
  match last_not_deployed_register s, b with Some t, Some b => b <= t | None, Some _ => False | _, None => True end ->
  StronglySorted Z.le (map fst evs) -> Forall (fun t => match last_not_deployed_register s with Some t0 => t0 <= t | None => True end) (map fst evs) ->
  spaced (option_list b ++ pk_times (run_loop tcp evs rz s).1).
Proof.
  revert rz s b. induction evs as [|[t e] evs IH]; intros rz s b Hn Hev Hb Hs Hge.
  { simpl. destruct b; repeat constructor. }
  simpl in Hev. apply orb_false_iff in Hev as [He Hev]. simpl in Hs, Hge. apply StronglySorted_inv in Hs as [Hs Hts].
  apply Forall_cons in Hge as [Ht0 Hge]. cbn [run_loop].
  assert (Hw : waiting (s <| now := t |>) (if tcp then tcp_turn e rz else udp_turn e rz)) by (destruct tcp; [by apply tcp_turn_waits|by apply udp_turn_waits]).
  unfold waiting, st, fx in Hw. destruct ((if tcp then tcp_turn e rz else udp_turn e rz) (s <| now := t |>)) as [[out s'] l]. simpl in Hw.
  destruct (Hw Hn) as (Hn' & _ & Hc). clear Hw.
  assert (Hrest : forall b', match last_not_deployed_register s', b' with Some t, Some b => b <= t | None, Some _ => False | _, None => True end ->
    Forall (fun t => match last_not_deployed_register s' with Some t0 => t0 <= t | None => True end) (map fst evs) ->
    spaced (option_list b' ++ pk_times (match out with Continue rz' => run_loop tcp evs rz' s' | _ => ([], s') end).1)).
  { intros b' Hb' Hg'. destruct out; [by apply IH|simpl; destruct b'; repeat constructor..]. }
  destruct (match out with Continue rz' => run_loop tcp evs rz' s' | _ => ([], s') end) as [rest s'']. simpl in *. rewrite pk_times_turn.
  destruct Hc as [[Hp Hl]|(Hd & Hl & Hp)].
  - rewrite Hp, Hl in *. simpl. by apply Hrest.
  - rewrite Hl in *. assert (Hg' : Forall (fun t1 => t <= t1) (map fst evs)) by done.
    destruct (pks l) as [|x [|]] eqn:Hpl; simpl in Hp; [|clear Hp|lia]; simpl.
    + apply Hrest; [|done]. destruct b as [b|]; [|done]. destruct (last_not_deployed_register s) as [t0|]; [lia|done].
    + specialize (Hrest (Some t) (Z.le_refl t) Hg'). simpl in Hrest. destruct b as [b|]; [|exact Hrest]. simpl.
      constructor; [exact Hrest|]. constructor. unfold attempt_due in Hd. simpl in Hd.
      destruct (last_not_deployed_register s) as [t0|]; [|done]. etransitivity; [exact Hd|]. apply millis_mono. lia.
Qed.

(** *** Bounds along a run *)
Lemma run_loop_ok evs rz s : latency_ok s -> latency_ok (run_loop false evs rz s).2.
Proof.
  revert rz s. induction evs as [|[t e] evs IH]; intros rz s Hs; [done|]. cbn [run_loop].
  destruct (udp_turn_ok (s <| now := t |>) e rz) as [Hr _]. specialize (Hr Hs). unfold st in Hr.
  destruct (udp_turn e rz (s <| now := t |>)) as [[out s'] l]. simpl in Hr. destruct out as [rz'| |]; [|done..].
  specialize (IH rz' s' Hr). by destruct (run_loop false evs rz' s').
Qed.

End Loops.

(** ** Restarts

    [start_all] as a machine: it reads the servers, clears the two flags, starts
    a mediator, which resolves its endpoint under the configuration of that
    moment, and runs it until it exits; other code changes the configuration or
    the authorization and announces the change by [restart]. *)
Section Restarts.
Context {S : Type} `{!OptionKeys, !BuildEnv, !ConfigStore S, !SetOption S, !Externals, !RzConsts, !RzEnv}.
Implicit Types s : Rz S.

Inductive Phase :=
| P_Top
| P_Servers (l : list str)      (** read; [SHOULD_EXIT] not yet cleared *)
| P_Cleared (l : list str)      (** [MANUAL_RESTARTED] not yet cleared *)
| P_Spawn (l : list str)
| P_Starting (host : str) (resolved : result string str)   (** the endpoint was looked up; not yet connected *)
| P_Running (host : str) (rz : RendezvousMediator)
| P_Over.

Record All := mkAll { a_rz : Rz S; a_phase : Phase; a_announced : bool }.

Inductive AllLabel :=
| A_Change (auth : bool) (c : HomeConfig S) | A_Restart
| A_Servers (stopped : bool) | A_ClearExit | A_ClearManual
| A_Resolve
| A_Start (tcp : bool) (connect : result string SocketAddr)
| A_Event (tcp : bool) (t : Z) (e : Event)
| A_Task (t : Task)
| A_Again.

(** A mediator that ends tells the others to. *)
Definition over (a : All) s : All := mkAll (s <| should_exit := true |>) P_Over (a_announced a).

(** Between two steps of one the others may come, also between looking the
    endpoint up and connecting.  A task changes nothing of what [start_all] reads,
    so that it is one step here. *)
Definition all_step (l : AllLabel) (a : All) : option All :=
  let s := a_rz a in
  match l, a_phase a with
  | A_Change auth c, _ => Some (mkAll (s <| auth_ready := auth |> <| cfg := c |>) (a_phase a) false)
  | A_Restart, _ => Some (mkAll (st restart s) (a_phase a) true)
  | A_Servers stopped, P_Top =>
    let s := s <| solving_pk_mismatch := [] |> in
    Some (mkAll s (if stopped then P_Over else P_Servers (servers s)) (a_announced a))
  | A_ClearExit, P_Servers l => Some (mkAll (s <| should_exit := false |>) (P_Cleared l) (a_announced a))
  | A_ClearManual, P_Cleared l => Some (mkAll (s <| manual_restarted := false |>) (P_Spawn l) (a_announced a))
  | A_Resolve, P_Spawn (host :: _) => Some (mkAll s (P_Starting host (resolve_host host s)) (a_announced a))
  | A_Resolve, P_Spawn [] => Some (mkAll s P_Over (a_announced a))
  | A_Start tcp connect, P_Starting host resolved =>
    Some (match start_mediator tcp connect resolved s with
          | (Ok rz, s', _) => mkAll s' (P_Running host rz) (a_announced a)
          | (Err _, s', _) => over a s'
          end)
  | A_Event tcp t e, P_Running host rz =>
    Some (match (if tcp then tcp_turn e rz else udp_turn e rz) (s <| now := t |>) with
          | (Continue rz', s', _) => mkAll s' (P_Running host rz') (a_announced a)
          | (_, s', _) => over a s'
          end)
  | A_Task t, _ => Some (mkAll (st (run_task (Others0 := alone) t) s) (a_phase a) (a_announced a))
  | A_Again, P_Over => Some (mkAll s P_Top (a_announced a))
  | _, _ => None
  end.

Fixpoint all_run (ls : list AllLabel) (a : All) : option All :=
  match ls with [] => Some a | l :: r => a' ← all_step l a; all_run r a' end.

(** [Config::set_option] leaves the other options. *)
Class SetOptionLaws := set_option_ne : forall k v k' (x : S) d e, k' <> k ->
  get_option (set_option k v x) d e k' = get_option x d e k'.
Context `{!SetOptionLaws}.

Lemma profile_set_option v (c : HomeConfig S) : active_profile (cfg_set_option (lit "rendezvous-servers") v c) = active_profile c.
Proof.
  assert (Hg : forall k, k <> lit "rendezvous-servers" -> cfg_get_option (cfg_set_option (lit "rendezvous-servers") v c) k = cfg_get_option c k).
  { intros k Hk. unfold cfg_get_option, cfg_set_option. simpl. by apply set_option_ne. }
  assert (Hp : forall m f, profile_key m f <> lit "rendezvous-servers") by (intros [] f; by vm_compute).
  assert (Hm : active_mode (cfg_set_option (lit "rendezvous-servers") v c) = active_mode c).
  { unfold active_mode. rewrite Hg by (by vm_compute). done. }
  unfold active_profile. rewrite Hm, !Hg by apply Hp. done.
Qed.

(** What a turn or a task keeps: the profile and the login, and the wish to exit *)
Definition view s s' : Prop :=
  auth_ready s' = auth_ready s /\ active_profile (cfg s') = active_profile (cfg s) /\ (should_exit s = true -> should_exit s' = true).
#[local] Instance view_preorder : PreOrder view.
Proof. split; [done|]. intros a b d (A1 & A2 & A3) (B1 & B2 & B3). split_and!; [congruence..|auto]. Qed.

Lemma resolve_view host s s' : auth_ready s' = auth_ready s -> active_profile (cfg s') = active_profile (cfg s) ->
  resolve_host host s' = resolve_host host s.
Proof.
  intros Ha Hp. unfold resolve_host, resolve_configured_endpoint, resolve_check, remote_profile_ready. by rewrite Ha, Hp.
Qed.

Abbreviation kept := (obeys view (fun _ => True)).

Lemma register_pk_kept s : kept s register_pk.
Proof. unfold register_pk. walk; done. Qed.

Lemma handle_resp_kept s up msg rz : (forall s, kept s up) -> kept s (handle_resp up msg rz).
Proof.
  intros Hup. unfold handle_resp, on_register_pk_response, handle_uuid_mismatch, restart.
  destruct msg; walk; try done; try apply Hup; try apply register_pk_kept.
  split_and!; [done| |done]. apply profile_set_option.
Qed.

Lemma turn_kept (tcp : bool) s e rz : kept s (if tcp then tcp_turn e rz else udp_turn e rz).
Proof.
  destruct tcp, e as [[msg|]| | | |]; simpl; unfold mod_loop; walk; try done; try apply handle_resp_kept.
  - intros s'. unfold update_latency_tcp, set_latency. walk; done.
  - unfold tick_tcp, mod_loop. walk; try done. apply register_pk_kept.
  - intros s'. unfold update_latency_udp, mod_loop, set_latency. walk; done.
  - unfold tick_udp, deploy_register_throttled, on_reg_timeout, rebind, register_peer, mod_loop, set_latency.
    walk; try done; apply register_pk_kept.
Qed.

(** *** The host of a mediator stays *)
Definition yields {A} (P : A -> Prop) (m : M (Rz S) (Fx S) A) : Prop := forall s, P (res m s).

Lemma yields_bind {A B} P (m : M (Rz S) (Fx S) A) (k : A -> M (Rz S) (Fx S) B) : (forall a, yields P (k a)) -> yields P (m ≫= k).
Proof. intros Hk s. rewrite res_bind. apply Hk. Qed.

Definition same_host (host : str) (r : result string RendezvousMediator) : Prop :=
  match r with Ok rz => rz_host rz = host | Err _ => True end.
Definition same_host_turn (host : str) (t : Turn) : Prop := match t with Continue rz => rz_host rz = host | _ => True end.

Lemma yields_try {A} host (m : M (Rz S) (Fx S) (result string A)) (k : A -> M (Rz S) (Fx S) (result string RendezvousMediator)) :
  (forall a, yields (same_host host) (k a)) -> yields (same_host host) (try_bind m k).
Proof. intros Hk. apply yields_bind. intros [a|e]; [apply Hk|done]. Qed.

Lemma yields_then host (m : M (Rz S) (Fx S) (result string RendezvousMediator)) k :
  yields (same_host host) m -> (forall rz, rz_host rz = host -> yields (same_host host) (k rz)) -> yields (same_host host) (try_bind m k).
Proof.
  intros Hm Hk s. unfold try_bind. rewrite res_bind. specialize (Hm s). destruct (res m s) as [rz|e]; [by apply Hk|done].
Qed.

Lemma yields_turn host m : yields (same_host host) m -> yields (same_host_turn host) (turn m).
Proof. intros Hm s. unfold turn. rewrite res_bind. specialize (Hm s). by destruct (res m s). Qed.

Ltac yield :=
  repeat match goal with
  | |- yields _ (ok _) => by intros ?
  | |- yields _ (bail _) => by intros ?
  | |- yields _ (mret _) => by intros ?
  | |- yields _ (turn _) => apply yields_turn
  | |- yields _ (try_bind _ _) => apply yields_try; intros ?
  | |- yields _ (_ ≫= _) => apply yields_bind; intros ?
  | |- yields _ (if ?b then _ else _) => destruct b
  | |- yields _ (match ?x with _ => _ end) => destruct x
  end.

Lemma handle_resp_host up msg rz : yields (same_host (rz_host rz)) (handle_resp up msg rz).
Proof. unfold handle_resp. destruct msg; yield. intros s. unfold ok, res. simpl. by destruct (0 <? _). Qed.

Lemma on_reg_timeout_host rz : yields (same_host (rz_host rz)) (on_reg_timeout rz).
Proof. unfold on_reg_timeout, rebind. yield. intros s. unfold ok, res. simpl. match goal with |- context [match ?x with Some _ => _ | None => _ end] => by destruct x end. Qed.

Lemma turn_host (tcp : bool) e rz : yields (same_host_turn (rz_host rz)) (if tcp then tcp_turn e rz else udp_turn e rz).
Proof.
  destruct tcp, e as [[msg|]| | | |]; simpl; yield; try apply handle_resp_host.
  - unfold tick_tcp. yield.
  - unfold tick_udp. apply yields_bind. intros s. destruct (should_exit s); [yield|]. apply yields_bind. intros th.
    destruct th; [yield|]. cbv zeta. apply yields_bind. intros _. destruct (_ || _); [|yield]. apply yields_turn. apply yields_then.
    + destruct (match last_register_sent _ with Some _ => _ | None => _ end); [apply on_reg_timeout_host|yield].
    + intros rz' Hrz. yield.
Qed.

(** A task keeps them as well. *)
#[local] Existing Instance alone.
Lemma await_kept s : kept s await.
Proof. by apply obeys_modify. Qed.

Ltac walk_kept := pose proof await_kept; walk; try done.

Lemma key_exchange_kept s : kept s key_exchange.
Proof. unfold key_exchange. destruct handshake; walk_kept. Qed.
Lemma create_tcp_kept s addr secure meta : kept s (create_tcp_connection addr secure meta).
Proof. unfold create_tcp_connection. walk_kept; apply key_exchange_kept. Qed.
Lemma accept_kept s local secure meta : kept s (accept_connection local secure meta).
Proof. unfold accept_connection, accept_connection_. walk_kept; apply create_tcp_kept. Qed.
Lemma create_relay_kept s rz socket_addr relay_server secure initiate meta :
  kept s (create_relay rz socket_addr relay_server secure initiate meta).
Proof. unfold create_relay, create_relay_connection, create_relay_connection_. walk_kept; apply create_tcp_kept. Qed.
Lemma start_ipv6_kept c s v6 v4 meta : kept s (start_ipv6 c v6 v4 meta).
Proof. unfold start_ipv6, test_ipv6, get_ipv6_socket. walk_kept. Qed.
Lemma udp_nat_listen_kept s a v4 meta : kept s (udp_nat_listen a v4 meta).
Proof. unfold udp_nat_listen. walk_kept; apply create_tcp_kept. Qed.
Lemma handle_intranet_kept s fla rz : kept s (handle_intranet fla rz).
Proof.
  unfold handle_intranet, handle_intranet_. walk_kept; first [apply start_ipv6_kept|apply accept_kept|apply create_relay_kept].
Qed.
Lemma handle_punch_hole_kept s ph rz : kept s (handle_punch_hole ph rz).
Proof.
  unfold handle_punch_hole, punch_udp_hole. walk_kept; first [apply start_ipv6_kept|apply accept_kept|apply udp_nat_listen_kept].
Qed.

Lemma task_view t s : view s (st (run_task t) s).
Proof.
  assert (Hk : kept s (run_task t)); [|apply Hk].
  destruct t; simpl; walk_kept; [apply handle_punch_hole_kept|apply handle_intranet_kept|apply udp_nat_listen_kept].
Qed.

(** *** The invariant *)
Definition current (a : All) : Prop :=
  match a_phase a with
  | P_Running host rz =>
    a_announced a = false \/ should_exit (a_rz a) = true \/ resolve_host host (a_rz a) = Ok (rz_host rz)
  | P_Starting host resolved =>
    a_announced a = false \/ should_exit (a_rz a) = true \/ resolve_host host (a_rz a) = resolved
  | _ => True
  end.

Lemma start_mediator_starts tcp connect resolved s rz s' l : start_mediator tcp connect resolved s = (Ok rz, s', l) ->
  resolved = Ok (rz_host rz) /\ view s s'.
Proof.
  unfold start_mediator, try_bind, lift, mod_loop, ok, mbind, M_bind, gets, mret, M_ret, modify, id.
  destruct resolved as [h|e]; [|done]. destruct connect as [addr|e]; [|done].
  simpl. destruct tcp; simpl; intros [= <- <- <-]; done.
Qed.

(** What was resolved stays right as long as the view does. *)
Lemma current_view host s s' x b : view s s' ->
  b = false \/ should_exit s = true \/ resolve_host host s = x -> b = false \/ should_exit s' = true \/ resolve_host host s' = x.
Proof.
  intros (Ha & Hp & He) [Hc|[Hc|Hc]]; [by left|right; left; by apply He|right; right]. by rewrite (resolve_view host s).
Qed.

Lemma current_step l a a' : all_step l a = Some a' -> current a -> current a'.
Proof.
  intros E Hc. unfold current in *. destruct l; cbn [all_step] in E.
  - injection E as <-. simpl. destruct (a_phase a); auto.
  - injection E as <-. simpl. destruct (a_phase a); auto.
  - destruct (a_phase a); try done. injection E as <-. simpl. by destruct stopped.
  - destruct (a_phase a); try done. by injection E as <-.
  - destruct (a_phase a); try done. by injection E as <-.
  - destruct (a_phase a) as [| | |[|host l]| | |]; try done; injection E as <-; [done|]. simpl. by right; right.
  - destruct (a_phase a) as [| | | |host resolved| |]; try done.
    destruct (start_mediator tcp connect resolved (a_rz a)) as [[[rz|e] s'] l'] eqn:Hs; injection E as <-; [|done]. simpl.
    apply start_mediator_starts in Hs as [-> Hv]. by apply (current_view host (a_rz a)).
  - destruct (a_phase a) as [| | | | |host rz|]; try done.
    destruct (turn_kept tcp ((a_rz a) <| now := t |>) e rz) as [Hv _].
    pose proof (turn_host tcp e rz ((a_rz a) <| now := t |>)) as Hh. unfold st, res in *.
    destruct ((if tcp then tcp_turn e rz else udp_turn e rz) ((a_rz a) <| now := t |>)) as [[[rz'| |e'] s'] l']; injection E as <-; [|done..].
    simpl in *. rewrite Hh. by apply (current_view host ((a_rz a) <| now := t |>)).
  - injection E as <-. simpl. pose proof (task_view t (a_rz a)) as Hv.
    destruct (a_phase a) as [| | | |host resolved|host rz|]; try done; by apply (current_view host (a_rz a)).
  - destruct (a_phase a); try done. by injection E as <-.
Qed.

Lemma current_run ls a a' : all_run ls a = Some a' -> current a -> current a'.
Proof.
  revert a. induction ls as [|l ls IH]; simpl; intros a E Ha; [by simplify_eq|].
  destruct (all_step l a) as [a1|] eqn:El; [|done]. eapply IH; [exact E|]. by eapply current_step.
Qed.

End Restarts.
Arguments All S : clear implicits.
Arguments AllLabel S : clear implicits.

(** ** Properties *)
Module RendezvousClaims.
Import ExampleConfig.

Section Claims.
Context {S : Type} `{!OptionKeys, !BuildEnv, !ConfigStore S, !SetOption S, !Externals, !RzConsts, !RzEnv, !Others S}.

(** C19: Whatever the signaling server sends, and however the configuration and
    the login change while the task waits, a task it starts on the host (hole
    punching, intranet, relay, UDP listening) creates an inbound session only
    under an address the active profile admitted when the peer had connected, just
    before the handshake, with a session key agreed in the handshake and not over a
    relay; it dials a peer over TCP only at an address the profile admitted when
    the request arrived; it never dials a relay, answers a relay request or names a
    relay in the messages that tell the peer where to connect; and it does not
    itself change the configuration.  (Neither check is repeated after the awaits
    that follow it; and the UDP socket of an IPv6 candidate is another matter:
    [ipv6_candidate_unchecked].) *)
Theorem inbound_sessions_are_admitted (t : Task) (s : Rz S) :
  Forall policy (fx (run_task t) s) /\
  ((forall n w, (others n w).1 = w.1) -> cfg (st (run_task t) s) = cfg s).
Proof. destruct (run_task_good t s) as [Hc Hp]. split; [exact Hp|exact Hc]. Qed.

(** The number of connection attempts, which a profile change waits for, is the
    same after a connection as before it, on every path. *)
Theorem attempts_are_given_back (addr : SocketAddr) (secure : bool) (meta : ConnectionMeta) (s : Rz S) :
  connection_attempts (st (create_tcp_connection addr secure meta) s) = connection_attempts s.
Proof. apply create_tcp_attempts. Qed.

(** The direct listener never opens: a turn of [direct_server] without a
    listener leaves it without one and does nothing, whatever the options say. *)
Theorem direct_listener_stays_closed direct stop listen accepted (s : Rz S) :
  direct_server_turn direct stop listen accepted None s = (None, s, []).
Proof.
  unfold direct_server_turn, requires_secure_session. rewrite run_gets_bind. rewrite orb_true_r. done.
Qed.

(** C23: While the server says that the device is not deployed, the mediator
    registers its key at most once in 30 seconds, over UDP and over TCP,
    whatever else arrives and however often its timer ticks. *)
Theorem key_registrations_are_spaced (tcp : bool) evs rz (s : Rz S) :
  needs_deploy s = true -> existsb deploys (map snd evs) = false -> StronglySorted Z.le (map fst evs) ->
  Forall (fun t => match last_not_deployed_register s with Some t0 => t0 <= t | None => True end) (map fst evs) ->
  spaced (option_list (last_not_deployed_register s) ++ pk_times (run_loop tcp evs rz s).1).
Proof.
  intros Hn He Hs Hg. apply run_loop_spaced; try done. destruct (last_not_deployed_register s); [lia|done].
Qed.

(** The registration loop over UDP stays in range: from a fresh loop, after any
    events, the timeout is a multiple of 3 seconds up to 30, and every latency it
    computes or publishes is at most a second, or the two markers -1 and 0. *)
Theorem registration_loop_in_range evs rz (s : Rz S) :
  lp s = fresh_loop (now s) -> map_Forall (fun _ v => -1 <= v <= 1000000) (latency s) ->
  latency_ok (run_loop false evs rz s).2.
Proof.
  intros Hl Hm. apply run_loop_ok. split; [|done]. rewrite Hl. unfold loop_ok, MIN_REG_TIMEOUT, MAX_REG_TIMEOUT. simpl.
  split_and!; done || lia.
Qed.

(** C20: No mediator runs on a stale configuration: in every interleaving of
    [start_all] with changes of the configuration or the login and their restart
    signals, a mediator that runs while every change is announced and no exit is
    asked for is registered at the endpoint that the present configuration
    resolves to, under a confirmed profile and a live login; and once an exit is
    asked for, its next tick ends it. *)
Theorem running_mediator_is_current `{!SetOptionLaws} (s0 : Rz S) ls a host rz :
  all_run ls (mkAll s0 P_Top true) = Some a -> a_phase a = P_Running host rz ->
  (a_announced a = true -> should_exit (a_rz a) = false ->
     resolve_host host (a_rz a) = Ok (rz_host rz) /\ remote_profile_ready (auth_ready (a_rz a)) (cfg (a_rz a)) = true) /\
  (should_exit (a_rz a) = true -> forall tcp t, exists a', all_step (A_Event tcp t Ev_Tick) a = Some a' /\ a_phase a' = P_Over).
Proof.
  intros E Hp. assert (Hc : current a) by (eapply current_run; [exact E|done]). unfold current in Hc. rewrite Hp in Hc. split.
  - intros Ha He. destruct Hc as [Hc|[Hc|Hc]]; [congruence..|]. split; [done|].
    unfold resolve_host, resolve_configured_endpoint in Hc. destruct (resolve_check _ _ _ _ _) as [[x m]|] eqn:Hk; [|done].
    by apply resolve_check_ok in Hk as (_ & Hr & _).
  - intros He tcp t. unfold all_step. rewrite Hp. eexists. split; [done|].
    destruct tcp; simpl; unfold tick_tcp, tick_udp; rewrite run_gets_bind; unfold id; simpl; by rewrite He.
Qed.

End Claims.

(** A sample world: one admitted candidate, one IPv6 candidate, a peer that
    completes the handshake *)
#[local] Instance sample_set_option : SetOption SimpleStore := fun k v s =>
  {| mem := if bool_decide (v = []) then delete k (mem s) else <[k := v]> (mem s);
     disk := if bool_decide (v = []) then delete k (disk s) else <[k := v]> (disk s) |}.
#[local] Instance sample_consts : RzConsts := {| CONNECT_TIMEOUT := 18000; REG_INTERVAL := 12000; RENDEZVOUS_PORT := 21116; DEFAULT_KEEP_ALIVE := 60000 |}.
#[local] Instance sample_externals : Externals := {|
  url_parse := example_url;
  decode64 _ := Some (replicate 32 0);
  check_port host port := if existsb (Z.eqb 58) host then host else host ++ lit ":" ++ fmt_Z port;
  lookup_host _ := Ok [V4 (ipv4_new 203 0 113 9) 21116];
  fmt_v6_socket _ _ := [] |}.

Definition candidate_v4 : SocketAddr := V4 (ipv4_new 203 0 113 5) 4000.
Definition candidate_v6 : SocketAddr := V6 (Z.shiftl 8193 112 + 7) 5000.

#[local] Instance sample_env : RzEnv := {|
  addr_decode b := if bool_decide (b = [4]) then candidate_v4 else if bool_decide (b = [6]) then candidate_v6 else V4 0 0;
  addr_encode _ := [];
  sink_send := Ok ();
  connect_host _ := Ok (V4 (ipv4_new 192 168 50 2) 50000);
  connect_relay _ := Err "relay"%string;
  send_raw := Ok ();
  udp_socket_for _ := Ok ();
  rebind_udp _ := Ok None;
  listen_accept _ := Ok (Some candidate_v4);
  use_ws := false; is_proxy := false; is_disable_tcp_listen := false;
  ipv6_probe := Ok (V6 (Z.shiftl 8193 112 + 1) 0);
  ipv6_bind a := Some a;
  udp_punch _ := Ok ();
  handshake := Hs_PublicKey [] [0];
  key_pair_valid := true;
  encrypt_decode _ _ := Ok ();
  public_key_bytes := 1;
  fresh_id := lit "new" |}.

#[local] Existing Instance alone.

Definition sample_cfg : HomeConfig SimpleStore := (save_network_profile profile config).2.
Definition sample_state : Rz SimpleStore :=
  mkState (10 ^ 12) sample_cfg true [] (V4 0 0, 0) (V4 0 0, 0) false false false false None true ∅ (lit "id") 0 ∅ (None, None) 0 1000
    (fresh_loop (10 ^ 12)) 0.
Definition sample_rz : RendezvousMediator := mkRz (V4 (ipv4_new 203 0 113 9) 21116) (lit "203.0.113.9:21116") (lit "203") 60000.
Definition sample_punch (udp_port : Z) : PunchHole := mkPunchHole [4] [6] [] false udp_port None None.

(** An IPv6 candidate is not checked: the address policy refuses it, but a punch
    request that carries it next to an admitted IPv4 candidate makes the host
    listen for it, and the session that comes over it is created under the
    IPv4 address. *)
Theorem ipv6_candidate_unchecked :
  admitted_by (cfg sample_state) candidate_v6 = false /\
  existsb (fun e => match e with Spawned _ (UdpNatListen a b _) => bool_decide (a = candidate_v6) && bool_decide (b = candidate_v4) | _ => false end)
    (fx (handle_punch_hole (sample_punch 0) sample_rz) sample_state) = true /\
  (fun e => match e with UdpConnected a | StartedConnection _ a _ true _ => Some a | _ => None end)
    <$> fx (run_task (UdpNatListen candidate_v6 candidate_v4 (connection_meta None None))) sample_state
    = [Some candidate_v6; Some candidate_v4].
Proof. split_and!; vm_compute; reflexivity. Qed.

Definition sample_waiting : Rz SimpleStore := sample_state <| needs_deploy := true |>.
Definition two_ticks : list (Z * Event) := [(10 ^ 12, Ev_Tick); (10 ^ 12 + 40 * 10 ^ 9, Ev_Tick)].

Lemma key_registrations_are_spaced_witness :
  spaced (option_list (last_not_deployed_register sample_waiting) ++ pk_times (run_loop false two_ticks sample_rz sample_waiting).1)
  /\ length (pk_times (run_loop false two_ticks sample_rz sample_waiting).1) = 2%nat.
Proof.
  split; [|vm_compute; reflexivity].
  apply (key_registrations_are_spaced false two_ticks sample_rz sample_waiting); [reflexivity|reflexivity|repeat constructor; simpl; lia|repeat constructor].
Defined.

Lemma registration_loop_in_range_witness :
  latency_ok (run_loop false [(10 ^ 12, Ev_Tick); (10 ^ 12 + 5000000, Ev_Message (Some (RegisterPeerResponse false)))] sample_rz sample_state).2.
Proof. apply registration_loop_in_range; [done|]. apply map_Forall_empty. Defined.

#[local] Instance sample_set_option_laws : SetOptionLaws (S := SimpleStore).
Proof.
  intros k v k' x d e Hne. simpl. destruct (e !! k'); [done|]. unfold set_option, sample_set_option. simpl.
  case_bool_decide; [by rewrite lookup_delete_ne|by rewrite lookup_insert_ne].
Qed.

Definition sample_labels : list (AllLabel SimpleStore) :=
  [A_Servers false; A_ClearExit; A_ClearManual; A_Resolve; A_Start false (Ok (V4 (ipv4_new 203 0 113 9) 21116)); A_Event false (10 ^ 12) Ev_Tick].

Lemma running_mediator_is_current_witness : exists a host rz,
  all_run sample_labels (mkAll sample_state P_Top true) = Some a /\ resolve_host host (a_rz a) = Ok (rz_host rz).
Proof.
  assert (Hb : match all_run sample_labels (mkAll sample_state P_Top true) with
    | Some a => match a_phase a with P_Running _ _ => a_announced a && negb (should_exit (a_rz a)) | _ => false end | None => false end = true)
    by (vm_compute; reflexivity).
  destruct (all_run sample_labels (mkAll sample_state P_Top true)) as [a|] eqn:E; [|discriminate Hb].
  destruct (a_phase a) as [| | | | |host rz|] eqn:Hp; try discriminate Hb. apply andb_true_iff in Hb as [Ha He]. apply negb_true_iff in He.
  exists a, host, rz. split; [reflexivity|].
  exact (proj1 (proj1 (running_mediator_is_current sample_state sample_labels a host rz E Hp) Ha He)).
Defined.

End RendezvousClaims.
