(* ===== verification/FileSystem.v ===== *)
(** * The file system as the sources use it

    What the modelled code uses of [std::fs] and [std::path]: paths as lists of
    components, a tree of nodes kept as a map from absolute names to what is
    there, symbolic links (reparse points) with their resolution, and the system
    calls as computations that may fail.  A call fails because of what the tree
    holds, or because of a [Fault] the outside injects (permissions, a full disk,
    another process's handle): the list [faults] says which of the next calls
    fail and what a failing call has already done.  Names are compared exactly
    and there is one volume. *)
From stdpp Require Import base gmap list strings.
From Stdlib Require Import ZArith Lia.
From S2P Require Import Prelude RustStr Effects.

(** ** Paths *)

(** [std::path::Component], without the drive prefixes of Windows *)
Inductive Component := RootDir | CurDir | ParentDir | Normal (name : str).

#[global] Instance Component_eq_dec : EqDecision Component.
Proof. solve_decision. Defined.

Abbreviation Path := (list Component).

(** The names from the root to a node *)
Abbreviation Key := (list str).

Definition part_component (part : str) : option Component :=
  if bool_decide (part = []) then None
  else if bool_decide (part = lit ".") then None
  else if bool_decide (part = lit "..") then Some ParentDir
  else Some (Normal part).

(** The separators of names: on Windows the backslash is one too. *)
Definition is_sep (windows : bool) (c : Z) : bool := (c =? 47) || (windows && (c =? 92)).

(** [Path::new(s).components()] of a string without drive prefix: repeated
    separators and inner [.] are dropped *)
Definition components (windows : bool) (s : str) : Path :=
  (if bool_decide (is_sep windows <$> head s = Some true) then [RootDir]
   else if bool_decide (head (split (is_sep windows) s) = Some (lit ".")) then [CurDir] else [])
  ++ omap part_component (split (is_sep windows) s).

Definition is_absolute (p : Path) : bool := bool_decide (head p = Some RootDir).

(** [Path::join]: an absolute argument replaces the path; a leading [.] is
    dropped when something precedes it *)
Definition join_path (windows : bool) (p : Path) (s : str) : Path :=
  let c := components windows s in
  if is_absolute c then c else match p with [] => c | _ => p ++ filter (fun x => x <> CurDir) c end.

(** The path of a key *)
Definition abs (k : Key) : Path := RootDir :: (Normal <$> k).

(** [Path::parent] *)
Definition path_parent (p : Path) : option Path :=
  match p with [] | [RootDir] => None | _ => Some (take (length p - 1) p) end.

(** ** The tree *)

Inductive Node := Dir | File (bytes : list Z) | Link (target : Path) | Special.

#[global] Instance Node_eq_dec : EqDecision Node.
Proof. solve_decision. Defined.

Abbreviation Nodes := (gmap Key Node).

Inductive ErrorKind :=
| InvalidInput | NotFound | AlreadyExists | NotADirectory | IsADirectory | FilesystemLoop
| SharingViolation | Failed (code : Z).

#[global] Instance ErrorKind_eq_dec : EqDecision ErrorKind.
Proof. solve_decision. Defined.

(** A failure from outside: its code, the entries (relative names) a failing
    recursive removal has removed, the bytes a failing write has written. *)
Record Fault := mkFault { code : Z; gone : list Key; written : nat }.

(** [held]: the files open with an exclusive handle *)
Record Fs := mkFs { nodes : Nodes; faults : list (option Fault); held : gset Key }.

#[global] Instance Fs_eta : EtaRecord Fs := fun f => mkFs (nodes f) (faults f) (held f).

Definition parent (k : Key) : Key := take (length k - 1) k.

(** The node a path names, following the links on the way, and at its end when
    [follow]; [links] bounds the links followed.  The last name may be missing.
    Relative paths start at the root. *)
Fixpoint locate (links : nat) (ns : Nodes) (follow : bool) : Key -> Path -> result ErrorKind Key :=
  fix go (cur : Key) (p : Path) : result ErrorKind Key :=
    match p with
    | [] => Ok cur
    | RootDir :: r => go [] r
    | CurDir :: r => go cur r
    | ParentDir :: r => go (parent cur) r
    | Normal n :: r =>
      let k := cur ++ [n] in
      match ns !! k with
      | None => if bool_decide (r = []) then Ok k else Err NotFound
      | Some (Link t) =>
        if bool_decide (r = []) && negb follow then Ok k
        else match links with O => Err FilesystemLoop | S l => locate l ns follow cur (t ++ r) end
      | Some Dir => go k r
      | Some _ => if bool_decide (r = []) then Ok k else Err NotADirectory
      end
    end.

(** Linux follows at most 40 links. *)
Definition MAX_LINKS : nat := 40.
Definition find (ns : Nodes) (follow : bool) (p : Path) : result ErrorKind Key := locate MAX_LINKS ns follow [] p.

(** ** Computations on the file system *)

Definition Io (A : Type) : Type := Fs -> result ErrorKind A * Fs.

#[global] Instance Io_ret : MRet Io := fun A a fs => (Ok a, fs).
#[global] Instance Io_bind : MBind Io := fun A B k m fs =>
  match m fs with (Ok a, fs') => k a fs' | (Err e, fs') => (Err e, fs') end.

Definition throw {A} (e : ErrorKind) : Io A := fun fs => (Err e, fs).
Definition lift {A} (r : result ErrorKind A) : Io A := fun fs => (r, fs).
(** The result of [m] as a value: [match m { Ok(..) .. Err(..) }] *)
Definition attempt {A} (m : Io A) : Io (result ErrorKind A) := fun fs => let '(r, fs') := m fs in (Ok r, fs').
(** [let _ = m;], and what a destructor runs *)
Definition ignore {A} (m : Io A) : Io unit := fun fs => (Ok tt, (m fs).2).

(** A system call: the next fault, if any, decides it. *)
Definition syscall {A} (broken : Fault -> Fs -> Fs) (act : Io A) : Io A := fun fs =>
  match faults fs with
  | [] => act fs
  | None :: r => act (fs <| faults := r |>)
  | Some f :: r => (Err (Failed (code f)), broken f (fs <| faults := r |>))
  end.

Definition unharmed (_ : Fault) (fs : Fs) : Fs := fs.

(** A call that only looks at the tree *)
Definition look {A} (f : Nodes -> result ErrorKind A) : Io A :=
  syscall unharmed (fun fs => (f (nodes fs), fs)).

(** A call that changes the tree *)
Definition alter_tree (f : Nodes -> result ErrorKind Nodes) : Io unit :=
  syscall unharmed (fun fs => match f (nodes fs) with Ok ns => (Ok tt, fs <| nodes := ns |>) | Err e => (Err e, fs) end).

Definition node_at (ns : Nodes) (k : Key) : result ErrorKind Node := ok_or (ns !! k) NotFound.

(** [fs::symlink_metadata], [fs::metadata]: the node stands for its metadata. *)
Definition symlink_metadata (p : Path) : Io Node := look (fun ns => find ns false p ≫= node_at ns).
Definition metadata (p : Path) : Io Node := look (fun ns => find ns true p ≫= node_at ns).

(** [Path::exists] *)
Definition path_exists (p : Path) : Io bool := r ← attempt (metadata p); mret (is_ok r).

(** [fs::canonicalize] *)
Definition canonicalize (p : Path) : Io Path :=
  look (fun ns => k ← find ns true p; _ ← node_at ns k; Ok (abs k)).

(** [fs::create_dir] *)
Definition create_dir (p : Path) : Io unit :=
  alter_tree (fun ns => k ← find ns false p;
    match ns !! k with Some _ => Err AlreadyExists | None => Ok (<[k := Dir]> ns) end).

(** [fs::read_dir]: the names in a directory, in the order of the map *)
Definition child_name (k c : Key) : option str :=
  match decide (parent c = k) with left _ => if bool_decide (c = []) then None else last c | right _ => None end.
Definition children (ns : Nodes) (k : Key) : list str := omap (child_name k) ((map_to_list ns).*1).
Definition read_dir (p : Path) : Io (list str) :=
  look (fun ns => k ← find ns true p;
    match ns !! k with Some Dir => Ok (children ns k) | Some _ => Err NotADirectory | None => Err NotFound end).

(** [File::open] and reading at most [n] bytes *)
Definition open_read (p : Path) : Io Key :=
  syscall unharmed (fun fs => (
    k ← find (nodes fs) true p; _ ← node_at (nodes fs) k;
    if bool_decide (k ∈ held fs) then Err SharingViolation else Ok k, fs)).
Definition read_bytes (k : Key) (n : Z) : Io (list Z) :=
  look (fun ns => match ns !! k with
    | Some (File b) => Ok (take (Z.to_nat n) b) | Some Dir => Err IsADirectory | _ => Err InvalidInput end).

(** [OpenOptions::new().write(true).create_new(true).open] *)
Definition open_new (p : Path) : Io Key :=
  syscall unharmed (fun fs =>
    match find (nodes fs) false p with
    | Ok k => match nodes fs !! k with
              | Some _ => (Err AlreadyExists, fs)
              | None => (Ok k, fs <| nodes := <[k := File []]> (nodes fs) |>) end
    | Err e => (Err e, fs) end).

(** [File::create]: creates or truncates, following links *)
Definition file_create (p : Path) : Io Key :=
  syscall unharmed (fun fs =>
    match find (nodes fs) true p with
    | Ok k => if bool_decide (k ∈ held fs) then (Err SharingViolation, fs)
              else match nodes fs !! k with
                   | Some Dir => (Err IsADirectory, fs)
                   | _ => (Ok k, fs <| nodes := <[k := File []]> (nodes fs) |>) end
    | Err e => (Err e, fs) end).

(** [fs::read] *)
Definition fs_read (p : Path) : Io (list Z) :=
  k ← open_read p;
  look (fun ns => match ns !! k with Some (File b) => Ok b | Some Dir => Err IsADirectory | _ => Err InvalidInput end).

(** [write_all] to a file just created; a failing write leaves a part of it. *)
Definition write_all (k : Key) (bytes : list Z) : Io unit :=
  syscall (fun f fs => fs <| nodes := <[k := File (take (written f) bytes)]> (nodes fs) |>)
    (fun fs => (Ok tt, fs <| nodes := <[k := File bytes]> (nodes fs) |>)).
Definition sync_all (k : Key) : Io unit := look (fun _ => Ok tt).

(** [fs::write] *)
Definition fs_write (p : Path) (bytes : list Z) : Io unit := k ← file_create p; write_all k bytes.

(** [Path::is_dir], [Path::is_file] *)
Definition path_is (f : Node -> bool) (p : Path) : Io bool :=
  r ← attempt (metadata p); mret match r with Ok m => f m | Err _ => false end.

(** [fs::create_dir_all], recursing on the parent; [fuel] is the length of the path *)
Fixpoint create_dir_all_go (fuel : nat) (p : Path) : Io unit :=
  match fuel with
  | O => throw NotFound
  | S fuel =>
    r ← attempt (create_dir p);
    match r with
    | Ok _ => mret tt
    | Err NotFound =>
      match path_parent p with
      | None => throw NotFound
      | Some q =>
        _ ← create_dir_all_go fuel q;
        r ← attempt (create_dir p);
        match r with
        | Ok _ => mret tt
        | Err e => d ← path_is (fun m => match m with Dir => true | _ => false end) p; if (d : bool) then mret tt else throw e
        end
      end
    | Err e => d ← path_is (fun m => match m with Dir => true | _ => false end) p; if (d : bool) then mret tt else throw e
    end
  end.
Definition create_dir_all (p : Path) : Io unit := create_dir_all_go (length p) p.

(** Windows: [create(true).share_mode(0)], an exclusive handle *)
Definition open_exclusive (p : Path) : Io Key :=
  syscall unharmed (fun fs =>
    match find (nodes fs) true p with
    | Ok k => if bool_decide (k ∈ held fs) then (Err SharingViolation, fs)
              else match nodes fs !! k with
                   | Some Dir => (Err IsADirectory, fs)
                   | Some _ => (Ok k, fs <| held := {[k]} ∪ held fs |>)
                   | None => (Ok k, fs <| nodes := <[k := File []]> (nodes fs) |> <| held := {[k]} ∪ held fs |>) end
    | Err e => (Err e, fs) end).
Definition close_exclusive (k : Key) : Io unit := fun fs => (Ok tt, fs <| held := held fs ∖ {[k]} |>).

(** [fs::remove_file] *)
Definition remove_file (p : Path) : Io unit :=
  alter_tree (fun ns => k ← find ns false p;
    match ns !! k with None => Err NotFound | Some Dir => Err IsADirectory | Some _ => Ok (delete k ns) end).

(** [fs::remove_dir_all]; a failing removal has removed some of the entries. *)
Definition below (k c : Key) : bool := bool_decide (k `prefix_of` c).
Definition remove_below (ns : Nodes) (k : Key) : Nodes := filter (fun kv => below k kv.1 = false) ns.
Definition remove_some (k : Key) (l : list Key) (ns : Nodes) : Nodes :=
  foldr (fun g ns => if bool_decide (g = []) then ns else remove_below ns (k ++ g)) ns l.
Definition remove_dir_all (p : Path) : Io unit :=
  syscall (fun f fs => match find (nodes fs) false p with
                       | Ok k => if bool_decide (nodes fs !! k = Some Dir)
                                 then fs <| nodes := remove_some k (gone f) (nodes fs) |> else fs
                       | Err _ => fs end)
    (fun fs => match find (nodes fs) false p with
               | Ok k => match nodes fs !! k with
                         | None => (Err NotFound, fs)
                         | Some Dir => (Ok tt, fs <| nodes := remove_below (nodes fs) k |>)
                         | Some (Link _) => (Ok tt, fs <| nodes := delete k (nodes fs) |>)
                         | Some _ => (Err NotADirectory, fs) end
               | Err e => (Err e, fs) end).

(** ** Reasoning

    [ends m fs Q]: run from [fs], [m] ends with a result and a state in [Q]. *)
Definition ends {A} (m : Io A) (fs : Fs) (Q : result ErrorKind A -> Fs -> Prop) : Prop :=
  Q (m fs).1 (m fs).2.

Lemma ends_mono {A} (m : Io A) fs (P Q : result ErrorKind A -> Fs -> Prop) :
  ends m fs P -> (forall r fs', P r fs' -> Q r fs') -> ends m fs Q.
Proof. unfold ends. auto. Qed.

Lemma ends_bind {A B} (m : Io A) (k : A -> Io B) fs Q :
  ends m fs (fun r fs' => match r with Ok a => ends (k a) fs' Q | Err e => Q (Err e) fs' end) ->
  ends (m ≫= k) fs Q.
Proof. unfold ends, mbind, Io_bind. destruct (m fs) as [[a|e] fs']; auto. Qed.

Lemma ends_bind_mono {A B} (m : Io A) (k : A -> Io B) fs (P : result ErrorKind A -> Fs -> Prop) Q :
  ends m fs P ->
  (forall a fs', P (Ok a) fs' -> ends (k a) fs' Q) -> (forall e fs', P (Err e) fs' -> Q (Err e) fs') ->
  ends (m ≫= k) fs Q.
Proof. intros H Ha He. apply ends_bind. eapply ends_mono; [exact H|]. intros [a|e] fs'; auto. Qed.

Lemma ends_attempt {A} (m : Io A) fs Q :
  ends m fs (fun r fs' => Q (Ok r) fs') -> ends (attempt m) fs Q.
Proof. unfold ends, attempt. by destruct (m fs). Qed.

Lemma ends_attempt_bind {A B} (m : Io A) (k : result ErrorKind A -> Io B) fs (P : result ErrorKind A -> Fs -> Prop) Q :
  ends m fs P -> (forall r fs', P r fs' -> ends (k r) fs' Q) -> ends (attempt m ≫= k) fs Q.
Proof. intros H Hk. apply ends_bind, ends_attempt. eapply ends_mono; [exact H|]. intros r fs' Hr. by apply Hk. Qed.

Lemma ends_ret {A} (a : A) fs (Q : result ErrorKind A -> Fs -> Prop) : Q (Ok a) fs -> ends (mret a) fs Q.
Proof. done. Qed.

Lemma ends_throw {A} e fs (Q : result ErrorKind A -> Fs -> Prop) : Q (Err e) fs -> ends (throw e) fs Q.
Proof. done. Qed.

Lemma ends_ignore {A} (m : Io A) fs Q :
  ends m fs (fun _ fs' => Q (Ok tt) fs') -> ends (ignore m) fs Q.
Proof. done. Qed.

(** The outside injects nothing more. *)
Definition calm (fs fs' : Fs) : Prop := faults fs = [] -> faults fs' = [].

(** The tree and the handles stay as they are. *)
Definition same (fs fs' : Fs) : Prop := nodes fs' = nodes fs /\ held fs' = held fs /\ calm fs fs'.

#[global] Instance same_preorder : PreOrder same.
Proof. unfold same, calm. split; [by intros x; split_and!|]. intros x y z (? & ? & ?) (? & ? & ?). split_and!; [congruence..|auto]. Qed.

(** A system call runs its action, or fails with what the fault leaves. *)
Lemma ends_syscall {A} broken (act : Io A) fs Q :
  (forall fs0, same fs fs0 -> ends act fs0 Q) ->
  (forall f fs0, same fs fs0 -> faults fs <> [] -> Q (Err (Failed (code f))) (broken f fs0)) ->
  ends (syscall broken act) fs Q.
Proof.
  intros Ha Hb. unfold ends, syscall. destruct (faults fs) as [|[f|] l] eqn:E.
  - by apply Ha.
  - apply Hb; [|done]. split_and!; [done..|]. unfold calm. congruence.
  - apply Ha. split_and!; [done..|]. unfold calm. congruence.
Qed.

(** On the tree [ns], [m] changes nothing and its result is in [P]. *)
Definition reads {A : Type} (ns : Nodes) (m : Io A) (P : result ErrorKind A -> Prop) : Prop :=
  forall fs, nodes fs = ns -> ends m fs (fun r fs' => same fs fs' /\ P r).

(** What a success means *)
Definition if_ok {A} (P : A -> Prop) (r : result ErrorKind A) : Prop := forall a, r = Ok a -> P a.

(** A reading step in front: its failure leaves the tree as it is. *)
Lemma ends_reads {A B : Type} (m : Io A) (k : A -> Io B) fs P Q :
  reads (nodes fs) m (if_ok P) ->
  (forall a fs', same fs fs' -> P a -> ends (k a) fs' Q) -> (forall e fs', same fs fs' -> Q (Err e) fs') ->
  ends (m ≫= k) fs Q.
Proof.
  intros Hm Hk He. eapply ends_bind_mono; [by apply Hm|..].
  - intros a fs' [Hs Ha]. apply Hk; [done|by apply Ha].
  - intros e fs' [Hs _]. by apply He.
Qed.

Section Reads.
Context (ns : Nodes).

Lemma reads_ends {A : Type} (m : Io A) P fs : nodes fs = ns -> reads ns m P ->
  ends m fs (fun r fs' => same fs fs' /\ P r).
Proof. auto. Qed.

Lemma reads_ret {A : Type} (a : A) (P : result ErrorKind A -> Prop) : P (Ok a) -> reads ns (mret a) P.
Proof. by intros H fs _. Qed.

Lemma reads_lift {A : Type} (r : result ErrorKind A) (P : result ErrorKind A -> Prop) : P r -> reads ns (lift r) P.
Proof. by intros H fs _. Qed.

Lemma reads_throw {A : Type} e (P : result ErrorKind A -> Prop) : P (Err e) -> reads ns (throw e) P.
Proof. by intros H fs _. Qed.

Lemma reads_mono {A : Type} (m : Io A) (P Q : result ErrorKind A -> Prop) :
  reads ns m P -> (forall r, P r -> Q r) -> reads ns m Q.
Proof. intros H HQ fs Hfs. eapply ends_mono; [by apply H|]. naive_solver. Qed.

Lemma reads_bind {A B : Type} (m : Io A) (k : A -> Io B) P Q :
  reads ns m P -> (forall a, P (Ok a) -> reads ns (k a) Q) -> (forall e, P (Err e) -> Q (Err e)) -> reads ns (m ≫= k) Q.
Proof.
  intros Hm Hk He fs Hfs. eapply ends_bind_mono; [by apply Hm|..].
  - intros a fs' [Hs Ha]. eapply ends_mono; [apply (Hk a Ha fs')|].
    + by rewrite (proj1 Hs).
    + intros r fs'' [Hs' Hr]. split; [by etransitivity|done].
  - naive_solver.
Qed.

(** As [reads_bind], for what successes mean *)
Lemma reads_then {A B : Type} (m : Io A) (k : A -> Io B) P Q :
  reads ns m (if_ok P) -> (forall a, P a -> reads ns (k a) (if_ok Q)) -> reads ns (m ≫= k) (if_ok Q).
Proof. intros Hm Hk. eapply reads_bind; [exact Hm| |]; [intros a Ha; apply Hk; by apply Ha|by intros]. Qed.

Lemma reads_attempt {A B : Type} (m : Io A) (k : result ErrorKind A -> Io B) P Q :
  reads ns m P -> (forall r, P r -> reads ns (k r) Q) -> reads ns (attempt m ≫= k) Q.
Proof.
  intros Hm Hk. eapply (reads_bind _ _ (fun r => exists x, r = Ok x /\ P x)).
  - intros fs Hfs. apply ends_attempt. eapply ends_mono; [by apply Hm|]. naive_solver.
  - intros r (x & [= ->] & Hx). by apply Hk.
  - naive_solver.
Qed.

(** A call that looks: either an injected failure or the answer of the tree *)
Lemma reads_look {A : Type} (f : Nodes -> result ErrorKind A) :
  reads ns (look f) (fun r => r = f ns \/ exists c, r = Err (Failed c)).
Proof.
  intros fs <-. apply ends_syscall.
  - intros fs0 Hs. split; [done|]. left. simpl. by rewrite (proj1 Hs).
  - intros x fs0 Hs _. split; [done|]. right. by exists (code x).
Qed.

Lemma reads_look_ok {A : Type} (f : Nodes -> result ErrorKind A) (P : A -> Prop) :
  (forall a, f ns = Ok a -> P a) -> reads ns (look f) (if_ok P).
Proof. intros H. eapply reads_mono; [apply reads_look|]. intros r [->|[c ->]]; by intros a; auto. Qed.

End Reads.

(** Without faults a call that looks is the tree's answer. *)
Lemma look_quiet {A} (f : Nodes -> result ErrorKind A) fs :
  faults fs = [] -> look f fs = (f (nodes fs), fs).
Proof. unfold look, syscall. by intros ->. Qed.

Lemma bind_run {A B} (m : Io A) (k : A -> Io B) fs a fs' : m fs = (Ok a, fs') -> (m ≫= k) fs = k a fs'.
Proof. intros H. unfold mbind, Io_bind. by rewrite H. Qed.

Lemma attempt_run {A} (m : Io A) fs r fs' : m fs = (r, fs') -> attempt m fs = (Ok r, fs').
Proof. intros H. unfold attempt. by rewrite H. Qed.

(** ** Trees *)

(** Everything but the root is in a directory. *)
Definition tree_ok (ns : Nodes) : Prop :=
  ns !! [] = Some Dir /\ forall k n, is_Some (ns !! (k ++ [n])) -> ns !! k = Some Dir.

(** No link on the way to [k] or at it, and nothing but directories above it *)
Definition straight (ns : Nodes) (k : Key) : Prop :=
  forall p, p `prefix_of` k -> match ns !! p with
    | None | Some Dir => True | Some (Link _) => False | Some _ => p = k end.

Lemma tree_ok_missing ns k r : tree_ok ns -> ns !! k = None -> ns !! (k ++ r) = None.
Proof.
  intros [_ Ht] Hk. induction r as [|n r IH] using rev_ind; [by rewrite app_nil_r|].
  rewrite app_assoc. destruct (ns !! ((k ++ r) ++ [n])) eqn:E; [|done].
  assert (ns !! (k ++ r) = Some Dir) by (eapply Ht; eauto). congruence.
Qed.

Lemma tree_ok_above ns k r : tree_ok ns -> r <> [] -> is_Some (ns !! (k ++ r)) -> ns !! k = Some Dir.
Proof.
  intros Ht Hr Hs. destruct r as [|n r]; [done|].
  apply (proj2 Ht) with (n := n). destruct (ns !! (k ++ [n])) eqn:E; [eauto|].
  apply (tree_ok_missing _ _ r Ht) in E. rewrite <- app_assoc in E. simpl in E. rewrite E in Hs. by destruct Hs.
Qed.

Lemma straight_prefix ns k r : straight ns (k ++ r) -> r <> [] ->
  forall p, p `prefix_of` k -> ns !! p = None \/ ns !! p = Some Dir.
Proof.
  intros H Hr p Hp. assert (Hp' : p `prefix_of` k ++ r) by by apply prefix_app_r.
  specialize (H p Hp'). destruct (ns !! p) as [[]|]; auto; try done; exfalso.
  all: apply prefix_length in Hp; rewrite H, length_app in Hp; destruct r; simpl in *; [done|lia].
Qed.

Lemma straight_app ns k r : straight ns (k ++ r) -> straight ns k.
Proof.
  intros H. destruct (decide (r = [])) as [->|Hr]; [by rewrite app_nil_r in H|].
  intros p Hp. destruct (straight_prefix _ _ _ H Hr p Hp) as [-> | ->]; done.
Qed.

Lemma locate_straight links ns follow r : forall cur,
  tree_ok ns -> straight ns (cur ++ r) -> is_Some (ns !! cur) \/ r <> [] ->
  locate links ns follow cur (Normal <$> r) = Ok (cur ++ r)
  \/ (locate links ns follow cur (Normal <$> r) = Err NotFound /\ ns !! (cur ++ r) = None).
Proof.
  induction r as [|n r IH]; intros cur Ht Hs Hc; [left; rewrite app_nil_r; by destruct links|].
  assert (Hk : cur ++ n :: r = (cur ++ [n]) ++ r) by by rewrite <- app_assoc.
  pose proof (Hs (cur ++ [n])) as H1. rewrite Hk in H1, Hs |- *.
  specialize (H1 (prefix_app_r _ _ _ (reflexivity _))).
  destruct links; simpl; (destruct (ns !! (cur ++ [n])) as [[|b|t|]|] eqn:E; try done;
    [ apply IH; eauto
    | assert (r = []) as -> by (apply (f_equal length) in H1; rewrite !length_app in H1; destruct r; simpl in *; [done|lia]);
      left; by rewrite app_nil_r
    | assert (r = []) as -> by (apply (f_equal length) in H1; rewrite !length_app in H1; destruct r; simpl in *; [done|lia]);
      left; by rewrite app_nil_r
    | destruct r as [|m r]; simpl;
      [ left; by rewrite app_nil_r
      | right; split; [done|by apply tree_ok_missing] ] ]).
Qed.

(** A straight path is resolved to itself, or an ancestor is missing. *)
Lemma find_straight ns follow k : tree_ok ns -> straight ns k ->
  find ns follow (abs k) = Ok k \/ (find ns follow (abs k) = Err NotFound /\ ns !! k = None).
Proof. intros Ht Hs. apply (locate_straight MAX_LINKS ns follow k []); [done..|]. left. rewrite (proj1 Ht). eauto. Qed.

Lemma find_present ns follow k : tree_ok ns -> straight ns k -> is_Some (ns !! k) ->
  find ns follow (abs k) = Ok k.
Proof. intros Ht Hs Hk. destruct (find_straight ns follow k Ht Hs) as [?|[_ E]]; [done|]. rewrite E in Hk. by destruct Hk. Qed.

Lemma locate_snoc links ns follow n r : forall cur,
  tree_ok ns -> straight ns (cur ++ r) -> ns !! cur = Some Dir ->
  follow = false \/ (forall t, ns !! ((cur ++ r) ++ [n]) <> Some (Link t)) ->
  locate links ns follow cur (Normal <$> (r ++ [n])) = match ns !! (cur ++ r) with
    | Some Dir => Ok ((cur ++ r) ++ [n]) | None => Err NotFound | Some _ => Err NotADirectory end.
Proof.
  induction r as [|m r IH]; intros cur Ht Hs Hc Hf.
  - rewrite app_nil_r in Hf |- *. rewrite Hc.
    destruct links; simpl; (destruct (ns !! (cur ++ [n])) as [[]|] eqn:E; try done;
      destruct Hf as [->|Hf]; [done|by edestruct Hf]).
  - assert (Hk : cur ++ m :: r = (cur ++ [m]) ++ r) by by rewrite <- app_assoc.
    pose proof (Hs (cur ++ [m])) as H1. rewrite Hk in H1, Hs, Hf |- *.
    specialize (H1 (prefix_app_r _ _ _ (reflexivity _))).
    assert (Hr : forall x : list Component, x = Normal <$> r ++ [n] -> x <> []) by (intros x ->; by destruct r).
    destruct links; cbn [fmap list_fmap app locate]; (destruct (ns !! (cur ++ [m])) as [[]|] eqn:E; try done;
      [ by apply IH
      | rewrite <- H1, E, bool_decide_false by (by eapply Hr); done
      | rewrite <- H1, E, bool_decide_false by (by eapply Hr); done
      | rewrite (tree_ok_missing _ _ r Ht E), bool_decide_false by (by eapply Hr); done ]).
Qed.

(** An entry is resolved by what its directory is, when the way is straight. *)
Lemma find_snoc ns follow k n : tree_ok ns -> straight ns k ->
  follow = false \/ (forall t, ns !! (k ++ [n]) <> Some (Link t)) ->
  find ns follow (abs (k ++ [n])) = match ns !! k with
    | Some Dir => Ok (k ++ [n]) | None => Err NotFound | Some _ => Err NotADirectory end.
Proof. intros Ht Hs Hf. apply (locate_snoc MAX_LINKS ns follow n k []); [done..|apply Ht|done]. Qed.

Lemma straight_root ns : tree_ok ns -> straight ns [].
Proof. intros [H _] p Hp. apply prefix_nil_inv in Hp as ->. by rewrite H. Qed.

(** The way to an entry of a straight directory is straight unless it is a link. *)
Lemma straight_snoc ns k n : straight ns k -> ns !! k = Some Dir \/ ns !! k = None ->
  (forall t, ns !! (k ++ [n]) <> Some (Link t)) -> straight ns (k ++ [n]).
Proof.
  intros Hs Hk Hn p Hp. destruct (decide (p = k ++ [n])) as [->|Hne].
  - destruct (ns !! (k ++ [n])) as [[]|] eqn:E; try done. by eapply Hn.
  - assert (Hp' : p `prefix_of` k).
    { destruct Hp as [r Hr]. destruct r as [|m r _] using rev_ind; [by rewrite app_nil_r in Hr|].
      rewrite app_assoc in Hr. apply app_inj_2 in Hr as [-> _]; [by apply prefix_app_r|done]. }
    specialize (Hs p Hp'). destruct (decide (p = k)) as [->|Hd]; [by destruct Hk as [-> | ->]|].
    destruct (ns !! p) as [[]|]; done.
Qed.

(** ** What the changes do to the tree *)

Lemma lookup_remove_below ns k c : remove_below ns k !! c = if below k c then None else ns !! c.
Proof.
  unfold remove_below. destruct (below k c) eqn:E.
  - apply map_lookup_filter_None. right. simpl. intros x _ H. congruence.
  - destruct (ns !! c) as [x|] eqn:Ec.
    + by apply map_lookup_filter_Some.
    + apply map_lookup_filter_None. by left.
Qed.

Lemma below_spec k c : below k c = true <-> k `prefix_of` c.
Proof. apply bool_decide_eq_true. Qed.

(** A failing removal removes only entries strictly below. *)
Lemma lookup_remove_some ns k l c :
  remove_some k l ns !! c = ns !! c \/ (remove_some k l ns !! c = None /\ k `prefix_of` c /\ c <> k).
Proof.
  induction l as [|g l IH]; simpl; [by left|].
  case_bool_decide as Hg; [exact IH|]. rewrite lookup_remove_below.
  destruct (below (k ++ g) c) eqn:E; [|exact IH]. apply below_spec in E. right.
  split_and!; [done|by eapply prefix_app_l|]. intros ->. apply prefix_length in E. rewrite length_app in E.
  destruct g; simpl in *; [done|lia].
Qed.

Lemma tree_ok_insert ns k n x : tree_ok ns -> ns !! k = Some Dir -> ns !! (k ++ [n]) <> Some Dir \/ x = Dir ->
  tree_ok (<[k ++ [n] := x]> ns).
Proof.
  intros [Hr Ht] Hk Hx. split; [rewrite lookup_insert_ne; [done|by destruct k]|].
  intros c m Hm. destruct (decide (c = k ++ [n])) as [->|Hne].
  - destruct Hx as [Hx | ->]; [|by rewrite lookup_insert_eq].
    rewrite lookup_insert_ne in Hm by (intros E; apply (f_equal length) in E; rewrite !length_app in E; simpl in E; lia).
    apply Ht in Hm. done.
  - rewrite lookup_insert_ne by done. destruct (decide (c ++ [m] = k ++ [n])) as [E|E].
    + apply app_inj_2 in E as [-> _]; done.
    + rewrite lookup_insert_ne in Hm by done. eauto.
Qed.

Lemma tree_ok_delete ns k : tree_ok ns -> k <> [] -> ns !! k <> Some Dir -> tree_ok (delete k ns).
Proof.
  intros [Hr Ht] Hk Hd. split; [by rewrite lookup_delete_ne|].
  intros c m Hm. assert (Hm' : is_Some (ns !! (c ++ [m]))).
  { destruct (decide (k = c ++ [m])) as [->|]; [rewrite lookup_delete_eq in Hm; by destruct Hm|]. by rewrite lookup_delete_ne in Hm. }
  apply Ht in Hm'. rewrite lookup_delete_ne; [done|]. by intros ->.
Qed.

Lemma tree_ok_remove_below ns k : tree_ok ns -> k <> [] -> tree_ok (remove_below ns k).
Proof.
  intros [Hr Ht] Hk. split.
  - rewrite lookup_remove_below. destruct (below k []) eqn:E; [|done]. apply below_spec, prefix_nil_inv in E. done.
  - intros c m. rewrite !lookup_remove_below. destruct (below k (c ++ [m])) eqn:E; [by intros []|]. intros Hm.
    destruct (below k c) eqn:E'; [|eauto]. apply below_spec in E'. assert (below k (c ++ [m]) = true) by by apply below_spec, prefix_app_r.
    congruence.
Qed.

Lemma tree_ok_remove_some ns k l : tree_ok ns -> tree_ok (remove_some k l ns).
Proof.
  intros Ht. induction l as [|g l IH]; simpl; [done|]. case_bool_decide; [done|].
  apply tree_ok_remove_below; [done|]. by destruct k, g.
Qed.

Lemma child_name_spec k c n : child_name k c = Some n <-> c = k ++ [n].
Proof.
  unfold child_name, parent. destruct (decide _) as [E|E].
  - case_bool_decide as Hc; [by subst|].
    destruct c as [|m c _] using rev_ind; [done|]. rewrite length_app in E. simpl in E.
    rewrite take_app_le, take_ge in E by lia. rewrite last_snoc. subst k. split; [by intros [= ->]|].
    intros Hi. by apply app_inj_2 in Hi as [_ [= ->]].
  - split; [done|]. intros ->. destruct E. rewrite length_app. simpl. rewrite take_app_le, take_ge by lia. done.
Qed.

(** [read_dir] lists exactly the entries. *)
Lemma elem_of_children ns k n : n ∈ children ns k <-> is_Some (ns !! (k ++ [n])).
Proof.
  unfold children. rewrite list_elem_of_omap. split.
  - intros (c & Hc & E). apply child_name_spec in E as ->. apply list_elem_of_fmap in Hc as ([c x] & -> & Hx).
    apply elem_of_map_to_list in Hx. simpl. eauto.
  - intros [x Hx]. exists (k ++ [n]). split; [|by apply child_name_spec].
    apply list_elem_of_fmap. exists (k ++ [n], x). split; [done|]. by apply elem_of_map_to_list.
Qed.

(** ** What the calls that change the tree do at a straight path *)

Section Writes.
Context (k : Key) (n : str).
#[local] Abbreviation c := (k ++ [n]).

Lemma create_dir_spec fs : tree_ok (nodes fs) -> straight (nodes fs) c ->
  ends (create_dir (abs c)) fs (fun r fs' => held fs' = held fs /\ calm fs fs' /\ tree_ok (nodes fs') /\
    match r with
    | Ok _ => nodes fs !! c = None /\ nodes fs' = <[c := Dir]> (nodes fs)
    | Err e => nodes fs' = nodes fs /\ (e = AlreadyExists -> is_Some (nodes fs !! c)) end).
Proof.
  intros Ht Hs. apply ends_syscall; intros fs0; [|intros fs1 (Hn & Hh & Hc) Hf; by unfold unharmed; rewrite Hn].
  intros (Hn & Hh & Hc). unfold ends. rewrite Hn, find_snoc by (eauto using straight_app). simpl.
  destruct (nodes fs !! k) as [[]|] eqn:E; simpl; try by rewrite Hn.
  destruct (nodes fs !! c) eqn:E'; simpl; [rewrite Hn; split_and!; eauto|].
  split_and!; auto using tree_ok_insert.
Qed.

(** A file created at [c], and the marker the Unix lock leaves *)
Lemma open_new_spec fs : tree_ok (nodes fs) -> straight (nodes fs) k ->
  ends (open_new (abs c)) fs (fun r fs' => held fs' = held fs /\ calm fs fs' /\ tree_ok (nodes fs') /\
    match r with
    | Ok key => key = c /\ nodes fs !! c = None /\ nodes fs !! k = Some Dir /\ nodes fs' = <[c := File []]> (nodes fs)
    | Err e => nodes fs' = nodes fs end).
Proof.
  intros Ht Hs. apply ends_syscall; intros fs0; [|intros fs1 (Hn & Hh & Hc) Hf; by unfold unharmed; rewrite Hn].
  intros (Hn & Hh & Hc). unfold ends. rewrite Hn, find_snoc by auto.
  destruct (nodes fs !! k) as [[]|] eqn:E; simpl; try by rewrite Hn.
  destruct (nodes fs !! c) eqn:E'; simpl; [by rewrite Hn|].
  split_and!; try done. apply tree_ok_insert; [done..|left; by rewrite E'].
Qed.

Lemma straight_not_link ns : straight ns c -> forall t, ns !! c <> Some (Link t).
Proof. intros Hs t E. specialize (Hs c (reflexivity _)). by rewrite E in Hs. Qed.

(** The exclusive handle is new, and a file it finds keeps its content. *)
Lemma open_exclusive_spec fs : tree_ok (nodes fs) -> straight (nodes fs) c ->
  ends (open_exclusive (abs c)) fs (fun r fs' => calm fs fs' /\ tree_ok (nodes fs') /\
    match r with
    | Ok key => key = c /\ (c ∉ held fs) /\ held fs' = {[c]} ∪ held fs /\ nodes fs !! c <> Some Dir
                /\ ((nodes fs' = nodes fs /\ is_Some (nodes fs !! c)) \/ (nodes fs !! c = None /\ nodes fs' = <[c := File []]> (nodes fs)))
    | Err e => nodes fs' = nodes fs /\ held fs' = held fs end).
Proof.
  intros Ht Hs. pose proof (straight_not_link _ Hs) as Hl.
  apply ends_syscall; intros fs0; [|intros fs1 (Hn & Hh & Hc) Hf; by unfold unharmed; rewrite Hn].
  intros (Hn & Hh & Hc). unfold ends. rewrite Hn, Hh, find_snoc by (eauto using straight_app).
  destruct (nodes fs !! k) as [[]|] eqn:E; simpl; try by rewrite Hn.
  case_bool_decide; simpl; [by rewrite Hn|].
  destruct (nodes fs !! c) as [[]|] eqn:E'; simpl; rewrite ?Hn; try (split_and!; by eauto).
  split_and!; try done; [apply tree_ok_insert; [done..|left; by rewrite E']|by right].
Qed.

Lemma file_create_spec fs : tree_ok (nodes fs) -> straight (nodes fs) c ->
  ends (file_create (abs c)) fs (fun r fs' => held fs' = held fs /\ calm fs fs' /\ tree_ok (nodes fs') /\
    match r with
    | Ok key => key = c /\ nodes fs !! c <> Some Dir /\ nodes fs !! k = Some Dir /\ nodes fs' = <[c := File []]> (nodes fs)
    | Err e => nodes fs' = nodes fs end).
Proof.
  intros Ht Hs. pose proof (straight_not_link _ Hs) as Hl.
  apply ends_syscall; intros fs0; [|intros fs1 (Hn & Hh & Hc) Hf; by unfold unharmed; rewrite Hn].
  intros (Hn & Hh & Hc). unfold ends. rewrite Hn, Hh, find_snoc by (eauto using straight_app).
  destruct (nodes fs !! k) as [[]|] eqn:E; simpl; try by rewrite Hn.
  case_bool_decide; simpl; [by rewrite Hn|].
  destruct (nodes fs !! c) as [[]|] eqn:E'; simpl; rewrite ?Hn; try done; (split_and!; try done);
    apply tree_ok_insert; auto; left; by rewrite E'.
Qed.

Lemma write_all_spec fs bytes : tree_ok (nodes fs) -> nodes fs !! k = Some Dir -> nodes fs !! c <> Some Dir ->
  ends (write_all c bytes) fs (fun r fs' => held fs' = held fs /\ calm fs fs' /\ tree_ok (nodes fs') /\
    exists b, nodes fs' = <[c := File b]> (nodes fs) /\ (r = Ok tt -> b = bytes)).
Proof.
  intros Ht Hk Hc. apply ends_syscall; intros fs0.
  - intros (Hn & Hh & Hf). unfold ends. simpl. rewrite Hn. split_and!; eauto using tree_ok_insert.
  - intros fs1 (Hn & Hh & Hf) _. simpl. rewrite Hn. split_and!; eauto using tree_ok_insert. eexists. split; [done|done].
Qed.

Lemma fs_write_spec fs bytes : tree_ok (nodes fs) -> straight (nodes fs) c ->
  ends (fs_write (abs c) bytes) fs (fun r fs' => held fs' = held fs /\ calm fs fs' /\ tree_ok (nodes fs') /\
    (nodes fs' = nodes fs \/ exists b, nodes fs !! c <> Some Dir /\ nodes fs' = <[c := File b]> (nodes fs))).
Proof.
  intros Ht Hs. eapply ends_bind_mono; [by apply file_create_spec|..].
  2: { intros e fs' (Hh & Hc & Ht' & Hn). split_and!; auto. }
  intros key fs1 (Hh & Hc & Ht1 & -> & Hnd & Hk & Hn). eapply ends_mono; [apply write_all_spec; [done|..]|].
  - rewrite Hn, lookup_insert_ne; [done|]. intros E. apply (f_equal length) in E. rewrite length_app in E. simpl in E. lia.
  - by rewrite Hn, lookup_insert_eq.
  - intros r fs2 (Hh2 & Hc2 & Ht2 & b & Hn2 & _). unfold calm in *. split_and!; [congruence|auto|done|].
    right. exists b. split; [done|]. by rewrite Hn2, Hn, insert_insert_eq.
Qed.

Lemma remove_dir_all_spec fs : tree_ok (nodes fs) -> straight (nodes fs) c -> nodes fs !! c = Some Dir ->
  ends (remove_dir_all (abs c)) fs (fun r fs' => held fs' = held fs /\ calm fs fs' /\ tree_ok (nodes fs') /\
    (forall d, nodes fs' !! d = nodes fs !! d \/ (c `prefix_of` d /\ nodes fs' !! d = None)) /\
    (r = Ok tt -> nodes fs' = remove_below (nodes fs) c)).
Proof.
  intros Ht Hs Hd. assert (Hf : find (nodes fs) false (abs c) = Ok c) by (apply find_present; eauto).
  apply ends_syscall; intros fs0.
  - intros (Hn & Hh & Hc). unfold ends. rewrite Hn, Hf, Hd. simpl. split_and!; try done.
    + apply tree_ok_remove_below; [done|by destruct k].
    + intros d. rewrite lookup_remove_below. destruct (below c d) eqn:E; [right; by apply below_spec in E|by left].
  - intros fs1 (Hn & Hh & Hc) _. rewrite Hn, Hf, bool_decide_true by done. simpl. split_and!; try done.
    + by apply tree_ok_remove_some.
    + intros d. destruct (lookup_remove_some (nodes fs) c (gone fs0) d) as [->|(-> & Hp & _)]; auto.
Qed.

Lemma remove_file_spec fs : tree_ok (nodes fs) -> straight (nodes fs) c ->
  ends (remove_file (abs c)) fs (fun r fs' => held fs' = held fs /\ calm fs fs' /\ tree_ok (nodes fs') /\
    match r with
    | Ok _ => nodes fs !! c <> Some Dir /\ nodes fs' = delete c (nodes fs)
    | Err e => nodes fs' = nodes fs end).
Proof.
  intros Ht Hs. apply ends_syscall; intros fs0; [|intros fs1 (Hn & Hh & Hc) Hf; by unfold unharmed; rewrite Hn].
  intros (Hn & Hh & Hc). unfold ends. rewrite Hn, find_snoc by (eauto using straight_app). simpl.
  destruct (nodes fs !! k) as [[]|] eqn:E; simpl; try by rewrite Hn.
  destruct (nodes fs !! c) as [[]|] eqn:E'; simpl; rewrite ?Hn; try done;
    (split_and!; try done; apply tree_ok_delete; [done|by destruct k|congruence]).
Qed.

End Writes.

(** ** Creating directories *)

(** Directories appear on the way to [k], and nothing else changes. *)
Definition dirs_added (k : Key) (ns ns' : Nodes) : Prop :=
  forall d, ns' !! d = ns !! d \/ (ns !! d = None /\ ns' !! d = Some Dir /\ d `prefix_of` k).

Lemma dirs_added_refl k ns : dirs_added k ns ns.
Proof. intros d. by left. Qed.

Lemma dirs_added_trans k ns1 ns2 ns3 : dirs_added k ns1 ns2 -> dirs_added k ns2 ns3 -> dirs_added k ns1 ns3.
Proof.
  intros H1 H2 d. destruct (H1 d) as [E1|(N1 & D1 & P1)], (H2 d) as [E2|(N2 & D2 & P2)].
  - left. congruence.
  - right. split_and!; [congruence|done|done].
  - right. split_and!; [done|congruence|done].
  - congruence.
Qed.

Lemma dirs_added_prefix k k' ns ns' : k `prefix_of` k' -> dirs_added k ns ns' -> dirs_added k' ns ns'.
Proof. intros Hp H d. destruct (H d) as [?|(? & ? & ?)]; [by left|right]. split_and!; [done|done|by etransitivity]. Qed.

Lemma dirs_added_straight k ns ns' c : dirs_added k ns ns' -> straight ns c -> straight ns' c.
Proof. intros H Hs p Hp. specialize (Hs p Hp). by destruct (H p) as [->|(_ & -> & _)]. Qed.

Lemma create_dir_any k fs : tree_ok (nodes fs) -> straight (nodes fs) k ->
  ends (create_dir (abs k)) fs (fun r fs' => held fs' = held fs /\ calm fs fs' /\ tree_ok (nodes fs') /\
    dirs_added k (nodes fs) (nodes fs')).
Proof.
  intros Ht Hs. destruct k as [|n k _] using rev_ind.
  - apply ends_syscall; [|intros f fs0 (Hn & Hh & Hc) _; unfold unharmed; rewrite Hn; auto using dirs_added_refl].
    intros fs0 (Hn & Hh & Hc). unfold ends. simpl. rewrite Hn, (proj1 Ht). simpl. rewrite Hn. auto using dirs_added_refl.
  - eapply ends_mono; [by apply create_dir_spec|]. intros r fs' (Hh & Hc & Ht' & Hr). split_and!; auto.
    destruct r as [?|e]; [destruct Hr as [Hnone ->]|destruct Hr as [-> _]; apply dirs_added_refl].
    intros d. destruct (decide (d = k ++ [n])) as [->|Hd]; [|left; by rewrite lookup_insert_ne].
    right. by rewrite lookup_insert_eq.
Qed.

Lemma path_is_reads ns f p : reads ns (path_is f p) (fun _ => True).
Proof. eapply reads_attempt; [apply reads_look|]. intros r _. by apply reads_ret. Qed.

Lemma path_parent_abs k n : path_parent (abs (k ++ [n])) = Some (abs k).
Proof.
  unfold abs. rewrite fmap_app. unfold path_parent. destruct ((Normal <$> k) ++ (Normal <$> [n])) as [|c l] eqn:E; [by destruct k|].
  rewrite <- E. f_equal. simpl. rewrite length_app. simpl. rewrite Nat.sub_0_r, Nat.add_1_r. simpl. f_equal.
  rewrite take_app_le, take_ge by lia. done.
Qed.

Lemma create_dir_all_spec fuel : forall k fs, tree_ok (nodes fs) -> straight (nodes fs) k ->
  ends (create_dir_all_go fuel (abs k)) fs (fun r fs' => held fs' = held fs /\ calm fs fs' /\ tree_ok (nodes fs') /\
    dirs_added k (nodes fs) (nodes fs')).
Proof.
  induction fuel as [|fuel IH]; intros k fs Ht Hs; cbn [create_dir_all_go]; [unfold ends, calm; simpl; auto using dirs_added_refl|].
  assert (Hdir : forall e fs1, held fs1 = held fs -> calm fs fs1 -> tree_ok (nodes fs1) -> dirs_added k (nodes fs) (nodes fs1) ->
    ends (d ← path_is (fun m => match m with Dir => true | _ => false end) (abs k); if (d : bool) then mret tt else throw e) fs1
      (fun r fs' => held fs' = held fs /\ calm fs fs' /\ tree_ok (nodes fs') /\ dirs_added k (nodes fs) (nodes fs'))).
  { intros e fs1 Hh Hc Ht1 Hd. eapply (ends_reads _ _ _ (fun _ => True)); [eapply reads_mono; [apply path_is_reads|by intros]|..].
    - intros [] fs2 (Hn2 & Hh2 & Hc2) _; unfold ends, calm in *; simpl; rewrite Hn2; (split_and!; [congruence|auto|done|done]).
    - intros er fs2 (Hn2 & Hh2 & Hc2). unfold calm in *. rewrite Hn2. split_and!; [congruence|auto|done|done]. }
  eapply ends_attempt_bind; [by apply create_dir_any|]. intros r fs1 (Hh1 & Hc1 & Ht1 & Hd1).
  destruct r as [?|e]; [by split_and!|]. destruct e; try by apply Hdir.
  destruct k as [|n k _] using rev_ind; [by split_and!|]. rewrite path_parent_abs.
  assert (Hs1 : straight (nodes fs1) (k ++ [n])) by by eapply dirs_added_straight.
  eapply ends_bind_mono; [apply IH; [done|by eapply straight_app]|..].
  2: { intros er fs2 (Hh2 & Hc2 & Ht2 & Hd2). unfold calm in *. split_and!; [congruence|auto|done|].
       eapply dirs_added_trans; [done|]. eapply dirs_added_prefix; [|done]. by apply prefix_app_r. }
  intros [] fs2 (Hh2 & Hc2 & Ht2 & Hd2).
  assert (Hd12 : dirs_added (k ++ [n]) (nodes fs) (nodes fs2)).
  { eapply dirs_added_trans; [done|]. eapply dirs_added_prefix; [|done]. by apply prefix_app_r. }
  eapply ends_attempt_bind; [apply create_dir_any; [done|by eapply dirs_added_straight]|].
  intros r fs3 (Hh3 & Hc3 & Ht3 & Hd3).
  assert (Hall : held fs3 = held fs /\ calm fs fs3 /\ tree_ok (nodes fs3) /\ dirs_added (k ++ [n]) (nodes fs) (nodes fs3)).
  { unfold calm in *. split_and!; [congruence|auto|done|by eapply dirs_added_trans]. }
  destruct r as [?|e]; [done|]. by apply Hdir; apply Hall.
Qed.

(** ** Names and paths *)

(** A string that is one name on every platform *)
Definition plain_name (n : str) : Prop :=
  n <> [] /\ Forall (fun c => is_sep true c = false) n /\ n <> lit "." /\ n <> lit "..".

Lemma plain_name_sep w n : plain_name n -> Forall (fun c => is_sep w c = false) n.
Proof.
  intros (_ & H & _). eapply Forall_impl; [exact H|]. intros c. unfold is_sep. simpl.
  intros Hc. apply orb_false_elim in Hc as [-> Hc]. by destruct w.
Qed.

Lemma part_component_name n : plain_name n -> part_component n = Some (Normal n).
Proof. intros (H0 & _ & H1 & H2). unfold part_component. by rewrite !bool_decide_false. Qed.

Lemma components_name w n : plain_name n -> components w n = [Normal n].
Proof.
  intros Hn. pose proof (plain_name_sep w n Hn) as Hs. unfold components.
  rewrite split_none by done. cbn [omap list_omap head]. rewrite part_component_name by done.
  destruct Hn as (H0 & _ & H1 & _). rewrite !bool_decide_false; [done|congruence|].
  destruct n as [|x n]; [done|]. apply Forall_cons in Hs as [Hx _]. simpl. congruence.
Qed.

Lemma join_name w k n : plain_name n -> join_path w (abs k) n = abs (k ++ [n]).
Proof. intros. unfold join_path. rewrite components_name by done. unfold abs. simpl. by rewrite fmap_app. Qed.
