(* ===== verification/PortableCache.v ===== *)
(** * The cache of the portable package

    [libs/portable/src/homedesk_cache.rs]: the portable package unpacks into a
    directory of its brand and version under the user's data directory.  A scope
    names that directory; preparing it takes a lock, refuses a directory that
    does not carry this package's marker, clears it when it is stale, and marks
    it; once all is unpacked the directory is marked ready.  [windows] selects
    between the two builds of the lock and of path separators. *)
From stdpp Require Import base gmap list strings.
From Stdlib Require Import ZArith Lia.
From S2P Require Import Prelude RustStr Effects FileSystem.

Definition OWNER_FILE : str := lit ".homedesk-portable-owner".
Definition META_FILE : str := lit "meta.toml".
Definition MAX_MARKER : Z := 512.

(** ** Names and metadata *)

(** [["COM", "LPT"].iter().any(..)] on an upper-case name *)
Definition serial_device (upper : str) : bool :=
  existsb (fun prefix => match strip_prefix prefix upper with
    | Some number => match str_bytes number with [b] => (49 <=? b) && (b <=? 57) | _ => false end
    | None => false end) [lit "COM"; lit "LPT"].
Definition named_device (upper : str) : bool :=
  bool_decide (upper ∈ [lit "CON"; lit "PRN"; lit "AUX"; lit "NUL"]).

Definition namespace_valid (value : str) : bool :=
  if bool_decide (value = []) || (64 <? str_len value)
     || negb (forallb (fun b => is_ascii_alphanumeric b || (b =? 95) || (b =? 45)) (str_bytes value))
  then false
  else let upper := to_ascii_uppercase value in negb (named_device upper) && negb (serial_device upper).

(** One line of the metadata after what was found before it *)
Definition metadata_line (found : option Z) (line : str) : result ErrorKind (option Z) :=
  let line := trim line in
  if bool_decide (line = []) || starts_with (lit "#") line then Ok found
  else match split_once 61 line with
       | None => Err InvalidInput
       | Some (name, value) =>
         if negb (bool_decide (trim name = lit "timestamp")) then Ok found
         else if bool_decide (is_Some found) then Err InvalidInput
         else
           let value := trim value in
           if bool_decide (value = []) || negb (forallb is_ascii_digit (str_bytes value)) then Err InvalidInput
           else match parse_u 64 value with
                | None => Err InvalidInput
                | Some timestamp => if timestamp =? 0 then Err InvalidInput else Ok (Some timestamp)
                end
       end.

Fixpoint metadata_lines (found : option Z) (ls : list str) : result ErrorKind (option Z) :=
  match ls with [] => Ok found | l :: r => found ← metadata_line found l; metadata_lines found r end.

Definition metadata_timestamp (bytes : list Z) : result ErrorKind Z :=
  text ← ok_or (from_utf8 bytes) InvalidInput;
  found ← metadata_lines None (lines text);
  ok_or found InvalidInput.

(** ** Directories without links *)

Definition has_reparse (metadata : Node) : bool := match metadata with Link _ => true | _ => false end.
Definition is_dir (metadata : Node) : bool := match metadata with Dir => true | _ => false end.
Definition is_file (metadata : Node) : bool := match metadata with File _ => true | _ => false end.
Definition node_len (metadata : Node) : Z := match metadata with File b => Z.of_nat (length b) | _ => 0 end.

Fixpoint no_links_from (prefix p : Path) : Io unit :=
  match p with
  | [] => mret tt
  | component :: rest =>
    if bool_decide (component = ParentDir \/ component = CurDir) then throw InvalidInput
    else
      let prefix := prefix ++ [component] in
      r ← attempt (symlink_metadata prefix);
      match r with
      | Ok m => if has_reparse m then throw InvalidInput else no_links_from prefix rest
      | Err NotFound => no_links_from prefix rest
      | Err e => throw e
      end
  end.

Definition no_links (p : Path) : Io unit :=
  if is_absolute p then no_links_from [] p else throw InvalidInput.

Definition plain_directory (p : Path) : Io unit :=
  _ ← no_links p;
  m ← symlink_metadata p;
  if negb (is_dir m) || has_reparse m then throw InvalidInput else mret tt.

Definition make_directory (p : Path) : Io unit :=
  _ ← no_links p;
  r ← attempt (create_dir p);
  match r with Ok _ | Err AlreadyExists => plain_directory p | Err e => throw e end.

Definition read_small (p : Path) : Io (list Z) :=
  _ ← no_links p;
  m ← symlink_metadata p;
  if negb (is_file m) || (MAX_MARKER <? node_len m) || has_reparse m then throw InvalidInput
  else
    k ← open_read p;
    bytes ← read_bytes k (MAX_MARKER + 1);
    if MAX_MARKER <? Z.of_nat (length bytes) then throw InvalidInput else mret bytes.

Section Platform.
Context (windows : bool).

(** The names a package file may not have *)
Definition refused_name (name : str) : bool :=
  let stem := default [] (head (split_char 46 name)) in
  let upper := to_ascii_uppercase stem in
  ends_with (lit ".") name || ends_with (lit " ") name
  || existsb (fun c => bool_decide (c ∈ lit "<>|?*")) name
  || (negb (namespace_valid stem) && named_device upper)
  || serial_device upper.

Definition component_name (c : Component) : str :=
  match c with Normal n => n | RootDir => lit "/" | CurDir => lit "." | ParentDir => lit ".." end.
Definition is_normal (c : Component) : bool := match c with Normal _ => true | _ => false end.

Definition relative_path (value : str) : result ErrorKind Path :=
  if bool_decide (value = []) || existsb (fun b => (b <? 32) || (b =? 127) || (b =? 58)) (str_bytes value)
  then Err InvalidInput
  else
    let normalized := (fun c => if c =? 92 then 47 else c) <$> value in
    let normalized := default normalized (strip_prefix (lit "./") normalized) in
    if bool_decide (normalized = [])
       || existsb (fun part => bool_decide (part ∈ [[]; lit "."; lit ".."])) (split_char 47 normalized)
    then Err InvalidInput
    else
      let path := components windows normalized in
      if existsb (fun c => negb (is_normal c)) path || ends_with (lit "/") normalized then Err InvalidInput
      else if existsb (fun c => refused_name (component_name c)) path then Err InvalidInput
      else Ok path.

(** [scan_tree], with the depth of the tree as fuel: the body of its loop, and
    the recursion *)
Fixpoint scan_entries (scan : Path -> Io unit) (p : Path) (names : list str) : Io unit :=
  match names with
  | [] => mret tt
  | name :: r =>
    _ ← look (fun _ => Ok tt);
    let p' := p ++ [Normal name] in
    _ ← no_links p';
    m ← symlink_metadata p';
    if has_reparse m then throw InvalidInput
    else _ ← (if is_dir m then scan p' else if is_file m then mret tt else throw InvalidInput);
         scan_entries scan p r
  end.
Fixpoint scan_go (fuel : nat) (p : Path) : Io unit :=
  match fuel with
  | O => throw FilesystemLoop
  | S fuel => names ← read_dir p; scan_entries (scan_go fuel) p names
  end.
Definition depth (ns : Nodes) : nat := map_fold (fun k _ d => S (length k) `max` d)%nat 1%nat ns.
Definition scan_tree (p : Path) : Io unit := fun fs => scan_go (depth (nodes fs)) p fs.

(** ** The scope *)

Record CacheScope := mkScope {
  base : Path; namespace : str; timestamp : Z; package_id : str; version : Path }.

Definition version_path (base : Path) (namespace : str) (timestamp : Z) : Path :=
  join_path windows (join_path windows (join_path windows base namespace) (lit "portable")) (fmt_Z timestamp).

(** [CacheScope::new] *)
Definition scope_new (base : Path) (namespace : str) (metadata : list Z) (package_id : str) : Io CacheScope :=
  if negb (namespace_valid namespace) then throw InvalidInput
  else if negb (str_len package_id =? 32) || negb (forallb is_ascii_hexdigit (str_bytes package_id)) then throw InvalidInput
  else
    _ ← plain_directory base;
    base ← canonicalize base;
    timestamp ← lift (metadata_timestamp metadata);
    let version := version_path base namespace timestamp in
    _ ← no_links version;
    mret (mkScope base namespace timestamp (to_ascii_lowercase package_id) version).

Definition owner (s : CacheScope) : str :=
  lit "HOMEDESK_PORTABLE_OWNER_V1" ++ [10] ++ lit "namespace=" ++ namespace s ++ [10]
  ++ lit "timestamp=" ++ fmt_Z (timestamp s) ++ [10] ++ lit "package=" ++ package_id s ++ [10].

Definition validate_target (s : CacheScope) (target : Path) : Io unit :=
  if negb (bool_decide (target = version s)) then throw InvalidInput
  else
    _ ← plain_directory (base s);
    _ ← no_links target;
    let expected := version_path (base s) (namespace s) (timestamp s) in
    e ← path_exists target;
    if (e : bool) then c ← canonicalize target; if bool_decide (c = expected) then mret tt else throw InvalidInput
    else mret tt.

Definition verify_owner (s : CacheScope) : Io unit :=
  _ ← validate_target s (version s);
  _ ← plain_directory (version s);
  bytes ← read_small (join_path windows (version s) OWNER_FILE);
  if bool_decide (bytes = str_bytes (owner s)) then mret tt else throw InvalidInput.

Definition clear_version_using (s : CacheScope) (target : Path) (remove : Path -> Io unit) : Io unit :=
  _ ← validate_target s target;
  _ ← verify_owner s;
  _ ← scan_tree target;
  remove target.
Definition clear_version (s : CacheScope) (target : Path) : Io unit := clear_version_using s target remove_dir_all.

(** ** Preparing *)

Record PreparedCache := mkPrepared { scope : CacheScope; lock_path : Path; lock : Key; changed : bool }.

Definition lock_name (s : CacheScope) : str := lit "." ++ fmt_Z (timestamp s) ++ lit ".lock".
Definition open_lock (p : Path) : Io Key := if windows then open_exclusive p else open_new p.

(** [Drop for PreparedCache] *)
Definition cache_drop (c : PreparedCache) : Io unit :=
  if windows then close_exclusive (lock c)
  else r ← attempt (no_links (lock_path c));
       if is_ok r then ignore (remove_file (lock_path c)) else mret tt.

(** What follows the construction of the prepared cache; [clear || !matches] *)
Definition refresh_version (s : CacheScope) (clear : bool) (changed0 : bool) : Io bool :=
  e ← path_exists (version s);
  if (e : bool) then
    _ ← verify_owner s;
    meta ← attempt (read_small (join_path windows (version s) META_FILE));
    let matches := match meta ≫= metadata_timestamp with Ok value => value =? timestamp s | Err _ => false end in
    if clear || negb matches then _ ← clear_version s (version s); mret true else mret changed0
  else mret changed0.

Definition create_version (s : CacheScope) : Io unit :=
  e ← path_exists (version s);
  if (e : bool) then mret tt
  else
    _ ← make_directory (version s);
    marker ← open_new (join_path windows (version s) OWNER_FILE);
    _ ← write_all marker (str_bytes (owner s));
    sync_all marker.

(** A failure after the lock is taken drops the prepared cache. *)
Definition or_drop {A} (c : PreparedCache) (m : Io A) : Io A := fun fs =>
  match m fs with
  | (Ok a, fs') => (Ok a, fs')
  | (Err e, fs') => (Err e, (cache_drop c fs').2)
  end.

Definition prepare (s : CacheScope) (clear : bool) : Io PreparedCache :=
  _ ← validate_target s (version s);
  let brand := join_path windows (base s) (namespace s) in
  _ ← make_directory brand;
  let portable := join_path windows brand (lit "portable") in
  _ ← make_directory portable;
  let lock_path := join_path windows portable (lock_name s) in
  _ ← no_links lock_path;
  lock ← open_lock lock_path;
  e ← path_exists (version s);
  let prepared := mkPrepared s lock_path lock (negb e) in
  or_drop prepared (
    changed ← refresh_version s clear (negb e);
    _ ← create_version s;
    _ ← verify_owner s;
    mret (mkPrepared s lock_path lock changed)).

(** [PreparedCache::target] and [mark_ready] *)
Definition target (c : PreparedCache) (relative : str) : Io Path :=
  _ ← verify_owner (scope c);
  rel ← lift (relative_path relative);
  let path := version (scope c) ++ rel in
  _ ← no_links path;
  mret path.

Definition mark_ready (c : PreparedCache) : Io unit :=
  _ ← verify_owner (scope c);
  _ ← scan_tree (version (scope c));
  path ← target c META_FILE;
  file ← file_create path;
  _ ← write_all file (str_bytes (lit "timestamp = " ++ fmt_Z (timestamp (scope c)) ++ [10]));
  sync_all file.

End Platform.

(** ** What the checks establish

    Each lemma says what a check leaves unchanged and what its success means,
    whatever faults the outside injects; [_quiet] that without faults it succeeds. *)

Section Checks.
Context (ns : Nodes) (Ht : tree_ok ns).

Lemma symlink_metadata_child k n : straight ns k ->
  reads ns (symlink_metadata (abs (k ++ [n]))) (fun r => match r with
    | Ok m => ns !! k = Some Dir /\ ns !! (k ++ [n]) = Some m
    | Err NotFound => ns !! (k ++ [n]) = None /\ (ns !! k = Some Dir \/ ns !! k = None)
    | Err _ => True end).
Proof.
  intros Hs. eapply reads_mono; [apply reads_look|]. intros r [->|[c ->]]; [|done].
  rewrite find_snoc by auto. unfold node_at. destruct (ns !! k) as [[]|] eqn:E; simpl; try done.
  - destruct (ns !! (k ++ [n])) eqn:E'; simpl; auto.
  - split; [by apply tree_ok_missing|auto].
Qed.

Lemma no_links_from_spec r : forall k, straight ns k ->
  reads ns (no_links_from (abs k) (Normal <$> r)) (if_ok (fun _ => straight ns (k ++ r))).
Proof.
  induction r as [|n r IH]; intros k Hs; [apply reads_ret; by rewrite app_nil_r; intros ?|].
  cbn [fmap list_fmap no_links_from]. rewrite bool_decide_false by naive_solver.
  replace (abs k ++ [Normal n]) with (abs (k ++ [n])) by (unfold abs; by rewrite fmap_app).
  replace (k ++ n :: r) with ((k ++ [n]) ++ r) by by rewrite <- app_assoc.
  eapply reads_attempt; [apply (symlink_metadata_child _ n Hs)|]. intros [m|e] Hm.
  - destruct (has_reparse m) eqn:El; [by apply reads_throw; intros ?|]. destruct Hm as [Hk Hn].
    apply IH, straight_snoc; [done|by left|]. intros t Hl. rewrite Hn in Hl. by injection Hl as ->.
  - destruct e; try by apply reads_throw; intros ?. apply IH, straight_snoc; [done|tauto|]. intros t. by rewrite (proj1 Hm).
Qed.

(** [no_links] succeeds only on straight paths. *)
Lemma no_links_spec k : reads ns (no_links (abs k)) (if_ok (fun _ => straight ns k)).
Proof.
  unfold no_links. simpl. eapply reads_attempt; [apply reads_look|].
  intros r [->|[c ->]]; [|by apply reads_throw; intros ?].
  unfold node_at. simpl. rewrite (proj1 Ht). simpl. apply (no_links_from_spec k []). by apply straight_root.
Qed.

Lemma symlink_metadata_straight k : straight ns k ->
  reads ns (symlink_metadata (abs k)) (if_ok (fun m => ns !! k = Some m)).
Proof.
  intros Hs. apply reads_look_ok. intros m.
  destruct (find_straight ns false k Ht Hs) as [-> | [-> _]]; [|done]. simpl. unfold node_at. by destruct (ns !! k); intros [= ->].
Qed.

Lemma plain_directory_spec k :
  reads ns (plain_directory (abs k)) (if_ok (fun _ => straight ns k /\ ns !! k = Some Dir)).
Proof.
  eapply reads_then; [apply no_links_spec|]. intros [] Hs. eapply reads_then; [by apply symlink_metadata_straight|].
  intros m Hm. simpl. destruct m; simpl; (by apply reads_ret; intros ?) || (by apply reads_throw; intros ?).
Qed.

Lemma read_small_spec k :
  reads ns (read_small (abs k)) (if_ok (fun b => straight ns k /\ ns !! k = Some (File b) /\ Z.of_nat (length b) <= MAX_MARKER)).
Proof.
  eapply reads_then; [apply no_links_spec|]. intros [] Hs. eapply reads_then; [by apply symlink_metadata_straight|].
  intros m Hm. simpl. destruct (_ || _) eqn:E; [by apply reads_throw; intros ?|]. bools.
  destruct m as [|b| |]; try done. simpl in *.
  assert (Hf : find ns true (abs k) = Ok k) by (apply find_present; eauto).
  eapply (reads_then _ _ _ (fun k' => k' = k)).
  { intros fs <-. apply ends_syscall; [|by intros f fs0 Hfs _; split]. intros fs0 Hfs. split; [done|].
    simpl. rewrite (proj1 Hfs), Hf. unfold node_at. simpl. rewrite Hm. simpl.
    case_bool_decide; [done|]. by intros ? [= <-]. }
  intros ? ->. eapply reads_then; [apply (reads_look_ok _ _ (fun b' => b' = b))|].
  { intros a. rewrite Hm. rewrite take_ge; [congruence|]. unfold MAX_MARKER in *. lia. }
  intros ? ->. destruct (Z.ltb_spec MAX_MARKER (Z.of_nat (length b))); [by apply reads_throw; intros ?|].
  apply reads_ret. by intros ? [= <-].
Qed.

End Checks.

(** ** The keys of a scope *)

Section Scope.
Context (w : bool) (s : CacheScope) (bk : Key).

Definition brand_key : Key := bk ++ [namespace s].
Definition portable_key : Key := brand_key ++ [lit "portable"].
Definition version_key : Key := portable_key ++ [fmt_Z (timestamp s)].
Definition lock_key : Key := portable_key ++ [lock_name s].
Definition owner_key : Key := version_key ++ [OWNER_FILE].
Definition meta_key : Key := version_key ++ [META_FILE].

(** A scope as [scope_new] makes it, at the base [bk] *)
Definition scope_at : Prop :=
  base s = abs bk /\ namespace_valid (namespace s) = true /\ 0 < timestamp s <= u_max 64
  /\ version s = version_path w (base s) (namespace s) (timestamp s).

(** The directory carries this package's marker. *)
Definition owned (ns : Nodes) : Prop :=
  ns !! version_key = Some Dir /\ ns !! owner_key = Some (File (str_bytes (owner s))).

End Scope.

Lemma utf8_ascii c : 0 <= c < 128 -> utf8_char c = [c].
Proof. intros H. unfold utf8_char. by rewrite (proj2 (Z.ltb_lt c 0x80)) by lia. Qed.

(** A string whose bytes are all in an ASCII class has its bytes as characters. *)
Lemma ascii_bytes (P : Z -> bool) s : (forall b, P b = true -> 0 <= b < 128) ->
  forallb P (str_bytes s) = true -> str_bytes s = s.
Proof.
  intros HP H. induction s as [|c s IH]; [done|].
  change (str_bytes (c :: s)) with (utf8_char c ++ str_bytes s) in *. rewrite forallb_app in H. bools.
  rewrite IH by done. unfold utf8_char in *.
  destruct (Z.ltb_spec c 0x80); [done|]. exfalso.
  destruct (Z.ltb_spec c 0x800); [|destruct (Z.ltb_spec c 0x10000)]; simpl in *; bools;
    match goal with H : P (_ + c / _) = true |- _ => apply HP in H; pose proof (Z.div_pos c 64); pose proof (Z.div_pos c 4096); pose proof (Z.div_pos c 262144); lia end.
Qed.

Lemma portable_plain : plain_name (lit "portable").
Proof. split_and!; [done|by repeat constructor|done|done]. Qed.
Lemma owner_file_plain : plain_name OWNER_FILE.
Proof. split_and!; [done|by repeat constructor|done|done]. Qed.
Lemma meta_file_plain : plain_name META_FILE.
Proof. split_and!; [done|by repeat constructor|done|done]. Qed.
#[local] Hint Resolve portable_plain owner_file_plain meta_file_plain : core.

Lemma plain_name_digits z : 0 <= z -> plain_name (fmt_Z z).
Proof.
  intros Hz. pose proof (fmt_Z_digits z Hz) as Hd. pose proof (fmt_Z_nonempty z Hz) as Hn.
  split_and!; [done| |..].
  - eapply Forall_impl; [exact Hd|]. intros c. unfold is_ascii_digit, is_sep. intros Hc. bools. simpl.
    rewrite !(proj2 (Z.eqb_neq _ _)) by lia. done.
  - intros E. rewrite E in Hd. by apply Forall_cons in Hd as [Hc _].
  - intros E. rewrite E in Hd. by apply Forall_cons in Hd as [Hc _].
Qed.

Lemma lock_name_plain s : 0 <= timestamp s -> plain_name (lock_name s).
Proof.
  intros Hz. pose proof (fmt_Z_digits _ Hz) as Hd. pose proof (fmt_Z_nonempty _ Hz) as Hn.
  unfold lock_name. split_and!; [done| |..].
  - repeat (apply Forall_app; split); [by repeat constructor| |by repeat constructor].
    eapply Forall_impl; [exact Hd|]. intros c. unfold is_ascii_digit, is_sep. intros Hc. bools. simpl.
    rewrite !(proj2 (Z.eqb_neq _ _)) by lia. done.
  - destruct (fmt_Z (timestamp s)) as [|c r]; done.
  - destruct (fmt_Z (timestamp s)) as [|c r]; [done|]. intros [= _ E]. by destruct r.
Qed.

Lemma namespace_plain v : namespace_valid v = true -> plain_name v.
Proof.
  unfold namespace_valid. destruct (_ || _) eqn:E; [done|]. intros _. apply orb_false_elim in E as [E Hall].
  apply orb_false_elim in E as [Hne _]. bools.
  assert (Hb : str_bytes v = v).
  { eapply ascii_bytes; [|exact Hall]. intros b Hb.
    unfold is_ascii_alphanumeric, is_ascii_alphabetic, is_ascii_uppercase, is_ascii_lowercase, is_ascii_digit in Hb. lia. }
  rewrite Hb, forallb_forall in Hall. setoid_rewrite <- list_elem_of_In in Hall.
  assert (Hc : forall c, c ∈ v -> c <> 47 /\ c <> 92 /\ c <> 46).
  { intros c Hc. apply Hall in Hc.
    unfold is_ascii_alphanumeric, is_ascii_alphabetic, is_ascii_uppercase, is_ascii_lowercase, is_ascii_digit in Hc. lia. }
  split_and!; [done| |..].
  - apply Forall_forall. intros c Hv. apply Hc in Hv. unfold is_sep. lia.
  - intros ->. destruct (Hc 46) as (_ & _ & ?); [by left|done].
  - intros ->. destruct (Hc 46) as (_ & _ & ?); [by left|done].
Qed.

Section ScopeChecks.
Context (w : bool) (s : CacheScope) (bk : Key) (Hs : scope_at w s bk).

Lemma scope_version : version s = abs (version_key s bk).
Proof.
  destruct Hs as (Hb & Hn & Hts & Hv). rewrite Hv, Hb. unfold version_path.
  rewrite (join_name w bk) by by apply namespace_plain. rewrite join_name by auto.
  rewrite join_name by (apply plain_name_digits; lia). done.
Qed.

Lemma scope_owner_path : join_path w (version s) OWNER_FILE = abs (owner_key s bk).
Proof. rewrite scope_version. by rewrite join_name by auto. Qed.

Lemma scope_meta_path : join_path w (version s) META_FILE = abs (meta_key s bk).
Proof. rewrite scope_version. by rewrite join_name by auto. Qed.

Lemma scope_brand_path : join_path w (base s) (namespace s) = abs (brand_key s bk).
Proof. destruct Hs as (-> & Hn & _). rewrite join_name; [done|by apply namespace_plain]. Qed.

Lemma scope_portable_path : join_path w (abs (brand_key s bk)) (lit "portable") = abs (portable_key s bk).
Proof. by rewrite join_name by auto. Qed.

Lemma scope_lock_path : join_path w (abs (portable_key s bk)) (lock_name s) = abs (lock_key s bk).
Proof. destruct Hs as (_ & _ & Hts & _). rewrite join_name; [done|apply lock_name_plain; lia]. Qed.

Context (ns : Nodes) (Ht : tree_ok ns).

Lemma path_exists_reads p : reads ns (path_exists p) (fun _ => True).
Proof.
  eapply reads_attempt; [apply reads_look|]. intros r _. by apply reads_ret.
Qed.

Lemma validate_target_spec t :
  reads ns (validate_target w s t)
    (if_ok (fun _ => t = version s /\ ns !! bk = Some Dir /\ straight ns (version_key s bk))).
Proof.
  unfold validate_target. destruct (bool_decide (t = version s)) eqn:E; [|by apply reads_throw; intros ?].
  bools. subst t. simpl. destruct Hs as (Hb & _). rewrite Hb, scope_version.
  eapply reads_then; [apply (plain_directory_spec _ Ht)|]. intros [] [_ Hd].
  eapply reads_then; [apply (no_links_spec _ Ht)|]. intros [] Hv.
  eapply (reads_then _ _ _ (fun _ => True)); [eapply reads_mono; [apply path_exists_reads|by intros]|].
  intros [] _; [|by apply reads_ret; intros ?].
  eapply (reads_then _ _ _ (fun _ => True)); [by apply reads_look_ok|].
  intros c _. case_bool_decide; [by apply reads_ret; intros ?|by apply reads_throw; intros ?].
Qed.

(** [verify_owner] succeeds only on a directory with this package's marker. *)
Lemma verify_owner_spec :
  reads ns (verify_owner w s) (if_ok (fun _ =>
    ns !! bk = Some Dir /\ straight ns (version_key s bk) /\ straight ns (owner_key s bk) /\ owned s bk ns
    /\ Z.of_nat (length (str_bytes (owner s))) <= MAX_MARKER)).
Proof.
  unfold verify_owner. eapply reads_then; [apply validate_target_spec|]. intros [] (_ & Hb & Hv).
  rewrite scope_owner_path, scope_version. eapply reads_then; [apply (plain_directory_spec _ Ht)|]. intros [] [_ Hd].
  eapply reads_then; [apply (read_small_spec _ Ht)|]. intros b (Hso & Ho & Hlen).
  case_bool_decide as E; [|by apply reads_throw; intros ?]. apply reads_ret. intros _ _. subst b. by unfold owned.
Qed.

End ScopeChecks.

(** ** What the operations change *)

(** A directory appears at [c], or nothing changes. *)
Definition grown (c : Key) (ns ns' : Nodes) : Prop :=
  ns' = ns \/ (ns !! c = None /\ ns' = <[c := Dir]> ns).

Lemma make_directory_spec k n fs : tree_ok (nodes fs) ->
  ends (make_directory (abs (k ++ [n]))) fs (fun r fs' =>
    held fs' = held fs /\ calm fs fs' /\ tree_ok (nodes fs') /\ grown (k ++ [n]) (nodes fs) (nodes fs') /\
    (r = Ok tt -> straight (nodes fs') (k ++ [n]) /\ nodes fs' !! (k ++ [n]) = Some Dir)).
Proof.
  intros Ht. eapply ends_reads; [by apply no_links_spec|..].
  2: { intros e fs' (Hn & Hh & Hc). rewrite Hn. split_and!; try done. by left. }
  intros [] fs1 (Hn1 & Hh1 & Hc1) Hs. rewrite <- Hn1 in Hs, Ht.
  eapply ends_attempt_bind; [by apply create_dir_spec|]. rewrite Hn1, Hh1.
  intros r fs2 (Hh2 & Hc2 & Ht2 & Hr).
  assert (Hg : grown (k ++ [n]) (nodes fs) (nodes fs2)) by (destruct r; [by right|by left; destruct Hr]).
  assert (Hplain : ends (plain_directory (abs (k ++ [n]))) fs2 (fun x fs' => held fs' = held fs /\ calm fs fs' /\
    tree_ok (nodes fs') /\ grown (k ++ [n]) (nodes fs) (nodes fs') /\
    (x = Ok tt -> straight (nodes fs') (k ++ [n]) /\ nodes fs' !! (k ++ [n]) = Some Dir))).
  { eapply ends_mono; [by apply (plain_directory_spec (nodes fs2) Ht2)|].
    intros x fs' [(Hn & Hh & Hc) Hx]. rewrite Hn. split_and!; [congruence|unfold calm in *; auto|done|done|by apply Hx]. }
  destruct r as [[]|e]; [done|]. destruct e; try done;
    (apply ends_throw; split_and!; try done; unfold calm in *; auto).
Qed.

(** ** Scanning *)

Definition plain_node (x : Node) : Prop := x = Dir \/ exists b, x = File b.

(** Below [k] there are only directories and files. *)
Definition plain_below (ns : Nodes) (k : Key) : Prop :=
  forall n r x, ns !! (k ++ n :: r) = Some x -> plain_node x.

Section Scan.
Context (ns : Nodes) (Ht : tree_ok ns).

Lemma abs_snoc k n : abs k ++ [Normal n] = abs (k ++ [n]).
Proof. unfold abs. by rewrite fmap_app. Qed.

Lemma scan_entries_spec (scan : Path -> Io unit) k names :
  (forall k', straight ns k' -> ns !! k' = Some Dir -> reads ns (scan (abs k')) (if_ok (fun _ => plain_below ns k'))) ->
  reads ns (scan_entries scan (abs k) names)
    (if_ok (fun _ => forall n r x, n ∈ names -> ns !! (k ++ n :: r) = Some x -> plain_node x)).
Proof.
  intros Hscan. induction names as [|n names IH]; cbn [scan_entries]; [apply reads_ret; intros ? _ ??? H; by apply not_elem_of_nil in H|].
  rewrite abs_snoc. eapply (reads_then _ _ _ (fun _ => True)); [by apply reads_look_ok|]. intros [] _.
  eapply reads_then; [by apply no_links_spec|]. intros [] Hs.
  eapply reads_then; [by apply symlink_metadata_straight|]. intros m Hm. cbv beta in Hm.
  destruct (has_reparse m) eqn:El; [by apply reads_throw; intros ?|].
  assert (Hhead : reads ns (if is_dir m then scan (abs (k ++ [n])) else if is_file m then mret tt else throw InvalidInput)
    (if_ok (fun _ => forall r x, ns !! (k ++ n :: r) = Some x -> plain_node x))).
  { destruct m as [|b| |]; simpl; try by apply reads_throw; intros ?.
    - eapply reads_mono; [by apply Hscan|]. intros r Hr a Ha [|n' r'] x Hx; [rewrite Hm in Hx; injection Hx as <-; by left|].
      apply (Hr a Ha n' r'). by rewrite <- app_assoc.
    - apply reads_ret. intros _ _ [|n' r'] x Hx; [rewrite Hm in Hx; injection Hx as <-; right; eauto|].
      replace (k ++ n :: n' :: r') with ((k ++ [n]) ++ n' :: r') in Hx by by rewrite <- app_assoc.
      apply (mk_is_Some) in Hx. apply tree_ok_above in Hx; [congruence|done|done]. }
  eapply reads_then; [exact Hhead|]. intros [] Hh. eapply reads_mono; [exact IH|].
  intros r Hr a Ha n' r' x Hn' Hx. apply elem_of_cons in Hn' as [->|Hn']; [by eapply Hh|]. by eapply (Hr a Ha).
Qed.

Lemma scan_go_spec fuel : forall k, straight ns k -> ns !! k = Some Dir ->
  reads ns (scan_go fuel (abs k)) (if_ok (fun _ => plain_below ns k)).
Proof.
  induction fuel as [|fuel IH]; intros k Hs Hk; simpl; [by apply reads_throw; intros ?|].
  eapply (reads_then _ _ _ (fun names => names = children ns k)).
  { apply reads_look_ok. intros names. rewrite find_present by eauto. simpl. rewrite Hk. by intros [= <-]. }
  intros names ->. eapply reads_mono; [by apply scan_entries_spec|]. intros r Hr a Ha n r' x Hx.
  eapply (Hr a Ha); [|exact Hx]. apply elem_of_children.
  destruct (ns !! (k ++ [n])) eqn:E; [eauto|]. apply (tree_ok_missing _ _ r' Ht) in E.
  rewrite <- app_assoc in E. simpl in E. congruence.
Qed.

End Scan.

Lemma depth_spec ns k : is_Some (ns !! k) -> (length k < depth ns)%nat.
Proof.
  unfold depth. intros [x Hx]. revert x Hx. apply (map_fold_weak_ind (fun d m => forall x, m !! k = Some x -> (length k < d)%nat)).
  - intros x. by rewrite lookup_empty.
  - intros i x m d Hi IH y. destruct (decide (i = k)) as [->|Hne]; [intros _; lia|].
    rewrite lookup_insert_ne by done. intros Hy. apply IH in Hy. lia.
Qed.

Lemma scan_tree_spec ns k : tree_ok ns -> straight ns k -> ns !! k = Some Dir ->
  reads ns (scan_tree (abs k)) (if_ok (fun _ => plain_below ns k)).
Proof. intros Ht Hs Hk fs Hfs. by apply (scan_go_spec ns Ht (depth (nodes fs)) k Hs Hk). Qed.

(** ** Without faults the checks succeed *)

Section Quiet.
Context (fs : Fs) (Hq : faults fs = []) (Ht : tree_ok (nodes fs)).

Lemma no_links_from_quiet r : forall k, straight (nodes fs) (k ++ r) ->
  no_links_from (abs k) (Normal <$> r) fs = (Ok tt, fs).
Proof.
  induction r as [|n r IH]; intros k Hs; [done|].
  cbn [fmap list_fmap no_links_from]. rewrite bool_decide_false by naive_solver. rewrite abs_snoc.
  assert (Hs' : straight (nodes fs) ((k ++ [n]) ++ r)) by by rewrite <- app_assoc.
  pose proof (straight_app _ _ _ Hs') as Hn. pose proof (straight_app _ _ _ Hn) as Hk.
  erewrite bind_run; [|eapply attempt_run, look_quiet; done]. rewrite find_snoc by auto. unfold node_at.
  destruct (straight_prefix _ k [n] Hn ltac:(done) k (reflexivity _)) as [-> | ->]; simpl; [by apply IH|].
  destruct (nodes fs !! (k ++ [n])) as [m|] eqn:E; simpl; [|by apply IH].
  destruct (has_reparse m) eqn:El; [|by apply IH]. destruct m; try done. by apply straight_not_link in E.
Qed.

Lemma no_links_quiet k : straight (nodes fs) k -> no_links (abs k) fs = (Ok tt, fs).
Proof.
  intros Hs. unfold no_links. simpl. erewrite bind_run; [|eapply attempt_run, look_quiet; done].
  unfold node_at. simpl. rewrite (proj1 Ht). simpl. by apply (no_links_from_quiet k []).
Qed.

Lemma symlink_metadata_quiet k m : straight (nodes fs) k -> nodes fs !! k = Some m ->
  symlink_metadata (abs k) fs = (Ok m, fs).
Proof.
  intros Hs Hm. unfold symlink_metadata. rewrite look_quiet, find_present by eauto. unfold node_at. simpl. by rewrite Hm.
Qed.

Lemma plain_directory_quiet k : straight (nodes fs) k -> nodes fs !! k = Some Dir -> plain_directory (abs k) fs = (Ok tt, fs).
Proof.
  intros Hs Hd. unfold plain_directory. erewrite bind_run; [|by apply no_links_quiet].
  by erewrite bind_run; [|by apply symlink_metadata_quiet].
Qed.

Lemma read_small_quiet k b : straight (nodes fs) k -> nodes fs !! k = Some (File b) -> Z.of_nat (length b) <= MAX_MARKER ->
  k ∉ held fs -> read_small (abs k) fs = (Ok b, fs).
Proof.
  intros Hs Hb Hl Hh. unfold read_small. erewrite bind_run; [|by apply no_links_quiet].
  erewrite bind_run; [|by apply symlink_metadata_quiet]. simpl. rewrite (proj2 (Z.ltb_ge _ _)) by lia. simpl.
  erewrite (bind_run (open_read _)); [|unfold open_read, syscall; rewrite Hq, find_present by eauto; unfold node_at; simpl;
    rewrite Hb; simpl; by rewrite bool_decide_false].
  erewrite (bind_run (read_bytes _ _)); [|unfold read_bytes; rewrite look_quiet, Hb by done; reflexivity].
  unfold MAX_MARKER in *. rewrite take_ge by lia. by rewrite (proj2 (Z.ltb_ge _ _)) by lia.
Qed.

Lemma path_exists_quiet k : straight (nodes fs) k ->
  path_exists (abs k) fs = (Ok (bool_decide (is_Some (nodes fs !! k))), fs).
Proof.
  intros Hs. unfold path_exists. erewrite bind_run; [|eapply attempt_run, look_quiet; done].
  unfold node_at. destruct (find_straight (nodes fs) true k Ht Hs) as [-> | [-> E]]; simpl.
  - destruct (nodes fs !! k); simpl; by rewrite ?bool_decide_true, ?bool_decide_false by (eauto || by intros []).
  - rewrite bool_decide_false; [done|]. rewrite E. by intros [].
Qed.

Lemma canonicalize_quiet k : straight (nodes fs) k -> is_Some (nodes fs !! k) -> canonicalize (abs k) fs = (Ok (abs k), fs).
Proof.
  intros Hs [x Hx]. unfold canonicalize. rewrite look_quiet, find_present by eauto. unfold node_at. simpl. by rewrite Hx.
Qed.

End Quiet.

(** [exists] answers yes only for what is there; a fault makes it answer no. *)
Lemma path_exists_spec fs k : tree_ok (nodes fs) -> straight (nodes fs) k ->
  ends (path_exists (abs k)) fs (fun r fs' => same fs fs' /\ exists e, r = Ok e /\
    (e = true -> is_Some (nodes fs !! k)) /\ (faults fs = [] -> e = bool_decide (is_Some (nodes fs !! k)))).
Proof.
  intros Ht Hs. destruct (decide (faults fs = [])) as [Hq|Hq].
  - unfold ends. rewrite path_exists_quiet by done. split; [done|]. eexists. split_and!; [done| |done]. apply bool_decide_eq_true.
  - eapply ends_attempt_bind; [apply (reads_look (nodes fs)); done|]. intros r fs' [S Hr]. apply ends_ret. split; [done|].
    eexists. split_and!; [done| |done]. destruct Hr as [-> | [c ->]]; [|done].
    unfold node_at. destruct (find_straight (nodes fs) true k Ht Hs) as [-> | [-> E]]; [|done]. simpl. destruct (nodes fs !! k); eauto. done.
Qed.

Lemma probe_false {A} (o : option A) : false = bool_decide (is_Some o) -> o = None.
Proof. intros H. symmetry in H. apply bool_decide_eq_false in H. by apply eq_None_not_Some. Qed.

(** The fuel of [scan_tree] is enough: on a plain tree it succeeds. *)
Lemma scan_tree_quiet fs k : faults fs = [] -> tree_ok (nodes fs) -> straight (nodes fs) k ->
  nodes fs !! k = Some Dir -> plain_below (nodes fs) k -> scan_tree (abs k) fs = (Ok tt, fs).
Proof.
  intros Hq Ht.
  enough (H : forall fuel k, straight (nodes fs) k -> nodes fs !! k = Some Dir -> plain_below (nodes fs) k ->
    (forall r, is_Some (nodes fs !! (k ++ r)) -> (length r < fuel)%nat) -> scan_go fuel (abs k) fs = (Ok tt, fs)).
  { intros. apply H; [done..|]. intros r Hr. apply depth_spec in Hr. rewrite length_app in Hr. lia. }
  clear k. induction fuel as [|fuel IH]; intros k Hs Hd Hp Hf.
  { specialize (Hf []). rewrite app_nil_r in Hf. specialize (Hf ltac:(eauto)). simpl in Hf. lia. }
  cbn [scan_go]. erewrite bind_run; [|unfold read_dir; rewrite look_quiet, find_present by eauto; simpl; by rewrite Hd].
  assert (Hall : forall n, n ∈ children (nodes fs) k -> is_Some (nodes fs !! (k ++ [n]))) by (intros n; by apply elem_of_children).
  induction (children (nodes fs) k) as [|n names IHn]; [done|]. cbn [scan_entries]. rewrite abs_snoc.
  destruct (Hall n ltac:(by left)) as [x Hx].
  assert (Hpx : plain_node x) by (by eapply (Hp n [])).
  assert (Hsn : straight (nodes fs) (k ++ [n])) by (apply straight_snoc; [done|by left|]; intros t Hl; rewrite Hx in Hl; injection Hl as ->; by destruct Hpx as [|[??]]).
  erewrite bind_run; [|by apply (look_quiet (fun _ => Ok tt))]. erewrite bind_run; [|by apply no_links_quiet].
  erewrite bind_run; [|by apply symlink_metadata_quiet].
  destruct Hpx as [->|[b ->]]; simpl.
  - erewrite bind_run; [|apply IH; [done..| |]]; [apply IHn; intros m Hm; apply Hall; by right|..].
    + intros m r y Hy. rewrite <- app_assoc in Hy. by eapply (Hp n (m :: r)).
    + intros r Hr. rewrite <- app_assoc in Hr. apply Hf in Hr. simpl in Hr. lia.
  - apply IHn. intros m Hm. apply Hall. by right.
Qed.

(** ** Clearing, refreshing and creating the version directory *)

Section Version.
Context (w : bool) (s : CacheScope) (bk : Key) (Hs : scope_at w s bk).
#[local] Abbreviation vk := (version_key s bk).

(** Entries of the version directory are removed, and only because it carries
    the marker and holds no links. *)
Definition cleared (ns ns' : Nodes) : Prop :=
  owned s bk ns /\ plain_below ns vk /\
  forall d, ns' !! d = ns !! d \/ (vk `prefix_of` d /\ ns' !! d = None).

Lemma clear_version_spec fs : tree_ok (nodes fs) ->
  ends (clear_version w s (version s)) fs (fun r fs' =>
    held fs' = held fs /\ calm fs fs' /\ tree_ok (nodes fs') /\
    (nodes fs' = nodes fs \/ cleared (nodes fs) (nodes fs')) /\
    (r = Ok tt -> nodes fs' = remove_below (nodes fs) vk)).
Proof.
  intros Ht. unfold clear_version, clear_version_using.
  assert (Herr : forall e fs', same fs fs' -> held fs' = held fs /\ calm fs fs' /\ tree_ok (nodes fs') /\
    (nodes fs' = nodes fs \/ cleared (nodes fs) (nodes fs')) /\
    (@Err ErrorKind unit e = Ok tt -> nodes fs' = remove_below (nodes fs) vk)).
  { intros e fs' (Hn & Hh & Hc). rewrite Hn. split_and!; auto; done. }
  eapply ends_reads; [by apply validate_target_spec| |done]. intros [] fs1 S1 _.
  eapply ends_reads; [rewrite (proj1 S1); by apply verify_owner_spec| |]; [|intros e fs' S'; apply Herr; by etransitivity].
  intros [] fs2 S2 (_ & Hv & _ & Ho & _). pose proof (transitivity S1 S2) as S.
  rewrite (scope_version w s bk Hs).
  assert (Hd : nodes fs !! vk = Some Dir) by by destruct Ho.
  eapply ends_reads; [apply (scan_tree_spec (nodes fs2)); by rewrite (proj1 S)| |]; [|intros e fs' S'; apply Herr; by etransitivity].
  intros [] fs3 S3 Hp. pose proof (transitivity S S3) as (Hn & Hh & Hc). rewrite (proj1 S) in Hp.
  unfold version_key at 2. rewrite <- Hn in Ht, Hv, Hd.
  eapply ends_mono; [by apply remove_dir_all_spec|]. fold (version_key s bk). rewrite Hn, Hh.
  intros r fs' (Hh' & Hc' & Ht' & Hdel & Hok). split_and!; auto; [unfold calm in *; auto|].
  right. by split_and!.
Qed.

(** The metadata of the version names its timestamp. *)
Definition ready (ns : Nodes) : Prop :=
  exists b, ns !! meta_key s bk = Some (File b) /\ metadata_timestamp b = Ok (timestamp s).

(** What refreshing decides, when nothing disturbs it *)
Definition reusable (clear : bool) (ns : Nodes) : Prop :=
  ns !! vk = None \/ (clear = false /\ owned s bk ns /\ ready ns).

Lemma refresh_version_spec clear ch0 fs : tree_ok (nodes fs) -> straight (nodes fs) vk ->
  ends (refresh_version w s clear ch0) fs (fun r fs' =>
    held fs' = held fs /\ calm fs fs' /\ tree_ok (nodes fs') /\
    (nodes fs' = nodes fs \/ cleared (nodes fs) (nodes fs')) /\
    match r with
    | Ok ch => (nodes fs' = nodes fs /\ ch = ch0 /\ (faults fs = [] -> reusable clear (nodes fs)))
               \/ (ch = true /\ owned s bk (nodes fs) /\ nodes fs' = remove_below (nodes fs) vk)
    | Err _ => True end).
Proof.
  intros Ht Hv. unfold refresh_version. rewrite (scope_meta_path w s bk Hs), (scope_version w s bk Hs).
  eapply ends_bind_mono; [by apply path_exists_spec|..]; [|by intros e fs' (_ & ? & ? & _)].
  intros e fs1 (S1 & ? & [= <-] & He & Hq). destruct e; cycle 1.
  { apply ends_ret. destruct S1 as (Hn & Hh & Hc). rewrite Hn. split_and!; auto. left. split_and!; auto.
    intros Hf. specialize (Hq Hf). left. by apply probe_false. }
  assert (Herr : forall (er : ErrorKind) fs', same fs fs' -> held fs' = held fs /\ calm fs fs' /\ tree_ok (nodes fs') /\
    (nodes fs' = nodes fs \/ cleared (nodes fs) (nodes fs')) /\ True).
  { intros er fs' (Hn & Hh & Hc). rewrite Hn. split_and!; auto. }
  eapply ends_reads; [rewrite (proj1 S1); by apply verify_owner_spec| |intros er fs' S'; apply (Herr er); by etransitivity].
  intros [] fs2 S2 (_ & _ & _ & Ho & _). pose proof (transitivity S1 S2) as S.
  eapply ends_attempt_bind; [apply (read_small_spec (nodes fs2)); [by rewrite (proj1 S)|done]|].
  intros meta fs3 [S3 Hmeta]. pose proof (transitivity S S3) as (Hn & Hh & Hc). simpl.
  destruct (clear || _) eqn:Ecl.
  - rewrite <- (scope_version w s bk Hs). rewrite <- Hn in Ht.
    eapply ends_bind_mono; [by apply clear_version_spec|..]; rewrite Hn, Hh.
    + intros [] fs4 (Hh4 & Hc4 & Ht4 & Hcl & Hok). apply ends_ret. unfold calm in *. split_and!; auto.
    + intros er fs4 (Hh4 & Hc4 & Ht4 & Hcl & Hok). unfold calm in *. split_and!; auto.
  - apply ends_ret. rewrite Hn. split_and!; auto. left. split_and!; auto. intros _. right.
    apply orb_false_elim in Ecl as [-> Hm]. split_and!; [done..|].
    destruct meta as [b|er]; [|done]. simpl in Hm. destruct (Hmeta b eq_refl) as (_ & Hb & _). rewrite (proj1 S) in Hb. exists b. split; [done|].
    destruct (metadata_timestamp b); [|done]. simpl in Hm. bools. by subst.
Qed.

(** Nothing but the directory and its marker appears. *)
Definition created (ns ns' : Nodes) : Prop :=
  forall d, ns' !! d = ns !! d \/ ((d = vk \/ d = owner_key s bk) /\ ns !! d = None).

Lemma create_version_spec fs : tree_ok (nodes fs) -> straight (nodes fs) vk ->
  ends (create_version w s) fs (fun r fs' =>
    held fs' = held fs /\ calm fs fs' /\ tree_ok (nodes fs') /\ created (nodes fs) (nodes fs') /\
    (faults fs = [] -> is_Some (nodes fs !! vk) -> nodes fs' = nodes fs)).
Proof.
  intros Ht Hv. unfold create_version. rewrite (scope_owner_path w s bk Hs), (scope_version w s bk Hs).
  eapply ends_bind_mono; [by apply path_exists_spec|..]; [|by intros e fs' (_ & ? & ? & _)].
  intros e fs1 (S1 & ? & [= <-] & He & Hq). destruct S1 as (Hn & Hh & Hc). destruct e.
  { apply ends_ret. rewrite Hn. split_and!; auto. intros d. by left. }
  assert (Hquiet : faults fs = [] -> nodes fs !! vk = None).
  { intros Hf. by apply probe_false, Hq. }
  clear Hq He. rewrite <- Hn in Ht, Hv.
  eapply ends_bind_mono; [by apply (make_directory_spec (portable_key s bk))|..]; fold (version_key s bk); rewrite Hn, Hh.
  2: { intros er fs2 (Hh2 & Hc2 & Ht2 & Hg & _). split_and!; auto; [unfold calm in *; auto| |].
       - destruct Hg as [-> | [Hnone ->]]; [by left|]. intros d. destruct (decide (d = vk)) as [->|Hd]; [by right; auto|left; by rewrite lookup_insert_ne].
       - intros Hf Hsome. rewrite Hquiet in Hsome by done. by destruct Hsome. }
  intros [] fs2 (Hh2 & Hc2 & Ht2 & Hg & Hok). destruct (Hok eq_refl) as [Hs2 Hd2].
  assert (Hcr : created (nodes fs) (nodes fs2)).
  { destruct Hg as [-> | [Hnone ->]]; [by left|]. intros d. destruct (decide (d = vk)) as [->|Hd]; [by right; auto|left; by rewrite lookup_insert_ne]. }
  assert (Hstep : forall fs', (forall d, d <> owner_key s bk -> nodes fs' !! d = nodes fs2 !! d) ->
    nodes fs2 !! owner_key s bk = None -> created (nodes fs) (nodes fs')).
  { intros fs' Hother Hnone d. destruct (decide (d = owner_key s bk)) as [->|Hd]; [|rewrite Hother by done; apply Hcr].
    right. split; [by right|]. destruct (Hcr (owner_key s bk)) as [E|[_ E]]; [by rewrite <- E|done]. }
  assert (Hno : faults fs = [] -> is_Some (nodes fs !! vk) -> False) by (intros Hf Hsome; rewrite Hquiet in Hsome by done; by destruct Hsome).
  eapply ends_bind_mono; [by apply (open_new_spec vk)|..]; fold (owner_key s bk).
  2: { intros er fs3 (Hh3 & Hc3 & Ht3 & Hn3). rewrite Hn3. unfold calm in *. split_and!; [congruence|auto 10|by rewrite <- Hn3|done|by intros; exfalso; auto]. }
  intros key fs3 (Hh3 & Hc3 & Ht3 & -> & Hnone & _ & Hn3).
  eapply ends_bind_mono; [apply (write_all_spec vk OWNER_FILE); [done|..]|..]; fold (owner_key s bk).
  - rewrite Hn3, lookup_insert_ne; [done|]. intros E. apply (f_equal length) in E. unfold owner_key in E. rewrite length_app in E. simpl in E. lia.
  - by rewrite Hn3, lookup_insert_eq.
  - intros [] fs4 (Hh4 & Hc4 & Ht4 & b & Hn4 & _).
    eapply ends_mono; [apply (reads_look (nodes fs4)); done|]. intros r fs5 [(Hn5 & Hh5 & Hc5) _].
    unfold calm in *. rewrite Hn5. split_and!; [congruence|auto 10|done| |by intros; exfalso; auto].
    apply Hstep; [|done]. intros d Hd. rewrite Hn4, Hn3. by rewrite !lookup_insert_ne.
  - intros er fs4 (Hh4 & Hc4 & Ht4 & b & Hn4 & _).
    unfold calm in *. split_and!; [congruence|auto 10|done| |by intros; exfalso; auto].
    apply Hstep; [|done]. intros d Hd. rewrite Hn4, Hn3. by rewrite !lookup_insert_ne.
Qed.

(** ** The lock *)

(** The lock of the scope is held by someone. *)
Definition locked (fs : Fs) : Prop :=
  (exists x, nodes fs !! lock_key s bk = Some x /\ x <> Dir) /\ (w = true -> lock_key s bk ∈ held fs).

Lemma open_lock_spec fs : tree_ok (nodes fs) -> straight (nodes fs) (lock_key s bk) ->
  ends (open_lock w (abs (lock_key s bk))) fs (fun r fs' => calm fs fs' /\ tree_ok (nodes fs') /\
    (forall d, nodes fs' !! d = nodes fs !! d \/ (d = lock_key s bk /\ nodes fs !! d = None)) /\
    (held fs' = held fs \/ held fs' = {[lock_key s bk]} ∪ held fs) /\
    match r with
    | Ok key => key = lock_key s bk /\ ~ locked fs /\ locked fs' /\ (w = false -> nodes fs !! lock_key s bk = None)
    | Err e => nodes fs' = nodes fs /\ held fs' = held fs end).
Proof.
  intros Ht Hl. unfold open_lock, locked, lock_key in *. destruct w.
  - eapply ends_mono; [by apply open_exclusive_spec|]. intros [key|e] fs' (Hc & Ht' & Hr).
    + destruct Hr as (-> & Hnh & Hh & Hnd & Hcase). rewrite Hh. split_and!; [done|done| |by right|done| | | |done].
      * intros d. destruct Hcase as [[-> _]|[Hnone ->]]; [by left|].
        destruct (decide (d = portable_key s bk ++ [lock_name s])) as [->|Hd]; [by right|left; by rewrite lookup_insert_ne].
      * intros [_ H]. by apply Hnh, H.
      * destruct Hcase as [[-> [x Hx]]|[Hnone ->]]; [exists x; split; [done|congruence]|exists (File []); by rewrite lookup_insert_eq].
      * intros _. set_solver.
    + destruct Hr as [-> Hh]. split_and!; auto.
  - eapply ends_mono; [apply open_new_spec; eauto using straight_app|]. intros [key|e] fs' (Hh & Hc & Ht' & Hr).
    + destruct Hr as (-> & Hnone & Hk & Hn). rewrite Hn in *.
      split_and!; [done|done| |by left|done|intros [(x & Hx & _) _]; congruence|exists (File []); by rewrite lookup_insert_eq|done|done].
      intros d. destruct (decide (d = portable_key s bk ++ [lock_name s])) as [->|Hd]; [by right|left; by rewrite lookup_insert_ne].
    + rewrite Hr. split_and!; auto.
Qed.

Lemma cache_drop_spec ch fs : tree_ok (nodes fs) ->
  ends (cache_drop w (mkPrepared s (abs (lock_key s bk)) (lock_key s bk) ch)) fs (fun r fs' =>
    r = Ok tt /\ calm fs fs' /\ tree_ok (nodes fs') /\
    (nodes fs' = nodes fs \/ (w = false /\ nodes fs' = delete (lock_key s bk) (nodes fs)))).
Proof.
  intros Ht. unfold cache_drop. simpl. destruct w; [unfold ends, calm; simpl; by auto|].
  eapply ends_attempt_bind; [by apply (no_links_spec (nodes fs) Ht)|]. intros r fs1 [(Hn & Hh & Hc) Hr].
  destruct r as [[]|e]; simpl; [|apply ends_ret; rewrite Hn; auto].
  specialize (Hr tt eq_refl). cbv beta in Hr. rewrite <- Hn in Hr, Ht.
  apply ends_ignore. unfold lock_key in *. eapply ends_mono; [by apply remove_file_spec|].
  intros x fs2 (Hh2 & Hc2 & Ht2 & Hx). unfold calm in *. split_and!; auto.
  destruct x as [?|e]; [right; split; [done|]; by rewrite (proj2 Hx), Hn|left; congruence].
Qed.

(** ** Preparing *)

(** What preparing may do at the key [d] *)
Definition permitted (ns ns' : Nodes) (d : Key) : Prop :=
  ns' !! d = ns !! d
  \/ ((d = brand_key s bk \/ d = portable_key s bk) /\ ns !! d = None /\ ns' !! d = Some Dir)
  \/ (d = lock_key s bk /\ ns !! d = None)
  \/ ((d = vk \/ d = owner_key s bk) /\ ns !! d = None)
  \/ (vk `prefix_of` d /\ owned s bk ns /\ plain_below ns vk).

Lemma version_not_above d :
  d = brand_key s bk \/ d = portable_key s bk \/ d = lock_key s bk -> ~ vk `prefix_of` d.
Proof.
  intros Hd Hp. pose proof (prefix_length _ _ Hp) as Hl.
  destruct Hd as [->|[->| ->]]; [unfold version_key, portable_key in Hl; rewrite !length_app in Hl; simpl in Hl; lia..|].
  unfold version_key, lock_key in Hp, Hl. destruct Hp as [r Hr].
  assert (r = []) as -> by (apply (f_equal length) in Hr; rewrite !length_app in Hr; destruct r; [done|simpl in Hr; lia]).
  rewrite app_nil_r in Hr. apply app_inj_2 in Hr as [_ [= E]]; [|done]. unfold lock_name in E.
  destruct Hs as (_ & _ & Hts & _). pose proof (fmt_Z_digits (timestamp s) ltac:(lia)) as Hd.
  rewrite <- E in Hd. by apply Forall_cons in Hd as [? _].
Qed.

(** Until the lock is taken, the version directory is not touched. *)
Definition opened (ns ns' : Nodes) : Prop := forall d,
  ns' !! d = ns !! d
  \/ (ns !! d = None /\ (((d = brand_key s bk \/ d = portable_key s bk) /\ ns' !! d = Some Dir) \/ d = lock_key s bk)).

Lemma opened_trans ns1 ns2 ns3 : opened ns1 ns2 -> opened ns2 ns3 -> opened ns1 ns3.
Proof.
  intros H1 H2 d. destruct (H1 d) as [E1|[N1 C1]], (H2 d) as [E2|[N2 C2]].
  - left. congruence.
  - right. rewrite <- E1. auto.
  - right. split; [done|]. rewrite E2. auto.
  - right. split; [done|]. destruct C2 as [[C2 E2]|C2]; auto.
Qed.

Lemma opened_below ns ns' d : opened ns ns' -> vk `prefix_of` d -> ns' !! d = ns !! d.
Proof.
  intros H Hd. destruct (H d) as [?|[_ C]]; [done|]. exfalso.
  apply (version_not_above d); [|done]. tauto.
Qed.

Lemma prefix_owner : vk `prefix_of` owner_key s bk.
Proof. by apply prefix_app_r. Qed.
Lemma prefix_meta : vk `prefix_of` meta_key s bk.
Proof. by apply prefix_app_r. Qed.

Lemma opened_owned ns ns' : opened ns ns' -> owned s bk ns' -> owned s bk ns.
Proof. intros H [H1 H2]. unfold owned. rewrite <- !(opened_below ns ns') by (done || apply prefix_owner). done. Qed.

Lemma opened_plain ns ns' : opened ns ns' -> plain_below ns' vk -> plain_below ns vk.
Proof. intros H Hp n r x Hx. eapply Hp. rewrite (opened_below ns ns'); [exact Hx|done|by apply prefix_app_r]. Qed.

Lemma opened_straight ns ns' : opened ns ns' -> straight ns vk -> straight ns' vk.
Proof.
  intros Ho Hst p Hp. specialize (Hst p Hp). destruct (Ho p) as [->|[_ [[_ ->]| ->]]]; [done|done|].
  exfalso. apply (version_not_above (lock_key s bk)); [auto|].
  destruct Hp as [r Hr]. unfold version_key, lock_key in Hr. exists [].
  assert (r = []) as -> by (apply (f_equal length) in Hr; rewrite !length_app in Hr; destruct r; [done|simpl in Hr; lia]).
  by rewrite app_nil_r in *.
Qed.

(** After the lock: the directory and its marker appear, or the directory was
    this package's and plain. *)
Definition touched (ns ns' : Nodes) : Prop := forall d,
  ns' !! d = ns !! d \/ ((d = vk \/ d = owner_key s bk) /\ ns !! d = None)
  \/ (vk `prefix_of` d /\ owned s bk ns /\ plain_below ns vk).

(** What a prepared directory holds when nothing disturbed preparing: only the
    marker, or what it held before, ready for this version *)
Definition outcome (clear ch : bool) (ns ns' : Nodes) : Prop :=
  if ch then forall d, vk `prefix_of` d -> d <> vk -> d <> owner_key s bk -> ns' !! d = None
  else clear = false /\ ready ns /\ (forall d, vk `prefix_of` d -> ns' !! d = ns !! d).

Lemma cleared_straight ns ns' : cleared ns ns' -> straight ns vk -> straight ns' vk.
Proof. intros (_ & _ & H) Hst p Hp. specialize (Hst p Hp). by destruct (H p) as [->|[_ ->]]. Qed.

Lemma refreshed_touched ns ns1 ns2 : ns1 = ns \/ cleared ns ns1 -> created ns1 ns2 -> touched ns ns2.
Proof.
  intros [->|(Ho & Hp & Hcl)] Hcr d; [destruct (Hcr d); auto|].
  destruct (Hcr d) as [E|[Hd E]].
  - destruct (Hcl d) as [E1|[Hp1 _]]; [left; congruence|auto].
  - right. right. split_and!; auto. destruct Hd as [->| ->]; [done|apply prefix_owner].
Qed.

Lemma created_below ns ns' : tree_ok ns -> ns !! vk = None -> created ns ns' ->
  forall d, vk `prefix_of` d -> d <> vk -> d <> owner_key s bk -> ns' !! d = None.
Proof.
  intros Ht Hn Hcr d [r ->] H1 H2. destruct (Hcr (vk ++ r)) as [->|[[?|?] _]]; [|done..]. by apply tree_ok_missing.
Qed.

Lemma prepared_body_spec (quiet : Prop) clear e fs : tree_ok (nodes fs) -> straight (nodes fs) vk ->
  (quiet -> faults fs = [] /\ e = bool_decide (is_Some (nodes fs !! vk))) ->
  ends (changed ← refresh_version w s clear (negb e);
        _ ← create_version w s;
        _ ← verify_owner w s;
        mret (mkPrepared s (abs (lock_key s bk)) (lock_key s bk) changed)) fs (fun r fs' =>
    held fs' = held fs /\ calm fs fs' /\ tree_ok (nodes fs') /\ touched (nodes fs) (nodes fs') /\
    match r with
    | Ok c => c = mkPrepared s (abs (lock_key s bk)) (lock_key s bk) (changed c) /\ owned s bk (nodes fs')
              /\ (quiet -> outcome clear (changed c) (nodes fs) (nodes fs'))
    | Err _ => True end).
Proof.
  intros Ht Hv He. eapply ends_bind_mono; [by apply refresh_version_spec|..].
  2: { intros er fs1 (Hh & Hc & Ht1 & Hr & _). split_and!; auto. eapply refreshed_touched; [exact Hr|]. intros d. by left. }
  intros ch fs1 (Hh1 & Hc1 & Ht1 & Hr1 & Hch).
  assert (Hv1 : straight (nodes fs1) vk) by (destruct Hr1 as [->|Hcl]; [done|by eapply cleared_straight]).
  eapply ends_bind_mono; [by apply create_version_spec|..].
  2: { intros er fs2 (Hh2 & Hc2 & Ht2 & Hcr & _). split_and!; auto; [congruence|unfold calm in *; auto|]. by eapply refreshed_touched. }
  intros [] fs2 (Hh2 & Hc2 & Ht2 & Hcr & Hsame).
  pose proof (refreshed_touched _ _ _ Hr1 Hcr) as Htouch.
  eapply ends_reads; [by apply verify_owner_spec| |].
  2: { intros er fs3 (Hn3 & Hh3 & Hc3). rewrite Hn3. split_and!; auto; [congruence|unfold calm in *; auto]. }
  intros [] fs3 (Hn3 & Hh3 & Hc3) (_ & _ & _ & Ho & _). apply ends_ret. rewrite Hn3. simpl.
  split_and!; auto; [congruence|unfold calm in *; auto|].
  intros Hquiet. destruct (He Hquiet) as [Hq He']. clear He. rename He' into He. specialize (Hc1 Hq). unfold outcome.
  destruct Hch as [(Hn1 & -> & Hre)|(-> & _ & Hn1)].
  - rewrite Hn1 in *. destruct (Hre Hq) as [Hnone|(-> & Ho' & Hready)].
    + subst e. rewrite bool_decide_false by (rewrite Hnone; by intros []). simpl. eapply created_below; [exact Ht|done|done].
    + destruct Ho' as [Hd _]. subst e. rewrite bool_decide_true by eauto. simpl. rewrite (Hsame Hc1) by eauto. split_and!; auto.
  - eapply created_below; [exact Ht1| |done]. rewrite Hn1, lookup_remove_below.
    rewrite (proj2 (below_spec _ _)); done.
Qed.

Lemma ends_or_drop {A} c (m : Io A) fs Q :
  ends m fs (fun r fs' => match r with
    | Ok a => Q (Ok a) fs' | Err e => ends (cache_drop w c) fs' (fun _ fs'' => Q (Err e) fs'') end) ->
  ends (or_drop w c m) fs Q.
Proof. unfold ends, or_drop. by destruct (m fs) as [[a|e] fs']. Qed.

Lemma grown_opened d ns ns' : d = brand_key s bk \/ d = portable_key s bk -> grown d ns ns' -> opened ns ns'.
Proof.
  intros Hd [->|[Hn ->]] x; [by left|]. destruct (decide (x = d)) as [->|Hx]; [|left; by rewrite lookup_insert_ne].
  right. rewrite lookup_insert_eq. auto.
Qed.

Lemma opened_refl ns : opened ns ns.
Proof. intros d. by left. Qed.

Lemma opened_touched ns ns1 ns2 d : opened ns ns1 -> touched ns1 ns2 -> permitted ns ns2 d.
Proof.
  intros Ho Ht. unfold permitted. destruct (Ht d) as [E|[[Hd E]|(Hd & Hown & Hp)]].
  - destruct (Ho d) as [E1|[N1 [[C1 E1]|C1]]]; [left; congruence| |]; right.
    + left. split_and!; [done..|congruence].
    + auto.
  - do 3 right. left. split; [done|]. rewrite <- (opened_below ns ns1); [done..|]. destruct Hd as [->| ->]; [done|apply prefix_owner].
  - do 4 right. split_and!; [done|by eapply opened_owned|by eapply opened_plain].
Qed.

Lemma touched_lock ns ns' : touched ns ns' -> ns' !! lock_key s bk = ns !! lock_key s bk.
Proof.
  intros H. assert (Hn : ~ vk `prefix_of` lock_key s bk) by (apply version_not_above; auto).
  destruct (H (lock_key s bk)) as [?|[[[E|E] _]|[? _]]]; [done|..|done].
  - destruct Hn. by rewrite E.
  - destruct Hn. rewrite E. apply prefix_owner.
Qed.

Lemma permitted_delete ns ns1 ns2 d : ns !! lock_key s bk = None -> opened ns ns1 -> touched ns1 ns2 ->
  permitted ns (delete (lock_key s bk) ns2) d.
Proof.
  intros Hl Ho Ht. destruct (decide (d = lock_key s bk)) as [->|Hd]; [left; by rewrite lookup_delete_eq|].
  pose proof (opened_touched ns ns1 ns2 d Ho Ht) as H. unfold permitted in *. by rewrite lookup_delete_ne.
Qed.

Lemma opened_permitted ns ns' d : opened ns ns' -> permitted ns ns' d.
Proof. intros H. apply (opened_touched ns ns'); [done|]. intros x. by left. Qed.

(** The whole of [prepare] *)
Lemma cache_prepare_spec clear fs : tree_ok (nodes fs) ->
  ends (prepare w s clear) fs (fun r fs' =>
    calm fs fs' /\ tree_ok (nodes fs') /\ (forall d, permitted (nodes fs) (nodes fs') d) /\
    match r with
    | Ok c => c = mkPrepared s (abs (lock_key s bk)) (lock_key s bk) (changed c)
              /\ ~ locked fs /\ locked fs' /\ owned s bk (nodes fs')
              /\ (faults fs = [] -> outcome clear (changed c) (nodes fs) (nodes fs'))
    | Err _ => True end).
Proof.
  intros Ht. unfold prepare. rewrite (scope_brand_path w s bk Hs), scope_portable_path, (scope_lock_path w s bk Hs).
  eapply ends_reads; [by apply validate_target_spec| |].
  2: { intros e fs' (Hn & Hh & Hc). rewrite Hn. split_and!; auto. intros d. by left. }
  intros [] fs1 (Hn1 & Hh1 & Hc1) (_ & _ & Hv). rewrite <- Hn1 in Ht.
  eapply ends_bind_mono; [by apply (make_directory_spec bk (namespace s))|..]; fold (brand_key s bk); rewrite Hn1, Hh1.
  2: { intros e fs2 (Hh2 & Hc2 & Ht2 & Hg2 & _). unfold calm in *. split_and!; auto. intros d.
       apply opened_permitted, (grown_opened (brand_key s bk)); auto. }
  intros [] fs2 (Hh2 & Hc2 & Ht2 & Hg2 & _). apply grown_opened in Hg2; [|by auto].
  eapply ends_bind_mono; [by apply (make_directory_spec (brand_key s bk) (lit "portable"))|..]; fold (portable_key s bk).
  2: { intros e fs3 (Hh3 & Hc3 & Ht3 & Hg3 & _). unfold calm in *. split_and!; auto. intros d.
       apply opened_permitted. eapply opened_trans; [done|]. apply (grown_opened (portable_key s bk)); auto. }
  intros [] fs3 (Hh3 & Hc3 & Ht3 & Hg3 & _). apply grown_opened in Hg3; [|by auto].
  pose proof (opened_trans _ _ _ Hg2 Hg3) as Ho3.
  eapply ends_reads; [by apply no_links_spec| |].
  2: { intros e fs' (Hn & Hh & Hc). rewrite Hn. unfold calm in *. split_and!; auto 10. intros d. by apply opened_permitted. }
  intros [] fs4 (Hn4 & Hh4 & Hc4) Hl. rewrite <- Hn4 in Ht3, Hl.
  eapply ends_bind_mono; [by apply open_lock_spec|..]; rewrite Hn4.
  2: { intros e fs5 (Hc5 & Ht5 & _ & _ & [Hn5 _]). rewrite Hn5. unfold calm in *. split_and!; [auto 10|by rewrite <- Hn4| |done].
       intros d. by apply opened_permitted. }
  intros key fs5 (Hc5 & Ht5 & Hn5 & Hh5 & -> & Hfree & Hlocked & Hunix).
  assert (Ho5 : opened (nodes fs) (nodes fs5)).
  { eapply opened_trans; [exact Ho3|]. intros d. destruct (Hn5 d) as [?|[-> ?]]; auto. }
  assert (Hfree0 : ~ locked fs).
  { intros [(x & Hx & Hd) Hw]. apply Hfree. split; [|intros E; rewrite Hh4, Hh3, Hh2; auto].
    exists x. split; [|done]. rewrite Hn4. destruct (Ho3 (lock_key s bk)) as [->|[E _]]; [done|congruence]. }
  assert (Hcalm : calm fs fs5) by (unfold calm in *; auto 10).
  rewrite (scope_version w s bk Hs).
  assert (Hv5 : straight (nodes fs5) vk) by by eapply opened_straight.
  eapply ends_bind_mono; [by apply path_exists_spec|..]; [|by intros e fs' (_ & ? & ? & _)].
  intros e fs6 ((Hn6 & Hh6 & Hc6) & ? & [= <-] & _ & Hq). rewrite <- Hn6 in Hv5, Ht5, Ho5.
  apply ends_or_drop. eapply ends_mono; [apply (prepared_body_spec (faults fs = [])); [done|done|]|].
  { rewrite Hn6. intros Hf. unfold calm in *. auto. }
  intros r fs7 (Hh7 & Hc7 & Ht7 & Htouch & Hr). destruct r as [c|er].
  - destruct Hr as (Hc & Hown & Hout). unfold calm in *. split_and!; auto 10.
    + intros d. by eapply opened_touched.
    + destruct Hlocked as [Hx Hw]. split; [|rewrite Hh7, Hh6; done].
      by rewrite (touched_lock (nodes fs6) (nodes fs7)), Hn6.
    + intros Hf. specialize (Hout Hf). unfold outcome in *. destruct (changed c); [done|].
      destruct Hout as (-> & (b & Hb & Hts) & Hd). split_and!; [done| |].
      * exists b. by rewrite <- (opened_below _ _ _ Ho5 prefix_meta).
      * intros d Hp. rewrite <- (opened_below _ _ _ Ho5 Hp). by apply Hd.
  - eapply ends_mono; [by apply cache_drop_spec|]. intros _ fs8 (_ & Hc8 & Ht8 & Hn8). unfold calm in *.
    split_and!; auto 10. intros d. destruct Hn8 as [->|[Hw ->]]; [by eapply opened_touched|].
    eapply permitted_delete; [|done|done]. destruct (Ho3 (lock_key s bk)) as [<-|[E _]]; auto.
Qed.
End Version.

(** ** The ready mark is read back *)

Definition ready_text (ts : Z) : str := lit "timestamp = " ++ fmt_Z ts ++ [10].

Lemma trim_ends s c d r : s = c :: r -> last s = Some d -> is_whitespace c = false -> is_whitespace d = false -> trim s = s.
Proof.
  intros -> Hl Hc Hd. unfold trim. simpl. rewrite Hc. unfold trim_end.
  apply last_Some in Hl as [l Hl]. rewrite Hl, reverse_app. simpl. rewrite Hd. by rewrite reverse_cons, reverse_involutive.
Qed.

Lemma digits_last z : 0 <= z -> exists d, last (fmt_Z z) = Some d /\ is_ascii_digit d = true.
Proof.
  intros Hz. pose proof (fmt_Z_nonempty z Hz). pose proof (fmt_Z_digits z Hz) as Hd.
  destruct (last (fmt_Z z)) as [d|] eqn:E; [|by apply last_None in E]. exists d. split; [done|].
  apply last_Some in E as [l E]. rewrite E in Hd. apply Forall_app in Hd as [_ Hd]. by apply Forall_cons in Hd as [? _].
Qed.

Lemma ready_lines ts : 0 <= ts -> lines (ready_text ts) = [lit "timestamp = " ++ fmt_Z ts].
Proof.
  intros Hz. unfold lines, ready_text, split_char. rewrite app_assoc.
  assert (Hn : Forall (fun x => (x =? 10) = false) (lit "timestamp = " ++ fmt_Z ts)).
  { apply Forall_app. split; [by repeat constructor|]. eapply Forall_impl; [by apply fmt_Z_digits|].
    intros c Hc. unfold is_ascii_digit in Hc. bools. lia. }
  rewrite split_app_sep by done. simpl split. cbn [lines_go]. rewrite bool_decide_true by done.
  f_equal. unfold drop_cr, strip_suffix. rewrite reverse_app. destruct (digits_last ts Hz) as (d & Hl & Hd).
  apply last_Some in Hl as [l ->]. rewrite reverse_app.
  change (reverse [13]) with [13]. change (reverse [d]) with [d]. cbn [app strip_prefix].
  assert ((13 =? d) = false) as -> by (unfold is_ascii_digit in Hd; lia). done.
Qed.

Lemma ready_line found ts : 0 < ts <= u_max 64 ->
  metadata_line found (lit "timestamp = " ++ fmt_Z ts) = if bool_decide (is_Some found) then Err InvalidInput else Ok (Some ts).
Proof.
  intros Hts. destruct (digits_last ts ltac:(lia)) as (d & Hl & Hd). unfold metadata_line.
  rewrite (trim_ends _ 116 d (lit "imestamp = " ++ fmt_Z ts)); [|done| |done|by apply digit_not_whitespace].
  2: { rewrite last_app. by rewrite Hl. }
  rewrite bool_decide_false by done.
  change (starts_with (lit "#") (lit "timestamp = " ++ fmt_Z ts)) with false. simpl orb. cbv iota.
  change (split_once 61 (lit "timestamp = " ++ fmt_Z ts)) with (Some (lit "timestamp ", 32 :: fmt_Z ts)). cbv iota beta.
  change (trim (lit "timestamp ")) with (lit "timestamp"). rewrite bool_decide_true by done. simpl negb. cbv iota.
  destruct (bool_decide (is_Some found)); [done|].
  assert (Hws : Forall (fun c => is_whitespace c = false) (fmt_Z ts)).
  { eapply Forall_impl; [apply fmt_Z_digits; lia|]. intros c. apply digit_not_whitespace. }
  assert (Ht : trim (32 :: fmt_Z ts) = fmt_Z ts).
  { unfold trim. change (trim_start (32 :: fmt_Z ts)) with (trim_start (fmt_Z ts)). apply trim_id. done. }
  rewrite Ht, bool_decide_false by (apply fmt_Z_nonempty; lia).
  assert (Hb : str_bytes (fmt_Z ts) = fmt_Z ts).
  { clear -Hts. assert (Hd := fmt_Z_digits ts ltac:(lia)). induction Hd as [|c l Hc _ IH]; [done|].
    change (str_bytes (c :: l)) with (utf8_char c ++ str_bytes l). rewrite IH, utf8_ascii; [done|].
    unfold is_ascii_digit in Hc. bools. lia. }
  rewrite Hb, (proj2 (forallb_forall _ _)).
  2: { intros x Hx. apply list_elem_of_In in Hx. pose proof (fmt_Z_digits ts ltac:(lia)) as Hf. rewrite Forall_forall in Hf. auto. }
  simpl. rewrite parse_fmt_u by lia. by rewrite (proj2 (Z.eqb_neq _ _)) by lia.
Qed.

Lemma ready_text_scalar ts : 0 <= ts -> Forall is_scalar (ready_text ts).
Proof.
  intros Hz. unfold ready_text. repeat (apply Forall_app; split).
  - repeat constructor; unfold is_scalar; lia.
  - eapply Forall_impl; [by apply fmt_Z_digits|]. intros c Hc. unfold is_ascii_digit in Hc. bools. unfold is_scalar. lia.
  - repeat constructor; unfold is_scalar; lia.
Qed.

(** What [mark_ready] prints is what preparing reads. *)
Lemma ready_round_trip ts : 0 < ts <= u_max 64 -> metadata_timestamp (str_bytes (ready_text ts)) = Ok ts.
Proof.
  intros Hts. unfold metadata_timestamp. rewrite from_utf8_bytes by (apply ready_text_scalar; lia). simpl.
  rewrite ready_lines by lia. cbn [metadata_lines]. rewrite ready_line by done. by rewrite bool_decide_false by by intros [].
Qed.

(** ** Paths inside the package *)

Lemma split_ext f g s : Forall (fun c => f c = g c) s -> split f s = split g s.
Proof. induction 1 as [|c r Hc _ IH]; simpl; [done|]. by rewrite Hc, IH. Qed.

Lemma strip_prefix_app p s t : strip_prefix p s = Some t -> s = p ++ t.
Proof.
  revert s. induction p as [|a p IH]; intros [|b s]; simpl; try done; try (by intros [= <-]).
  destruct (Z.eqb_spec a b) as [->|]; [|done]. intros H. by rewrite (IH s H).
Qed.

Lemma existsb_none {A} (f : A -> bool) l : existsb f l = false <-> Forall (fun x => f x = false) l.
Proof.
  induction l as [|a l IH]; simpl; [by split|]. rewrite orb_false_iff, IH, Forall_cons. done.
Qed.

(** A name of a package file: one name on every platform, not reserved on Windows *)
Definition safe_name (n : str) : Prop := plain_name n /\ refused_name n = false.

Lemma omap_parts parts : Forall (fun n => n <> [] /\ n <> lit "." /\ n <> lit "..") parts ->
  omap part_component parts = Normal <$> parts.
Proof.
  induction 1 as [|n parts (H0 & H1 & H2) _ IH]; [done|].
  change (omap part_component (n :: parts)) with
    (match part_component n with Some y => y :: omap part_component parts | None => omap part_component parts end).
  unfold part_component at 1. rewrite !bool_decide_false by done. by rewrite IH.
Qed.

Lemma relative_path_ok w v p : relative_path w v = Ok p ->
  exists parts, p = Normal <$> parts /\ parts <> [] /\ Forall safe_name parts.
Proof.
  unfold relative_path. destruct (_ || _) eqn:E0; [done|].
  set (norm := (fun c => if c =? 92 then 47 else c) <$> v).
  set (norm' := default norm _).
  assert (Hno : Forall (fun c => (c =? 92) = false) norm').
  { assert (Hn : Forall (fun c => (c =? 92) = false) norm).
    { apply Forall_fmap, Forall_true. intros c. simpl. destruct (Z.eqb_spec c 92); [done|]. by apply Z.eqb_neq. }
    subst norm'. destruct (strip_prefix _ norm) as [t|] eqn:Et; [|done].
    apply strip_prefix_app in Et. rewrite Et in Hn. by apply Forall_app in Hn as [_ Hn]. }
  clearbody norm'. clear norm E0. destruct (_ || _) eqn:E1; [done|]. apply orb_false_elim in E1 as [_ E1].
  assert (Hsp : split (is_sep w) norm' = split_char 47 norm').
  { apply split_ext. eapply Forall_impl; [exact Hno|]. intros c Hc. unfold is_sep. simpl in Hc. rewrite Hc. by rewrite andb_false_r, orb_false_r. }
  assert (Hparts : Forall (fun n => n <> [] /\ n <> lit "." /\ n <> lit "..") (split_char 47 norm')).
  { apply existsb_none in E1. eapply Forall_impl; [exact E1|]. intros n Hn. simpl in Hn. bools. set_solver. }
  destruct (_ || _) eqn:E2; [done|]. apply orb_false_elim in E2 as [E2 _].
  destruct (existsb (fun c => refused_name _) _) eqn:E3; [done|]. intros [= <-].
  assert (Hc : components w norm' = Normal <$> split_char 47 norm').
  { unfold components in *. rewrite Hsp, omap_parts in * by done. apply existsb_none in E2.
    destruct (bool_decide (_ = Some true)); [by apply Forall_cons in E2 as [? _]|].
    destruct (bool_decide (head _ = _)); [by apply Forall_cons in E2 as [? _]|]. done. }
  exists (split_char 47 norm'). rewrite Hc in *. split_and!; [done|apply split_nonempty|].
  apply existsb_none in E3. rewrite Forall_fmap in E3.
  pose proof (split_pieces (fun x => x =? 47) norm') as H47.
  assert (H92 : Forall (Forall (fun x => (x =? 92) = false)) (split_char 47 norm')).
  { clear -Hno. unfold split_char. induction Hno as [|c l Hc _ IH]; simpl; [by repeat constructor|].
    destruct (c =? 47); [by constructor|]. destruct (split _ l) as [|q qs] eqn:E; [by repeat constructor|].
    apply Forall_cons in IH as [? ?]. repeat constructor; done. }
  apply Forall_forall. intros n Hn. rewrite Forall_forall in E3, H47, H92, Hparts.
  destruct (Hparts n Hn) as (? & ? & ?). split; [|by apply E3]. split_and!; [done| |done|done].
  specialize (H47 n Hn). specialize (H92 n Hn). rewrite Forall_forall in H47, H92 |- *.
  intros c Hx. unfold is_sep. by rewrite H47, H92.
Qed.

Lemma meta_target w : relative_path w META_FILE = Ok [Normal META_FILE].
Proof. by destruct w; vm_compute. Qed.

Section Ready.
Context (w : bool) (s : CacheScope) (bk : Key) (Hs : scope_at w s bk).
#[local] Abbreviation vk := (version_key s bk).

(** A target lies in the version directory, and no link leads elsewhere. *)
Lemma target_spec c rel ns : scope c = s -> tree_ok ns ->
  reads ns (target w c rel) (if_ok (fun p => exists parts, p = abs (vk ++ parts) /\ parts <> []
    /\ Forall safe_name parts /\ straight ns (vk ++ parts) /\ owned s bk ns)).
Proof.
  intros Hc Ht. unfold target. rewrite Hc. eapply reads_then; [by apply verify_owner_spec|]. intros [] (_ & _ & _ & Ho & _).
  eapply (reads_then _ _ _ (fun p => relative_path w rel = Ok p)); [by apply reads_lift; intros ? ?|].
  intros p Hp. apply relative_path_ok in Hp as (parts & -> & Hne & Hsafe). rewrite (scope_version w s bk Hs).
  replace (abs vk ++ (Normal <$> parts)) with (abs (vk ++ parts)) by (unfold abs; by rewrite fmap_app).
  eapply reads_then; [by apply no_links_spec|]. intros [] Hst. apply reads_ret. intros _ [= <-]. eauto 10.
Qed.

Lemma meta_target_spec c ns : scope c = s -> tree_ok ns ->
  reads ns (target w c META_FILE) (if_ok (fun p => p = abs (meta_key s bk) /\ straight ns (meta_key s bk))).
Proof.
  intros Hc Ht. unfold target. rewrite Hc. eapply reads_then; [by apply verify_owner_spec|]. intros [] _.
  rewrite meta_target, (scope_version w s bk Hs).
  eapply (reads_then _ _ _ (fun p => p = [Normal META_FILE])); [by apply reads_lift; intros ? [= <-]|].
  intros ? ->. rewrite abs_snoc. fold (meta_key s bk). eapply reads_then; [by apply no_links_spec|].
  intros [] Hst. apply reads_ret. by intros _ [= <-].
Qed.

Lemma mark_ready_spec c fs : scope c = s -> tree_ok (nodes fs) ->
  ends (mark_ready w c) fs (fun r fs' => held fs' = held fs /\ calm fs fs' /\ tree_ok (nodes fs') /\
    ((nodes fs' = nodes fs /\ r <> Ok tt)
     \/ (owned s bk (nodes fs) /\ plain_below (nodes fs) vk /\ straight (nodes fs) (meta_key s bk) /\ straight (nodes fs) vk
         /\ straight (nodes fs) (owner_key s bk) /\ nodes fs !! bk = Some Dir
         /\ Z.of_nat (length (str_bytes (owner s))) <= MAX_MARKER /\
         exists b, nodes fs' = <[meta_key s bk := File b]> (nodes fs) /\ (r = Ok tt -> b = str_bytes (ready_text (timestamp s)))))).
Proof.
  intros Hc Ht. unfold mark_ready. rewrite Hc.
  assert (Herr : forall (e : ErrorKind) (P : Prop) fs', same fs fs' -> held fs' = held fs /\ calm fs fs' /\ tree_ok (nodes fs') /\
    ((nodes fs' = nodes fs /\ @Err ErrorKind unit e <> Ok tt) \/ P)).
  { intros e P fs' (Hn & Hh & Hcc). rewrite Hn. split_and!; auto. }
  eapply ends_reads; [by apply verify_owner_spec| |by intros; apply Herr].
  intros [] fs1 S1 (Hb & Hv & Hsto & Ho & Hlen).
  eapply ends_reads; [rewrite (scope_version w s bk Hs); apply (scan_tree_spec (nodes fs1)); rewrite (proj1 S1); [done..|by destruct Ho]| |].
  2: { intros e fs' S'. apply Herr. by etransitivity. }
  intros [] fs2 S2 Hp. pose proof (transitivity S1 S2) as S. rewrite (proj1 S1) in Hp.
  eapply ends_reads; [rewrite (proj1 S); by apply meta_target_spec| |].
  2: { intros e fs' S'. apply Herr. by etransitivity. }
  intros ? fs3 S3 [-> Hst]. pose proof (transitivity S S3) as Sn. destruct Sn as (Hn & Hh & Hcc).
  destruct Ho as [Hd Ho]. assert (Hne : meta_key s bk <> vk) by (intros E; apply (f_equal length) in E; unfold meta_key in E; rewrite length_app in E; simpl in E; lia).
  assert (Hst3 : straight (nodes fs3) (vk ++ [META_FILE])) by by rewrite Hn.
  eapply ends_bind_mono; [apply (file_create_spec vk META_FILE); [by rewrite Hn|exact Hst3]|..]; fold (meta_key s bk); rewrite Hn, Hh.
  2: { intros e fs4 (Hh4 & Hc4 & Ht4 & Hn4). rewrite Hn4. unfold calm in *. split_and!; auto. }
  intros key fs4 (Hh4 & Hc4 & Ht4 & -> & _ & _ & Hn4).
  eapply ends_bind_mono; [apply (write_all_spec vk META_FILE); [done|..]|..]; fold (meta_key s bk).
  - by rewrite Hn4, lookup_insert_ne.
  - by rewrite Hn4, lookup_insert_eq.
  - intros [] fs5 (Hh5 & Hc5 & Ht5 & b & Hn5 & Hbytes).
    eapply ends_mono; [apply (reads_look (nodes fs5)); done|]. intros r fs6 [(Hn6 & Hh6 & Hc6) _].
    unfold calm in *. rewrite Hn6. split_and!; [congruence|auto 10|done|]. right. unfold owned. split_and!; auto. exists b.
    rewrite Hn5, Hn4, insert_insert_eq. auto.
  - intros er fs5 (Hh5 & Hc5 & Ht5 & b & Hn5 & Hbytes).
    unfold calm in *. split_and!; [congruence|auto 10|done|]. right. unfold owned. split_and!; auto. exists b.
    rewrite Hn5, Hn4, insert_insert_eq. auto.
Qed.

(** ** Reusing a ready directory *)

Section Reuse.
Context (fs : Fs) (Hq : faults fs = []) (Ht : tree_ok (nodes fs)) (Hbase : nodes fs !! bk = Some Dir)
  (Hv : straight (nodes fs) vk) (Ho : owned s bk (nodes fs)) (Hlen : Z.of_nat (length (str_bytes (owner s))) <= MAX_MARKER)
  (Hoh : owner_key s bk ∉ held fs).

Lemma straight_base : straight (nodes fs) bk.
Proof. unfold version_key, portable_key, brand_key in Hv. rewrite <- !app_assoc in Hv. by eapply straight_app. Qed.

Lemma validate_target_quiet : validate_target w s (version s) fs = (Ok tt, fs).
Proof.
  destruct Ho as [Hd _]. unfold validate_target. rewrite bool_decide_true by done. simpl.
  pose proof Hs as (Hb & _ & _ & Hvp). rewrite <- Hvp, Hb, (scope_version w s bk Hs).
  erewrite bind_run; [|apply plain_directory_quiet; auto using straight_base].
  erewrite bind_run; [|by apply no_links_quiet]. erewrite bind_run; [|by apply path_exists_quiet].
  rewrite bool_decide_true by eauto. erewrite bind_run; [|apply canonicalize_quiet; eauto].
  by rewrite bool_decide_true.
Qed.

Lemma straight_owner : straight (nodes fs) (owner_key s bk).
Proof. destruct Ho as [Hd Hf]. apply straight_snoc; [done|by left|]. intros t. fold (owner_key s bk). by rewrite Hf. Qed.

Lemma verify_owner_quiet : verify_owner w s fs = (Ok tt, fs).
Proof.
  destruct Ho as [Hd Hf]. unfold verify_owner. erewrite bind_run; [|by apply validate_target_quiet].
  rewrite (scope_owner_path w s bk Hs), (scope_version w s bk Hs).
  erewrite bind_run; [|by apply plain_directory_quiet].
  erewrite bind_run; [|apply read_small_quiet; eauto using straight_owner]. by rewrite bool_decide_true.
Qed.

Lemma make_directory_quiet k n : straight (nodes fs) (k ++ [n]) -> nodes fs !! (k ++ [n]) = Some Dir ->
  make_directory (abs (k ++ [n])) fs = (Ok tt, fs).
Proof.
  intros Hst Hd. unfold make_directory. erewrite bind_run; [|by apply no_links_quiet].
  erewrite bind_run; [|eapply attempt_run].
  2: { unfold create_dir, alter_tree, syscall. rewrite Hq, find_present by eauto. simpl. rewrite Hd. reflexivity. }
  simpl. by apply plain_directory_quiet.
Qed.

Lemma portable_dirs : nodes fs !! brand_key s bk = Some Dir /\ nodes fs !! portable_key s bk = Some Dir.
Proof.
  destruct Ho as [Hd _]. unfold version_key in Hd.
  assert (Hp : nodes fs !! portable_key s bk = Some Dir) by (eapply (tree_ok_above _ _ [_]); eauto; done).
  split; [|done]. unfold portable_key in Hp. eapply (tree_ok_above _ _ [_]); eauto; done.
Qed.

Context (b : list Z) (Hm : nodes fs !! meta_key s bk = Some (File b)) (Hml : Z.of_nat (length b) <= MAX_MARKER)
  (Hmt : metadata_timestamp b = Ok (timestamp s)) (Hmh : meta_key s bk ∉ held fs).

Lemma refresh_version_quiet ch : refresh_version w s false ch fs = (Ok ch, fs).
Proof.
  destruct Ho as [Hd _]. unfold refresh_version. rewrite (scope_meta_path w s bk Hs), (scope_version w s bk Hs).
  erewrite bind_run; [|by apply path_exists_quiet]. rewrite bool_decide_true by eauto.
  erewrite bind_run; [|by apply verify_owner_quiet].
  erewrite bind_run; [|eapply attempt_run, read_small_quiet; eauto].
  2: { apply straight_snoc; [done|by left|]. intros t. fold (meta_key s bk). by rewrite Hm. }
  cbv beta. cbn [mbind result_bind]. rewrite Hmt. by rewrite Z.eqb_refl.
Qed.

Lemma create_version_quiet : create_version w s fs = (Ok tt, fs).
Proof.
  destruct Ho as [Hd _]. unfold create_version. rewrite (scope_version w s bk Hs).
  erewrite bind_run; [|by apply path_exists_quiet]. by rewrite bool_decide_true by eauto.
Qed.

End Reuse.

Lemma open_lock_free fs : faults fs = [] -> tree_ok (nodes fs) -> straight (nodes fs) (lock_key s bk) ->
  nodes fs !! portable_key s bk = Some Dir ->
  (if w then (lock_key s bk ∉ held fs) /\ nodes fs !! lock_key s bk <> Some Dir else nodes fs !! lock_key s bk = None) ->
  exists fs', open_lock w (abs (lock_key s bk)) fs = (Ok (lock_key s bk), fs').
Proof.
  intros Hq Ht Hl Hp Hfree.
  assert (Hf : forall f, find (nodes fs) f (abs (lock_key s bk)) = Ok (lock_key s bk)).
  { intros f. unfold lock_key in *. rewrite find_snoc, Hp by (eauto using straight_app, straight_not_link). done. }
  unfold open_lock. destruct w; [unfold open_exclusive, syscall|unfold open_new, syscall]; rewrite Hq.
  - destruct Hfree as [Hnh Hnd]. rewrite Hf, bool_decide_false by done.
    destruct (nodes fs !! lock_key s bk) as [[]|]; eauto. done.
  - rewrite Hf, Hfree. eauto.
Qed.

(** A ready directory with a free lock is prepared without change. *)
Lemma prepare_reuse fs b : faults fs = [] -> tree_ok (nodes fs) -> nodes fs !! bk = Some Dir ->
  straight (nodes fs) vk -> owned s bk (nodes fs) -> Z.of_nat (length (str_bytes (owner s))) <= MAX_MARKER ->
  owner_key s bk ∉ held fs -> meta_key s bk ∉ held fs ->
  nodes fs !! meta_key s bk = Some (File b) -> Z.of_nat (length b) <= MAX_MARKER ->
  metadata_timestamp b = Ok (timestamp s) -> straight (nodes fs) (lock_key s bk) ->
  (if w then (lock_key s bk ∉ held fs) /\ nodes fs !! lock_key s bk <> Some Dir else nodes fs !! lock_key s bk = None) ->
  exists fs', prepare w s false fs = (Ok (mkPrepared s (abs (lock_key s bk)) (lock_key s bk) false), fs')
    /\ forall d, vk `prefix_of` d -> nodes fs' !! d = nodes fs !! d.
Proof.
  intros Hq Ht Hbase Hv Ho Hlen Hoh Hmh Hm Hml Hmt Hl Hfree.
  destruct (portable_dirs fs Ht Ho) as [Hbd Hpd].
  destruct (open_lock_free fs Hq Ht Hl Hpd Hfree) as [fs1 E1].
  pose proof (open_lock_spec w s bk Hs fs Ht Hl) as Hspec. unfold ends in Hspec. rewrite E1 in Hspec.
  destruct Hspec as (Hc1 & Ht1 & Hn1 & Hh1 & _). simpl in *. specialize (Hc1 Hq).
  assert (Hop : opened s bk (nodes fs) (nodes fs1)) by (intros d; destruct (Hn1 d) as [?|[-> ?]]; auto).
  assert (Hsub : forall d, vk `prefix_of` d -> nodes fs1 !! d = nodes fs !! d) by (intros; by eapply opened_below).
  assert (Hheld : forall d, vk `prefix_of` d -> d ∉ held fs -> d ∉ held fs1).
  { intros d Hd Hnh. destruct Hh1 as [->| ->]; [done|]. apply not_elem_of_union. split; [|done].
    intros Hin. apply elem_of_singleton in Hin as ->. eapply version_not_above; [exact Hs| |exact Hd]. auto. }
  assert (Ho1 : owned s bk (nodes fs1)) by (unfold owned; by rewrite !Hsub by (done || apply prefix_owner)).
  assert (Hb1 : nodes fs1 !! bk = Some Dir).
  { destruct (Hn1 bk) as [->|[E _]]; [done|]. apply (f_equal length) in E. unfold lock_key, portable_key, brand_key in E.
    rewrite !length_app in E. simpl in E. lia. }
  assert (Hv1 : straight (nodes fs1) vk) by (by eapply opened_straight).
  assert (Hoh1 : owner_key s bk ∉ held fs1) by (apply Hheld; [apply prefix_owner|done]).
  assert (Hmh1 : meta_key s bk ∉ held fs1) by (apply Hheld; [apply prefix_meta|done]).
  assert (Hm1 : nodes fs1 !! meta_key s bk = Some (File b)) by by rewrite Hsub by apply prefix_meta.
  exists fs1. split; [|done]. unfold prepare.
  rewrite (scope_brand_path w s bk Hs), scope_portable_path, (scope_lock_path w s bk Hs).
  erewrite bind_run; [|by apply validate_target_quiet].
  assert (Hsp : straight (nodes fs) (portable_key s bk)) by (unfold version_key in Hv; by eapply straight_app).
  erewrite bind_run; [|apply (make_directory_quiet fs Hq Ht); [unfold portable_key in Hsp; by eapply straight_app|done]].
  erewrite bind_run; [|by apply (make_directory_quiet fs Hq Ht)].
  erewrite bind_run; [|by apply no_links_quiet]. erewrite bind_run; [|exact E1].
  rewrite (scope_version w s bk Hs). erewrite bind_run; [|by apply path_exists_quiet].
  rewrite bool_decide_true by (destruct Ho1 as [-> _]; eauto). unfold or_drop.
  erewrite bind_run; [|by eapply (refresh_version_quiet fs1)].
  erewrite bind_run; [|by apply create_version_quiet]. erewrite bind_run; [|by apply verify_owner_quiet]. done.
Qed.
End Ready.

(** ** Scopes *)

Lemma metadata_line_range found l ts : (forall t, found = Some t -> 0 < t <= u_max 64) ->
  metadata_line found l = Ok (Some ts) -> 0 < ts <= u_max 64.
Proof.
  intros Hf. unfold metadata_line. destruct (_ || _); [by intros [= ->]; auto|].
  destruct (split_once _ _) as [[name value]|]; [|done]. destruct (negb _); [by intros [= ->]; auto|].
  destruct (bool_decide (is_Some found)); [done|]. destruct (_ || _); [done|].
  destruct (parse_u 64 (trim value)) as [t|] eqn:E; [|done]. apply parse_u_range in E.
  destruct (Z.eqb_spec t 0); [done|]. intros [= <-]. lia.
Qed.

Lemma metadata_lines_range ls : forall found ts, (forall t, found = Some t -> 0 < t <= u_max 64) ->
  metadata_lines found ls = Ok (Some ts) -> 0 < ts <= u_max 64.
Proof.
  induction ls as [|l ls IH]; simpl; intros found ts Hf; [by intros [= ->]; auto|].
  destruct (metadata_line found l) as [f|] eqn:E; [|done]. simpl. apply IH.
  intros t ->. by eapply metadata_line_range.
Qed.

Lemma metadata_timestamp_range b ts : metadata_timestamp b = Ok ts -> 0 < ts <= u_max 64.
Proof.
  unfold metadata_timestamp. destruct (from_utf8 b); [|done]. simpl.
  destruct (metadata_lines None _) as [f|] eqn:E; [|done]. simpl. destruct f as [t|]; [|done]. intros [= <-].
  by eapply metadata_lines_range; [|exact E].
Qed.

(** What [CacheScope::new] makes is a scope. *)
Lemma scope_new_spec w base0 ns md pk tree : tree_ok tree ->
  reads tree (scope_new w base0 ns md pk) (if_ok (fun s => exists bk, scope_at w s bk)).
Proof.
  intros Ht. unfold scope_new. destruct (namespace_valid ns) eqn:Hns; [|by apply reads_throw; intros ?]. simpl.
  destruct (_ || _); [by apply reads_throw; intros ?|].
  eapply (reads_then _ _ _ (fun _ => True)).
  { unfold plain_directory. eapply (reads_then _ _ _ (fun _ => True)).
    - unfold no_links. destruct (is_absolute base0); [|by apply reads_throw; intros ?].
      generalize (@nil Component). induction base0 as [|c r IH]; intros acc; [by apply reads_ret; intros ?|].
      cbn [no_links_from]. destruct (bool_decide _); [by apply reads_throw; intros ?|].
      eapply reads_attempt; [apply reads_look|]. intros x _. repeat case_match; first [apply IH|apply reads_throw; by intros ?].
    - intros [] _. eapply (reads_then _ _ _ (fun _ => True)); [by apply reads_look_ok|]. intros m _.
      destruct (_ || _); [by apply reads_throw; intros ?|by apply reads_ret; intros ?]. }
  intros [] _. eapply (reads_then _ _ _ (fun p => exists k, p = abs k)).
  { apply reads_look_ok. intros p Hp. destruct (find tree true base0) as [k|]; [|done]. simpl in Hp.
    destruct (node_at tree k); [|done]. injection Hp as <-. eauto. }
  intros p [bk ->]. eapply (reads_then _ _ _ (fun ts => 0 < ts <= u_max 64)).
  { apply reads_lift. intros ts Hts. by eapply metadata_timestamp_range. }
  intros ts Hts. eapply (reads_then _ _ _ (fun _ => True)).
  { unfold version_path. rewrite (join_name w bk) by by apply namespace_plain. rewrite join_name by auto.
    rewrite join_name by (apply plain_name_digits; lia). eapply reads_mono; [by apply no_links_spec|]. by intros. }
  intros [] _. apply reads_ret. intros sc [= <-]. exists bk. unfold scope_at. simpl. split_and!; try done; lia.
Qed.

(** ** Dropping without faults *)

Section Dropping.
Context (w : bool) (s : CacheScope) (bk : Key) (Hs : scope_at w s bk).

Lemma cache_drop_quiet ch fs : faults fs = [] -> tree_ok (nodes fs) -> straight (nodes fs) (lock_key s bk) ->
  locked w s bk fs ->
  cache_drop w (mkPrepared s (abs (lock_key s bk)) (lock_key s bk) ch) fs
  = (Ok tt, mkFs (if w then nodes fs else delete (lock_key s bk) (nodes fs)) []
                 (if w then held fs ∖ {[lock_key s bk]} else held fs)).
Proof.
  intros Hq Ht Hsl [(x & Hx & Hnd) _]. unfold cache_drop. simpl. destruct w.
  - unfold close_exclusive. destruct fs. simpl in *. by subst.
  - erewrite bind_run; [|by eapply attempt_run, no_links_quiet]. simpl. unfold ignore, remove_file, alter_tree, syscall.
    rewrite Hq, find_present by eauto. simpl. rewrite Hx. destruct fs. simpl in *. subst. by destruct x.
Qed.

Lemma straight_agree ns ns' k : (forall p, p `prefix_of` k -> ns' !! p = ns !! p) -> straight ns k -> straight ns' k.
Proof. intros H Hst p Hp. rewrite H by done. by apply Hst. Qed.

Lemma straight_delete ns k d : straight ns k -> straight (delete d ns) k.
Proof.
  intros Hst p Hp. specialize (Hst p Hp). destruct (decide (d = p)) as [->|]; [by rewrite lookup_delete_eq|].
  by rewrite lookup_delete_ne.
Qed.

Lemma ready_text_fits ts : 0 < ts <= u_max 64 -> Z.of_nat (length (str_bytes (ready_text ts))) <= MAX_MARKER.
Proof.
  intros Hts. assert (Hl : (length (fmt_Z ts) <= 20)%nat) by (apply (fmt_Z_length ts 20); unfold u_max in Hts; simpl; lia).
  assert (Hb : (length (str_bytes (ready_text ts)) <= 4 * length (ready_text ts))%nat).
  { induction (ready_text ts) as [|c l IH]; [done|]. change (str_bytes (c :: l)) with (utf8_char c ++ str_bytes l).
    rewrite length_app. pose proof (utf8_char_length c). simpl in *. lia. }
  assert (Hr : (length (ready_text ts) <= 33)%nat).
  { unfold ready_text. rewrite !length_app. change (length (lit "timestamp = ")) with 12%nat. simpl. lia. }
  unfold MAX_MARKER. lia.
Qed.

(** What marking ready and dropping leave *)
Lemma ready_then_dropped ch fs fs' : tree_ok (nodes fs) -> faults fs = [] -> locked w s bk fs ->
  straight (nodes fs) (lock_key s bk) ->
  mark_ready w (mkPrepared s (abs (lock_key s bk)) (lock_key s bk) ch) fs = (Ok tt, fs') ->
  nodes fs' = <[meta_key s bk := File (str_bytes (ready_text (timestamp s)))]> (nodes fs) /\ held fs' = held fs
  /\ faults fs' = [] /\ tree_ok (nodes fs') /\ locked w s bk fs' /\ straight (nodes fs') (lock_key s bk)
  /\ owned s bk (nodes fs') /\ straight (nodes fs') (version_key s bk) /\ nodes fs' !! bk = Some Dir
  /\ Z.of_nat (length (str_bytes (owner s))) <= MAX_MARKER.
Proof.
  intros Ht Hq Hlk Hsl E. pose proof (mark_ready_spec w s bk Hs (mkPrepared s (abs (lock_key s bk)) (lock_key s bk) ch) fs eq_refl Ht) as H.
  unfold ends in H. rewrite E in H. simpl in H. destruct H as (Hh & Hc & Ht' & [[_ ?]|H]); [done|].
  destruct H as ([Hd Ho] & _ & _ & Hv & _ & Hb & Hlen & b & Hn & Hbytes). specialize (Hbytes eq_refl). subst b.
  assert (Hkeep : forall d, (length d <> length (meta_key s bk) \/ d = owner_key s bk) -> nodes fs' !! d = nodes fs !! d).
  { intros d Hne. rewrite Hn, lookup_insert_ne; [done|]. intros <-. destruct Hne as [?|Hne]; [done|].
    apply app_inj_2 in Hne as [_ [=]]; done. }
  assert (Hlens : length (meta_key s bk) = (length bk + 4)%nat /\ length (version_key s bk) = (length bk + 3)%nat
                  /\ length (lock_key s bk) = (length bk + 3)%nat).
  { unfold meta_key, version_key, lock_key, portable_key, brand_key. rewrite !length_app. simpl. lia. }
  destruct Hlk as [(x & Hx & Hxd) Hw]. split_and!; auto.
  - split; [|by rewrite Hh]. exists x. by rewrite Hkeep by lia.
  - eapply straight_agree; [|exact Hsl]. intros p Hp. apply prefix_length in Hp. apply Hkeep. lia.
  - unfold owned. rewrite !Hkeep by (auto; lia). done.
  - eapply straight_agree; [|exact Hv]. intros p Hp. apply prefix_length in Hp. apply Hkeep. lia.
  - rewrite Hkeep by lia. done.
Qed.

End Dropping.

(** ** Claims *)

(** The operations on a cache: of the scope, and of a prepared cache *)
Inductive CacheOp :=
| OpPrepare (clear : bool)
| OpClear (t : Path)
| OpReady (c : PreparedCache)
| OpTarget (c : PreparedCache) (relative : str)
| OpDrop (c : PreparedCache).

Definition run_op (w : bool) (s : CacheScope) (op : CacheOp) : Io unit :=
  match op with
  | OpPrepare clear => _ ← prepare w s clear; mret tt
  | OpClear t => clear_version w s t
  | OpReady c => mark_ready w c
  | OpTarget c relative => _ ← target w c relative; mret tt
  | OpDrop c => cache_drop w c
  end.

(** A prepared cache the operation works on is one [prepare] returned. *)
Definition op_of (s : CacheScope) (bk : Key) (op : CacheOp) : Prop :=
  match op with
  | OpReady c | OpTarget c _ | OpDrop c => c = mkPrepared s (abs (lock_key s bk)) (lock_key s bk) (changed c)
  | _ => True
  end.

Module PortableCacheClaims.

(** C24: The package touches only its own: for a scope made by [CacheScope::new],
    whatever faults the outside injects, an operation changes an entry of the
    file system only in these ways: the directories of its brand appear; its lock
    file appears, or goes when the cache is dropped; the version directory and
    its marker appear where there was nothing; and what is in the version
    directory changes or goes only if that directory carries exactly this
    package's marker and holds no links. *)
Theorem cache_touches_only_its_own w base0 namesp md pk s tree0 fs0 :
  tree_ok tree0 -> nodes fs0 = tree0 -> (scope_new w base0 namesp md pk fs0).1 = Ok s ->
  exists bk, base s = abs bk /\ version s = abs (version_key s bk) /\
    forall op fs, op_of s bk op -> tree_ok (nodes fs) ->
      let fs' := (run_op w s op fs).2 in
      tree_ok (nodes fs') /\
      forall d, permitted s bk (nodes fs) (nodes fs') d \/ (d = lock_key s bk /\ exists c, op = OpDrop c).
Proof.
  intros Ht0 Hfs0 Hnew. destruct (scope_new_spec w base0 namesp md pk tree0 Ht0 fs0 Hfs0) as [_ Hs].
  destruct (Hs s Hnew) as [bk Hat]. exists bk. split; [apply Hat|]. split; [by eapply scope_version|].
  intros op fs Hop Ht. simpl.
  assert (Hsame : forall fs', same fs fs' -> tree_ok (nodes fs') /\
    forall d, permitted s bk (nodes fs) (nodes fs') d \/ (d = lock_key s bk /\ exists c, op = OpDrop c)).
  { intros fs' (-> & _). split; [done|]. intros d. by left; left. }
  destruct op as [clear|t|c|c rel|c]; simpl in *.
  - pose proof (cache_prepare_spec w s bk Hat clear fs Ht) as H. unfold ends in H. unfold mbind, Io_bind.
    destruct (prepare w s clear fs) as [[c|e] fs']; simpl in *; destruct H as (_ & Ht' & Hd & _); auto.
  - destruct (decide (t = version s)) as [->|Hne].
    + destruct (clear_version_spec w s bk Hat fs Ht) as (_ & _ & Ht' & Hcl & _). split; [done|]. intros d. left.
      destruct Hcl as [Hn|(Ho & Hp & Hd)]; [left; by rewrite Hn|]. destruct (Hd d) as [E|[Hpre _]]; [by left|]. do 4 right. auto.
    + apply Hsame. unfold clear_version, clear_version_using, validate_target. rewrite bool_decide_false by done. done.
  - assert (Hsc : scope c = s) by by rewrite Hop.
    destruct (mark_ready_spec w s bk Hat c fs Hsc Ht) as (_ & _ & Ht' & Hr). split; [done|]. intros d. left.
    destruct Hr as [[-> _]|(Ho & Hp & _ & _ & _ & _ & _ & b & -> & _)]; [by left|].
    destruct (decide (d = meta_key s bk)) as [->|Hd]; [|left; by rewrite lookup_insert_ne].
    do 4 right. split; [apply prefix_meta|auto].
  - assert (Hsc : scope c = s) by by rewrite Hop.
    pose proof (target_spec w s bk Hat c rel (nodes fs) Hsc Ht fs eq_refl) as H. unfold ends in H. unfold mbind, Io_bind.
    destruct (target w c rel fs) as [[p|e] fs']; simpl in *; apply Hsame; apply H.
  - rewrite Hop. destruct (cache_drop_spec w s bk Hat (changed c) fs Ht) as (_ & _ & Ht' & Hn). split; [done|].
    intros d. destruct Hn as [->|[_ ->]]; [by left; left|].
    destruct (decide (d = lock_key s bk)) as [->|Hd]; [right; eauto|]. left; left. by rewrite lookup_delete_ne.
Qed.

(** Preparing gives a directory of this package, exclusively: a prepared cache
    is locked and its directory carries the marker; while the lock is held every
    other preparation fails, on either platform; and if nothing disturbed it,
    the directory either holds the marker alone ([changed]) or is exactly as it
    was, was not to be cleared, and its metadata names this version. *)
Theorem prepared_exclusively w s bk clear fs c fs' :
  scope_at w s bk -> tree_ok (nodes fs) -> prepare w s clear fs = (Ok c, fs') ->
  scope c = s /\ owned s bk (nodes fs') /\ locked w s bk fs'
  /\ (forall clear' fs1, tree_ok (nodes fs1) -> locked w s bk fs1 -> is_ok (prepare w s clear' fs1).1 = false)
  /\ (faults fs = [] -> outcome s bk clear (changed c) (nodes fs) (nodes fs')).
Proof.
  intros Hat Ht E. pose proof (cache_prepare_spec w s bk Hat clear fs Ht) as H. unfold ends in H. rewrite E in H. simpl in H.
  destruct H as (_ & _ & _ & Hc & _ & Hl & Ho & Hout). split_and!; auto; [by rewrite Hc|].
  intros clear' fs1 Ht1 Hl1. pose proof (cache_prepare_spec w s bk Hat clear' fs1 Ht1) as H1. unfold ends in H1.
  destruct (prepare w s clear' fs1) as [[c1|e] fs1']; [|done]. by destruct H1 as (_ & _ & _ & _ & Hf & _).
Qed.

(** A ready cache is reused: after [mark_ready] succeeds and the cache is
    dropped, the next preparation succeeds, reports no change and leaves the
    version directory as it is. *)
Theorem ready_cache_is_reused w s bk ch fs fs' :
  scope_at w s bk -> tree_ok (nodes fs) -> faults fs = [] -> locked w s bk fs -> straight (nodes fs) (lock_key s bk) ->
  owner_key s bk ∉ held fs -> meta_key s bk ∉ held fs ->
  let c := mkPrepared s (abs (lock_key s bk)) (lock_key s bk) ch in
  mark_ready w c fs = (Ok tt, fs') ->
  exists c' fs'', (_ ← cache_drop w c; prepare w s false) fs' = (Ok c', fs'') /\ changed c' = false
    /\ forall d, version_key s bk `prefix_of` d -> nodes fs'' !! d = nodes fs' !! d.
Proof.
  intros Hat Ht Hq Hlk Hsl Hoh Hmh c E.
  destruct (ready_then_dropped w s bk Hat ch fs fs' Ht Hq Hlk Hsl E) as (Hn & Hh & Hq' & Ht' & Hlk' & Hsl' & Ho & Hv & Hb & Hlen).
  pose proof (cache_drop_spec w s bk Hat ch fs' Ht') as Hd. unfold ends in Hd.
  erewrite bind_run; [|by apply cache_drop_quiet]. rewrite cache_drop_quiet in Hd by done. simpl in Hd.
  destruct Hd as (_ & _ & Ht2 & _). pose proof Hat as (_ & _ & Hts & _).
  set (fs2 := mkFs _ _ _) in *.
  assert (Hbelow : forall d, d <> lock_key s bk -> nodes fs2 !! d = nodes fs' !! d) by (intros d Hd; simpl; destruct w; [done|by rewrite lookup_delete_ne]).
  assert (Hnl : forall d, version_key s bk `prefix_of` d -> d <> lock_key s bk) by (intros d Hd ->; eapply (version_not_above w s bk Hat); [|exact Hd]; auto).
  assert (Hst : forall k, straight (nodes fs') k -> straight (nodes fs2) k) by (intros k Hk; simpl; destruct w; [done|by apply straight_delete]).
  destruct (prepare_reuse w s bk Hat fs2 (str_bytes (ready_text (timestamp s)))) as (fs3 & E3 & Hsame); auto.
  - rewrite Hbelow; [done|]. intros E4. apply (f_equal length) in E4. unfold lock_key, portable_key, brand_key in E4.
    rewrite !length_app in E4. simpl in E4. lia.
  - unfold owned. by rewrite !Hbelow by (apply Hnl; done || apply prefix_owner).
  - simpl. rewrite Hh. destruct w; [|done]. set_solver.
  - simpl. rewrite Hh. destruct w; [|done]. set_solver.
  - rewrite Hbelow by (apply Hnl, prefix_meta). by rewrite Hn, lookup_insert_eq.
  - by apply ready_text_fits.
  - by apply ready_round_trip.
  - simpl. destruct w; [|apply lookup_delete_eq]. destruct Hlk' as [(x & Hx & Hxd) _]. split; [set_solver|congruence].
  - eexists _, fs3. split_and!; [exact E3|done|]. intros d Hd. rewrite Hsame by done. apply Hbelow. by apply Hnl.
Qed.

(** A target stays inside: whatever name the package gives, a target is a path
    below the version directory made of names that are single names on every
    platform and not reserved on Windows, and creating the file there creates
    that entry and nothing else. *)
Theorem targets_stay_inside w s bk ch relative fs p fs' :
  scope_at w s bk -> tree_ok (nodes fs) ->
  target w (mkPrepared s (abs (lock_key s bk)) (lock_key s bk) ch) relative fs = (Ok p, fs') ->
  exists parts, p = abs (version_key s bk ++ parts) /\ parts <> [] /\ Forall safe_name parts
    /\ nodes fs' = nodes fs
    /\ let '(r, fs'') := file_create p fs' in
       (forall k, r = Ok k -> k = version_key s bk ++ parts)
       /\ forall d, d <> version_key s bk ++ parts -> nodes fs'' !! d = nodes fs !! d.
Proof.
  intros Hat Ht E. pose proof (target_spec w s bk Hat (mkPrepared s (abs (lock_key s bk)) (lock_key s bk) ch) relative (nodes fs) eq_refl Ht fs eq_refl) as H.
  unfold ends in H. rewrite E in H. simpl in H. destruct H as [(Hn & _) H].
  destruct (H p eq_refl) as (parts & -> & Hne & Hsafe & Hst & _). exists parts. split_and!; auto.
  destruct parts as [|n parts _] using rev_ind; [done|]. rewrite app_assoc in *.
  pose proof (file_create_spec (version_key s bk ++ parts) n fs' ltac:(by rewrite Hn) ltac:(by rewrite Hn)) as Hf.
  unfold ends in Hf. destruct (file_create _ fs') as [r fs'']. simpl in Hf. destruct Hf as (_ & _ & _ & Hr).
  destruct r as [k|e]; [destruct Hr as (-> & _ & _ & ->)|rewrite Hr]; rewrite Hn; (split; [congruence|]); [|done].
  intros d Hd. by rewrite lookup_insert_ne.
Qed.

(** A sample: the base directory of a user, a scope in it, and the file system
    after preparing *)
Definition sample_fs : Fs := mkFs (<[[lit "b"] := Dir]> (<[[] := Dir]> ∅)) [] ∅.
Definition sample_key : Key := [lit "b"].
Definition sample_scope : CacheScope :=
  mkScope (abs sample_key) (lit "a") 7 (replicate 32 49) (abs (sample_key ++ [lit "a"; lit "portable"; lit "7"])).

Lemma sample_tree : tree_ok (nodes sample_fs).
Proof.
  apply (tree_ok_insert (<[[] := Dir]> ∅) [] (lit "b") Dir); [|by rewrite lookup_insert_eq|by right].
  split; [by rewrite lookup_insert_eq|]. intros k n [x Hx]. rewrite lookup_insert_ne in Hx by by destruct k. by rewrite lookup_empty in Hx.
Qed.

Lemma sample_at w : scope_at w sample_scope sample_key.
Proof. split_and!; [done..|by vm_compute|by destruct w; vm_compute]. Qed.

(** The states of the sample: prepared, and unpacked and marked ready *)
Definition sample_prepared : Fs := Eval vm_compute in (prepare false sample_scope false sample_fs).2.
Definition sample_cache : PreparedCache := Eval vm_compute in
  mkPrepared sample_scope (abs (lock_key sample_scope sample_key)) (lock_key sample_scope sample_key) true.

Lemma sample_prepare : prepare false sample_scope false sample_fs = (Ok sample_cache, sample_prepared).
Proof. vm_compute. reflexivity. Qed.

Lemma sample_prepared_tree : tree_ok (nodes sample_prepared).
Proof.
  pose proof (cache_prepare_spec false sample_scope sample_key (sample_at false) false sample_fs sample_tree) as H.
  unfold ends in H. rewrite sample_prepare in H. apply H.
Qed.

Lemma sample_straight : straight (nodes sample_prepared) (lock_key sample_scope sample_key).
Proof.
  intros p [r Hp]. assert (Hl : (length p <= 4)%nat) by (apply (f_equal length) in Hp; rewrite length_app in Hp; simpl in Hp; lia).
  assert (E : p = take (length p) (lock_key sample_scope sample_key)) by by rewrite Hp, take_app_length.
  revert E Hl. generalize (length p). intros n -> Hn. do 5 (destruct n as [|n]; [by vm_compute|]). lia.
Qed.

Lemma cache_touches_only_its_own_witness : exists s bk,
  base s = abs bk /\ forall d, permitted s bk (nodes sample_fs) (nodes (run_op false s (OpPrepare true) sample_fs).2) d
                               \/ (d = lock_key s bk /\ exists c, OpPrepare true = OpDrop c).
Proof.
  destruct (cache_touches_only_its_own false (abs sample_key) (lit "a") (str_bytes (lit "timestamp=7")) (replicate 32 49)
    sample_scope (nodes sample_fs) sample_fs sample_tree eq_refl) as (bk & Hb & _ & H); [by vm_compute|].
  exists sample_scope, bk. split; [done|]. apply (H (OpPrepare true) sample_fs); [done|exact sample_tree].
Defined.

Lemma prepared_exclusively_witness :
  owned sample_scope sample_key (nodes sample_prepared) /\ locked false sample_scope sample_key sample_prepared.
Proof.
  destruct (prepared_exclusively false sample_scope sample_key false sample_fs sample_cache sample_prepared) as (_ & H & L & _);
    [apply sample_at|exact sample_tree|exact sample_prepare|]. by split.
Defined.

Lemma ready_cache_is_reused_witness : exists c' fs'',
  (_ ← cache_drop false sample_cache; prepare false sample_scope false) (mark_ready false sample_cache sample_prepared).2
  = (Ok c', fs'') /\ changed c' = false.
Proof.
  destruct (ready_cache_is_reused false sample_scope sample_key true sample_prepared (mark_ready false sample_cache sample_prepared).2)
    as (c' & fs'' & H & Hc & _).
  - apply sample_at.
  - exact sample_prepared_tree.
  - done.
  - split; [exists (File []); by vm_compute|done].
  - exact sample_straight.
  - done.
  - done.
  - vm_compute; reflexivity.
  - eauto.
Defined.

Lemma targets_stay_inside_witness : exists parts,
  abs (version_key sample_scope sample_key ++ [lit "x"; lit "y"]) = abs (version_key sample_scope sample_key ++ parts) /\ parts <> [].
Proof.
  destruct (targets_stay_inside false sample_scope sample_key true (lit ".\x\y") sample_prepared
    (abs (version_key sample_scope sample_key ++ [lit "x"; lit "y"])) sample_prepared) as (parts & H & Hne & _).
  - apply sample_at.
  - exact sample_prepared_tree.
  - vm_compute; reflexivity.
  - eauto.
Defined.

End PortableCacheClaims.
