(* ===== verification/PortablePackage.v ===== *)
(** * The portable package: its format and its start

    [libs/portable/src/bin_reader.rs] (the package's data and how its files are
    written) and [setup] of [libs/portable/src/main.rs] (prepare the cache, unpack
    and verify every file, mark the cache ready, and name the program to start),
    for the Windows build, the only one that carries data.  The writer of the
    format is [libs/portable/generate.py].  MD5 and Brotli, from crates, are
    parameters. *)
From stdpp Require Import base gmap list strings.
From Stdlib Require Import ZArith Lia.
From S2P Require Import Prelude RustStr Effects FileSystem PortableCache.

Definition LENGTH : nat := 4.
Definition IDENTIFIER_LENGTH : nat := 8.
Definition MD5_LENGTH : nat := 32.

Record BinaryData := mkData { md5_code : list Z; raw : list Z; path : str }.
Record BinaryReader := mkReader { files : list BinaryData; exe : str }.

(** ** Reading the package: [None] is a panic (an index out of range) *)

(** [&data[..n]] and what follows it *)
Definition slice (n : nat) (data : list Z) : option (list Z * list Z) :=
  if bool_decide (n <= length data)%nat then Some (take n data, drop n data) else None.

Definition from_be_bytes (bs : list Z) : Z := foldl (fun acc b => acc * 256 + b) 0 bs.

Definition identifier : str := lit "rustdesk".

(** One entry: path length and path, data length and data, MD5 *)
Definition read_entry (data : list Z) : option (BinaryData * list Z) :=
  '(n, data) ← slice LENGTH data;
  '(p, data) ← slice (Z.to_nat (from_be_bytes n)) data;
  '(n, data) ← slice LENGTH data;
  '(r, data) ← slice (Z.to_nat (from_be_bytes n)) data;
  '(m, data) ← slice MD5_LENGTH data;
  Some (mkData m r (from_utf8_lossy p), data).

(** The loop; every entry is at least 40 bytes, so the length is enough fuel. *)
Fixpoint read_entries (fuel : nat) (data : list Z) : option (list BinaryData * list Z) :=
  match fuel with
  | O => None
  | S fuel =>
    '(iden, after) ← slice IDENTIFIER_LENGTH data;
    if bool_decide (from_utf8_lossy iden = identifier) then Some ([], after)
    else '(e, data) ← read_entry data;
         '(es, rest) ← read_entries fuel data;
         Some (e :: es, rest)
  end.

(** [BinaryReader::read] *)
Definition read (data : list Z) : option BinaryReader :=
  if negb (bool_decide (IDENTIFIER_LENGTH < length data)%nat) then None
  else
    '(iden, data) ← slice IDENTIFIER_LENGTH data;
    if negb (bool_decide (from_utf8_lossy iden = identifier)) then None
    else '(fs, rest) ← read_entries (S (length data)) data;
         Some (mkReader fs (from_utf8_lossy rest)).

(** [int.to_bytes(length=4, byteorder='big')] *)
Definition to_be_bytes (z : Z) : list Z := [(z / 16777216) mod 256; (z / 65536) mod 256; (z / 256) mod 256; z mod 256].

(** [write_package_metadata] of generate.py: an entry of the table, and the file *)
Definition write_entry (e : BinaryData) : list Z :=
  let p := str_bytes (path e) in
  to_be_bytes (Z.of_nat (length p)) ++ p ++ to_be_bytes (Z.of_nat (length (raw e))) ++ raw e ++ md5_code e.
Definition write_package_metadata (r : BinaryReader) : list Z :=
  str_bytes identifier ++ (files r ≫= write_entry) ++ str_bytes identifier ++ str_bytes (exe r).

(** [write_app_metadata] of generate.py: the time in milliseconds *)
Definition write_app_metadata (now_ms : Z) : list Z := str_bytes (lit "timestamp = " ++ fmt_Z now_ms ++ [10]).

(** ** Unpacking *)

Class PackageExternals := {
  md5_hex : list Z -> str;          (** [format!("{:x}", md5::compute(..))] *)
  brotli : list Z -> list Z;        (** the bytes decoded until the end or an error *)
}.

Section Setup.
Context `{PackageExternals}.
(** Build constants and the place of the Windows program that is copied *)
Context (APP_PREFIX : str) (APP_METADATA : list Z) (BROKER_EXE : str) (RUNTIME_BROKER : Path).

Definition decompress (f : BinaryData) : list Z := brotli (raw f).
Definition md5_record (f : BinaryData) : str := from_utf8_lossy (md5_code f).

(** [BinaryData::write_to_file] *)
Definition write_to_file (f : BinaryData) (prefix : Path) : Io unit :=
  let p := join_path true prefix (path f) in
  _ ← (match path_parent p with
       | Some parent => e ← path_exists parent; if (e : bool) then mret tt else ignore (create_dir_all parent)
       | None => mret tt
       end);
  e ← path_exists p;
  same_content ← (if (e : bool) then
      r ← attempt (fs_read p);
      mret (bool_decide (md5_hex (match r with Ok b => b | Err _ => [] end) = md5_record f))
    else mret false);
  if (same_content : bool) then mret tt else ignore (fs_write p (decompress f)).

(** The body of the loop over the files *)
Definition unpack_file (cache : PreparedCache) (f : BinaryData) : Io unit :=
  t ← target true cache (path f);
  _ ← write_to_file f (version (scope cache));
  again ← attempt (target true cache (path f));
  verified ← (if is_ok again then
      r ← attempt (fs_read t);
      mret match r with Ok b => bool_decide (md5_hex b = md5_record f) | Err _ => false end
    else mret false);
  if (verified : bool) then mret tt else throw InvalidInput.

Fixpoint unpack_files (cache : PreparedCache) (l : list BinaryData) : Io unit :=
  match l with [] => mret tt | f :: r => _ ← unpack_file cache f; unpack_files cache r end.

(** [fs::copy]: the content of a file *)
Definition fs_copy (src dst : Path) : Io unit := b ← fs_read src; fs_write dst b.

(** [win::copy_runtime_broker] *)
Definition copy_runtime_broker (t : Path) : Io unit :=
  e ← path_exists t;
  same_content ← (if (e : bool) then
      a ← attempt (fs_read RUNTIME_BROKER);
      b ← attempt (fs_read t);
      mret match a, b with Ok x, Ok y => bool_decide (md5_hex x = md5_hex y) | _, _ => false end
    else mret false);
  if (same_content : bool) then mret tt else fs_copy RUNTIME_BROKER t.

Definition package_id (r : BinaryReader) : str :=
  md5_hex (str_bytes (exe r ++ (files r ≫= fun f => path f ++ md5_record f))).

(** From the prepared cache to the program to start *)
Definition unpack (reader : BinaryReader) (cache : PreparedCache) : Io Path :=
  _ ← unpack_files cache (files reader);
  t ← target true cache BROKER_EXE;
  _ ← copy_runtime_broker t;
  _ ← mark_ready true cache;
  e ← target true cache (exe reader);
  f ← path_is is_file e;
  if (f : bool) then mret e else throw InvalidInput.

(** [setup]: [None] is a refusal; the cache is dropped on every way out. *)
Definition setup (reader : BinaryReader) (base : Path) (clear : bool) : Io (option Path) := fun fs =>
  match (s ← scope_new true base APP_PREFIX APP_METADATA (package_id reader); prepare true s clear) fs with
  | (Err _, fs) => (Ok None, fs)
  | (Ok cache, fs) =>
    let '(r, fs) := unpack reader cache fs in
    (Ok (result_ok r), (cache_drop true cache fs).2)
  end.

End Setup.

(** ** The format is read back *)

Lemma lossy_char c k rest : is_scalar c -> from_utf8_lossy_go (S k) (utf8_char c ++ rest) = c :: from_utf8_lossy_go k rest.
Proof.
  unfold is_scalar, utf8_char. intros Hc.
  destruct (Z.ltb_spec c 0x80); [|destruct (Z.ltb_spec c 0x800); [|destruct (Z.ltb_spec c 0x10000)]]; cbn [app from_utf8_lossy_go].
  - by rewrite (proj2 (Z.ltb_lt c 128)) by lia.
  - rewrite (proj2 (Z.ltb_ge _ 128)) by divmod. rewrite (proj2 (Z.leb_le 194 _)), (proj2 (Z.leb_le _ 244)) by divmod. simpl andb.
    assert (Ho : ok_second (192 + c / 64) (128 + c mod 64) = true).
    { unfold ok_second, is_cont. rewrite !(proj2 (Z.eqb_neq _ _)) by divmod. apply andb_true_intro. split; apply Z.leb_le; divmod. }
    rewrite Ho. simpl negb. cbv iota. rewrite (proj2 (Z.leb_le _ 223)) by divmod. f_equal. divmod.
  - rewrite (proj2 (Z.ltb_ge _ 128)) by divmod. rewrite (proj2 (Z.leb_le 194 _)), (proj2 (Z.leb_le _ 244)) by divmod. simpl andb.
    assert (Ho : ok_second (224 + c / 4096) (128 + (c / 64) mod 64) = true).
    { unfold ok_second, is_cont. zcases; try divmod; apply andb_true_intro; split; apply Z.leb_le; divmod. }
    rewrite Ho. simpl negb. cbv iota. rewrite (proj2 (Z.leb_gt _ 223)) by divmod.
    assert (Hi : is_cont (128 + c mod 64) = true) by (apply andb_true_intro; split; apply Z.leb_le; divmod).
    rewrite Hi. simpl negb. cbv iota. rewrite (proj2 (Z.leb_le _ 239)) by divmod. f_equal. divmod.
  - rewrite (proj2 (Z.ltb_ge _ 128)) by divmod. rewrite (proj2 (Z.leb_le 194 _)), (proj2 (Z.leb_le _ 244)) by divmod. simpl andb.
    assert (Ho : ok_second (240 + c / 262144) (128 + (c / 4096) mod 64) = true).
    { unfold ok_second, is_cont. zcases; try divmod; apply andb_true_intro; split; apply Z.leb_le; divmod. }
    rewrite Ho. simpl negb. cbv iota. rewrite (proj2 (Z.leb_gt _ 223)) by divmod.
    assert (Hi : is_cont (128 + (c / 64) mod 64) = true) by (apply andb_true_intro; split; apply Z.leb_le; divmod).
    rewrite Hi. simpl negb. cbv iota. rewrite (proj2 (Z.leb_gt _ 239)) by divmod.
    assert (Hj : is_cont (128 + c mod 64) = true) by (apply andb_true_intro; split; apply Z.leb_le; divmod).
    rewrite Hj. simpl negb. cbv iota. f_equal. divmod.
Qed.

Lemma from_utf8_lossy_bytes s : Forall is_scalar s -> from_utf8_lossy (str_bytes s) = s.
Proof.
  intros Hs. unfold from_utf8_lossy.
  assert (Hgen : forall k, (length (str_bytes s) <= k)%nat -> from_utf8_lossy_go k (str_bytes s) = s).
  { induction Hs as [|c s Hc Hs IH]; intros k Hk; [by destruct k|].
    change (str_bytes (c :: s)) with (utf8_char c ++ str_bytes s) in *. rewrite length_app in Hk.
    pose proof (utf8_char_length c). destruct k as [|k]; [lia|]. rewrite lossy_char, IH by (done || lia). done. }
  by apply Hgen.
Qed.

Lemma slice_app a b : slice (length a) (a ++ b) = Some (a, b).
Proof. unfold slice. rewrite bool_decide_true by (rewrite length_app; lia). by rewrite take_app_length, drop_app_length. Qed.

Lemma slice_app' n a b : n = length a -> slice n (a ++ b) = Some (a, b).
Proof. intros ->. apply slice_app. Qed.

Lemma be_bytes z : 0 <= z < 2 ^ 32 -> from_be_bytes (to_be_bytes z) = z.
Proof. intros H. unfold from_be_bytes, to_be_bytes. simpl. Z.div_mod_to_equations. lia. Qed.

(** A table entry the format can hold: the path is text of less than 1 GiB, the
    data less than 4 GiB, and the MD5 is 32 characters. *)
Definition entry_ok (e : BinaryData) : Prop :=
  Forall is_scalar (path e) /\ Z.of_nat (length (str_bytes (path e))) < 2 ^ 30
  /\ Z.of_nat (length (raw e)) < 2 ^ 32 /\ length (md5_code e) = MD5_LENGTH.

Lemma read_write_entry e rest : entry_ok e -> read_entry (write_entry e ++ rest) = Some (e, rest).
Proof.
  intros (Hs & Hp & Hr & Hm). unfold read_entry, write_entry. rewrite <- !app_assoc.
  rewrite slice_app' by done. cbn [mbind option_bind]. rewrite be_bytes, Nat2Z.id by lia.
  rewrite slice_app. cbn [mbind option_bind]. rewrite slice_app' by done. cbn [mbind option_bind]. rewrite be_bytes, Nat2Z.id by lia.
  rewrite slice_app. cbn [mbind option_bind]. rewrite slice_app' by done. cbn [mbind option_bind].
  rewrite from_utf8_lossy_bytes by done. by destruct e.
Qed.

Lemma write_entry_length e : entry_ok e -> (40 <= length (write_entry e))%nat.
Proof. intros (_ & _ & _ & Hm). unfold write_entry, MD5_LENGTH in *. rewrite !length_app, Hm. cbn [to_be_bytes length]. lia. Qed.

(** An entry is not taken for the closing identifier. *)
Lemma write_entry_not_end e rest : entry_ok e ->
  exists iden after, slice IDENTIFIER_LENGTH (write_entry e ++ rest) = Some (iden, after) /\ from_utf8_lossy iden <> identifier.
Proof.
  intros He. pose proof (write_entry_length e He) as Hl. destruct He as (_ & Hp & _).
  unfold slice. rewrite bool_decide_true by (rewrite length_app; unfold IDENTIFIER_LENGTH; lia). eexists _, _. split; [done|].
  unfold write_entry, to_be_bytes. cbn [app IDENTIFIER_LENGTH take]. set (b := (_ / 16777216) mod 256).
  assert (Hb : 0 <= b < 64).
  { unfold b. rewrite Z.mod_small; [split; [apply Z.div_pos; lia|apply Z.div_lt_upper_bound; lia]|].
    split; [apply Z.div_pos; lia|apply Z.div_lt_upper_bound; lia]. }
  clearbody b.
  unfold from_utf8_lossy. cbn [length from_utf8_lossy_go]. rewrite (proj2 (Z.ltb_lt b 128)) by lia.
  change identifier with (114 :: lit "ustdesk"). intros E. apply (f_equal head) in E. cbn [head] in E. injection E as E. lia.
Qed.

Lemma read_write_entries es exe fuel : Forall entry_ok es -> Forall is_scalar exe ->
  (length ((es ≫= write_entry) ++ str_bytes identifier ++ str_bytes exe) < fuel)%nat ->
  read_entries fuel ((es ≫= write_entry) ++ str_bytes identifier ++ str_bytes exe) = Some (es, str_bytes exe).
Proof.
  intros Hes Hexe. revert fuel. induction Hes as [|e es He Hes IH]; intros fuel Hf; (destruct fuel as [|fuel]; [simpl in Hf; lia|]).
  - change ([] ≫= write_entry) with (@nil Z). cbn [read_entries app]. rewrite slice_app' by done. cbn [mbind option_bind].
    by rewrite bool_decide_true.
  - change ((e :: es) ≫= write_entry) with (write_entry e ++ (es ≫= write_entry)) in *. rewrite <- app_assoc in *.
    pose proof (write_entry_length e He). rewrite length_app in Hf. cbn [read_entries].
    destruct (write_entry_not_end e ((es ≫= write_entry) ++ str_bytes identifier ++ str_bytes exe) He) as (iden & after & E & Hne).
    rewrite E. cbn [mbind option_bind]. rewrite bool_decide_false by done.
    rewrite read_write_entry by done. cbn [mbind option_bind]. by rewrite IH by lia.
Qed.

(** The loop's fuel does not decide: with the length of the data, more is the same. *)
Lemma read_entry_shorter data e rest : read_entry data = Some (e, rest) -> (length rest < length data)%nat.
Proof.
  unfold read_entry, slice. intros H.
  repeat match type of H with
  | context [bool_decide ?p] => destruct (bool_decide p) eqn:?; cbn [mbind option_bind] in H; [|done]
  end. injection H as <- <-. bools. rewrite !length_drop in *. unfold LENGTH, MD5_LENGTH in *. lia.
Qed.

Lemma read_entries_fuel fuel : forall data, (length data < fuel)%nat -> read_entries (S fuel) data = read_entries fuel data.
Proof.
  induction fuel as [|fuel IH]; intros data Hl; [lia|].
  change (read_entries (S (S fuel)) data) with
    ('(iden, after) ← slice IDENTIFIER_LENGTH data;
     if bool_decide (from_utf8_lossy iden = identifier) then Some ([], after)
     else '(e, data) ← read_entry data; '(es, rest) ← read_entries (S fuel) data; Some (e :: es, rest)).
  cbn [read_entries]. destruct (slice _ _) as [[iden after]|]; [|done]. cbn [mbind option_bind].
  destruct (bool_decide _); [done|]. destruct (read_entry data) as [[e rest]|] eqn:E; [|done]. cbn [mbind option_bind].
  apply read_entry_shorter in E. rewrite <- (IH rest) by lia. done.
Qed.

(** ** Where a package file goes *)

Definition to_slash (c : Z) : Z := if c =? 92 then 47 else c.

Lemma split_seps v : split (is_sep true) v = split_char 47 (to_slash <$> v).
Proof.
  unfold split_char. induction v as [|c v IH]; [done|]. cbn [fmap list_fmap split]. rewrite IH.
  unfold is_sep, to_slash. cbn [andb]. destruct (Z.eqb_spec c 92) as [->|Hc]; [done|]. by rewrite orb_false_r.
Qed.

Lemma split_slashed u : Forall (fun c => (c =? 92) = false) u -> split (is_sep true) u = split_char 47 u.
Proof.
  intros Hu. apply split_ext. eapply Forall_impl; [exact Hu|]. intros c Hc. unfold is_sep. simpl in *.
  by rewrite Hc, orb_false_r.
Qed.

Lemma slashed v : Forall (fun c => (c =? 92) = false) (to_slash <$> v).
Proof.
  apply Forall_fmap, Forall_true. intros c. unfold to_slash. simpl. destruct (Z.eqb_spec c 92); [done|]. by apply Z.eqb_neq.
Qed.

Definition dotless (n : str) : Prop := n <> [] /\ n <> lit "." /\ n <> lit "..".

Lemma dotless_check parts :
  existsb (fun part => bool_decide (part ∈ [[]; lit "."; lit ".."])) parts = false -> Forall dotless parts.
Proof.
  rewrite existsb_none. intros H. eapply Forall_impl; [exact H|]. intros n Hn. simpl in Hn. bools. unfold dotless. set_solver.
Qed.

(** The components of a string whose parts are names *)
Lemma components_dotless u : Forall dotless (split (is_sep true) u) ->
  components true u = Normal <$> split (is_sep true) u.
Proof.
  intros H. unfold components. rewrite omap_parts by done.
  destruct u as [|c u]; [by apply Forall_cons in H as [[? _] _]|].
  rewrite bool_decide_false; cycle 1.
  { intros E. injection E as E. cbn [split] in H. rewrite E in H. by apply Forall_cons in H as [[? _] _]. }
  rewrite bool_decide_false; [done|]. intros E. destruct (split (is_sep true) (c :: u)) as [|n ps]; [done|].
  injection E as ->. by apply Forall_cons in H as [(_ & ? & _) _].
Qed.

Lemma filter_normal (parts : list str) : filter (fun x => x <> CurDir) (Normal <$> parts) = Normal <$> parts.
Proof. induction parts as [|n l IH]; [done|]. rewrite fmap_cons, filter_cons_True, IH by done. done. Qed.

(** The test of the outermost conditional of the goal *)
Ltac outer_if E := match goal with |- (if ?b then _ else _) = _ -> _ => destruct b eqn:E; [done|] end.

(** The path a file is written to is the target that was checked. *)
Lemma relative_join v rel k : relative_path true v = Ok rel -> join_path true (abs k) v = abs k ++ rel.
Proof.
  unfold relative_path. outer_if E0.
  change ((fun c => if c =? 92 then 47 else c) <$> v) with (to_slash <$> v). pose proof (slashed v) as Hn.
  destruct (strip_prefix (lit "./") (to_slash <$> v)) as [t|] eqn:Es; cbn [from_option id]; cbv zeta;
    (outer_if E1; apply orb_false_elim in E1 as [_ E1]; apply dotless_check in E1; outer_if E2; outer_if E3; intros [= <-]).
  - apply strip_prefix_app in Es. rewrite Es in Hn. apply Forall_app in Hn as [_ Hn].
    rewrite <- (split_slashed t Hn) in E1. rewrite (components_dotless t) by done.
    assert (Hs : split (is_sep true) v = lit "." :: split (is_sep true) t).
    { rewrite split_seps, Es, (split_slashed t Hn). done. }
    assert (Hc : components true v = CurDir :: (Normal <$> split (is_sep true) t)).
    { unfold components. rewrite Hs. rewrite bool_decide_false; cycle 1.
      { destruct v as [|c v]; [done|]. cbn [head fmap option_fmap option_map]. intros E. injection E as E.
        cbn [split] in Hs. rewrite E in Hs. done. }
      rewrite bool_decide_true by done.
      change (omap part_component (lit "." :: split (is_sep true) t)) with (omap part_component (split (is_sep true) t)).
      by rewrite omap_parts. }
    unfold join_path, is_absolute. rewrite Hc. cbv zeta. rewrite bool_decide_false by done. unfold abs at 1.
    rewrite filter_cons_False, filter_normal by (intros H; by apply H). done.
  - rewrite <- split_seps in E1. rewrite components_dotless by (by rewrite split_slashed, <- split_seps by done).
    unfold join_path, is_absolute. rewrite components_dotless by done. cbv zeta. rewrite bool_decide_false.
    + rewrite filter_normal. rewrite (split_slashed _ Hn), <- split_seps. done.
    + by destruct (split (is_sep true) v).
Qed.

(** ** What unpacking does *)

Lemma fs_read_spec ns k : tree_ok ns -> straight ns k ->
  reads ns (fs_read (abs k)) (if_ok (fun b => ns !! k = Some (File b))).
Proof.
  intros Ht Hs. eapply (reads_then _ _ _ (fun k' => k' = k)).
  { intros fs <-. apply ends_syscall; [|by intros f fs0 Hfs _; split]. intros fs0 Hfs. split; [done|].
    cbn [fst]. rewrite (proj1 Hfs). destruct (find_straight (nodes fs) true k Ht Hs) as [-> | [-> _]]; [|done]. simpl.
    destruct (node_at (nodes fs) k); [|done]. simpl. case_bool_decide; [done|]. by intros ? [= <-]. }
  intros ? ->. apply reads_look_ok. intros b. by destruct (ns !! k) as [[]|]; intros [= ->].
Qed.

(** A file is written at [k]; directories may appear on the way. *)
Definition wrote (k : Key) (ns ns' : Nodes) : Prop :=
  forall d, ns' !! d = ns !! d \/ (ns !! d = None /\ d `prefix_of` k) \/ d = k.

Lemma wrote_refl k ns : wrote k ns ns.
Proof. intros d. by left. Qed.

Lemma wrote_then k ns1 ns2 ns3 : dirs_added k ns1 ns2 -> (ns3 = ns2 \/ exists b, ns3 = <[k := File b]> ns2) -> wrote k ns1 ns3.
Proof.
  intros H1 H2 d. destruct (decide (d = k)) as [->|Hd]; [auto|].
  assert (ns3 !! d = ns2 !! d) as -> by (destruct H2 as [->|[b ->]]; [done|by rewrite lookup_insert_ne]).
  destruct (H1 d) as [->|(? & _ & ?)]; auto.
Qed.

Lemma abs_parent_key k n parts : path_parent (abs (k ++ parts ++ [n])) = Some (abs (k ++ parts)).
Proof. rewrite app_assoc. apply path_parent_abs. Qed.

Section Unpack.
Context `{PackageExternals}.
Context (s : CacheScope) (bk : Key) (Hs : scope_at true s bk).
#[local] Abbreviation vk := (version_key s bk).

Lemma write_to_file_spec f parts fs : join_path true (version s) (path f) = abs (vk ++ parts) -> parts <> [] ->
  tree_ok (nodes fs) -> straight (nodes fs) (vk ++ parts) ->
  ends (write_to_file f (version s)) fs (fun r fs' => held fs' = held fs /\ calm fs fs' /\ tree_ok (nodes fs') /\
    wrote (vk ++ parts) (nodes fs) (nodes fs')).
Proof.
  intros Hj Hne Ht Hst. unfold write_to_file. rewrite Hj. destruct parts as [|n parts _] using rev_ind; [done|].
  rewrite abs_parent_key. set (k := vk ++ parts ++ [n]) in *.
  assert (Hpre : vk ++ parts `prefix_of` k) by (exists [n]; unfold k; by rewrite <- app_assoc).
  assert (Hpar : straight (nodes fs) (vk ++ parts)) by (unfold k in Hst; rewrite app_assoc in Hst; by eapply straight_app).
  eapply ends_bind_mono with (P := fun r fs' => held fs' = held fs /\ calm fs fs' /\ tree_ok (nodes fs') /\
    dirs_added k (nodes fs) (nodes fs')).
  { eapply ends_bind_mono; [by apply path_exists_spec|..]; [|by intros e fs' (_ & ? & ? & _)].
    intros e fs1 ((Hn1 & Hh1 & Hc1) & ? & [= <-] & _ & _). destruct e.
    - apply ends_ret. rewrite Hn1. split_and!; auto using dirs_added_refl.
    - apply ends_ignore. eapply ends_mono; [by apply create_dir_all_spec; rewrite Hn1|].
      intros r fs2 (Hh2 & Hc2 & Ht2 & Hd). unfold calm in *. rewrite Hn1 in Hd.
      split_and!; [congruence|auto|done|by eapply dirs_added_prefix]. }
  2: { intros e fs1 (Hh1 & Hc1 & Ht1 & Hd1). split_and!; auto. eapply wrote_then; [exact Hd1|auto]. }
  intros [] fs1 (Hh1 & Hc1 & Ht1 & Hd1).
  assert (Hst1 : straight (nodes fs1) k) by by eapply dirs_added_straight.
  assert (Hlook : forall fs2, same fs1 fs2 -> held fs2 = held fs /\ calm fs fs2 /\ tree_ok (nodes fs2) /\ wrote k (nodes fs) (nodes fs2)).
  { intros fs2 (Hn2 & Hh2 & Hc2). unfold calm in *. rewrite Hn2. split_and!; [congruence|auto|done|]. eapply wrote_then; [exact Hd1|auto]. }
  eapply (ends_reads _ _ _ (fun _ => True)); [eapply reads_mono; [apply path_exists_reads|by intros]| |auto].
  intros e fs2 S2 _.
  eapply (ends_reads _ _ _ (fun _ => True)); [| |intros er fs3 S3; apply Hlook; by etransitivity].
  { destruct e; [|by apply reads_ret; intros ?]. eapply reads_attempt; [apply fs_read_spec; by rewrite (proj1 S2)|].
    intros r _. by apply reads_ret; intros ?. }
  intros sc fs3 S3 _. pose proof (transitivity S2 S3) as S. destruct sc; [by apply Hlook|].
  apply ends_ignore. destruct S as (Hn & Hh & Hc). unfold k at 1. rewrite app_assoc.
  eapply ends_mono; [apply fs_write_spec; rewrite Hn; [done|by rewrite <- app_assoc]|]. rewrite <- app_assoc. fold k. rewrite Hn.
  intros r fs4 (Hh4 & Hc4 & Ht4 & Hn4). unfold calm in *. split_and!; [congruence|auto|done|].
  eapply wrote_then; [exact Hd1|]. destruct Hn4 as [?|(b & _ & ?)]; eauto.
Qed.

(** A target names the place the file is written to. *)
Lemma target_join_spec c rel ns : scope c = s -> tree_ok ns ->
  reads ns (target true c rel) (if_ok (fun p => exists parts, p = abs (vk ++ parts) /\ parts <> []
    /\ relative_path true rel = Ok (Normal <$> parts) /\ join_path true (version s) rel = p
    /\ straight ns (vk ++ parts) /\ owned s bk ns)).
Proof.
  intros Hc Ht. unfold target. rewrite Hc. eapply reads_then; [by apply verify_owner_spec|]. intros [] (_ & _ & _ & Ho & _).
  eapply (reads_then _ _ _ (fun p => relative_path true rel = Ok p)); [by apply reads_lift; intros ? ?|].
  intros p Hp. pose proof Hp as Hp'. apply relative_path_ok in Hp' as (parts & -> & Hne & _).
  rewrite (scope_version true s bk Hs).
  assert (E : abs vk ++ (Normal <$> parts) = abs (vk ++ parts)) by (unfold abs; by rewrite fmap_app).
  rewrite E. eapply reads_then; [by apply no_links_spec|]. intros [] Hst. apply reads_ret. intros _ [= <-].
  exists parts. split_and!; [done..|by rewrite (relative_join _ _ _ Hp)|done|done].
Qed.

(** The file [f] is in the version directory with the recorded content. *)
Definition verified (ns : Nodes) (f : BinaryData) : Prop := exists parts b,
  relative_path true (path f) = Ok (Normal <$> parts) /\ ns !! (vk ++ parts) = Some (File b) /\ md5_hex b = md5_record f.

(** What an unpacking step may change: something below the version directory *)
Definition inside (ns ns' : Nodes) : Prop := forall d, ns' !! d = ns !! d \/ (vk `prefix_of` d /\ d <> vk).

Lemma inside_refl ns : inside ns ns.
Proof. intros d. by left. Qed.
Lemma inside_trans ns1 ns2 ns3 : inside ns1 ns2 -> inside ns2 ns3 -> inside ns1 ns3.
Proof. intros H1 H2 d. destruct (H1 d) as [E1|?]; [|by right]. destruct (H2 d) as [E2|?]; [left; congruence|by right]. Qed.

Lemma wrote_inside parts ns ns' : tree_ok ns -> ns !! vk = Some Dir -> parts <> [] -> wrote (vk ++ parts) ns ns' -> inside ns ns'.
Proof.
  intros Ht Hd Hne Hw d. destruct (Hw d) as [?|[[Hn Hp]| ->]]; [by left|..]; right.
  - destruct (prefix_weak_total d vk (vk ++ parts) Hp (prefix_app_r _ _ _ (reflexivity _))) as [[r Hr]|Hv].
    + exfalso. destruct (decide (r = [])) as [->|Hr']; [rewrite app_nil_r in Hr; congruence|].
      assert (ns !! d = Some Dir); [|congruence]. apply (tree_ok_above ns d r Ht Hr'). rewrite <- Hr. eauto.
    + split; [done|]. intros ->. congruence.
  - split; [by apply prefix_app_r|]. intros E. apply (f_equal length) in E. rewrite length_app in E. destruct parts; [done|simpl in E; lia].
Qed.

(** A file stays verified when another one is written. *)
Lemma verified_kept f parts ns ns' : wrote (vk ++ parts) ns ns' -> relative_path true (path f) <> Ok (Normal <$> parts) ->
  verified ns f -> verified ns' f.
Proof.
  intros Hw Hne (parts' & b & Hr & Hb & Hm). exists parts', b. split_and!; [done| |done].
  destruct (Hw (vk ++ parts')) as [->|[[Hn _]|E]]; [done|congruence|].
  apply app_inv_head in E as ->. done.
Qed.

Lemma unpack_file_spec c f fs : scope c = s -> tree_ok (nodes fs) ->
  ends (unpack_file c f) fs (fun r fs' => held fs' = held fs /\ calm fs fs' /\ tree_ok (nodes fs') /\ inside (nodes fs) (nodes fs') /\
    (r = Ok tt -> verified (nodes fs') f /\
       forall g, relative_path true (path g) <> relative_path true (path f) -> verified (nodes fs) g -> verified (nodes fs') g)).
Proof.
  intros Hc Ht. unfold unpack_file. rewrite Hc.
  eapply ends_reads; [by apply target_join_spec| |].
  2: { intros e fs' (Hn & Hh & Hcc). rewrite Hn. split_and!; auto using inside_refl; done. }
  intros t fs1 (Hn1 & Hh1 & Hc1) (parts & -> & Hne & Hrel & Hj & Hst & [Hd _]). rewrite <- Hn1 in Ht, Hst.
  eapply ends_bind_mono; [by apply write_to_file_spec|..]; rewrite Hn1, Hh1.
  2: { intros e fs2 (Hh2 & Hc2 & Ht2 & Hw). unfold calm in *. rewrite Hn1 in Ht. split_and!; auto; try done. by eapply wrote_inside. }
  rewrite Hn1 in Ht. intros [] fs2 (Hh2 & Hc2 & Ht2 & Hw).
  assert (Hin : inside (nodes fs) (nodes fs2)) by by eapply wrote_inside.
  eapply ends_attempt_bind; [by apply (target_join_spec c (path f) (nodes fs2) Hc Ht2)|].
  intros again fs3 [S3 Hag]. pose proof S3 as (Hn3 & Hh3 & Hc3).
  eapply (ends_reads _ _ _ (fun v => v = true -> verified (nodes fs2) f)).
  { rewrite Hn3. destruct again as [t'|e]; simpl; [|by apply reads_ret; intros ? [= <-]].
    destruct (Hag t' eq_refl) as (parts' & -> & _ & Hrel' & _ & Hst' & _).
    rewrite Hrel in Hrel'. injection Hrel' as E. apply (list_fmap_eq_inj Normal) in E as <-; [|by intros ?? [=]].
    eapply reads_attempt; [by apply fs_read_spec|]. intros r Hr. apply reads_ret. intros v [= <-].
    destruct r as [b|]; [|done]. intros Hm. bools. exists parts, b. split_and!; [done|by apply Hr|done]. }
  2: { intros er fs4 (Hn4 & Hh4 & Hc4). unfold calm in *. rewrite Hn4, Hn3. split_and!; [congruence|auto|done|done|done]. }
  intros v fs4 (Hn4 & Hh4 & Hc4) Hv. unfold calm in *.
  destruct v; unfold ends; simpl; rewrite Hn4, Hn3; (split_and!; [congruence|auto|done|done|]); [|done].
  intros _. split; [by apply Hv|]. intros g Hg Hgv. eapply verified_kept; [exact Hw| |done]. by rewrite <- Hrel.
Qed.

Lemma unpack_files_spec c l : forall fs, scope c = s -> tree_ok (nodes fs) ->
  ends (unpack_files c l) fs (fun r fs' => held fs' = held fs /\ calm fs fs' /\ tree_ok (nodes fs') /\ inside (nodes fs) (nodes fs') /\
    (r = Ok tt -> NoDup (relative_path true <$> (path <$> l)) ->
      (forall f, f ∈ l -> verified (nodes fs') f) /\
      forall g, relative_path true (path g) ∉ relative_path true <$> (path <$> l) -> verified (nodes fs) g -> verified (nodes fs') g)).
Proof.
  induction l as [|f l IH]; intros fs Hc Ht; cbn [unpack_files].
  - unfold ends, calm. simpl. split_and!; [done|by intros|done|apply inside_refl|]. intros _ _. split; [|done]. intros f Hf. by apply not_elem_of_nil in Hf.
  - eapply ends_bind_mono; [by apply unpack_file_spec|..].
    2: { intros e fs1 (Hh1 & Hc1 & Ht1 & Hi1 & _). split_and!; auto; done. }
    intros [] fs1 (Hh1 & Hc1 & Ht1 & Hi1 & Hv1). destruct (Hv1 eq_refl) as [Hf Hkeep].
    eapply ends_mono; [by apply IH|]. intros r fs2 (Hh2 & Hc2 & Ht2 & Hi2 & Hr). unfold calm in *.
    split_and!; [congruence|auto|done|by eapply inside_trans|]. intros Hok Hnd. cbn [fmap list_fmap] in Hnd.
    apply NoDup_cons in Hnd as [Hnin Hnd]. destruct (Hr Hok Hnd) as [Hall Hk]. split.
    + intros g Hg. apply elem_of_cons in Hg as [->|Hg]; [|by apply Hall]. by apply Hk.
    + intros g Hg Hgv. cbn [fmap list_fmap] in Hg. apply not_elem_of_cons in Hg as [Hg1 Hg2]. apply Hk; [done|]. by apply Hkeep.
Qed.

Lemma fs_read_any ns p : reads ns (fs_read p) (fun _ => True).
Proof.
  eapply (reads_bind _ _ _ (fun _ => True)); [|intros k _|done].
  - intros fs <-. apply ends_syscall; [|by intros f fs0 Hfs _; split]. intros fs0 Hfs. by split.
  - eapply reads_mono; [apply reads_look|by intros].
Qed.

Context (RUNTIME_BROKER : Path).

Lemma copy_runtime_broker_spec parts fs : parts <> [] -> tree_ok (nodes fs) -> straight (nodes fs) (vk ++ parts) ->
  ends (copy_runtime_broker RUNTIME_BROKER (abs (vk ++ parts))) fs (fun r fs' => held fs' = held fs /\ calm fs fs' /\
    tree_ok (nodes fs') /\ wrote (vk ++ parts) (nodes fs) (nodes fs')).
Proof.
  intros Hne Ht Hst. unfold copy_runtime_broker.
  assert (Hlook : forall fs2, same fs fs2 -> held fs2 = held fs /\ calm fs fs2 /\ tree_ok (nodes fs2) /\ wrote (vk ++ parts) (nodes fs) (nodes fs2)).
  { intros fs2 (Hn2 & Hh2 & Hc2). rewrite Hn2. split_and!; auto using wrote_refl. }
  eapply (ends_reads _ _ _ (fun _ => True)); [eapply reads_mono; [apply path_exists_reads|by intros]| |auto].
  intros e fs1 S1 _.
  eapply (ends_reads _ _ _ (fun _ => True)); [| |intros er fs2 S2; apply Hlook; by etransitivity].
  { destruct e; [|by apply reads_ret; intros ?]. eapply reads_attempt; [apply fs_read_any|]. intros a _.
    eapply reads_attempt; [apply fs_read_any|]. intros b _. by apply reads_ret; intros ?. }
  intros sc fs2 S2 _. pose proof (transitivity S1 S2) as S. destruct sc; [by apply Hlook|].
  eapply (ends_reads _ _ _ (fun _ => True)); [eapply reads_mono; [apply fs_read_any|by intros]| |intros er fs3 S3; apply Hlook; by etransitivity].
  intros bytes fs3 S3 _. pose proof (transitivity S S3) as (Hn & Hh & Hc).
  destruct parts as [|n parts _] using rev_ind; [done|]. rewrite app_assoc in *.
  eapply ends_mono; [by apply fs_write_spec; rewrite Hn|]. rewrite Hn. intros r fs4 (Hh4 & Hc4 & Ht4 & Hn4).
  unfold calm in *. split_and!; [congruence|auto|done|].
  eapply wrote_then; [apply dirs_added_refl|]. destruct Hn4 as [?|(b & _ & ?)]; eauto.
Qed.

Context (BROKER_EXE : str).

(** What a started program was unpacked to *)
Definition launched (reader : BinaryReader) (e : Path) (ns : Nodes) : Prop :=
  owned s bk ns /\ ready s bk ns
  /\ (exists parts b, e = abs (vk ++ parts) /\ relative_path true (exe reader) = Ok (Normal <$> parts)
                      /\ ns !! (vk ++ parts) = Some (File b))
  /\ (NoDup (relative_path true <$> (path <$> files reader) ++ [BROKER_EXE; META_FILE]) ->
      forall f, f ∈ files reader -> verified ns f).

Lemma unpack_spec c reader fs : scope c = s -> tree_ok (nodes fs) -> nodes fs !! vk = Some Dir ->
  ends (unpack BROKER_EXE RUNTIME_BROKER reader c) fs (fun r fs' => tree_ok (nodes fs') /\ inside (nodes fs) (nodes fs') /\
    if_ok (fun e => launched reader e (nodes fs')) r).
Proof.
  intros Hc Ht Hd. unfold unpack.
  eapply ends_bind_mono; [by apply unpack_files_spec|..].
  2: { intros e fs1 (Hh1 & Hc1 & Ht1 & Hi1 & _). split_and!; auto. by intros ?. }
  intros [] fs1 (_ & _ & Ht1 & Hi1 & Hv1).
  assert (Hd1 : nodes fs1 !! vk = Some Dir) by (destruct (Hi1 vk) as [->|[_ ?]]; done).
  eapply ends_reads; [by apply target_join_spec| |].
  2: { intros e fs' (Hn & _). rewrite Hn. split_and!; auto. by intros ?. }
  intros t fs2 (Hn2 & _) (bparts & -> & Hbne & Hbrel & _ & Hbst & _). rewrite <- Hn2 in Ht1, Hbst, Hd1.
  eapply ends_bind_mono; [by apply copy_runtime_broker_spec|..]; rewrite Hn2.
  2: { intros e fs3 (_ & _ & Ht3 & Hw). rewrite Hn2 in Ht1, Hd1. split_and!; auto; [|by intros ?].
       eapply inside_trans; [exact Hi1|]. by eapply wrote_inside. }
  rewrite Hn2 in Ht1, Hd1. intros [] fs3 (_ & _ & Ht3 & Hw3).
  assert (Hi3 : inside (nodes fs) (nodes fs3)) by (eapply inside_trans; [exact Hi1|]; by eapply wrote_inside).
  eapply ends_bind_mono; [by apply (mark_ready_spec true s bk Hs)|..].
  2: { intros e fs4 (_ & _ & Ht4 & Hr). split_and!; auto; [|by intros ?]. eapply inside_trans; [exact Hi3|].
       destruct Hr as [[-> _]|(_ & _ & _ & _ & _ & _ & _ & b & -> & _)]; [apply inside_refl|].
       intros d. destruct (decide (d = meta_key s bk)) as [->|Hne]; [right|left; by rewrite lookup_insert_ne].
       split; [apply prefix_meta|]. intros E. apply (f_equal length) in E. unfold meta_key in E. rewrite length_app in E. simpl in E. lia. }
  intros [] fs4 (_ & _ & Ht4 & [[_ ?]|(_ & _ & _ & _ & _ & _ & _ & b & Hn4 & Hb)]); [done|]. specialize (Hb eq_refl). subst b.
  assert (Hw4 : wrote (vk ++ [META_FILE]) (nodes fs3) (nodes fs4)).
  { rewrite Hn4. intros d. destruct (decide (d = meta_key s bk)) as [->|Hne]; [by right; right|left; by rewrite lookup_insert_ne]. }
  assert (Hd3 : nodes fs3 !! vk = Some Dir) by (destruct (Hi3 vk) as [->|[_ ?]]; done).
  assert (Hi4 : inside (nodes fs) (nodes fs4)) by (eapply inside_trans; [exact Hi3|]; by apply (wrote_inside [META_FILE])).
  eapply ends_reads; [by apply target_join_spec| |].
  2: { intros e fs' (Hn & _). rewrite Hn. split_and!; auto. by intros ?. }
  intros e fs5 (Hn5 & _) (parts & -> & Hne & Hrel & _ & Hst & Ho).
  eapply (ends_reads _ _ _ (fun v => v = true -> exists b, nodes fs4 !! (vk ++ parts) = Some (File b))).
  { rewrite Hn5. eapply reads_attempt; [apply reads_look|]. intros r Hr. apply reads_ret. intros v [= <-].
    destruct Hr as [->|[c0 ->]]; [|done].
    destruct (find_straight (nodes fs4) true (vk ++ parts) Ht4 Hst) as [-> | [-> _]]; [|done]. unfold node_at. simpl.
    destruct (nodes fs4 !! (vk ++ parts)) as [[]|]; simpl; try done. eauto. }
  2: { intros er fs' (Hn & _). rewrite Hn, Hn5. split_and!; auto. by intros ?. }
  intros v fs6 (Hn6 & _) Hv. destruct v; unfold ends; simpl; rewrite Hn6, Hn5; (split_and!; auto); [|by intros ?].
  intros e [= <-]. destruct (Hv eq_refl) as [b Hb]. unfold launched. split; [done|]. split; [|split; [exists parts, b; by split_and!|]].
  { exists (str_bytes (ready_text (timestamp s))). rewrite Hn4, lookup_insert_eq. split; [done|]. apply ready_round_trip. by destruct Hs as (_ & _ & ? & _). }
  intros Hnd f Hf. rewrite fmap_app in Hnd. apply NoDup_app in Hnd as (Hnd1 & Hdis & Hnd2).
  assert (Hfin : relative_path true (path f) ∈ relative_path true <$> (path <$> files reader)) by (apply list_elem_of_fmap_2, list_elem_of_fmap_2; done).
  eapply verified_kept; [exact Hw4| |eapply verified_kept; [exact Hw3| |by apply (proj1 (Hv1 eq_refl Hnd1))]].
  - intros E. apply (Hdis _ Hfin). rewrite E. change (Normal <$> [META_FILE]) with [Normal META_FILE]. rewrite <- (meta_target true).
    cbn [fmap list_fmap]. by right; left.
  - intros E. apply (Hdis _ Hfin). rewrite E, <- Hbrel. cbn [fmap list_fmap]. by left.
Qed.
End Unpack.

(** ** Claims *)

Module PortablePackageClaims.

(** C25: What is started was unpacked and verified: [setup] changes nothing outside
    the directories of its brand, its lock and its version directory, whatever
    fails; and when it names a program to start, the version directory carries
    this package's marker and the ready mark of this version, the program is a
    file in it, and every file of the package is there with the content its MD5
    records, unless two entries of the package (or the copied helper, or the ready
    mark) claim the same name. *)
Theorem launched_program_is_verified `{PackageExternals} prefix meta broker source reader base0 clear fs :
  tree_ok (nodes fs) ->
  let '(r, fs') := setup prefix meta broker source reader base0 clear fs in
  nodes fs' = nodes fs /\ r = Ok None
  \/ exists s bk, scope_at true s bk
     /\ (forall d, nodes fs' !! d = nodes fs !! d \/ d = brand_key s bk \/ d = portable_key s bk
                   \/ d = lock_key s bk \/ version_key s bk `prefix_of` d)
     /\ (r = Ok None \/ exists e, r = Ok (Some e) /\ launched s bk broker reader e (nodes fs')).
Proof.
  intros Ht. unfold setup, mbind, Io_bind.
  destruct (scope_new_spec true base0 prefix meta (package_id reader) (nodes fs) Ht fs eq_refl) as [(Hn1 & _) Hs].
  destruct (scope_new true base0 prefix meta (package_id reader) fs) as [[s|e] fs1]; simpl in *; [|left; by split].
  destruct (Hs s eq_refl) as [bk Hat]. rewrite <- Hn1 in Ht.
  pose proof (cache_prepare_spec true s bk Hat clear fs1 Ht) as Hp. unfold ends in Hp.
  destruct (prepare true s clear fs1) as [[c|e] fs2]; simpl in Hp; destruct Hp as (_ & Ht2 & Hperm & Hr).
  2: { right. exists s, bk. split; [done|]. rewrite Hn1 in Hperm. split; [|by left]. intros d. destruct (Hperm d) as [?|[[[?|?] _]|[[? _]|[[[->| ->] _]|[? _]]]]]; auto 10.
       do 4 right. apply prefix_owner. }
  destruct Hr as (Hc & _ & _ & [Hd _] & _).
  pose proof (unpack_spec s bk Hat source broker c reader fs2 ltac:(by rewrite Hc) Ht2 Hd) as Hu. unfold ends in Hu.
  destruct (unpack broker source reader c fs2) as [r fs3]. simpl in *. destruct Hu as (Ht3 & Hin & Hl).
  right. exists s, bk. split; [done|]. split.
  - intros d. rewrite <- Hn1. destruct (Hin d) as [->|[? _]]; [|auto].
    destruct (Hperm d) as [?|[[[?|?] _]|[[? _]|[[[->| ->] _]|[? _]]]]]; auto 10. do 4 right. apply prefix_owner.
  - destruct r as [e|e]; [|by left]. right. exists e. split; [done|]. by apply Hl.
Qed.

(** C26: The package's format is read back: what the packer writes for a table of
    files whose paths are text of less than 1 GiB, with data below 4 GiB and
    32-character MD5s, the reader returns unchanged; and the metadata the packer
    writes gives the version. *)
Theorem package_round_trip r now :
  Forall entry_ok (files r) -> Forall is_scalar (exe r) -> 0 < now <= u_max 64 ->
  read (write_package_metadata r) = Some r /\ metadata_timestamp (write_app_metadata now) = Ok now.
Proof.
  intros Hf He Hn. split; [|by apply ready_round_trip]. unfold read, write_package_metadata.
  set (body := (files r ≫= write_entry) ++ str_bytes identifier ++ str_bytes (exe r)).
  rewrite bool_decide_true.
  2: { unfold body. rewrite !length_app. change (length (str_bytes identifier)) with 8%nat. unfold IDENTIFIER_LENGTH. lia. }
  simpl negb. cbv iota. rewrite slice_app' by done. cbn [mbind option_bind].
  change (from_utf8_lossy (str_bytes identifier)) with identifier. rewrite bool_decide_true by done. simpl negb. cbv iota.
  unfold body. rewrite read_write_entries by (done || lia). cbn [mbind option_bind].
  rewrite from_utf8_lossy_bytes by done. by destruct r.
Qed.

(** Externals of the sample: the digest of a content is its length in decimal,
    padded to 32 characters, and nothing is compressed. *)
#[local] Instance sample_externals : PackageExternals := {
  md5_hex b := replicate (32 - length (fmt_Z (Z.of_nat (length b)))) 48 ++ fmt_Z (Z.of_nat (length b));
  brotli b := b }.

Definition sample_reader : BinaryReader :=
  mkReader [mkData (md5_hex [1; 2; 3]) [1; 2; 3] (lit ".\x.exe")] (lit ".\x.exe").

Definition sample_fs : Fs := mkFs (<[[lit "c"] := File [9]]> (nodes PortableCacheClaims.sample_fs)) [] ∅.
Definition sample_setup : Io (option Path) :=
  setup (lit "a") (str_bytes (lit "timestamp=7")) (lit "r.exe") (abs [lit "c"]) sample_reader (abs PortableCacheClaims.sample_key) false.
Definition sample_exe : Path :=
  abs (version_key PortableCacheClaims.sample_scope PortableCacheClaims.sample_key ++ [lit "x.exe"]).

Lemma sample_package_tree : tree_ok (nodes sample_fs).
Proof.
  apply (tree_ok_insert (nodes PortableCacheClaims.sample_fs) [] (lit "c") (File [9]));
    [apply PortableCacheClaims.sample_tree|by vm_compute|left; by vm_compute].
Qed.

Lemma sample_started : (sample_setup sample_fs).1 = Ok (Some sample_exe).
Proof. vm_compute. reflexivity. Qed.

Lemma launched_program_is_verified_witness : exists s bk,
  launched s bk (lit "r.exe") sample_reader sample_exe (nodes (sample_setup sample_fs).2).
Proof.
  pose proof (launched_program_is_verified (lit "a") (str_bytes (lit "timestamp=7")) (lit "r.exe") (abs [lit "c"])
    sample_reader (abs PortableCacheClaims.sample_key) false sample_fs sample_package_tree) as H.
  pose proof sample_started as E. fold sample_setup in H. destruct (sample_setup sample_fs) as [r fs']. cbn [fst snd] in *. subst r.
  destruct H as [[_ ?]|(s & bk & _ & _ & [?|(e & He & Hl)])]; [done..|]. injection He as <-. by exists s, bk.
Defined.

Lemma package_round_trip_witness :
  read (write_package_metadata sample_reader) = Some sample_reader /\ metadata_timestamp (write_app_metadata 7) = Ok 7.
Proof.
  apply package_round_trip; [|repeat constructor; unfold is_scalar; lia|done].
  repeat constructor; unfold is_scalar; simpl; lia.
Defined.

End PortablePackageClaims.
