(* ===== verification/Posix.v ===== *)
(** * Files, directories and other processes on Linux

    What [ipc/fs.rs] uses of the operating system: inodes with an owner and a
    mode, directory entries, file descriptors that stay with their inode, and
    the system calls on them.  Other processes act between any two calls: the
    function [adv] of the class [World] says what they do, and [interferes] what
    they cannot do (they have neither this process's user nor root).  The
    directory that holds the channel's parent (such as [/tmp]) is [top]; it has
    the sticky bit. *)
From stdpp Require Import base gmap list strings.
From Stdlib Require Import ZArith Lia.
From S2P Require Import Prelude RustStr Effects.

Abbreviation Ino := positive.

Inductive Kind :=
| IDir (entries : gmap str Ino)
| IReg (bytes : list Z)
| ILink (target : option Ino)   (** what it leads to *)
| ISock
| IFifo.

Record Inode := mkInode { kind : Kind; uid : Z; mode : Z }.
#[global] Instance Inode_eta : EtaRecord Inode := fun i => mkInode (kind i) (uid i) (mode i).

Record Px := mkPx { inodes : gmap Ino Inode; top : gmap str Ino }.
#[global] Instance Px_eta : EtaRecord Px := fun p => mkPx (inodes p) (top p).

Inductive Errno :=
| ENOENT | EEXIST | ELOOP | ENOTDIR | EISDIR | ENXIO | ENOTEMPTY | EPERM | EBADF
| EOther (code : Z)
| InvalidInput | PermissionDenied | WriteZero.

#[global] Instance Errno_eq_dec : EqDecision Errno.
Proof. solve_decision. Defined.

(** The process and what surrounds it: its user and umask, what the others do
    before the [n]-th call, whether that call fails for a reason of its own, and
    how many bytes it writes. *)
Class World := {
  euid : Z;
  umask : Z;
  adv : nat -> Px -> Px;
  fault : nat -> option Z;
  short : nat -> nat;
}.

(** [acts]: the inodes this process changed, as they were before each change *)
Record Machine := mkMachine { px : Px; tick : nat; acts : list (Ino * Inode) }.
#[global] Instance Machine_eta : EtaRecord Machine := fun m => mkMachine (px m) (tick m) (acts m).

Definition Sys (A : Type) : Type := Machine -> result Errno A * Machine.
#[global] Instance Sys_ret : MRet Sys := fun A a m => (Ok a, m).
#[global] Instance Sys_bind : MBind Sys := fun A B k c m =>
  match c m with (Ok a, m') => k a m' | (Err e, m') => (Err e, m') end.
Definition fail {A} (e : Errno) : Sys A := fun m => (Err e, m).
Definition try {A} (c : Sys A) : Sys (result Errno A) := fun m => let '(r, m') := c m in (Ok r, m').

Section Calls.
Context `{World}.

(** A call: the others act, then it fails or does its work. *)
Definition call {A} (act : nat -> Px -> result Errno (A * Px * list Ino)) : Sys A := fun m =>
  let p := adv (tick m) (px m) in
  let m1 := mkMachine p (S (tick m)) (acts m) in
  match fault (tick m) with
  | Some c => (Err (EOther c), m1)
  | None =>
    match act (tick m) p with
    | Err e => (Err e, m1)
    | Ok (a, p', l) =>
      (Ok a, mkMachine p' (S (tick m)) (acts m ++ omap (fun i => (fun o => (i, o)) <$> inodes p !! i) l))
    end
  end.

Definition inode_of (p : Px) (i : Ino) : result Errno Inode := ok_or (inodes p !! i) EBADF.
Definition put (p : Px) (i : Ino) (n : Inode) : Px := p <| inodes := <[i := n]> (inodes p) |>.
Definition fresh_ino (p : Px) : Ino := fresh (dom (inodes p)).

(** [open(parent, O_RDONLY|O_DIRECTORY|O_NOFOLLOW)] *)
Definition open_dir (name : str) : Sys Ino := call (fun _ p =>
  i ← ok_or (top p !! name) ENOENT; n ← inode_of p i;
  match kind n with IDir _ => Ok (i, p, []) | ILink _ => Err ELOOP | _ => Err ENOTDIR end).

(** [mkdir(parent, mode)] *)
Definition mkdir (name : str) (md : Z) : Sys unit := call (fun _ p =>
  match top p !! name with
  | Some _ => Err EEXIST
  | None => let i := fresh_ino p in
            Ok (tt, mkPx (<[i := mkInode (IDir ∅) euid (Z.ldiff md umask)]> (inodes p)) (<[name := i]> (top p)), [])
  end).

Definition fstat (fd : Ino) : Sys Inode := call (fun _ p => n ← inode_of p fd; Ok (n, p, [])).

(** [fchown(fd, uid, -1)]: root only *)
Definition fchown (fd : Ino) (u : Z) : Sys unit := call (fun _ p =>
  n ← inode_of p fd; if euid =? 0 then Ok (tt, put p fd (n <| uid := u |>), [fd]) else Err EPERM).

(** [fchmod(fd, mode)]: the owner, or root *)
Definition fchmod (fd : Ino) (md : Z) : Sys unit := call (fun _ p =>
  n ← inode_of p fd;
  if (euid =? 0) || (euid =? uid n) then Ok (tt, put p fd (n <| mode := md |>), [fd]) else Err EPERM).

Definition entry_of (p : Px) (fd : Ino) (name : str) : result Errno (gmap str Ino * Inode * Ino) :=
  n ← inode_of p fd;
  match kind n with
  | IDir es => i ← ok_or (es !! name) ENOENT; Ok (es, n, i)
  | _ => Err ENOTDIR
  end.

(** [fstatat(fd, name, AT_SYMLINK_NOFOLLOW)] *)
Definition fstatat (fd : Ino) (name : str) : Sys Inode := call (fun _ p =>
  '(_, _, i) ← entry_of p fd name; n ← inode_of p i; Ok (n, p, [])).

(** [unlinkat(fd, name, flags)] *)
Definition unlinkat (fd : Ino) (name : str) (removedir : bool) : Sys unit := call (fun _ p =>
  '(es, d, i) ← entry_of p fd name; n ← inode_of p i;
  match kind n with
  | IDir sub => if negb removedir then Err EISDIR else if bool_decide (sub = ∅)
                then Ok (tt, put p fd (d <| kind := IDir (delete name es) |>), [fd]) else Err ENOTEMPTY
  | _ => if removedir then Err ENOTDIR else Ok (tt, put p fd (d <| kind := IDir (delete name es) |>), [fd])
  end).

(** The directory a path goes through: links above the last name are followed. *)
Definition dir_of (p : Px) (name : str) : result Errno (Ino * Inode) :=
  i ← ok_or (top p !! name) ENOENT; n ← inode_of p i;
  match kind n with
  | IDir _ => Ok (i, n)
  | ILink (Some j) => m ← inode_of p j; match kind m with IDir _ => Ok (j, m) | _ => Err ENOTDIR end
  | ILink None => Err ENOENT
  | _ => Err ENOTDIR
  end.

(** [open(dir/name, O_NOFOLLOW|O_NONBLOCK..)]: [create] for [O_CREAT] with a
    mode, [write] for [O_WRONLY] *)
Definition open_file (dir name : str) (create : option Z) (write : bool) : Sys Ino := call (fun _ p =>
  '(d, n) ← dir_of p dir;
  match kind n with
  | IDir es =>
    match es !! name with
    | None =>
      match create with
      | None => Err ENOENT
      | Some md => let i := fresh_ino p in
                   Ok (i, put (put p d (n <| kind := IDir (<[name := i]> es) |>)) i (mkInode (IReg []) euid (Z.ldiff md umask)), [d])
      end
    | Some i =>
      f ← inode_of p i;
      match kind f with
      | ILink _ => Err ELOOP
      | IDir _ => if write then Err EISDIR else Ok (i, p, [])
      | IReg _ => Ok (i, p, [])
      | ISock => Err ENXIO
      | IFifo => if write then Err ENXIO else Ok (i, p, [])
      end
    end
  | _ => Err ENOTDIR
  end).

Definition file_put (p : Px) (fd : Ino) (f : list Z -> list Z) : result Errno (unit * Px * list Ino) :=
  n ← inode_of p fd;
  match kind n with IReg b => Ok (tt, put p fd (n <| kind := IReg (f b) |>), [fd]) | _ => Err EBADF end.

Definition ftruncate (fd : Ino) : Sys unit := call (fun _ p => file_put p fd (fun _ => [])).

(** [write(fd, bytes)]: appends a part (the offset is the end here); the count *)
Definition write (fd : Ino) (bytes : list Z) : Sys nat := call (fun t p =>
  '(_, p', l) ← file_put p fd (fun b => b ++ take (short t) bytes);
  Ok (Nat.min (short t) (length bytes), p', l)).

(** [read(fd, 64 bytes)] of a file just opened *)
Definition read64 (fd : Ino) : Sys (list Z) := call (fun _ p =>
  n ← inode_of p fd; match kind n with IReg b => Ok (take 64 b, p, []) | _ => Err EISDIR end).

(** [chmod(dir/name, mode)] and [unlink(dir/name)], by path *)
Definition chmod_path (dir name : str) (md : Z) : Sys unit := call (fun _ p =>
  '(d, n) ← dir_of p dir;
  match kind n with
  | IDir es =>
    i ← ok_or (es !! name) ENOENT; f ← inode_of p i;
    '(i, f) ← match kind f with
              | ILink (Some j) => g ← inode_of p j; Ok (j, g)
              | ILink None => Err ENOENT
              | _ => Ok (i, f)
              end;
    if (euid =? 0) || (euid =? uid f) then Ok (tt, put p i (f <| mode := md |>), [i]) else Err EPERM
  | _ => Err ENOTDIR
  end).
Definition unlink_path (dir name : str) : Sys unit := call (fun _ p =>
  '(d, n) ← dir_of p dir; '(es, dn, i) ← entry_of p d name; f ← inode_of p i;
  match kind f with IDir _ => Err EISDIR | _ => Ok (tt, put p d (dn <| kind := IDir (delete name es) |>), [d]) end).

(** ** What the others cannot do *)

Definition same_sort (a b : Kind) : Prop :=
  match a, b with
  | IDir _, IDir _ | IReg _, IReg _ | ILink _, ILink _ | ISock, ISock | IFifo, IFifo => True
  | _, _ => False
  end.

(** [mode & 0o022]: the write bits of the group and of the others *)
Definition writable_by_others (md : Z) : bool := negb (Z.land md 18 =? 0).

(** They cannot change the owner, mode or sort of what belongs to this user, nor
    the rest of it unless its mode lets them; they cannot make anything belong
    to this user; an inode keeps its sort; and in the sticky directory they
    cannot rename or replace what belongs to this user. *)
Record interferes (p p' : Px) : Prop := {
  own_kept i n : inodes p !! i = Some n -> uid n = euid ->
    exists n', inodes p' !! i = Some n' /\ uid n' = euid /\ mode n' = mode n
               /\ (writable_by_others (mode n) = false -> n' = n);
  not_forged i n' : inodes p' !! i = Some n' -> uid n' = euid ->
    exists n, inodes p !! i = Some n /\ uid n = euid;
  sort_kept i n : inodes p !! i = Some n -> exists n', inodes p' !! i = Some n' /\ same_sort (kind n) (kind n');
  sticky name i n : top p !! name = Some i -> inodes p !! i = Some n -> uid n = euid -> top p' !! name = Some i;
}.

(** The others of this world keep to that. *)
Definition lawful : Prop := forall t p, interferes p (adv t p).

End Calls.

Lemma same_sort_refl k : same_sort k k.
Proof. by destruct k. Qed.

Lemma same_sort_trans a b c : same_sort a b -> same_sort b c -> same_sort a c.
Proof. by destruct a, b, c. Qed.

#[global] Instance interferes_preorder `{World} : PreOrder interferes.
Proof.
  split.
  - intros p. split; eauto using same_sort_refl.
  - intros p q r [O1 F1 S1 T1] [O2 F2 S2 T2]. split.
    + intros i n Hn Hu. destruct (O1 i n Hn Hu) as (n1 & Hn1 & Hu1 & Hm1 & Hk1).
      destruct (O2 i n1 Hn1 Hu1) as (n2 & Hn2 & Hu2 & Hm2 & Hk2). exists n2. split_and!; [done..|congruence|].
      intros Hw. rewrite Hk2 by (by rewrite Hm1). auto.
    + intros i n Hn Hu. destruct (F2 i n Hn Hu) as (n1 & Hn1 & Hu1). eauto.
    + intros i n Hn. destruct (S1 i n Hn) as (n1 & Hn1 & Hk1). destruct (S2 i n1 Hn1) as (n2 & Hn2 & Hk2).
      eauto using same_sort_trans.
    + intros name i n Ht Hn Hu. destruct (O1 i n Hn Hu) as (n1 & Hn1 & Hu1 & _). eauto.
Qed.

(** ** Reasoning: [ends c m Q], as for the file system of the portable cache *)

Definition ends {A} (c : Sys A) (m : Machine) (Q : result Errno A -> Machine -> Prop) : Prop := Q (c m).1 (c m).2.

Lemma sys_mono {A} (c : Sys A) m (P Q : result Errno A -> Machine -> Prop) :
  ends c m P -> (forall r m', P r m' -> Q r m') -> ends c m Q.
Proof. unfold ends. auto. Qed.

Lemma sys_bind {A B} (c : Sys A) (k : A -> Sys B) m (P : result Errno A -> Machine -> Prop) Q :
  ends c m P -> (forall a m', P (Ok a) m' -> ends (k a) m' Q) -> (forall e m', P (Err e) m' -> Q (Err e) m') ->
  ends (c ≫= k) m Q.
Proof. intros H Hk He. unfold ends, mbind, Sys_bind in *. destruct (c m) as [[a|e] m']; simpl in *; [by apply Hk|by apply He]. Qed.

Lemma ends_try {A B} (c : Sys A) (k : result Errno A -> Sys B) m (P : result Errno A -> Machine -> Prop) Q :
  ends c m P -> (forall r m', P r m' -> ends (k r) m' Q) -> ends (try c ≫= k) m Q.
Proof. intros H Hk. unfold ends, try, mbind, Sys_bind in *. destruct (c m) as [r m']; simpl in *. by apply Hk. Qed.

Lemma sys_ret {A} (a : A) m (Q : result Errno A -> Machine -> Prop) : Q (Ok a) m -> ends (mret a) m Q.
Proof. done. Qed.
Lemma ends_fail {A} e m (Q : result Errno A -> Machine -> Prop) : Q (Err e) m -> ends (fail e) m Q.
Proof. done. Qed.

(** A call: after the others acted, it fails or does its work. *)
Lemma ends_call `{World} {A} (act : nat -> Px -> result Errno (A * Px * list Ino)) m Q :
  (forall p, p = adv (tick m) (px m) ->
     (forall e, Q (Err e) (mkMachine p (S (tick m)) (acts m))) /\
     (forall a p' l, act (tick m) p = Ok (a, p', l) ->
        Q (Ok a) (mkMachine p' (S (tick m)) (acts m ++ omap (fun i => (fun o => (i, o)) <$> inodes p !! i) l)))) ->
  ends (call act) m Q.
Proof.
  intros HQ. destruct (HQ _ eq_refl) as [He Ho]. unfold ends, call. destruct (fault (tick m)); [apply He|].
  destruct (act (tick m) (adv (tick m) (px m))) as [[[a p'] l]|e] eqn:E; [by apply Ho|apply He].
Qed.
