(* ===== verification/IpcChannel.v ===== *)
(** * The local channels between the processes of the client (Linux)

    [ipc/fs.rs] (the directory of the channel's socket is opened, checked and
    hardened before anything is created in it; pid files; stale sockets),
    [ipc/auth.rs] (who may connect to a service channel; the throttled log) and
    [start] and [new_listener] of [ipc.rs].  Other processes act between the
    system calls ([Posix]).  The names of channels and the location of their
    sockets come from the [hbb_common] submodule and are given by [IpcEnv]. *)
From stdpp Require Import base gmap list strings.
From Stdlib Require Import ZArith Lia.
From S2P Require Import Prelude RustStr Effects Posix.

Class IpcEnv := {
  is_service_ipc_postfix : str -> bool;
  ipc_path : str -> str * str;          (** [Config::ipc_path]: directory and file name *)
  process_id : Z;                       (** [std::process::id()] *)
  probe : nat -> str -> bool;           (** [probe_existing_listener], at the first and at the second call: someone answers *)
  same_name : Z -> bool;                (** the process exists and has this process's name *)
}.

Definition POSTFIX_SERVICE : str := lit "_service".

(** Octal modes *)
Definition mode_0711 : Z := 457.
Definition mode_0700 : Z := 448.
Definition mode_0600 : Z := 384.
Definition mode_0666 : Z := 438.
Definition mode_7777 : Z := 4095.

Section Fs.
Context `{World} `{IpcEnv}.

Definition expected_ipc_parent_mode (postfix : str) : Z :=
  if is_service_ipc_postfix postfix then mode_0711 else mode_0700.

Definition is_dir_kind (k : Kind) : bool := match k with IDir _ => true | _ => false end.
Definition is_reg_kind (k : Kind) : bool := match k with IReg _ => true | _ => false end.

Definition remove_parent_entry_via_fd (fd : Ino) (entry_name : str) : Sys unit :=
  if existsb (fun c => c =? 47) entry_name then fail InvalidInput
  else if existsb (fun c => c =? 0) entry_name then fail InvalidInput
  else
    r ← try (fstatat fd entry_name);
    match r with
    | Err ENOENT => mret tt
    | Err e => fail e
    | Ok st =>
      r ← try (unlinkat fd entry_name (is_dir_kind (kind st)));
      match r with Ok _ | Err ENOENT => mret tt | Err e => fail e end
    end.

Definition ipc_basename (postfix : str) : str := lit "ipc" ++ postfix.

Definition scrub_preexisting_ipc_parent_entries (fd : Ino) (postfix : str) : Sys unit :=
  _ ← remove_parent_entry_via_fd fd (ipc_basename postfix);
  remove_parent_entry_via_fd fd (ipc_basename postfix ++ lit ".pid").

Definition remove_ipc_socket_via_secure_parent_fd (postfix : str) : Sys unit :=
  r ← try (open_dir (ipc_path postfix).1);
  match r with
  | Err ENOENT => mret tt
  | Err e => fail e
  | Ok fd => remove_parent_entry_via_fd fd (ipc_basename postfix)
  end.

(** The directory is opened, or created and opened. *)
Definition open_or_create_parent (parent postfix : str) : Sys Ino :=
  r ← try (open_dir parent);
  match r with
  | Ok fd => mret fd
  | Err ENOENT =>
    r ← try (mkdir parent (expected_ipc_parent_mode postfix));
    match r with Ok _ | Err EEXIST => open_dir parent | Err e => fail e end
  | Err e => fail e
  end.

(** Root takes over the directory of a service channel; [true] when it did. *)
Definition adopt_parent (fd : Ino) (st : Inode) (postfix : str) : Sys (Inode * bool) :=
  if negb (uid st =? euid) && (euid =? 0) && is_service_ipc_postfix postfix then
    r ← try (fchown fd euid);
    match r with
    | Ok _ => r2 ← try (fstat fd); match r2 with Ok st2 => mret (st2, true) | Err _ => mret (st, false) end
    | Err _ => mret (st, false)
    end
  else mret (st, false).

(** [ensure_secure_ipc_parent_dir]: whether stale entries should be removed *)
Definition ensure_secure_ipc_parent_dir (parent postfix : str) : Sys bool :=
  fd ← open_or_create_parent parent postfix;
  st ← fstat fd;
  if negb (is_dir_kind (kind st)) then fail PermissionDenied
  else
    '(st, adopted_foreign_service_parent) ← adopt_parent fd st postfix;
    if negb (uid st =? euid) then fail PermissionDenied
    else
      let expected_mode := expected_ipc_parent_mode postfix in
      let current_mode := Z.land (mode st) mode_7777 in
      let repaired_parent_mode := negb (current_mode =? expected_mode) in
      let had_untrusted_parent_mode := writable_by_others current_mode in
      _ ← (if repaired_parent_mode then fchmod fd expected_mode else mret tt);
      mret (repaired_parent_mode || adopted_foreign_service_parent || had_untrusted_parent_mode).

Definition scrub_secure_ipc_parent_dir (parent postfix : str) : Sys unit :=
  fd ← open_dir parent; scrub_preexisting_ipc_parent_entries fd postfix.

(** ** Pid files *)

Definition get_pid_file (postfix : str) : str * str :=
  let '(dir, file) := ipc_path postfix in (dir, file ++ lit ".pid").

(** [while written < buf.len()]: every turn writes at least one byte or fails *)
Fixpoint write_loop (fuel : nat) (fd : Ino) (buf : list Z) : Sys unit :=
  match fuel with
  | O => mret tt
  | S fuel =>
    match buf with
    | [] => mret tt
    | _ => n ← write fd buf; if bool_decide (n = 0%nat) then fail WriteZero else write_loop fuel fd (drop n buf)
    end
  end.

Definition write_pid_file (dir name : str) : Sys unit :=
  fd ← open_file dir name (Some mode_0600) true;
  st ← fstat fd;
  if negb (is_reg_kind (kind st)) then fail PermissionDenied
  else if negb (uid st =? euid) then fail PermissionDenied
  else
    _ ← fchmod fd mode_0600;
    _ ← ftruncate fd;
    let buf := fmt_Z process_id in
    write_loop (length buf) fd buf.

Definition write_pid (postfix : str) : Sys unit :=
  let '(dir, name) := get_pid_file postfix in _ ← try (write_pid_file dir name); mret tt.

Definition read_pid_file_secure (dir name : str) : Sys (option Z) :=
  r ← try (
    fd ← open_file dir name None false;
    st ← fstat fd;
    if negb (is_reg_kind (kind st)) then fail PermissionDenied else read64 fd);
  match r with
  | Ok [] | Err _ => mret None
  | Ok buffer => mret (parse_u 64 (trim (from_utf8_lossy buffer)))
  end.

(** Whether a listener of this channel is alive; a stale socket is removed. *)
Definition check_pid (postfix : str) : Sys bool :=
  let '(dir, name) := get_pid_file postfix in
  pid ← read_pid_file_secure dir name;
  let by_pid := match pid with Some pid => (0 <? pid) && same_name pid && probe 0 postfix | None => false end in
  if by_pid then mret true
  else if probe 1 postfix then mret true
  else _ ← try (remove_ipc_socket_via_secure_parent_fd postfix); mret false.

Definition should_scrub_parent_entries_after_check_pid (should_scrub existing_listener_alive : bool) : bool :=
  should_scrub && negb existing_listener_alive.

(** The part of [new_listener] before the socket is created *)
Definition secure_channel_dir (postfix : str) : Sys unit :=
  let '(dir, file) := ipc_path postfix in
  should_scrub ← ensure_secure_ipc_parent_dir dir postfix;
  alive ← check_pid postfix;
  if should_scrub_parent_entries_after_check_pid should_scrub alive then scrub_secure_ipc_parent_dir dir postfix else mret tt.

(** [new_listener]; [incoming] is [Endpoint::incoming] of the [parity_tokio_ipc]
    crate, which creates the socket at the path. *)
Definition new_listener (incoming : str * str -> Sys unit) (postfix : str) : Sys unit :=
  _ ← secure_channel_dir postfix;
  let '(dir, file) := ipc_path postfix in
  _ ← incoming (dir, file);
  let socket_mode := if is_service_ipc_postfix postfix then mode_0666 else mode_0600 in
  r ← try (chmod_path dir file socket_mode);
  match r with
  | Err e => _ ← try (unlink_path dir file); fail e
  | Ok _ => write_pid postfix
  end.

End Fs.

(** ** Who may connect *)

(** What the peer's socket and the system tell: [SO_PEERCRED], the active user
    as the platform layer prints it, the resolved executables *)
Record Peer := mkPeer {
  peer_cred : option (Z * Z);            (** pid and uid *)
  active_userid : str;
  peer_exe : Z -> result unit str;
  current_exe : result unit str;
}.

Definition is_allowed_service_peer_uid (peer_uid : Z) (active_uid : option Z) : bool :=
  (peer_uid =? 0) || match active_uid with Some uid => uid =? peer_uid | None => false end.

Definition active_uid_strict (p : Peer) : option Z := parse_u 32 (trim (active_userid p)).
Definition peer_uid_from_fd (p : Peer) : option Z := snd <$> peer_cred p.
Definition peer_pid_from_fd (p : Peer) : option Z :=
  '(pid, _) ← peer_cred p; if 0 <? pid then Some pid else None.

Definition executable_paths_match (left right : str) : bool := bool_decide (left = right).

Definition ensure_peer_executable_matches_current_by_pid (p : Peer) (pid : Z) : result unit unit :=
  peer ← peer_exe p pid;
  current ← current_exe p;
  if executable_paths_match peer current then Ok tt else Err tt.
Definition ensure_peer_executable_matches_current_by_pid_opt (p : Peer) (pid : option Z) : result unit unit :=
  pid ← ok_or pid tt; ensure_peer_executable_matches_current_by_pid p pid.

Definition service_authorization_status (p : Peer) : bool :=
  match peer_uid_from_fd p with Some uid => is_allowed_service_peer_uid uid (active_uid_strict p) | None => false end.

Definition authorize_service_scoped_ipc_connection (p : Peer) : bool :=
  if negb (service_authorization_status p) then false
  else is_ok (ensure_peer_executable_matches_current_by_pid_opt p (peer_pid_from_fd p)).

(** ** The log of refusals: times in nanoseconds *)

Definition UNAUTHORIZED_IPC_LOG_INTERVAL : Z := 5 * 1000000000.
Record Throttle := mkThrottle { last_log_at : option Z; suppressed : Z }.

Definition on_reject (t : Throttle) (now : Z) : option Z * Throttle :=
  if match last_log_at t with
     | Some last => Z.max 0 (now - last) <? UNAUTHORIZED_IPC_LOG_INTERVAL
     | None => false end
  then (None, mkThrottle (last_log_at t) (u64_add (suppressed t) 1))
  else (Some (suppressed t), mkThrottle (Some now) 0).

(** ** Serving a connection *)

Section Serve.
Context {Data : Type} (is_sync_config : Data -> bool) `{IpcEnv}.

Inductive Frame := Closed | Undecodable | Message (d : Data).

(** The loop of one connection: the data given to [handle] *)
Fixpoint serve (postfix : str) (frames : list Frame) : list Data :=
  match frames with
  | [] => []
  | Closed :: _ => []
  | Message d :: r =>
    if bool_decide (postfix = POSTFIX_SERVICE) then
      if is_sync_config d then d :: serve postfix r else []
    else d :: serve postfix r
  | Undecodable :: r => if bool_decide (postfix = POSTFIX_SERVICE) then [] else serve postfix r
  end.

(** [start]: each connection, admitted or not *)
Definition start (postfix : str) (conns : list (Peer * list Frame)) : list (list Data) :=
  (fun '(p, frames) =>
     if is_service_ipc_postfix postfix && negb (authorize_service_scoped_ipc_connection p) then []
     else serve postfix frames) <$> conns.

End Serve.

(** ** The directory of the channel *)

Section Dir.
Context `{World} `{IpcEnv} (Hlaw : lawful).

(** What this process changed since [m]: inodes satisfying [P] when changed *)
Definition acted (P : Ino -> Inode -> Prop) (m m' : Machine) : Prop :=
  exists l, acts m' = acts m ++ l /\ Forall (fun io => P io.1 io.2) l.

Lemma acted_refl P m : acted P m m.
Proof. exists []. by rewrite app_nil_r. Qed.

Lemma acted_trans P m1 m2 m3 : acted P m1 m2 -> acted P m2 m3 -> acted P m1 m3.
Proof. intros (l1 & E1 & F1) (l2 & E2 & F2). exists (l1 ++ l2). rewrite E2, E1, <- app_assoc. split; [done|]. by apply Forall_app. Qed.

Lemma acted_none P m p t : acted P m (mkMachine p t (acts m)).
Proof. exists []. simpl. by rewrite app_nil_r. Qed.

Lemma acted_one P m p t i (o : Inode) q : inodes q !! i = Some o -> P i o ->
  acted P m (mkMachine p t (acts m ++ omap (fun i => (fun o => (i, o)) <$> inodes q !! i) [i])).
Proof. intros Hi Ho. simpl. rewrite Hi. simpl. exists [(i, o)]. split; [done|]. by repeat constructor. Qed.

(** A directory of this user that the others cannot write to *)
Definition hardened (postfix : str) (n : Inode) : Prop :=
  (exists es, kind n = IDir es) /\ uid n = euid /\ Z.land (mode n) mode_7777 = expected_ipc_parent_mode postfix.

Lemma low_bits a : Z.land a 18 = Z.land (Z.land a 4095) 18.
Proof. rewrite <- Z.land_assoc. f_equal. Qed.

Lemma hardened_closed postfix n : hardened postfix n -> writable_by_others (mode n) = false.
Proof.
  intros (_ & _ & Hm). unfold writable_by_others. rewrite low_bits. unfold mode_7777 in Hm. rewrite Hm.
  unfold expected_ipc_parent_mode. by destruct (is_service_ipc_postfix postfix).
Qed.

(** Nothing the others do changes a hardened directory. *)
Lemma hardened_stays postfix n i p p' : hardened postfix n -> inodes p !! i = Some n -> interferes p p' -> inodes p' !! i = Some n.
Proof.
  intros Hn Hi Hp. destruct (own_kept _ _ Hp i n Hi) as (n' & Hn' & _ & _ & E); [apply Hn|].
  rewrite Hn'. f_equal. apply E. by eapply hardened_closed.
Qed.

Lemma open_dir_spec name m : ends (open_dir name) m (fun r m' => acts m' = acts m /\ interferes (px m) (px m') /\
  forall fd, r = Ok fd -> top (px m') !! name = Some fd /\ exists n es, inodes (px m') !! fd = Some n /\ kind n = IDir es).
Proof.
  apply ends_call. intros p ->. split; [by intros e; split_and!; [done|apply Hlaw|]|].
  intros a p' l. unfold inode_of. destruct (top _ !! name) as [i|] eqn:Et; [|done]. simpl.
  destruct (inodes _ !! i) as [n|] eqn:En; [|done]. simpl. destruct (kind n) eqn:Ek; try done. intros [= <- <- <-]. simpl.
  rewrite app_nil_r. split_and!; [done|apply Hlaw|]. intros fd [= <-]. eauto.
Qed.

Lemma fstat_spec fd m : ends (fstat fd) m (fun r m' => acts m' = acts m /\ interferes (px m) (px m') /\
  forall st, r = Ok st -> inodes (px m') !! fd = Some st).
Proof.
  apply ends_call. intros p ->. split; [by intros e; split_and!; [done|apply Hlaw|]|].
  intros a p' l. unfold inode_of. destruct (inodes _ !! fd) as [n|] eqn:En; [|done]. simpl. intros [= <- <- <-]. simpl.
  rewrite app_nil_r. split_and!; [done|apply Hlaw|]. by intros st [= <-].
Qed.

Lemma open_or_create_parent_spec parent postfix m :
  ends (open_or_create_parent parent postfix) m (fun r m' => acts m' = acts m /\
    forall fd, r = Ok fd -> top (px m') !! parent = Some fd /\ exists n es, inodes (px m') !! fd = Some n /\ kind n = IDir es).
Proof.
  unfold open_or_create_parent. eapply ends_try; [apply open_dir_spec|]. intros r m1 (Ha & _ & Hfd).
  destruct r as [fd|e]; [split; [done|]; by intros ? [= <-]; auto|]. destruct e; try (split; by auto).
  eapply ends_try with (P := fun _ m' => acts m' = acts m).
  { apply ends_call. intros p ->. split; [by intros e|]. intros a p' l. destruct (top (adv (tick m1) (px m1)) !! parent); [by intros [=]|]. intros [= <- <- <-].
    simpl. by rewrite app_nil_r, Ha. }
  intros r m2 Ha2. assert (Hopen : ends (open_dir parent) m2 (fun r m' => acts m' = acts m /\
    forall fd, r = Ok fd -> top (px m') !! parent = Some fd /\ exists n es, inodes (px m') !! fd = Some n /\ kind n = IDir es)).
  { eapply sys_mono; [apply open_dir_spec|]. intros r' m3 (Ha3 & _ & Hfd3). split; [congruence|done]. }
  destruct r as [?|e]; [done|]. destruct e; try done; (split; [done|by intros ? [=]]).
Qed.


(** Changing the owner or the mode acts on the inode of the descriptor, which
    keeps being a directory if it was one. *)
Definition dir_at (fd : Ino) (p : Px) : Prop := exists n es, inodes p !! fd = Some n /\ kind n = IDir es.

Lemma dir_at_interferes fd p p' : interferes p p' -> dir_at fd p -> dir_at fd p'.
Proof.
  intros Hi (n & es & Hn & Hk). destruct (sort_kept _ _ Hi fd n Hn) as (n' & Hn' & Hs). rewrite Hk in Hs.
  unfold dir_at. destruct (kind n') eqn:E; try done. eauto.
Qed.

Lemma fchown_spec fd u m : dir_at fd (px m) ->
  ends (fchown fd u) m (fun r m' => acted (fun i _ => i = fd) m m' /\ dir_at fd (px m') /\
    match r with Ok _ => exists n, inodes (px m') !! fd = Some n /\ uid n = u | Err _ => True end).
Proof.
  intros Hd. apply ends_call. intros p ->. pose proof (dir_at_interferes _ _ _ (Hlaw (tick m) (px m)) Hd) as Hd'.
  split; [intros e; split_and!; auto using acted_none|]. intros a p' l. unfold inode_of.
  destruct Hd' as (n & es & Hn & Hk). rewrite Hn. simpl. destruct (euid =? 0); [|done]. intros [= <- <- <-].
  split_and!; [by eapply acted_one| |].
  - eexists _, es. simpl. rewrite lookup_insert_eq. by split.
  - eexists. simpl. rewrite lookup_insert_eq. by split.
Qed.

Lemma fchmod_spec fd md n m : inodes (px m) !! fd = Some n -> uid n = euid ->
  ends (fchmod fd md) m (fun r m' => acted (fun i _ => i = fd) m m' /\
    match r with
    | Ok _ => exists n', interferes (px m) (adv (tick m) (px m)) /\ inodes (adv (tick m) (px m)) !! fd = Some n' /\ uid n' = euid
              /\ px m' = put (adv (tick m) (px m)) fd (n' <| mode := md |>)
    | Err _ => True end).
Proof.
  intros Hn Hu. apply ends_call. intros p ->. split; [intros e; split; auto using acted_none|]. intros a p' l.
  destruct (own_kept _ _ (Hlaw (tick m) (px m)) fd n Hn Hu) as (n' & Hn' & Hu' & _). unfold inode_of. rewrite Hn'. simpl.
  destruct (_ || _); [|done]. intros [= <- <- <-]. split; [by eapply acted_one|]. exists n'. split_and!; [apply Hlaw|done..].
Qed.

Lemma adopt_parent_spec fd st postfix m : dir_at fd (px m) -> inodes (px m) !! fd = Some st ->
  ends (adopt_parent fd st postfix) m (fun r m' => acted (fun i _ => i = fd) m m' /\
    forall st' ad, r = Ok (st', ad) -> uid st' = euid ->
      dir_at fd (px m') /\ inodes (px m') !! fd = Some st' /\ ((ad = false /\ st' = st /\ m' = m) \/ (ad = true /\ euid = 0))).
Proof.
  intros Hd Hst. unfold adopt_parent. destruct (uid st =? euid) eqn:Eu; simpl.
  { apply sys_ret. split; [apply acted_refl|]. intros st' ad [= <- <-] _. split_and!; auto. }
  destruct (euid =? 0) eqn:E0; simpl; [|apply sys_ret; split; [apply acted_refl|]; intros ?? [= <- <-]; bools; done].
  destruct (is_service_ipc_postfix postfix); [|apply sys_ret; split; [apply acted_refl|]; intros ?? [= <- <-]; bools; done].
  eapply ends_try; [by apply fchown_spec|]. intros r m1 (Ha1 & Hd1 & Hr).
  destruct r as [?|e]; [|apply sys_ret; split; [done|]; intros ?? [= <- <-]; bools; done].
  eapply ends_try; [apply fstat_spec|]. intros r2 m2 (Ha2 & Hi2 & Hst2).
  assert (Ha : acted (fun i _ => i = fd) m m2) by (eapply acted_trans; [exact Ha1|]; exists []; rewrite app_nil_r; auto).
  destruct r2 as [st2|e]; [|apply sys_ret; split; [done|]; intros ?? [= <- <-]; bools; done].
  apply sys_ret. split; [done|]. intros ?? [= <- <-] Hu. bools. split_and!; auto. by eapply dir_at_interferes.
Qed.

(** The opened directory is hardened; its path still leads to it unless root took
    it over from someone else. *)
Lemma ensure_secure_ipc_parent_dir_spec parent postfix m :
  ends (ensure_secure_ipc_parent_dir parent postfix) m (fun r m' => exists fd, acted (fun i _ => i = fd) m m' /\
    forall scrub, r = Ok scrub -> exists n, inodes (px m') !! fd = Some n /\ hardened postfix n
      /\ (scrub = false -> acts m' = acts m)
      /\ (scrub = false \/ euid <> 0 -> top (px m') !! parent = Some fd)).
Proof.
  unfold ensure_secure_ipc_parent_dir. eapply sys_bind; [apply open_or_create_parent_spec|..].
  2: { intros e m1 (Ha & _). exists 1%positive. split; [exists []; rewrite app_nil_r; auto|done]. }
  intros fd m1 (Ha1 & Hfd). destruct (Hfd fd eq_refl) as (Ht1 & n1 & es1 & Hn1 & Hk1).
  assert (Hact : forall m', acts m' = acts m -> acted (fun i _ => i = fd) m m') by (intros m' E; exists []; rewrite app_nil_r; auto).
  eapply sys_bind; [apply fstat_spec|..].
  2: { intros e m2 (Ha2 & _). exists fd. split; [apply Hact; congruence|done]. }
  intros st m2 (Ha2 & Hi2 & Hst). specialize (Hst st eq_refl).
  assert (Hd2 : dir_at fd (px m2)) by (eapply dir_at_interferes; [exact Hi2|]; unfold dir_at; eauto).
  destruct (is_dir_kind (kind st)); simpl; [|apply ends_fail; exists fd; split; [apply Hact; congruence|done]].
  eapply sys_bind; [by apply adopt_parent_spec|..].
  2: { intros e m3 (Ha3 & _). exists fd. split; [|done]. eapply acted_trans; [apply (Hact m2); congruence|done]. }
  intros [st' ad] m3 (Ha3 & Hr3).
  assert (Ha3' : acted (fun i _ => i = fd) m m3) by (eapply acted_trans; [apply (Hact m2); congruence|done]).
  destruct (uid st' =? euid) eqn:Eu; simpl; [|apply ends_fail; exists fd; by split]. bools.
  destruct (Hr3 st' ad eq_refl Eu) as (Hd3 & Hst3 & Hcase). destruct Hd3 as (n3 & es3 & Hn3 & Hk3).
  rewrite Hst3 in Hn3. injection Hn3 as <-.
  assert (Hbind : ad = false -> top (px m3) !! parent = Some fd).
  { intros ->. destruct Hcase as [(_ & -> & ->)|[? _]]; [|done].
    destruct (not_forged _ _ Hi2 fd st Hst Eu) as (n0 & Hn0 & Hu0). by eapply (sticky _ _ Hi2). }
  set (current := Z.land (mode st') mode_7777). set (expected := expected_ipc_parent_mode postfix).
  destruct (current =? expected) eqn:Em; simpl.
  - unfold ends, mbind, Sys_bind. simpl. exists fd. split; [done|]. intros scrub [= <-]. bools.
    exists st'. split; [done|]. split; [split_and!; [by exists es3|done|done]|]. split.
    + intros Hs. apply orb_false_elim in Hs as [-> _]. destruct Hcase as [(_ & _ & ->)|[? _]]; [congruence|done].
    + intros Hs. apply Hbind. destruct Hcase as [(-> & _)|[-> E0]]; [done|]. destruct Hs as [Hs|?]; [|done]. by rewrite ?orb_true_l in Hs.
  - eapply sys_bind; [by eapply fchmod_spec|..].
    2: { intros e m4 (Ha4 & _). exists fd. split; [by eapply acted_trans|done]. }
    intros [] m4 (Ha4 & n' & Hi4 & Hn' & Hu' & Hpx). apply sys_ret. exists fd. split; [by eapply acted_trans|].
    intros scrub [= <-]. rewrite Hpx. simpl. eexists. rewrite lookup_insert_eq. split; [done|]. split.
    + destruct (sort_kept _ _ Hi4 fd st' Hst3) as (n'' & Hn'' & Hsort). rewrite Hn' in Hn''. injection Hn'' as <-. rewrite Hk3 in Hsort.
      split_and!; [destruct (kind n') eqn:Ek; try done; simpl; by eexists|done|]. simpl. unfold expected, expected_ipc_parent_mode.
      by destruct (is_service_ipc_postfix postfix).
    + split; [done|]. intros Hs. destruct Hs as [?|Hne]; [done|]. eapply (sticky _ _ Hi4); [|exact Hst3|done].
      apply Hbind. destruct Hcase as [(-> & _)|[_ ?]]; done.
Qed.


(** ** Removing entries *)

(** The channel's directory, by its path, is hardened. *)
Definition bound (postfix parent : str) (fd : Ino) (n : Inode) (p : Px) : Prop :=
  top p !! parent = Some fd /\ inodes p !! fd = Some n /\ hardened postfix n.

Lemma bound_interferes postfix parent fd n p p' : bound postfix parent fd n p -> interferes p p' -> bound postfix parent fd n p'.
Proof.
  intros (Ht & Hn & Hh) Hi. split_and!; [|by eapply hardened_stays|done]. eapply (sticky _ _ Hi); [done|exact Hn|apply Hh].
Qed.

Lemma hardened_entries postfix n es : hardened postfix n -> hardened postfix (n <| kind := IDir es |>).
Proof. intros (_ & Hu & Hm). split_and!; [by exists es|done|done]. Qed.

(** An entry is removed from the descriptor's directory, and nothing else in it. *)
Definition emptied (name : str) (n n' : Inode) : Prop :=
  exists es es', kind n = IDir es /\ kind n' = IDir es' /\ n' = n <| kind := IDir es' |>
                 /\ (forall x, es' !! x = es !! x \/ x = name).

Lemma emptied_refl name n es : kind n = IDir es -> emptied name n n.
Proof. intros Hk. exists es, es. split_and!; [done..|by destruct n; simpl in *; subst|by left]. Qed.

Lemma remove_entry_spec postfix parent fd n name m : bound postfix parent fd n (px m) ->
  ends (remove_parent_entry_via_fd fd name) m (fun r m' => acted (fun i _ => i = fd) m m' /\
    exists n', bound postfix parent fd n' (px m') /\ emptied name n n' /\
      (r = Ok tt -> forall es', kind n' = IDir es' -> es' !! name = None)).
Proof.
  intros Hb. pose proof Hb as (_ & _ & Hh). pose proof Hh as ((es & Hk) & Hu & Hm). unfold remove_parent_entry_via_fd.
  assert (Hstay : forall m' (r : result Errno unit), acts m' = acts m -> bound postfix parent fd n (px m') ->
    (r = Ok tt -> es !! name = None) -> acted (fun i _ => i = fd) m m' /\ exists n', bound postfix parent fd n' (px m') /\
      emptied name n n' /\ (r = Ok tt -> forall es', kind n' = IDir es' -> es' !! name = None)).
  { intros m' r Ha Hb' Hr. split; [exists []; rewrite app_nil_r; auto|]. exists n. split_and!; [done|by eapply emptied_refl|].
    intros Hok es' Hk'. rewrite Hk in Hk'. injection Hk' as <-. auto. }
  destruct (existsb (fun c => c =? 47) name); [by apply ends_fail, Hstay|].
  destruct (existsb (fun c => c =? 0) name); [by apply ends_fail, Hstay|].
  eapply ends_try with (P := fun r m1 => acts m1 = acts m /\ bound postfix parent fd n (px m1) /\
    (r = Err ENOENT -> es !! name = None)).
  { unfold fstatat, ends, call. pose proof (bound_interferes _ _ _ _ _ _ Hb (Hlaw (tick m) (px m))) as Hb1.
    destruct (fault (tick m)); [by split_and!|]. unfold entry_of, inode_of. destruct Hb1 as (Ht1 & Hn1 & _). rewrite Hn1. simpl. rewrite Hk. simpl.
    destruct (es !! name) as [i|]; simpl; [|by split_and!]. destruct (inodes _ !! i); simpl; rewrite ?app_nil_r; by split_and!. }
  intros r m1 (Ha1 & Hb1 & Hne). destruct r as [st|e]; cycle 1.
  { destruct e; try (by apply ends_fail, Hstay). apply sys_ret, Hstay; auto. }
  eapply ends_try with (P := fun r m2 => (acts m2 = acts m /\ bound postfix parent fd n (px m2) /\ (r = Err ENOENT -> es !! name = None) /\ r <> Ok tt)
    \/ (r = Ok tt /\ acts m2 = acts m ++ [(fd, n)] /\ bound postfix parent fd (n <| kind := IDir (delete name es) |>) (px m2))).
  { unfold unlinkat, ends, call. pose proof (bound_interferes _ _ _ _ _ _ Hb1 (Hlaw (tick m1) (px m1))) as Hb2.
    destruct (fault (tick m1)); [left; by split_and!|]. unfold entry_of, inode_of. destruct Hb2 as (Ht2 & Hn2 & _). rewrite Hn2. simpl. rewrite Hk. simpl.
    destruct (es !! name) as [i|] eqn:Ei; simpl; [|left; by split_and!]. destruct (inodes _ !! i) as [f|]; simpl; [|left; by split_and!].
    assert (Hput : (acts m1 ++ omap (fun i0 => (fun o => (i0, o)) <$> inodes (adv (tick m1) (px m1)) !! i0) [fd]) = acts m ++ [(fd, n)]).
    { simpl. rewrite Hn2. simpl. by rewrite Ha1. }
    assert (Hb3 : bound postfix parent fd (n <| kind := IDir (delete name es) |>) (put (adv (tick m1) (px m1)) fd (n <| kind := IDir (delete name es) |>))).
    { split_and!; [done|simpl; by rewrite lookup_insert_eq|by apply hardened_entries]. }
    destruct (kind f); destruct (is_dir_kind (kind st)); simpl; try (left; by split_and!); try (right; by split_and!).
    case_bool_decide; simpl; [right; by split_and!|left; by split_and!]. }
  intros r m2 [(Ha2 & Hb2 & Hne2 & Hnok)|(-> & Ha2 & Hb2)].
  - destruct r as [[]|e]; [done|]. destruct e; try (by apply ends_fail, Hstay). apply sys_ret, Hstay; auto.
  - apply sys_ret. split; [exists [(fd, n)]; split; [done|by repeat constructor]|].
    exists (n <| kind := IDir (delete name es) |>). split_and!; [done| |].
    + exists es, (delete name es). split_and!; [done..|]. intros x. destruct (decide (x = name)) as [->|Hx]; [by right|left; by rewrite lookup_delete_ne].
    + intros _ es' [= <-]. apply lookup_delete_eq.
Qed.

(** Scrubbing a hardened directory removes the channel's socket and pid file. *)
Lemma scrub_spec postfix parent fd n m : bound postfix parent fd n (px m) ->
  ends (scrub_secure_ipc_parent_dir parent postfix) m (fun r m' => exists n', bound postfix parent fd n' (px m') /\
    (r = Ok tt -> forall es, kind n' = IDir es -> es !! ipc_basename postfix = None /\ es !! (ipc_basename postfix ++ lit ".pid") = None)).
Proof.
  intros Hb. unfold scrub_secure_ipc_parent_dir. eapply sys_bind; [apply open_dir_spec|..].
  2: { intros e m1 (_ & Hi & _). exists n. split; [by eapply bound_interferes|done]. }
  intros fd' m1 (_ & Hi & Hfd). pose proof (bound_interferes _ _ _ _ _ _ Hb Hi) as Hb1.
  destruct (Hfd fd' eq_refl) as [Ht _]. assert (fd' = fd) as -> by (destruct Hb1 as (? & _); congruence).
  eapply sys_bind; [by eapply remove_entry_spec|..].
  2: { intros e m2 (_ & n' & Hb2 & _). exists n'. split; [done|done]. }
  intros [] m2 (_ & n2 & Hb2 & (es & es2 & Hk & Hk2 & _) & Hnone). specialize (Hnone eq_refl es2 Hk2).
  eapply sys_mono; [by eapply remove_entry_spec|]. intros r m3 (_ & n3 & Hb3 & (es2' & es3 & Hk2' & Hk3 & _ & Hsame) & Hnone3).
  exists n3. split; [done|]. intros Hok es' Hk'. rewrite Hk3 in Hk'. injection Hk' as <-. rewrite Hk2 in Hk2'. injection Hk2' as <-.
  split; [|by apply Hnone3]. destruct (Hsame (ipc_basename postfix)) as [->|E]; [done|]. exfalso.
  apply (f_equal length) in E. rewrite length_app in E. change (length (lit ".pid")) with 4%nat in E. lia.
Qed.

(** ** Looking without changing *)

Definition observes {A} (c : Sys A) : Prop :=
  forall m, ends c m (fun _ m' => acts m' = acts m /\ interferes (px m) (px m')).

Lemma observes_call {A} (act : nat -> Px -> result Errno (A * Px * list Ino)) :
  (forall t p a p' l, act t p = Ok (a, p', l) -> p' = p /\ l = []) -> observes (call act).
Proof.
  intros Hact m. apply ends_call. intros p ->. split; [intros e; split; [done|apply Hlaw]|].
  intros a p' l E. apply Hact in E as [-> ->]. simpl. rewrite app_nil_r. split; [done|apply Hlaw].
Qed.

Lemma observes_ret {A} (a : A) : observes (mret a).
Proof. intros m. split; [done|reflexivity]. Qed.
Lemma observes_fail {A} e : observes (@fail A e).
Proof. intros m. split; [done|reflexivity]. Qed.

Lemma observes_bind {A B} (c : Sys A) (k : A -> Sys B) : observes c -> (forall a, observes (k a)) -> observes (c ≫= k).
Proof.
  intros Hc Hk m. eapply sys_bind; [apply Hc|..].
  - intros a m1 [Ha Hi]. eapply sys_mono; [apply Hk|]. intros r m2 [Ha2 Hi2]. split; [congruence|by etransitivity].
  - intros e m1 [Ha Hi]. by split.
Qed.

Lemma observes_try {A} (c : Sys A) : observes c -> observes (try c).
Proof. intros Hc m. specialize (Hc m). unfold ends, try in *. by destruct (c m). Qed.

Lemma open_dir_observes name : observes (open_dir name).
Proof. intros m. eapply sys_mono; [apply open_dir_spec|]. intros r m' (Ha & Hi & _). by split. Qed.
Lemma fstat_observes fd : observes (fstat fd).
Proof. intros m. eapply sys_mono; [apply fstat_spec|]. intros r m' (Ha & Hi & _). by split. Qed.

Lemma open_existing_observes dir name wr : observes (open_file dir name None wr).
Proof.
  apply observes_call. intros t p a p' l Hx. destruct (dir_of p dir) as [[d n]|]; [|done]. simpl in Hx.
  destruct (kind n) as [es| | | |]; try done. destruct (es !! name) as [i|]; [|done].
  destruct (inode_of p i) as [f|]; [|done]. simpl in Hx. destruct (kind f), wr; by simplify_eq.
Qed.

Lemma read64_observes fd : observes (read64 fd).
Proof.
  apply observes_call. intros t p a p' l Hx. destruct (inode_of p fd) as [f|]; [|done]. simpl in Hx. destruct (kind f); by simplify_eq.
Qed.

Lemma read_pid_observes dir name : observes (read_pid_file_secure dir name).
Proof.
  apply observes_bind.
  - apply observes_try, observes_bind; [apply open_existing_observes|]. intros fd. apply observes_bind; [apply fstat_observes|]. intros st.
    destruct (negb _); [apply observes_fail|apply read64_observes].
  - intros r. destruct r as [[|b l]|e]; apply observes_ret.
Qed.

(** ** The channel's directory when the socket is created *)

Lemma check_pid_spec postfix fd n m : bound postfix (ipc_path postfix).1 fd n (px m) ->
  ends (check_pid postfix) m (fun _ m' => exists n', bound postfix (ipc_path postfix).1 fd n' (px m')).
Proof.
  intros Hb. unfold check_pid, get_pid_file. destruct (ipc_path postfix) as [dir file] eqn:Ep. simpl in *.
  eapply sys_bind; [apply read_pid_observes|..].
  2: { intros e m1 [_ Hi]. exists n. by eapply bound_interferes. }
  intros pid m1 [_ Hi]. pose proof (bound_interferes _ _ _ _ _ _ Hb Hi) as Hb1.
  destruct (match pid with Some _ => _ | None => _ end); [by exists n|]. destruct (probe 1 postfix); [by exists n|].
  eapply ends_try with (P := fun _ m2 => exists n', bound postfix dir fd n' (px m2)).
  2: { intros r m2 Hb2. exact Hb2. }
  unfold remove_ipc_socket_via_secure_parent_fd. rewrite Ep. simpl.
  eapply ends_try; [apply open_dir_spec|]. intros r m2 (_ & Hi2 & Hfd). pose proof (bound_interferes _ _ _ _ _ _ Hb1 Hi2) as Hb2.
  destruct r as [fd'|e]; [|by destruct e; exists n]. destruct (Hfd fd' eq_refl) as [Ht _].
  assert (fd' = fd) as -> by (destruct Hb2 as (? & _); congruence).
  eapply sys_mono; [by eapply remove_entry_spec|]. intros r m3 (_ & n' & Hb3 & _). eauto.
Qed.

Lemma secure_channel_dir_spec postfix m : euid <> 0 ->
  ends (secure_channel_dir postfix) m (fun r m' => r = Ok tt -> exists fd n, bound postfix (ipc_path postfix).1 fd n (px m')).
Proof.
  intros Hu. unfold secure_channel_dir. destruct (ipc_path postfix) as [dir file] eqn:Ep. simpl.
  eapply sys_bind; [apply ensure_secure_ipc_parent_dir_spec|..]; [|by intros].
  intros scrub m1 (fd & _ & Hok). destruct (Hok scrub eq_refl) as (n & Hn & Hh & _ & Ht).
  assert (Hb : bound postfix (ipc_path postfix).1 fd n (px m1)) by (rewrite Ep; split_and!; auto).
  eapply sys_bind; [by eapply check_pid_spec|..]; [|by intros].
  intros alive m2 (n2 & Hb2). rewrite Ep in Hb2. simpl in Hb2.
  destruct (should_scrub_parent_entries_after_check_pid scrub alive); [|apply sys_ret; eauto].
  eapply sys_mono; [by eapply scrub_spec|]. intros r m3 (n3 & Hb3 & _). eauto.
Qed.

(** ** Pid files *)

(** What the process may change for a pid file: a directory, to enter it, and
    regular files of its own user *)
Definition pid_target (_ : Ino) (n : Inode) : Prop :=
  is_dir_kind (kind n) = true \/ (is_reg_kind (kind n) = true /\ uid n = euid).

Definition own_reg (fd : Ino) (p : Px) : Prop := exists n, inodes p !! fd = Some n /\ is_reg_kind (kind n) = true /\ uid n = euid.

Lemma own_reg_interferes fd p p' : interferes p p' -> own_reg fd p -> own_reg fd p'.
Proof.
  intros Hi (n & Hn & Hk & Hu). destruct (own_kept _ _ Hi fd n Hn Hu) as (n' & Hn' & Hu' & _).
  destruct (sort_kept _ _ Hi fd n Hn) as (n'' & Hn'' & Hs). rewrite Hn' in Hn''. injection Hn'' as <-.
  exists n'. split_and!; [done| |done]. by destruct (kind n), (kind n').
Qed.

(** Every call on an own regular file changes only it, and leaves it that. *)
Lemma own_reg_call {A} fd (act : nat -> Px -> result Errno (A * Px * list Ino)) m :
  (forall t p n a p' l, inodes p !! fd = Some n -> is_reg_kind (kind n) = true -> uid n = euid -> act t p = Ok (a, p', l) ->
     l = [fd] /\ exists n', inodes p' !! fd = Some n' /\ is_reg_kind (kind n') = true /\ uid n' = euid) ->
  own_reg fd (px m) -> ends (call act) m (fun _ m' => acted pid_target m m' /\ own_reg fd (px m')).
Proof.
  intros Hact Ho. apply ends_call. intros p ->. pose proof (own_reg_interferes _ _ _ (Hlaw (tick m) (px m)) Ho) as Ho1.
  split; [intros e; split; [apply acted_none|done]|]. intros a p' l E. destruct Ho1 as (n & Hn & Hk & Hu).
  destruct (Hact _ _ n _ _ _ Hn Hk Hu E) as (-> & n' & Hn' & Hk' & Hu'). split; [eapply acted_one; [exact Hn|by right]|].
  exists n'. by split_and!.
Qed.

Lemma file_put_own fd f p n x p' l : inodes p !! fd = Some n -> is_reg_kind (kind n) = true -> uid n = euid ->
  file_put p fd f = Ok (x, p', l) ->
  l = [fd] /\ exists n', inodes p' !! fd = Some n' /\ is_reg_kind (kind n') = true /\ uid n' = euid.
Proof.
  intros Hn Hk Hu. unfold file_put, inode_of. rewrite Hn. simpl. destruct (kind n); try done. intros [= <- <- <-].
  split; [done|]. eexists. simpl. rewrite lookup_insert_eq. split_and!; done.
Qed.

Lemma write_loop_spec fuel fd : forall buf m, own_reg fd (px m) ->
  ends (write_loop fuel fd buf) m (fun _ m' => acted pid_target m m').
Proof.
  induction fuel as [|fuel IH]; intros buf m Ho; [apply acted_refl|]. cbn [write_loop]. destruct buf as [|b buf]; [apply acted_refl|].
  eapply sys_bind; [eapply (own_reg_call fd); [|done]|..].
  - intros t p n a p' l Hn Hk Hu E. destruct (file_put p fd _) as [[[x q] l']|] eqn:Ef; [|done]. simpl in E. simplify_eq. by eapply file_put_own.
  - intros n m1 [Ha Ho1]. destruct (bool_decide (n = 0%nat)); [done|]. eapply sys_mono; [by apply IH|].
    intros r m2 Ha2. by eapply acted_trans.
  - by intros e m1 [Ha _].
Qed.

Lemma write_pid_file_spec dir name m : ends (write_pid_file dir name) m (fun _ m' => acted pid_target m m').
Proof.
  unfold write_pid_file.
  eapply sys_bind with (P := fun _ m1 => acted pid_target m m1).
  { apply ends_call. intros p ->. split; [intros e; apply acted_none|]. intros a p' l Hx.
    destruct (dir_of _ dir) as [[d n]|] eqn:Ed; [|done]. simpl in Hx. destruct (kind n) as [es| | | |] eqn:Ek; try done.
    assert (Hd : inodes (adv (tick m) (px m)) !! d = Some n).
    { unfold dir_of, inode_of in Ed. destruct (top _ !! dir) as [i|]; [|done]. simpl in Ed. destruct (inodes _ !! i) as [f|] eqn:Ef; [|done].
      simpl in Ed. destruct (kind f) as [| |[j|]| |]; simplify_eq; [done|]. destruct (inodes _ !! j) as [g|] eqn:Eg; [|done].
      simpl in Ed. by destruct (kind g); simplify_eq. }
    destruct (es !! name) as [i|].
    - destruct (inode_of _ i) as [f|]; [|done]. simpl in Hx. destruct (kind f); simplify_eq; apply acted_none || (simpl; rewrite app_nil_r; apply acted_none).
    - simplify_eq. eapply acted_one; [exact Hd|]. left. by rewrite Ek. }
  2: { by intros. }
  intros fd m1 Ha1. eapply sys_bind; [apply fstat_spec|..].
  2: { intros e m2 (Ha2 & _). eapply acted_trans; [exact Ha1|]. exists []. rewrite app_nil_r. auto. }
  intros st m2 (Ha2 & _ & Hst). specialize (Hst st eq_refl).
  assert (Ha : acted pid_target m m2) by (eapply acted_trans; [exact Ha1|]; exists []; rewrite app_nil_r; auto).
  destruct (is_reg_kind (kind st)) eqn:Er; simpl; [|done]. destruct (uid st =? euid) eqn:Eu; simpl; [|done]. bools.
  assert (Ho : own_reg fd (px m2)) by (exists st; auto).
  eapply sys_bind; [eapply (own_reg_call fd); [|done]|..].
  { intros t p n a p' l Hn Hk Hu E. unfold inode_of in E. rewrite Hn in E. simpl in E. destruct (_ || _); [|done]. simplify_eq.
    split; [done|]. eexists. simpl. rewrite lookup_insert_eq. by split_and!. }
  2: { intros e m3 [Ha3 _]. by eapply acted_trans. }
  intros [] m3 [Ha3 Ho3]. eapply sys_bind; [eapply (own_reg_call fd); [|done]|..].
  { intros t p n a p' l Hn Hk Hu E. by eapply file_put_own. }
  2: { intros e m4 [Ha4 _]. eapply acted_trans; [|exact Ha4]. by eapply acted_trans. }
  intros [] m4 [Ha4 Ho4]. eapply sys_mono; [by apply write_loop_spec|]. intros r m5 Ha5.
  eapply acted_trans; [|exact Ha5]. eapply acted_trans; [|exact Ha4]. by eapply acted_trans.
Qed.
End Dir.

(** ** Without the others, what is written is read *)

Section Quiet.
Context `{World} `{IpcEnv} (Hadv : forall t p, adv t p = p) (Hfault : forall t, fault t = None).

Lemma ends_quiet {A} (act : nat -> Px -> result Errno (A * Px * list Ino)) m (Q : result Errno A -> Px -> Prop) :
  match act (tick m) (px m) with Ok (a, p', _) => Q (Ok a) p' | Err e => Q (Err e) (px m) end ->
  ends (call act) m (fun r m' => Q r (px m')).
Proof. intros HQ. unfold ends, call. rewrite Hadv, Hfault. by destruct (act (tick m) (px m)) as [[[a p'] l]|e]. Qed.

(** The path leads to the regular file [fd] with content [b]. *)
Definition file_is (dir name : str) (fd : Ino) (b : list Z) (p : Px) : Prop :=
  exists d n es f, dir_of p dir = Ok (d, n) /\ kind n = IDir es /\ es !! name = Some fd
                   /\ inodes p !! fd = Some f /\ kind f = IReg b.

Lemma dir_of_put p dir d n fd f f' : dir_of p dir = Ok (d, n) -> inodes p !! fd = Some f -> is_reg_kind (kind f) = true ->
  dir_of (put p fd f') dir = Ok (d, n).
Proof.
  unfold dir_of, inode_of. intros Hd Hf Hk. simpl. destruct (top p !! dir) as [i|]; [|done]. simpl in *.
  assert (Hne : forall j g, inodes p !! j = Some g -> is_reg_kind (kind g) = false -> <[fd := f']> (inodes p) !! j = Some g).
  { intros j g Hj Hg. rewrite lookup_insert_ne; [done|]. intros ->. congruence. }
  destruct (inodes p !! i) as [g|] eqn:Ei; [|done]. simpl in Hd.
  destruct (kind g) as [| |[j|]| |] eqn:Ek; try done; (rewrite (Hne i g) by (done || by rewrite Ek); simpl; rewrite Ek); [done|].
  destruct (inodes p !! j) as [h|] eqn:Ej; [|done]. simpl in Hd. destruct (kind h) eqn:Eh; try done.
  rewrite (Hne j h) by (done || by rewrite Eh). simpl. by rewrite Eh.
Qed.

Lemma file_is_put dir name fd b p f' b' : file_is dir name fd b p -> kind f' = IReg b' -> file_is dir name fd b' (put p fd f').
Proof.
  intros (d & n & es & f & Hd & Hk & He & Hf & Hb) Hb'. exists d, n, es, f'. split_and!; [|done|done|simpl; by rewrite lookup_insert_eq|done].
  eapply dir_of_put; [done|exact Hf|by rewrite Hb].
Qed.

Lemma file_put_is dir name fd b p f : file_is dir name fd b p ->
  exists p' l, file_put p fd f = Ok (tt, p', l) /\ file_is dir name fd (f b) p'.
Proof.
  intros Hf. pose proof Hf as (d & n & es & g & Hd & Hk & He & Hg & Hb). unfold file_put, inode_of. rewrite Hg. simpl. rewrite Hb.
  eexists _, _. split; [done|]. by eapply file_is_put.
Qed.

Lemma write_loop_quiet dir name fd fuel : forall buf b m, (length buf <= fuel)%nat -> file_is dir name fd b (px m) ->
  ends (write_loop fuel fd buf) m (fun r m' => r = Ok tt -> file_is dir name fd (b ++ buf) (px m')).
Proof.
  induction fuel as [|fuel IH]; intros buf b m Hl Hf; cbn [write_loop].
  { destruct buf; [|simpl in Hl; lia]. apply sys_ret. by rewrite app_nil_r. }
  destruct buf as [|c buf]; [apply sys_ret; by rewrite app_nil_r|].
  eapply sys_bind with (P := fun r m1 => forall n, r = Ok n -> file_is dir name fd (b ++ take n (c :: buf)) (px m1)); [|..|by intros].
  { apply (ends_quiet _ _ (fun r p => forall n, r = Ok n -> file_is dir name fd (b ++ take n (c :: buf)) p)).
    generalize (c :: buf) as w. intros w.
    destruct (file_put_is dir name fd b (px m) (fun x => x ++ take (short (tick m)) w) Hf) as (p' & l & -> & Hf').
    simpl. intros n [= <-]. destruct (decide (short (tick m) <= length w)%nat).
    - rewrite Nat.min_l by done. exact Hf'.
    - rewrite Nat.min_r by lia. rewrite take_ge in Hf' by lia. by rewrite take_ge by done. }
  intros n m1 Hn. specialize (Hn n eq_refl). case_bool_decide as E0; [by intros|].
  eapply sys_mono; [apply IH; [|exact Hn]|].
  - rewrite length_drop. cbn [length] in *. lia.
  - intros r m2 Hr Hok. specialize (Hr Hok). by rewrite <- app_assoc, take_drop in Hr.
Qed.

Lemma open_create_quiet dir name md m :
  ends (open_file dir name (Some md) true) m (fun r m' => forall fd, r = Ok fd -> exists b, file_is dir name fd b (px m')).
Proof.
  apply (ends_quiet _ _ (fun r p => forall fd, r = Ok fd -> exists b, file_is dir name fd b p)).
  destruct (dir_of (px m) dir) as [[d n]|] eqn:Ed; [|done]. simpl. destruct (kind n) as [es| | | |] eqn:Ek; try done.
  destruct (es !! name) as [i|] eqn:Ei.
  - unfold inode_of. destruct (inodes (px m) !! i) as [f|] eqn:Ef; [|done]. simpl. destruct (kind f) eqn:Efk; try done.
    intros fd [= <-]. eexists. exists d, n, es, f. by split_and!.
  - intros fd [= <-]. exists []. set (i := fresh_ino (px m)).
    assert (Hi : inodes (px m) !! i = None) by (apply not_elem_of_dom; unfold i, fresh_ino; apply is_fresh).
    exists d, (n <| kind := IDir (<[name := i]> es) |>), (<[name := i]> es), (mkInode (IReg []) euid (Z.ldiff md umask)).
    split_and!; [|done|by rewrite lookup_insert_eq|simpl; by rewrite lookup_insert_eq|done].
    revert Ed. unfold dir_of, inode_of. simpl. destruct (top (px m) !! dir) as [t|]; [|done]. simpl.
    assert (Hne : forall j g, inodes (px m) !! j = Some g -> j <> i) by (intros j g Hj ->; congruence).
    destruct (inodes (px m) !! t) as [g|] eqn:Et; [|done]. simpl. intros Ed.
    rewrite lookup_insert_ne by (apply not_eq_sym; eauto).
    destruct (kind g) as [| |[j|]| |] eqn:Eg; try done.
    + injection Ed as -> ->. by rewrite lookup_insert_eq.
    + destruct (inodes (px m) !! j) as [h|] eqn:Ej; [|done]. simpl in Ed. destruct (kind h) eqn:Eh; try done. injection Ed as -> ->.
      rewrite (lookup_insert_ne _ d t) by (intros ->; congruence). rewrite Et. simpl. rewrite Eg.
      rewrite lookup_insert_ne by (apply not_eq_sym; eauto). rewrite lookup_insert_eq. done.
Qed.

Lemma write_pid_file_quiet dir name m :
  ends (write_pid_file dir name) m (fun r m' => r = Ok tt -> exists fd, file_is dir name fd (fmt_Z process_id) (px m')).
Proof.
  unfold write_pid_file. eapply sys_bind; [apply open_create_quiet|..]; [|by intros].
  intros fd m1 Hf. destruct (Hf fd eq_refl) as [b Hb].
  eapply sys_bind with (P := fun _ m2 => file_is dir name fd b (px m2)); [|..|by intros].
  { apply (ends_quiet _ _ (fun _ p => file_is dir name fd b p)). destruct (inode_of (px m1) fd); done. }
  intros st m2 Hb2. destruct (negb (is_reg_kind _)); [by intros|]. destruct (negb _); [by intros|].
  eapply sys_bind with (P := fun _ m3 => file_is dir name fd b (px m3)); [|..|by intros].
  { apply (ends_quiet _ _ (fun _ p => file_is dir name fd b p)). unfold inode_of.
    pose proof Hb2 as (d & n & es & f & _ & _ & _ & Hfd & Hk). rewrite Hfd. simpl. destruct (_ || _); [|done]. by eapply file_is_put. }
  intros [] m3 Hb3.
  eapply sys_bind with (P := fun _ m4 => file_is dir name fd [] (px m4)); [|..|by intros].
  { apply (ends_quiet _ _ (fun _ p => file_is dir name fd [] p)).
    by destruct (file_put_is dir name fd b (px m3) (fun _ => []) Hb3) as (p' & l & -> & Hf'). }
  intros [] m4 Hb4. eapply sys_mono; [by apply (write_loop_quiet dir name)|]. intros r m5 Hr Hok. eauto.
Qed.

Lemma read_pid_file_quiet dir name fd m : 0 <= process_id <= u_max 32 -> file_is dir name fd (fmt_Z process_id) (px m) ->
  (read_pid_file_secure dir name m).1 = Ok (Some process_id).
Proof.
  intros Hp (d & n & es & f & Hd & Hk & He & Hf & Hb).
  assert (Hlen : (length (fmt_Z process_id) <= 10)%nat) by (apply (fmt_Z_length process_id 10); unfold u_max in Hp; simpl; lia).
  unfold read_pid_file_secure, mbind, Sys_bind, try.
  unfold open_file, fstat, read64, call. rewrite !Hadv, !Hfault, Hd. simpl. rewrite Hk, He. unfold inode_of. rewrite Hf. simpl. rewrite Hb. simpl.
  rewrite !Hadv, !Hfault, Hf. simpl. rewrite Hb. simpl. rewrite !Hadv, !Hfault, Hf. simpl. rewrite Hb. simpl.
  rewrite take_ge by lia. destruct (fmt_Z process_id) as [|c l] eqn:E; [by apply fmt_Z_nonempty in E; [|lia]|]. rewrite <- E. simpl. do 2 f_equal.
  assert (Hd' : Forall (fun c => is_ascii_digit c = true) (fmt_Z process_id)) by (apply fmt_Z_digits; lia).
  assert (Hlossy : from_utf8_lossy (fmt_Z process_id) = fmt_Z process_id).
  { unfold from_utf8_lossy. clear -Hd'. induction Hd' as [|x r Hx _ IH]; [done|]. cbn [length from_utf8_lossy_go].
    assert ((x <? 128) = true) as -> by (unfold is_ascii_digit in Hx; lia). by rewrite IH. }
  rewrite Hlossy, trim_id; [apply parse_fmt_u; unfold u_max in *; lia|].
  eapply Forall_impl; [exact Hd'|]. intros x. apply digit_not_whitespace.
Qed.
End Quiet.

(** ** Serving and logging *)

Section Served.
Context {Data : Type} (is_sync_config : Data -> bool) `{IpcEnv}.

(** The configuration messages before anything else arrives *)
Fixpoint leading_syncs (frames : list (@Frame Data)) : list Data :=
  match frames with
  | Message d :: r => if is_sync_config d then d :: leading_syncs r else []
  | _ => []
  end.

Lemma serve_service frames : serve is_sync_config POSTFIX_SERVICE frames = leading_syncs frames.
Proof.
  induction frames as [|[| |d] r IH]; [done..|]. cbn [serve leading_syncs]. rewrite bool_decide_true by done. by rewrite IH.
Qed.

Lemma leading_syncs_only frames : Forall (fun d => is_sync_config d = true) (leading_syncs frames).
Proof. induction frames as [|[| |d] r IH]; simpl; try constructor. destruct (is_sync_config d) eqn:E; by constructor. Qed.

Lemma allowed_iff u a : is_allowed_service_peer_uid u a = true <-> u = 0 \/ a = Some u.
Proof.
  unfold is_allowed_service_peer_uid. rewrite orb_true_iff, Z.eqb_eq. destruct a as [x|]; [rewrite Z.eqb_eq|]; naive_solver.
Qed.

Lemma authorized_iff (p : Peer) : authorize_service_scoped_ipc_connection p = true <->
  exists pid uid exe, peer_cred p = Some (pid, uid) /\ 0 < pid /\ (uid = 0 \/ active_uid_strict p = Some uid)
    /\ peer_exe p pid = Ok exe /\ current_exe p = Ok exe.
Proof.
  unfold authorize_service_scoped_ipc_connection, service_authorization_status, peer_uid_from_fd, peer_pid_from_fd.
  destruct (peer_cred p) as [[pid uid]|]; simpl; [|split; [done|intros (?&?&?&[=]&_)]].
  pose proof (allowed_iff uid (active_uid_strict p)) as Ha.
  destruct (is_allowed_service_peer_uid uid _); simpl; cycle 1.
  { split; [done|]. intros (?&?&?&[= <- <-]&_&Hu&_). by apply Ha in Hu. }
  assert (Hu : uid = 0 \/ active_uid_strict p = Some uid) by by apply Ha.
  destruct (0 <? pid) eqn:Ep; simpl; cycle 1.
  { split; [done|]. intros (pid'&?&?&[= <- <-]&?&_). bools. lia. }
  unfold ensure_peer_executable_matches_current_by_pid_opt, ensure_peer_executable_matches_current_by_pid, executable_paths_match. simpl.
  destruct (peer_exe p pid) as [a|[]] eqn:E1; [|simpl; split; [done|intros (?&?&?&[= <- <-]&_&_&?&_); congruence]].
  destruct (current_exe p) as [b|[]] eqn:E2; [|simpl; split; [done|intros (?&?&?&[= <- <-]&_&_&_&?); congruence]]. simpl.
  case_bool_decide as Eab; simpl; split; try done.
  - intros _. subst b. exists pid, uid, a. bools. split_and!; done.
  - intros (?&?&?&[= <- <-]&_&_&?&?). congruence.
Qed.
End Served.

(** The throttle over refusals at the given times: the logs, with their times *)
Fixpoint refuse (t : Throttle) (times : list Z) : list (Z * Z) * Throttle :=
  match times with
  | [] => ([], t)
  | now :: r => let '(o, t1) := on_reject t now in
                let '(logs, t2) := refuse t1 r in
                (match o with Some s => (now, s) :: logs | None => logs end, t2)
  end.

Definition reported (logs : list (Z * Z)) : Z := foldr (fun l n => 1 + l.2 + n) 0 logs.

(** Each log comes at least the interval after the one before. *)
Fixpoint spaced (last : option Z) (logs : list (Z * Z)) : Prop :=
  match logs with
  | [] => True
  | (now, _) :: r => match last with Some l => UNAUTHORIZED_IPC_LOG_INTERVAL <= now - l | None => True end /\ spaced (Some now) r
  end.

Lemma refuse_counts times : forall t, 0 <= suppressed t -> suppressed t + Z.of_nat (length times) < 2 ^ 64 ->
  let '(logs, t') := refuse t times in
  reported logs + suppressed t' = suppressed t + Z.of_nat (length times) /\ spaced (last_log_at t) logs.
Proof.
  induction times as [|now r IH]; intros t H0 Hb; cbn [refuse length] in *; [simpl; split; [lia|done]|].
  rewrite Nat2Z.inj_succ in *. unfold on_reject.
  destruct (match last_log_at t with Some _ => _ | None => _ end) eqn:El.
  - specialize (IH (mkThrottle (last_log_at t) (u64_add (suppressed t) 1))). cbn [suppressed last_log_at] in IH.
    assert (Hw : u64_add (suppressed t) 1 = suppressed t + 1) by (unfold u64_add, wrapu; rewrite Z.mod_small; lia).
    rewrite Hw in IH |- *. destruct (refuse _ r) as [logs t2]. destruct IH as [Hs Hg]; [lia..|]. split; [lia|done].
  - specialize (IH (mkThrottle (Some now) 0)). cbn [suppressed last_log_at] in IH.
    destruct (refuse _ r) as [logs t2]. destruct IH as [Hs Hg]; [lia..|]. cbn [reported foldr snd spaced].
    fold (reported logs). split; [lia|]. split; [|done]. destruct (last_log_at t) as [l|]; [|done]. unfold UNAUTHORIZED_IPC_LOG_INTERVAL in *. bools. lia.
Qed.

(** ** Worlds for the witnesses *)

(** Someone who owns the directory the path leads to moves it away and puts
    another of his own there, once, after it was opened. *)
Definition swap_parent (p : Px) : Px :=
  match top p !! lit "d" with
  | Some i =>
    match inodes p !! i, inodes p !! 9%positive with
    | Some n, None => if uid n =? 0 then p else mkPx (<[9%positive := mkInode (IDir ∅) 1000 511]> (inodes p)) (<[lit "d" := 9%positive]> (top p))
    | _, _ => p
    end
  | None => p
  end.

Definition root_world (raced : bool) : World :=
  Build_World 0 18 (fun t p => if raced && bool_decide (t = 1%nat) then swap_parent p else p) (fun _ => None) (fun _ => 3%nat).
Definition user_world : World := Build_World 1000 18 (fun _ p => p) (fun _ => None) (fun _ => 3%nat).
Definition plain_env : IpcEnv :=
  Build_IpcEnv (fun p => bool_decide (p = POSTFIX_SERVICE)) (fun p => (lit "d", lit "ipc" ++ p)) 4242 (fun _ _ => false) (fun _ => false).

(** One directory [d] of user 1000, mode 0o777, with a stale socket and a link *)
Definition old_machine : Machine :=
  mkMachine (mkPx (list_to_map [(1%positive, mkInode (IDir (list_to_map [(lit "ipc_service", 2%positive); (lit "ipc", 2%positive)])) 1000 511);
                                (2%positive, mkInode ISock 1000 511)])
                  (list_to_map [(lit "d", 1%positive)])) 0 [].

Lemma unraced_lawful (W : World) : (forall t p, adv t p = p) -> lawful.
Proof. intros Ha t p. rewrite Ha. reflexivity. Qed.

Lemma swap_interferes p : @interferes (root_world true) p (swap_parent p).
Proof.
  unfold swap_parent. destruct (top p !! lit "d") as [i|] eqn:Ht; [|reflexivity].
  destruct (inodes p !! i) as [n|] eqn:Hn; [|reflexivity]. destruct (inodes p !! 9%positive) eqn:H9; [reflexivity|].
  destruct (uid n =? 0) eqn:Eu; [reflexivity|]. bools.
  assert (Hne : forall j o, inodes p !! j = Some o -> <[9%positive := mkInode (IDir ∅) 1000 511]> (inodes p) !! j = Some o).
  { intros j o Hj. rewrite lookup_insert_ne; [done|]. intros <-. congruence. }
  split; simpl.
  - intros j o Hj Ho. exists o. auto.
  - intros j o. destruct (decide (j = 9%positive)) as [->|Hj].
    + rewrite lookup_insert_eq. intros [= <-]. done.
    + rewrite lookup_insert_ne by done. eauto.
  - intros j o Hj. exists o. auto using same_sort_refl.
  - intros name j o Hj Ho Hu. destruct (decide (name = lit "d")) as [->|Hd]; [|by rewrite lookup_insert_ne].
    simplify_eq.
Qed.

Lemma raced_lawful : @lawful (root_world true).
Proof. intros t p. unfold root_world, adv. simpl. case_bool_decide; [apply swap_interferes|reflexivity]. Qed.

Module IpcChannelClaims.

(** C27: When the directory of a channel is accepted, the process holds a directory
    of its own user with exactly the expected mode, and that directory is the only
    thing it changed; unless root was asked to scrub it, nothing the other
    processes then do leads the path elsewhere or changes the directory. *)
Theorem channel_directory_is_hardened `{World} `{IpcEnv} (Hlaw : lawful) (parent postfix : str) (m : Machine) :
  let '(r, m') := ensure_secure_ipc_parent_dir parent postfix m in
  exists fd, acted (fun i _ => i = fd) m m' /\
    forall scrub, r = Ok scrub ->
      exists n, inodes (px m') !! fd = Some n /\ hardened postfix n
        /\ (forall p, interferes (px m') p -> inodes p !! fd = Some n)
        /\ (scrub = false \/ euid <> 0 -> forall p, interferes (px m') p -> top p !! parent = Some fd).
Proof.
  pose proof (ensure_secure_ipc_parent_dir_spec Hlaw parent postfix m) as He. unfold ends in He.
  destruct (ensure_secure_ipc_parent_dir parent postfix m) as [r m']. destruct He as (fd & Ha & Hr). exists fd. split; [done|].
  intros scrub Hs. destruct (Hr scrub Hs) as (n & Hn & Hh & _ & Ht). exists n. split_and!; [done..|intros; by eapply hardened_stays|].
  intros Hc p Hp. eapply (sticky _ _ Hp); [by apply Ht|exact Hn|apply Hh].
Qed.

Lemma channel_directory_is_hardened_witness :
  let '(r, m') := @ensure_secure_ipc_parent_dir user_world plain_env (lit "d") [] old_machine in
  r = Ok true /\ exists fd n, inodes (px m') !! fd = Some n /\ @hardened user_world plain_env [] n /\ top (px m') !! lit "d" = Some fd.
Proof.
  pose proof (@channel_directory_is_hardened user_world plain_env (unraced_lawful user_world (fun _ _ => eq_refl)) (lit "d") [] old_machine) as Hc.
  destruct (@ensure_secure_ipc_parent_dir user_world plain_env (lit "d") [] old_machine) as [r m'] eqn:E.
  assert (Hr : r = Ok true) by (transitivity (@ensure_secure_ipc_parent_dir user_world plain_env (lit "d") [] old_machine).1; [by rewrite E|vm_compute; reflexivity]).
  split; [done|]. destruct Hc as (fd & _ & Hc). destruct (Hc true Hr) as (n & Hn & Hh & _ & Ht). exists fd, n.
  split; [done|]. split; [done|]. apply Ht; [by right|reflexivity].
Defined.

(** A listener that is not root's creates its socket in such a directory:
    whenever it starts, the path led to a hardened directory of this user when
    the socket was created, and the others could not change that. *)
Theorem listener_starts_in_hardened_directory `{World} `{IpcEnv} (Hlaw : lawful) (Hu : euid <> 0)
    (incoming : str * str -> Sys unit) (postfix : str) (m : Machine) :
  (new_listener incoming postfix m).1 = Ok tt ->
  exists m1 fd n, secure_channel_dir postfix m = (Ok tt, m1) /\ (incoming (ipc_path postfix) m1).1 = Ok tt
    /\ bound postfix (ipc_path postfix).1 fd n (px m1)
    /\ (forall p, interferes (px m1) p -> bound postfix (ipc_path postfix).1 fd n p).
Proof.
  intros Hok. pose proof (secure_channel_dir_spec Hlaw postfix m Hu) as Hs. unfold ends in Hs.
  unfold new_listener, mbind, Sys_bind in Hok. destruct (secure_channel_dir postfix m) as [[[]|e] m1]; [|done].
  destruct (Hs eq_refl) as (fd & n & Hb). exists m1, fd, n.
  destruct (ipc_path postfix) as [dir file] eqn:Ep. split_and!; [done| |done|intros; by eapply bound_interferes].
  destruct (incoming (dir, file) m1) as [[[]|e] m2]; done.
Qed.

Lemma listener_starts_in_hardened_directory_witness :
  exists m1 fd n, (@secure_channel_dir user_world plain_env [] old_machine) = (Ok tt, m1) /\ @bound user_world plain_env [] (lit "d") fd n (px m1).
Proof.
  destruct (@listener_starts_in_hardened_directory user_world plain_env (unraced_lawful user_world (fun _ _ => eq_refl)) ltac:(done)
    (fun '(d, f) => _ ← @open_file user_world d f (Some 511) true; mret tt) [] old_machine) as (m1 & fd & n & Hs & _ & Hb & _).
  - vm_compute. reflexivity.
  - exists m1, fd, n. by split.
Defined.

(** Root's take-over of a service directory can be raced: there are other
    processes without root's rights that leave root with a directory it accepted
    and scrubbed while the path leads to another one that they own and may write
    to, and root goes on to create its socket there. *)
Theorem adopted_directory_can_be_swapped : exists (W : World) (V : IpcEnv) (postfix : str) (m m1 m2 : Machine) (fd : Ino) (n : Inode),
  lawful /\ euid = 0 /\ ensure_secure_ipc_parent_dir (ipc_path postfix).1 postfix m = (Ok true, m1)
  /\ secure_channel_dir postfix m = (Ok tt, m2)
  /\ top (px m2) !! (ipc_path postfix).1 = Some fd /\ inodes (px m2) !! fd = Some n
  /\ uid n <> euid /\ writable_by_others (mode n) = true.
Proof.
  exists (root_world true), plain_env, POSTFIX_SERVICE, old_machine. eexists _, _, 9%positive, _.
  split; [apply raced_lawful|]. split; [done|]. split; [vm_compute; reflexivity|]. split; [vm_compute; reflexivity|].
  split; [vm_compute; reflexivity|]. split; [vm_compute; reflexivity|]. split; [done|vm_compute; reflexivity].
Qed.

(** Writing the pid file changes nothing but directories, to enter the file,
    and regular files of this user, whatever the path leads to and whatever the
    other processes do. *)
Theorem pid_file_changes_only_own_files `{World} `{IpcEnv} (Hlaw : lawful) (postfix : str) (m : Machine) :
  acted pid_target m (write_pid postfix m).2.
Proof.
  unfold write_pid. destruct (get_pid_file postfix) as [dir name].
  apply (ends_try (write_pid_file dir name) (fun _ => mret tt) m _ (fun _ m' => acted pid_target m m') (write_pid_file_spec Hlaw dir name m)).
  intros r m' Ha. by apply sys_ret.
Qed.

Lemma pid_file_changes_only_own_files_witness :
  acts (@write_pid user_world plain_env [] old_machine).2 <> [] /\
  @acted (@pid_target user_world) old_machine (@write_pid user_world plain_env [] old_machine).2.
Proof.
  split; [vm_compute; discriminate|].
  apply (@pid_file_changes_only_own_files user_world plain_env). apply (unraced_lawful user_world). reflexivity.
Defined.

(** The pid a listener wrote is the pid the next one reads. *)
Theorem pid_file_round_trip `{World} `{IpcEnv} (Hadv : forall t p, adv t p = p) (Hfault : forall t, fault t = None)
    (Hpid : 0 <= process_id <= u_max 32) (dir name : str) (m : Machine) :
  let '(r, m') := write_pid_file dir name m in
  r = Ok tt -> (read_pid_file_secure dir name m').1 = Ok (Some process_id).
Proof.
  pose proof (write_pid_file_quiet Hadv Hfault dir name m) as Hw. unfold ends in Hw.
  destruct (write_pid_file dir name m) as [r m']. intros Hok. destruct (Hw Hok) as [fd Hf]. by eapply read_pid_file_quiet.
Qed.

Lemma pid_file_round_trip_witness :
  (@read_pid_file_secure user_world (lit "d") (lit "ipc.pid") (@write_pid_file user_world plain_env (lit "d") (lit "ipc.pid") old_machine).2).1 = Ok (Some 4242).
Proof.
  pose proof (@pid_file_round_trip user_world plain_env (fun _ _ => eq_refl) (fun _ => eq_refl) ltac:(vm_compute; split; discriminate)
    (lit "d") (lit "ipc.pid") old_machine) as Hr.
  destruct (@write_pid_file user_world plain_env (lit "d") (lit "ipc.pid") old_machine) as [r m'] eqn:E.
  apply Hr. transitivity (@write_pid_file user_world plain_env (lit "d") (lit "ipc.pid") old_machine).1; [by rewrite E|vm_compute; reflexivity].
Defined.

(** C28: What a connection of the protected service channel gets handled is exactly
    its configuration messages up to the first thing that is not one, and nothing
    unless the peer is root or the active user and runs this executable. *)
Theorem service_channel_only_syncs {Data} (is_sync_config : Data -> bool) `{IpcEnv}
    (Hsvc : is_service_ipc_postfix POSTFIX_SERVICE = true) (conns : list (Peer * list (@Frame Data))) i p frames :
  conns !! i = Some (p, frames) ->
  exists handled, start is_sync_config POSTFIX_SERVICE conns !! i = Some handled
    /\ Forall (fun d => is_sync_config d = true) handled
    /\ (handled = leading_syncs is_sync_config frames \/ handled = [])
    /\ (handled <> [] <-> leading_syncs is_sync_config frames <> [] /\
         exists pid uid exe, peer_cred p = Some (pid, uid) /\ 0 < pid /\ (uid = 0 \/ active_uid_strict p = Some uid)
           /\ peer_exe p pid = Ok exe /\ current_exe p = Ok exe).
Proof.
  intros Hi. unfold start. rewrite list_lookup_fmap, Hi, Hsvc. simpl. eexists. split; [done|].
  rewrite serve_service, <- authorized_iff. destruct (authorize_service_scoped_ipc_connection p); simpl.
  - split_and!; [apply leading_syncs_only|by left|]. split; [done|by intros [? _]].
  - split_and!; [done|by right|]. split; [done|by intros [_ ?]].
Qed.

Definition peer_example : Peer := mkPeer (Some (77, 1000)) (lit " 1000 ") (fun _ => Ok (lit "/usr/bin/x")) (Ok (lit "/usr/bin/x")).

Lemma service_channel_only_syncs_witness :
  exists handled, @start bool (fun d => d) plain_env POSTFIX_SERVICE [(peer_example, [Message true; Message false; Message true])] !! 0%nat = Some handled
    /\ handled <> [].
Proof.
  destruct (@service_channel_only_syncs bool (fun d => d) plain_env eq_refl [(peer_example, [Message true; Message false; Message true])]
              0 peer_example [Message true; Message false; Message true] eq_refl) as (handled & Hs & _ & _ & Hiff).
  exists handled. split; [done|]. apply Hiff. split; [discriminate|]. exists 77, 1000, (lit "/usr/bin/x").
  split_and!; [done|lia|right; vm_compute; reflexivity|done|done].
Defined.

(** The refusals are all accounted for: each is logged, counted by a later
    log, or still pending, and logs are at least five seconds apart. *)
Theorem refusals_are_accounted (times : list Z) : Z.of_nat (length times) < 2 ^ 64 ->
  let '(logs, t) := refuse (mkThrottle None 0) times in
  reported logs + suppressed t = Z.of_nat (length times) /\ spaced None logs.
Proof. intros Hb. apply (refuse_counts times (mkThrottle None 0)); simpl; lia. Qed.

Lemma refusals_are_accounted_witness :
  let '(logs, t) := refuse (mkThrottle None 0) [0; 1000000000; 2000000000; 7000000000; 8000000000] in
  reported logs + suppressed t = 5 /\ spaced None logs.
Proof. apply (refusals_are_accounted [0; 1000000000; 2000000000; 7000000000; 8000000000]). vm_compute. reflexivity. Defined.

End IpcChannelClaims.
