(* ===== verification/Message.v ===== *)
(** * Protocol messages as the connection reads them

    The message types are generated from protocol files outside the repository;
    here they have the constructors and fields that [client/src/server/connection.rs]
    names.  Constructors the source never names are [Msg_Other], [Misc_Other] and
    the like.  A sub-message the code only passes on is kept as its encoding
    ([bytes]).  [EnumOrUnknown] is a protobuf enumeration field: a known value, or
    a number that is none of them. *)
From stdpp Require Import base gmap list strings.
From Stdlib Require Import ZArith Lia.
From S2P Require Import Prelude RustStr Effects.

#[local] Open Scope Z_scope.

Abbreviation bytes := (list Z).

Inductive EnumOrUnknown (A : Type) := Known (a : A) | Unknown (v : Z).
Arguments Known {A} a.
Arguments Unknown {A} v.
#[global] Instance EnumOrUnknown_eq_dec {A} `{!EqDecision A} : EqDecision (EnumOrUnknown A).
Proof. solve_decision. Defined.

(** [EnumOrUnknown::enum_value] *)
Definition enum_value {A} (e : EnumOrUnknown A) : result Z A :=
  match e with Known a => Ok a | Unknown v => Err v end.

Inductive BoolOption := NotSet | No | Yes.
#[global] Instance BoolOption_eq_dec : EqDecision BoolOption.
Proof. solve_decision. Defined.

Inductive ImageQuality := IqNotSet | IqLow | IqBalanced | IqBest.
#[global] Instance ImageQuality_eq_dec : EqDecision ImageQuality.
Proof. solve_decision. Defined.

Abbreviation bool_field := (EnumOrUnknown BoolOption).

Record OptionMessage := MkOption {
  o_image_quality : EnumOrUnknown ImageQuality;
  o_custom_image_quality : Z;
  o_custom_fps : Z;
  o_supported_decoding : option bytes;
  o_lock_after_session_end : bool_field;
  o_show_remote_cursor : bool_field;
  o_privacy_mode : bool_field;
  o_block_input : bool_field;
  o_disable_audio : bool_field;
  o_disable_clipboard : bool_field;
  o_enable_file_transfer : bool_field;
  o_disable_keyboard : bool_field;
  o_follow_remote_cursor : bool_field;
  o_follow_remote_window : bool_field;
  o_disable_camera : bool_field;
  o_terminal_persistent : bool_field;
  o_show_my_cursor : bool_field }.

#[global] Instance eta_option : EtaRecord OptionMessage := fun o =>
  MkOption (o_image_quality o) (o_custom_image_quality o) (o_custom_fps o) (o_supported_decoding o)
    (o_lock_after_session_end o) (o_show_remote_cursor o) (o_privacy_mode o) (o_block_input o) (o_disable_audio o)
    (o_disable_clipboard o) (o_enable_file_transfer o) (o_disable_keyboard o) (o_follow_remote_cursor o)
    (o_follow_remote_window o) (o_disable_camera o) (o_terminal_persistent o) (o_show_my_cursor o).

(** [OptionMessage::new] *)
Definition option_new : OptionMessage :=
  MkOption (Known IqNotSet) 0 0 None (Known NotSet) (Known NotSet) (Known NotSet) (Known NotSet) (Known NotSet)
    (Known NotSet) (Known NotSet) (Known NotSet) (Known NotSet) (Known NotSet) (Known NotSet) (Known NotSet) (Known NotSet).

#[global] Instance OptionMessage_eq_dec : EqDecision OptionMessage.
Proof. solve_decision. Defined.

(** ** Input *)

Record MouseEvent := MkMouse { me_mask : Z; me_x : Z; me_y : Z }.

Inductive KeyboardMode := Legacy | Map | Translate | Auto.
(** The control keys the connection tells apart. *)
Inductive ControlKey := CkAlt | CkShift | CkControl | CkMeta | CkRAlt | CkRShift | CkRControl | CkRWin
  | CkReturn | CkNumpadEnter | CkOther (v : Z).
Inductive KeyUnion := Ku_ControlKey (k : EnumOrUnknown ControlKey) | Ku_Chr (code : Z) | Ku_Unicode (u : Z) | Ku_Seq (s : str) | Ku_Other (data : bytes).
Record KeyEvent := MkKey { ke_down : bool; ke_press : bool; ke_mode : EnumOrUnknown KeyboardMode; ke_union : option KeyUnion }.
#[global] Instance eta_key : EtaRecord KeyEvent := fun k => MkKey (ke_down k) (ke_press k) (ke_mode k) (ke_union k).

(** [KeyEvent::chr], the getter of a oneof field. *)
Definition ke_chr (k : KeyEvent) : Z := match ke_union k with Some (Ku_Chr c) => c | _ => 0 end.

(** ** Files *)

Inductive JobType := Generic | Printer.
#[global] Instance JobType_eq_dec : EqDecision JobType.
Proof. solve_decision. Defined.

Record FileEntry := MkEntry { fe_name : str; fe_size : Z; fe_modified : Z }.
Record SendRequest := MkSendReq {
  sr_id : Z; sr_path : str; sr_include_hidden : bool; sr_file_num : Z; sr_type : JobType }.
Record ReceiveRequest := MkRecvReq { rr_id : Z; rr_path : str; rr_files : list FileEntry; rr_file_num : Z; rr_total_size : Z }.
Record FileRemoveDir := MkRemoveDir { rd_id : Z; rd_path : str; rd_recursive : bool }.
Record FileRemoveFile := MkRemoveFile { rf_id : Z; rf_path : str; rf_file_num : Z }.
Record SendConfirmRequest := MkConfirm { sc_id : Z; sc_file_num : Z; sc_skip : bool; sc_offset_blk : Z }.

Inductive FileAction :=
| Fa_ReadEmptyDirs (path : str) (include_hidden : bool)
| Fa_ReadDir (path : str) (include_hidden : bool)
| Fa_AllFiles (id : Z) (path : str) (include_hidden : bool)
| Fa_Send (s : SendRequest)
| Fa_Receive (r : ReceiveRequest)
| Fa_RemoveDir (d : FileRemoveDir)
| Fa_RemoveFile (f : FileRemoveFile)
| Fa_Create (id : Z) (path : str)
| Fa_Cancel (id : Z)
| Fa_SendConfirm (r : SendConfirmRequest)
| Fa_Rename (id : Z) (path new_name : str)
| Fa_Other.

Inductive FileResponse :=
| Fr_Block (id file_num : Z) (data : bytes) (compressed : bool)
| Fr_Done (id file_num : Z)
| Fr_Digest (id file_num file_size last_modified : Z) (is_upload is_resume : bool)
| Fr_Error (id : Z) (error : str) (file_num : Z)
| Fr_Dir (id : Z) (path : str) (entries : list FileEntry)
| Fr_Other.

(** ** Login *)

Inductive LoginUnion :=
| Lu_FileTransfer (dir : str) (show_hidden : bool)
| Lu_ViewCamera
| Lu_Terminal (service_id : str)
| Lu_PortForward (host : str) (port : Z)
| Lu_Other.

Record OsLogin := MkOsLogin { os_username : str; os_password : str }.

Record LoginRequest := MkLogin {
  lr_username : str; lr_password : bytes; lr_my_id : str; lr_my_name : str; lr_my_platform : str;
  lr_option : option OptionMessage; lr_union : option LoginUnion; lr_video_ack_required : bool;
  lr_session_id : Z; lr_version : str; lr_os_login : option OsLogin; lr_avatar : str;
  (** the signed permit envelope, an unknown field to the protocol *)
  lr_permit : option bytes }.

(** [LoginRequest::default] *)
Definition login_default : LoginRequest := MkLogin [] [] [] [] [] None None false 0 [] None [] None.

(** [lr.os_login.username]: an absent sub-message reads as its default. *)
Definition os_login_username (lr : LoginRequest) : str := match lr_os_login lr with Some o => os_username o | None => [] end.

(** ** Misc *)

Inductive Permission := PKeyboard | PClipboard | PAudio | PFile | PRestart | PRecording | PBlockInput | PPrivacyMode.
Inductive BlockInputState := BlkOnFailed | BlkOffFailed.
Inductive PrivacyModeState :=
| PrvOnFailedDenied | PrvNotSupported | PrvOffSucceeded | PrvOffByPeer | PrvOffUnknown
| PrvOnSucceeded | PrvOnFailed | PrvOnFailedPlugin | PrvOffFailed.
Record Resolution := MkResolution { res_width : Z; res_height : Z }.

Inductive Misc :=
| Misc_ChatMessage (text : str)
| Misc_SwitchDisplay (display width height : Z)
| Misc_CaptureDisplays (add sub set : list Z)
| Misc_ToggleVirtualDisplay (display : Z) (on : bool)
| Misc_TogglePrivacyMode (impl_key : str) (on : bool)
| Misc_Option (o : OptionMessage)
| Misc_RefreshVideo (r : bool)
| Misc_RefreshVideoDisplay (display : Z)
| Misc_VideoReceived
| Misc_RestartRemoteDevice
| Misc_ElevationRequest
| Misc_AudioFormat (format : bytes)
| Misc_SwitchSidesRequest (uuid : bytes)
| Misc_ChangeResolution (r : Resolution)
| Misc_ChangeDisplayResolution (display : Z) (r : Resolution)
| Misc_PluginRequest
| Misc_AutoAdjustFps (fps : Z)
| Misc_ClientRecordStatus (status : bool)
| Misc_SelectedSid (sid : Z)
| Misc_MessageQuery (switch_display : Z)
| Misc_FollowCurrentDisplay (display : Z)
| Misc_CloseReason (s : str)
| Misc_StopService
| Misc_PermissionInfo (p : Permission) (enabled : bool)
| Misc_BlockInputState (state : BlockInputState) (details : str)
| Misc_PrivacyModeState (state : PrivacyModeState) (details impl_key : str)
| Misc_SwitchBack
| Misc_Other.

(** ** Messages *)

Inductive LoginResponse := LoginError (error : str) (enable_trusted_devices : bool) | LoginPeerInfo.

Record TestDelay := MkTestDelay { td_from_client : bool; td_time : Z; td_last_delay : Z; td_target_bitrate : Z }.

Inductive Message :=
| Msg_LoginRequest (lr : LoginRequest)
| Msg_LoginResponse (r : LoginResponse)
| Msg_Hash (salt challenge : str)
| Msg_TestDelay (t : TestDelay)
| Msg_SwitchSidesResponse
| Msg_MouseEvent (e : MouseEvent)
| Msg_PointerDeviceEvent (e : bytes)
| Msg_KeyEvent (e : KeyEvent)
| Msg_Clipboard (c : bytes)
| Msg_MultiClipboards (cs : list bytes)
| Msg_Cliprdr (c : bytes)
| Msg_FileAction (a : option FileAction)
| Msg_FileResponse (r : option FileResponse)
| Msg_Misc (m : option Misc)
| Msg_AudioFrame (f : bytes)
| Msg_VoiceCallRequest (req_timestamp : Z) (is_connect : bool)
| Msg_VoiceCallResponse (accepted : bool) (req_timestamp : Z)
| Msg_ScreenshotRequest (display : Z) (sid : str)
| Msg_ScreenshotResponse
| Msg_TerminalAction (a : bytes)
| Msg_TerminalResponse (r : bytes)
| Msg_TerminalError (message : str)
| Msg_MessageBox (msgtype title text link : str)
| Msg_DisplayChanged (display : Z)
| Msg_VideoFrame (display : Z)
| Msg_PeerInfo
| Msg_CursorPosition (x y : Z)
| Msg_Other
| Msg_Empty.
