(* ===== verification/ClientConfig.v ===== *)
(** * The controller's session settings

    Models [LoginConfigHandler] of [client/src/client.rs]: the settings of a
    session with one peer (the peer's stored configuration, options and toggles,
    the passwords and where they come from, the login message), with
    [handle_relay_id] of [ui_interface.rs] and the keyboard modes of
    [common.rs].

    [PeerConfig] and its files belong to [hbb_common] (a submodule): the record
    has the fields the code names, and the files are the class [PeerStore].  JSON,
    version numbers, the decoder's abilities and what the process was started
    with are the class [ClientEnv].  The handler is behind a lock in the source;
    each operation here is one critical section. *)
From stdpp Require Import base gmap list strings.
From Stdlib Require Import ZArith Lia.
From S2P Require Import Prelude RustStr Effects HomedeskNet HomedeskConfig NestlinkAuth NestlinkPermit Message.

#[local] Open Scope Z_scope.

(** ** Data *)

Inductive ConnType := DEFAULT_CONN | FILE_TRANSFER | PORT_FORWARD | RDP | VIEW_CAMERA | TERMINAL.
#[global] Instance ConnType_eq_dec : EqDecision ConnType.
Proof. solve_decision. Defined.

Inductive PasswordSource := PersonalAb (p : bytes) | SharedAb (p : str) | Undefined.
#[global] Instance PasswordSource_eq_dec : EqDecision PasswordSource.
Proof. solve_decision. Defined.

Record Hash := MkHash { h_salt : str; h_challenge : str }.
#[global] Instance Hash_eq_dec : EqDecision Hash.
Proof. solve_decision. Defined.

Record ConnToken := MkToken { tk_password : bytes; tk_password_source : PasswordSource; tk_session_id : Z }.

Record PeerInfoSerde := MkInfo { in_username : str; in_hostname : str; in_platform : str }.

(** [message_proto::PeerInfo], as far as it is read; features and encodings are
    passed on *)
Record PeerInfo := MkPeerInfo {
  pi_username : str; pi_hostname : str; pi_platform : str; pi_version : str;
  pi_privacy_mode : option bool; pi_encoding : bytes }.

(** [hbb_common::config::PeerConfig] *)
Record PeerConfig := MkPeer {
  pc_password : bytes;
  pc_options : gmap str str;
  pc_ui_flutter : gmap str str;
  pc_info : PeerInfoSerde;
  pc_view_style : str;
  pc_scroll_style : str;
  pc_edge_scroll_edge_thickness : Z;
  pc_image_quality : str;
  pc_custom_image_quality : list Z;
  pc_keyboard_mode : str;
  pc_reverse_mouse_wheel : str;
  pc_displays_as_individual_windows : str;
  pc_use_all_my_displays : str;
  pc_custom_resolutions : gmap str (Z * Z);
  pc_direct_failures : Z;
  pc_trackpad_speed : Z;
  pc_show_remote_cursor : bool;
  pc_follow_remote_cursor : bool;
  pc_follow_remote_window : bool;
  pc_disable_audio : bool;
  pc_disable_clipboard : bool;
  pc_lock_after_session_end : bool;
  pc_terminal_persistent : bool;
  pc_privacy_mode : bool;
  pc_enable_file_copy_paste : bool;
  pc_show_quality_monitor : bool;
  pc_allow_swap_key : bool;
  pc_view_only : bool;
  pc_show_my_cursor : bool;
}.

Record LoginConfigHandler := MkHandler {
  lc_nestlink_permit : option PreparedPermit;
  lc_id : str;
  lc_conn_type : ConnType;
  lc_is_terminal_admin : bool;
  lc_hash : Hash;
  lc_password : bytes;
  lc_remember : bool;
  lc_config : PeerConfig;
  lc_port_forward : str * Z;
  lc_version : Z;
  lc_features : option bool;
  lc_session_id : Z;
  lc_supported_encoding : bytes;
  lc_restarting_remote_device : bool;
  lc_restart_remote_device_at : option Z;
  lc_force_relay : bool;
  lc_direct : option bool;
  lc_received : bool;
  lc_switch_uuid : option str;
  lc_switch_back_allowed : bool;
  lc_other_server : option (str * str * str);
  lc_custom_fps : option Z;
  lc_selected_windows_session_id : option Z;
  lc_password_source : PasswordSource;
  lc_shared_password : option str;
  lc_record_state : bool;
  lc_record_permission : bool;
}.

#[export] Instance eta_PeerConfig : EtaRecord PeerConfig := fun c =>
  MkPeer (pc_password c) (pc_options c) (pc_ui_flutter c) (pc_info c) (pc_view_style c) (pc_scroll_style c)
    (pc_edge_scroll_edge_thickness c) (pc_image_quality c) (pc_custom_image_quality c) (pc_keyboard_mode c)
    (pc_reverse_mouse_wheel c) (pc_displays_as_individual_windows c) (pc_use_all_my_displays c) (pc_custom_resolutions c)
    (pc_direct_failures c) (pc_trackpad_speed c) (pc_show_remote_cursor c) (pc_follow_remote_cursor c)
    (pc_follow_remote_window c) (pc_disable_audio c) (pc_disable_clipboard c) (pc_lock_after_session_end c)
    (pc_terminal_persistent c) (pc_privacy_mode c) (pc_enable_file_copy_paste c) (pc_show_quality_monitor c)
    (pc_allow_swap_key c) (pc_view_only c) (pc_show_my_cursor c).
#[export] Instance eta_Handler : EtaRecord LoginConfigHandler := fun h =>
  MkHandler (lc_nestlink_permit h) (lc_id h) (lc_conn_type h) (lc_is_terminal_admin h) (lc_hash h) (lc_password h) (lc_remember h) (lc_config h)
    (lc_port_forward h) (lc_version h) (lc_features h) (lc_session_id h) (lc_supported_encoding h) (lc_restarting_remote_device h)
    (lc_restart_remote_device_at h) (lc_force_relay h) (lc_direct h) (lc_received h) (lc_switch_uuid h) (lc_switch_back_allowed h)
    (lc_other_server h) (lc_custom_fps h) (lc_selected_windows_session_id h) (lc_password_source h) (lc_shared_password h)
    (lc_record_state h) (lc_record_permission h).

(** The thirteen flags of a configuration *)
Definition flags (c : PeerConfig) : list bool :=
  [pc_show_remote_cursor c; pc_follow_remote_cursor c; pc_follow_remote_window c; pc_disable_audio c;
   pc_disable_clipboard c; pc_lock_after_session_end c; pc_terminal_persistent c; pc_privacy_mode c;
   pc_enable_file_copy_paste c; pc_show_quality_monitor c; pc_allow_swap_key c; pc_view_only c; pc_show_my_cursor c].

(** ** What the module calls *)

(** [PeerConfig::load] and [PeerConfig::store] on the files [P] *)
Class PeerStore (P : Type) := {
  peer_load : str -> P -> PeerConfig;
  peer_store : PeerConfig -> str -> P -> P;
}.

(** Loading fills in defaults for what is empty; the flags and the password are
    read back as they were stored. *)
Class PeerStoreLaws (P : Type) `{!PeerStore P} := {
  peer_load_flags i c p : flags (peer_load i (peer_store c i p)) = flags c;
  peer_load_password i c p : pc_password (peer_load i (peer_store c i p)) = pc_password c;
}.

(** The constants of [hbb_common::config::keys] *)
Class ClientKeys := {
  OPTION_TERMINAL_PERSISTENT : str;
  OPTION_ENABLE_FILE_COPY_PASTE : str;
  OPTION_AVATAR : str;
  OPTION_DISPLAY_NAME : str;
  OPTION_DEFAULT_CONNECT_PASSWORD : str;
}.
Class ClientKeysLaws `{!ClientKeys} := {
  terminal_persistent_key : OPTION_TERMINAL_PERSISTENT = lit "terminal-persistent";
  enable_file_copy_paste_key : OPTION_ENABLE_FILE_COPY_PASTE = lit "enable-file-copy-paste";
}.

Class ClientEnv := {
  option2bool : str -> str -> bool;
  ws_enabled : bool;                         (** [use_ws()] *)
  proxy_enabled : bool;                      (** [Config::is_proxy()] *)
  terminal_admin_env : bool;                 (** the variable [IS_TERMINAL_ADMIN] is "Y" *)
  random_sid : Z;                            (** [rand::random::<u64>()] *)
  sha256 : bytes -> bytes;
  b64_encode : bytes -> str;
  b64_decode : str -> option bytes;
  token_of : str -> option ConnToken;        (** [serde_json::from_str] and [to_string] *)
  token_to : ConnToken -> option str;
  dirs_of : str -> option (gmap str str);
  dirs_to : gmap str str -> str;
  json_field : str -> str -> option str;     (** a text field of a JSON object *)
  get_version_number : str -> Z;
  mode_to_string : KeyboardMode -> str;
  mode_from_str : str -> option KeyboardMode;
  supported_decodings : str -> bytes;        (** [Decoder::supported_decodings] for a peer *)
  builtin_option : str -> str;
  local_option : str -> str;                 (** [LocalConfig::get_option] *)
  resolve_avatar_url : str -> str;
  my_device_id : str;                        (** [Config::get_id()] *)
  my_rendezvous_server : str;
  my_platform : str;
  my_username : str;
  VERSION : str;
  to_uppercase : Z -> str;                   (** [char::to_uppercase] *)
}.

(** What an operation pushes to the interface *)
Inductive UiFx := SyncHashToPersonalAb (id : str) (hash : str).

(** ** The handler *)

Section Handler.
Context {P : Type} `{!PeerStore P, !ClientKeys, !ClientEnv}.

(** The handler and the files of the peers *)
Abbreviation Sess := (LoginConfigHandler * P)%type.
Implicit Types (h : LoginConfigHandler) (x : Sess) (c : PeerConfig).

(** *** Passwords *)

Definition hash_password (password : bytes) (salt : str) : bytes := sha256 (password ++ str_bytes salt).

Definition is_personal_ab (s : PasswordSource) (password : bytes) : bool :=
  if bool_decide (password = []) then false
  else match s with PersonalAb p => bool_decide (p = password) | _ => false end.

(** [PasswordSource::equal] *)
Definition source_equal (password : str) (connected_password : bytes) (hash : Hash) : bool :=
  bool_decide (connected_password = hash_password (str_bytes password) (h_salt hash)).

Definition is_shared_ab (s : PasswordSource) (password : bytes) (hash : Hash) : bool :=
  if bool_decide (password = []) then false
  else match s with SharedAb p => source_equal p password hash | _ => false end.

(** *** Options *)

Definition get_option h (k : str) : str := default [] (pc_options (lc_config h) !! k).

Definition load_config x : PeerConfig := peer_load (lc_id x.1) x.2.
Definition save_config c x : Sess := (x.1 <| lc_config := c |>, peer_store c (lc_id x.1) x.2).
(** [let mut config = self.load_config(); ...; self.save_config(config)] *)
Definition edit_config (f : PeerConfig -> PeerConfig) x : Sess := save_config (f (load_config x)) x.

(** The option is compared with the handler's copy of the configuration. *)
Definition set_option (k v : str) x : Sess :=
  if bool_decide (v = get_option x.1 k) then x else edit_config (fun c => c <| pc_options ::= <[k := v]> |>) x.

Definition save_view_style (v : str) x : Sess := edit_config (fun c => c <| pc_view_style := v |>) x.
Definition save_keyboard_mode (v : str) x : Sess := edit_config (fun c => c <| pc_keyboard_mode := v |>) x.
Definition save_reverse_mouse_wheel (v : str) x : Sess := edit_config (fun c => c <| pc_reverse_mouse_wheel := v |>) x.
Definition save_displays_as_individual_windows (v : str) x : Sess :=
  edit_config (fun c => c <| pc_displays_as_individual_windows := v |>) x.
Definition save_use_all_my_displays (v : str) x : Sess := edit_config (fun c => c <| pc_use_all_my_displays := v |>) x.
Definition save_scroll_style (v : str) x : Sess := edit_config (fun c => c <| pc_scroll_style := v |>) x.
Definition save_edge_scroll_edge_thickness (v : Z) x : Sess :=
  edit_config (fun c => c <| pc_edge_scroll_edge_thickness := v |>) x.
Definition save_trackpad_speed (v : Z) x : Sess := edit_config (fun c => c <| pc_trackpad_speed := v |>) x.
Definition set_direct_failure (v : Z) x : Sess := edit_config (fun c => c <| pc_direct_failures := v |>) x.

Definition save_ui_flutter (k v : str) x : Sess :=
  edit_config (fun c => c <| pc_ui_flutter ::= (if bool_decide (v = []) then delete k else <[k := v]>) |>) x.
Definition get_ui_flutter h (k : str) : str := default [] (pc_ui_flutter (lc_config h) !! k).

Definition get_custom_resolution h (display : Z) : option (Z * Z) := pc_custom_resolutions (lc_config h) !! fmt_Z display.
Definition set_custom_resolution (display : Z) (wh : option (Z * Z)) x : Sess :=
  edit_config (fun c => c <| pc_custom_resolutions ::=
    (match wh with Some r => <[fmt_Z display := r]> | None => delete (fmt_Z display) end) |>) x.

Definition get_username h (pi : PeerInfo) : str :=
  if bool_decide (pi_username pi = []) then in_username (pc_info (lc_config h)) else pi_username pi.

(** *** Toggles *)

Definition get_toggle_option h (name : str) : bool :=
  let c := lc_config h in
  if bool_decide (name = lit "show-remote-cursor") then pc_show_remote_cursor c
  else if bool_decide (name = lit "lock-after-session-end") then pc_lock_after_session_end c
  else if bool_decide (name = OPTION_TERMINAL_PERSISTENT) then pc_terminal_persistent c
  else if bool_decide (name = lit "privacy-mode") then pc_privacy_mode c
  else if bool_decide (name = OPTION_ENABLE_FILE_COPY_PASTE) then pc_enable_file_copy_paste c
  else if bool_decide (name = lit "disable-audio") then pc_disable_audio c
  else if bool_decide (name = lit "disable-clipboard") then pc_disable_clipboard c
  else if bool_decide (name = lit "show-quality-monitor") then pc_show_quality_monitor c
  else if bool_decide (name = lit "allow_swap_key") then pc_allow_swap_key c
  else if bool_decide (name = lit "view-only") then pc_view_only c
  else if bool_decide (name = lit "show-my-cursor") then pc_show_my_cursor c
  else if bool_decide (name = lit "follow-remote-cursor") then pc_follow_remote_cursor c
  else if bool_decide (name = lit "follow-remote-window") then pc_follow_remote_window c
  else negb (bool_decide (get_option h name = [])).

Definition yes_no (b : bool) : bool_field := Known (if b then Yes else No).

(** The branch of "view-only": the message restores what the mode had masked;
    leaving the mode also hides the controller's cursor. *)
Definition toggle_view_only h c : PeerConfig * OptionMessage :=
  let c := c <| pc_view_only ::= negb |> in
  if pc_view_only c then
    (c, option_new <| o_disable_keyboard := yes_no true |> <| o_disable_clipboard := yes_no true |>
          <| o_show_remote_cursor := yes_no true |> <| o_enable_file_transfer := yes_no false |>
          <| o_lock_after_session_end := yes_no false |>)
  else
    let o := option_new <| o_disable_keyboard := yes_no false |>
          <| o_disable_clipboard := yes_no (get_toggle_option h (lit "disable-clipboard")) |>
          <| o_show_remote_cursor := yes_no (get_toggle_option h (lit "show-remote-cursor")) |>
          <| o_enable_file_transfer := yes_no (pc_enable_file_copy_paste (lc_config h)) |>
          <| o_lock_after_session_end := yes_no (pc_lock_after_session_end (lc_config h)) |> in
    if pc_show_my_cursor c then (c <| pc_show_my_cursor := false |>, o <| o_show_my_cursor := yes_no false |>) else (c, o).

(** The branches that edit the loaded configuration and fill in a message *)
Definition toggle_named (name : str) h c : option (PeerConfig * OptionMessage) :=
  if bool_decide (name = lit "show-remote-cursor") then
    let c := c <| pc_show_remote_cursor ::= negb |> in Some (c, option_new <| o_show_remote_cursor := yes_no (pc_show_remote_cursor c) |>)
  else if bool_decide (name = lit "follow-remote-cursor") then
    let c := c <| pc_follow_remote_cursor ::= negb |> in Some (c, option_new <| o_follow_remote_cursor := yes_no (pc_follow_remote_cursor c) |>)
  else if bool_decide (name = lit "follow-remote-window") then
    let c := c <| pc_follow_remote_window ::= negb |> in Some (c, option_new <| o_follow_remote_window := yes_no (pc_follow_remote_window c) |>)
  else if bool_decide (name = lit "disable-audio") then
    let c := c <| pc_disable_audio ::= negb |> in Some (c, option_new <| o_disable_audio := yes_no (pc_disable_audio c) |>)
  else if bool_decide (name = lit "disable-clipboard") then
    let c := c <| pc_disable_clipboard ::= negb |> in Some (c, option_new <| o_disable_clipboard := yes_no (pc_disable_clipboard c) |>)
  else if bool_decide (name = lit "lock-after-session-end") then
    let c := c <| pc_lock_after_session_end ::= negb |> in Some (c, option_new <| o_lock_after_session_end := yes_no (pc_lock_after_session_end c) |>)
  else if bool_decide (name = OPTION_TERMINAL_PERSISTENT) then
    let c := c <| pc_terminal_persistent ::= negb |> in Some (c, option_new <| o_terminal_persistent := yes_no (pc_terminal_persistent c) |>)
  else if bool_decide (name = lit "privacy-mode") then
    Some (c, option_new <| o_privacy_mode := yes_no (negb (pc_privacy_mode c)) |>)
  else if bool_decide (name = lit "enable-file-copy-paste") then
    let c := c <| pc_enable_file_copy_paste ::= negb |> in Some (c, option_new <| o_enable_file_transfer := yes_no (pc_enable_file_copy_paste c) |>)
  else if bool_decide (name = lit "block-input") then Some (c, option_new <| o_block_input := yes_no true |>)
  else if bool_decide (name = lit "unblock-input") then Some (c, option_new <| o_block_input := yes_no false |>)
  else if bool_decide (name = lit "show-quality-monitor") then Some (c <| pc_show_quality_monitor ::= negb |>, option_new)
  else if bool_decide (name = lit "allow_swap_key") then Some (c <| pc_allow_swap_key ::= negb |>, option_new)
  else if bool_decide (name = lit "view-only") then Some (toggle_view_only h c)
  else if bool_decide (name = lit "show-my-cursor") then
    let c := c <| pc_show_my_cursor ::= negb |> in Some (c, option_new <| o_show_my_cursor := yes_no (pc_show_my_cursor c) |>)
  else None.

Definition option_message (o : OptionMessage) : Message := Msg_Misc (Some (Misc_Option o)).

(** [str::contains] *)
Fixpoint contains (p s : str) : bool :=
  starts_with p s || match s with [] => false | _ :: r => contains p r end.

Definition toggle_option (name : str) x : option Message * Sess :=
  let '(h, p) := x in
  match toggle_named name h (load_config x) with
  | Some (c, o) => (Some (option_message o), if contains (lit "block-input") name then x else save_config c x)
  | None =>
    let is_set := match pc_options (lc_config h) !! name with Some o => negb (bool_decide (o = [])) | None => false end in
    let c := (lc_config h) <| pc_options ::= (if is_set then delete name else <[name := lit "Y"]>) |> in
    (None, save_config c x)
  end.

(** *** Quality and frame rate *)

Definition get_image_quality_enum (q : str) (ignore_default : bool) : option ImageQuality :=
  if bool_decide (q = lit "low") then Some IqLow
  else if bool_decide (q = lit "best") then Some IqBest
  else if bool_decide (q = lit "balanced") then if ignore_default then None else Some IqBalanced
  else None.

(** [image_quality << 8] on [i32] *)
Definition shl8 (q : Z) : Z := wraps 32 (Z.shiftl q 8).

Definition save_custom_image_quality (q : Z) x : Message * Sess :=
  (option_message (option_new <| o_custom_image_quality := shl8 q |>),
   edit_config (fun c => c <| pc_image_quality := lit "custom" |> <| pc_custom_image_quality := [q] |>) x).

Definition save_image_quality (value : str) x : option Message * Sess :=
  ((fun q => option_message (option_new <| o_image_quality := Known q |>)) <$> get_image_quality_enum value false,
   edit_config (fun c => c <| pc_image_quality := value |>) x).

Definition set_custom_fps (fps : Z) (save : bool) x : Message * Sess :=
  let x := if save then edit_config (fun c => c <| pc_options ::= <[lit "custom-fps" := fmt_Z fps]> |>) x else x in
  (option_message (option_new <| o_custom_fps := fps |>), (x.1 <| lc_custom_fps := Some (wrapu 64 fps) |>, x.2)).

(** [str::parse::<i32>] *)
Definition parse_i32 (s : str) : option Z :=
  match s with
  | 45 :: 43 :: _ => None
  | 45 :: r => n ← parse_u 64 r; if n <=? 2 ^ 31 then Some (- n) else None
  | _ => n ← parse_u 64 s; if n <? 2 ^ 31 then Some n else None
  end.

Definition flag_yes (b : bool) (f : OptionMessage -> OptionMessage) (o : OptionMessage) : OptionMessage := if b then f o else o.

(** The custom quality and frame rate of a login message; the frame rate is also
    remembered in the handler. *)
Definition custom_quality (public_server : bool) x (o : OptionMessage) : OptionMessage * Sess :=
  let h := x.1 in
  let allow_more := negb public_server || bool_decide (lc_direct h = Some true) in
  let quality := match pc_custom_image_quality (load_config x) with
    | [] => 50
    | q :: _ => if negb allow_more && (100 <? q) then 50 else q
    end in
  let o := o <| o_custom_image_quality := shl8 quality |> in
  match pc_options (lc_config h) !! lit "custom-fps" with
  | Some text =>
    let fps := default 30 (parse_i32 text) in
    let fps := if negb allow_more && (30 <? fps) then 30 else fps in
    (o <| o_custom_fps := fps |>, (h <| lc_custom_fps := Some (wrapu 64 fps) |>, x.2))
  | None => (o, x)
  end.

Definition toggle_fields h (o : OptionMessage) : OptionMessage :=
  let t := get_toggle_option h in
  let yes := Known Yes in
  let view_only := t (lit "view-only") in
  let o := flag_yes view_only (fun o => o <| o_disable_keyboard := yes |>) o in
  let o := flag_yes (view_only || t (lit "show-remote-cursor")) (fun o => o <| o_show_remote_cursor := yes |>) o in
  let o := flag_yes (view_only && t (lit "show-my-cursor")) (fun o => o <| o_show_my_cursor := yes |>) o in
  let o := flag_yes (t (lit "follow-remote-cursor")) (fun o => o <| o_follow_remote_cursor := yes |>) o in
  let o := flag_yes (t (lit "follow-remote-window")) (fun o => o <| o_follow_remote_window := yes |>) o in
  let o := flag_yes (negb view_only && t (lit "lock-after-session-end")) (fun o => o <| o_lock_after_session_end := yes |>) o in
  let o := flag_yes (t (lit "disable-audio")) (fun o => o <| o_disable_audio := yes |>) o in
  let o := flag_yes (negb view_only && t OPTION_ENABLE_FILE_COPY_PASTE) (fun o => o <| o_enable_file_transfer := yes |>) o in
  let o := flag_yes (view_only || t (lit "disable-clipboard")) (fun o => o <| o_disable_clipboard := yes |>) o in
  o <| o_supported_decoding := Some (supported_decodings (lc_id h)) |>.

Definition get_option_message (public_server ignore_default : bool) x : option OptionMessage * Sess :=
  let h := x.1 in
  match lc_conn_type h with
  | PORT_FORWARD | RDP | FILE_TRANSFER => (None, x)
  | TERMINAL =>
    ((if get_toggle_option h OPTION_TERMINAL_PERSISTENT then Some (option_new <| o_terminal_persistent := Known Yes |>) else None), x)
  | DEFAULT_CONN | VIEW_CAMERA =>
    let q := pc_image_quality (lc_config h) in
    let '(o, x') := match get_image_quality_enum q ignore_default with
      | Some e => (option_new <| o_image_quality := Known e |>, x)
      | None => if bool_decide (q = lit "custom") then custom_quality public_server x option_new else (option_new, x)
      end in
    (Some (toggle_fields h o), x')
  end.

(** *** The peer's information *)

Definition is_privacy_mode_supported h : bool := default false (lc_features h).

Definition is_keyboard_mode_supported (mode : KeyboardMode) (version_number : Z) (peer_platform : str) : bool :=
  match mode with
  | Legacy => true
  | Map => if bool_decide (to_ascii_lowercase peer_platform = lit "android") then false
           else get_version_number (lit "1.2.0") <=? version_number
  | Translate | Auto => get_version_number (lit "1.2.0") <=? version_number
  end.

Definition get_supported_keyboard_modes (version : Z) (peer_platform : str) : list KeyboardMode :=
  List.filter (fun m => is_keyboard_mode_supported m version peer_platform) [Legacy; Map; Translate; Auto].

#[global] Instance KeyboardMode_eq_dec : EqDecision KeyboardMode.
Proof. solve_decision. Defined.

(** The password that a successful login leaves in the peer's configuration *)
Definition remembered_password h (password0 : bytes) : bytes :=
  let password := lc_password h in
  if lc_remember h then
    if negb (bool_decide (password = [])) && negb (bool_decide (password = password0))
       && negb (is_shared_ab (lc_password_source h) password (lc_hash h))
    then password else password0
  else if is_personal_ab (lc_password_source h) password then password
  else [].

Definition keyboard_mode_for (pi : PeerInfo) (current : str) : str :=
  let version := get_version_number (pi_version pi) in
  if bool_decide (current = []) then
    mode_to_string (if is_keyboard_mode_supported Map version (pi_platform pi) then Map else Legacy)
  else if bool_decide (default Legacy (mode_from_str current) ∈ get_supported_keyboard_modes version (pi_platform pi)) then current
  else mode_to_string Legacy.

Definition PUBLIC_SERVER : str := lit "public".

Definition handle_peer_info (pi : PeerInfo) x : list UiFx * Sess :=
  let h := x.1 in
  let c := load_config x in
  let c := c <| pc_info := MkInfo (pi_username pi) (pi_hostname pi) (pi_platform pi) |>
             <| pc_password := remembered_password h (pc_password c) |> in
  let c := match lc_other_server h with
    | Some (_, b, k) => if bool_decide (b = PUBLIC_SERVER) then c else c <| pc_options ::= <[lit "other-server-key" := k]> |>
    | None => c
    end in
  let c := if lc_force_relay h then c <| pc_options ::= <[lit "force-always-relay" := lit "Y"]> |> else c in
  let fx := if negb (bool_decide (pc_password c = [])) && negb (is_shared_ab (lc_password_source h) (lc_password h) (lc_hash h))
               && negb (is_personal_ab (lc_password_source h) (lc_password h))
            then [SyncHashToPersonalAb (lc_id h) (b64_encode (pc_password c))] else [] in
  let c := c <| pc_keyboard_mode := keyboard_mode_for pi (pc_keyboard_mode c) |> in
  let h' := h <| lc_version ::= (fun v => if bool_decide (pi_version pi = []) then v else get_version_number (pi_version pi)) |>
              <| lc_features := pi_privacy_mode pi |> in
  let x' := save_config c (h', x.2) in
  (fx, (x'.1 <| lc_supported_encoding := pi_encoding pi |>, x'.2)).

Definition remote_dirs h : gmap str str := default ∅ (dirs_of (get_option h (lit "remote_dir"))).
Definition get_remote_dir h : str := default [] (remote_dirs h !! in_username (pc_info (lc_config h))).
Definition get_all_remote_dir (path : str) h : str :=
  let user := in_username (pc_info (lc_config h)) in
  dirs_to (if bool_decide (path = []) then delete user (remote_dirs h) else <[user := path]> (remote_dirs h)).

(** *** Restarting, switching sides, automatic login, tokens *)

Definition RESTART_REMOTE_DEVICE_GRACE : Z := 5 * 60 * 10 ^ 9.
Definition mark_restarting_remote_device (now : Z) h : LoginConfigHandler :=
  h <| lc_restarting_remote_device := true |> <| lc_restart_remote_device_at := Some now |>.
Definition clear_restarting_remote_device h : LoginConfigHandler :=
  h <| lc_restarting_remote_device := false |> <| lc_restart_remote_device_at := None |>.
Definition is_restarting_remote_device (now : Z) h : bool :=
  if negb (lc_restarting_remote_device h) then false
  else match lc_restart_remote_device_at h with Some t => now - t <? RESTART_REMOTE_DEVICE_GRACE | None => false end.

Definition allow_switch_back_once h : LoginConfigHandler := h <| lc_switch_back_allowed := true |>.
Definition consume_switch_back_permission h : bool * LoginConfigHandler :=
  if lc_switch_back_allowed h then (true, h <| lc_switch_back_allowed := false |>) else (false, h).

Definition should_auto_login h : str :=
  let l := pc_lock_after_session_end (lc_config h) in
  let a := negb (bool_decide (get_option h (lit "auto-login") = [])) in
  let p := get_option h (lit "os-password") in
  if negb (bool_decide (p = [])) && l && a then p else [].

Definition get_conn_token h : option str :=
  if bool_decide (lc_password h = []) then None
  else token_to (MkToken (lc_password h) (lc_password_source h) (lc_session_id h)).

Definition get_key_terminal_service_id h : str :=
  if lc_is_terminal_admin h then lit "terminal-admin-service-id" else lit "terminal-service-id".

(** *** Starting a session *)

Definition handle_relay_id (i : str) : str :=
  match strip_suffix (lit "\r") i with
  | Some r => r
  | None => default i (strip_suffix (lit "/r") i)
  end.

(** A name whose [to_lowercase] is "key": besides the capitals, the Kelvin sign
    lowers to "k" *)
Definition lowers_to_key (k : str) : bool :=
  match k with
  | [a; b; d] => ((a =? 107) || (a =? 75) || (a =? 8490)) && ((b =? 101) || (b =? 69)) && ((d =? 121) || (d =? 89))
  | _ => false
  end.

(** The last "key=..." of the arguments wins. *)
Definition key_argument (args : str) : str :=
  foldl (fun acc arg => match split_once 61 arg with
    | Some (k, v) => if lowers_to_key k then v else acc
    | None => acc
    end) [] (split_char 38 args).

(** An identifier with its parts: the id to store, the peer on another server,
    and whether it asks for a relay *)
Definition parse_peer_id (active_key raw : str) : str * option (str * str * str) * bool :=
  if contains_c (fun k => k =? 64) raw then
    let v := split_char 64 raw in
    let raw_id := default [] (v !! 0%nat) in
    let server_key := split_char 63 (default [] (v !! 1%nat)) in
    let server := default [] (server_key !! 0%nat) in
    let args := default [] (server_key !! 1%nat) in
    let key := if bool_decide (server = PUBLIC_SERVER) then active_key else key_argument args in
    let real_id := handle_relay_id raw_id in
    (real_id ++ lit "@" ++ server, Some (real_id, server, key), negb (bool_decide (real_id = raw_id)))
  else
    let real_id := handle_relay_id raw in
    (real_id, None, negb (bool_decide (real_id = raw))).

(** [initialize]; [active_key] is the key of the active profile. *)
Definition initialize (active_key raw : str) (ct : ConnType) (uuid : option str) (relay : bool) (shared : option str)
    (conn_token : option str) x : Sess :=
  let '(h, p) := x in
  let '(i, other, asked) := parse_peer_id active_key raw in
  let h := h <| lc_other_server ::= (fun o => match other with Some _ => other | None => o end) |>
             <| lc_id := i |> <| lc_conn_type := ct |> in
  let c := load_config (h, p) in
  let h := h <| lc_remember := negb (bool_decide (pc_password c = [])) |> <| lc_config := c |> in
  let token := t ← conn_token; token_of t in
  let sid := match token with Some t => tk_session_id t | None => 0 end in
  let h := match token with
    | Some t => h <| lc_password := tk_password t |> <| lc_password_source := tk_password_source t |>
    | None => h
    end in
  let sid := if sid =? 0 then if random_sid =? 0 then 1 else random_sid else sid in
  let h := clear_restarting_remote_device (h <| lc_session_id := sid |> <| lc_supported_encoding := [] |>) in
  let h := h <| lc_force_relay := option2bool (lit "force-always-relay") (get_option h (lit "force-always-relay"))
                                  || (relay || asked) || ws_enabled || proxy_enabled |> in
  let h := h <| lc_other_server ::= (fun o => match o with
    | Some (real_id, server, key) =>
      let stored := get_option h (lit "other-server-key") in
      if negb (bool_decide (stored = [])) && bool_decide (key = []) then Some (real_id, server, stored) else o
    | None => None
    end) |> in
  (h <| lc_direct := None |> <| lc_received := false |> <| lc_switch_back_allowed := false |> <| lc_switch_uuid := uuid |>
     <| lc_selected_windows_session_id := None |> <| lc_shared_password := shared |> <| lc_record_state := false |>
     <| lc_record_permission := true |> <| lc_is_terminal_admin := bool_decide (ct = TERMINAL) && terminal_admin_env |>, p).

(** *** The login message *)

(** [split_whitespace] *)
Definition split_whitespace (s : str) : list str := List.filter (fun w => negb (bool_decide (w = []))) (split is_whitespace s).

Definition capitalize (s : str) : str :=
  join (lit " ") ((fun w => match w with [] => [] | k :: r => to_uppercase k ++ r end) <$> split_whitespace s).

Definition first_nonempty (l : list str) : str := default [] (head (List.filter (fun s => negb (bool_decide (s = []))) l)).

Definition my_display_name : str :=
  let user_info := local_option (lit "user_info") in
  let trimmed := default [] (trim <$> json_field user_info (lit "display_name")) in
  let from_info := if bool_decide (trimmed = []) then default [] (json_field user_info (lit "name")) else trimmed in
  capitalize (first_nonempty [builtin_option OPTION_DISPLAY_NAME; from_info; my_username]).

Definition my_avatar : str :=
  resolve_avatar_url (first_nonempty [builtin_option OPTION_AVATAR;
    default [] (trim <$> json_field (local_option (lit "user_info")) (lit "avatar"))]).

Definition login_union h : option LoginUnion :=
  match lc_conn_type h with
  | FILE_TRANSFER => Some (Lu_FileTransfer (get_remote_dir h) (negb (bool_decide (get_option h (lit "remote_show_hidden") = []))))
  | VIEW_CAMERA => Some Lu_ViewCamera
  | PORT_FORWARD | RDP => Some (Lu_PortForward (lc_port_forward h).1 (lc_port_forward h).2)
  | TERMINAL => Some (Lu_Terminal (get_option h (get_key_terminal_service_id h)))
  | DEFAULT_CONN => None
  end.

(** The hardware id of a trusted device is a field the host does not read. *)
Definition create_login_msg (public_server : bool) (os_username os_password : str) (password : bytes) x : LoginRequest * Sess :=
  let h := x.1 in
  let '(my_id, pure_id) := match lc_other_server h with
    | Some (i, _, _) => (my_device_id ++ lit "@" ++ my_rendezvous_server, i)
    | None => (my_device_id, lc_id h)
    end in
  let '(o, x') := get_option_message public_server true x in
  let lr := MkLogin pure_id password my_id my_display_name my_platform o (login_union h) false (lc_session_id h) VERSION
              (Some (MkOsLogin os_username os_password)) my_avatar None in
  (match lc_nestlink_permit h with
   | Some prepared => MkLogin (lr_username lr) (lr_password lr) (controller_id (p_claims prepared)) (lr_my_name lr) (lr_my_platform lr)
       (lr_option lr) (lr_union lr) (lr_video_ack_required lr) (lr_session_id lr) (lr_version lr) (lr_os_login lr) (lr_avatar lr)
       (Some (envelope prepared))
   | None => lr
   end, x').

End Handler.

(** ** Toggles and the stored configuration *)

Section Toggles.
Context {P : Type} `{!PeerStore P, !PeerStoreLaws P, !ClientKeys, !ClientKeysLaws, !ClientEnv}.
Abbreviation Sess := (LoginConfigHandler * P)%type.
Implicit Types (h : LoginConfigHandler) (x : Sess) (c : PeerConfig).

(** The handler's copy has the flags of the file: no other window has changed them. *)
Definition synced x : Prop := flags (load_config x) = flags (lc_config x.1).

(** The names of the flags *)
Definition flag_names : list str :=
  [lit "show-remote-cursor"; lit "follow-remote-cursor"; lit "follow-remote-window"; lit "disable-audio";
   lit "disable-clipboard"; lit "lock-after-session-end"; lit "terminal-persistent"; lit "privacy-mode";
   lit "enable-file-copy-paste"; lit "show-quality-monitor"; lit "allow_swap_key"; lit "view-only"; lit "show-my-cursor"].

(** Names that ask the host for something and keep no flag *)
Definition request_names : list str := [lit "privacy-mode"; lit "block-input"; lit "unblock-input"].

Lemma flags_save c x : synced (save_config c x) /\ lc_config (save_config c x).1 = c.
Proof. unfold synced, load_config, save_config. simpl. split; [apply peer_load_flags|done]. Qed.

(** A flag reads the list of flags at the position of its name. *)
Lemma toggle_flag h n : n ∈ flag_names -> exists i : nat, flag_names !! i = Some n /\ flags (lc_config h) !! i = Some (get_toggle_option h n).
Proof.
  intros Hn. apply list_elem_of_lookup in Hn as [i Hi]. exists i. split; [done|].
  unfold get_toggle_option. rewrite terminal_persistent_key, enable_file_copy_paste_key.
  do 13 (destruct i as [|i]; [injection Hi as <-; reflexivity|]). discriminate Hi.
Qed.

(** The thirteen names are different, so a flag is known by its position. *)
Lemma flag_names_inj (i j : nat) n : flag_names !! i = Some n -> flag_names !! j = Some n -> i = j.
Proof. apply (NoDup_lookup flag_names). apply (bool_decide_unpack _). vm_compute. exact I. Qed.

Lemma toggle_flags_eq h h' n : flags (lc_config h) = flags (lc_config h') -> n ∈ flag_names -> get_toggle_option h n = get_toggle_option h' n.
Proof.
  intros Hf Hn. destruct (toggle_flag h n Hn) as (i&Hi&E1), (toggle_flag h' n Hn) as (j&Hj&E2).
  rewrite (flag_names_inj i j n Hi Hj), Hf, E2 in E1. congruence.
Qed.

(** What the named branches do to the flags *)
Lemma toggle_named_flags name h c : name ∉ request_names ->
  match toggle_named name h c with
  | Some (c', _) => exists k : nat, flag_names !! k = Some name /\
      (flags c' = alter negb k (flags c) \/ k = 11%nat /\ flags c' = <[12%nat := false]> (alter negb k (flags c)))
  | None => name ∉ flag_names
  end.
Proof.
  intros Hr. assert (Hn : lit "privacy-mode" <> name /\ lit "block-input" <> name /\ lit "unblock-input" <> name).
  { unfold request_names in Hr. rewrite !not_elem_of_cons in Hr. destruct Hr as (?&?&?&_). split_and!; congruence. }
  destruct Hn as (Hn1&Hn2&Hn3). unfold toggle_named. rewrite terminal_persistent_key.
  do 7 (case_bool_decide; [subst name; eexists (_ : nat); split; [match goal with
    | |- flag_names !! ?k = Some (lit "show-remote-cursor") => instantiate (1 := 0%nat)
    | |- flag_names !! ?k = Some (lit "follow-remote-cursor") => instantiate (1 := 1%nat)
    | |- flag_names !! ?k = Some (lit "follow-remote-window") => instantiate (1 := 2%nat)
    | |- flag_names !! ?k = Some (lit "disable-audio") => instantiate (1 := 3%nat)
    | |- flag_names !! ?k = Some (lit "disable-clipboard") => instantiate (1 := 4%nat)
    | |- flag_names !! ?k = Some (lit "lock-after-session-end") => instantiate (1 := 5%nat)
    | |- flag_names !! ?k = Some (lit "terminal-persistent") => instantiate (1 := 6%nat)
    end; reflexivity|left; reflexivity]|]).
  case_bool_decide; [congruence|].
  case_bool_decide; [subst name; exists 8%nat; split; [reflexivity|left; reflexivity]|].
  do 2 (case_bool_decide; [congruence|]).
  case_bool_decide; [subst name; exists 9%nat; split; [reflexivity|left; reflexivity]|].
  case_bool_decide; [subst name; exists 10%nat; split; [reflexivity|left; reflexivity]|].
  case_bool_decide.
  { subst name. unfold toggle_view_only. destruct (pc_view_only _) eqn:E.
    - exists 11%nat. split; [reflexivity|left; reflexivity].
    - destruct (pc_show_my_cursor _); exists 11%nat; (split; [reflexivity|]); [right; split; reflexivity|left; reflexivity]. }
  case_bool_decide; [subst name; exists 12%nat; split; [reflexivity|left; reflexivity]|].
  unfold flag_names. rewrite !not_elem_of_cons. split_and!; first [congruence|apply not_elem_of_nil].
Qed.

Lemma save_config_toggle c x n k b : flag_names !! k = Some n -> flags c !! k = Some b -> get_toggle_option (save_config c x).1 n = b.
Proof.
  intros Hk Hb. assert (Hn : n ∈ flag_names) by (by eapply list_elem_of_lookup_2).
  destruct (toggle_flag (save_config c x).1 n Hn) as (i&Hi&Hf). rewrite (flag_names_inj i k n Hi Hk) in Hf. change (lc_config (save_config c x).1) with c in Hf. congruence.
Qed.

(** An unnamed option: set becomes unset and back, and the flags stay. *)
Lemma toggle_table name h : name ∉ flag_names ->
  get_toggle_option h name = match pc_options (lc_config h) !! name with Some o => negb (bool_decide (o = [])) | None => false end.
Proof.
  intros Hn. unfold flag_names in Hn. rewrite !not_elem_of_cons in Hn. destruct Hn as (?&?&?&?&?&?&?&?&?&?&?&?&?&_). unfold get_toggle_option.
  rewrite terminal_persistent_key, enable_file_copy_paste_key. do 13 (rewrite bool_decide_false by congruence).
  unfold get_option. destruct (_ !! name); done.
Qed.

(** A toggle flips what it names and nothing else. *)
Lemma toggle_option_spec name x : synced x -> name ∉ request_names ->
  let x' := (toggle_option name x).2 in
  synced x' /\ get_toggle_option x'.1 name = negb (get_toggle_option x.1 name) /\
  forall n, n ∈ flag_names -> n <> name -> (name = lit "view-only" -> n <> lit "show-my-cursor") ->
    get_toggle_option x'.1 n = get_toggle_option x.1 n.
Proof.
  intros Hs Hr. pose proof (toggle_named_flags name x.1 (load_config x) Hr) as Ht. destruct x as [h p]. unfold toggle_option. simpl in Ht.
  destruct (toggle_named name h (load_config (h, p))) as [[c o]|] eqn:E.
  - destruct Ht as (k&Hk&Hf).
    assert (Hb : contains (lit "block-input") name = false).
    { pose proof Hk as Hk'. do 13 (destruct k as [|k]; [injection Hk' as <-; vm_compute; reflexivity|]). discriminate Hk'. }
    rewrite Hb. cbv zeta. simpl snd. split; [apply flags_save|].
    assert (Hin : name ∈ flag_names) by (by eapply list_elem_of_lookup_2).
    assert (Hl : forall i n, flag_names !! i = Some n -> flags (load_config (h, p)) !! i = Some (get_toggle_option h n)).
    { intros i n Hi. rewrite Hs. destruct (toggle_flag h n) as (j&Hj&Hf'); [by eapply list_elem_of_lookup_2|].
      by rewrite (flag_names_inj i j n Hi Hj). }
    split.
    + apply (save_config_toggle _ _ _ k); [done|]. destruct Hf as [->|[-> ->]].
      * by rewrite list_lookup_alter_eq, (Hl k name Hk).
      * rewrite list_lookup_insert_ne by lia. by rewrite list_lookup_alter_eq, (Hl _ name Hk).
    + intros n Hn Hne Hv. apply list_elem_of_lookup in Hn as [i Hi]. apply (save_config_toggle _ _ _ i); [done|].
      assert (Hik : k <> i) by (intros ->; congruence). destruct Hf as [->|[-> ->]].
      * rewrite list_lookup_alter_ne by done. by apply Hl.
      * rewrite list_lookup_insert_ne; [rewrite list_lookup_alter_ne by done; by apply Hl|].
        intros <-. injection Hk as <-. injection Hi as <-. exact (Hv eq_refl eq_refl).
  - cbv zeta. simpl snd. split; [apply flags_save|]. split.
    + rewrite !(toggle_table name) by done. simpl. destruct (pc_options (lc_config h) !! name) as [v|] eqn:Ev.
      * case_bool_decide; simpl; [by rewrite lookup_insert_eq|by rewrite lookup_delete_eq].
      * by rewrite lookup_insert_eq.
    + intros n Hn _ _. by apply toggle_flags_eq.
Qed.

End Toggles.

(** ** A concrete client, for the instances *)
Module ExampleClient.

Definition sample_peer : PeerConfig :=
  MkPeer [] ∅ ∅ (MkInfo [] [] []) (lit "original") (lit "scrollauto") 100 (lit "balanced") [] (lit "map") [] [] [] ∅ 0 100
    false false false false false false false false true false false false false.

#[global] Instance sample_store : PeerStore (gmap str PeerConfig) := {|
  peer_load i p := default sample_peer (p !! i);
  peer_store c i p := <[i := c]> p |}.
#[global] Instance sample_store_laws : PeerStoreLaws (gmap str PeerConfig).
Proof. split; intros i c p; simpl; by rewrite lookup_insert_eq. Qed.

#[global] Instance client_keys : ClientKeys := {|
  OPTION_TERMINAL_PERSISTENT := lit "terminal-persistent"; OPTION_ENABLE_FILE_COPY_PASTE := lit "enable-file-copy-paste";
  OPTION_AVATAR := lit "avatar"; OPTION_DISPLAY_NAME := lit "display-name";
  OPTION_DEFAULT_CONNECT_PASSWORD := lit "default-connect-password" |}.
#[global] Instance client_keys_laws : ClientKeysLaws.
Proof. by split. Qed.

(** A session identifier is a token of one character; hashing marks its input. *)
#[global] Instance client_env : ClientEnv := {|
  option2bool k v := if starts_with (lit "enable-") k then negb (bool_decide (v = lit "N")) else bool_decide (v = lit "Y");
  ws_enabled := false; proxy_enabled := false; terminal_admin_env := false; random_sid := 77;
  sha256 b := 256 :: b; b64_encode b := b; b64_decode s := Some s;
  token_of s := match s with n :: p => Some (MkToken p Undefined n) | [] => None end;
  token_to t := match tk_password_source t with Undefined => Some (tk_session_id t :: tk_password t) | _ => None end;
  dirs_of _ := None; dirs_to _ := []; json_field _ _ := None;
  get_version_number v := Z.of_nat (length v);
  mode_to_string m := match m with Legacy => lit "legacy" | Map => lit "map" | Translate => lit "translate" | Auto => lit "auto" end;
  mode_from_str s := if bool_decide (s = lit "map") then Some Map else if bool_decide (s = lit "legacy") then Some Legacy else None;
  supported_decodings _ := []; builtin_option _ := []; local_option _ := []; resolve_avatar_url s := s;
  my_device_id := lit "me"; my_rendezvous_server := lit "hbbs.example.com"; my_platform := lit "Linux"; my_username := lit "ann lee";
  VERSION := lit "1.4.0"; to_uppercase c := [to_ascii_uppercase_c c] |}.

Definition new_handler : LoginConfigHandler :=
  MkHandler None [] DEFAULT_CONN false (MkHash [] []) [] false sample_peer ([], 0) 0 None 0 [] false None false None false None false None
    None None Undefined None false true.

(** A session with a device *)
Definition sample_session : LoginConfigHandler * gmap str PeerConfig :=
  initialize [] (lit "device1") DEFAULT_CONN None false None None (new_handler, ∅).

End ExampleClient.

Module ClientConfigClaims.

Section Claims.
Context {P : Type} `{!PeerStore P, !ClientKeys, !ClientEnv}.
Abbreviation Sess := (LoginConfigHandler * P)%type.

(** Toggling an option flips exactly the option it names, in the handler and in
    the peer's file, and toggling it is idempotent in pairs; only leaving
    view-only mode also hides the controller's own cursor.  Requests
    (privacy mode, blocking the host's input) change nothing here. *)
Theorem toggle_flips_one `{!PeerStoreLaws P, !ClientKeysLaws} (name : str) (x : Sess) :
  synced x -> name ∉ request_names ->
  synced (toggle_option name x).2 /\
  get_toggle_option (toggle_option name x).2.1 name = negb (get_toggle_option x.1 name) /\
  forall n, n ∈ flag_names -> n <> name -> (name = lit "view-only" -> n <> lit "show-my-cursor") ->
    get_toggle_option (toggle_option name x).2.1 n = get_toggle_option x.1 n.
Proof. intros Hs Hr. by apply toggle_option_spec. Qed.

(** A password from a shared address book is never written to the peer's
    configuration by the login it opened, nor pushed to the personal address
    book: what is stored is what was stored before, or nothing. *)
Theorem shared_password_not_stored (pi : PeerInfo) (x : Sess) :
  is_shared_ab (lc_password_source x.1) (lc_password x.1) (lc_hash x.1) = true ->
  (handle_peer_info pi x).1 = [] /\
  pc_password (lc_config (handle_peer_info pi x).2.1) ∈ [pc_password (load_config x); []].
Proof.
  intros Hs. unfold handle_peer_info. rewrite Hs. simpl. split; [by rewrite andb_false_r|].
  assert (Hp : is_personal_ab (lc_password_source x.1) (lc_password x.1) = false).
  { unfold is_shared_ab, is_personal_ab in *. case_bool_decide; [done|]. by destruct (lc_password_source x.1). }
  assert (Hr : remembered_password x.1 (pc_password (load_config x)) = pc_password (load_config x)
            \/ remembered_password x.1 (pc_password (load_config x)) = []).
  { unfold remembered_password. rewrite Hs, Hp, andb_false_r. destruct (lc_remember x.1); auto. }
  destruct (lc_other_server x.1) as [[[? b] ?]|]; [case_bool_decide|]; destruct (lc_force_relay x.1); simpl;
    destruct Hr as [-> | ->]; set_solver.
Qed.

(** Every session has an identifier that is not zero, and one that was opened
    with a suffix asking for a relay, through WebSocket or through a proxy is
    marked as forced to a relay, which the connection refuses. *)
Theorem sessions_are_marked (active_key raw : str) ct uuid relay shared token (x : Sess) :
  lc_session_id (initialize active_key raw ct uuid relay shared token x).1 <> 0 /\
  (negb (bool_decide (handle_relay_id raw = raw)) || ws_enabled || proxy_enabled = true -> existsb (Z.eqb 64) raw = false ->
     lc_force_relay (initialize active_key raw ct uuid relay shared token x).1 = true).
Proof.
  unfold initialize. destruct x as [h p]. destruct (parse_peer_id active_key raw) as [[i other] asked] eqn:E. simpl. split.
  - destruct (t ← token; token_of t) as [t|]; simpl.
    + destruct (tk_session_id t =? 0) eqn:Hz; [destruct (random_sid =? 0) eqn:Hy; lia|lia].
    + destruct (random_sid =? 0) eqn:Hy; lia.
  - intros Hr Hat. unfold parse_peer_id, contains_c in E.
    assert (Hc : existsb (fun k => k =? 64) raw = false).
    { rewrite <- Hat. clear. induction raw as [|a r IH]; [done|]. simpl. by rewrite IH, Z.eqb_sym. }
    rewrite Hc in E. injection E as _ _ <-. generalize dependent (negb (bool_decide (handle_relay_id raw = raw))). intros asked Hr.
    destruct (t ← token; token_of t); simpl; destruct asked, ws_enabled, proxy_enabled; rewrite ?orb_true_r; done.
Qed.

(** Reconnecting with the token of a session restores its password, where the
    password came from, and its identifier. *)
Theorem token_restores_login (t active_key raw : str) ct uuid relay shared (h : LoginConfigHandler) (x : Sess) :
  get_conn_token h = Some t -> (forall k s, token_to k = Some s -> token_of s = Some k) -> lc_session_id h <> 0 ->
  let h' := (initialize active_key raw ct uuid relay shared (Some t) x).1 in
  lc_password h' = lc_password h /\ lc_password_source h' = lc_password_source h /\ lc_session_id h' = lc_session_id h.
Proof.
  unfold get_conn_token. case_bool_decide; [done|]. intros Ht Hr Hz. apply Hr in Ht. unfold initialize. destruct x as [h0 p].
  destruct (parse_peer_id active_key raw) as [[i other] asked]. simpl. rewrite Ht. simpl.
  destruct (lc_session_id h =? 0) eqn:E; [lia|]. done.
Qed.

End Claims.

Import ExampleClient.

Lemma toggle_flips_one_witness :
  get_toggle_option (toggle_option (lit "view-only") sample_session).2.1 (lit "view-only") = true /\
  get_toggle_option (toggle_option (lit "view-only") sample_session).2.1 (lit "disable-audio") = false.
Proof.
  destruct (toggle_flips_one (lit "view-only") sample_session) as (_&Ht&Ho).
  - reflexivity.
  - apply (bool_decide_unpack _). vm_compute. exact I.
  - split; [rewrite Ht; reflexivity|]. rewrite Ho; [reflexivity|apply (bool_decide_unpack _); vm_compute; exact I|discriminate|].
    intros _. discriminate.
Defined.

Definition shared_session : LoginConfigHandler * gmap str PeerConfig :=
  (sample_session.1 <| lc_password := hash_password (str_bytes (lit "pw")) [] |> <| lc_password_source := SharedAb (lit "pw") |>, ∅).

Lemma shared_password_not_stored_witness :
  (handle_peer_info (MkPeerInfo (lit "u") (lit "h") (lit "Linux") (lit "1.4.0") None []) shared_session).1 = [].
Proof. apply shared_password_not_stored. reflexivity. Defined.

Lemma sessions_are_marked_witness :
  lc_force_relay (initialize [] (lit "device1/r") DEFAULT_CONN None false None None (new_handler, (∅ : gmap str PeerConfig))).1 = true.
Proof. apply sessions_are_marked; reflexivity. Defined.

Lemma token_restores_login_witness :
  get_conn_token (sample_session.1 <| lc_password := [1; 2] |>) = Some [77; 1; 2] /\
  lc_session_id (initialize [] (lit "device1") DEFAULT_CONN None false None (Some [77; 1; 2]) (new_handler, (∅ : gmap str PeerConfig))).1 = 77.
Proof.
  split; [reflexivity|].
  destruct (token_restores_login [77; 1; 2] [] (lit "device1") DEFAULT_CONN None false None (sample_session.1 <| lc_password := [1; 2] |>)
    (new_handler, (∅ : gmap str PeerConfig))) as (_&_&Hs).
  - reflexivity.
  - intros [p [b|b|] n] s; simpl; intros Hs; [discriminate Hs..|]. injection Hs as <-. reflexivity.
  - discriminate.
  - rewrite Hs. reflexivity.
Defined.

End ClientConfigClaims.
