(* ===== verification/Controller.v ===== *)
(** * The controller's connection to a peer

    Models [Client::start] of [client/src/client.rs] and what it calls (asking the
    signaling server for the peer, dialing it, the key exchange, the relay
    requests that are refused), with [secure_tcp], [get_rendezvous_server] and the
    punch options of [common.rs]; and the controller's side of the login: the
    answer to the host's challenge, login errors and logins from the interface.

    At an await other tasks may change the configuration and the account: every
    await applies the function [meanwhile] of the environment to them, which is
    arbitrary.  The name service is asked at such an await too, between the check
    of a server's name and the dial.  An effect that depends on the policy carries
    the configuration under which it was decided.  The network, the name service,
    the NAT tests and the cryptography answer through the class [CtlEnv]; what they
    answer depends on the moment (the number of awaits so far), so that two
    attempts, or two tries of one attempt, get answers of their own. *)
From stdpp Require Import base gmap list strings.
From Stdlib Require Import ZArith Lia.
From S2P Require Import Prelude RustStr Effects HomedeskNet HomedeskConfig NestlinkAuth NestlinkPermit Message ClientConfig.

#[local] Open Scope Z_scope.

(** ** Data *)

Inductive NatType := UNKNOWN_NAT | ASYMMETRIC | SYMMETRIC.
#[global] Instance NatType_eq_dec : EqDecision NatType.
Proof. solve_decision. Defined.

Inductive PunchFailure := ID_NOT_EXIST | OFFLINE | LICENSE_MISMATCH | LICENSE_OVERUSE | OTHER_FAILURE.

(** Messages of the signaling server (generated code), as far as they are read *)
Record PunchHoleResponse := MkPunch {
  pr_socket_addr : bytes; pr_socket_addr_v6 : bytes; pr_pk : bytes; pr_nat_type : NatType; pr_is_local : bool;
  pr_is_udp : bool; pr_feedback : Z; pr_other_failure : string; pr_failure : PunchFailure }.
Inductive RzReply := R_Punch (ph : PunchHoleResponse) | R_Relay (refuse_reason : string) | R_KeyExchange (keys : list bytes) | R_Other.

(** What a read from a stream gives; [Fr_Garbage] does not parse. *)
Inductive Frame (A : Type) := Fr_Timeout (e : string) | Fr_Error (e : string) | Fr_Closed | Fr_Garbage | Fr_Got (a : A).
Arguments Fr_Timeout {A} _. Arguments Fr_Error {A} _. Arguments Fr_Closed {A}. Arguments Fr_Garbage {A}. Arguments Fr_Got {A} _.

(** The peer's first message *)
Inductive PeerHello := P_SignedId (signed : bytes) | P_Other.

(** The messages of the key exchange *)
Inductive PeerMsg := Pm_Empty | Pm_PublicKey (asymmetric symmetric : bytes).

Inductive Transport := Tcp | Udp | Ipv6.
Definition transport_name (t : Transport) : str := match t with Tcp => lit "TCP" | Udp => lit "UDP" | Ipv6 => lit "IPv6" end.

(** What [start] returns: the stream (whether it is encrypted), whether it is
    direct, the peer's verified key, how it was reached, and the answer's feedback
    with the server *)
Record Session := MkSession {
  s_secured : bool; s_direct : bool; s_pk : option bytes; s_typ : str; s_feedback : Z; s_server : str;
}.

Inductive Fx (S : Type) :=
| ConnectionPath (path : str)                                        (** shown to the user *)
| RefreshedServers
| ProbedIpv6 (c : HomeConfig S)
| OpenedUdp (c : HomeConfig S) (server : str)
| DialedServer (checked : HomeConfig S) (ready : bool) (name : str) (addr : SocketAddr)  (** as they were when the name was checked *)
| SentPunchRequest (id : str) (token key : str) (udp_port : Z) (force : bool) (v6 : bytes)
| UdpTo (c : HomeConfig S) (peer : SocketAddr) (is_local : bool)
| Ipv6To (c : HomeConfig S) (peer : SocketAddr)
| DialedPeer (c : HomeConfig S) (peer : SocketAddr) (is_local : bool) (timeout : Z)
| DialedManual (endpoint : str)
| SentPeer (m : PeerMsg)
| RequestedRelay (relay : str)
| DialedRelay (addr : SocketAddr).
Arguments ConnectionPath {S} _. Arguments RefreshedServers {S}. Arguments ProbedIpv6 {S} _. Arguments OpenedUdp {S} _ _.
Arguments DialedServer {S} _ _ _ _. Arguments SentPunchRequest {S} _ _ _ _ _ _. Arguments UdpTo {S} _ _ _. Arguments Ipv6To {S} _ _.
Arguments DialedPeer {S} _ _ _ _. Arguments DialedManual {S} _. Arguments SentPeer {S} _. Arguments RequestedRelay {S} _.
Arguments DialedRelay {S} _.

(** ** State *)

Record Ctl (S P : Type) := MkCtl {
  k_cfg : HomeConfig S;
  k_ready : bool;                                    (** [nestlink_auth::ready()] *)
  k_awaits : nat;
  k_sess : LoginConfigHandler * P;
}.
Arguments MkCtl {S P} _ _ _ _. Arguments k_cfg {S P} _. Arguments k_ready {S P} _. Arguments k_awaits {S P} _. Arguments k_sess {S P} _.
#[export] Instance eta_Ctl {S P} : EtaRecord (Ctl S P) := fun s => MkCtl (k_cfg s) (k_ready s) (k_awaits s) (k_sess s).

Class CtlEnv (S : Type) := {
  meanwhile : nat -> HomeConfig S * bool -> HomeConfig S * bool;
  (** [hbb_common] *)
  is_ip_str : str -> bool;
  is_domain_port_str : str -> bool;
  incoming_only : bool;
  CONNECT_TIMEOUT : Z;                               (** milliseconds *)
  RENDEZVOUS_PORT : Z;
  RELAY_PORT : Z;
  PUBLIC_SERVERS : list str;                         (** [RENDEZVOUS_SERVERS] *)
  decode_addr : bytes -> SocketAddr;                 (** [AddrMangle::decode] *)
  local_get : options_t -> str -> str;               (** [LocalConfig::get_option], under the enforced local settings *)
  (** the network *)
  ipc_servers : str * list str;                      (** [ipc::get_rendezvous_server] *)
  configured_server : str;                           (** [Config::get_rendezvous_server] *)
  connect_manual : str -> result string unit;
  (** from here on at a moment *)
  dns : nat -> str -> result string (list SocketAddr);
  connect_server : nat -> SocketAddr -> result string unit;
  send_server : nat -> result string unit;
  server_frames : nat -> list (Frame RzReply);       (** what is read from the server next *)
  nat_type : nat -> NatType;
  udp_opened : str -> bool;                          (** [new_direct_udp_for] *)
  udp_nat_port : nat -> Z;
  ipv6_local : nat -> option bytes;                  (** [get_ipv6_socket] *)
  race : nat -> list Transport -> option nat;        (** the first attempt that connects *)
  first_inner : bool;                                (** which of two attempts at the server answers first *)
  peer_frame : nat -> Frame PeerHello;
  send_peer : nat -> result string unit;
  punch_time : nat -> Z;
  (** cryptography: signatures, sealed boxes, and the parsing of a signed identity *)
  sign_verify : bytes -> bytes -> option bytes;
  id_pk_of : bytes -> option (str * bytes);
  seal : bytes -> bytes -> bytes -> bytes;           (** key, their public key, our secret key *)
  fresh_box : nat -> bytes * bytes;                  (** [box_::gen_keypair] *)
  fresh_key : nat -> bytes;                          (** [secretbox::gen_key] *)
}.

(** ** The connection *)

Section Controller.
Context {S P : Type} `{!OptionKeys, !BuildEnv, !ConfigStore S, !Externals, !PeerStore P, !ClientKeys, !ClientEnv, !CtlEnv S}.

Abbreviation Do A := (M (Ctl S P) (Fx S) A).
Abbreviation Try A := (M (Ctl S P) (Fx S) (result string A)).
Implicit Types s : Ctl S P.

Definition bind_ok {A B} (m : Try A) (k : A -> Try B) : Try B :=
  r ← m; match r with Ok a => k a | Err e => mret (Err e) end.
Notation "'let?' x ':=' m 'in' k" := (bind_ok m (fun x => k)) (at level 10, x binder, k at level 200).
Definition done_ {A} (a : A) : Try A := mret (Ok a).
Definition fail {A} (e : string) : Try A := mret (Err e).
Definition answer {A} (r : result string A) : Try A := mret r.
Definition always {A} (m : Do A) : Try A := a ← m; mret (Ok a).

(** Other tasks run. *)
Definition await : Do unit := modify (fun s =>
  let w := meanwhile (k_awaits s) (k_cfg s, k_ready s) in
  s <| k_cfg := w.1 |> <| k_ready := w.2 |> <| k_awaits ::= Datatypes.S |>).

(** The moment: what the environment answers now *)
Definition moment : Do nat := gets k_awaits.

Definition lch : Do LoginConfigHandler := gets (fun s => (k_sess s).1).
Definition mod_lch (f : LoginConfigHandler -> LoginConfigHandler) : Do unit :=
  modify (fun s => s <| k_sess ::= (fun x => (f x.1, x.2)) |>).
Definition update_direct (d : option bool) : Do unit := mod_lch (fun h => h <| lc_direct := d |>).
Definition update_received (b : bool) : Do unit := mod_lch (fun h => h <| lc_received := b |>).

(** *** Options and servers *)

Definition is_public (url : str) : bool :=
  let u := to_ascii_lowercase url in contains (lit "rustdesk.com/") u || ends_with (lit "rustdesk.com") u.

(** [common::get_local_option] *)
Definition get_local_option (c : HomeConfig S) (key : str) : str :=
  let v := local_get (overwrite_local_settings c) key in
  if (bool_decide (key = OPTION_ENABLE_UDP_PUNCH) || bool_decide (key = OPTION_ENABLE_IPV6_PUNCH))
     && bool_decide (v = []) && negb (is_public configured_server)
  then lit "N" else v.
Definition get_udp_punch_enabled (c : HomeConfig S) : bool :=
  option2bool OPTION_ENABLE_UDP_PUNCH (get_local_option c OPTION_ENABLE_UDP_PUNCH).
Definition get_ipv6_punch_enabled (c : HomeConfig S) : bool :=
  option2bool OPTION_ENABLE_IPV6_PUNCH (get_local_option c OPTION_ENABLE_IPV6_PUNCH).

(** [common::get_rendezvous_server]: the server, the others, and whether the
    server was among them *)
Definition get_rendezvous_server (c : HomeConfig S) : str * list str * bool :=
  let configured := server (active_profile c) in
  let b := (fun x => check_port x RENDEZVOUS_PORT) <$> List.filter (fun x => bool_decide (x = configured)) ipc_servers.2 in
  if bool_decide (configured ∈ b) then (configured, List.filter (fun x => negb (bool_decide (x = configured))) b, true)
  else match reverse b with
       | [] => (configured, [], false)
       | last :: rest => (last, reverse rest, false)
       end.

(** [get_next_nonkeyexchange_msg]: one key exchange may come first. *)
Definition get_next_nonkeyexchange_msg (frames : list (Frame RzReply)) : option RzReply :=
  match frames with
  | Fr_Got (R_KeyExchange _) :: Fr_Got (R_KeyExchange _) :: _ => None
  | Fr_Got (R_KeyExchange _) :: Fr_Got m :: _ => Some m
  | Fr_Got (R_KeyExchange _) :: _ => None
  | Fr_Got m :: _ => Some m
  | _ => None
  end.

(** *** Keys *)

Definition get_pk (b : bytes) : option bytes := if bool_decide (length b = 32%nat) then Some b else None.
Definition get_rs_pk (str_base64 : str) : option bytes := b ← decode64 str_base64; get_pk b.

Definition decode_id_pk (signed key : bytes) : option (str * bytes) :=
  m ← sign_verify signed key; '(i, pk) ← id_pk_of m; pk ← get_pk pk; Some (i, pk).

(** The public key to send, the sealed key, and the key *)
Definition create_symmetric_key_msg (now : nat) (their_pk : bytes) : bytes * bytes * bytes :=
  ((fresh_box now).1, seal (fresh_key now) their_pk (fresh_box now).2, fresh_key now).

(** [resolve_configured_endpoint]: the check, the name service, the pick; with the
    configuration and the login of the check, and the name asked for *)
Definition resolve (name : str) (port : Z) (relay : bool) : Try (HomeConfig S * bool * str * SocketAddr) :=
  s ← gets id;
  let? checked := answer (resolve_check (k_ready s) name port relay (k_cfg s)) in
  _ ← await;
  now ← moment;
  let? addr := answer (resolve_pick checked.2 (dns now checked.1)) in
  done_ (k_cfg s, k_ready s, checked.1, addr).

(** [secure_tcp]: the stream to the signaling server; a server that does not
    start a key exchange is left as it is. *)
Definition secure_tcp (key : str) : Try unit :=
  if ws_enabled then done_ tt
  else match get_rs_pk key with
  | None => fail "Handshake failed: invalid public key from rendezvous server"
  | Some rs_pk =>
    _ ← await;
    now ← moment;
    match head (server_frames now) with
    | Some (Fr_Timeout e) => fail e
    | Some (Fr_Got (R_KeyExchange [k])) =>
      match sign_verify k rs_pk with
      | None => fail "Signature mismatch in key exchange"
      | Some b => match get_pk b with
                  | None => fail "Wrong their public length in key exchange"
                  | Some _ => _ ← await; now ← moment; answer (send_server now)
                  end
      end
    | Some (Fr_Got (R_KeyExchange _)) => fail "Handshake failed: invalid key exchange message"
    | _ => done_ tt
    end
  end.

(** The key exchange with the peer: the peer's verified key, if any, and whether
    the stream is encrypted now *)
Definition secure_connection (peer_id : str) (signed_id_pk : bytes) (key : str) : Try (option bytes * bool) :=
  s ← gets id;
  let rs_pk := get_rs_pk (if bool_decide (key = []) then HomedeskConfig.key (active_profile (k_cfg s)) else key) in
  let sign_pk :=
    if bool_decide (signed_id_pk = []) then None
    else rs ← rs_pk; '(i, pk) ← decode_id_pk signed_id_pk rs; if bool_decide (i = peer_id) then Some pk else None in
  let plain m r := _ ← emit (SentPeer m); _ ← await; now ← moment; let? _ := answer (send_peer now) in done_ r in
  match sign_pk with
  | None => plain Pm_Empty (None, false)
  | Some sign_pk =>
    _ ← await;
    now ← moment;
    match peer_frame now with
    | Fr_Timeout e | Fr_Error e => fail e
    | Fr_Closed => fail "Reset by the peer"
    | Fr_Garbage | Fr_Got P_Other => plain Pm_Empty (Some sign_pk, false)
    | Fr_Got (P_SignedId signed) =>
      match decode_id_pk signed sign_pk with
      | Some (i, their_pk_b) =>
        if bool_decide (i = peer_id) then
          let '(asymmetric, symmetric, _) := create_symmetric_key_msg now their_pk_b in
          plain (Pm_PublicKey asymmetric symmetric) (Some sign_pk, true)
        else plain Pm_Empty (Some sign_pk, false)
      | None => plain (Pm_PublicKey [] []) (Some sign_pk, false)
      end
    end
  end.

(** *** Relays: refused at every entry *)

(** [create_relay]; [relay_allowed] and [resolve_configured_endpoint] for a relay
    refuse. *)
Definition create_relay (relay_server : str) : Try unit :=
  if negb (relay_allowed relay_server) then fail "HomeDesk 仅允许当前模式配置的中继服务器"
  else
    let? resolved := resolve relay_server RELAY_PORT true in
    let '(_, _, _, relay_addr) := resolved in
    _ ← emit (DialedRelay relay_addr);
    _ ← await;
    now ← moment;
    let? _ := answer (connect_server now relay_addr) in
    answer (send_server now).

Definition require_direct : bool := true.

Fixpoint relay_attempts (attempts : list nat) (relay_server rendezvous_server key token : str) : Try bool :=
  match attempts with
  | [] => done_ false
  | _ :: rest =>
    let? resolved := resolve rendezvous_server RENDEZVOUS_PORT false in
    let '(c, ready, asked, addr) := resolved in
    _ ← emit (DialedServer c ready asked addr);
    _ ← await;
    now ← moment;
    let? _ := answer (connect_server now addr) in
    let? _ := (if negb (bool_decide (key = [])) && negb (bool_decide (token = [])) then secure_tcp key else done_ tt) in
    _ ← emit (RequestedRelay relay_server);
    _ ← await;
    now ← moment;
    let? _ := answer (send_server now) in
    match get_next_nonkeyexchange_msg (server_frames now) with
    | Some (R_Relay refuse_reason) => if bool_decide (refuse_reason = ""%string) then done_ true else fail refuse_reason
    | _ => relay_attempts rest relay_server rendezvous_server key token
    end
  end.

Definition request_relay (relay_server rendezvous_server key token : str) : Try unit :=
  if require_direct then fail "远程控制固定 P2P，禁止请求中继"
  else
    let? succeed := relay_attempts [1; 2; 3]%nat relay_server rendezvous_server key token in
    if succeed then create_relay relay_server else fail "Timeout".

(** *** The peer *)

Definition MIN_TIMEOUT : Z := 1000.

(** How long to wait for the peer, in milliseconds *)
Definition connect_timeout (is_local : bool) (peer_nat my_nat : NatType) (relay_server : str) (direct_failures punch_time_used : Z) : Z :=
  if is_local || bool_decide (peer_nat = SYMMETRIC) then MIN_TIMEOUT
  else
    let t :=
      if bool_decide (relay_server = []) then CONNECT_TIMEOUT
      else
        let t :=
          if bool_decide (peer_nat = ASYMMETRIC) then
            match my_nat with
            | ASYMMETRIC => if 0 <? direct_failures then punch_time_used * 6 else CONNECT_TIMEOUT
            | SYMMETRIC => MIN_TIMEOUT
            | UNKNOWN_NAT => 0
            end
          else 0 in
        if t =? 0 then punch_time_used * (if 0 <? direct_failures then 3 else 6) else t in
    Z.max MIN_TIMEOUT t.

(** The answer of the signaling server that was accepted *)
Record Punched := MkPunched {
  pu_addr : SocketAddr; pu_local : bool; pu_nat : NatType; pu_pk : bytes; pu_feedback : Z; pu_udp : bool; pu_v6 : bool }.

(** [connect]; [relay_server] is empty, since the server's hint is dropped. *)
Definition connect (pu : Punched) (my_nat : NatType) (peer_id relay_server key : str) : Try (bool * option bytes * str) :=
  s ← gets id;
  used ← moment;
  let direct_failures := pc_direct_failures (lc_config (k_sess s).1) in
  if negb (peer_endpoint_allowed (pu_addr pu) (active_mode (k_cfg s)) (pu_local pu) (family_cidr (active_profile (k_cfg s)))) then
    fail "网络策略拒绝对端候选地址"
  else
    my_nat ← (if negb (pu_local pu || bool_decide (pu_nat pu = SYMMETRIC)) && negb (bool_decide (relay_server = []))
                 && bool_decide (pu_nat pu = ASYMMETRIC) && bool_decide (my_nat = UNKNOWN_NAT)
              then (_ ← await; now ← moment; mret (nat_type now)) else mret my_nat);
    let timeout := connect_timeout (pu_local pu) (pu_nat pu) my_nat relay_server direct_failures (punch_time used) in
    let attempts := Tcp :: (if pu_udp pu then [Udp] else []) ++ (if pu_v6 pu then [Ipv6] else []) in
    _ ← emit (DialedPeer (k_cfg s) (pu_addr pu) (pu_local pu) timeout);
    _ ← await;
    now ← moment;
    let typ := i ← race now attempts; attempts !! i in
    h ← lch;
    match typ with
    | Some typ =>
      if lc_force_relay h then
        _ ← update_direct (Some false); fail "P2P 直连失败，请检查双方 NAT 与防火墙；远控不会使用中继"
      else
        r ← secure_connection peer_id (pu_pk pu) key;
        match r with
        | Err e => _ ← update_direct (Some true); fail e
        | Ok (pk, secured) =>
          s ← gets id;
          if negb (secure_session_allowed (active_mode (k_cfg s)) secured (bool_decide (is_Some pk))) then
            fail "远控拒绝未完成身份验证的加密会话"
          else
            _ ← emit (ConnectionPath (classify true (Some (pu_addr pu)) (pu_local pu) (family_cidr (active_profile (k_cfg s))) (transport_name typ)));
            done_ (secured, pk, transport_name typ)
        end
    | None => _ ← update_direct (Some false); fail "P2P 直连失败，请检查双方 NAT 与防火墙；远控不会使用中继"
    end.

(** *** The signaling server *)

Definition addr_port (a : SocketAddr) : Z := match a with V4 _ p => p | V6 _ p => p end.

Definition on_punch_response (ph : PunchHoleResponse) (udp v6 : bool) : Try Punched :=
  if bool_decide (pr_socket_addr ph = []) then
    if negb (bool_decide (pr_other_failure ph = ""%string)) then fail (pr_other_failure ph)
    else fail (match pr_failure ph with
      | ID_NOT_EXIST => "ID does not exist"
      | OFFLINE => "Remote desktop is offline"
      | LICENSE_MISMATCH => "Key mismatch"
      | LICENSE_OVERUSE => "Key overuse"
      | OTHER_FAILURE => "other punch hole failure"
      end)
  else
    s ← gets id;
    let addr := decode_addr (pr_socket_addr ph) in
    if negb (peer_endpoint_allowed addr (active_mode (k_cfg s)) (pr_is_local ph) (family_cidr (active_profile (k_cfg s)))) then
      fail "网络策略拒绝信令服务器返回的对端地址"
    else
      let udp := udp && pr_is_udp ph in
      _ ← when udp (_ ← emit (UdpTo (k_cfg s) addr (pr_is_local ph)); await);
      let addr_v6 := decode_addr (pr_socket_addr_v6 ph) in
      let v6 := negb (bool_decide (pr_socket_addr_v6 ph = [])) && v6 && (0 <? addr_port addr_v6) in
      _ ← when v6 (_ ← emit (Ipv6To (k_cfg s) addr_v6); await);
      done_ (MkPunched addr (pr_is_local ph) (pr_nat_type ph) (pr_pk ph) (pr_feedback ph) udp v6).

Fixpoint punch_loop (attempts : list nat) (request : Fx S) (udp v6 : bool) : Try (option Punched) :=
  match attempts with
  | [] => done_ None
  | _ :: rest =>
    _ ← emit request;
    _ ← await;
    now ← moment;
    let? _ := answer (send_server now) in
    match get_next_nonkeyexchange_msg (server_frames now) with
    | Some (R_Punch ph) => let? p := on_punch_response ph udp v6 in done_ (Some p)
    | Some (R_Relay _) => fail "P2P 直连失败：信令返回了中继请求，当前策略禁止中继"
    | _ => punch_loop rest request udp v6
    end
  end.

(** Dialing a server by its name; nothing is asked again after the name service
    has answered. *)
Definition dial_server (name : str) : Try (result string unit) :=
  let? resolved := resolve name RENDEZVOUS_PORT false in
  let '(c, ready, asked, addr) := resolved in
  _ ← emit (DialedServer c ready asked addr);
  _ ← await;
  now ← moment;
  done_ (connect_server now addr).

(** The other servers, until one answers; the last failure stays. *)
Fixpoint try_servers (l : list str) (last : result string unit) (name : str) : Do (result string unit * str) :=
  match l with
  | [] => mret (last, name)
  | sv :: rest =>
    let sv := check_port sv RENDEZVOUS_PORT in
    r ← dial_server sv;
    match r with
    | Err _ => try_servers rest last name
    | Ok (Ok _) => mret (Ok tt, sv)
    | Ok (Err e) => try_servers rest (Err e) name
    end
  end.

(** An IPv6 socket, if punching is enabled *)
Definition local_ipv6 : Do (option bytes) :=
  s ← gets id;
  if get_ipv6_punch_enabled (k_cfg s) then (_ ← await; now ← moment; mret (ipv6_local now)) else mret None.

Definition _start_inner (peer key token : str) (udp : bool) (rendezvous_server : str) (servers : list str) (contained : bool) : Try Session :=
  let? socket := dial_server rendezvous_server in
  '(socket, rendezvous_server) ←
    (match socket, servers with
     | Err _, _ :: _ =>
       x ← try_servers servers socket rendezvous_server;
       _ ← emit RefreshedServers;
       mret x
     | _, _ =>
       _ ← when (negb contained) (emit RefreshedServers);
       mret (socket, rendezvous_server)
     end);
  let? _ := answer socket in
  _ ← await;                                                      (* the NAT type *)
  now ← moment;
  let my_nat := nat_type now in
  let? _ := (if negb (bool_decide (key = [])) && negb (bool_decide (token = [])) then
               r ← secure_tcp key;
               mret (match r with Ok u => Ok u | Err e => Err ("Failed to secure tcp: " +:+ e)%string end)
             else done_ tt) in
  _ ← await;                                                      (* half a round trip for the UDP test *)
  ipv6 ← local_ipv6;
  s ← gets id;
  now ← moment;
  let port := if udp then udp_nat_port now else 0 in
  let? punched := punch_loop [1; 2; 3]%nat
      (SentPunchRequest peer token key port (lc_force_relay (k_sess s).1) (default [] ipv6)) udp (bool_decide (is_Some ipv6)) in
  match punched with
  | None => fail "Failed to connect via rendezvous server"
  | Some pu =>
    if addr_port (pu_addr pu) =? 0 then fail "Failed to connect via rendezvous server"
    else
      let? r := connect pu my_nat peer [] key in
      let '(secured, pk, typ) := r in
      done_ (MkSession secured true pk typ (pu_feedback pu) rendezvous_server)
  end.

(** *** Starting *)

Definition requires_secure_session : bool := true.
Definition pure_lan_enabled : bool := false.

(** A device address typed in by hand: only devices known by their id can be
    authenticated, so it is refused. *)
Definition start_manual (domain : bool) (endpoint host : str) : Try Session :=
  s ← gets id;
  if requires_secure_session then
    fail (if domain then "自建公网模式请使用设备 ID；手输域名入口不能证明端到端加密" else "请使用设备 ID；所有远控会话必须验证身份并端到端加密")
  else if pure_lan_enabled && negb (address_in_whitelist host (cfg_get_option (k_cfg s) OPTION_WHITELIST)) then
    fail (if domain then "纯内网模式请使用家庭设备 ID 或内网 IP" else "纯内网模式仅允许家庭白名单内的地址，请检查设备 IP")
  else
    _ ← emit (DialedManual endpoint);
    _ ← await;
    let? _ := answer (connect_manual endpoint) in
    done_ (MkSession false true None (lit "TCP") 0 []).

(** The peer on its server, with the key and the token to use there *)
Definition choose_server (peer key token : str) s : result string (str * str * str * str) :=
  let profile := active_profile (k_cfg s) in
  match lc_other_server (k_sess s).1 with
  | Some (a, b, k) =>
    if negb (bool_decide (b = server profile)) then Err "HomeDesk 仅允许连接当前模式配置的自建服务器"%string
    else if negb (configured_key_allowed k (HomedeskConfig.key profile)) then Err "连接参数中的服务器公钥与当前原子配置组不一致"%string
    else Ok (a, b, HomedeskConfig.key profile, [])
  | None =>
    if negb (configured_key_allowed key (HomedeskConfig.key profile)) then Err "连接参数中的服务器公钥与当前原子配置组不一致"%string
    else Ok (peer, [], HomedeskConfig.key profile, token)
  end.

Definition named_server (other_server : str) : Try (str * list str * bool) :=
  if bool_decide (other_server = []) then
    _ ← await;
    s ← gets id;
    done_ (get_rendezvous_server (k_cfg s))
  else
    s ← gets id;
    if negb (bool_decide (other_server = server (active_profile (k_cfg s)))) then fail "HomeDesk 仅允许连接当前模式配置的自建服务器"
    else if bool_decide (other_server = PUBLIC_SERVER) then
      done_ (check_port (default [] (head PUBLIC_SERVERS)) RENDEZVOUS_PORT, tail PUBLIC_SERVERS, true)
    else done_ (check_port other_server RENDEZVOUS_PORT, [], true).

(** The first of the attempts to answer with a session; [select_ok] *)
Definition select_ok {A} (a b : result string A) : result string A :=
  match a, b with
  | Ok x, Ok y => Ok (if first_inner then x else y)
  | Ok x, Err _ => Ok x
  | Err _, r => r
  end.

(** A UDP socket for the NAT test, if punching is enabled *)
Definition open_udp (rendezvous_server : str) : Do bool :=
  s ← gets id;
  if get_udp_punch_enabled (k_cfg s) && negb (lc_force_relay (k_sess s).1) then
    _ ← emit (OpenedUdp (k_cfg s) rendezvous_server);
    _ ← await;
    mret (udp_opened rendezvous_server)
  else mret false.

(** With a UDP socket a second attempt without it runs beside the first.  The two
    are written one after the other: they share nothing that either decides by but
    the configuration, which [meanwhile] changes arbitrarily at every await, and
    each gets the answers of its own moments.  The loser runs to its end here; in
    the source it is cancelled, so that it does a part of this. *)
Definition start_both (udp : bool) (peer key token rendezvous_server : str) (others : list str) (contained : bool) : Try Session :=
  if udp then
    r ← _start_inner peer key token true rendezvous_server others contained;
    r' ← _start_inner peer key token false rendezvous_server others contained;
    mret (select_ok r r')
  else _start_inner peer key token false rendezvous_server others contained.

Definition _start (peer key token : str) : Try (Session * bool) :=
  s ← gets id;
  let h := (k_sess s).1 in
  if negb (remote_request_allowed (lc_force_relay h) ws_enabled proxy_enabled) then fail "远程控制固定 P2P；请关闭强制中继、代理或 WebSocket"
  else if negb (remote_profile_ready (k_ready s) (k_cfg s)) then fail "请先配置自建 hbbs 地址、公钥和家庭 CIDR"
  else if incoming_only then fail "Incoming only mode"
  else if is_ip_str peer then let? x := start_manual false (check_port peer (RELAY_PORT + 1)) peer in done_ (x, false)
  else if is_domain_port_str peer then
    let? x := start_manual true peer (match rsplit_once 58 peer with Some (host, _) => host | None => [] end) in done_ (x, false)
  else
    let? chosen := answer (choose_server peer key token s) in
    let '(peer, other_server, key, token) := chosen in
    let? servers := named_server other_server in
    let '(rendezvous_server, others, contained) := servers in
    s ← gets id;
    _ ← when (get_ipv6_punch_enabled (k_cfg s)) (emit (ProbedIpv6 (k_cfg s)));
    _ ← await;
    udp ← open_udp rendezvous_server;
    let? x := start_both udp peer key token rendezvous_server others contained in
    done_ (x, true).

Definition starts_with_failed (e : string) : bool := String.prefix "Failed" e.

(** [Client::start] from the answer of [_start] on: the peer's key must be the one
    the permit names, and the stream direct and encrypted. *)
Definition check_started (encode64 : bytes -> str) (peer : str) (r : result string (Session * bool)) : Try Session :=
  match r with
  | Err e => fail (if starts_with_failed e then e +:+ ": Please try later" else e)%string
  | Ok (x, update_failures) =>
    s ← gets id;
    let h := (k_sess s).1 in
    let expected := match lc_nestlink_permit h with Some p => host_key (p_claims p) | None => [] end in
    if negb (bool_decide (encode64 <$> s_pk x = Some expected)) then fail "P2P 对方身份与服务签发的远控许可不一致"
    else if negb (direct_session_allowed (s_direct x) (s_secured x) (bool_decide (is_Some (s_pk x)))) then
      fail "远控仅允许已认证、端到端加密的 P2P 直连会话"
    else
      _ ← when (s_direct x && (is_ip_str peer || is_domain_port_str peer))
            (emit (ConnectionPath (classify_manual peer (family_cidr (active_profile (k_cfg s))) (s_typ x))));
      let failures := pc_direct_failures (lc_config h) in
      _ ← when (update_failures && negb (lc_force_relay h) && negb (eqb (failures =? 0) (s_direct x)))
            (modify (fun s => s <| k_sess ::= set_direct_failure (if s_direct x then 0 else 1) |>));
      done_ x
  end.

(** [Client::start] from the permit on *)
Definition start_prepared (encode64 : bytes -> str) (permit : PreparedPermit) (peer key token : str) : Try Session :=
  _ ← await;
  _ ← mod_lch (fun h => h <| lc_nestlink_permit := Some permit |> <| lc_direct := None |>);
  _ ← emit (ConnectionPath (lit "unknown"));
  _ ← update_received false;
  r ← _start peer key token;
  check_started encode64 peer r.

(** [Client::start]; [ensured] and [prepared] are the results of
    [nestlink_auth::ensure_current] and [nestlink_auth::prepare], [encode64] is
    base64. *)
Definition start (encode64 : bytes -> str) (ensured : result string unit) (prepared : result string PreparedPermit) (peer key token : str)
    : Try Session :=
  let? _ := answer ensured in
  _ ← await;
  let? permit := answer prepared in
  start_prepared encode64 permit peer key token.

(** ** The login *)

End Controller.

Inductive LoginFx :=
| MsgBox (msgtype title text link : string)
| SentLogin (lr : LoginRequest)
| SentSwitchLogin (uuid : bytes) (lr : LoginRequest).

(** An address book: the personal one first has the passwords of its peers *)
Record AbEntry := MkAb { ab_personal : bool; ab_peers : list (str * str) (* id, hash *) }.

Class LoginUi := {
  uuid_of : str -> option bytes;
  consume_switch_uuid : str -> bytes -> bool;   (** [consume_local_switch_sides_uuid]: the service knows the request *)
  access_token : str;                           (** of the interface and of the stored address books *)
  ab_access_token : str;
  ab_entries : list AbEntry;
  LINK_HEADLESS_LINUX_SUPPORT : string;
}.

Section Login.
Context {P : Type} `{!PeerStore P, !ClientKeys, !ClientEnv, !LoginUi}.
Abbreviation Sess := (LoginConfigHandler * P)%type.
Implicit Types x : Sess.

Definition on_handler (f : LoginConfigHandler -> LoginConfigHandler) x : Sess := (f x.1, x.2).

Definition send_login (public_server : bool) (os_username os_password : str) (password : bytes) x : list LoginFx * Sess :=
  let '(lr, x) := create_login_msg public_server os_username os_password password x in ([SentLogin lr], x).

Definition send_switch_login_request (public_server : bool) (uuid : bytes) x : list LoginFx * Sess :=
  let '(lr, x) := create_login_msg public_server [] [] [] x in ([SentSwitchLogin uuid lr], x).

(** The password stored for the peer in the personal address book *)
Definition personal_ab_password (i : str) : option bytes :=
  if negb (bool_decide (access_token = [])) && bool_decide (access_token = ab_access_token) then
    ab ← List.find ab_personal ab_entries;
    '(_, h) ← List.find (fun p => bool_decide (p.1 = i)) (ab_peers ab);
    p ← b64_decode h;
    if bool_decide (p = []) then None else Some p
  else None.

(** Which password to use, in the order of the source, and where it came from *)
Definition choose_password (preset : str) (salt : str) (h : LoginConfigHandler) : bytes * PasswordSource :=
  let empty (p : bytes) := bool_decide (p = []) in
  let '(p, src) := (lc_password h, lc_password_source h) in
  let '(p, src) := if empty p && negb (bool_decide (preset = [])) then (hash_password (str_bytes preset) salt, Undefined) else (p, src) in
  let '(p, src) := match lc_shared_password h with
    | Some sp => if bool_decide (sp = []) then (p, src) else (hash_password (str_bytes sp) salt, SharedAb sp)
    | None => (p, src)
    end in
  let '(p, src) := if empty p then
      let p := pc_password (lc_config h) in (p, if empty p then src else Undefined)
    else (p, src) in
  let '(p, src) := if empty p then
      match personal_ab_password (lc_id h) with Some p => (p, PersonalAb p) | None => (p, src) end
    else (p, src) in
  if empty p then
    let d := builtin_option OPTION_DEFAULT_CONNECT_PASSWORD in
    if bool_decide (d = []) then (p, src) else (hash_password (str_bytes d) salt, SharedAb d)
  else (p, src).

(** [handle_hash] from the choice of the password on *)
Definition login_with_hash (public_server : bool) (password_preset : str) (hash : Hash) x : list LoginFx * Sess :=
  let '(password, src) := choose_password password_preset (h_salt hash) x.1 in
  let x := on_handler (fun h => h <| lc_shared_password := None |> <| lc_password_source := src |> <| lc_password := password |>) x in
  let is_terminal := bool_decide (lc_conn_type x.1 = TERMINAL) in
  if is_terminal && lc_is_terminal_admin x.1 then
    ([MsgBox (if bool_decide (password = []) then "terminal-admin-login-password" else "terminal-admin-login") "" "" ""], x)
  else
    let box := if bool_decide (password = []) then [MsgBox "input-password" "Password Required" "" ""] else [] in
    let proof := if bool_decide (password = []) then [] else sha256 (password ++ str_bytes (h_challenge hash)) in
    let '(os_username, os_password) :=
      if is_terminal then ([], []) else (get_option x.1 (lit "os-username"), get_option x.1 (lit "os-password")) in
    let '(fx, x) := send_login public_server os_username os_password proof x in
    (box ++ fx, on_handler (fun h => h <| lc_hash := hash |>) x).

Definition handle_hash (public_server : bool) (password_preset : str) (hash : Hash) x : list LoginFx * Sess :=
  let uuid := u ← lc_switch_uuid x.1; uuid_of u in
  let x := on_handler (fun h => h <| lc_hash := hash |> <| lc_switch_uuid := None |>) x in
  match uuid with
  | Some uuid =>
    if consume_switch_uuid (lc_id x.1) uuid then
      let '(fx, x) := send_switch_login_request public_server uuid (on_handler allow_switch_back_once x) in
      (fx, on_handler (fun h => h <| lc_password_source := Undefined |>) x)
    else login_with_hash public_server password_preset hash x
  | None => login_with_hash public_server password_preset hash x
  end.

Definition handle_login_from_ui (public_server : bool) (os_username os_password password : str) (remember : bool) x : list LoginFx * Sess :=
  let h := x.1 in
  let '(p, h) :=
    if bool_decide (password = []) then
      if bool_decide (lc_password h = []) then
        let p := pc_password (lc_config h) in
        (p, if bool_decide (p = []) then h else h <| lc_password_source := Undefined |>)
      else (lc_password h, h)
    else (hash_password (str_bytes password) (h_salt (lc_hash h)), h <| lc_password_source := Undefined |> <| lc_remember := remember |>) in
  let h := h <| lc_password := p |> in
  send_login public_server os_username os_password (sha256 (p ++ str_bytes (h_challenge (lc_hash h)))) (h, x.2).

(** *** Login errors *)

Record LoginErrorMsgBox := MkBox { b_msgtype : string; b_title : string; b_text : string; b_link : string; b_try_again : bool }.

Definition LOGIN_ERROR_MAP : list (string * LoginErrorMsgBox) :=
  [("Wayland login screen is not supported", MkBox "error" "Login Error" "Login screen using Wayland is not supported"
      "https://rustdesk.com/docs/en/manual/linux/#login-screen" true);
   ("Desktop session not ready", MkBox "session-login" "" "" "" true);
   ("Desktop xsession failed", MkBox "session-re-login" "" "" "" true);
   ("Desktop session another user login", MkBox "info-nocancel" "another_user_login_title_tip" "another_user_login_text_tip" "" false);
   ("Desktop xorg not found", MkBox "info-nocancel" "xorg_not_found_title_tip" "xorg_not_found_text_tip" LINK_HEADLESS_LINUX_SUPPORT true);
   ("Desktop none", MkBox "info-nocancel" "no_desktop_title_tip" "no_desktop_text_tip" LINK_HEADLESS_LINUX_SUPPORT true);
   ("Desktop session not ready, password empty", MkBox "session-login-password" "" "" "" true);
   ("Desktop session not ready, password wrong", MkBox "session-login-re-password" "" "" "" true);
   ("No Password Access", MkBox "wait-remote-accept-nook" "Prompt"
      "Please wait for the remote side to accept your session request..." "" true)]%string.

(** [str::contains] on the error's text *)
Fixpoint string_contains (p s : string) : bool :=
  String.prefix p s || match s with EmptyString => false | String _ r => string_contains p r end.

(** Whether the user may try again *)
Definition handle_login_error (err : string) x : bool * list LoginFx * Sess :=
  let forget := on_handler (fun h => h <| lc_password := [] |>) x in
  if bool_decide (err = "Empty Password"%string) then (true, [MsgBox "input-password" "Password Required" "" ""], forget)
  else if bool_decide (err = "Wrong Password"%string) then
    (true, [MsgBox "re-input-password" err "Do you want to enter again?" ""], forget)
  else if bool_decide (err = "Wrong 2FA Code"%string) || bool_decide (err = "2FA Required"%string) then
    (true, [MsgBox "input-2fa" err "" ""],
     if bool_decide (get_option x.1 (lit "trust-this-device") = lit "Y") then set_option (lit "trust-this-device") [] x else x)
  else match List.find (fun e => bool_decide (e.1 = err)) LOGIN_ERROR_MAP with
  | Some (_, b) => (b_try_again b, [MsgBox (b_msgtype b) (b_title b) (b_text b) (b_link b)], x)
  | None =>
    (false, [MsgBox "error" "Login Error" err
       (if string_contains "x11 expected" err then "https://rustdesk.com/docs/en/manual/linux/#x11-required" else "")], x)
  end%string.

End Login.

(** ** What connecting may do *)

Section Policy.
Context {S P : Type} `{!OptionKeys, !BuildEnv, !ConfigStore S, !Externals, !PeerStore P, !ClientKeys, !ClientEnv, !CtlEnv S}.
Implicit Types s : Ctl S P.

(** The signaling server dialed is an address the name service gave for the
    configured server, IPv4 and no special address, under a live login and a
    confirmed profile at the moment its name was checked; a peer is dialed over TCP
    and UDP at an address the profile of that moment admits (an IPv6 candidate is
    not checked); no relay is asked for or dialed, and no address typed in by hand. *)
Definition policy (e : Fx S) : Prop :=
  match e with
  | DialedServer c ready name addr =>
    ready = true /\ profile_confirmed c = true /\ is_ok (validate_profile (active_profile c)) = true /\
    eq_ignore_ascii_case name (check_port (server (active_profile c)) RENDEZVOUS_PORT) = true /\
    (exists now answers, dns now name = Ok answers /\ addr ∈ answers) /\
    exists ip port, addr = V4 ip port /\ is_valid_server (fmt_socket addr) (mode (active_profile c)) = true
  | DialedPeer c peer is_local _ | UdpTo c peer is_local =>
    peer_endpoint_allowed peer (active_mode c) is_local (family_cidr (active_profile c)) = true
  | DialedManual _ | RequestedRelay _ | DialedRelay _ => False
  | _ => True
  end.

(** The permit of the session stays. *)
Definition same_permit s s' : Prop := lc_nestlink_permit (k_sess s').1 = lc_nestlink_permit (k_sess s).1.
#[local] Instance same_permit_preorder : PreOrder same_permit.
Proof. split; [done|]. unfold same_permit. intros a b d Ha Hb. congruence. Qed.

Lemma obeys_bind_ok {A B} (R : Ctl S P -> Ctl S P -> Prop) (F : Fx S -> Prop) `{!PreOrder R} s (m : M (Ctl S P) (Fx S) (result string A)) (k : A -> M (Ctl S P) (Fx S) (result string B)) :
  obeys R F s m -> (forall a s', R s s' -> obeys R F s' (k a)) -> obeys R F s (bind_ok m k).
Proof.
  intros Hm Hk. apply (obeys_seq _ _ m); [done|]. intros s' [a|e] Hs; [auto|]. apply obeys_ret. exact _.
Qed.

Lemma obeys_answer {A B} (R : Ctl S P -> Ctl S P -> Prop) (F : Fx S -> Prop) `{!PreOrder R} s (r : result string A) (k : A -> M (Ctl S P) (Fx S) (result string B)) :
  (forall a, r = Ok a -> obeys R F s (k a)) -> obeys R F s (bind_ok (answer r) k).
Proof.
  intros Hk. apply obeys_bind; [exact _|apply obeys_ret; exact _|]. intros _. simpl. destruct r as [a|e]; [by apply Hk|]. apply obeys_ret. exact _.
Qed.

End Policy.

Ltac walk_ctl :=
  repeat match goal with
  | |- obeys _ _ _ (fail _) => apply obeys_ret; exact _
  | |- obeys _ _ _ (done_ _) => apply obeys_ret; exact _
  | |- obeys _ _ _ (answer _) => apply obeys_ret; exact _
  | |- obeys _ _ _ (bind_ok (answer _) _) => apply obeys_answer; [exact _|intros ? ?]
  | |- obeys _ _ _ (bind_ok _ _) => apply obeys_bind_ok; [exact _| |intros ? ? ?]
  | H : forall s, obeys _ _ s await |- obeys _ _ _ await => apply H
  | |- obeys _ _ _ await => apply obeys_modify; try done
  | |- obeys _ _ _ (modify _) => apply obeys_modify; try done
  | |- obeys _ _ _ (emit _) => apply obeys_emit; [exact _|]
  | |- obeys _ _ _ (update_direct _) => apply obeys_modify; try done
  | |- obeys _ _ _ lch => apply obeys_gets; exact _
  | |- obeys _ _ _ moment => apply obeys_gets; exact _
  | |- _ => obey_step
  end.

Section Obeys.
Context {S P : Type} `{!OptionKeys, !BuildEnv, !ConfigStore S, !Externals, !PeerStore P, !ClientKeys, !ClientEnv, !CtlEnv S}.
Implicit Types s : Ctl S P.
#[local] Existing Instance same_permit_preorder.
Abbreviation good := (obeys (S := Ctl S P) same_permit policy).

#[local] Arguments resolve_check : simpl never.
#[local] Arguments resolve_pick : simpl never.
Lemma resolve_found name s c ready asked addr :
  res (resolve name RENDEZVOUS_PORT false) s = Ok (c, ready, asked, addr) -> policy (DialedServer c ready asked addr).
Proof.
  intros Hx. assert (Er : exists m now, resolve_check (k_ready s) name RENDEZVOUS_PORT false (k_cfg s) = Ok (asked, m) /\
    resolve_pick m (dns now asked) = Ok addr /\ c = k_cfg s /\ ready = k_ready s).
  { unfold resolve, bind_ok, answer, await, modify, moment, gets, done_, res, mbind, M_bind, mret, M_ret in Hx. simpl in Hx. unfold id in Hx.
    destruct (resolve_check (k_ready s) name RENDEZVOUS_PORT false (k_cfg s)) as [[candidate m]|e]; simpl in Hx; [|discriminate Hx].
    match type of Hx with context [dns ?n candidate] => destruct (resolve_pick m (dns n candidate)) as [a|e] eqn:Ep end;
      simpl in Hx; [|discriminate Hx]. injection Hx as <- <- <- <-. exists m; eexists; split_and!; done. }
  destruct Er as (m & now & Hc & Hp & -> & ->). apply resolve_check_ok in Hc as (_ & Hr & -> & -> & Heq).
  apply ready_profile in Hr as (Ha & Hcf & Hv). apply resolve_pick_ok in Hp as (l & Hl & Hin & Hv4).
  split; [done|]. split; [done|]. split; [by rewrite Hv|]. split; [done|]. split; [eauto|exact Hv4].
Qed.

(** Whatever follows a resolution may rely on what it found. *)
Lemma resolve_then {A} (R : Ctl S P -> Ctl S P -> Prop) (F : Fx S -> Prop) `{!PreOrder R} name
    (k : HomeConfig S * bool * str * SocketAddr -> M (Ctl S P) (Fx S) (result string A)) s :
  (forall s, obeys R F s await) ->
  (forall c ready asked addr s', policy (DialedServer c ready asked addr) -> obeys R F s' (k (c, ready, asked, addr))) ->
  obeys R F s (bind_ok (resolve name RENDEZVOUS_PORT false) k).
Proof.
  intros Hw Hk. unfold bind_ok. apply obeys_bind; [exact _|unfold resolve; walk_ctl|]. intros _.
  destruct (res (resolve _ _ _) s) as [[[[c ready] asked] addr]|e] eqn:Er; [|apply obeys_ret; exact _].
  apply Hk. by eapply resolve_found.
Qed.

Lemma secure_tcp_good key s : good s (secure_tcp key).
Proof. unfold secure_tcp. walk_ctl. Qed.

Lemma secure_connection_good i pk key s : good s (secure_connection i pk key).
Proof. unfold secure_connection. walk_ctl; done. Qed.

Lemma connect_good pu my_nat i relay key s : good s (connect pu my_nat i relay key).
Proof.
  unfold connect. walk_ctl; try apply secure_connection_good; try done. simpl.
  match goal with H : negb _ = false |- _ => by apply negb_false_iff in H end.
Qed.

Lemma on_punch_good ph udp v6 s : good s (on_punch_response ph udp v6).
Proof.
  unfold on_punch_response. walk_ctl; try done.
  simpl. match goal with H : negb (peer_endpoint_allowed _ _ _ _) = false |- _ => by apply negb_false_iff in H end.
Qed.

Lemma punch_loop_good l request udp v6 : policy request -> forall s, good s (punch_loop l request udp v6).
Proof.
  intros Hr. induction l as [|i l IH]; intros s; simpl; walk_ctl; try done; try apply IH; apply on_punch_good.
Qed.

Lemma dial_server_good name s : good s (dial_server name).
Proof.
  unfold dial_server. apply resolve_then; [exact _|intros s'; walk_ctl|]. intros c ready asked addr s' Hp. walk_ctl. exact Hp.
Qed.

Lemma try_servers_good l : forall last name s, good s (try_servers l last name).
Proof.
  induction l as [|sv l IH]; intros last name s; simpl; walk_ctl; try apply IH; apply dial_server_good.
Qed.

Lemma start_inner_good peer key token udp rs servers contained s : good s (_start_inner peer key token udp rs servers contained).
Proof.
  unfold _start_inner, local_ipv6. walk_ctl; try done; first [apply dial_server_good|apply try_servers_good|apply secure_tcp_good
    |by apply punch_loop_good|apply connect_good].
Qed.

(** Every entry of a relay refuses before anything is sent. *)
Lemma request_relay_refuses relay rs key token s : exists e, request_relay relay rs key token s = (Err e, s, []).
Proof. by eexists. Qed.
Lemma create_relay_refuses relay s : exists e, create_relay relay s = (Err e, s, []).
Proof. by eexists. Qed.

Lemma start_manual_refuses domain endpoint host s : exists e, start_manual domain endpoint host s = (Err e, s, []).
Proof. by eexists. Qed.
Lemma start_manual_good domain endpoint host s : good s (start_manual domain endpoint host).
Proof. destruct (start_manual_refuses domain endpoint host s) as [e He]. unfold obeys, st, fx. rewrite He. split; [done|constructor]. Qed.

Lemma start__good peer key token s : good s (_start peer key token).
Proof.
  unfold _start, named_server, open_udp, start_both. walk_ctl; try done; first [apply start_manual_good|apply start_inner_good].
Qed.

End Obeys.

(** ** Who the session key is shared with

    [certified f m]: when [m] ends well with an encrypted stream ([f] says so and
    names the verified key), the key of the stream was sent sealed for a box key
    that the verified key had signed. *)
Section Certified.
Context {S P : Type} `{!OptionKeys, !BuildEnv, !ConfigStore S, !Externals, !PeerStore P, !ClientKeys, !ClientEnv, !CtlEnv S}.
Implicit Types s : Ctl S P.
Abbreviation Try A := (M (Ctl S P) (Fx S) (result string A)).

Definition keyed (pk : option bytes) (e : Fx S) : Prop := exists now k i signed their,
  pk = Some k /\ peer_frame now = Fr_Got (P_SignedId signed) /\ decode_id_pk signed k = Some (i, their) /\
  e = SentPeer (Pm_PublicKey (fresh_box now).1 (seal (fresh_key now) their (fresh_box now).2)).

Definition certified {A} (f : A -> bool * option bytes) (m : Try A) : Prop := forall s a,
  res m s = Ok a -> (f a).1 = true -> exists e, e ∈ fx m s /\ keyed (f a).2 e.

Lemma cert_fail {A} (f : A -> bool * option bytes) e : certified f (fail e).
Proof. intros s a Hr. discriminate Hr. Qed.

Lemma cert_bind {A B} (f : B -> bool * option bytes) (m : M (Ctl S P) (Fx S) A) (k : A -> Try B) :
  (forall x, certified f (k x)) -> certified f (m ≫= k).
Proof.
  intros Hk s b Hr Hf. rewrite res_bind in Hr. rewrite fx_bind. destruct (Hk _ _ _ Hr Hf) as (e&He&Hq).
  exists e. split; [|done]. apply elem_of_app. by right.
Qed.

Lemma cert_bind_ok {A B} (f : B -> bool * option bytes) (m : Try A) (k : A -> Try B) :
  (forall x, certified f (k x)) -> certified f (bind_ok m k).
Proof. intros Hk. apply cert_bind. intros [a|e]; [apply Hk|apply cert_fail]. Qed.

(** The stream comes from the first part; the rest only passes it on. *)
Lemma cert_first {A B} (g : A -> bool * option bytes) (f : B -> bool * option bytes) (m : Try A) (k : result string A -> Try B) :
  certified g m -> (forall r s b, res (k r) s = Ok b -> exists a, r = Ok a /\ f b = g a) -> certified f (m ≫= k).
Proof.
  intros Hm Hk s b. rewrite res_bind, fx_bind. intros Hb Hf. destruct (Hk _ _ _ Hb) as (a&E&Hg). rewrite Hg in *.
  destruct (Hm _ _ E Hf) as (x&Hx&Hq). exists x. split; [|done]. apply elem_of_app. by left.
Qed.

Lemma secure_connection_certified i pk key : certified (fun r => (r.2, r.1)) (secure_connection i pk key).
Proof.
  assert (Hplain : forall m r, (r.2 = true -> keyed r.1 (SentPeer m)) ->
    certified (fun r => (r.2, r.1)) (_ ← emit (SentPeer m); _ ← await; now ← moment; bind_ok (answer (send_peer now)) (fun _ => done_ r))).
  { intros m r Hk s a. unfold bind_ok. rewrite !res_bind, fx_bind. simpl.
    destruct (send_peer _) as [u|e] eqn:E; [|intros Hr; discriminate Hr]. intros Hr Hf. injection Hr as <-. simpl in Hf.
    eexists. split; [|by apply Hk]. left. }
  unfold secure_connection. apply cert_bind. intros s.
  match goal with |- certified _ (match ?x with _ => _ end) => destruct x as [sign_pk|] end; [|by apply Hplain].
  apply cert_bind. intros _. apply cert_bind. intros now. destruct (peer_frame now) as [e|e| | |[signed|]] eqn:Ep; try apply cert_fail; try (by apply Hplain).
  destruct (decode_id_pk signed sign_pk) as [[j their]|] eqn:Ed; [|by apply Hplain].
  case_bool_decide; [|by apply Hplain]. apply Hplain. intros _. unfold keyed. eauto 10.
Qed.

Lemma connect_certified pu my_nat i relay key : certified (fun r => (r.1.1, r.1.2)) (connect pu my_nat i relay key).
Proof.
  unfold connect. apply cert_bind. intros s. apply cert_bind. intros used. destruct (negb (peer_endpoint_allowed _ _ _ _)); [apply cert_fail|].
  do 5 (apply cert_bind; intros ?).
  match goal with |- certified _ (match ?x with _ => _ end) => destruct x as [typ|] end; [|apply cert_bind; intros; apply cert_fail].
  destruct (lc_force_relay _); [apply cert_bind; intros; apply cert_fail|].
  apply (cert_first (fun r => (r.2, r.1)) _ (secure_connection i (pu_pk pu) key)); [apply secure_connection_certified|].
  intros [[pk secured]|e] s' b Hb; [|discriminate Hb]. exists (pk, secured). split; [done|].
  rewrite res_bind in Hb. destruct (negb _); [discriminate Hb|]. by injection Hb as <-.
Qed.

Abbreviation stream := (fun x : Session => (s_secured x, s_pk x)).

Lemma start_inner_certified peer key token udp rs servers contained : certified stream (_start_inner peer key token udp rs servers contained).
Proof.
  unfold _start_inner. apply cert_bind_ok. intros socket. apply cert_bind. intros [sock name]. do 4 first [apply cert_bind_ok; intros ?|apply cert_bind; intros ?].
  do 4 (apply cert_bind; intros ?). apply cert_bind_ok. intros [pu|]; [|apply cert_fail].
  destruct (_ =? 0); [apply cert_fail|].
  apply (cert_first (fun r => (r.1.1, r.1.2)) _ (connect pu _ peer [] key)); [apply connect_certified|].
  intros [[[secured pk] typ]|e] s' b Hb; [|discriminate Hb]. eexists. split; [done|]. by injection Hb as <-.
Qed.

Lemma cert_manual domain endpoint host (k : Session -> Try (Session * bool)) : certified (fun x => stream x.1) (bind_ok (start_manual domain endpoint host) k).
Proof. intros s a Hr. discriminate Hr. Qed.

(** Two attempts at the server: the session is one of theirs. *)
Lemma cert_select (m m' : Try Session) : certified stream m -> certified stream m' ->
  certified stream (r ← m; r' ← m'; mret (select_ok r r')).
Proof.
  intros Hm Hm' s a. rewrite !res_bind, !fx_bind. simpl. rewrite app_nil_r. unfold select_ok.
  destruct (res m s) as [x|e] eqn:E1.
  - destruct (res m' (st m s)) as [y|e'] eqn:E2; intros Ha Hf.
    + injection Ha as <-. destruct first_inner.
      * destruct (Hm _ _ E1 Hf) as (z&Hz&Hq). exists z. split; [apply elem_of_app; by left|done].
      * destruct (Hm' _ _ E2 Hf) as (z&Hz&Hq). exists z. split; [apply elem_of_app; by right|done].
    + injection Ha as <-. destruct (Hm _ _ E1 Hf) as (z&Hz&Hq). exists z. split; [apply elem_of_app; by left|done].
  - intros Ha Hf. destruct (Hm' _ _ Ha Hf) as (z&Hz&Hq). exists z. split; [apply elem_of_app; by right|done].
Qed.

Lemma start__certified peer key token : certified (fun x => stream x.1) (_start peer key token).
Proof.
  assert (Hlast : forall m : Try Session, certified stream m -> certified (fun x => stream x.1) (bind_ok m (fun x => done_ (x, true)))).
  { intros m Hm. apply (cert_first stream _ m); [done|]. intros [x|e] s b Hb; [|discriminate Hb]. exists x. by injection Hb as <-. }
  unfold _start. apply cert_bind. intros s. do 3 (destruct (negb _) || destruct incoming_only; [apply cert_fail|]).
  destruct (is_ip_str peer); [apply cert_manual|]. destruct (is_domain_port_str peer); [apply cert_manual|].
  apply cert_bind_ok. intros [[[i other] k] t]. apply cert_bind_ok. intros [[name others] contained].
  do 3 (apply cert_bind; intros ?). apply cert_bind. intros udp. apply Hlast. unfold start_both. destruct udp.
  - apply cert_select; apply start_inner_certified.
  - apply start_inner_certified.
Qed.

End Certified.

(** ** With UDP and IPv6 punching switched off *)

Section TcpOnly.
Context {S P : Type} `{!OptionKeys, !BuildEnv, !ConfigStore S, !Externals, !PeerStore P, !ClientKeys, !ClientEnv, !CtlEnv S}.
Implicit Types s : Ctl S P.

Definition punch_off (c : HomeConfig S) : Prop := get_udp_punch_enabled c = false /\ get_ipv6_punch_enabled c = false.
Definition keeps_off s s' : Prop := punch_off (k_cfg s) -> punch_off (k_cfg s').
#[local] Instance keeps_off_preorder : PreOrder keeps_off.
Proof. unfold keeps_off. split; [intros s Hx; exact Hx|intros a b d Ha Hb Hx; auto]. Qed.

Definition tcp_only (e : Fx S) : Prop :=
  match e with ProbedIpv6 _ | OpenedUdp _ _ | UdpTo _ _ _ | Ipv6To _ _ => False | _ => True end.

(** Nobody switches it on meanwhile. *)
Context (Hoff : forall n w, punch_off w.1 -> punch_off (meanwhile n w).1).
Abbreviation quiet := (obeys (S := Ctl S P) keeps_off tcp_only).

Lemma await_quiet s : quiet s await.
Proof. apply obeys_modify. unfold keeps_off. simpl. apply (Hoff _ (_, _)). Qed.
Ltac walk_quiet := pose proof await_quiet; walk_ctl; try done; try (intros Hx; exact Hx).

Lemma secure_tcp_quiet key s : quiet s (secure_tcp key).
Proof. unfold secure_tcp. walk_quiet. Qed.
Lemma secure_connection_quiet i pk key s : quiet s (secure_connection i pk key).
Proof. unfold secure_connection. walk_quiet. Qed.
Lemma connect_quiet pu my_nat i relay key s : quiet s (connect pu my_nat i relay key).
Proof. unfold connect. walk_quiet; apply secure_connection_quiet. Qed.
Lemma dial_server_quiet name s : quiet s (dial_server name).
Proof.
  unfold dial_server. apply resolve_then; [exact _|apply await_quiet|]. intros c ready asked addr s' _. walk_quiet.
Qed.
Lemma try_servers_quiet l : forall last name s, quiet s (try_servers l last name).
Proof. induction l as [|sv l IH]; intros last name s; simpl; walk_quiet; try apply IH; apply dial_server_quiet. Qed.
Lemma on_punch_quiet ph s : quiet s (on_punch_response ph false false).
Proof. unfold on_punch_response. rewrite andb_false_r. walk_quiet. Qed.
Lemma punch_loop_quiet l request : tcp_only request -> forall s, quiet s (punch_loop l request false false).
Proof. intros Hr. induction l as [|i l IH]; intros s; simpl; walk_quiet; try apply IH; apply on_punch_quiet. Qed.

Lemma start_manual_quiet domain endpoint host s : quiet s (start_manual domain endpoint host).
Proof. unfold start_manual. walk_quiet. Qed.

Lemma local_ipv6_off {A} (k : option bytes -> M (Ctl S P) (Fx S) A) s : punch_off (k_cfg s) ->
  quiet s (k None) -> quiet s (local_ipv6 ≫= k).
Proof.
  intros [_ Hv] Hk. assert (E : local_ipv6 s = (None, s, [])) by (unfold local_ipv6; rewrite run_gets_bind; unfold id; by rewrite Hv).
  apply obeys_bind; [exact _|unfold obeys, st, fx; rewrite E; split; [done|constructor]|].
  intros _. unfold res, st. by rewrite E.
Qed.

Lemma start_inner_quiet peer key token rs servers contained s : punch_off (k_cfg s) ->
  quiet s (_start_inner peer key token false rs servers contained).
Proof.
  intros Ho. unfold _start_inner. pose proof await_quiet as Hw.
  repeat match goal with
  | |- obeys _ _ _ (local_ipv6 ≫= _) => apply local_ipv6_off; [unfold keeps_off, id in *; eauto 12|]
  | |- obeys _ _ _ (bind_ok (punch_loop _ _ _ _) _) => apply obeys_bind_ok; [exact _|by apply punch_loop_quiet|intros ? ? ?]
  | |- obeys _ _ _ (dial_server _) => apply dial_server_quiet
  | |- obeys _ _ _ (try_servers _ _ _) => apply try_servers_quiet
  | |- obeys _ _ _ (secure_tcp _) => apply secure_tcp_quiet
  | |- obeys _ _ _ (connect _ _ _ _ _) => apply connect_quiet
  | |- obeys _ _ _ (fail _) => apply obeys_ret; exact _
  | |- obeys _ _ _ (done_ _) => apply obeys_ret; exact _
  | |- obeys _ _ _ (answer _) => apply obeys_ret; exact _
  | |- obeys _ _ _ (emit _) => apply obeys_emit; [exact _|done]
  | |- obeys _ _ _ (bind_ok (answer _) _) => apply obeys_answer; [exact _|intros ? ?]
  | |- obeys _ _ _ (bind_ok _ _) => apply obeys_bind_ok; [exact _| |intros ? ? ?]
  | |- obeys _ _ _ await => apply Hw
  | |- obeys _ _ _ moment => apply obeys_gets; exact _
  | |- _ => obey_step
  end.
Qed.

Lemma named_server_quiet name s : quiet s (named_server name).
Proof. unfold named_server. walk_quiet. Qed.

Lemma open_udp_off name s : punch_off (k_cfg s) -> open_udp name s = (false, s, []).
Proof. intros [Hu _]. unfold open_udp. rewrite run_gets_bind. unfold id. by rewrite Hu. Qed.

Lemma start_both_quiet name peer key token others contained (k : Session -> M (Ctl S P) (Fx S) (result string (Session * bool))) s :
  punch_off (k_cfg s) -> (forall a s', quiet s' (k a)) ->
  quiet s (udp ← open_udp name; bind_ok (start_both udp peer key token name others contained) k).
Proof.
  intros Ho Hk. apply obeys_bind; [exact _|unfold obeys, st, fx; rewrite (open_udp_off name s Ho); split; [done|constructor]|].
  intros _. replace (res (open_udp name) s) with false by (unfold res; by rewrite (open_udp_off name s Ho)).
  replace (st (open_udp name) s) with s by (unfold st; by rewrite (open_udp_off name s Ho)).
  apply obeys_bind_ok; [exact _|by apply start_inner_quiet|auto].
Qed.

Lemma start__quiet peer key token s : punch_off (k_cfg s) -> quiet s (_start peer key token).
Proof.
  intros Ho. unfold _start. pose proof await_quiet as Hw.
  repeat match goal with
  | |- obeys _ _ _ (open_udp _ ≫= _) => apply start_both_quiet; [unfold keeps_off, id in *; eauto 12|intros; walk_ctl]
  | |- obeys _ _ _ (start_manual _ _ _) => apply start_manual_quiet
  | |- obeys _ _ _ (named_server _) => apply named_server_quiet
  | |- obeys _ _ _ await => apply Hw
  | |- obeys _ _ _ (bind_ok (answer _) _) => apply obeys_answer; [exact _|intros ? ?]
  | |- obeys _ _ _ (bind_ok _ _) => apply obeys_bind_ok; [exact _| |intros ? ? ?]
  | |- obeys _ _ _ (fail _) => apply obeys_ret; exact _
  | |- obeys _ _ _ (done_ _) => apply obeys_ret; exact _
  | |- _ => obey_step
  end.
  unfold id in *. match goal with Hb : get_ipv6_punch_enabled (k_cfg ?s') = true |- _ =>
    assert (Hs : punch_off (k_cfg s')) by (unfold keeps_off in *; eauto 12); rewrite (proj2 Hs) in Hb; discriminate Hb end.
Qed.

End TcpOnly.

Module ControllerClaims.

Section Claims.
Context {S P : Type} `{!OptionKeys, !BuildEnv, !ConfigStore S, !Externals, !PeerStore P, !ClientKeys, !ClientEnv, !CtlEnv S}.
Implicit Types s : Ctl S P.

Lemma check_started_ok encode64 peer r s x : res (check_started encode64 peer r) s = Ok x ->
  (exists b, r = Ok (x, b)) /\ s_direct x = true /\ s_secured x = true /\
  encode64 <$> s_pk x = Some (match lc_nestlink_permit (k_sess s).1 with Some p => host_key (p_claims p) | None => [] end).
Proof.
  unfold check_started. destruct r as [[y b]|e]; [|intros Hr; discriminate Hr]. rewrite res_bind. simpl. unfold id.
  case_bool_decide as Hk; [|intros Hr; discriminate Hr]. simpl. unfold direct_session_allowed.
  destruct (s_direct y) eqn:Hd; [|intros Hr; discriminate Hr]. destruct (s_secured y) eqn:Hs; [|intros Hr; discriminate Hr].
  destruct (bool_decide _); [|intros Hr; discriminate Hr]. simpl. rewrite !res_bind. intros Hr. injection Hr as <-. eauto.
Qed.

Lemma check_started_policy encode64 peer r s : Forall policy (fx (check_started (P := P) encode64 peer r) s).
Proof.
  assert (obeys (fun _ _ => True) policy s (check_started encode64 peer r)) as [_ ?]; [|done].
  assert (PreOrder (fun _ _ : Ctl S P => True)) by (split; done). unfold check_started. walk_ctl; done.
Qed.

(** A session that [start] returns, and what it did *)
Definition authenticated (encode64 : bytes -> str) (p : PreparedPermit) (x : Session) (l : list (Fx S)) : Prop :=
  s_direct x = true /\ s_secured x = true /\
  exists k, s_pk x = Some k /\ encode64 k = host_key (p_claims p) /\
    exists now i signed their, peer_frame now = Fr_Got (P_SignedId signed) /\ decode_id_pk signed k = Some (i, their) /\
      SentPeer (Pm_PublicKey (fresh_box now).1 (seal (fresh_key now) their (fresh_box now).2)) ∈ l.

Lemma start_prepared_spec encode64 p peer key token s :
  Forall policy (fx (start_prepared (P := P) encode64 p peer key token) s) /\
  forall x, res (start_prepared (P := P) encode64 p peer key token) s = Ok x ->
    authenticated encode64 p x (fx (start_prepared encode64 p peer key token) s).
Proof.
  unfold start_prepared. rewrite !res_bind, !fx_bind.
  match goal with |- context [st (_start peer key token) ?x] => set (s1 := x) end.
  assert (Hp : lc_nestlink_permit (k_sess s1).1 = Some p) by reflexivity. clearbody s1.
  pose proof (start__good peer key token s1) as [Hsame Hpol]. unfold same_permit in Hsame.
  pose proof (start__certified peer key token s1) as Hcert. simpl app.
  set (s2 := st (_start peer key token) s1) in *. split.
  - constructor; [done|]. apply Forall_app. split; [done|apply check_started_policy].
  - intros x E. apply check_started_ok in E as ((b&Eb)&Hd&Hs&Hk). split; [done|]. split; [done|].
    destruct (Hcert _ Eb Hs) as (e&He&(now&k&i&signed&their&Hpk&Hf&Hdec&->)). simpl in Hpk. rewrite Hpk in Hk. rewrite Hsame, Hp in Hk.
    injection Hk as Hk. exists k. split_and!; try done. exists now, i, signed, their. split_and!; try done.
    right. apply elem_of_app. by left.
Qed.

Lemma start_run encode64 p peer key token s :
  start (P := P) encode64 (Ok tt) (Ok p) peer key token s = start_prepared encode64 p peer key token (st await s).
Proof.
  unfold start, bind_ok, answer, await, modify, st. unfold mbind, M_bind, mret, M_ret. simpl.
  by destruct (start_prepared _ _ _ _ _ _) as [[??]?].
Qed.

(** C5: A remote session is started only with the device the server vouched for:
    whatever the signaling server and the peer answer and however the
    configuration changes at the awaits, a session that [start] returns is direct
    and encrypted, the peer's key is the host key of the permit that was prepared
    for it, and the session key was sealed for a box key signed by that key.
    Whether it succeeds or not, [start] dials as signaling server only an address
    that the name service gave for the server configured when the name was
    checked; at that moment, just before the name service is asked, the login was
    live and the profile confirmed (a logout or a new profile while the name is
    being resolved does not stop the dial, see [logout_during_dns_still_dials]).
    It dials peers over TCP and UDP only at addresses that the profile of the
    moment admits (the IPv6 candidate, used only when IPv6 punching is enabled, is
    not checked by the code); it never asks for or dials a relay, nor an address
    typed in by hand. *)
Theorem started_sessions_are_authenticated encode64 ensured prepared peer key token s :
  let m := start (S := S) (P := P) encode64 ensured prepared peer key token in
  Forall policy (fx m s) /\
  match res m s with
  | Ok x => exists p, prepared = Ok p /\ authenticated encode64 p x (fx m s)
  | Err _ => True
  end.
Proof.
  cbv zeta. destruct ensured as [[]|e]; [|split; [constructor|done]].
  destruct prepared as [p|e]; [|split; [by repeat constructor|done]].
  destruct (start_prepared_spec encode64 p peer key token (st await s)) as [Hp Ha]. unfold res, fx in *.
  rewrite start_run. split; [done|]. destruct (start_prepared _ _ _ _ _ _) as [[[x|e] s'] l]; [|done]. exists p. split; [done|]. by apply Ha.
Qed.

(** With UDP and IPv6 punching disabled, as the enforced local settings have it,
    connecting stays on TCP: no UDP socket, no IPv6 probe. *)
Theorem disabled_punching_stays_off encode64 ensured prepared peer key token s :
  (forall n w, punch_off w.1 -> punch_off (meanwhile (S := S) n w).1) -> punch_off (k_cfg s) ->
  Forall tcp_only (fx (start (P := P) encode64 ensured prepared peer key token) s).
Proof.
  intros Hoff Ho. pose proof (await_quiet (P := P) Hoff) as Hw.
  destruct ensured as [[]|e]; [|constructor]. destruct prepared as [p|e]; [|constructor].
  unfold fx. rewrite start_run. 
  assert (Hq : obeys keeps_off tcp_only (st await s) (start_prepared encode64 p peer key token)); [|apply Hq].
  pose proof (keeps_off_preorder (S := S) (P := P)). destruct (Hw s) as [Hs _]. specialize (Hs Ho). unfold start_prepared.
  apply obeys_bind; [exact _|apply Hw|intros Hr]. specialize (Hr Hs).
  do 3 (apply obeys_bind; [exact _|first [apply obeys_modify; intros Hx; exact Hx|apply obeys_emit; [exact _|done]]|intros _]).
  apply obeys_bind; [exact _|by apply start__quiet|intros _]. unfold check_started. walk_ctl; first [done|intros Hx; exact Hx].
Qed.

End Claims.

(** A sample world: the server answers the second request with a peer that
    completes the key exchange. *)
Import ExampleConfig ExampleClient.

#[local] Instance sample_externals : Externals := {|
  url_parse := example_url;
  decode64 _ := Some (replicate 32 0);
  check_port host port := if existsb (Z.eqb 58) host then host else host ++ lit ":" ++ fmt_Z port;
  lookup_host _ := Ok [V4 (ipv4_new 203 0 113 9) 21116];
  fmt_v6_socket _ _ := [] |}.

Definition host_public : bytes := replicate 32 7.

Definition sample_ctl_with (others : nat -> HomeConfig SimpleStore * bool -> HomeConfig SimpleStore * bool) : CtlEnv SimpleStore := {|
  meanwhile := others;
  is_ip_str s := bool_decide (is_Some (parse_ipv4 s));
  is_domain_port_str _ := false;
  incoming_only := false;
  CONNECT_TIMEOUT := 18000; RENDEZVOUS_PORT := 21116; RELAY_PORT := 21117; PUBLIC_SERVERS := [];
  decode_addr _ := V4 (ipv4_new 203 0 113 5) 4000;
  local_get o k := default [] (o !! k);
  ipc_servers := (lit "hbbs.example.com", [lit "hbbs.example.com"]);
  configured_server := lit "hbbs.example.com";
  connect_manual _ := Ok ();
  dns _ _ := Ok [V4 (ipv4_new 203 0 113 9) 21116];
  connect_server _ _ := Ok ();
  send_server _ := Ok ();
  server_frames n := match n with
    | 10%nat => [Fr_Got (R_KeyExchange []); Fr_Got (R_Punch (MkPunch [4] [] [1] ASYMMETRIC false false 0 "" OTHER_FAILURE))]
    | _ => []
    end;
  nat_type _ := ASYMMETRIC;
  udp_opened _ := true; udp_nat_port _ := 0; ipv6_local _ := None;
  race _ _ := Some 0%nat;
  first_inner := true;
  peer_frame _ := Fr_Got (P_SignedId [2]);
  send_peer _ := Ok ();
  punch_time _ := 100;
  sign_verify m k := Some m;
  id_pk_of m := Some (lit "device1", host_public);
  seal k pk sk := k ++ pk;
  fresh_box _ := ([3], [4]); fresh_key _ := [5] |}.

#[local] Instance sample_ctl : CtlEnv SimpleStore := sample_ctl_with (fun _ w => w).

Definition sample_permit : PreparedPermit :=
  MkPrepared [9] (MkPermitClaims 1 [] [] [] 0 0 [] [] [] [] (lit "me") (lit "device1") [] host_public []) (guard_start [] 0).

Definition sample_state : Ctl SimpleStore (gmap str PeerConfig) :=
  MkCtl (save_network_profile profile config).2 true 0 sample_session.

Definition sample_start := start (S := SimpleStore) (P := gmap str PeerConfig) (fun b => b) (Ok tt) (Ok sample_permit) (lit "device1") [] [].

(** In this world a session starts, over TCP; a permit for another key, or the
    peer's address in place of its id, stops it. *)
Example sample_session_starts :
  (match res sample_start sample_state with Ok x => bool_decide (s_typ x = lit "TCP") && s_secured x | Err _ => false end)
  && (match res (start (S := SimpleStore) (P := gmap str PeerConfig) (fun b => b) (Ok tt)
        (Ok (MkPrepared [9] (MkPermitClaims 1 [] [] [] 0 0 [] [] [] [] (lit "me") (lit "device1") [] [1] []) (guard_start [] 0)))
        (lit "device1") [] []) sample_state with Ok _ => false | Err e => bool_decide (e = "P2P 对方身份与服务签发的远控许可不一致"%string) end)
  && (match res (start (S := SimpleStore) (P := gmap str PeerConfig) (fun b => b) (Ok tt) (Ok sample_permit)
        (lit "203.0.113.5") [] []) sample_state with Ok _ => false | Err _ => true end) = true.
Proof. vm_compute. reflexivity. Qed.

(** A logout while the server's name is being resolved, the fifth await, comes too
    late for that dial. *)
Example logout_during_dns_still_dials :
  let env := sample_ctl_with (fun n w => if (n =? 4)%nat then (w.1, false) else w) in
  let m := start (S := SimpleStore) (P := gmap str PeerConfig) (CtlEnv0 := env) (fun b => b) (Ok tt) (Ok sample_permit) (lit "device1") [] [] in
  existsb (fun e => match e with DialedServer _ ready _ _ => ready | _ => false end) (fx m sample_state)
  && negb (k_ready (st m sample_state)) = true.
Proof. vm_compute. reflexivity. Qed.

Lemma disabled_punching_stays_off_witness : Forall tcp_only (fx sample_start sample_state).
Proof.
  apply disabled_punching_stays_off; [intros n w Ho; exact Ho|]. split; vm_compute; reflexivity.
Defined.

End ControllerClaims.
