(* ===== verification/SessionScope.v ===== *)
(** * Session scope

    Models the scope checks of [client/src/server/connection.rs]: every authorized
    connection has a type ([AuthConnType]); a message outside the type's scope is a
    violation, named by its family; option messages are reduced to the fields the
    type may set.  Linux build: the variants under [cfg(windows)] are left out. *)
From stdpp Require Import base gmap list strings.
From Stdlib Require Import ZArith Lia.
From S2P Require Import Prelude RustStr Effects Message.

#[local] Open Scope Z_scope.

Inductive AuthConnType := Remote | FileTransfer | PortForward | ViewCamera | Terminal.
#[global] Instance AuthConnType_eq_dec : EqDecision AuthConnType.
Proof. solve_decision. Defined.

Definition conn_type_as_str (t : AuthConnType) : string :=
  match t with
  | Remote => "remote"
  | FileTransfer => "file_transfer"
  | PortForward => "port_forward"
  | ViewCamera => "view_camera"
  | Terminal => "terminal"
  end.

(** ** Option fields *)

Definition is_bool_option_not_set (f : bool_field) : bool := bool_decide (f = Known NotSet).

Definition quality_not_set (o : OptionMessage) : bool := bool_decide (o_image_quality o = Known IqNotSet).

Definition option_has_non_view_camera_login_field (o : OptionMessage) : bool :=
  negb (is_bool_option_not_set (o_lock_after_session_end o)
        && is_bool_option_not_set (o_show_remote_cursor o)
        && is_bool_option_not_set (o_privacy_mode o)
        && is_bool_option_not_set (o_block_input o)
        && is_bool_option_not_set (o_disable_clipboard o)
        && is_bool_option_not_set (o_enable_file_transfer o)
        && is_bool_option_not_set (o_disable_keyboard o)
        && is_bool_option_not_set (o_follow_remote_cursor o)
        && is_bool_option_not_set (o_follow_remote_window o)
        && is_bool_option_not_set (o_disable_camera o)
        && is_bool_option_not_set (o_terminal_persistent o)
        && is_bool_option_not_set (o_show_my_cursor o)).

Definition option_has_non_terminal_login_field (o : OptionMessage) : bool :=
  negb (quality_not_set o)
  || negb (o_custom_image_quality o =? 0)
  || negb (o_custom_fps o =? 0)
  || bool_decide (is_Some (o_supported_decoding o))
  || negb (is_bool_option_not_set (o_lock_after_session_end o))
  || negb (is_bool_option_not_set (o_show_remote_cursor o))
  || negb (is_bool_option_not_set (o_privacy_mode o))
  || negb (is_bool_option_not_set (o_block_input o))
  || negb (is_bool_option_not_set (o_disable_audio o))
  || negb (is_bool_option_not_set (o_disable_clipboard o))
  || negb (is_bool_option_not_set (o_enable_file_transfer o))
  || negb (is_bool_option_not_set (o_disable_keyboard o))
  || negb (is_bool_option_not_set (o_follow_remote_cursor o))
  || negb (is_bool_option_not_set (o_follow_remote_window o))
  || negb (is_bool_option_not_set (o_disable_camera o))
  || negb (is_bool_option_not_set (o_show_my_cursor o)).

Definition option_has_any_field (o : OptionMessage) : bool :=
  option_has_non_terminal_login_field o || negb (is_bool_option_not_set (o_terminal_persistent o)).

Definition is_supported_decoding_only_option (o : OptionMessage) : bool :=
  bool_decide (is_Some (o_supported_decoding o))
  && quality_not_set o
  && (o_custom_image_quality o =? 0)
  && (o_custom_fps o =? 0)
  && is_bool_option_not_set (o_lock_after_session_end o)
  && is_bool_option_not_set (o_show_remote_cursor o)
  && is_bool_option_not_set (o_privacy_mode o)
  && is_bool_option_not_set (o_block_input o)
  && is_bool_option_not_set (o_disable_audio o)
  && is_bool_option_not_set (o_disable_clipboard o)
  && is_bool_option_not_set (o_enable_file_transfer o)
  && is_bool_option_not_set (o_disable_keyboard o)
  && is_bool_option_not_set (o_follow_remote_cursor o)
  && is_bool_option_not_set (o_follow_remote_window o)
  && is_bool_option_not_set (o_disable_camera o)
  && is_bool_option_not_set (o_terminal_persistent o)
  && is_bool_option_not_set (o_show_my_cursor o).

(** ** Reducing an option to a type's fields *)

Definition then_some {A} (b : bool) (a : A) : option A := if b then Some a else None.

Definition scoped_terminal_login_option (o : OptionMessage) : option OptionMessage * option string :=
  let '(scoped, violation) :=
    match enum_value (o_terminal_persistent o) with
    | Ok value => (option_new <| o_terminal_persistent := Known value |>, false)
    | Err _ => (option_new, true)
    end in
  let violation := if option_has_non_terminal_login_field o then true else violation in
  (then_some (option_has_any_field scoped) scoped, then_some violation "login.option").

Definition scoped_view_camera_option (o : OptionMessage) : option OptionMessage * option string :=
  let scoped := option_new in
  let scoped := if is_ok (enum_value (o_image_quality o)) then scoped <| o_image_quality := o_image_quality o |> else scoped in
  let scoped := if 0 <=? o_custom_image_quality o then scoped <| o_custom_image_quality := o_custom_image_quality o |> else scoped in
  let scoped := if 0 <=? o_custom_fps o then scoped <| o_custom_fps := o_custom_fps o |> else scoped in
  let scoped := scoped <| o_supported_decoding := o_supported_decoding o |> in
  let scoped := match enum_value (o_disable_audio o) with
                | Ok value => scoped <| o_disable_audio := Known value |>
                | Err _ => scoped
                end in
  (then_some (option_has_any_field scoped) scoped,
   then_some (option_has_non_view_camera_login_field o) "login.option").

Definition scoped_login_option (t : AuthConnType) (o : OptionMessage) : option OptionMessage * option string :=
  match t with
  | Remote => (Some o, None)
  | ViewCamera => scoped_view_camera_option o
  | Terminal => scoped_terminal_login_option o
  | FileTransfer | PortForward => (None, then_some (option_has_any_field o) "login.option")
  end.

(** [scoped_update_option_message]: options received after the login. *)
Definition scoped_update_option_message (t : option AuthConnType) (o : OptionMessage) : option OptionMessage :=
  match t with
  | Some ViewCamera => (scoped_view_camera_option o).1
  | Some Terminal => (scoped_terminal_login_option o).1
  | Some (Remote | FileTransfer | PortForward) | None => None
  end.

(** ** Messages *)

Definition is_connection_housekeeping_message (m : Message) : bool :=
  match m with
  | Msg_LoginRequest _ | Msg_TestDelay _ => true
  | Msg_Misc (Some (Misc_CloseReason _)) => true
  | _ => false
  end.

Definition is_render_broadcast_noop_compat_message (m : Message) : bool :=
  match m with
  | Msg_Misc (Some (Misc_RefreshVideo _)) | Msg_Misc (Some (Misc_RefreshVideoDisplay _)) => true
  | Msg_Misc (Some (Misc_Option o)) => is_supported_decoding_only_option o
  | _ => false
  end.

Definition is_text_clipboard_noop_compat_message (m : Message) : bool :=
  match m with Msg_Clipboard _ | Msg_MultiClipboards _ => true | _ => false end.

Definition is_file_transfer_scoped_misc (m : option Misc) : bool := false.

Definition is_file_transfer_scoped_message (m : Message) : bool :=
  match m with
  | Msg_FileAction _ | Msg_FileResponse _ => true
  | Msg_Misc misc => is_file_transfer_scoped_misc misc
  | _ => false
  end.

Definition is_terminal_scoped_option (o : OptionMessage) : bool :=
  bool_decide ((scoped_terminal_login_option o).2 = None).

Definition is_terminal_scoped_misc (m : option Misc) : bool :=
  match m with
  | Some (Misc_ChatMessage _) => true
  | Some (Misc_Option o) => is_terminal_scoped_option o
  | _ => false
  end.

Definition is_terminal_scoped_message (m : Message) : bool :=
  match m with
  | Msg_TerminalAction _ => true
  | Msg_Misc misc => is_terminal_scoped_misc misc
  | _ => false
  end.

Definition is_view_camera_scoped_option (o : OptionMessage) : bool :=
  bool_decide ((scoped_view_camera_option o).2 = None).

Definition is_view_camera_scoped_misc (m : option Misc) : bool :=
  match m with
  | Some (Misc_SwitchDisplay _ _ _ | Misc_CaptureDisplays _ _ _ | Misc_RefreshVideo _ | Misc_RefreshVideoDisplay _
         | Misc_VideoReceived | Misc_ChatMessage _ | Misc_AudioFormat _ | Misc_ClientRecordStatus _
         | Misc_MessageQuery _ | Misc_TogglePrivacyMode _ _ | Misc_ToggleVirtualDisplay _ _
         | Misc_ChangeResolution _ | Misc_ChangeDisplayResolution _ _) => true
  | Some (Misc_Option o) => is_view_camera_scoped_option o
  | _ => false
  end.

Definition is_view_camera_scoped_message (m : Message) : bool :=
  match m with
  | Msg_ScreenshotRequest _ _ => true
  | Msg_Misc misc => is_view_camera_scoped_misc misc
  | Msg_MouseEvent _ | Msg_PointerDeviceEvent _ | Msg_KeyEvent _ => true
  | Msg_AudioFrame _ | Msg_VoiceCallRequest _ _ | Msg_VoiceCallResponse _ _ => true
  | _ => false
  end.

Definition misc_message_family (m : option Misc) : string :=
  match m with
  | Some (Misc_ChatMessage _) => "misc.chat_message"
  | Some (Misc_SwitchDisplay _ _ _) => "misc.switch_display"
  | Some (Misc_Option _) => "misc.option"
  | Some (Misc_AudioFormat _) => "misc.audio_format"
  | Some (Misc_CaptureDisplays _ _ _) => "misc.capture_displays"
  | Some (Misc_ClientRecordStatus _) => "misc.client_record_status"
  | Some (Misc_TogglePrivacyMode _ _) => "misc.toggle_privacy_mode"
  | Some (Misc_ToggleVirtualDisplay _ _) => "misc.toggle_virtual_display"
  | Some (Misc_SelectedSid _) => "misc.selected_sid"
  | Some (Misc_ChangeResolution _) => "misc.change_resolution"
  | Some (Misc_ChangeDisplayResolution _ _) => "misc.change_display_resolution"
  | Some (Misc_MessageQuery _) => "misc.message_query"
  | Some (Misc_FollowCurrentDisplay _) => "misc.follow_current_display"
  | Some _ => "misc.other"
  | None => "misc.empty"
  end.

Definition message_family (m : Message) : string :=
  match m with
  | Msg_MouseEvent _ => "mouse_event"
  | Msg_AudioFrame _ => "audio_frame"
  | Msg_PointerDeviceEvent _ => "pointer_device_event"
  | Msg_KeyEvent _ => "key_event"
  | Msg_Clipboard _ => "clipboard"
  | Msg_FileAction _ => "file_action"
  | Msg_FileResponse _ => "file_response"
  | Msg_VoiceCallRequest _ _ => "voice_call_request"
  | Msg_VoiceCallResponse _ _ => "voice_call_response"
  | Msg_MultiClipboards _ => "multi_clipboards"
  | Msg_ScreenshotRequest _ _ => "screenshot_request"
  | Msg_ScreenshotResponse => "screenshot_response"
  | Msg_TerminalAction _ => "terminal_action"
  | Msg_TerminalResponse _ | Msg_TerminalError _ => "terminal_response"
  | Msg_Misc misc => misc_message_family misc
  | Msg_Empty => "empty"
  | _ => "message.other"
  end.

(** Messages that older clients broadcast to all their sessions. *)
Definition noop_compat (t : AuthConnType) (m : Message) : bool :=
  match t with
  | FileTransfer | Terminal => is_render_broadcast_noop_compat_message m || is_text_clipboard_noop_compat_message m
  | PortForward => is_render_broadcast_noop_compat_message m
  | ViewCamera => is_text_clipboard_noop_compat_message m
  | _ => false
  end.

Definition authorized_message_scope_violation (t : AuthConnType) (m : Message) : option string :=
  if is_connection_housekeeping_message m then None
  else
    if noop_compat t m then None
    else
      let allowed :=
        match t with
        | Remote => true
        | FileTransfer => is_file_transfer_scoped_message m
        | PortForward => false
        | ViewCamera => is_view_camera_scoped_message m
        | Terminal => is_terminal_scoped_message m
        end in
      then_some (negb allowed) (message_family m).

Definition authorized_scope_violation (t : option AuthConnType) (m : Message) : option string :=
  match t with
  | None => then_some (negb (is_connection_housekeeping_message m)) "session.auth_type"
  | Some t => authorized_message_scope_violation t m
  end.

(** ** What a reduced option should be

    [sub_option o' o]: each field of [o'] is unset or as in [o].  [within t o]: [o]
    sets only fields that the type may set, to values it may have. *)

Definition sub_field {A} (unset x y : A) : Prop := x = unset \/ x = y.

Record sub_option (o' o : OptionMessage) : Prop := {
  so_quality : sub_field (Known IqNotSet) (o_image_quality o') (o_image_quality o);
  so_custom_quality : sub_field 0 (o_custom_image_quality o') (o_custom_image_quality o);
  so_fps : sub_field 0 (o_custom_fps o') (o_custom_fps o);
  so_decoding : sub_field None (o_supported_decoding o') (o_supported_decoding o);
  so_lock : sub_field (Known NotSet) (o_lock_after_session_end o') (o_lock_after_session_end o);
  so_show_cursor : sub_field (Known NotSet) (o_show_remote_cursor o') (o_show_remote_cursor o);
  so_privacy : sub_field (Known NotSet) (o_privacy_mode o') (o_privacy_mode o);
  so_block : sub_field (Known NotSet) (o_block_input o') (o_block_input o);
  so_audio : sub_field (Known NotSet) (o_disable_audio o') (o_disable_audio o);
  so_clipboard : sub_field (Known NotSet) (o_disable_clipboard o') (o_disable_clipboard o);
  so_file : sub_field (Known NotSet) (o_enable_file_transfer o') (o_enable_file_transfer o);
  so_keyboard : sub_field (Known NotSet) (o_disable_keyboard o') (o_disable_keyboard o);
  so_follow_cursor : sub_field (Known NotSet) (o_follow_remote_cursor o') (o_follow_remote_cursor o);
  so_follow_window : sub_field (Known NotSet) (o_follow_remote_window o') (o_follow_remote_window o);
  so_camera : sub_field (Known NotSet) (o_disable_camera o') (o_disable_camera o);
  so_terminal : sub_field (Known NotSet) (o_terminal_persistent o') (o_terminal_persistent o);
  so_my_cursor : sub_field (Known NotSet) (o_show_my_cursor o') (o_show_my_cursor o) }.

Definition known {A} (e : EnumOrUnknown A) : Prop := is_ok (enum_value e) = true.

(** The fields that only a full remote session may set. *)
Record no_control_field (o : OptionMessage) : Prop := {
  nc_lock : o_lock_after_session_end o = Known NotSet;
  nc_show_cursor : o_show_remote_cursor o = Known NotSet;
  nc_privacy : o_privacy_mode o = Known NotSet;
  nc_block : o_block_input o = Known NotSet;
  nc_clipboard : o_disable_clipboard o = Known NotSet;
  nc_file : o_enable_file_transfer o = Known NotSet;
  nc_keyboard : o_disable_keyboard o = Known NotSet;
  nc_follow_cursor : o_follow_remote_cursor o = Known NotSet;
  nc_follow_window : o_follow_remote_window o = Known NotSet;
  nc_camera : o_disable_camera o = Known NotSet;
  nc_my_cursor : o_show_my_cursor o = Known NotSet }.

Definition no_media_field (o : OptionMessage) : Prop :=
  o_image_quality o = Known IqNotSet /\ o_custom_image_quality o = 0 /\ o_custom_fps o = 0
  /\ o_supported_decoding o = None /\ o_disable_audio o = Known NotSet.

Definition within (t : AuthConnType) (o : OptionMessage) : Prop :=
  match t with
  | Remote => True
  | FileTransfer | PortForward => o = option_new
  | ViewCamera =>
    no_control_field o /\ o_terminal_persistent o = Known NotSet
    /\ known (o_image_quality o) /\ 0 <= o_custom_image_quality o /\ 0 <= o_custom_fps o /\ known (o_disable_audio o)
  | Terminal => no_control_field o /\ no_media_field o /\ known (o_terminal_persistent o)
  end.

(** ** Lemmas *)

Lemma not_set_spec f : is_bool_option_not_set f = true <-> f = Known NotSet.
Proof. apply bool_decide_eq_true. Qed.

(** Turns the boolean field checks into equations. *)
Ltac fields :=
  repeat match goal with
  | H : is_bool_option_not_set _ = true |- _ => apply not_set_spec in H
  | H : quality_not_set _ = true |- _ => unfold quality_not_set in H
  end; bools.

Lemma non_view_camera_spec o :
  option_has_non_view_camera_login_field o = false <-> no_control_field o /\ o_terminal_persistent o = Known NotSet.
Proof.
  unfold option_has_non_view_camera_login_field. rewrite negb_false_iff, !andb_true_iff, !not_set_spec.
  split; [intros; destruct_and!; by repeat split|]. intros [[] ?]. naive_solver.
Qed.

Lemma non_terminal_spec o :
  option_has_non_terminal_login_field o = false <-> no_control_field o /\ no_media_field o.
Proof.
  unfold option_has_non_terminal_login_field, no_media_field, quality_not_set.
  rewrite !orb_false_iff, !negb_false_iff, !not_set_spec, !Z.eqb_eq, bool_decide_eq_true, bool_decide_eq_false, <- eq_None_not_Some.
  split; [intros; destruct_and!; by repeat split|]. intros [[] ?]. naive_solver.
Qed.

Lemma option_ext o : no_control_field o -> no_media_field o -> o_terminal_persistent o = Known NotSet -> o = option_new.
Proof. destruct o. intros [] (?&?&?&?&?) ?. simpl in *. by subst. Qed.

Lemma any_field_spec o : option_has_any_field o = false <-> o = option_new.
Proof.
  unfold option_has_any_field. rewrite orb_false_iff, negb_false_iff, not_set_spec, non_terminal_spec.
  split; [intros [[? ?] ?]; by apply option_ext|]. intros ->. by repeat split.
Qed.

(** A reduced option is sent on exactly when it sets something. *)
Lemma default_then_some o : default option_new (then_some (option_has_any_field o) o) = o.
Proof. destruct (option_has_any_field o) eqn:E; [done|]. simpl. symmetry. by apply any_field_spec. Qed.

Lemma then_some_none {A} b (a : A) : then_some b a = None <-> b = false.
Proof. by destruct b. Qed.

Lemma sub_field_refl {A} (u x : A) : sub_field u x x.
Proof. by right. Qed.
Lemma sub_field_unset {A} (u x : A) : sub_field u u x.
Proof. by left. Qed.
#[export] Hint Resolve sub_field_refl sub_field_unset : rust.

Lemma sub_known {A} (u x y : EnumOrUnknown A) :
  known x -> sub_field u x y -> sub_field u x match y with Known v => Known v | Unknown _ => u end.
Proof. unfold known. intros Hk [->| ->]; [by left|]. destruct y; [by right|done]. Qed.

Lemma sub_max x y : 0 <= x -> sub_field 0 x y -> sub_field 0 x (Z.max 0 y).
Proof. unfold sub_field. lia. Qed.

(** The reduced options, in one equation each. *)
Lemma scoped_terminal_eq o :
  default option_new (scoped_terminal_login_option o).1 =
  option_new <| o_terminal_persistent := match o_terminal_persistent o with Known v => Known v | Unknown _ => Known NotSet end |>.
Proof. unfold scoped_terminal_login_option. destruct (o_terminal_persistent o); cbn [enum_value fst]; by rewrite default_then_some. Qed.

Lemma scoped_view_camera_eq o :
  default option_new (scoped_view_camera_option o).1 =
  option_new <| o_image_quality := match o_image_quality o with Known v => Known v | Unknown _ => Known IqNotSet end |>
    <| o_custom_image_quality := Z.max 0 (o_custom_image_quality o) |> <| o_custom_fps := Z.max 0 (o_custom_fps o) |>
    <| o_supported_decoding := o_supported_decoding o |>
    <| o_disable_audio := match o_disable_audio o with Known v => Known v | Unknown _ => Known NotSet end |>.
Proof.
  unfold scoped_view_camera_option. cbn [fst]. rewrite default_then_some.
  destruct (o_image_quality o), (o_disable_audio o), (Z.leb_spec 0 (o_custom_image_quality o)),
    (Z.leb_spec 0 (o_custom_fps o)); simpl; f_equal; lia.
Qed.

Module SessionScopeClaims.

(** What the scope filter leaves of a login's options is the largest part
    the session type may set: it is within the type's fields, every field it sets
    is the peer's, and it contains every other such part.  A violation is reported
    exactly when a field outside the type was set (for the terminal type: when
    anything was dropped). *)
Theorem scoped_option_is_largest (t : AuthConnType) (o : OptionMessage) :
  let scoped := default option_new (scoped_login_option t o).1 in
  within t scoped /\ sub_option scoped o
  /\ (forall o', within t o' -> sub_option o' o -> sub_option o' scoped)
  /\ ((scoped_login_option t o).2 = None <->
      match t with
      | Remote => True
      | ViewCamera => no_control_field o /\ o_terminal_persistent o = Known NotSet
      | _ => scoped = o
      end).
Proof.
  destruct t; cbn [scoped_login_option].
  - simpl. split_and!; try done. by split; right.
  - simpl. rewrite then_some_none, any_field_spec. split_and!; [done|by split; left|intros ? -> _; by split; left|by split; intros ->].
  - simpl. rewrite then_some_none, any_field_spec. split_and!; [done|by split; left|intros ? -> _; by split; left|by split; intros ->].
  - rewrite scoped_view_camera_eq. split_and!.
    + split_and!; [by split|done|simpl; by destruct (o_image_quality o)|simpl; lia|simpl; lia|simpl; by destruct (o_disable_audio o)].
    + split; simpl; try (by left); try (by right); try (case_match; [by right|by left]); unfold sub_field; lia.
    + intros o' ([] & Ht & ? & ? & ? & ?) []. split; simpl; try (left; by assumption); auto using sub_known, sub_max.
    + unfold scoped_view_camera_option. cbn [snd]. by rewrite then_some_none, non_view_camera_spec.
  - rewrite scoped_terminal_eq. split_and!.
    + split_and!; [by split|done|simpl; by destruct (o_terminal_persistent o)].
    + split; simpl; try (by left). case_match; [by right|by left].
    + intros o' ([] & (?&?&?&?&?) & ?) []. split; simpl; try (left; by assumption). by apply sub_known.
    + unfold scoped_terminal_login_option. destruct (o_terminal_persistent o) eqn:Et; cbn [fst snd enum_value].
      * rewrite then_some_none. destruct (option_has_non_terminal_login_field o) eqn:E.
        -- split; [done|]. intros <-. by destruct a.
        -- apply non_terminal_spec in E as [[] (?&?&?&?&?)]. split; [|done]. intros _.
           destruct o; simpl in *. by subst.
      * split; [by destruct (option_has_non_terminal_login_field o)|]. intros <-. by simpl in Et.
Qed.

End SessionScopeClaims.
