(* ===== verification/ServerReg.v ===== *)
(** * The server: services and their subscribers

    Models the [Server] of [client/src/server.rs]: the services by name (a display
    or camera is a video service of its own), which connection follows which, and
    the connection counter.  A service is the [ServiceInner] of [Service]; the
    subscribers are any instance of its [Subscriber] class.  The sources iterate
    over hash maps in an unspecified order; the updates of different services do
    not interfere, so the order of the key list does not matter. *)
From stdpp Require Import base gmap list strings.
From Stdlib Require Import ZArith Lia.
From S2P Require Import Prelude RustStr Effects Service.

#[local] Open Scope Z_scope.

Inductive VideoSource := Monitor | Camera.
#[global] Instance VideoSource_eq_dec : EqDecision VideoSource.
Proof. solve_decision. Defined.

Definition service_name_prefix (v : VideoSource) : str :=
  match v with Monitor => lit "monitor" | Camera => lit "camera" end.
Definition get_service_name (v : VideoSource) (idx : Z) : str := service_name_prefix v ++ fmt_Z idx.

Definition AUDIO_NAME : str := lit "audio".
Definition DISPLAY_NAME : str := lit "display".
Definition CLIPBOARD_NAME : str := lit "clipboard".
Definition NAME_CURSOR : str := lit "mouse_cursor".
Definition NAME_POS : str := lit "mouse_pos".
Definition NAME_WINDOW_FOCUS : str := lit "window_focus".
Definition PRIMARY_CAMERA_IDX : Z := 0.

Record Server (T : Type) := MkServer {
  connections : gmap Z T; services : gmap str (ServiceInner T); id_count : Z }.
Arguments MkServer {T} _ _ _.
Arguments connections {T} _.
Arguments services {T} _.
Arguments id_count {T} _.
#[global] Instance eta_server T : EtaRecord (Server T) := fun s => MkServer (connections s) (services s) (id_count s).

Section Server.
Context {M T : Type} `{!Subscriber M T}.
Implicit Types (v : Server T) (name : str) (conn : T).

Definition is_video_service_name name : bool :=
  starts_with (service_name_prefix Monitor) name || starts_with (service_name_prefix Camera) name.

Definition add_service (s : ServiceInner T) v : Server T := v <| services ::= <[s_name s := s]> |>.

Definition contains name v : bool := bool_decide (is_Some (services v !! name)).

(** [video_service::new] *)
Definition video_service (src : VideoSource) (idx : Z) : ServiceInner T := new_service (get_service_name src idx) true.

(** [server::new]; [seed] is the random number, [cursor_embedded] and [x11] what
    the display reports. *)
Definition server_new (seed : Z) (cursor_embedded x11 : bool) : Server T :=
  let v := MkServer ∅ ∅ (Z.rem seed 1000 + 1000) in
  let v := add_service (new_service AUDIO_NAME true) v in
  let v := add_service (new_service DISPLAY_NAME true) v in
  let v := add_service (new_service CLIPBOARD_NAME false) v in
  if cursor_embedded then v
  else
    let v := add_service (new_service NAME_CURSOR true) v in
    let v := add_service (new_service NAME_POS false) v in
    if x11 then add_service (new_service NAME_WINDOW_FOCUS false) v else v.

Definition try_add_primary_camera_service (camera_exists : bool) v : Server T :=
  if camera_exists then
    if contains (get_service_name Camera PRIMARY_CAMERA_IDX) v then v
    else add_service (video_service Camera PRIMARY_CAMERA_IDX) v
  else v.

Definition try_add_primay_video_service (primary : Z) v : Server T :=
  if contains (get_service_name Monitor primary) v then v else add_service (video_service Monitor primary) v.

Definition add_camera_connection (camera_exists : bool) conn v : Server T :=
  let v := if camera_exists
           then v <| services ::= alter (on_subscribe conn) (get_service_name Camera PRIMARY_CAMERA_IDX) |>
           else v in
  v <| connections ::= <[sub_id conn := conn]> |>.

(** Which services a new connection follows. *)
Definition follows_on_open (primary : Z) (noperms : list str) name : bool :=
  negb (is_video_service_name name && negb (bool_decide (name = get_service_name Monitor primary)))
  && negb (bool_decide (name ∈ noperms)).

Definition add_connection (primary : Z) conn (noperms : list str) v : Server T :=
  v <| services ::= fmap (fun s => if follows_on_open primary noperms (s_name s) then on_subscribe conn s else s) |>
    <| connections ::= <[sub_id conn := conn]> |>.

Definition remove_connection (id : Z) v : Server T :=
  v <| services ::= fmap (on_unsubscribe id) |> <| connections ::= delete id |>.

(** [close_connections]: every connection is sent the stop message. *)
Definition close_connections (stop : M) v : Server T := v <| connections ::= fmap (sub_send stop) |>.

Definition subscribe name conn (sub : bool) v : Server T :=
  match services v !! name with
  | Some s =>
    if Bool.eqb (is_subed (sub_id conn) s) sub then v
    else if sub then v <| services ::= <[name := on_subscribe conn s]> |>
    else v <| services ::= <[name := on_unsubscribe (sub_id conn) s]> |>
  | None => v
  end.

Definition get_new_id v : Z * Server T :=
  let v := v <| id_count := i32_add (id_count v) 1 |> in (id_count v, v).

Definition set_video_service_opt (display : option (VideoSource * Z)) (opt value : str) v : Server T :=
  v <| services ::= map_imap (fun k s =>
    Some (if match display with Some (src, d) => negb (bool_decide (k = get_service_name src d)) | None => false end then s
          else if is_video_service_name k then (set_option opt value s).2 else s)) |>.

Definition subed_displays (id : Z) v : list str :=
  filter (fun k => is_video_service_name k && match services v !! k with Some s => is_subed id s | None => false end = true)
    (map_to_list (services v)).*1.
Definition get_subbed_displays_count (id : Z) v : nat := length (subed_displays id v).

Definition capture_display conn (names : list str) (include exclude : bool) v name : Server T :=
  if is_video_service_name name then
    if bool_decide (name ∈ names) then (if include then subscribe name conn true v else v)
    else (if exclude then subscribe name conn false v else v)
  else v.

Definition capture_displays conn (src : VideoSource) (displays : list Z) (include exclude : bool) v : Server T :=
  let names := get_service_name src <$> displays in
  foldl (capture_display conn names include exclude) v (map_to_list (services v)).*1.

(** ** Lemmas *)

Lemma starts_with_app (p s : str) : starts_with p (p ++ s) = true.
Proof.
  unfold starts_with. apply bool_decide_eq_true_2. exists s. induction p as [|c p IH]; simpl; [done|].
  rewrite Z.eqb_refl. exact IH.
Qed.

(** Whether connection [id] follows service [name]. *)
Definition follows (id : Z) name v : bool :=
  match services v !! name with Some s => is_subed id s | None => false end.

Lemma is_subed_subscribe conn id (s : ServiceInner T) :
  is_subed id (on_subscribe conn s) = bool_decide (id = sub_id conn) || is_subed id s.
Proof.
  unfold is_subed, on_subscribe. destruct (decide (id = sub_id conn)) as [->|Hne].
  - rewrite (bool_decide_eq_true_2 (_ = _)) by done. simpl.
    destruct (bool_decide (is_Some (subscribes s !! sub_id conn))) eqn:E; [by rewrite E|].
    destruct (need_snapshot s); simpl; rewrite lookup_insert_eq, (bool_decide_eq_true_2 (is_Some (Some _))) by done;
      [apply orb_true_r|done].
  - rewrite (bool_decide_eq_false_2 (_ = _)) by done. simpl.
    destruct (bool_decide (is_Some (subscribes s !! sub_id conn))); [done|].
    destruct (need_snapshot s); simpl; by rewrite lookup_insert_ne.
Qed.

Lemma is_subed_unsubscribe id id' (s : ServiceInner T) : svc_ok s ->
  is_subed id' (on_unsubscribe id s) = negb (bool_decide (id' = id)) && is_subed id' s.
Proof.
  intros Hok. unfold is_subed, on_unsubscribe. destruct (decide (id' = id)) as [->|Hne].
  - rewrite (bool_decide_eq_true_2 (_ = _)) by done. simpl. destruct (subscribes s !! id) eqn:E; simpl.
    + rewrite lookup_delete_eq. destruct (new_subscribes s !! id) eqn:E'; [|done].
      by rewrite (so_disjoint s Hok id _ E') in E.
    + by rewrite E, lookup_delete_eq.
  - rewrite (bool_decide_eq_false_2 (_ = _)) by done. simpl.
    destruct (subscribes s !! id); simpl; by rewrite lookup_delete_ne.
Qed.

Lemma name_subscribe conn (s : ServiceInner T) : s_name (on_subscribe conn s) = s_name s.
Proof. unfold on_subscribe. by repeat case_match. Qed.
Lemma name_unsubscribe id (s : ServiceInner T) : s_name (on_unsubscribe id s) = s_name s.
Proof. unfold on_unsubscribe. by repeat case_match. Qed.

(** The registry's invariant: services are stored under their names. *)
Definition reg_ok v : Prop := forall name s, services v !! name = Some s -> s_name s = name /\ svc_ok s.

Lemma video_name_starts src idx : is_video_service_name (get_service_name src idx) = true.
Proof. unfold is_video_service_name, get_service_name. destruct src; by rewrite starts_with_app, ?orb_true_r. Qed.

Lemma service_name_inj src src' i j : get_service_name src i = get_service_name src' j -> src = src' /\ i = j.
Proof.
  destruct src, src'; unfold get_service_name; intros Heq;
    first [apply (f_equal head) in Heq; discriminate Heq | apply (inj (app _)), fmt_Z_inj in Heq; by subst].
Qed.

Context `{!SubscriberLaws M T}.

Lemma subscribe_svc_ok conn (s : ServiceInner T) : svc_ok s -> svc_ok (on_subscribe conn s).
Proof. apply (apply_op_ok (Subscribe conn)). Qed.
Lemma unsubscribe_svc_ok id (s : ServiceInner T) : svc_ok s -> svc_ok (on_unsubscribe id s).
Proof. apply (apply_op_ok (Unsubscribe id)). Qed.

Lemma follows_subscribe name conn sub id n v : reg_ok v ->
  follows id n (subscribe name conn sub v)
  = if bool_decide (n = name) && bool_decide (id = sub_id conn) && contains n v then sub else follows id n v.
Proof.
  intros Hok. unfold follows, subscribe, contains. destruct (services v !! name) as [s|] eqn:Hs.
  - destruct (Hok _ _ Hs) as [_ Hsvc]. destruct (decide (n = name)) as [->|Hne].
    + rewrite (bool_decide_eq_true_2 (_ = _)), Hs, (bool_decide_eq_true_2 (is_Some _)), andb_true_r by done. simpl.
      destruct (Bool.eqb _ _) eqn:E.
      * apply Bool.eqb_prop in E. rewrite Hs. case_bool_decide; [by subst|done].
      * apply Bool.eqb_false_iff in E. destruct sub; simpl; rewrite lookup_insert_eq.
        -- rewrite is_subed_subscribe. by case_bool_decide.
        -- rewrite is_subed_unsubscribe by done. by case_bool_decide.
    + rewrite (bool_decide_eq_false_2 (_ = _)) by done. simpl.
      destruct (Bool.eqb _ _); [done|]. destruct sub; simpl; by rewrite lookup_insert_ne.
  - destruct (decide (n = name)) as [->|Hne]; rewrite ?Hs; simpl; [by rewrite andb_false_r|].
    rewrite (bool_decide_eq_false_2 (_ = _)) by done. done.
Qed.

Lemma subscribe_keys name conn sub v n : contains n (subscribe name conn sub v) = contains n v.
Proof.
  unfold contains, subscribe. apply bool_decide_ext. destruct (services v !! name) eqn:Hs; [|done].
  destruct (Bool.eqb _ _); [done|]. destruct sub; simpl;
    (destruct (decide (n = name)) as [->|]; [rewrite lookup_insert_eq, Hs; split; eauto|by rewrite lookup_insert_ne]).
Qed.

Lemma subscribe_reg_ok name conn sub v : reg_ok v -> reg_ok (subscribe name conn sub v).
Proof.
  intros Hok n s. unfold subscribe. destruct (services v !! name) eqn:Hs; [|apply Hok].
  destruct (Hok _ _ Hs) as [Hn Hsvc]. destruct (Bool.eqb _ _); [apply Hok|]. destruct sub; simpl;
    (destruct (decide (n = name)) as [->|]; [rewrite lookup_insert_eq; intros [= <-]|rewrite lookup_insert_ne by done; apply Hok]).
  - rewrite name_subscribe. auto using subscribe_svc_ok.
  - rewrite name_unsubscribe. auto using unsubscribe_svc_ok.
Qed.

Lemma add_service_reg_ok (s : ServiceInner T) v : svc_ok s -> reg_ok v -> reg_ok (add_service s v).
Proof.
  intros Hs Hok n s'. simpl. destruct (decide (n = s_name s)) as [->|]; [rewrite lookup_insert_eq; by intros [= <-]|].
  rewrite lookup_insert_ne by done. apply Hok.
Qed.

(** One pass of [capture_displays] over a list of distinct names. *)
Lemma follows_capture conn names include exclude (keys : list str) id n v : NoDup keys -> reg_ok v ->
  let v' := foldl (capture_display conn names include exclude) v keys in
  reg_ok v' /\ follows id n v' =
    if bool_decide (n ∈ keys) && bool_decide (id = sub_id conn) && is_video_service_name n && contains n v
    then if bool_decide (n ∈ names) then include || follows id n v else negb exclude && follows id n v
    else follows id n v.
Proof.
  intros Hnd. revert v. induction Hnd as [|k keys Hk Hnd IH]; intros v Hok; simpl; [done|].
  set (v1 := capture_display conn names include exclude v k).
  assert (Hok1 : reg_ok v1) by (unfold v1, capture_display; repeat case_match; auto using subscribe_reg_ok).
  assert (Hkeys : contains n v1 = contains n v)
    by (unfold v1, capture_display; repeat case_match; auto using subscribe_keys).
  destruct (IH v1 Hok1) as [Hok' ->]. split; [done|]. rewrite Hkeys.
  assert (Hf : follows id n v1 =
    if bool_decide (n = k) && bool_decide (id = sub_id conn) && is_video_service_name n && contains n v
    then if bool_decide (n ∈ names) then include || follows id n v else negb exclude && follows id n v
    else follows id n v).
  { unfold v1, capture_display. destruct (decide (n = k)) as [<-|Hne].
    - rewrite (bool_decide_eq_true_2 (n = n)) by done. simpl.
      destruct (is_video_service_name n), (bool_decide (n ∈ names)), include, exclude;
        rewrite ?follows_subscribe by done; rewrite ?(bool_decide_eq_true_2 (n = n)) by done; simpl;
        rewrite ?andb_true_r, ?andb_false_r; try done; by destruct (bool_decide _ && contains n v).
    - rewrite (bool_decide_eq_false_2 (n = k)) by done. simpl.
      repeat case_match; try done; rewrite follows_subscribe by done; by rewrite (bool_decide_eq_false_2 (n = k)) by done. }
  destruct (decide (n = k)) as [->|Hne].
  - rewrite (bool_decide_eq_false_2 (k ∈ keys)), (bool_decide_eq_true_2 (k ∈ k :: keys)) by (done || set_solver). simpl.
    rewrite Hf. by rewrite (bool_decide_eq_true_2 (k = k)) by done.
  - rewrite (bool_decide_eq_false_2 (n = k)) in Hf by done. simpl in Hf. rewrite Hf.
    by rewrite (bool_decide_ext (n ∈ k :: keys) (n ∈ keys)) by set_solver.
Qed.

Lemma capture_spec conn src displays include exclude id n v : reg_ok v ->
  reg_ok (capture_displays conn src displays include exclude v)
  /\ follows id n (capture_displays conn src displays include exclude v) =
    if bool_decide (id = sub_id conn) && is_video_service_name n && contains n v
    then if bool_decide (n ∈ get_service_name src <$> displays) then include || follows id n v else negb exclude && follows id n v
    else follows id n v.
Proof.
  intros Hok. unfold capture_displays.
  destruct (follows_capture conn (get_service_name src <$> displays) include exclude _ id n v (NoDup_fst_map_to_list (services v)) Hok)
    as [Hok' ->].
  split; [done|]. destruct (contains n v) eqn:Hc; [|by rewrite !andb_false_r].
  rewrite (bool_decide_eq_true_2 (n ∈ _)); [done|]. apply bool_decide_eq_true in Hc as [s Hs].
  apply list_elem_of_fmap. exists (n, s). split; [done|]. by apply elem_of_map_to_list.
Qed.

(** ** Histories of the registry *)

Inductive Cmd :=
| CAddVideo (src : VideoSource) (idx : Z)
| CAddCamera (exists_ : bool) | CAddPrimary (primary : Z)
| COpen (primary : Z) (conn : T) (noperms : list str)
| COpenCamera (exists_ : bool) (conn : T)
| CClose (id : Z)
| CSubscribe (name : str) (conn : T) (sub : bool)
| CCapture (conn : T) (src : VideoSource) (displays : list Z) (include exclude : bool)
| COpt (display : option (VideoSource * Z)) (opt value : str)
| CNewId.

Definition exec (c : Cmd) v : Server T :=
  match c with
  | CAddVideo src idx => if contains (get_service_name src idx) v then v else add_service (video_service src idx) v
  | CAddCamera e => try_add_primary_camera_service e v
  | CAddPrimary p => try_add_primay_video_service p v
  | COpen p conn noperms => add_connection p conn noperms v
  | COpenCamera e conn => add_camera_connection e conn v
  | CClose id => remove_connection id v
  | CSubscribe n conn sub => subscribe n conn sub v
  | CCapture conn src ds i e => capture_displays conn src ds i e v
  | COpt d o x => set_video_service_opt d o x v
  | CNewId => (get_new_id v).2
  end.

Lemma new_reg_ok seed e x : reg_ok (server_new seed e x).
Proof.
  unfold server_new. destruct e, x; repeat (apply add_service_reg_ok; [apply new_service_ok|]);
    intros n s; simpl; by rewrite lookup_empty.
Qed.

Lemma fmap_reg_ok (f : ServiceInner T -> ServiceInner T) v cs :
  (forall s, svc_ok s -> s_name (f s) = s_name s /\ svc_ok (f s)) -> reg_ok v -> reg_ok (MkServer cs (f <$> services v) (id_count v)).
Proof.
  intros Hf Hok n s. simpl. rewrite lookup_fmap. destruct (services v !! n) eqn:Hs; [|done]. simpl. intros [= <-].
  destruct (Hok _ _ Hs) as [<- Hsvc]. auto.
Qed.

Lemma set_option_ok opt x (s : ServiceInner T) : svc_ok s -> svc_ok (set_option opt x s).2.
Proof. intros []. by split. Qed.

Lemma exec_reg_ok c v : reg_ok v -> reg_ok (exec c v).
Proof.
  intros Hok. destruct c; simpl; unfold try_add_primary_camera_service, try_add_primay_video_service.
  1-3: repeat case_match; try done; apply add_service_reg_ok; [apply new_service_ok|done].
  - refine (fmap_reg_ok _ _ _ _ Hok). intros s Hs. case_match; [|done]. rewrite name_subscribe. auto using subscribe_svc_ok.
  - intros n s. unfold add_camera_connection. destruct exists_; simpl; [|apply Hok].
    destruct (decide (get_service_name Camera PRIMARY_CAMERA_IDX = n)) as [<-|Hne]; [|rewrite lookup_alter_ne by done; apply Hok].
    rewrite lookup_alter_eq. destruct (services v !! _) eqn:Hs; [|done]. simpl. intros [= <-].
    destruct (Hok _ _ Hs) as [Hn Hsvc]. rewrite name_subscribe. auto using subscribe_svc_ok.
  - refine (fmap_reg_ok _ _ _ _ Hok). intros s Hs. rewrite name_unsubscribe. split; [done|by apply unsubscribe_svc_ok].
  - by apply subscribe_reg_ok.
  - by apply (capture_spec conn src displays include exclude 0 []).
  - intros n s. simpl. rewrite map_lookup_imap. destruct (services v !! n) eqn:Hs; [|done]. simpl. intros [= <-].
    destruct (Hok _ _ Hs) as [Hn Hsvc]. repeat case_match; (split; [done|]); first [done|by apply set_option_ok].
  - exact Hok.
Qed.

Lemma follows_remove id id' n v : reg_ok v ->
  follows id' n (remove_connection id v) = negb (bool_decide (id' = id)) && follows id' n v.
Proof.
  intros Hok. unfold follows. simpl. rewrite lookup_fmap. destruct (services v !! n) eqn:Hs; simpl; [|by rewrite andb_false_r].
  apply is_subed_unsubscribe, (Hok _ _ Hs).
Qed.

Lemma follows_open primary conn noperms id n v : reg_ok v ->
  follows id n (add_connection primary conn noperms v) =
  (bool_decide (id = sub_id conn) && contains n v && follows_on_open primary noperms n) || follows id n v.
Proof.
  intros Hok. unfold follows, contains. simpl. rewrite lookup_fmap. destruct (services v !! n) eqn:Hs; simpl; [|by rewrite andb_false_r].
  destruct (Hok _ _ Hs) as [-> _]. rewrite andb_true_r.
  destruct (follows_on_open primary noperms n); [|by rewrite andb_false_r]. by rewrite is_subed_subscribe, andb_true_r.
Qed.

End Server.

(** ** Claims *)

Module ServerRegClaims.

Section Claims.
Context {M T : Type} `{!Subscriber M T, !SubscriberLaws M T}.
Implicit Types (v : Server T).

Definition history (seed : Z) (embedded x11 : bool) (cs : list (@Cmd T)) : Server T :=
  foldl (fun v c => exec c v) (server_new seed embedded x11) cs.

Lemma history_ok seed e x cs : reg_ok (history seed e x cs).
Proof.
  unfold history. generalize (new_reg_ok seed e x). generalize (server_new (T := T) seed e x).
  induction cs as [|c cs IH]; intros v Hv; simpl; [done|]. apply IH. by apply exec_reg_ok.
Qed.

(** After any history of the server, choosing a set of displays makes the
    connection follow exactly the chosen displays of that source that exist, no
    display of the other source, and leaves every other service and every other
    connection as they were. *)
Theorem capture_follows_exactly (seed : Z) (embedded x11 : bool) (cs : list (@Cmd T)) (conn : T) (src : VideoSource)
    (displays : list Z) (id : Z) (name : str) :
  let v := history seed embedded x11 cs in
  let v' := capture_displays conn src displays true true v in
  (forall src' idx, contains (get_service_name src' idx) v = true ->
     follows (sub_id conn) (get_service_name src' idx) v' = bool_decide (src' = src /\ idx ∈ displays))
  /\ (is_video_service_name name = false \/ id <> sub_id conn -> follows id name v' = follows id name v).
Proof.
  intros v v'. pose proof (history_ok seed embedded x11 cs : reg_ok v) as Hok. split.
  - intros src' idx Hc. unfold v'. destruct (capture_spec conn src displays true true (sub_id conn) (get_service_name src' idx) v Hok) as [_ ->].
    rewrite (bool_decide_eq_true_2 (_ = _)), video_name_starts, Hc by done. simpl.
    rewrite (bool_decide_ext (get_service_name src' idx ∈ get_service_name src <$> displays) (src' = src /\ idx ∈ displays));
      [by case_bool_decide|].
    rewrite list_elem_of_fmap. split.
    + intros (j & [-> ->]%service_name_inj & Hj). done.
    + intros [-> Hi]. eauto.
  - intros Hne. unfold v'. destruct (capture_spec conn src displays true true id name v Hok) as [_ ->].
    destruct Hne as [Hn|Hn]; [rewrite Hn, andb_false_r|rewrite (bool_decide_eq_false_2 (id = _)) by done]; done.
Qed.

(** A new remote connection follows the primary display and the services its
    permissions allow, and nothing else; when it is removed it follows nothing,
    and no other connection is affected by either. *)
Theorem connection_follows_permitted (seed : Z) (embedded x11 : bool) (cs : list (@Cmd T)) (conn : T) (primary : Z)
    (noperms : list str) (name : str) (id : Z) :
  let v := history seed embedded x11 cs in
  let opened := add_connection primary conn noperms v in
  let closed := remove_connection (sub_id conn) opened in
  (follows (sub_id conn) name v = false -> follows (sub_id conn) name opened = true ->
     contains name v = true /\ (name ∉ noperms)
     /\ (is_video_service_name name = true -> name = get_service_name Monitor primary))
  /\ follows (sub_id conn) name closed = false
  /\ (id <> sub_id conn -> follows id name opened = follows id name v /\ follows id name closed = follows id name v).
Proof.
  intros v opened closed. pose proof (history_ok seed embedded x11 cs : reg_ok v) as Hok.
  pose proof (exec_reg_ok (COpen primary conn noperms) v Hok : reg_ok opened) as Hok'.
  assert (Hother : id <> sub_id conn -> follows id name opened = follows id name v).
  { intros Hne. unfold opened. rewrite follows_open by done. by rewrite (bool_decide_eq_false_2 (id = _)) by done. }
  split_and!.
  - unfold opened. rewrite follows_open by done. intros -> Ho. rewrite orb_false_r in Ho.
    unfold follows_on_open in Ho. bools. split_and!; [done..|]. intros Hv.
    match goal with H : _ && _ = false |- _ => rewrite Hv in H; simpl in H end. bools. done.
  - unfold closed. rewrite follows_remove by done. by rewrite (bool_decide_eq_true_2 (_ = _)) by done.
  - intros Hne. split; [auto|]. unfold closed. rewrite follows_remove by done.
    rewrite (bool_decide_eq_false_2 (id = _)) by done. auto.
Qed.

End Claims.

(** A view of two monitors and a camera: connection 3 follows both monitors, then
    chooses the camera. *)
Definition setup : list (@Cmd ServiceClaims.Inbox) :=
  [CAddVideo Monitor 0; CAddVideo Monitor 1; CAddVideo Camera 0;
   CCapture (ServiceClaims.MkInbox 3 []) Monitor [0; 1] true true].

Lemma capture_follows_exactly_witness :
  let v := history 7 false true setup in
  let v' := capture_displays (ServiceClaims.MkInbox 3 []) Camera [0] true true v in
  follows 3 (get_service_name Monitor 1) v = true
  /\ follows 3 (get_service_name Monitor 1) v' = false /\ follows 3 (get_service_name Camera 0) v' = true.
Proof.
  destruct (capture_follows_exactly 7 false true setup (ServiceClaims.MkInbox 3 []) Camera [0] 3 AUDIO_NAME) as [Hf _].
  split_and!; [vm_compute; reflexivity| |]; [apply (Hf Monitor 1)|apply (Hf Camera 0)]; vm_compute; reflexivity.
Defined.

Lemma connection_follows_permitted_witness :
  let v := history 7 false true setup in
  let opened := add_connection 0 (ServiceClaims.MkInbox 9 []) [CLIPBOARD_NAME] v in
  follows 9 AUDIO_NAME opened = true /\ (AUDIO_NAME ∉ [CLIPBOARD_NAME])
  /\ follows 9 AUDIO_NAME (remove_connection 9 opened) = false.
Proof.
  destruct (connection_follows_permitted 7 false true setup (ServiceClaims.MkInbox 9 []) 0 [CLIPBOARD_NAME] AUDIO_NAME 9)
    as (Ho & Hc & _).
  assert (Hopen : follows 9 AUDIO_NAME (add_connection 0 (ServiceClaims.MkInbox 9 []) [CLIPBOARD_NAME] (history 7 false true setup)) = true)
    by (vm_compute; reflexivity).
  split_and!; [exact Hopen| |exact Hc]. destruct Ho as (_ & Hn & _); [vm_compute; reflexivity|exact Hopen|exact Hn].
Defined.

End ServerRegClaims.
