(* ===== verification/ConnState.v ===== *)
(** * The state of a host connection, its effects and its environment

    Models the data of [client/src/server/connection.rs] (Linux build with the
    desktop interface): [Conn] is the [Connection] structure, [Glob] the statics
    that connections share (with the server of [ServerReg] behind its weak
    pointer), [Effect] what a connection does to the outside, [Env] what the
    outside answers while one event is handled.  Channels to the input thread, the
    connection manager and the peer appear as the effects of sending on them.
    Fields that are only logged or read on other platforms are left out. *)
From stdpp Require Import base gmap list strings.
From Stdlib Require Import ZArith Lia.
From S2P Require Import Prelude RustStr Effects Message SessionScope Service ServerReg LoginFailure Float.

#[local] Open Scope Z_scope.

(** ** Subscribers *)

(** The receiving end of a connection: what was queued, and whether on the video
    channel. *)
Record ConnInner := MkInner' { ci_id : Z; ci_queue : list (bool * Message) }.

(** [SwitchDisplay] shares the channel of the video frames, to keep their order. *)
Definition tx_by_video (m : Message) : bool :=
  match m with
  | Msg_VideoFrame _ => true
  | Msg_Misc (Some (Misc_SwitchDisplay _ _ _)) => true
  | _ => false
  end.

#[global] Instance ConnInner_subscriber : Subscriber Message ConnInner :=
  {| sub_id := ci_id;
     sub_send m t := MkInner' (ci_id t) (ci_queue t ++ [(tx_by_video m, m)]);
     received t := (ci_queue t).*2 |}.
#[global] Instance ConnInner_laws : SubscriberLaws Message ConnInner.
Proof. split; [done|]. intros m t. simpl. by rewrite fmap_app. Qed.

(** ** Shared data *)

Inductive ConnAuditPrimaryAuth := PaNone | PaClick | PaTemporaryPassword | PaPermanentPassword | PaSwitchSides.
#[global] Instance ConnAuditPrimaryAuth_eq_dec : EqDecision ConnAuditPrimaryAuth.
Proof. solve_decision. Defined.
Inductive ConnAuditTwoFactor := TfNone | TfTotp | TfTrustedDevice.
#[global] Instance ConnAuditTwoFactor_eq_dec : EqDecision ConnAuditTwoFactor.
Proof. solve_decision. Defined.

Definition primary_auth_as_i64 (a : ConnAuditPrimaryAuth) : Z :=
  match a with PaNone => 0 | PaClick => 1 | PaTemporaryPassword => 2 | PaPermanentPassword => 3 | PaSwitchSides => 4 end.
Definition two_factor_as_i64 (a : ConnAuditTwoFactor) : Z := match a with TfNone => 0 | TfTotp => 1 | TfTrustedDevice => 2 end.

(** [SessionKey]: peer id, name, session id. *)
Abbreviation SessionKey := (str * str * Z)%type.
(** A session's [last_recv_time] is shared with its connection: a location of the
    clocks in [Glob]. *)
Record Session := MkSess { last_recv_time : nat; random_password : str; tfa : bool }.
#[global] Instance eta_session : EtaRecord Session := fun s => MkSess (last_recv_time s) (random_password s) (tfa s).

Record AuthedConn := MkAuthed { ac_conn_id : Z; ac_conn_type : AuthConnType; ac_session_key : SessionKey; ac_printer : bool }.

(** The state behind [check_update_temporary_password]. *)
Record TempState := MkTemp { ts_password : str; ts_failures : Z }.

Record Glob := MkGlob {
  g_sessions : gmap SessionKey Session;      (** [SESSIONS] *)
  g_clocks : list Z;                         (** the shared receive times *)
  g_authed : list AuthedConn;                (** [AUTHED_CONNS] *)
  g_failures : FailureTables;                (** [LOGIN_FAILURES] and the credential policy *)
  g_temp : TempState;                        (** [TEMPORARY_PASSWORD_FAILURES] *)
  g_temp_password : str;                     (** [password::temporary_password()] *)
  g_pending : gmap str (Z * bytes);          (** [PENDING_SWITCH_SIDES_UUID] *)
  g_server : option (Server ConnInner);      (** the server, while it is alive *)
}.
#[global] Instance eta_glob : EtaRecord Glob := fun g =>
  MkGlob (g_sessions g) (g_clocks g) (g_authed g) (g_failures g) (g_temp g) (g_temp_password g) (g_pending g) (g_server g).

(** ** Keys of the input library *)

Inductive RdevKey := ShiftLeft | ShiftRight | ControlLeft | ControlRight | MetaLeft | MetaRight | Alt | AltGr | OtherKey (code : Z).
#[global] Instance RdevKey_eq_dec : EqDecision RdevKey.
Proof. solve_decision. Defined.

(** ** Messages to the connection manager *)

Inductive FS :=
| FS_ReadEmptyDirs (dir : str) (include_hidden : bool)
| FS_ReadDir (dir : str) (include_hidden : bool)
| FS_NewWrite (path : str) (id file_num : Z) (files : list (str * Z)) (overwrite_detection : bool) (total_size conn_id : Z)
| FS_RemoveDir (path : str) (id : Z) (recursive : bool)
| FS_RemoveFile (path : str) (id file_num : Z)
| FS_CreateDir (path : str) (id : Z)
| FS_CancelWrite (id : Z)
| FS_CancelRead (id conn_id : Z)
| FS_SendConfirmForRead (id file_num : Z) (skip : bool) (offset_blk conn_id : Z)
| FS_SendConfirm (r : SendConfirmRequest)
| FS_Rename (id : Z) (path new_name : str)
| FS_WriteBlock (id file_num : Z) (data : bytes) (compressed : bool)
| FS_WriteDone (id file_num : Z)
| FS_CheckDigest (id file_num file_size last_modified : Z) (is_upload is_resume : bool)
| FS_WriteError (id file_num : Z) (err : str).

Inductive FileLog :=
| LogAction (kind : string) (id conn_id : Z) (path : str) (dir : bool)
| LogRename (conn_id : Z) (path new_name : str)
| LogTransfer (jobs : list Z) (cancelled : bool).

Record CmLogin := MkCmLogin {
  cl_is_file_transfer : bool; cl_is_view_camera : bool; cl_is_terminal : bool; cl_port_forward : str;
  cl_peer_id : str; cl_name : str; cl_authorized : bool; cl_keyboard : bool; cl_clipboard : bool; cl_audio : bool;
  cl_file : bool; cl_restart : bool; cl_recording : bool; cl_block_input : bool; cl_privacy_mode : bool }.

Inductive CmData :=
| Cm_FS (f : FS)
| Cm_Login (l : CmLogin)
| Cm_ChatMessage (text : str)
| Cm_FileTransferLog (l : FileLog)
| Cm_VoiceCallIncoming | Cm_StartVoiceCall | Cm_CloseVoiceCall
| Cm_SwitchPermission (name : string) (enabled : bool)
| Cm_Disconnected | Cm_Close.

(** ** Input *)

Inductive MessageInput :=
| In_Mouse (e : MouseEvent) (conn_id : Z) (username : str) (argb : Z) (simulate show_cursor : bool)
| In_Key (e : KeyEvent) (press : bool)
| In_Pointer (e : bytes) (conn_id : Z)
| In_BlockOn | In_BlockOff.

(** ** Calls on the video quality controller *)

Inductive QosCall :=
| Q_image_quality (q : Z) | Q_custom_fps (fps : Z) | Q_auto_adjust_fps (fps : Z) | Q_record (b : bool)
| Q_network_delay (ms : Z) | Q_delay_response_elapsed (ms : Z) | Q_open | Q_close.

Inductive FileAuditType := RemoteSend | RemoteReceive.

Inductive Audit :=
| ConnAudit_new | ConnAudit_close | ConnAudit_authorized (conn_type primary two_factor : Z)
| FileAudit (t : FileAuditType) (path : str) (num : Z) (files : list (str * Z)) (is_file : bool)
| Alarm (t : AlarmAuditType)
| ScopeAlarm (conn_type message : string).

Inductive Effect :=
| Send (m : Message)                 (** to the peer *)
| SendRaw (data : bytes)             (** a message the connection manager encoded *)
| ToCm (d : CmData)
| ToInput (i : MessageInput)
| TouchClick | TouchMove             (** [CLICK_TIME], [MOUSE_MOVE_TIME] *)
| UpdateClipboard (cs : list bytes)
| Qos (c : QosCall)
| EncoderUpdate (decoding : bytes) | EncoderNewOnlyVP9 | EncoderRemove
| ForceReboot | Reboot
| LockScreen
| RunConnect (peer : str) (uuid : bytes)
| PrivacyOn (impl_key : str) | PrivacyOff (conn_id : Z)
| SetResolution (display : str) (original : Z * Z) (r : Resolution)
| PostAudit (a : Audit)
| ResetVoiceInput | SetVoiceInput
| StartAudioThread (format : bytes) | PlayAudio (frame : bytes)
| TakeScreenshot (src : VideoSource) (display : Z) (sid : str)
| RefreshVideo
| FrameFetched
| TerminalAct (service_id : str) (persistent : bool) (action : bytes)
| TerminalSetPersistent (service_id : str) (persistent : bool)
| TerminalStart (service_id : str) (persistent : bool)
| TerminalJoin
| Whiteboard (register : bool)
| ConfirmJob (r : SendConfirmRequest)
| UpdateTemporaryPassword
| StartCmIpc
| WakeLock (conn_count remote_count : Z)
| ReleaseKey (k : RdevKey)
| ConnectTcp (addr : str)
| ForwardOut (data : bytes)          (** to the forwarded socket *)
| StartDesktop
| RestoreDesktop                     (** wallpaper, resolutions, capture session *)
| RemoveWallpaper | ActivateScreen | SetupRdpInput | RecordCursor (on : bool)
| WaitDesktopReady
| HomedeskSession (peer ip : str) (start : bool)
| Pause (seconds : Z).

(** ** The connection *)

Record TransferJob := MkJob { job_id : Z; job_type : JobType; job_files : list FileEntry }.

Record FileRemoveLogControl := MkRemoveLog {
  rl_conn_id : Z; rl_instant : Z; removed_files : list FileRemoveFile; removed_dirs : list FileRemoveDir }.
#[global] Instance eta_remove_log : EtaRecord FileRemoveLogControl := fun r =>
  MkRemoveLog (rl_conn_id r) (rl_instant r) (removed_files r) (removed_dirs r).

Record Conn := MkConn {
  c_id : Z;
  c_permit : option str;               (** [nestlink_permit]: the permit's id *)
  c_homedesk_session : bool;           (** [homedesk_session] is set *)
  c_salt : str; c_challenge : str;     (** [hash] *)
  c_display_idx : Z;
  c_read_jobs : list TransferJob;
  c_file_transfer : option (str * bool);
  c_view_camera : bool;
  c_terminal : bool;
  c_pf_socket : bool;                  (** [port_forward_socket] is open *)
  c_pf_address : str;
  c_authorized : bool;
  c_keyboard : bool; c_clipboard : bool; c_audio : bool; c_file : bool;
  c_restart : bool; c_recording : bool; c_block_input : bool; c_privacy_mode : bool;
  c_control_permissions : option Z;
  c_last_test_delay : option Z;
  c_network_delay : Z;
  c_lock_after_session_end : bool;
  c_show_remote_cursor : bool;
  c_ip : str;
  c_disable_keyboard : bool; c_show_my_cursor : bool; c_disable_clipboard : bool; c_disable_audio : bool;
  c_audio_sender : bool;
  c_video_ack_required : bool;
  c_audit_conn : bool; c_audit_file : bool;   (** an audit server is known *)
  c_lr : LoginRequest;
  c_peer_argb : Z;
  c_session_recv : option nat;         (** [session_last_recv_time]: a location *)
  c_chat_unanswered : bool;
  c_file_transferred : bool;
  c_voice_call_request_timestamp : option Z;
  c_voice_calling : bool;
  c_options_in_login : option OptionMessage;
  c_pressed_modifiers : list RdevKey;  (** a set *)
  c_closed : bool;
  c_cm_ipc_pending : bool;             (** [start_cm_ipc_para] not taken yet *)
  c_auto_disconnect_timer : option (Z * Z);
  c_authed : option AuthConnType;      (** [authed_conn_id] *)
  c_remove_log : FileRemoveLogControl;
  c_services_subed : bool;
  c_delayed_read_dir : option (str * bool);
  c_follow_remote_cursor : bool; c_follow_remote_window : bool;
  c_multi_ui_session : bool;
  c_printer_data : list (Z * str * bytes);
  c_primary_auth : ConnAuditPrimaryAuth;
  c_two_factor : ConnAuditTwoFactor;
  c_cm_read_job_ids : gset Z;
  c_terminal_service_id : str;
  c_terminal_persistent : bool;
  c_scope_violations : list string;    (** a set *)
  c_terminal_user_token : bool;
  c_terminal_service : bool;           (** [terminal_generic_service] is set *)
  c_last_recv : Z;                     (** [last_recv_time], a local of the loop *)
}.
#[global] Instance eta_conn : EtaRecord Conn := fun c =>
  MkConn (c_id c) (c_permit c) (c_homedesk_session c) (c_salt c) (c_challenge c) (c_display_idx c) (c_read_jobs c)
    (c_file_transfer c) (c_view_camera c) (c_terminal c) (c_pf_socket c) (c_pf_address c) (c_authorized c)
    (c_keyboard c) (c_clipboard c) (c_audio c) (c_file c) (c_restart c) (c_recording c) (c_block_input c)
    (c_privacy_mode c) (c_control_permissions c) (c_last_test_delay c) (c_network_delay c)
    (c_lock_after_session_end c) (c_show_remote_cursor c) (c_ip c) (c_disable_keyboard c) (c_show_my_cursor c)
    (c_disable_clipboard c) (c_disable_audio c) (c_audio_sender c) (c_video_ack_required c) (c_audit_conn c)
    (c_audit_file c) (c_lr c) (c_peer_argb c) (c_session_recv c) (c_chat_unanswered c) (c_file_transferred c)
    (c_voice_call_request_timestamp c) (c_voice_calling c) (c_options_in_login c) (c_pressed_modifiers c)
    (c_closed c) (c_cm_ipc_pending c) (c_auto_disconnect_timer c) (c_authed c) (c_remove_log c)
    (c_services_subed c) (c_delayed_read_dir c) (c_follow_remote_cursor c) (c_follow_remote_window c)
    (c_multi_ui_session c) (c_printer_data c) (c_primary_auth c) (c_two_factor c) (c_cm_read_job_ids c)
    (c_terminal_service_id c) (c_terminal_persistent c) (c_scope_violations c) (c_terminal_user_token c)
    (c_terminal_service c) (c_last_recv c).

Record St := MkSt { conn : Conn; glob : Glob }.
#[global] Instance eta_st : EtaRecord St := fun s => MkSt (conn s) (glob s).

(** ** The environment *)

Record DisplayInfo := MkDisplayInfo { di_name : str; di_width : Z; di_height : Z }.

(** A display as the display service reports it; [sd_scale] is a binary64. *)
Record SyncDisplay := MkSyncDisplay { sd_x : Z; sd_y : Z; sd_width : Z; sd_height : Z; sd_scale : float }.

(** Answers of the system, of other components and of the clock while one event is
    handled.  Option keys are named by the option they read. *)
Class Env := {
  e_now : Z;                                   (** [Instant::now], ns *)
  e_time : Z;                                  (** [get_time], ms *)
  e_version_number : str -> Z;                 (** [get_version_number] *)
  e_overwrite_detection : Z -> bool;           (** [can_enable_overwrite_detection] *)
  e_one_way_file_transfer : bool;
  e_one_way_clipboard : bool;
  e_scope_violation_alarm : bool;
  e_scope_violation_close : bool;
  e_trusted_devices : bool;                    (** [enable_trusted_devices] *)
  e_alarm_server : bool;                       (** an alarm server is configured *)
  e_iq_value : ImageQuality -> Z;              (** numbers of the protocol's enumeration *)
  e_max_files : Z;                             (** [get_max_validated_files] *)
  e_max_files_key : str;
  e_recursive_files : str -> bool -> result str (list FileEntry);
  e_new_read : Z -> str -> bool -> result str (list FileEntry);  (** [TransferJob::new_read] *)
  e_displays : option (list DisplayInfo);      (** [try_get_displays] *)
  e_primary_display : Z;
  e_sync_displays : list SyncDisplay;          (** [get_sync_displays] *)
  e_camera_exists : bool;
  e_display_changed : Z -> VideoSource -> option Message;
  e_keycode : Z -> RdevKey;                    (** [linux_key_from_code] *)
  e_whiteboard_supported : bool;
  e_privacy_supported : bool;
  e_in_privacy_mode : bool;
  e_privacy_impl : option str;
  e_privacy_impl_current : str -> bool;
  e_privacy_conn : option Z;
  e_privacy_turn_on : option (result str bool);
  e_privacy_check : str;                       (** [check_privacy_mode_err] *)
  e_in_privacy_mode_after : bool;              (** asked again after a failed turn-on *)
  e_privacy_turn_off : option (result str unit);
  e_terminal : bytes -> result str (option bytes);   (** [TerminalServiceProxy::handle_action] *)
  e_auto_disconnect : bool;                    (** [allow-auto-disconnect] is set *)
  e_auto_disconnect_timeout : option Z;        (** its minutes, if the option parses *)
}.

Abbreviation Act := (M St Effect).

Definition getc {A} (f : Conn -> A) : Act A := gets (fun s => f (conn s)).
Definition modc (f : Conn -> Conn) : Act unit := modify (fun s => s <| conn ::= f |>).
Definition getg {A} (f : Glob -> A) : Act A := gets (fun s => f (glob s)).
Definition modg (f : Glob -> Glob) : Act unit := modify (fun s => s <| glob ::= f |>).

(** ** A sample environment

    Every question of a handler answered plainly; used where a property is shown on
    a concrete connection. *)
Module SampleEnv.

Definition env : Env := {|
  e_now := 1000; e_time := 2000; e_version_number := fun _ => 0; e_overwrite_detection := fun _ => true;
  e_one_way_file_transfer := false; e_one_way_clipboard := false; e_scope_violation_alarm := true; e_scope_violation_close := true;
  e_trusted_devices := false; e_alarm_server := false; e_iq_value := fun _ => 1; e_max_files := 100; e_max_files_key := [];
  e_recursive_files := fun _ _ => Ok []; e_new_read := fun _ _ _ => Ok []; e_displays := None; e_primary_display := 0;
  e_sync_displays := []; e_camera_exists := true; e_display_changed := fun _ _ => None; e_keycode := OtherKey;
  e_whiteboard_supported := false; e_privacy_supported := false; e_in_privacy_mode := false; e_privacy_impl := None;
  e_privacy_impl_current := fun _ => false; e_privacy_conn := None; e_privacy_turn_on := None; e_privacy_check := [];
  e_in_privacy_mode_after := false; e_privacy_turn_off := None; e_terminal := fun _ => Ok None;
  e_auto_disconnect := false; e_auto_disconnect_timeout := None |}.

End SampleEnv.
