(* ===== verification/Connection.v ===== *)
(** * Message handling of a host connection

    Models the handlers of [client/src/server/connection.rs]: closing, scope
    violations, options, privacy mode, displays, file actions, and the dispatch
    [on_message] of an authorized connection.  The login request is handled in
    [ConnLogin], which closes the recursion. *)
From stdpp Require Import base gmap list strings.
From Stdlib Require Import ZArith Lia Floats.SpecFloat.
From S2P Require Import Prelude RustStr Effects Message SessionScope Service ServerReg LoginFailure Float ConnState.

#[local] Open Scope Z_scope.

(** [as usize] of a 32-bit integer. *)
Definition as_usize (x : Z) : Z := wrapu 64 x.

(** ** Paths (Unix): components without empty and current-directory parts *)

Definition path_absolute (p : str) : bool := starts_with (lit "/") p.
Definition path_components (p : str) : bool * list str :=
  let parts := filter (fun c => c <> []) (split_char 47 p) in
  let keep := filter (fun c => c <> lit ".") in
  (path_absolute p,
   if path_absolute p then keep parts
   else match parts with [] => [] | c :: r => c :: keep r end).
Definition path_parent (p : str) : option (bool * list str) :=
  let '(abs, cs) := path_components p in
  match cs with [] => None | _ => Some (abs, removelast cs) end.

(** ** The removal log *)

Definition remove_log_new (conn_id now : Z) : FileRemoveLogControl := MkRemoveLog conn_id now [] [].

Definition on_remove_file (now : Z) (f : FileRemoveFile) (r : FileRemoveLogControl) : FileRemoveLogControl * CmData :=
  (r <| rl_instant := now |> <| removed_files ::= fun l => l ++ [f] |>,
   Cm_FileTransferLog (LogAction "remove" (rf_id f) (rl_conn_id r) (rf_path f) false)).

Definition direct_child (parent child : str) : bool := bool_decide (path_parent child = Some (path_components parent)).

Definition on_remove_dir (now : Z) (d : FileRemoveDir) (r : FileRemoveLogControl) : FileRemoveLogControl * CmData :=
  let files := filter (fun f => negb (direct_child (rf_path f) (rd_path d))) (removed_files r) in
  let dirs := filter (fun x => negb (direct_child (rd_path d) (rd_path x))) (removed_dirs r) in
  let dirs := if existsb (fun x => direct_child (rd_path x) (rd_path d)) dirs then dirs else dirs ++ [d] in
  (r <| rl_instant := now |> <| removed_files := files |> <| removed_dirs := dirs |>,
   Cm_FileTransferLog (LogAction "remove" (rd_id d) (rl_conn_id r) (rd_path d) true)).

Definition on_timer (now : Z) (r : FileRemoveLogControl) : list CmData * FileRemoveLogControl :=
  if Z.max 0 (now - rl_instant r) / 1000000000 <? 1 then ([], r)
  else
    (((fun f => Cm_FileTransferLog (LogAction "remove" (rf_id f) (rl_conn_id r) (rf_path f) false)) <$> removed_files r)
     ++ ((fun d => Cm_FileTransferLog (LogAction "remove" (rd_id d) (rl_conn_id r) (rd_path d) true)) <$> removed_dirs r),
     r <| removed_files := [] |> <| removed_dirs := [] |>).

(** ** Keys *)

Definition is_modifier_key (k : RdevKey) : bool := match k with OtherKey _ => false | _ => true end.

Definition is_modifier (e : KeyEvent) : bool :=
  match ke_union e with
  | Some (Ku_ControlKey (Known (CkAlt | CkShift | CkControl | CkMeta | CkRAlt | CkRShift | CkRControl | CkRWin))) => true
  | _ => false
  end.

Definition is_enter (e : KeyEvent) : bool :=
  match ke_union e with Some (Ku_ControlKey (Known (CkReturn | CkNumpadEnter))) => true | _ => false end.

Definition MOUSE_TYPE_UP : Z := 2.
Definition MOUSE_TYPE_MASK : Z := 7.
Definition MOUSE_BUTTON_LEFT : Z := 1.
Definition is_left_up (e : MouseEvent) : bool :=
  (Z.shiftr (me_mask e) 3 =? MOUSE_BUTTON_LEFT) && (Z.land (me_mask e) MOUSE_TYPE_MASK =? MOUSE_TYPE_UP).

(** ** Sorting the audited files, largest first ([sort_by], stable) *)

Fixpoint insert_desc (x : str * Z) (l : list (str * Z)) : list (str * Z) :=
  match l with [] => [x] | y :: r => if x.2 <? y.2 then y :: insert_desc x r else x :: l end.
Definition sort_desc (l : list (str * Z)) : list (str * Z) := foldr insert_desc [] l.

(** ** Permissions of the connection *)

Section Handlers.
Context `{env : Env}.

Definition session_key (c : Conn) : SessionKey := (lr_my_id (c_lr c), lr_my_name (c_lr c), lr_session_id (c_lr c)).

Definition is_authed_remote_conn (c : Conn) : bool := bool_decide (c_authed c = Some Remote).
Definition is_authed_view_camera_conn (c : Conn) : bool := bool_decide (c_authed c = Some ViewCamera).
Definition should_handle_render_broadcast_message (c : Conn) : bool :=
  match c_authed c with Some (Remote | ViewCamera) => true | _ => false end.
Definition should_handle_text_clipboard_message (c : Conn) : bool :=
  match c_authed c with Some Remote => true | _ => false end.

Definition peer_keyboard_enabled (c : Conn) : bool := c_keyboard c && negb (c_disable_keyboard c).
Definition clipboard_enabled (c : Conn) : bool := c_clipboard c && negb (c_disable_clipboard c).
Definition can_sub_clipboard_service (c : Conn) : bool :=
  clipboard_enabled c && peer_keyboard_enabled c && negb e_one_way_clipboard.
Definition audio_enabled (c : Conn) : bool := c_audio c && negb (c_disable_audio c).
Definition is_remote (c : Conn) : bool :=
  negb (bool_decide (is_Some (c_file_transfer c))) && negb (c_pf_socket c) && negb (c_view_camera c) && negb (c_terminal c).
Definition video_source (c : Conn) : VideoSource := if c_view_camera c then Camera else Monitor.

(** ** Sending *)

Definition send (m : Message) : Act unit := emit (Send m).
Definition send_to_cm (d : CmData) : Act unit := emit (ToCm d).
Definition send_fs (f : FS) : Act unit := send_to_cm (Cm_FS f).
Definition send_misc (m : Misc) : Act unit := send (Msg_Misc (Some m)).
Definition new_error (id : Z) (err : str) (file_num : Z) : Message := Msg_FileResponse (Some (Fr_Error id err file_num)).
Definition new_dir (id : Z) (path : str) (files : list FileEntry) : Message := Msg_FileResponse (Some (Fr_Dir id path files)).

Definition REQUIRE_2FA : str := lit "2FA Required".
Definition send_login_error (err : str) : Act unit :=
  send (Msg_LoginResponse (LoginError err (if bool_decide (err = REQUIRE_2FA) then e_trusted_devices else false))).

Definition send_permission (p : Permission) (enabled : bool) : Act unit := send_misc (Misc_PermissionInfo p enabled).

Definition send_block_input_error (state : BlockInputState) (details : str) : Act unit :=
  send_misc (Misc_BlockInputState state details).

(** [if let Some(s) = self.server.upgrade()] *)
Definition on_server (f : Conn -> Server ConnInner -> Server ConnInner) : Act unit :=
  c ← getc id; modg (fun g => g <| g_server ::= fmap (f c) |>).
Definition inner (c : Conn) : ConnInner := MkInner' (c_id c) [].
Definition subscribe_to (name : str) (sub : Conn -> bool) : Act unit :=
  on_server (fun c v => subscribe name (inner c) (sub c) v).

(** ** Audits *)

Definition post_conn_audit (a : Audit) : Act unit := b ← getc c_audit_conn; when b (emit (PostAudit a)).

Definition get_files_for_audit (t : JobType) (files : list FileEntry) : list (str * Z) :=
  (fun f => (if bool_decide (t = Printer) then lit "Remote print" else fe_name f, fe_size f)) <$> files.

Definition post_file_audit (t : FileAuditType) (path : str) (files : list (str * Z)) : Act unit :=
  known ← getc c_audit_file;
  let top := take 10 (sort_desc files) in
  let is_file := bool_decide (length top = 1%nat) && match top with (n, _) :: _ => bool_decide (n = []) | [] => false end in
  when known (emit (PostAudit (FileAudit t path (Z.of_nat (length files)) top is_file))).

Definition post_alarm_audit (t : AlarmAuditType) : Act unit := when e_alarm_server (emit (PostAudit (Alarm t))).

Definition post_session_scope_violation_alarm (message : string) : Act unit :=
  t ← getc c_authed;
  when e_alarm_server
    (emit (PostAudit (ScopeAlarm (match t with Some t => conn_type_as_str t | None => "unknown" end) message))).

(** ** Closing *)

Definition check_remove_session (conn_id : Z) (key : SessionKey) (g : Glob) : Glob :=
  if bool_decide (is_Some (g_sessions g !! key)) then
    let is_remote := existsb (fun a => (ac_conn_id a =? conn_id) && bool_decide (ac_conn_type a = Remote)) (g_authed g) in
    let another_remote := existsb (fun a => negb (ac_conn_id a =? conn_id) && bool_decide (ac_session_key a = key)
                                            && bool_decide (ac_conn_type a = Remote)) (g_authed g) in
    if is_remote || negb another_remote then g <| g_sessions ::= delete key |> else g
  else g.

Definition remove_my_session : Act unit :=
  c ← getc id; modg (check_remove_session (c_id c) (session_key c)).

Definition on_close (lock : bool) : Act unit :=
  c ← getc id;
  if c_closed c then skip
  else
    _ ← modc (fun c => c <| c_closed := true |>);
    _ ← emit ResetVoiceInput;
    _ ← when (lock && c_lock_after_session_end c && c_keyboard c) (emit LockScreen);
    _ ← send_to_cm (if c_chat_unanswered c || c_file_transferred c then Cm_Disconnected else Cm_Close);
    modc (fun c => c <| c_pf_socket := false |>).

Definition send_close_reason_no_retry (reason : str) : Act unit :=
  _ ← send_misc (Misc_CloseReason (if bool_decide (reason = []) then lit "Closed manually by the peer" else reason));
  remove_my_session.

(** ** Scope violations *)

Definition handle_authorized_scope_violation (message : string) : Act bool :=
  seen ← getc c_scope_violations;
  let is_first := negb (bool_decide (message ∈ seen)) in
  _ ← when is_first (modc (fun c => c <| c_scope_violations ::= cons message |>));
  _ ← when (is_first && e_scope_violation_alarm) (post_session_scope_violation_alarm message);
  if e_scope_violation_close then
    _ ← send_close_reason_no_retry (lit "Connection not allowed");
    _ ← on_close true;
    mret false
  else mret true.

Definition update_auto_disconnect_timer : Act unit :=
  modc (fun c => c <| c_auto_disconnect_timer ::= fmap (fun t => (e_now, t.2)) |>).

Definition get_auto_disconenct_timer : option (Z * Z) :=
  if e_auto_disconnect then
    let minute := default 10 e_auto_disconnect_timeout in
    Some (e_now, if minute =? 0 then 10 else minute)
  else None.

(** ** Privacy mode *)

Definition make_privacy_mode_msg_with_details (s : PrivacyModeState) (details impl_key : str) : Message :=
  Msg_Misc (Some (Misc_PrivacyModeState s details impl_key)).
Definition make_privacy_mode_msg (s : PrivacyModeState) (impl_key : str) : Message :=
  make_privacy_mode_msg_with_details s [] impl_key.

Definition privacy_unsupported : str :=
  lit "Unsupported. 1 Multi-screen is not supported. 2 Please confirm the license is activated.".

Definition turn_off_privacy_result_to_msg (r : option (result str unit)) (impl_key : str) : Message :=
  match r with
  | Some (Ok _) => make_privacy_mode_msg PrvOffSucceeded impl_key
  | Some (Err e) => make_privacy_mode_msg_with_details PrvOffFailed e impl_key
  | None => make_privacy_mode_msg_with_details PrvOffFailed (lit "Not supported") impl_key
  end.

Definition turn_off_privacy_to_msg (conn_id : Z) (impl_key : str) : Act Message :=
  _ ← emit (PrivacyOff conn_id);
  mret (turn_off_privacy_result_to_msg e_privacy_turn_off impl_key).

Definition INVALID_PRIVACY_MODE_CONN_ID : Z := 0.

Definition turn_on_privacy (impl_key : str) : Act unit :=
  c ← getc id;
  if negb (is_authed_remote_conn c) || negb (c_privacy_mode c) then
    send (make_privacy_mode_msg PrvOnFailedDenied impl_key)
  else
    msg ←
      (if negb e_privacy_supported then
         mret (make_privacy_mode_msg_with_details PrvNotSupported privacy_unsupported impl_key)
       else
         _ ← match e_privacy_impl with
             | Some pre => when (e_in_privacy_mode && negb (e_privacy_impl_current pre))
                             (send (make_privacy_mode_msg PrvOffSucceeded pre))
             | None => skip
             end;
         _ ← emit (PrivacyOn impl_key);
         match e_privacy_turn_on with
         | Some (Ok true) =>
           if bool_decide (e_privacy_check = []) then mret (make_privacy_mode_msg PrvOnSucceeded impl_key)
           else
             _ ← turn_off_privacy_to_msg (c_id c) [];
             mret (make_privacy_mode_msg_with_details PrvOnFailed e_privacy_check impl_key)
         | Some (Ok false) => mret (make_privacy_mode_msg PrvOnFailedPlugin impl_key)
         | Some (Err e) =>
           _ ← when e_in_privacy_mode_after (_ ← turn_off_privacy_to_msg INVALID_PRIVACY_MODE_CONN_ID []; skip);
           mret (make_privacy_mode_msg_with_details PrvOnFailed e impl_key)
         | None => mret (make_privacy_mode_msg_with_details PrvOffFailed (lit "Not supported") impl_key)
         end);
    send msg.

Definition turn_off_privacy (impl_key : str) : Act unit :=
  id ← getc c_id;
  msg ← (if negb e_privacy_supported then
           mret (make_privacy_mode_msg_with_details PrvNotSupported privacy_unsupported impl_key)
         else turn_off_privacy_to_msg id impl_key);
  send msg.

Definition toggle_privacy_mode (impl_key : str) (on : bool) : Act unit :=
  if on then turn_on_privacy impl_key else turn_off_privacy impl_key.

(** ** Displays *)

Definition refresh_video_display (display : option Z) : Act unit :=
  _ ← emit RefreshVideo;
  on_server (fun c v => set_video_service_opt ((fun d => (video_source c, d)) <$> display)
                          (lit "refresh") SERVICE_OPTION_VALUE_TRUE v).

(** [is_support_multi_ui_session] *)
Definition is_support_multi_ui_session (ver : str) : bool := e_version_number (lit "1.2.4") <=? e_version_number ver.

Definition switch_display_to (display_idx : Z) : Act unit :=
  _ ← on_server (fun c v =>
    let new_name := get_service_name (video_source c) display_idx in
    let old_name := get_service_name (video_source c) (c_display_idx c) in
    let v := if negb (display_idx =? e_primary_display) && negb (contains new_name v)
             then add_service (video_service (video_source c) display_idx) v else v in
    let v := if negb (is_support_multi_ui_session (lr_version (c_lr c))) then subscribe old_name (inner c) false v else v in
    subscribe new_name (inner c) true v);
  modc (fun c => c <| c_display_idx := display_idx |>).

Definition change_resolution (d : option Z) (r : Resolution) : Act unit :=
  c ← getc id;
  when (c_keyboard c)
    match e_displays with
    | Some displays =>
      match displays !! Z.to_nat (default (c_display_idx c) d) with
      | Some display => emit (SetResolution (di_name display) (di_width display, di_height display) r)
      | None => skip
      end
    | None => skip
    end.

Definition handle_switch_display (display width height : Z) : Act unit :=
  c ← getc id;
  let display_idx := as_usize display in
  if c_display_idx c =? display_idx then skip
  else
    srv ← getg g_server;
    _ ← when (bool_decide (is_Some srv))
          (_ ← switch_display_to display_idx;
           when (negb (c_view_camera c) && negb (width =? 0) && negb (height =? 0))
             (change_resolution None (MkResolution width height)));
    idx ← getc c_display_idx;
    match e_display_changed idx (video_source c) with Some m => send m | None => skip end.

Definition capture_displays_of (add sub set : list Z) : Act unit :=
  srv ← getg g_server;
  when (bool_decide (is_Some srv))
    (_ ← on_server (fun c v =>
       let src := video_source c in
       let missing v d := if contains (get_service_name src d) v then v else add_service (video_service src d) v in
       let v := foldl missing (foldl missing v add) set in
       if negb (bool_decide (add = [])) then capture_displays (inner c) src add true false v
       else if negb (bool_decide (sub = [])) then capture_displays (inner c) src sub false true v
       else capture_displays (inner c) src set true true v);
     srv ← getg g_server;
     _ ← modc (fun c => c <| c_multi_ui_session :=
            match srv with Some v => bool_decide (1 < get_subbed_displays_count (c_id c) v)%nat | None => false end |>);
     c ← getc id;
     when (c_follow_remote_window c) (subscribe_to NAME_WINDOW_FOCUS (fun c => negb (c_multi_ui_session c)))).

(** [handle_cursor_switch_display]: the display under the host's cursor. *)
Definition display_holds (x y : Z) (d : SyncDisplay) : bool :=
  (sd_x d <=? x) && (sd_y d <=? y)
  && SFltb (F64.mul (F64.of_Z (i32_sub x (sd_x d))) (sd_scale d)) (F64.of_Z (sd_width d))
  && SFltb (F64.mul (F64.of_Z (i32_sub y (sd_y d))) (sd_scale d)) (F64.of_Z (sd_height d)).

Definition handle_cursor_switch_display (x y : Z) : Act unit :=
  c ← getc id;
  if c_multi_ui_session c then skip
  else
    match list_find (fun d => display_holds x y d = true) e_sync_displays with
    | Some (i, _) =>
      when (negb (c_display_idx c =? Z.of_nat i)) (send_misc (Misc_FollowCurrentDisplay (wraps 32 (Z.of_nat i))))
    | None => skip
    end.

(** ** Voice calls *)

Definition subscribe_audio_of_camera (sub : Conn -> bool) : Act unit :=
  c ← getc id; when (is_authed_view_camera_conn c) (subscribe_to AUDIO_NAME sub).

Definition close_voice_call : Act unit :=
  _ ← emit ResetVoiceInput;
  _ ← send_to_cm Cm_CloseVoiceCall;
  _ ← modc (fun c => c <| c_voice_calling := false |>);
  subscribe_audio_of_camera (fun _ => false).

Definition handle_voice_call (accepted : bool) : Act unit :=
  ts ← getc c_voice_call_request_timestamp;
  match ts with
  | None => skip
  | Some ts =>
    _ ← modc (fun c => c <| c_voice_call_request_timestamp := None |>);
    _ ← (if accepted then _ ← emit SetVoiceInput; send_to_cm Cm_StartVoiceCall else send_to_cm Cm_CloseVoiceCall);
    _ ← send (Msg_VoiceCallResponse accepted ts);
    _ ← modc (fun c => c <| c_voice_calling := accepted |>);
    subscribe_audio_of_camera (fun c => audio_enabled c && accepted)
  end.

(** ** Options *)

(** [if let Ok(q) = field.enum_value() { if q != NotSet { k(q == Yes) } }] *)
Definition if_set (f : bool_field) (k : bool -> Act unit) : Act unit :=
  match enum_value f with
  | Ok NotSet | Err _ => skip
  | Ok No => k false
  | Ok Yes => k true
  end.

Definition update_quality (o : OptionMessage) : Act unit :=
  match enum_value (o_image_quality o) with
  | Ok q =>
    let image_quality :=
      match q with
      | IqNotSet => if 0 <? o_custom_image_quality o then o_custom_image_quality o else -1
      | _ => e_iq_value q
      end in
    when (0 <? image_quality) (emit (Qos (Q_image_quality image_quality)))
  | Err _ => skip
  end.

Definition subscribe_audio : Act unit :=
  c ← getc id;
  if is_authed_view_camera_conn c then
    when (c_voice_calling c || negb (audio_enabled c)) (subscribe_to AUDIO_NAME audio_enabled)
  else subscribe_to AUDIO_NAME audio_enabled.

Definition subscribe_cursor : Act unit :=
  subscribe_to NAME_CURSOR (fun c => peer_keyboard_enabled c || c_show_remote_cursor c).

Definition update_privacy_mode (o : OptionMessage) : Act unit :=
  c ← getc id;
  if e_version_number (lr_version (c_lr c)) <? e_version_number (lit "1.2.4") then
    if_set (o_privacy_mode o) (fun yes => when (c_keyboard c) (if yes then turn_on_privacy [] else turn_off_privacy []))
  else skip.

Definition update_block_input (o : OptionMessage) : Act unit :=
  c ← getc id;
  if_set (o_block_input o) (fun yes =>
    if c_keyboard c && c_block_input c then emit (ToInput (if yes then In_BlockOn else In_BlockOff))
    else send_block_input_error (if yes then BlkOnFailed else BlkOffFailed) (lit "No permission")).

Definition update_terminal_persistence (persistent : bool) : Act unit :=
  _ ← modc (fun c => c <| c_terminal_persistent := persistent |>);
  id ← getc c_terminal_service_id;
  emit (TerminalSetPersistent id persistent).

Definition show_my_cursor_text : str :=
  lit "This feature is not supported on native Wayland, please install XWayland or switch to X11.".

Definition update_show_my_cursor (yes : bool) : Act unit :=
  _ ← modc (fun c => c <| c_show_my_cursor := yes |>);
  if yes then
    if e_whiteboard_supported then emit (Whiteboard true)
    else send (Msg_MessageBox (lit "nook-nocancel-hasclose") (lit "Show my cursor") show_my_cursor_text [])
  else when e_whiteboard_supported (emit (Whiteboard false)).

Definition update_options (o : OptionMessage) : Act unit :=
  _ ← update_quality o;
  _ ← when (0 <? o_custom_fps o) (emit (Qos (Q_custom_fps (o_custom_fps o))));
  _ ← match o_supported_decoding o with Some q => emit (EncoderUpdate q) | None => skip end;
  _ ← if_set (o_lock_after_session_end o) (fun b => modc (fun c => c <| c_lock_after_session_end := b |>));
  _ ← if_set (o_show_remote_cursor o) (fun b =>
        _ ← modc (fun c => c <| c_show_remote_cursor := b |>);
        _ ← subscribe_cursor;
        subscribe_to NAME_POS c_show_remote_cursor);
  _ ← if_set (o_follow_remote_cursor o) (fun b => modc (fun c => c <| c_follow_remote_cursor := b |>));
  _ ← if_set (o_follow_remote_window o) (fun b =>
        _ ← modc (fun c => c <| c_follow_remote_window := b |>);
        subscribe_to NAME_WINDOW_FOCUS c_follow_remote_window);
  _ ← if_set (o_disable_audio o) (fun b =>
        _ ← modc (fun c => c <| c_disable_audio := b |>);
        subscribe_audio);
  _ ← if_set (o_disable_clipboard o) (fun b =>
        _ ← modc (fun c => c <| c_disable_clipboard := b |>);
        subscribe_to CLIPBOARD_NAME can_sub_clipboard_service);
  _ ← if_set (o_disable_keyboard o) (fun b =>
        _ ← modc (fun c => c <| c_disable_keyboard := b |>);
        _ ← subscribe_to CLIPBOARD_NAME can_sub_clipboard_service;
        subscribe_cursor);
  _ ← update_privacy_mode o;
  _ ← update_block_input o;
  _ ← if_set (o_terminal_persistent o) update_terminal_persistence;
  if_set (o_show_my_cursor o) update_show_my_cursor.

Definition update_scoped_login_options : Act unit :=
  o ← getc c_options_in_login;
  match o with
  | None => skip
  | Some option =>
    _ ← modc (fun c => c <| c_options_in_login := None |>);
    t ← getc c_authed;
    match t with
    | None => skip
    | Some t => match (scoped_login_option t option).1 with Some o => update_options o | None => skip end
    end
  end.

(** ** Files *)

Definition check_file_count_limit (file_count : Z) : result str unit :=
  if e_max_files <? file_count then
    Err (lit "file transfer rejected: too many files (" ++ fmt_Z file_count ++ lit " files exceeds limit of "
         ++ fmt_Z e_max_files ++ lit "). Adjust '" ++ e_max_files_key ++ lit "' option to increase limit.")
  else Ok tt.

Definition process_new_read_job (job : TransferJob) (path : str) : Act unit :=
  _ ← send (new_dir (job_id job) path (job_files job));
  _ ← modc (fun c => c <| c_read_jobs ::= fun l => l ++ [job] |>);
  post_file_audit RemoteSend (if bool_decide (job_type job = Printer) then lit "Remote print" else path)
    (get_files_for_audit (job_type job) (job_files job)).

Definition create_and_start_read_job (id : Z) (t : JobType) (path : str) (include_hidden check_file_limit : bool) : Act unit :=
  match e_new_read id path include_hidden with
  | Err err => send (new_error id err 0)
  | Ok files =>
    match (if check_file_limit then check_file_count_limit (Z.of_nat (length files)) else Ok tt) with
    | Err msg => send (new_error id msg (-1))
    | Ok _ => process_new_read_job (MkJob id t files) path
    end
  end.

Definition read_empty_dirs (dir : str) (include_hidden : bool) : Act unit := send_fs (FS_ReadEmptyDirs dir include_hidden).
Definition read_dir (dir : str) (include_hidden : bool) : Act unit := send_fs (FS_ReadDir dir include_hidden).

(** The job an action changes the host's files for; refused when transfers are
    one-way. *)
Definition one_way_job (fa : option FileAction) : option Z :=
  match fa with
  | Some (Fa_Send s) => Some (sr_id s)
  | Some (Fa_RemoveFile rf) => Some (rf_id rf)
  | Some (Fa_Rename id _ _) => Some id
  | Some (Fa_Create id _) => Some id
  | Some (Fa_RemoveDir rd) => Some (rd_id rd)
  | _ => None
  end.

Definition printer_index (path : str) (l : list (Z * str * bytes)) : option nat :=
  (fun x => x.1) <$> list_find (fun x => x.1.2 = path) l.

Definition on_send (s : SendRequest) : Act unit :=
  match sr_type s with
  | Generic =>
    _ ← create_and_start_read_job (sr_id s) Generic (sr_path s) (sr_include_hidden s) true;
    modc (fun c => c <| c_file_transferred := true |>)
  | Printer =>
    data ← getc c_printer_data;
    match printer_index (sr_path s) data with
    | Some i =>
      _ ← modc (fun c => c <| c_printer_data ::= delete i |>);
      _ ← create_and_start_read_job (sr_id s) Printer (sr_path s) (sr_include_hidden s) false;
      modc (fun c => c <| c_file_transferred := true |>)
    | None => skip
    end
  end.

Definition on_receive (r : ReceiveRequest) : Act unit :=
  c ← getc id;
  _ ← send_fs (FS_NewWrite (rr_path r) (rr_id r) (rr_file_num r) ((fun f => (fe_name f, fe_modified f)) <$> rr_files r)
                 (e_overwrite_detection (e_version_number (lr_version (c_lr c)))) (rr_total_size r) (c_id c));
  _ ← post_file_audit RemoteReceive (rr_path r) (get_files_for_audit Generic (rr_files r));
  modc (fun c => c <| c_file_transferred := true |>).

Definition on_cancel (id : Z) : Act unit :=
  c ← getc Datatypes.id;
  _ ← send_fs (FS_CancelWrite id);
  _ ← modc (fun c => c <| c_cm_read_job_ids ::= fun s => s ∖ {[ id ]} |>);
  _ ← send_fs (FS_CancelRead id (c_id c));
  match list_find (fun j => job_id j = id) (c_read_jobs c) with
  | Some (i, _) =>
    _ ← modc (fun c => c <| c_read_jobs ::= delete i |>);
    send_to_cm (Cm_FileTransferLog (LogTransfer [id] true))
  | None => skip
  end.

Definition on_send_confirm (r : SendConfirmRequest) : Act unit :=
  c ← getc id;
  if existsb (fun j => job_id j =? sc_id r) (c_read_jobs c) then emit (ConfirmJob r)
  else if bool_decide (sc_id r ∈ c_cm_read_job_ids c) then
    send_fs (FS_SendConfirmForRead (sc_id r) (sc_file_num r) (sc_skip r) (sc_offset_blk r) (c_id c))
  else send_fs (FS_SendConfirm r).

Definition run_file_action (fa : option FileAction) : Act unit :=
  c ← getc id;
  match fa with
  | Some (Fa_ReadEmptyDirs path hidden) => read_empty_dirs path hidden
  | Some (Fa_ReadDir path hidden) => read_dir path hidden
  | Some (Fa_AllFiles id path hidden) =>
    match e_recursive_files path hidden with
    | Err err => send (new_error id err (-1))
    | Ok files =>
      match check_file_count_limit (Z.of_nat (length files)) with
      | Err msg => send (new_error id msg (-1))
      | Ok _ => send (new_dir id path files)
      end
    end
  | Some (Fa_Send s) => on_send s
  | Some (Fa_Receive r) => on_receive r
  | Some (Fa_RemoveDir d) =>
    _ ← send_fs (FS_RemoveDir (rd_path d) (rd_id d) (rd_recursive d));
    modc (fun c => c <| c_remove_log ::= fun r => (on_remove_dir e_now d r).1 |>)
  | Some (Fa_RemoveFile f) =>
    _ ← send_fs (FS_RemoveFile (rf_path f) (rf_id f) (rf_file_num f));
    modc (fun c => c <| c_remove_log ::= fun r => (on_remove_file e_now f r).1 |>)
  | Some (Fa_Create id path) =>
    _ ← send_fs (FS_CreateDir path id);
    send_to_cm (Cm_FileTransferLog (LogAction "create_dir" id (c_id c) path true))
  | Some (Fa_Cancel id) => on_cancel id
  | Some (Fa_SendConfirm r) => on_send_confirm r
  | Some (Fa_Rename id path new_name) =>
    _ ← send_fs (FS_Rename id path new_name);
    send_to_cm (Cm_FileTransferLog (LogRename (c_id c) path new_name))
  | Some Fa_Other | None => skip
  end.

Definition on_file_action (fa : option FileAction) : Act bool :=
  c ← getc id;
  let is_printer := match fa with Some (Fa_Send s) => bool_decide (sr_type s = Printer) | _ => false end in
  if bool_decide (is_Some (c_file_transfer c)) || is_printer then
    if bool_decide (is_Some (c_delayed_read_dir c)) then
      _ ← match fa with
          | Some (Fa_ReadDir path hidden) => modc (fun c => c <| c_delayed_read_dir := Some (path, hidden) |>)
          | _ => skip
          end;
      mret true
    else
      match (if e_one_way_file_transfer then one_way_job fa else None) with
      | Some job_id => _ ← send (new_error job_id (lit "one-way-file-transfer-tip") 0); mret true
      | None => _ ← run_file_action fa; mret true
      end
  else mret true.

Definition on_file_response (fr : option FileResponse) : Act bool :=
  _ ← match fr with
      | Some (Fr_Block id file_num data compressed) => send_fs (FS_WriteBlock id file_num data compressed)
      | Some (Fr_Done id file_num) => send_fs (FS_WriteDone id file_num)
      | Some (Fr_Digest id file_num size modified _ is_resume) =>
        send_fs (FS_CheckDigest id file_num size modified true is_resume)
      | Some (Fr_Error id err file_num) => send_fs (FS_WriteError id file_num err)
      | _ => skip
      end;
  mret true.

(** ** Input *)

Definition on_mouse_event (me : MouseEvent) : Act bool :=
  c ← getc id;
  if is_authed_view_camera_conn c then mret true
  else
    _ ← (if peer_keyboard_enabled c then
           _ ← emit (if is_left_up me then TouchClick else TouchMove);
           emit (ToInput (In_Mouse me (c_id c) (lr_my_name (c_lr c)) (c_peer_argb c) true (c_show_my_cursor c)))
         else
           when (c_show_my_cursor c)
             (emit (ToInput (In_Mouse me (c_id c) (lr_my_name (c_lr c)) (c_peer_argb c) false true))));
    _ ← update_auto_disconnect_timer;
    mret true.

Definition on_pointer_device_event (pde : bytes) : Act bool :=
  c ← getc id;
  if is_authed_view_camera_conn c then mret true
  else
    _ ← when (peer_keyboard_enabled c) (_ ← emit TouchMove; emit (ToInput (In_Pointer pde (c_id c))));
    _ ← update_auto_disconnect_timer;
    mret true.

(** The modifier key that a map- or translate-mode event names. *)
Definition event_modifier (me : KeyEvent) : option RdevKey :=
  let key :=
    match enum_value (ke_mode me) with
    | Ok Map => Some (e_keycode (ke_chr me))
    | Ok Translate => match ke_union me with Some (Ku_Chr code) => Some (e_keycode (Z.land code 0xFFFF)) | _ => None end
    | _ => None
    end in
  match key with Some k => if is_modifier_key k then Some k else None | None => None end.

(** Linux: a modifier is never a press. *)
Definition is_press (me : KeyEvent) : bool :=
  (ke_press me || ke_down me) && negb (is_modifier me || bool_decide (is_Some (event_modifier me))).

Definition on_key_event (me : KeyEvent) : Act bool :=
  c ← getc id;
  if is_authed_view_camera_conn c then mret true
  else
    _ ← when (peer_keyboard_enabled c)
          (_ ← when (is_enter me) (emit TouchClick);
           _ ← emit TouchMove;
           _ ← match event_modifier me with
               | Some k =>
                 modc (fun c => c <| c_pressed_modifiers ::= fun ks =>
                   if is_press me then (if bool_decide (k ∈ ks) then ks else k :: ks) else filter (fun x => x <> k) ks |>)
               | None => skip
               end;
           emit (ToInput (In_Key me (is_press me &&
             match ke_union me with Some (Ku_Unicode _) | Some (Ku_Seq _) => false | _ => true end))));
    _ ← update_auto_disconnect_timer;
    mret true.

Definition release_pressed_modifiers : Act unit :=
  ks ← getc c_pressed_modifiers;
  _ ← emits (ReleaseKey <$> ks);
  modc (fun c => c <| c_pressed_modifiers := [] |>).

Definition on_clipboard (cs : list bytes) : Act bool :=
  c ← getc id;
  _ ← when (should_handle_text_clipboard_message c && clipboard_enabled c) (emit (UpdateClipboard cs));
  mret true.

(** ** Terminals *)

Definition handle_terminal_action (action : bytes) : Act unit :=
  c ← getc id;
  if negb (c_terminal_user_token c) then skip
  else
    _ ← emit (TerminalAct (c_terminal_service_id c) (c_terminal_persistent c) action);
    match e_terminal action with
    | Ok (Some response) => send (Msg_TerminalResponse response)
    | Ok None => skip
    | Err err => send (Msg_TerminalError (lit "Failed to handle action: " ++ err))
    end.

(** ** Miscellaneous messages *)

(** [insert_pending_switch_sides_uuid] and [remove_pending_switch_sides_uuid] *)
Definition pending_retain (now : Z) (m : gmap str (Z * bytes)) : gmap str (Z * bytes) :=
  filter (fun kv => Z.max 0 (now - kv.2.1) < 10 * 1000000000) m.
Definition insert_pending_switch_sides_uuid (now : Z) (peer : str) (uuid : bytes) (g : Glob) : Glob :=
  g <| g_pending ::= fun m => <[peer := (now, uuid)]> (pending_retain now m) |>.
Definition remove_pending_switch_sides_uuid (now : Z) (peer : str) (uuid : bytes) (g : Glob) : bool * Glob :=
  let m := pending_retain now (g_pending g) in
  match m !! peer with
  | Some (_, stored) => if bool_decide (stored = uuid) then (true, g <| g_pending := delete peer m |>) else (false, g <| g_pending := m |>)
  | None => (false, g <| g_pending := m |>)
  end.

Definition on_switch_sides_request (uuid : bytes) : Act bool :=
  c ← getc id;
  if bool_decide (length uuid = 16%nat) then
    _ ← modg (insert_pending_switch_sides_uuid e_now (lr_my_id (c_lr c)) uuid);
    _ ← emit (RunConnect (lr_my_id (c_lr c)) uuid);
    _ ← on_close false;
    mret false
  else mret true.

Definition on_option (o : OptionMessage) : Act unit :=
  t ← getc c_authed;
  if bool_decide (t = Some Remote) then update_options o
  else match scoped_update_option_message t o with Some o => update_options o | None => skip end.

Definition on_misc (m : option Misc) : Act bool :=
  c ← getc id;
  match m with
  | Some (Misc_SwitchDisplay d w h) => _ ← handle_switch_display d w h; mret true
  | Some (Misc_CaptureDisplays add sub set) =>
    _ ← capture_displays_of (as_usize <$> add) (as_usize <$> sub) (as_usize <$> set); mret true
  | Some (Misc_TogglePrivacyMode impl_key on) =>
    _ ← when (negb (c_view_camera c)) (toggle_privacy_mode impl_key on); mret true
  | Some (Misc_ChatMessage text) =>
    _ ← send_to_cm (Cm_ChatMessage text);
    _ ← modc (fun c => c <| c_chat_unanswered := true |>);
    _ ← update_auto_disconnect_timer;
    mret true
  | Some (Misc_Option o) => _ ← on_option o; mret true
  | Some (Misc_RefreshVideo r) =>
    _ ← when (should_handle_render_broadcast_message c)
          (_ ← when r (refresh_video_display None); update_auto_disconnect_timer);
    mret true
  | Some (Misc_RefreshVideoDisplay d) =>
    _ ← when (should_handle_render_broadcast_message c)
          (_ ← refresh_video_display (Some (as_usize d)); update_auto_disconnect_timer);
    mret true
  | Some Misc_VideoReceived => _ ← emit FrameFetched; mret true
  | Some Misc_RestartRemoteDevice => _ ← when (c_restart c) (_ ← emit ForceReboot; emit Reboot); mret true
  | Some (Misc_AudioFormat format) =>
    _ ← when (negb (c_disable_audio c))
          (_ ← modc (fun c => c <| c_audio_sender := true |>); emit (StartAudioThread format));
    mret true
  | Some (Misc_SwitchSidesRequest uuid) => on_switch_sides_request uuid
  | Some (Misc_ChangeResolution r) => _ ← when (negb (c_view_camera c)) (change_resolution None r); mret true
  | Some (Misc_ChangeDisplayResolution d r) =>
    _ ← when (negb (c_view_camera c)) (change_resolution (Some (as_usize d)) r); mret true
  | Some (Misc_AutoAdjustFps fps) => _ ← emit (Qos (Q_auto_adjust_fps fps)); mret true
  | Some (Misc_ClientRecordStatus status) => _ ← emit (Qos (Q_record status)); mret true
  | Some (Misc_MessageQuery d) =>
    _ ← match e_display_changed (as_usize d) (video_source c) with Some m => send m | None => skip end; mret true
  | _ => mret true
  end.

Definition on_audio_frame (frame : bytes) : Act bool :=
  c ← getc id;
  _ ← when (negb (c_disable_audio c) && c_audio_sender c) (emit (PlayAudio frame));
  mret true.

Definition on_voice_call_request (req_timestamp : Z) (is_connect : bool) : Act bool :=
  _ ← (if is_connect then
         _ ← modc (fun c => c <| c_voice_call_request_timestamp :=
                Some (if req_timestamp =? 0 then e_time else req_timestamp) |>);
         send_to_cm Cm_VoiceCallIncoming
       else close_voice_call);
  mret true.

Definition on_screenshot_request (display : Z) (sid : str) : Act bool :=
  c ← getc id;
  _ ← emit (TakeScreenshot (video_source c) (as_usize display) sid);
  _ ← refresh_video_display (Some (as_usize display));
  mret true.

Definition on_test_delay (t : TestDelay) : Act bool :=
  c ← getc id;
  if td_from_client t then _ ← send (Msg_TestDelay t); mret true
  else
    match c_last_test_delay c with
    | Some tm =>
      let new_delay := wrapu 32 (Z.max 0 (e_now - tm) / 1000000) in
      _ ← modc (fun c => c <| c_last_test_delay := None |>);
      _ ← emit (Qos (Q_network_delay new_delay));
      _ ← modc (fun c => c <| c_network_delay := new_delay |>);
      mret true
    | None => mret true
    end.

(** ** Dispatch *)

(** The messages of an authorized session. *)
Definition on_session_message (m : Message) : Act bool :=
  match m with
  | Msg_MouseEvent e => on_mouse_event e
  | Msg_PointerDeviceEvent e => on_pointer_device_event e
  | Msg_KeyEvent e => on_key_event e
  | Msg_Clipboard c => on_clipboard [c]
  | Msg_MultiClipboards cs => on_clipboard cs
  | Msg_FileAction fa => on_file_action fa
  | Msg_FileResponse fr => on_file_response fr
  | Msg_Misc misc => on_misc misc
  | Msg_AudioFrame f => on_audio_frame f
  | Msg_VoiceCallRequest ts connect => on_voice_call_request ts connect
  | Msg_ScreenshotRequest d sid => on_screenshot_request d sid
  | Msg_TerminalAction a => _ ← handle_terminal_action a; mret true
  | _ => mret true
  end.

(** [on_message] after the close reason, with [login] handling login requests. *)
Definition on_other_message (login : LoginRequest -> Act bool) (m : Message) : Act bool :=
  match m with
  | Msg_LoginRequest lr => login lr
  | Msg_TestDelay t => on_test_delay t
  | Msg_SwitchSidesResponse => _ ← send_login_error (lit "切换控制方需要重新取得远控许可"); mret false
  | _ =>
    c ← getc id;
    if c_authorized c then if c_pf_socket c then mret true else on_session_message m
    else mret true
  end.

Definition on_message_with (login : LoginRequest -> Act bool) (m : Message) : Act bool :=
  match m with
  | Msg_Misc (Some (Misc_CloseReason _)) =>
    _ ← on_close true;
    _ ← remove_my_session;
    mret false
  | _ =>
    c ← getc id;
    if c_authorized c then
      match m with
      | Msg_LoginRequest _ => mret true
      | _ =>
        match authorized_scope_violation (c_authed c) m with
        | Some message => handle_authorized_scope_violation message
        | None => on_other_message login m
        end
      end
    else on_other_message login m
  end.

End Handlers.
