(* ===== verification/ConnScope.v ===== *)
(** * Least privilege of host sessions

    What a session of each type can make the host do: [allowed] lists the effects of
    a type, [svc_allowed] the services it may come to follow.  The lemmas go
    through the handlers of [Connection]; the claims are about the dispatch of any
    message, and, in [ConnSafety], about whole runs. *)
From stdpp Require Import base gmap list strings.
From Stdlib Require Import ZArith Lia.
From S2P Require Import Prelude RustStr Effects Message SessionScope Service ServerReg LoginFailure ConnState Connection.

#[local] Open Scope Z_scope.

(** ** Capabilities *)

(** The parts of a file transfer that answer the host. *)
Definition response_fs (f : FS) : bool :=
  match f with FS_WriteBlock _ _ _ _ | FS_WriteDone _ _ | FS_CheckDigest _ _ _ _ _ _ | FS_WriteError _ _ _ => true | _ => false end.

Definition cm_allowed (t : AuthConnType) (d : CmData) : bool :=
  match d with
  | Cm_FS f => match t with FileTransfer => true | Remote => response_fs f | _ => false end
  | Cm_FileTransferLog _ => match t with FileTransfer => true | _ => false end
  | Cm_ChatMessage _ => match t with Remote | ViewCamera | Terminal => true | _ => false end
  | Cm_VoiceCallIncoming | Cm_CloseVoiceCall => match t with Remote | ViewCamera => true | _ => false end
  | Cm_Disconnected | Cm_Close => true
  | _ => false
  end.

Definition allowed (t : AuthConnType) (e : Effect) : bool :=
  match e with
  | Send _ | PostAudit _ | LockScreen | ResetVoiceInput | Qos (Q_network_delay _) => true
  | ToCm d => cm_allowed t d
  | ToInput _ | TouchClick | TouchMove | UpdateClipboard _ | ForceReboot | Reboot | RunConnect _ _
  | PrivacyOn _ | PrivacyOff _ | SetResolution _ _ _ | Whiteboard _ => match t with Remote => true | _ => false end
  | Qos _ | EncoderUpdate _ | StartAudioThread _ | PlayAudio _ | RefreshVideo | FrameFetched =>
    match t with Remote | ViewCamera => true | _ => false end
  | TakeScreenshot src _ _ =>
    match t, src with Remote, Monitor | ViewCamera, Camera => true | _, _ => false end
  | TerminalAct _ _ _ => match t with Terminal => true | _ => false end
  | TerminalSetPersistent _ _ => match t with Terminal | Remote => true | _ => false end
  | ConfirmJob _ => match t with FileTransfer => true | _ => false end
  | _ => false
  end.

Definition svc_allowed (t : AuthConnType) (name : str) : Prop :=
  match t with
  | Remote => True
  | ViewCamera => name = AUDIO_NAME \/ exists idx, name = get_service_name Camera idx
  | _ => False
  end.

(** The flags of a session of type [t]. *)
Definition flags (t : AuthConnType) (c : Conn) : Prop :=
  match t with
  | Remote => c_file_transfer c = None /\ c_view_camera c = false /\ c_terminal_user_token c = false
  | FileTransfer => is_Some (c_file_transfer c)
  | PortForward => c_file_transfer c = None
  | ViewCamera => c_file_transfer c = None /\ c_view_camera c = true /\ c_follow_remote_window c = false
  | Terminal => c_file_transfer c = None
  end
  /\ c_printer_data c = [] /\ c_pressed_modifiers c = [].

(** ** What handling a message keeps *)

Record kept (t : AuthConnType) (c c' : Conn) : Prop := {
  k_id : c_id c' = c_id c;
  k_permit : c_permit c' = c_permit c;
  k_file_transfer : c_file_transfer c' = c_file_transfer c;
  k_view_camera : c_view_camera c' = c_view_camera c;
  k_terminal : c_terminal c' = c_terminal c;
  k_pf_socket : c_pf_socket c' = true -> c_pf_socket c = true;
  k_authorized : c_authorized c' = c_authorized c;
  k_authed : c_authed c' = c_authed c;
  k_keyboard : c_keyboard c' = c_keyboard c;
  k_clipboard : c_clipboard c' = c_clipboard c;
  k_audio : c_audio c' = c_audio c;
  k_file : c_file c' = c_file c;
  k_restart : c_restart c' = c_restart c;
  k_recording : c_recording c' = c_recording c;
  k_block_input : c_block_input c' = c_block_input c;
  k_privacy_mode : c_privacy_mode c' = c_privacy_mode c;
  k_control : c_control_permissions c' = c_control_permissions c;
  k_lr : c_lr c' = c_lr c;
  k_token : c_terminal_user_token c' = c_terminal_user_token c;
  k_service_id : c_terminal_service_id c' = c_terminal_service_id c;
  k_printer : c_printer_data c = [] -> c_printer_data c' = [];
  k_modifiers : c_pressed_modifiers c = [] -> c_pressed_modifiers c' = [];
  k_ip : c_ip c' = c_ip c;
  k_challenge : c_challenge c' = c_challenge c;
  k_salt : c_salt c' = c_salt c;
  k_session_recv : c_session_recv c' = c_session_recv c;
  k_window : t <> Remote -> c_follow_remote_window c' = c_follow_remote_window c }.

#[global] Instance kept_preorder t : PreOrder (kept t).
Proof.
  split.
  - intros c. by split.
  - intros c1 c2 c3 [] []. split; try congruence; auto. intros Ht. rewrite k_window1, k_window0; auto.
Qed.

Definition srv_step (t : AuthConnType) (id : Z) (v v' : option (Server ConnInner)) : Prop :=
  match v, v' with
  | None, None => True
  | Some v, Some v' =>
    reg_ok v -> reg_ok v' /\ forall id' n, follows id' n v' = true -> follows id' n v = true \/ (id' = id /\ svc_allowed t n)
  | _, _ => False
  end.

Lemma srv_step_refl t id v : srv_step t id v v.
Proof. destruct v; simpl; auto. Qed.

Lemma srv_step_trans t id v1 v2 v3 : srv_step t id v1 v2 -> srv_step t id v2 v3 -> srv_step t id v1 v3.
Proof.
  destruct v1, v2, v3; simpl; try done. intros H12 H23 Hok. destruct (H12 Hok) as [Hok2 H2], (H23 Hok2) as [Hok3 H3].
  split; [done|]. intros id' n Hf. destruct (H3 _ _ Hf) as [Hf2|]; eauto.
Qed.

(** The relation that handling a message of a session of type [t] moves along. *)
Definition moves (t : AuthConnType) (s s' : St) : Prop :=
  kept t (conn s) (conn s') /\ srv_step t (c_id (conn s)) (g_server (glob s)) (g_server (glob s')).

#[global] Instance moves_preorder t : PreOrder (moves t).
Proof.
  split.
  - intros s. split; [reflexivity|apply srv_step_refl].
  - intros s1 s2 s3 [Hk Hs] [Hk' Hs']. split; [by etransitivity|]. rewrite (k_id _ _ _ Hk) in Hs'. by eapply srv_step_trans.
Qed.

Lemma moves_conn t s f : kept t (conn s) (f (conn s)) -> moves t s (s <| conn ::= f |>).
Proof. intros H. split; [exact H|apply srv_step_refl]. Qed.

Lemma moves_glob t s f : srv_step t (c_id (conn s)) (g_server (glob s)) (g_server (f (glob s))) -> moves t s (s <| glob ::= f |>).
Proof. intros H. split; [reflexivity|exact H]. Qed.

Lemma moves_glob_same t s f : g_server (f (glob s)) = g_server (glob s) -> moves t s (s <| glob ::= f |>).
Proof. intros H. apply moves_glob. rewrite H. apply srv_step_refl. Qed.

Abbreviation scoped t := (obeys (moves t) (fun e => allowed t e = true)).

(** Leaves: an effect of the type, a field that is kept. *)
Ltac kept_leaf := apply moves_conn; split; simpl; (reflexivity || (by auto) || (intros; congruence)).
Ltac leaf :=
  match goal with
  | |- allowed _ _ = true => reflexivity
  | |- moves _ _ (_ <| conn ::= _ |>) => kept_leaf
  | |- moves _ _ (_ <| glob ::= _ |>) => apply moves_glob_same; reflexivity
  end.

(** Runs through a handler. *)
Ltac obey :=
  repeat first
    [ match goal with
      | |- obeys _ _ _ (getc _ ≫= _) => unfold getc
      | |- obeys _ _ _ (getg _ ≫= _) => unfold getg
      | |- obeys _ _ _ (modc _) => unfold modc
      | |- obeys _ _ _ (modg _) => unfold modg
      | |- obeys _ _ _ (send_to_cm _) => unfold send_to_cm
      | |- obeys _ _ _ (send_fs _) => unfold send_fs
      | |- obeys _ _ _ (send_misc _) => unfold send_misc
      end
    | obey_step
    | leaf
    | solve [auto with rust] ].

Section Scope.
Context `{env : Env}.

Lemma scoped_send t m s : scoped t s (send m).
Proof. by apply obeys_emit; [apply _|]. Qed.

Lemma scoped_to_cm t d s : cm_allowed t d = true -> scoped t s (send_to_cm d).
Proof. intros H. by apply obeys_emit; [apply _|]. Qed.

Lemma scoped_on_server t f s :
  (forall v, g_server (glob s) = Some v -> srv_step t (c_id (conn s)) (Some v) (Some (f (conn s) v))) ->
  scoped t s (on_server f).
Proof.
  intros Hf. unfold on_server. apply obeys_gets_bind; [apply _|]. apply obeys_modify, moves_glob. simpl.
  destruct (g_server (glob s)) eqn:E; simpl; [|done]. by apply (Hf s0).
Qed.

Lemma srv_subscribe t name conn sub v :
  (sub = true -> svc_allowed t name) -> srv_step t (ci_id conn) (Some v) (Some (subscribe name conn sub v)).
Proof.
  intros Hs Hok. split; [by apply subscribe_reg_ok|]. intros id' n. rewrite follows_subscribe by done.
  destruct (bool_decide (n = name) && bool_decide (id' = sub_id conn) && contains n v) eqn:E; [|by left].
  intros ->. right. bools. subst. auto.
Qed.

Lemma scoped_subscribe_to t name sub s :
  (sub (conn s) = true -> svc_allowed t name) -> scoped t s (subscribe_to name sub).
Proof. intros Hs. apply scoped_on_server. intros v _. by apply (srv_subscribe t name (inner (conn s))). Qed.

Lemma scoped_remove_my_session t s : scoped t s remove_my_session.
Proof.
  unfold remove_my_session. apply obeys_gets_bind; [apply _|]. apply obeys_modify, moves_glob_same.
  unfold check_remove_session. by repeat case_match.
Qed.

Lemma scoped_on_close t lock s : scoped t s (on_close lock).
Proof.
  unfold on_close. obey. by destruct (orb _ _).
Qed.

Lemma scoped_close_reason t reason s : scoped t s (send_close_reason_no_retry reason).
Proof. unfold send_close_reason_no_retry. obey; [apply scoped_send|apply scoped_remove_my_session]. Qed.

End Scope.

#[export] Hint Resolve scoped_send scoped_on_close scoped_close_reason scoped_remove_my_session : rust.

(** ** Every type *)

Section Common.
Context `{env : Env}.

Lemma scoped_violation t message s : scoped t s (handle_authorized_scope_violation message).
Proof. unfold handle_authorized_scope_violation, post_session_scope_violation_alarm. obey. Qed.

Lemma scoped_timer t s : scoped t s update_auto_disconnect_timer.
Proof. unfold update_auto_disconnect_timer. obey. Qed.

Lemma scoped_test_delay t d s : scoped t s (on_test_delay d).
Proof. unfold on_test_delay. obey. Qed.

Lemma scoped_login_error t e s : scoped t s (send_login_error e).
Proof. unfold send_login_error. obey. Qed.

Lemma scoped_file_audit t a path files s : scoped t s (post_file_audit a path files).
Proof. unfold post_file_audit. obey. Qed.

End Common.
#[export] Hint Resolve scoped_violation scoped_timer scoped_test_delay scoped_login_error scoped_file_audit : rust.

(** ** Sessions that show video *)

Section Video.
Context `{env : Env}.

Definition video_type (t : AuthConnType) : bool := match t with Remote | ViewCamera => true | _ => false end.

Lemma scoped_emit_video t e s : video_type t = true -> allowed Remote e = true -> allowed ViewCamera e = true -> scoped t s (emit e).
Proof. intros Ht ? ?. apply obeys_emit; [apply _|]. by destruct t. Qed.

Lemma scoped_if_set t f k s : (forall b, scoped t s (k b)) -> scoped t s (if_set f k).
Proof. intros Hk. unfold if_set. obey. Qed.

Lemma srv_opt t id d o x v : srv_step t id (Some v) (Some (set_video_service_opt d o x v)).
Proof.
  intros Hok. split; [by apply (exec_reg_ok (COpt d o x))|]. intros id' n Hf. left. revert Hf. unfold follows. simpl.
  rewrite map_lookup_imap. destruct (services v !! n); [|done]. simpl. by repeat case_match.
Qed.

Lemma scoped_refresh t d s : video_type t = true -> scoped t s (refresh_video_display d).
Proof. intros Ht. unfold refresh_video_display. obey. apply scoped_on_server. intros v _. apply srv_opt. Qed.

Lemma srv_add_video t id src d v : contains (get_service_name src d) v = false ->
  srv_step t id (Some v) (Some (add_service (video_service src d) v)).
Proof.
  intros Hc Hok. split; [apply add_service_reg_ok; [apply new_service_ok|done]|].
  intros id' n. unfold follows. simpl. destruct (decide (n = get_service_name src d)) as [->|Hne].
  - rewrite lookup_insert_eq. unfold is_subed. simpl. by rewrite !lookup_empty.
  - rewrite lookup_insert_ne by done. by left.
Qed.

(** The video source of the session, and the services it may follow. *)
Definition source_of (t : AuthConnType) : VideoSource := match t with ViewCamera => Camera | _ => Monitor end.

Lemma svc_source t d : video_type t = true -> svc_allowed t (get_service_name (source_of t) d).
Proof. destruct t; simpl; eauto; done. Qed.

Lemma flags_source t c : video_type t = true -> flags t c -> video_source c = source_of t.
Proof. unfold video_source. destruct t; try done; by intros _ ((_ & -> & _) & _). Qed.

Lemma srv_missing t id src (ds : list Z) v :
  srv_step t id (Some v)
    (Some (foldl (fun v d => if contains (get_service_name src d) v then v else add_service (video_service src d) v) v ds)).
Proof.
  revert v. induction ds as [|d ds IH]; intros v; cbn [foldl]; [apply srv_step_refl|]. eapply srv_step_trans; [|apply IH].
  destruct (contains _ v) eqn:E; [apply srv_step_refl|]. by apply srv_add_video.
Qed.

Lemma srv_capture t conn ds include exclude v : video_type t = true ->
  srv_step t (ci_id conn) (Some v) (Some (capture_displays conn (source_of t) ds include exclude v)).
Proof.
  intros Ht Hok. split; [by apply (exec_reg_ok (CCapture conn (source_of t) ds include exclude))|].
  intros id' n. destruct (capture_spec conn (source_of t) ds include exclude id' n v Hok) as [_ ->].
  destruct (bool_decide (id' = sub_id conn) && is_video_service_name n && contains n v) eqn:E; [|by left].
  bools. case_bool_decide as Hin.
  - intros _. right. split; [done|]. apply list_elem_of_fmap in Hin as (d & -> & _). by apply svc_source.
  - destruct exclude; simpl; [done|by left].
Qed.

Lemma moves_flags t s s' : moves t s s' -> flags t (conn s) -> flags t (conn s').
Proof.
  intros [[] _] (Hf & Hp & Hm). split; [|split; auto]. destruct t; simpl in *;
    rewrite ?k_file_transfer0, ?k_view_camera0, ?k_token0, ?k_window0 by done; done.
Qed.

Lemma scoped_capture t add sub set s : video_type t = true -> flags t (conn s) -> scoped t s (capture_displays_of add sub set).
Proof.
  intros Ht Hf. unfold capture_displays_of. obey.
  - apply scoped_on_server. intros v _. rewrite (flags_source t (conn s)) by done.
    eapply srv_step_trans; [apply srv_missing|]. eapply srv_step_trans; [apply srv_missing|].
    destruct (negb _); [|destruct (negb _)]; by apply (srv_capture t (inner (conn s))).
  - apply scoped_subscribe_to. intros _. destruct t; try done.
    match goal with H : moves _ s ?s1, H' : moves _ ?s1 ?s2, E : c_follow_remote_window _ = true |- _ =>
      pose proof (moves_flags _ _ _ H' (moves_flags _ _ _ H Hf)) as Hf' end.
    destruct Hf' as ((_ & _ & Hw) & _). simpl in *. congruence.
Qed.

Lemma scoped_display_changed t idx src s :
  scoped t s match e_display_changed idx src with Some m => send m | None => skip end.
Proof. obey. Qed.

Lemma scoped_switch_display_to t d s : video_type t = true -> flags t (conn s) -> scoped t s (switch_display_to d).
Proof.
  intros Ht Hf. unfold switch_display_to. obey. apply scoped_on_server. intros v _. rewrite (flags_source t (conn s)) by done.
  eapply srv_step_trans; [|by apply (srv_subscribe t _ (inner (conn s))); intros _; apply svc_source].
  eapply srv_step_trans; [|destruct (negb _); [by apply (srv_subscribe t _ (inner (conn s)))|apply srv_step_refl]].
  destruct (negb _ && negb _) eqn:E; [|apply srv_step_refl]. bools. by apply srv_add_video.
Qed.

End Video.
#[export] Hint Resolve scoped_if_set scoped_refresh scoped_display_changed scoped_switch_display_to : rust.

(** ** Remote sessions *)

Section RemoteScope.
Context `{env : Env}.

Lemma remote_subscribe name sub s : scoped Remote s (subscribe_to name sub).
Proof. apply scoped_subscribe_to. done. Qed.
#[local] Hint Resolve remote_subscribe : rust.

Lemma remote_privacy_on key s : scoped Remote s (turn_on_privacy key).
Proof. unfold turn_on_privacy, turn_off_privacy_to_msg. obey. Qed.
Lemma remote_privacy_off key s : scoped Remote s (turn_off_privacy key).
Proof. unfold turn_off_privacy, turn_off_privacy_to_msg. obey. Qed.
#[local] Hint Resolve remote_privacy_on remote_privacy_off : rust.

Lemma remote_resolution d r s : scoped Remote s (change_resolution d r).
Proof. unfold change_resolution. obey. Qed.
#[local] Hint Resolve remote_resolution : rust.

Lemma remote_options o s : scoped Remote s (update_options o).
Proof.
  unfold update_options, update_quality, subscribe_cursor, subscribe_audio, update_privacy_mode, update_block_input,
    update_terminal_persistence, update_show_my_cursor, send_block_input_error.
  obey; try (by case_match); apply scoped_if_set; intros b; obey; by case_match.
Qed.
#[local] Hint Resolve remote_options : rust.

Lemma remote_switch_display d w h s : flags Remote (conn s) -> scoped Remote s (handle_switch_display d w h).
Proof. intros Hf. unfold handle_switch_display. obey. Qed.

Lemma remote_close_voice_call s : scoped Remote s close_voice_call.
Proof. unfold close_voice_call, subscribe_audio_of_camera. obey. Qed.
#[local] Hint Resolve remote_close_voice_call : rust.

Lemma remote_file_action fa s : flags Remote (conn s) -> scoped Remote s (on_file_action fa).
Proof.
  intros ((Hft & _ & _) & Hp & _). unfold on_file_action. obey.
  unfold id in *. rewrite Hft in Heqb. destruct fa as [[]|]; try done. simpl in Heqb. bools.
  unfold run_file_action, on_send. rewrite Heqb. obey.
  all: match goal with H : printer_index _ _ = Some _ |- _ => simpl in H; by rewrite Hp in H end.
Qed.

Lemma remote_file_response fr s : scoped Remote s (on_file_response fr).
Proof. unfold on_file_response. obey. Qed.

Lemma remote_mouse e s : scoped Remote s (on_mouse_event e).
Proof. unfold on_mouse_event. obey. by case_match. Qed.
Lemma remote_pointer e s : scoped Remote s (on_pointer_device_event e).
Proof. unfold on_pointer_device_event. obey. Qed.

(** A modifier is never a press. *)
Lemma modifier_no_press me k : event_modifier me = Some k -> is_press me = false.
Proof. intros H. unfold is_press. rewrite H. simpl. by rewrite orb_true_r, andb_false_r. Qed.

Lemma remote_key e s : scoped Remote s (on_key_event e).
Proof.
  unfold on_key_event. obey. apply moves_conn. split; simpl; auto.
  intros ->. by rewrite (modifier_no_press e r) by done.
Qed.

Lemma remote_clipboard cs s : scoped Remote s (on_clipboard cs).
Proof. unfold on_clipboard. obey. Qed.

Lemma remote_switch_sides uuid s : scoped Remote s (on_switch_sides_request uuid).
Proof. unfold on_switch_sides_request. obey. Qed.
#[local] Hint Resolve remote_switch_sides : rust.

Lemma remote_misc m s : flags Remote (conn s) -> c_authed (conn s) = Some Remote -> scoped Remote s (on_misc m).
Proof.
  intros Hf Ht. unfold on_misc, toggle_privacy_mode, on_option. obey; auto using remote_switch_display, scoped_capture.
Qed.

Lemma remote_session m s : flags Remote (conn s) -> c_authed (conn s) = Some Remote -> scoped Remote s (on_session_message m).
Proof.
  intros Hf Ht. unfold on_session_message. destruct m; try (by obey);
    auto using remote_mouse, remote_pointer, remote_key, remote_clipboard, remote_file_action, remote_file_response, remote_misc.
  - unfold on_audio_frame. obey.
  - unfold on_voice_call_request. obey.
  - unfold on_screenshot_request. obey. unfold video_source. simpl. by destruct Hf as ((_ & -> & _) & _).
  - unfold handle_terminal_action. obey. destruct Hf as ((_ & _ & Htok) & _). simpl in *. by rewrite Htok in *.
Qed.

End RemoteScope.

(** ** Camera sessions *)

Section CameraScope.
Context `{env : Env}.

Lemma scoped_unset t f k s : f = Known NotSet -> scoped t s (if_set f k).
Proof. intros ->. apply obeys_ret. exact _. Qed.

Lemma camera_scoped_option o o' :
  (scoped_view_camera_option o).1 = Some o' -> no_control_field o' /\ o_terminal_persistent o' = Known NotSet.
Proof. intros H. pose proof (scoped_view_camera_eq o) as Heq. rewrite H in Heq. simpl in Heq. subst o'. by repeat split. Qed.

Lemma camera_audio sub s : scoped ViewCamera s (subscribe_to AUDIO_NAME sub).
Proof. apply scoped_subscribe_to. by left. Qed.
#[local] Hint Resolve camera_audio : rust.

Lemma camera_options o s : no_control_field o -> o_terminal_persistent o = Known NotSet -> scoped ViewCamera s (update_options o).
Proof.
  intros [] Ht. unfold update_options, update_privacy_mode, update_block_input, update_quality, subscribe_audio.
  obey; first [by apply scoped_unset | apply scoped_if_set; intros b; by obey].
Qed.

Lemma camera_close_voice_call s : scoped ViewCamera s close_voice_call.
Proof. unfold close_voice_call, subscribe_audio_of_camera. obey. Qed.

Lemma camera_switch_display d w h s : flags ViewCamera (conn s) -> scoped ViewCamera s (handle_switch_display d w h).
Proof. intros Hf. pose proof Hf as ((_ & Hv & _) & _). unfold handle_switch_display. obey. simpl in *. bools. congruence. Qed.

Lemma camera_misc m s : flags ViewCamera (conn s) -> c_authed (conn s) = Some ViewCamera ->
  is_view_camera_scoped_misc m = true -> scoped ViewCamera s (on_misc m).
Proof.
  intros Hf Ht Hm. pose proof Hf as ((_ & Hv & _) & _). unfold on_misc, on_option.
  destruct m as [[]|]; try discriminate Hm; obey; auto using camera_switch_display, scoped_capture.
  1, 4, 5: simpl in *; by rewrite Hv in *.
  all: simpl in *; rewrite Ht in *.
  - bools. done.
  - match goal with H : scoped_update_option_message _ _ = Some _ |- _ => apply camera_scoped_option in H as [??] end.
    by apply camera_options.
Qed.

Lemma scoped_early t (b : Conn -> bool) (k : Conn -> Act bool) s :
  b (conn s) = true -> scoped t s (c ← getc id; if b c then mret true else k c).
Proof. intros Hb. unfold getc. obey_step. unfold id. rewrite Hb. obey_step. Qed.

Lemma scoped_no_clipboard t cs s : c_authed (conn s) <> Some Remote -> scoped t s (on_clipboard cs).
Proof.
  intros Ht. unfold on_clipboard, should_handle_text_clipboard_message. obey. simpl in *. by destruct (c_authed (conn s)) as [[]|].
Qed.

Lemma camera_session m s : flags ViewCamera (conn s) -> c_authed (conn s) = Some ViewCamera ->
  authorized_message_scope_violation ViewCamera m = None -> scoped ViewCamera s (on_session_message m).
Proof.
  intros Hf Ht Hv. pose proof Hf as ((_ & Hc & _) & _). unfold on_session_message.
  destruct m; simpl in Hv; try discriminate Hv; try (by obey).
  1-3: by apply (scoped_early _ is_authed_view_camera_conn); unfold is_authed_view_camera_conn; rewrite Ht.
  1-2: by apply scoped_no_clipboard; rewrite Ht.
  - destruct m as [m|]; [|unfold on_misc; by obey]. destruct (is_view_camera_scoped_misc (Some m)) eqn:E; [by apply camera_misc|].
    destruct m; simpl in E; try discriminate E; unfold authorized_message_scope_violation in Hv; simpl in Hv; rewrite ?E in Hv;
      try discriminate Hv; unfold on_misc; by obey.
  - unfold on_audio_frame. obey.
  - unfold on_voice_call_request. obey. apply camera_close_voice_call.
  - unfold on_screenshot_request. obey. unfold video_source. simpl. by rewrite Hc.
Qed.

End CameraScope.

(** ** File, terminal and forwarding sessions *)

Section OtherScopes.
Context `{env : Env}.

Lemma file_read_job id t path hidden limit s : scoped FileTransfer s (create_and_start_read_job id t path hidden limit).
Proof. unfold create_and_start_read_job, process_new_read_job. obey. Qed.
#[local] Hint Resolve file_read_job : rust.

Lemma file_action fa s : flags FileTransfer (conn s) -> scoped FileTransfer s (on_file_action fa).
Proof.
  intros (_ & Hp & _). unfold on_file_action, run_file_action, on_send, on_receive, on_cancel, on_send_confirm, read_empty_dirs, read_dir.
  obey. all: match goal with H : printer_index _ _ = Some _ |- _ => simpl in H; by rewrite Hp in H | _ => idtac end.
Qed.

(** Broadcast messages change nothing and do nothing. *)
Lemma noop_session t m s : noop_compat t m = true -> c_authed (conn s) = Some t -> on_session_message m s = (true, s, []).
Proof.
  intros Hn Ht. destruct m; try (by destruct t);
    [unfold on_session_message, on_clipboard, mbind, M_bind, getc, gets, should_handle_text_clipboard_message; simpl; rewrite Ht; by destruct t..|].
  destruct m as [[]|]; try (by destruct t);
    unfold on_session_message, on_misc, on_option, mbind, M_bind, getc, gets, should_handle_render_broadcast_message; simpl;
    rewrite ?Ht; try (by destruct t).
  destruct t; try discriminate Hn; simpl; try done.
  simpl in Hn. rewrite orb_false_r in Hn. assert (Htp : o_terminal_persistent o = Known NotSet).
  { unfold is_supported_decoding_only_option in Hn. bools. by apply not_set_spec. }
  unfold scoped_terminal_login_option. rewrite Htp. done.
Qed.

Lemma scoped_noop t m s : noop_compat t m = true -> c_authed (conn s) = Some t -> scoped t s (on_session_message m).
Proof. intros Hn Ht. unfold obeys, st, fx. rewrite (noop_session t m s Hn Ht). simpl. by split; [reflexivity|]. Qed.

Lemma terminal_options o s : no_control_field o -> no_media_field o -> scoped Terminal s (update_options o).
Proof.
  intros [] (Hq & Hcq & Hfps & Hdec & Hda). unfold update_options, update_privacy_mode, update_block_input, update_quality.
  rewrite Hq, Hcq, Hfps, Hdec. simpl.
  obey; first [by apply scoped_unset | apply scoped_if_set; intros b; unfold update_terminal_persistence; by obey].
Qed.

Lemma terminal_misc m s : c_authed (conn s) = Some Terminal -> is_terminal_scoped_misc m = true -> scoped Terminal s (on_misc m).
Proof.
  intros Ht Hm. unfold on_misc, on_option. destruct m as [[]|]; try discriminate Hm; obey; simpl in *; rewrite Ht in *.
  - by bools.
  - match goal with H : scoped_update_option_message _ _ = Some _ |- _ => rename H into Ho end. simpl in Ho.
    pose proof (scoped_terminal_eq o) as Heq. rewrite Ho in Heq. simpl in Heq. subst. apply terminal_options; by repeat split.
Qed.

(** The messages that pass the scope check of a type stay in the type. *)
Lemma session_scoped t m s : flags t (conn s) -> c_authed (conn s) = Some t ->
  authorized_message_scope_violation t m = None -> is_connection_housekeeping_message m = false ->
  scoped t s (on_session_message m).
Proof.
  intros Hf Ht Hv Hh. destruct (noop_compat t m) eqn:Hn; [by apply scoped_noop|].
  pose proof Hv as Ha. unfold authorized_message_scope_violation in Ha. rewrite Hh, Hn in Ha.
  destruct t; [by apply remote_session| | | by apply camera_session|]; apply then_some_none, negb_false_iff in Ha.
  - destruct m; try discriminate Ha; simpl; [by apply file_action|]. unfold on_file_response. obey.
  - discriminate Ha.
  - destruct m; try discriminate Ha; simpl; [by apply terminal_misc|]. unfold handle_terminal_action. obey.
Qed.

End OtherScopes.

(** ** Permissions *)

(** The permission of the connection that an effect needs. *)
Definition permitted (c : Conn) (e : Effect) : Prop :=
  match e with
  | ToInput (In_Mouse _ _ _ _ simulate _) => simulate = true -> peer_keyboard_enabled c = true
  | ToInput (In_Key _ _ | In_Pointer _ _) => peer_keyboard_enabled c = true
  | ToInput (In_BlockOn | In_BlockOff) => c_keyboard c = true /\ c_block_input c = true
  | UpdateClipboard _ => clipboard_enabled c = true
  | ForceReboot | Reboot => c_restart c = true
  | SetResolution _ _ _ => c_keyboard c = true
  | PrivacyOn _ => c_privacy_mode c = true
  | StartAudioThread _ | PlayAudio _ => c_disable_audio c = false
  | _ => True
  end.

(** The permissions that only the connection manager changes. *)
Definition perms (c : Conn) : bool * bool * bool * bool :=
  (c_keyboard c, c_block_input c, c_restart c, c_privacy_mode c).
Definition same_perms (s s' : St) : Prop := perms (conn s') = perms (conn s).

#[global] Instance same_perms_preorder : PreOrder same_perms.
Proof. split; [done|]. intros s1 s2 s3 H1 H2. unfold same_perms in *. congruence. Qed.

Section Permitted.
Context `{env : Env} (c0 : Conn).
Abbreviation within_perms := (obeys same_perms (permitted c0)).

(** The permissions at the current state are those of [c0]. *)
Ltac perm_here s :=
  let Hh := fresh "Hh" in
  assert (Hh : perms (conn s) = perms c0) by (unfold same_perms in *; congruence);
  unfold perms in Hh; injection Hh as ? ? ? ?.
Ltac perm_leaf :=
  match goal with
  | |- same_perms _ _ => reflexivity
  | |- permitted _ _ => simpl; first [done | by case_match | unfold id in *; bools; first [done | congruence | split; congruence]]
  end.
Ltac obeyp :=
  repeat first
    [ match goal with
      | |- obeys _ _ _ (getc _ ≫= _) => unfold getc
      | |- obeys _ _ _ (getg _ ≫= _) => unfold getg
      | |- obeys _ _ _ (modc _) => unfold modc
      | |- obeys _ _ _ (modg _) => unfold modg
      | |- obeys _ _ _ (send_to_cm _) => unfold send_to_cm
      | |- obeys _ _ _ (send_fs _) => unfold send_fs
      | |- obeys _ _ _ (send_misc _) => unfold send_misc
      | |- obeys _ _ _ (send _) => unfold send
      | |- obeys _ _ _ (on_server _) => unfold on_server
      | |- obeys _ _ _ (subscribe_to _ _) => unfold subscribe_to
      | |- obeys _ _ _ (if_set ?f _) => unfold if_set
      | |- obeys _ _ _ (gets _ ≫= _) => apply obeys_gets_bind; [exact _|]; cbn beta
      | |- obeys _ _ _ (_ ≫= _) => apply obeys_seq; [exact _| |intros ? ? ?]
      end
    | obey_step
    | perm_leaf ].

Lemma perm_close lock s : within_perms s (on_close lock).
Proof. unfold on_close. obeyp. Qed.
Lemma perm_remove s : within_perms s remove_my_session.
Proof. unfold remove_my_session. obeyp. Qed.
Lemma perm_timer s : within_perms s update_auto_disconnect_timer.
Proof. unfold update_auto_disconnect_timer. obeyp. Qed.

Lemma perm_resolution d r s : perms (conn s) = perms c0 -> within_perms s (change_resolution d r).
Proof. intros Hp. perm_here s. unfold change_resolution. obeyp. Qed.
Lemma perm_privacy_on k s : perms (conn s) = perms c0 -> within_perms s (turn_on_privacy k).
Proof. intros Hp. perm_here s. unfold turn_on_privacy, turn_off_privacy_to_msg. obeyp. Qed.
Lemma perm_privacy_off k s : within_perms s (turn_off_privacy k).
Proof. unfold turn_off_privacy, turn_off_privacy_to_msg. obeyp. Qed.
Lemma perm_refresh d s : within_perms s (refresh_video_display d).
Proof. unfold refresh_video_display. obeyp. Qed.

Lemma perm_block_input o s : perms (conn s) = perms c0 -> within_perms s (update_block_input o).
Proof. intros Hp. perm_here s. unfold update_block_input, send_block_input_error. obeyp. Qed.

Lemma perm_options o s : perms (conn s) = perms c0 -> within_perms s (update_options o).
Proof.
  intros Hp. unfold update_options, update_quality, subscribe_cursor, subscribe_audio, update_privacy_mode,
    update_terminal_persistence, update_show_my_cursor.
  obeyp; unfold same_perms in *;
    first [apply perm_privacy_off | apply perm_privacy_on; congruence | apply perm_block_input; congruence].
Qed.

Lemma perm_capture add sub set s : within_perms s (capture_displays_of add sub set).
Proof. unfold capture_displays_of. obeyp. Qed.
Lemma perm_switch_display d w h s : perms (conn s) = perms c0 -> within_perms s (handle_switch_display d w h).
Proof.
  intros Hp. unfold handle_switch_display, switch_display_to. obeyp. apply perm_resolution. unfold same_perms in *. congruence.
Qed.
Lemma perm_file_action fa s : within_perms s (on_file_action fa).
Proof.
  unfold on_file_action, run_file_action, on_send, on_receive, on_cancel, on_send_confirm, read_empty_dirs, read_dir,
    create_and_start_read_job, process_new_read_job, post_file_audit. obeyp.
Qed.
Lemma perm_violation message s : within_perms s (handle_authorized_scope_violation message).
Proof.
  unfold handle_authorized_scope_violation, post_session_scope_violation_alarm, send_close_reason_no_retry. obeyp;
    auto using perm_close, perm_remove.
Qed.

Lemma perm_test_delay d s : within_perms s (on_test_delay d).
Proof. unfold on_test_delay. obeyp. Qed.
Lemma perm_login_error e s : within_perms s (_ ← send_login_error e; mret false).
Proof. unfold send_login_error. obeyp. Qed.
Lemma perm_peer_close s : within_perms s (_ ← on_close true; _ ← remove_my_session; mret false).
Proof. obeyp; auto using perm_close, perm_remove. Qed.

Lemma perm_session m s : conn s = c0 -> within_perms s (on_session_message m).
Proof.
  intros Hc. assert (Hp : perms (conn s) = perms c0) by congruence. unfold on_session_message.
  destruct m; try (by obeyp);
    unfold on_mouse_event, on_pointer_device_event, on_key_event, on_clipboard, on_file_response, on_audio_frame,
      on_voice_call_request, on_screenshot_request, handle_terminal_action, close_voice_call, subscribe_audio_of_camera.
  all: try (obeyp; auto using perm_timer, perm_refresh; subst c0; simpl in *; bools; congruence).
  - apply perm_file_action.
  - unfold on_misc, toggle_privacy_mode, on_option, on_switch_sides_request. obeyp;
      auto using perm_timer, perm_refresh, perm_options, perm_capture, perm_switch_display, perm_privacy_on, perm_privacy_off,
        perm_resolution, perm_close.
    all: subst c0; simpl in *; unfold id in *; bools; congruence.
Qed.

End Permitted.

(** ** Whole messages *)

Section Messages.
Context `{env : Env}.

(** What reporting and ending a session does. *)
Definition ending (e : Effect) : Prop :=
  match e with
  | Send (Msg_Misc (Some (Misc_CloseReason _))) | ToCm (Cm_Close | Cm_Disconnected)
  | PostAudit (ScopeAlarm _ _) | LockScreen | ResetVoiceInput => True
  | _ => False
  end.

Lemma violation_ends message s : Forall ending (fx (handle_authorized_scope_violation message) s).
Proof.
  assert (Hpre : PreOrder (fun _ _ : St => True)) by (split; done).
  enough (obeys (fun _ _ => True) ending s (handle_authorized_scope_violation message)) as [_ H] by exact H.
  unfold handle_authorized_scope_violation, post_session_scope_violation_alarm, send_close_reason_no_retry, on_close,
    remove_my_session, send_misc, send, send_to_cm, getc, modc, modg.
  repeat first [obey_step | done]. simpl. by destruct (orb _ _).
Qed.

Lemma message_scoped (login : LoginRequest -> Act bool) (m : Message) (s : St) (t : AuthConnType) :
  c_authorized (conn s) = true -> c_authed (conn s) = Some t -> flags t (conn s) ->
  scoped t s (on_message_with login m)
  /\ (authorized_message_scope_violation t m <> None -> Forall ending (fx (on_message_with login m) s)).
Proof.
  intros Hauth Ht Hf.
  destruct (is_connection_housekeeping_message m) eqn:Hh.
  - split; [|unfold authorized_message_scope_violation; by rewrite Hh].
    destruct m; try discriminate Hh; unfold on_message_with.
    + unfold getc. obey_step. unfold id. rewrite Hauth. obey.
    + unfold getc. obey_step. unfold id. rewrite Hauth, Ht. simpl. by auto with rust.
    + destruct m as [[]|]; try discriminate Hh. obey.
  - assert (Hrun : on_message_with login m s =
      match authorized_message_scope_violation t m with
      | Some message => handle_authorized_scope_violation message s
      | None => on_other_message login m s
      end).
    { unfold on_message_with. destruct m as [| | | | | | | | | | | | |misc| | | | | | | | | | | | | | |]; try discriminate Hh;
        try (destruct misc as [[]|]; try discriminate Hh);
        unfold getc; rewrite run_gets_bind; unfold id; rewrite Hauth, Ht; simpl; by case_match. }
    destruct (authorized_message_scope_violation t m) eqn:Hv.
    + split; [|intros _; unfold fx; rewrite Hrun; apply violation_ends].
      unfold obeys, st, fx. rewrite Hrun. apply scoped_violation.
    + split; [|done]. unfold obeys, st, fx. rewrite Hrun. fold (st (on_other_message login m) s) (fx (on_other_message login m) s).
      change (scoped t s (on_other_message login m)). unfold on_other_message.
      destruct m; try discriminate Hh; first [by auto with rust; obey | unfold getc; obey_step; unfold id; rewrite Hauth; destruct (c_pf_socket (conn s)); [by obey|by apply session_scoped]].
Qed.

End Messages.
