(* ===== verification/ConnLogin.v ===== *)
(** * Logging in to a host

    Models the login path of [client/src/server/connection.rs]: opening the
    connection (source restriction), permissions, passwords and recent sessions, the
    temporary password's rotation, and what authorizes a session
    ([send_logon_response_and_keep_alive]).  The permit of the account server
    ([nestlink_auth::accept], modelled in [NestlinkPermit]) and whether the account
    is logged in ([nestlink_auth::ready]) are answers of the environment. *)
From stdpp Require Import base gmap list strings.
From Stdlib Require Import ZArith Lia.
From S2P Require Import Prelude RustStr Effects Message SessionScope Service ServerReg LoginFailure ConnState Connection.

#[local] Open Scope Z_scope.

(** ** Permissions *)

Inductive PermissionOption :=
| OPTION_ENABLE_KEYBOARD | OPTION_ENABLE_REMOTE_PRINTER | OPTION_ENABLE_CLIPBOARD | OPTION_ENABLE_FILE_TRANSFER
| OPTION_ENABLE_AUDIO | OPTION_ENABLE_CAMERA | OPTION_ENABLE_TERMINAL | OPTION_ENABLE_TUNNEL
| OPTION_ENABLE_REMOTE_RESTART | OPTION_ENABLE_RECORD_SESSION | OPTION_ENABLE_BLOCK_INPUT | OPTION_ENABLE_PRIVACY_MODE.

(** Two bits per permission: 1 disables, 2 enables, 0 and 3 say nothing. *)
Definition get_control_permission (permissions index : Z) : option bool :=
  if (0 <=? index) && (index <? 32) then
    let value := Z.land (Z.shiftr permissions (index * 2)) 3 in
    if value =? 1 then Some false else if value =? 2 then Some true else None
  else None.

Inductive ApproveMode := ApprovePassword | ApproveClick | ApproveBoth.
#[global] Instance ApproveMode_eq_dec : EqDecision ApproveMode.
Proof. solve_decision. Defined.

(** ** The environment of a login *)

Class LoginEnv := {
  l_accept : LoginRequest -> result str str;       (** [nestlink_auth::accept]: the permit's id *)
  l_ready : bool;                                  (** [nestlink_auth::ready] *)
  l_access_mode : str;                             (** the option [access-mode] *)
  l_option2bool : PermissionOption -> bool;
  l_permission_index : PermissionOption -> Z;      (** numbers of the protocol's enumeration *)
  l_my_id : str;                                   (** [Config::get_id] *)
  l_is_direct_ip_access : str -> bool;
  l_headless_allowed : bool;
  l_headless : bool;
  l_desktop_username : str;
  l_try_start_desktop : str -> str -> str;
  l_logon_screen_password : bool;                  (** the option, and the screen is locked or before a login *)
  l_approve_mode : ApproveMode;
  l_has_valid_password : bool;
  l_temporary_enabled : bool;
  l_permanent_enabled : bool;
  l_fresh_password : str;                          (** what [update_temporary_password] generates *)
  l_sha256 : bytes -> bytes;
  l_local_storage : str * str;                     (** permanent password storage and salt *)
  l_preset_storage : str * str;
  l_local_usable : str -> str -> bool;
  l_preset_usable : str -> str -> bool;
  l_decode_permanent_h1 : str -> option bytes;
  l_decode_preset_h1 : str -> option bytes;
  l_str2color : str -> Z;
  l_connect : str -> bool;                         (** TCP connect within three seconds *)
  l_service_specified_user : option bool;          (** [is_service_specified_user] of the requested service *)
  l_new_service_id : str;
  l_remote_print : str -> bool;                    (** [is_support_remote_print] *)
  l_windows : str;                                 (** [Platform::Windows] *)
  l_console_reporter : bool;                       (** sessions are reported to the console *)
  l_login_screen_wayland : bool;
  l_display_server : str;
  l_display_server_known : bool;                   (** it is X11 or Wayland *)
  l_inited_msg : option Message;
  l_sync_displays : result str unit;
  l_wayland_rdp_input : bool;
  l_remove_wallpaper : bool;
  l_is_dir : str -> bool;
  l_whitelist : str;                               (** the option [whitelist] *)
  l_cidr_contains : str -> str -> bool;
  l_window_required_closed : bool;                 (** the main window must be open and is not *)
}.

Section Login.
Context `{env : Env, lenv : LoginEnv}.

Definition is_permission_enabled_locally (o : PermissionOption) : bool :=
  if bool_decide (l_access_mode = lit "full") then true
  else if bool_decide (l_access_mode = lit "view") then false
  else l_option2bool o.

Definition permission (o : PermissionOption) (control_permissions : option Z) : bool :=
  match control_permissions with
  | Some p =>
    match get_control_permission p (l_permission_index o) with
    | Some enabled => enabled
    | None => is_permission_enabled_locally o
    end
  | None => is_permission_enabled_locally o
  end.

(** ** Comparing passwords *)

(** Bytes compared with no early exit. *)
Definition constant_time_eq (a b : bytes) : bool :=
  if negb (bool_decide (length a = length b)) then false
  else foldl (fun x ab => Z.lor x (Z.lxor ab.1 ab.2)) 0 (zip a b) =? 0.

Definition verify_h1 (c : Conn) (h1 : bytes) : bool :=
  constant_time_eq (l_sha256 (h1 ++ str_bytes (c_challenge c))) (lr_password (c_lr c)).

Definition validate_password_plain (c : Conn) (password : str) : bool :=
  if bool_decide (password = []) then false
  else verify_h1 c (l_sha256 (str_bytes password ++ str_bytes (c_salt c))).

Definition validate_password_storage (c : Conn) (storage : str) : bool :=
  if bool_decide (storage = []) then false
  else match l_decode_permanent_h1 storage with
       | Some h1 => verify_h1 c h1
       | None => validate_password_plain c storage
       end.

Definition validate_preset_password_storage (c : Conn) (storage salt : str) : bool :=
  if bool_decide (salt = []) then validate_password_plain c storage
  else match l_decode_preset_h1 storage with Some h1 => verify_h1 c h1 | None => false end.

(** ** The temporary password *)

Definition MAX_CONSECUTIVE_FAILURES : Z := 10.

Definition check_update_temporary_password (success : bool) : Act unit :=
  g ← getg id;
  let current := g_temp_password g in
  if negb l_temporary_enabled || bool_decide (current = []) then skip
  else
    let state := if bool_decide (ts_password (g_temp g) = current) then g_temp g else MkTemp current 0 in
    if success then modg (fun g => g <| g_temp := MkTemp (ts_password state) 0 |>)
    else
      let failures := i32_add (ts_failures state) 1 in
      if failures <? MAX_CONSECUTIVE_FAILURES then modg (fun g => g <| g_temp := MkTemp (ts_password state) failures |>)
      else
        _ ← emit UpdateTemporaryPassword;
        modg (fun g => g <| g_temp_password := l_fresh_password |> <| g_temp := MkTemp l_fresh_password 0 |>).

(** ** Sessions *)

Definition update_or_insert_session (now : Z) (key : SessionKey) (password : option str) (t : option bool) (g : Glob) : Glob :=
  match g_sessions g !! key with
  | Some s =>
    g <| g_sessions ::= <[key := MkSess (last_recv_time s) (default (random_password s) password) (default (tfa s) t)]> |>
  | None =>
    g <| g_sessions ::= <[key := MkSess (length (g_clocks g)) (default [] password) (default false t)]> |>
      <| g_clocks ::= fun l => l ++ [now] |>
  end.

Definition set_session_2fa (now : Z) (key : SessionKey) (g : Glob) : Glob :=
  match g_sessions g !! key with
  | Some s => g <| g_sessions ::= <[key := s <| tfa := true |>]> |>
  | None =>
    g <| g_sessions ::= <[key := MkSess (length (g_clocks g)) [] true]> |> <| g_clocks ::= fun l => l ++ [now] |>
  end.

Definition SESSION_TIMEOUT : Z := 30 * 1000000000.

Definition session_live (now : Z) (clocks : list Z) (s : Session) : bool :=
  Z.max 0 (now - default now (clocks !! last_recv_time s)) <? SESSION_TIMEOUT.

Definition retain_sessions (now : Z) (g : Glob) : Glob :=
  g <| g_sessions ::= filter (fun kv => session_live now (g_clocks g) kv.2 = true) |>.

Definition set_conn_audit_primary_auth (a : ConnAuditPrimaryAuth) : Act unit := modc (fun c => c <| c_primary_auth := a |>).
Definition set_conn_audit_two_factor (a : ConnAuditTwoFactor) : Act unit := modc (fun c => c <| c_two_factor := a |>).

(** [is_recent_session] *)
Definition is_recent_session (two_factor : bool) : Act bool :=
  _ ← modg (retain_sessions e_now);
  c ← getc id;
  g ← getg id;
  match g_sessions g !! session_key c with
  | Some session =>
    if negb (bool_decide (lr_password (c_lr c) = []))
       && ((two_factor && tfa session) || (negb two_factor && validate_password_plain c (random_password session)))
    then
      _ ← (if two_factor then set_conn_audit_two_factor TfTotp else set_conn_audit_primary_auth PaTemporaryPassword);
      mret true
    else mret false
  | None => mret false
  end.

(** ** Validating the password *)

Definition validate_password (allow_permanent_password : bool) : Act bool :=
  c ← getc id;
  temp ← getg g_temp_password;
  if l_temporary_enabled && validate_password_plain c temp then
    _ ← set_conn_audit_primary_auth PaTemporaryPassword;
    _ ← modg (update_or_insert_session e_now (session_key c) (Some temp) (Some false));
    _ ← check_update_temporary_password true;
    mret true
  else if l_permanent_enabled || allow_permanent_password then
    let '(storage, salt) := l_local_storage in
    let '(hard, hard_salt) := l_preset_storage in
    let ok :=
      if negb (bool_decide (storage = [])) then l_local_usable storage salt && validate_password_storage c storage
      else l_preset_usable hard hard_salt && validate_preset_password_storage c hard hard_salt in
    if ok then _ ← set_conn_audit_primary_auth PaPermanentPassword; mret true else mret false
  else mret false.

(** ** Failures *)

Definition post_check_effect (e : CheckEffect) : Act unit :=
  match e with SendLoginError msg => send_login_error msg | PostAlarm t => post_alarm_audit t end.

(** [check_failure(0)]; the tables have two entries, so the lookup succeeds. *)
Definition check_failure_now : Act (entry * Z * bool) :=
  c ← getc id;
  t ← getg g_failures;
  match check_failure (c_ip c) e_time e_time 0 t with
  | Some (f, time, ok, fx, t') =>
    _ ← for_each post_check_effect fx;
    _ ← modg (fun g => g <| g_failures := t' |>);
    mret (f, time, ok)
  | None => mret ((0, 0, 0), 0, false)
  end.

Definition update_failure_now (f : entry) (time : Z) (remove : bool) : Act unit :=
  c ← getc id;
  modg (fun g => g <| g_failures ::= fun t => default t (update_failure (c_ip c) e_time (f, time) remove 0 t) |>).

(** ** Port forwarding *)

Definition normalize_port_forward_target (host : str) (port : Z) : str * bool :=
  let is_rdp := bool_decide (host = lit "RDP") && (port =? 0) in
  let '(host, port) := if is_rdp then (lit "localhost", 3389) else (host, port) in
  let host := if bool_decide (host = []) then lit "localhost" else host in
  (host ++ lit ":" ++ fmt_Z port, is_rdp).

Definition connect_port_forward_if_needed : Act bool :=
  c ← getc id;
  if c_pf_socket c then mret true
  else
    match lr_union (c_lr c) with
    | Some (Lu_PortForward host port) =>
      let '(addr, is_rdp) := normalize_port_forward_target host port in
      _ ← modc (fun c => c <| c_pf_address := addr |>);
      _ ← emit (ConnectTcp addr);
      if l_connect addr then _ ← modc (fun c => c <| c_pf_socket := true |>); mret true
      else
        _ ← send_login_error (lit "Failed to access remote " ++ (if is_rdp then lit "RDP" else addr)
                              ++ lit ". Please make sure it is reachable/open.");
        mret false
    | _ => mret true
    end.

(** ** Terminals *)

(** [prepare_terminal_login_for_authorization] (Linux: the session user's token);
    a value ends the login, with whether to keep the connection. *)
Definition prepare_terminal_login_for_authorization : Act (option bool) :=
  c ← getc id;
  if negb (c_terminal c) || c_terminal_user_token c then mret None
  else
    _ ← modc (fun c => c <| c_terminal_user_token := true |>);
    if bool_decide (l_service_specified_user = Some true) then
      _ ← send_login_error (lit "Terminal service user mismatch detected.");
      _ ← emit (Pause 1);
      mret (Some false)
    else mret None.

Definition init_terminal_service : Act unit :=
  c ← getc id;
  if negb (c_terminal_user_token c) then skip
  else
    _ ← when (bool_decide (c_terminal_service_id c = [])) (modc (fun c => c <| c_terminal_service_id := l_new_service_id |>));
    c ← getc id;
    _ ← emit (TerminalStart (c_terminal_service_id c) (c_terminal_persistent c));
    modc (fun c => c <| c_terminal_service := true |>).

(** ** Subscribing *)

Definition try_sub_camera_displays : Act unit :=
  on_server (fun c v => add_camera_connection e_camera_exists (inner c) (try_add_primary_camera_service e_camera_exists v)).

Definition noperms (c : Conn) : list str :=
  (if negb (peer_keyboard_enabled c) && negb (c_show_remote_cursor c) then [NAME_CURSOR] else [])
  ++ (if negb (c_show_remote_cursor c) then [NAME_POS] else [])
  ++ (if negb (c_follow_remote_window c) then [NAME_WINDOW_FOCUS] else [])
  ++ (if negb (can_sub_clipboard_service c) then [CLIPBOARD_NAME] else [])
  ++ (if negb (audio_enabled c) then [AUDIO_NAME] else []).

Definition try_sub_monitor_services : Act unit :=
  c ← getc id;
  when (is_remote c && negb (c_services_subed c))
    (_ ← modc (fun c => c <| c_services_subed := true |>);
     srv ← getg g_server;
     when (bool_decide (is_Some srv))
       (_ ← emit (RecordCursor true);
        _ ← modc (fun c => c <| c_auto_disconnect_timer := get_auto_disconenct_timer |>);
        on_server (fun c v => add_connection e_primary_display (inner c) (noperms c) (try_add_primay_video_service e_primary_display v)))).

(** ** Authorizing *)

Definition update_codec_on_login : Act unit :=
  lr ← getc c_lr;
  match lr_option lr with
  | Some o => match o_supported_decoding o with Some q => emit (EncoderUpdate q) | None => emit EncoderNewOnlyVP9 end
  | None => emit EncoderNewOnlyVP9
  end.

Definition on_remote_authorized : Act unit :=
  _ ← update_codec_on_login;
  when l_remove_wallpaper (emit RemoveWallpaper).

Definition check_wake_lock : Act unit :=
  l ← getg g_authed;
  emit (WakeLock (Z.of_nat (length l)) (Z.of_nat (length (filter (fun a => ac_conn_type a = Remote) l)))).

(** [AuthedConnID::new] *)
Definition authed_conn_new (t : AuthConnType) : Act unit :=
  c ← getc id;
  let printer := bool_decide (t = Remote) && l_remote_print (lr_version (c_lr c)) && bool_decide (lr_my_platform (c_lr c) = l_windows) in
  _ ← modg (fun g => g <| g_authed ::= fun l => l ++ [MkAuthed (c_id c) t (session_key c) printer] |>);
  _ ← check_wake_lock;
  _ ← when (bool_decide (t = Remote) || bool_decide (t = ViewCamera)) (emit (Qos Q_open));
  modc (fun c => c <| c_authed := Some t |>).

(** The session type of the current flags, with its number in the audit. *)
Definition auth_type (c : Conn) : Z * AuthConnType :=
  if bool_decide (is_Some (c_file_transfer c)) then (1, FileTransfer)
  else if c_pf_socket c then (2, PortForward)
  else if c_view_camera c then (3, ViewCamera)
  else if c_terminal c then (4, Terminal)
  else (0, Remote).

Definition normalize_conn_audit_auth_fields : Act unit :=
  modc (fun c => match c_primary_auth c with
                 | PaClick | PaSwitchSides => c <| c_two_factor := TfNone |>
                 | _ => c
                 end).

Definition record_session_start : Act unit :=
  c ← getc id;
  _ ← post_conn_audit (ConnAudit_authorized (auth_type c).1 (primary_auth_as_i64 (c_primary_auth c)) (two_factor_as_i64 (c_two_factor c)));
  when (negb (c_homedesk_session c) && l_console_reporter)
    (_ ← emit (HomedeskSession (lr_my_id (c_lr c)) (c_ip c) true);
     modc (fun c => c <| c_homedesk_session := true |>)).

(** The desktop that a remote session cannot show (Linux). *)
Definition unsupported_desktop : str :=
  if l_login_screen_wayland then lit "Wayland login screen is not supported"
  else if l_display_server_known then []
  else lit "Unsupported display server type " ++ [34] ++ l_display_server ++ [34] ++ lit ", x11 or wayland expected".

Definition send_peer_info : Act unit := send (Msg_LoginResponse LoginPeerInfo).

(** The response of a session that shows displays; whether to subscribe. *)
Definition respond_remote : Act bool :=
  _ ← match l_inited_msg with Some m => send m | None => skip end;
  _ ← emit ActivateScreen;
  match l_sync_displays with
  | Err err =>
    _ ← on_remote_authorized;
    _ ← send (Msg_LoginResponse (LoginError err false));
    mret false
  | Ok _ =>
    _ ← when l_wayland_rdp_input (emit SetupRdpInput);
    _ ← on_remote_authorized;
    _ ← send_peer_info;
    mret true
  end.

(** From the login response to the first subscriptions. *)
Definition start_session : Act unit :=
  c ← getc id;
  sub_service ←
    (if bool_decide (is_Some (c_file_transfer c)) || c_terminal c then _ ← send_peer_info; mret false
     else if c_view_camera c then _ ← update_codec_on_login; _ ← send_peer_info; mret false
     else respond_remote);
  _ ← update_scoped_login_options;
  match c_file_transfer c with
  | Some (dir, show_hidden) =>
    _ ← modc (fun c => c <| c_keyboard := false |>);
    read_dir (if negb (bool_decide (dir = [])) && l_is_dir dir then dir else []) show_hidden
  | None =>
    if c_terminal c then
      _ ← modc (fun c => c <| c_keyboard := false |>);
      init_terminal_service
    else if c_view_camera c then
      _ ← try_sub_camera_displays;
      _ ← modc (fun c => c <| c_keyboard := false |>);
      send_permission PKeyboard false
    else when sub_service try_sub_monitor_services
  end.

Definition authorize : Act unit :=
  _ ← modc (fun c => c <| c_authorized := true |>);
  t ← getc (fun c => (auth_type c).2);
  _ ← authed_conn_new t;
  g ← getg id;
  _ ← modc (fun c => c <| c_session_recv := last_recv_time <$> (g_sessions g !! session_key c) |>);
  _ ← normalize_conn_audit_auth_fields;
  record_session_start.

Definition NO_PERMIT : str := lit "请先登录自建服务并获取远控许可".

Definition send_logon_response_and_keep_alive : Act bool :=
  c ← getc id;
  if negb l_ready || negb (bool_decide (is_Some (c_permit c))) then
    _ ← send_login_error NO_PERMIT; mret false
  else if c_authorized c then mret true
  else
    prepared ← prepare_terminal_login_for_authorization;
    match prepared with
    | Some keep_alive => mret keep_alive
    | None =>
      connected ← connect_port_forward_if_needed;
      if negb connected then mret false
      else
        _ ← authorize;
        c ← getc id;
        if c_pf_socket c then _ ← send_peer_info; mret true
        else if is_remote c && negb (bool_decide (unsupported_desktop = [])) then
          _ ← send (Msg_LoginResponse (LoginError unsupported_desktop false)); mret true
        else _ ← start_session; mret true
    end.

(** ** The login request *)

Definition handle_login_request_without_validation (lr : LoginRequest) : Act unit :=
  modc (fun c =>
    let c := c <| c_lr := lr |> <| c_peer_argb := l_str2color (lr_my_id lr ++ lr_my_platform lr) |> in
    let c := match lr_option lr with Some o => c <| c_options_in_login := Some o |> | None => c end in
    c <| c_video_ack_required := lr_video_ack_required lr |>).

Definition reset_session_scope (c : Conn) : Conn :=
  c <| c_file_transfer := None |> <| c_view_camera := false |> <| c_terminal := false |>
    <| c_pf_address := [] |> <| c_terminal_persistent := false |>.
Definition reset_session_scope_for_login : Act unit := modc reset_session_scope.

Definition try_start_cm_ipc : Act unit :=
  b ← getc c_cm_ipc_pending;
  when b (_ ← modc (fun c => c <| c_cm_ipc_pending := false |>); emit StartCmIpc).

Definition try_start_cm (peer_id name : str) (authorized : bool) : Act unit :=
  c ← getc id;
  send_to_cm (Cm_Login (MkCmLogin (bool_decide (is_Some (c_file_transfer c))) (c_view_camera c) (c_terminal c) (c_pf_address c)
    peer_id name authorized (c_keyboard c) (c_clipboard c) (c_audio c) (c_file c) (c_restart c) (c_recording c)
    (c_block_input c) (c_privacy_mode c))).

Definition deny_login (err : str) : Act bool :=
  _ ← send_login_error err; _ ← emit (Pause 1); mret false.

Definition check_privacy_mode_on : Act bool :=
  if e_in_privacy_mode then _ ← send_login_error (lit "Someone turns on privacy mode, exit"); mret false else mret true.

(** The requested kind of session, and whether it may be requested. *)
Definition set_session_scope (lr : LoginRequest) : Act bool :=
  cp ← getc c_control_permissions;
  match lr_union lr with
  | Some (Lu_FileTransfer dir show_hidden) =>
    if negb (permission OPTION_ENABLE_FILE_TRANSFER cp) then deny_login (lit "No permission of file transfer")
    else _ ← modc (fun c => c <| c_file_transfer := Some (dir, show_hidden) |>); mret true
  | Some Lu_ViewCamera =>
    if negb (permission OPTION_ENABLE_CAMERA cp) then deny_login (lit "No permission of viewing camera")
    else _ ← modc (fun c => c <| c_view_camera := true |>); mret true
  | Some (Lu_Terminal service_id) =>
    if negb (permission OPTION_ENABLE_TERMINAL cp) then deny_login (lit "No permission of terminal")
    else
      _ ← modc (fun c =>
            let c := c <| c_terminal := true |> in
            let c := match c_options_in_login c with
                     | Some o => c <| c_terminal_persistent := bool_decide (o_terminal_persistent o = Known Yes) |>
                     | None => c
                     end in
            c <| c_terminal_service_id := service_id |>);
      mret true
  | Some (Lu_PortForward host port) =>
    if negb (permission OPTION_ENABLE_TUNNEL cp) then deny_login (lit "No permission of IP tunneling")
    else _ ← modc (fun c => c <| c_pf_address := (normalize_port_forward_target host port).1 |>); mret true
  | _ => check_privacy_mode_on
  end.

Definition should_check_linux_headless_os_auth_before_desktop_start (username : str) : bool :=
  l_headless_allowed && negb (bool_decide (trim username = [])) && bool_decide (l_desktop_username = []).

Definition LOGIN_MSG_PASSWORD_WRONG : str := lit "Wrong Password".
Definition LOGIN_MSG_DESKTOP_SESSION_NOT_READY : str := lit "Desktop session not ready".

Definition should_record_linux_headless_os_auth_failure (username err_msg : str) : bool :=
  l_headless_allowed && negb (bool_decide (trim username = [])) && bool_decide (err_msg = LOGIN_MSG_PASSWORD_WRONG).

(** [try_start_desktop] *)
Definition try_start_desktop (lr : LoginRequest) : Act str :=
  if l_headless_allowed then
    _ ← emit StartDesktop;
    mret match lr_os_login lr with Some o => l_try_start_desktop (os_username o) (os_password o) | None => l_try_start_desktop [] [] end
  else mret [].

Definition wait_desktop_cm_ready : Act unit := when l_headless (emit WaitDesktopReady).

(** A successful authentication: authorize, and tell the connection manager. *)
Definition login_authenticated (lr : LoginRequest) (err_msg : str) : Act bool :=
  if bool_decide (err_msg = []) then
    _ ← wait_desktop_cm_ready;
    keep ← send_logon_response_and_keep_alive;
    if negb keep then mret false
    else
      a ← getc c_authorized;
      _ ← try_start_cm (lr_my_id lr) (lr_my_name lr) a;
      mret true
  else _ ← send_login_error err_msg; mret true.

Definition login_with_password (lr : LoginRequest) (err_msg : str) : Act bool :=
  '(failure, time, ok) ← check_failure_now;
  if negb ok then mret true
  else
    valid ← validate_password l_logon_screen_password;
    if (valid : bool) then
      _ ← update_failure_now failure time true;
      login_authenticated lr err_msg
    else
      _ ← update_failure_now failure time false;
      _ ← check_update_temporary_password false;
      if bool_decide (err_msg = []) then
        _ ← send_login_error LOGIN_MSG_PASSWORD_WRONG;
        _ ← try_start_cm (lr_my_id lr) (lr_my_name lr) false;
        mret true
      else _ ← send_login_error (lit "Desktop session not ready, password wrong"); mret true.

(** The choice between approval by a click, a recent session and a password. *)
Definition authenticate (lr : LoginRequest) (err_msg : str) : Act bool :=
  if (bool_decide (l_approve_mode = ApproveClick) && negb l_logon_screen_password)
     || (bool_decide (l_approve_mode = ApproveBoth) && negb l_has_valid_password) then
    _ ← try_start_cm (lr_my_id lr) (lr_my_name lr) false;
    _ ← when (e_version_number (lit "1.2.0") <=? e_version_number (lr_version lr)) (send_login_error (lit "No Password Access"));
    mret true
  else
    recent ← is_recent_session false;
    if (recent : bool) then login_authenticated lr err_msg
    else if bool_decide (lr_password lr = []) then
      _ ← (if bool_decide (err_msg = []) then try_start_cm (lr_my_id lr) (lr_my_name lr) false
           else send_login_error (lit "Desktop session not ready, password empty"));
      mret true
    else login_with_password lr err_msg.

(** The desktop session, then the authentication. *)
Definition login_desktop (lr : LoginRequest) : Act bool :=
  err_msg ← try_start_desktop lr;
  if negb (bool_decide (err_msg = [])) && negb (bool_decide (err_msg = LOGIN_MSG_DESKTOP_SESSION_NOT_READY)) then
    if should_record_linux_headless_os_auth_failure (os_login_username lr) err_msg then
      '(failure, time, ok) ← check_failure_now;
      if negb ok then mret true
      else
        _ ← update_failure_now failure time false;
        _ ← send_login_error err_msg;
        mret true
    else _ ← send_login_error err_msg; mret true
  else authenticate lr err_msg.

Definition login_permitted (lr : LoginRequest) : Act bool :=
  _ ← handle_login_request_without_validation lr;
  authorized ← getc c_authorized;
  if (authorized : bool) then mret true
  else
    _ ← reset_session_scope_for_login;
    in_scope ← set_session_scope lr;
    if negb in_scope then mret false
    else if negb (l_is_direct_ip_access (lr_username lr)) && negb (bool_decide (lr_username lr = l_my_id)) then
      _ ← send_login_error (lit "Offline"); mret false
    else
      _ ← try_start_cm_ipc;
      if should_check_linux_headless_os_auth_before_desktop_start (os_login_username lr) then
        r ← check_failure_now;
        if negb r.2 then mret true else login_desktop lr
      else login_desktop lr.

Definition on_login_request (lr : LoginRequest) : Act bool :=
  permit ← getc c_permit;
  match permit with
  | Some _ => login_permitted lr
  | None =>
    match l_accept lr with
    | Ok permit =>
      _ ← modc (fun c => c <| c_permit := Some permit |>);
      login_permitted lr
    | Err error => _ ← send_login_error error; mret false
    end
  end.

Definition on_message (m : Message) : Act bool := on_message_with on_login_request m.

(** ** Opening *)

(** [Connection::start] up to its first message. *)
Definition conn_new (conn_id : Z) (control_permissions : option Z) (salt challenge : str) : Conn :=
  let p (o : PermissionOption) : bool := permission o control_permissions in
  MkConn conn_id None false salt challenge e_primary_display [] None false false false [] false
    (p OPTION_ENABLE_KEYBOARD) (p OPTION_ENABLE_CLIPBOARD) (p OPTION_ENABLE_AUDIO) (p OPTION_ENABLE_FILE_TRANSFER)
    (p OPTION_ENABLE_REMOTE_RESTART) (p OPTION_ENABLE_RECORD_SESSION) (p OPTION_ENABLE_BLOCK_INPUT) (p OPTION_ENABLE_PRIVACY_MODE)
    control_permissions None 0 false false [] false false false false false false false false login_default 0 None false false
    None false None [] false true None None (remove_log_new conn_id e_now) false None false false false [] PaNone TfNone
    ∅ [] false [] false false e_now.

Definition check_whitelist (ip : str) : Act bool :=
  let whitelist := filter (fun x => x <> []) (split_char 44 l_whitelist) in
  if negb (bool_decide (whitelist = []))
     && negb (existsb (fun x => bool_decide (x = lit "0.0.0.0")) whitelist)
     && negb (existsb (fun x => l_cidr_contains x ip) whitelist) then
    _ ← send_login_error (lit "网络策略拒绝来源限制外的连接");
    _ ← post_alarm_audit IpWhitelist;
    mret false
  else mret true.

Definition on_open (ip : str) (audit_conn audit_file : bool) : Act bool :=
  ok ← check_whitelist ip;
  if negb ok then mret false
  else if l_window_required_closed then _ ← send_login_error (lit "The main window is not open"); mret false
  else
    _ ← modc (fun c => c <| c_ip := ip |>);
    c ← getc id;
    _ ← send (Msg_Hash (c_salt c) (c_challenge c));
    _ ← modc (fun c => c <| c_audit_conn := audit_conn |> <| c_audit_file := audit_file |>);
    _ ← post_conn_audit ConnAudit_new;
    mret true.

(** The permissions that are off are announced to the peer. *)
Definition announce_permissions : Act unit :=
  c ← getc id;
  for_each (fun p => send_permission p false)
    ((if c_keyboard c then [] else [PKeyboard]) ++ (if c_clipboard c then [] else [PClipboard])
     ++ (if c_audio c then [] else [PAudio]) ++ (if c_file c then [] else [PFile]) ++ (if c_restart c then [] else [PRestart])
     ++ (if c_recording c then [] else [PRecording]) ++ (if c_block_input c then [] else [PBlockInput])
     ++ (if c_privacy_mode c then [] else [PPrivacyMode])).

End Login.

(** ** A sample login

    A host with the temporary password [p], in an environment whose hash is the
    identity, and the requests that present it. *)
Module SampleLogin.

(** The host, with the hash it uses *)
Definition lenv_with (sha : bytes -> bytes) : LoginEnv := {|
  l_accept := fun _ => Ok (lit "permit"); l_ready := true; l_access_mode := lit "full"; l_option2bool := fun _ => true;
  l_permission_index := fun _ => 0; l_my_id := lit "host"; l_is_direct_ip_access := fun _ => false; l_headless_allowed := false;
  l_headless := false; l_desktop_username := []; l_try_start_desktop := fun _ _ => []; l_logon_screen_password := false;
  l_approve_mode := ApproveBoth; l_has_valid_password := true; l_temporary_enabled := true; l_permanent_enabled := false;
  l_fresh_password := lit "q"; l_sha256 := sha; l_local_storage := ([], []); l_preset_storage := ([], []);
  l_local_usable := fun _ _ => false; l_preset_usable := fun _ _ => false; l_decode_permanent_h1 := fun _ => None;
  l_decode_preset_h1 := fun _ => None; l_str2color := fun _ => 0; l_connect := fun _ => true; l_service_specified_user := None;
  l_new_service_id := lit "service"; l_remote_print := fun _ => false; l_windows := lit "Windows"; l_console_reporter := false;
  l_login_screen_wayland := false; l_display_server := lit "x11"; l_display_server_known := true; l_inited_msg := None;
  l_sync_displays := Ok tt; l_wayland_rdp_input := false; l_remove_wallpaper := false; l_is_dir := fun _ => false;
  l_whitelist := []; l_cidr_contains := fun _ _ => false; l_window_required_closed := false |}.
Definition lenv : LoginEnv := lenv_with (fun b => b).

Definition glob : Glob := MkGlob ∅ [] [] (Tables [∅; ∅] os_state_default) (MkTemp [] 0) (lit "p") ∅ None.

(** The password [p], salted and hashed with the challenge. *)
Definition request (union : option LoginUnion) : LoginRequest :=
  MkLogin (lit "host") (str_bytes (lit "psc")) (lit "peer") (lit "name") [] None union false 7 [] None [] None.

End SampleLogin.
