(* ===== verification/ConnPolicy.v ===== *)
(** * Policies of a host connection

    The decisions behind a login and a session that do not depend on its life:
    comparing passwords, rotating the temporary password, the permissions that the
    controlling side of the account sets, the log of removed files. *)
From stdpp Require Import base gmap list strings.
From Stdlib Require Import ZArith Lia.
From S2P Require Import Prelude RustStr Effects Message SessionScope Service ServerReg LoginFailure ConnState Connection ConnLogin.

#[local] Open Scope Z_scope.

(** ** Comparing passwords *)

Lemma fold_diff_zero (l : list (Z * Z)) x :
  foldl (fun x ab => Z.lor x (Z.lxor ab.1 ab.2)) x l = 0 <-> x = 0 /\ Forall (fun ab => ab.1 = ab.2) l.
Proof.
  revert x. induction l as [|[a b] l IH]; intros x; simpl; [naive_solver|]. rewrite IH, Z.lor_eq_0_iff, Z.lxor_eq_0_iff, Forall_cons.
  simpl. tauto.
Qed.

Lemma zip_same (a b : bytes) : length a = length b -> (Forall (fun ab => ab.1 = ab.2) (zip a b) <-> a = b).
Proof.
  revert b. induction a as [|x a IH]; intros [|y b]; try done. simpl. intros [= H]. rewrite Forall_cons, (IH b H). simpl. naive_solver.
Qed.

Lemma constant_time_eq_spec a b : constant_time_eq a b = bool_decide (a = b).
Proof.
  unfold constant_time_eq. case_bool_decide as Hl; cbn [negb]; [|rewrite bool_decide_eq_false_2; [done|congruence]].
  apply Bool.eq_true_iff_eq. rewrite Z.eqb_eq, fold_diff_zero, zip_same, bool_decide_eq_true by done. tauto.
Qed.

(** ** The temporary password *)

(** Wrong attempts in a row, each in its own environment. *)
Fixpoint wrong_attempts (envs : list LoginEnv) : Act unit :=
  match envs with [] => skip | l :: r => _ ← @check_update_temporary_password l false; wrong_attempts r end.

(** The wrong attempts counted against the current password. *)
Definition counted (g : Glob) : Z :=
  if bool_decide (ts_password (g_temp g) = g_temp_password g) then ts_failures (g_temp g) else 0.

Definition enabled (l : LoginEnv) : Prop := @l_temporary_enabled l = true.

Lemma wrong_attempt l s : enabled l -> g_temp_password (glob s) <> [] -> 0 <= counted (glob s) < MAX_CONSECUTIVE_FAILURES ->
  @check_update_temporary_password l false s =
    (if counted (glob s) + 1 <? MAX_CONSECUTIVE_FAILURES
     then (tt, s <| glob ::= fun g => g <| g_temp := MkTemp (g_temp_password (glob s)) (counted (glob s) + 1) |> |>, [])
     else (tt, s <| glob ::= fun g => g <| g_temp_password := @l_fresh_password l |> <| g_temp := MkTemp (@l_fresh_password l) 0 |> |>,
           [UpdateTemporaryPassword])).
Proof.
  intros He Hp Hc. unfold check_update_temporary_password, getg. rewrite run_gets_bind. unfold id. rewrite He, bool_decide_eq_false_2 by done.
  cbn [negb orb]. unfold counted in *.
  assert (Hi : forall z, 0 <= z < MAX_CONSECUTIVE_FAILURES -> i32_add z 1 = z + 1).
  { unfold MAX_CONSECUTIVE_FAILURES. intros z Hz. unfold i32_add. apply wraps_small; [lia|]. unfold is_s. lia. }
  case_bool_decide as E; cbn [ts_failures ts_password]; rewrite Hi by done; rewrite ?E; by case_match.
Qed.

(** Attempts up to the last one that is allowed, and that one. *)
Lemma wrong_attempts_below envs : forall s, Forall enabled envs -> g_temp_password (glob s) <> [] -> 0 <= counted (glob s) ->
  counted (glob s) + Z.of_nat (length envs) < MAX_CONSECUTIVE_FAILURES ->
  fx (wrong_attempts envs) s = [] /\ conn (st (wrong_attempts envs) s) = conn s
  /\ g_temp_password (glob (st (wrong_attempts envs) s)) = g_temp_password (glob s)
  /\ counted (glob (st (wrong_attempts envs) s)) = counted (glob s) + Z.of_nat (length envs).
Proof.
  induction envs as [|l envs IH]; intros s He Hp H0 Hc; [simpl; split_and!; try done; unfold st; simpl; lia|].
  apply Forall_cons in He as [Hl He]. cbn [wrong_attempts length] in *. rewrite fx_bind, st_bind.
  assert (Hrun : @check_update_temporary_password l false s =
    (tt, s <| glob ::= fun g => g <| g_temp := MkTemp (g_temp_password (glob s)) (counted (glob s) + 1) |> |>, [])).
  { rewrite wrong_attempt by (try done; lia). rewrite (proj2 (Z.ltb_lt _ _)) by lia. done. }
  unfold fx at 1, st. rewrite Hrun. cbn [fst snd app].
  set (s1 := s <| glob ::= _ |>). assert (Hc1 : counted (glob s1) = counted (glob s) + 1).
  { unfold counted at 1. simpl. by rewrite bool_decide_eq_true_2. }
  destruct (IH s1 He Hp) as (E1 & E2 & E3 & E4); [lia..|]. split_and!; [done..|]. fold (st (wrong_attempts envs) s1). rewrite E4. lia.
Qed.

Lemma wrong_attempts_last envs l s :
  fx (wrong_attempts (envs ++ [l])) s
    = fx (wrong_attempts envs) s ++ fx (@check_update_temporary_password l false) (st (wrong_attempts envs) s)
  /\ st (wrong_attempts (envs ++ [l])) s = st (@check_update_temporary_password l false) (st (wrong_attempts envs) s).
Proof.
  revert s. induction envs as [|l' envs IH]; intros s; cbn [app wrong_attempts].
  - rewrite fx_bind, st_bind. split; [apply app_nil_r|done].
  - rewrite !fx_bind, !st_bind. destruct (IH (st (@check_update_temporary_password l' false) s)) as [-> ->].
    by rewrite <- (assoc_L (++)).
Qed.

(** ** Permissions of the account *)

Lemma two_bits p n : 0 <= n -> Z.land (Z.shiftr p n) 3 = Z.b2z (Z.testbit p n) + 2 * Z.b2z (Z.testbit p (n + 1)).
Proof.
  intros Hn. change 3 with (Z.ones 2). rewrite Z.land_ones by lia. rewrite Z.shiftr_div_pow2 by done.
  change (2 ^ 2) with (2 * 2). rewrite Z.rem_mul_r by lia. rewrite !Z.testbit_spec' by lia.
  rewrite Z.div_div by lia. rewrite Z.pow_add_r by lia. done.
Qed.

(** ** Removed files *)

Lemma parent_length p abs cs : path_parent p = Some (abs, cs) -> length (path_components p).2 = S (length cs).
Proof.
  unfold path_parent. destruct (path_components p) as [abs' l]. destruct l as [|c r] eqn:E; [done|]. rewrite <- E. intros [= <- <-].
  cbn [snd]. rewrite (app_removelast_last c (l := l)) at 1 by (by rewrite E). rewrite length_app. simpl. lia.
Qed.

Lemma direct_child_asym p q : direct_child p q = true -> direct_child q p = false.
Proof.
  unfold direct_child. rewrite bool_decide_eq_true, bool_decide_eq_false. intros H1 H2.
  destruct (path_components p) as [ap cp] eqn:Ep, (path_components q) as [aq cq] eqn:Eq.
  apply parent_length in H1, H2. rewrite ?Ep, ?Eq in *. simpl in *. lia.
Qed.

(** ** Claims *)

Module ConnPolicyClaims.

(** C35: A password matches exactly when it is not empty and the request carries its
    hash with the connection's salt and challenge; comparing without an early exit
    decides the equality of the hashes. *)
Theorem password_check_exact (lenv : LoginEnv) (c : Conn) (password : str) :
  (forall a b, constant_time_eq a b = bool_decide (a = b))
  /\ validate_password_plain c password
     = bool_decide (password <> []
         /\ lr_password (c_lr c) = l_sha256 (l_sha256 (str_bytes password ++ str_bytes (c_salt c)) ++ str_bytes (c_challenge c))).
Proof.
  split; [apply constant_time_eq_spec|]. unfold validate_password_plain, verify_h1. rewrite constant_time_eq_spec.
  case_bool_decide as E; [rewrite bool_decide_eq_false_2; [done|naive_solver]|]. apply bool_decide_ext. naive_solver.
Qed.

(** The temporary password is replaced at the tenth wrong attempt in a row, and
    not before: with [n] attempts counted, the next [9 - n] leave the password as it
    is and only count, and one more replaces it and starts counting anew. *)
Theorem temporary_password_rotates (envs : list LoginEnv) (l : LoginEnv) (s : St)
    (He : Forall enabled (envs ++ [l])) (Hp : g_temp_password (glob s) <> []) (H0 : 0 <= counted (glob s))
    (Hn : counted (glob s) + Z.of_nat (length envs) + 1 = MAX_CONSECUTIVE_FAILURES) :
  let before := st (wrong_attempts envs) s in let after := st (wrong_attempts (envs ++ [l])) s in
  fx (wrong_attempts envs) s = [] /\ g_temp_password (glob before) = g_temp_password (glob s)
  /\ counted (glob before) = MAX_CONSECUTIVE_FAILURES - 1
  /\ fx (wrong_attempts (envs ++ [l])) s = [UpdateTemporaryPassword]
  /\ g_temp_password (glob after) = @l_fresh_password l /\ counted (glob after) = 0.
Proof.
  cbv zeta. apply Forall_app in He as [He [Hl _]%Forall_cons]. destruct (wrong_attempts_last envs l s) as [-> ->].
  destruct (wrong_attempts_below envs s He Hp H0) as (E1 & E2 & E3 & E4); [lia|]. rewrite E1, E3. set (b := st (wrong_attempts envs) s) in *.
  assert (Hrun : @check_update_temporary_password l false b =
    (tt, b <| glob ::= fun g => g <| g_temp_password := @l_fresh_password l |> <| g_temp := MkTemp (@l_fresh_password l) 0 |> |>,
     [UpdateTemporaryPassword])).
  { rewrite wrong_attempt; [|done|congruence|lia]. rewrite (proj2 (Z.ltb_ge _ _)) by lia. done. }
  unfold fx, st. rewrite Hrun. split_and!; try done; [lia|]. unfold counted. simpl. by rewrite bool_decide_eq_true_2.
Qed.

Lemma temporary_password_rotates_witness :
  let s := MkSt (@conn_new SampleEnv.env SampleLogin.lenv 5 None [] []) SampleLogin.glob in
  g_temp_password (glob (st (wrong_attempts (replicate 9 SampleLogin.lenv)) s)) = lit "p"
  /\ g_temp_password (glob (st (wrong_attempts (replicate 9 SampleLogin.lenv ++ [SampleLogin.lenv])) s)) = lit "q".
Proof.
  cbv zeta. set (s := MkSt _ _).
  destruct (temporary_password_rotates (replicate 9 SampleLogin.lenv) SampleLogin.lenv s) as (_ & H1 & _ & _ & H2 & _).
  - by repeat constructor.
  - done.
  - done.
  - reflexivity.
  - by split.
Defined.

(** A permission is what its two bits in the account's permissions say: 01
    refuses, 10 grants, and otherwise (and out of range, or without permissions of
    the account) the host's own settings decide. *)
Theorem permission_by_bits (lenv : LoginEnv) (o : PermissionOption) (cp : option Z) :
  let i := l_permission_index o in
  permission o cp =
    match cp with
    | Some p =>
      if bool_decide (0 <= i < 32) && xorb (Z.testbit p (2 * i)) (Z.testbit p (2 * i + 1)) then Z.testbit p (2 * i + 1)
      else is_permission_enabled_locally o
    | None => is_permission_enabled_locally o
    end.
Proof.
  cbv zeta. unfold permission, get_control_permission. destruct cp as [p|]; [|done]. set (i := l_permission_index o).
  destruct ((0 <=? i) && (i <? 32)) eqn:E; bools.
  - rewrite bool_decide_eq_true_2 by lia. replace (i * 2) with (2 * i) by lia. rewrite two_bits by lia.
    by destruct (Z.testbit p (2 * i)), (Z.testbit p (2 * i + 1)).
  - rewrite bool_decide_eq_false_2; [done|]. apply andb_false_iff in E. rewrite Z.leb_gt, Z.ltb_ge in E. lia.
Qed.

(** Removing a directory leaves the files removed inside it in the log. *)
Theorem removed_files_stay_logged (now : Z) (d : FileRemoveDir) (f : FileRemoveFile) (r : FileRemoveLogControl)
    (Hf : f ∈ removed_files r) (Hin : direct_child (rd_path d) (rf_path f) = true) :
  f ∈ removed_files (on_remove_dir now d r).1.
Proof. apply list_elem_of_filter. split; [|done]. rewrite direct_child_asym by done. done. Qed.

Lemma removed_files_stay_logged_witness :
  let f := MkRemoveFile 1 (lit "/a/b") 0 in
  f ∈ removed_files (on_remove_dir 9 (MkRemoveDir 2 (lit "/a") true) (MkRemoveLog 5 0 [f] [])).1.
Proof. cbv zeta. apply removed_files_stay_logged; [by left|reflexivity]. Defined.

End ConnPolicyClaims.
