(* ===== verification/ConnLoop.v ===== *)
(** * The life of a host connection

    Models the loop of [Connection::start] in [client/src/server/connection.rs]: the
    events it selects on (the peer's messages, the connection manager, timers,
    queues, the revocation of the permit), the port-forwarding loop that follows it,
    and the tear-down.  A [Tick] is an event with the answers of the environment
    while it is handled; a run is a list of ticks. *)
From stdpp Require Import base gmap list strings.
From Stdlib Require Import ZArith Lia.
From S2P Require Import Prelude RustStr Effects Message SessionScope Service ServerReg LoginFailure ConnState Connection ConnLogin.

#[local] Open Scope Z_scope.

(** ** Events *)

Inductive CmPrivacyState := OffSucceeded | OffByPeer | OffUnknown.

Inductive FromCm :=
| Fc_Authorize
| Fc_Close
| Fc_CmErr (e : str)
| Fc_ChatMessage (text : str)
| Fc_SwitchPermission (name : string) (enabled : bool)
| Fc_RawMessage (data : bytes)
| Fc_PrivacyModeState (state : CmPrivacyState) (impl_key : str)
| Fc_SwitchSidesBack
| Fc_VoiceCallResponse (accepted : bool)
| Fc_CloseVoiceCall
| Fc_ReadJobInitResult (id conn_id : Z) (r : result str (option (str * list FileEntry)))  (** a directory, if it parses *)
| Fc_FileBlockFromCM (id file_num : Z) (data : bytes) (compressed : bool) (conn_id : Z)
| Fc_FileReadDone (id file_num conn_id : Z)
| Fc_FileReadError (id file_num : Z) (err : str) (conn_id : Z)
| Fc_FileDigestFromCM (id file_num last_modified file_size : Z) (is_resume : bool) (conn_id : Z)
| Fc_AllFilesResult (id conn_id : Z) (path : str) (r : result str (result str (Z * str * list FileEntry)))
| Fc_Other.

Inductive Event :=
| Ev_Revoked
| Ev_Cm (d : FromCm)
| Ev_Net (r : option (result str (option Message)))  (** end of stream, an error, or bytes and what they parse to *)
| Ev_FileTimer (r : result str (bool * list TransferJob))  (** what sending the jobs' blocks returns *)
| Ev_WebConsole (conns : list Z)
| Ev_Video (m : Message) (sent : result str unit)
| Ev_Queue (latency_ms : Z) (m : Message) (not_multi : option Message) (sent : result str unit)
| Ev_SecondTimer (wake_setting_changed : bool)
| Ev_TestDelayTimer (bitrate : Z)
(** events of the forwarding loop *)
| Ev_Forward (r : option (result str bytes)) (sent : result str unit)   (** from the forwarded socket *)
| Ev_ForwardIn (r : option (result str bytes)) (sent : result str unit) (** from the peer, raw *)
| Ev_ForwardTimer (idle_ns : Z).

(** The loop runs, the forwarding loop runs, the connection is gone. *)
Inductive Phase := Main | Forwarding | Ended.
#[global] Instance Phase_eq_dec : EqDecision Phase.
Proof. solve_decision. Defined.

(** ** The connection manager *)

Section Loop.
Context `{env : Env, lenv : LoginEnv}.

Definition switch_keyboard (enabled : bool) : Act unit :=
  _ ← modc (fun c => c <| c_keyboard := enabled |>);
  _ ← send_permission PKeyboard enabled;
  _ ← subscribe_to CLIPBOARD_NAME can_sub_clipboard_service;
  subscribe_to NAME_CURSOR (fun c => enabled || c_show_remote_cursor c).

Definition switch_clipboard (enabled : bool) : Act unit :=
  _ ← modc (fun c => c <| c_clipboard := enabled |>);
  _ ← send_permission PClipboard enabled;
  subscribe_to CLIPBOARD_NAME can_sub_clipboard_service.

Definition switch_audio (enabled : bool) : Act unit :=
  _ ← modc (fun c => c <| c_audio := enabled |>);
  _ ← send_permission PAudio enabled;
  authorized ← getc c_authorized;
  when authorized subscribe_audio.

(** Leaving privacy mode first when its permission is withdrawn; [None] when that
    fails, which keeps the permission. *)
Definition switch_privacy_mode (enabled : bool) : Act unit :=
  c ← getc id;
  let mine := negb enabled && e_in_privacy_mode && bool_decide (e_privacy_conn = Some (c_id c)) in
  let allow : Act unit :=
    _ ← modc (fun c => c <| c_privacy_mode := enabled |>);
    send_permission PPrivacyMode enabled in
  if mine then
    let impl_key := default [] e_privacy_impl in
    _ ← emit (PrivacyOff (c_id c));
    match e_privacy_turn_off with
    | Some (Ok _) => _ ← send (make_privacy_mode_msg PrvOffByPeer impl_key); allow
    | r =>
      _ ← send (turn_off_privacy_result_to_msg r impl_key);
      send_to_cm (Cm_SwitchPermission "privacy_mode" (c_privacy_mode c))
    end
  else allow.

Definition switch_permission (name : string) (enabled : bool) : Act unit :=
  if bool_decide (name = "keyboard"%string) then switch_keyboard enabled
  else if bool_decide (name = "clipboard"%string) then switch_clipboard enabled
  else if bool_decide (name = "audio"%string) then switch_audio enabled
  else if bool_decide (name = "file"%string) then
    _ ← modc (fun c => c <| c_file := enabled |>); send_permission PFile enabled
  else if bool_decide (name = "restart"%string) then
    _ ← modc (fun c => c <| c_restart := enabled |>); send_permission PRestart enabled
  else if bool_decide (name = "recording"%string) then
    _ ← modc (fun c => c <| c_recording := enabled |>); send_permission PRecording enabled
  else if bool_decide (name = "block_input"%string) then
    _ ← modc (fun c => c <| c_block_input := enabled |>); send_permission PBlockInput enabled
  else if bool_decide (name = "privacy_mode"%string) then switch_privacy_mode enabled
  else skip.

Definition handle_read_job_init_result (id : Z) (r : result str (option (str * list FileEntry))) : Act unit :=
  ids ← getc c_cm_read_job_ids;
  if negb (bool_decide (id ∈ ids)) then skip
  else
    match r with
    | Err error => _ ← modc (fun c => c <| c_cm_read_job_ids ::= fun s => s ∖ {[ id ]} |>); send (new_error id error 0)
    | Ok None =>
      _ ← modc (fun c => c <| c_cm_read_job_ids ::= fun s => s ∖ {[ id ]} |>);
      send (new_error id (lit "internal error") 0)
    | Ok (Some (path, entries)) =>
      _ ← send (new_dir id path entries);
      _ ← post_file_audit RemoteSend path (get_files_for_audit Generic entries);
      modc (fun c => c <| c_file_transferred := true |>)
    end.

Definition handle_file_block_from_cm (id file_num : Z) (data : bytes) (compressed : bool) : Act unit :=
  ids ← getc c_cm_read_job_ids;
  when (bool_decide (id ∈ ids)) (send (Msg_FileResponse (Some (Fr_Block id file_num data compressed)))).

Definition handle_file_read_done (id file_num : Z) : Act unit :=
  ids ← getc c_cm_read_job_ids;
  when (bool_decide (id ∈ ids))
    (_ ← modc (fun c => c <| c_cm_read_job_ids ::= fun s => s ∖ {[ id ]} |>);
     send (Msg_FileResponse (Some (Fr_Done id file_num)))).

Definition handle_file_read_error (id file_num : Z) (err : str) : Act unit :=
  ids ← getc c_cm_read_job_ids;
  when (bool_decide (id ∈ ids))
    (_ ← modc (fun c => c <| c_cm_read_job_ids ::= fun s => s ∖ {[ id ]} |>);
     send (new_error id err file_num)).

Definition handle_file_digest_from_cm (id file_num last_modified file_size : Z) (is_resume : bool) : Act unit :=
  ids ← getc c_cm_read_job_ids;
  when (bool_decide (id ∈ ids))
    (send (Msg_FileResponse (Some (Fr_Digest id file_num file_size last_modified false is_resume)))).

Definition handle_all_files_result (id : Z) (path : str) (r : result str (result str (Z * str * list FileEntry))) : Act unit :=
  match r with
  | Err err => send (new_error id err (-1))
  | Ok (Ok (did, dpath, entries)) => send (new_dir did dpath entries)
  | Ok (Err e) => send (new_error id (lit "deserialize failed for " ++ path ++ lit ": " ++ e) (-1))
  end.

Definition privacy_state_msg (s : CmPrivacyState) (impl_key : str) : Message :=
  make_privacy_mode_msg match s with
                        | OffSucceeded => PrvOffSucceeded
                        | OffByPeer => PrvOffByPeer
                        | OffUnknown => PrvOffUnknown
                        end impl_key.

Definition mine (conn_id : Z) (k : Act unit) : Act bool :=
  id ← getc c_id; _ ← when (conn_id =? id) k; mret true.

(** One message of the connection manager; whether the loop goes on. *)
Definition on_cm (d : FromCm) : Act bool :=
  match d with
  | Fc_Authorize =>
    _ ← set_conn_audit_primary_auth PaClick;
    keep ← send_logon_response_and_keep_alive;
    pf ← getc c_pf_socket;
    mret (keep && negb pf)
  | Fc_Close =>
    _ ← modc (fun c => c <| c_chat_unanswered := false |> <| c_file_transferred := false |>);
    _ ← send_close_reason_no_retry [];
    _ ← on_close true;
    mret false
  | Fc_CmErr e => if bool_decide (e = lit "expected") then mret true else _ ← on_close false; mret false
  | Fc_ChatMessage text =>
    _ ← send_misc (Misc_ChatMessage text);
    _ ← modc (fun c => c <| c_chat_unanswered := false |>);
    mret true
  | Fc_SwitchPermission name enabled => _ ← switch_permission name enabled; mret true
  | Fc_RawMessage data => _ ← emit (SendRaw data); mret true
  | Fc_PrivacyModeState s impl_key => _ ← send (privacy_state_msg s impl_key); mret true
  | Fc_SwitchSidesBack => _ ← send_misc Misc_SwitchBack; mret true
  | Fc_VoiceCallResponse accepted => _ ← handle_voice_call accepted; mret true
  | Fc_CloseVoiceCall => _ ← close_voice_call; _ ← send (Msg_VoiceCallRequest e_time false); mret true
  | Fc_ReadJobInitResult id conn_id r => mine conn_id (handle_read_job_init_result id r)
  | Fc_FileBlockFromCM id file_num data compressed conn_id => mine conn_id (handle_file_block_from_cm id file_num data compressed)
  | Fc_FileReadDone id file_num conn_id => mine conn_id (handle_file_read_done id file_num)
  | Fc_FileReadError id file_num err conn_id => mine conn_id (handle_file_read_error id file_num err)
  | Fc_FileDigestFromCM id file_num modified size resume conn_id =>
    mine conn_id (handle_file_digest_from_cm id file_num modified size resume)
  | Fc_AllFilesResult id conn_id path r => mine conn_id (handle_all_files_result id path r)
  | Fc_Other => mret true
  end.

(** ** The peer and the timers *)

Definition touch_session_clock : Act unit :=
  r ← getc c_session_recv;
  match r with Some loc => modg (fun g => g <| g_clocks ::= <[loc := e_now]> |>) | None => skip end.

Definition on_net (r : option (result str (option Message))) : Act bool :=
  match r with
  | None | Some (Err _) => _ ← on_close true; mret false
  | Some (Ok parsed) =>
    _ ← modc (fun c => c <| c_last_recv := e_now |>);
    _ ← touch_session_clock;
    match parsed with
    | None => mret true
    | Some m =>
      keep ← on_message m;
      if negb keep then mret false
      else
        c ← getc id;
        mret (negb (c_pf_socket c && c_authorized c && bool_decide (c_last_test_delay c = None)))
    end
  end.

Definition on_file_timer (r : result str (bool * list TransferJob)) : Act bool :=
  jobs ← getc c_read_jobs;
  if bool_decide (job_id <$> jobs = []) then mret true
  else
    _ ← send_to_cm (Cm_FileTransferLog (LogTransfer (job_id <$> jobs) false));
    match r with
    | Ok (log, rest) =>
      _ ← modc (fun c => c <| c_read_jobs := rest |>);
      _ ← when log (send_to_cm (Cm_FileTransferLog (LogTransfer [] false)));
      mret true
    | Err _ => _ ← on_close false; mret false
    end.

Definition on_queue (latency_ms : Z) (m : Message) (not_multi : option Message) (sent : result str unit) : Act bool :=
  let deliver (m : Message) : Act bool :=
    _ ← send m;
    match sent with Ok _ => mret true | Err _ => _ ← on_close false; mret false end in
  match m with
  | Msg_AudioFrame _ => if 1000 <? latency_ms then mret true else deliver m
  | Msg_Misc (Some Misc_StopService) =>
    _ ← send_close_reason_no_retry [];
    _ ← on_close false;
    mret false
  | Msg_PeerInfo => _ ← refresh_video_display None; deliver m
  | Msg_CursorPosition x y =>
    follow ← getc c_follow_remote_cursor;
    _ ← when follow (handle_cursor_switch_display x y);
    deliver m
  | Msg_MultiClipboards _ => match not_multi with Some m' => deliver m' | None => deliver m end
  | _ => deliver m
  end.

Definition on_second_timer (wake_setting_changed : bool) : Act bool :=
  _ ← when wake_setting_changed check_wake_lock;
  c ← getc id;
  if match c_auto_disconnect_timer c with
     | Some (instant, minute) => minute * 60 <? Z.max 0 (e_now - instant) / 1000000000
     | None => false
     end
  then
    _ ← send_close_reason_no_retry (lit "Connection failed due to inactivity");
    _ ← on_close true;
    mret false
  else
    let '(logs, r) := on_timer e_now (c_remove_log c) in
    _ ← modc (fun c => c <| c_remove_log := r |>);
    _ ← emits (ToCm <$> logs);
    mret true.

Definition SEC30 : Z := 30 * 1000000000.

Definition on_test_delay_timer (bitrate : Z) : Act bool :=
  c ← getc id;
  if SEC30 <=? Z.max 0 (e_now - c_last_recv c) then _ ← on_close true; mret false
  else
    _ ← when (bool_decide (c_last_test_delay c = None) && negb (c_pf_socket c && c_authorized c))
          (_ ← modc (fun c => c <| c_last_test_delay := Some e_now |>);
           send (Msg_TestDelay (MkTestDelay false 0 (c_network_delay c) bitrate)));
    c ← getc id;
    _ ← when (is_authed_remote_conn c || c_view_camera c)
          match c_last_test_delay c with
          | Some t => emit (Qos (Q_delay_response_elapsed (Z.max 0 (e_now - t) / 1000000)))
          | None => skip
          end;
    mret true.

(** One turn of the loop; whether it goes on. *)
Definition loop_step (ev : Event) : Act bool :=
  match ev with
  | Ev_Revoked =>
    permit ← getc c_permit;
    if bool_decide (is_Some permit) then
      _ ← send_close_reason_no_retry (lit "账号登录或远控许可已结束");
      _ ← on_close true;
      mret false
    else mret true
  | Ev_Cm d => on_cm d
  | Ev_Net r => on_net r
  | Ev_FileTimer r => on_file_timer r
  | Ev_WebConsole conns =>
    id ← getc c_id;
    if bool_decide (id ∈ conns) then
      _ ← send_close_reason_no_retry (lit "Closed manually by web console");
      _ ← on_close true;
      mret false
    else mret true
  | Ev_Video m sent =>
    ack ← getc c_video_ack_required;
    _ ← when (negb ack) match m with Msg_VideoFrame _ => emit FrameFetched | _ => skip end;
    _ ← send m;
    match sent with Ok _ => mret true | Err _ => _ ← on_close false; mret false end
  | Ev_Queue latency m not_multi sent => on_queue latency m not_multi sent
  | Ev_SecondTimer changed => on_second_timer changed
  | Ev_TestDelayTimer bitrate => on_test_delay_timer bitrate
  | Ev_Forward _ _ | Ev_ForwardIn _ _ | Ev_ForwardTimer _ => mret true
  end.

(** ** Tear-down *)

(** [Drop] of [AuthedConnID] *)
Definition authed_conn_drop : Act unit :=
  c ← getc id;
  match c_authed c with
  | None => skip
  | Some t =>
    _ ← when (bool_decide (t = Remote) || bool_decide (t = ViewCamera)) (_ ← emit EncoderRemove; emit (Qos Q_close));
    _ ← modg (fun g => g <| g_authed ::= filter (fun a => ac_conn_id a <> c_id c) |>);
    l ← getg g_authed;
    _ ← when (bool_decide (filter (fun a => ac_conn_type a = Remote) l = [])) (emit RestoreDesktop);
    _ ← check_wake_lock;
    emit (Whiteboard false)
  end.

(** [Drop] of [Connection] *)
Definition conn_drop : Act unit :=
  _ ← release_pressed_modifiers;
  t ← getc c_terminal_service;
  _ ← when t (emit TerminalJoin);
  _ ← authed_conn_drop;
  h ← getc c_homedesk_session;
  c ← getc id;
  when h (emit (HomedeskSession (lr_my_id (c_lr c)) (c_ip c) false)).

(** After the loop, up to the forwarding loop; whether there is one. *)
Definition leave_loop : Act bool :=
  c ← getc id;
  _ ← when (bool_decide (e_privacy_conn = Some (c_id c))) (_ ← turn_off_privacy_to_msg (c_id c) []; skip);
  _ ← emit FrameFetched;
  _ ← when (c_authorized c)
        (_ ← emit UpdateTemporaryPassword; modg (fun g => g <| g_temp_password := l_fresh_password |>));
  _ ← modc (fun c => c <| c_pf_socket := false |>);
  mret (c_pf_socket c).

Definition unregister : Act unit :=
  _ ← post_conn_audit ConnAudit_close;
  srv ← getg g_server;
  when (bool_decide (is_Some srv))
    (_ ← on_server (fun c v => remove_connection (c_id c) v); emit (RecordCursor false)).

Definition finish_connection : Act unit :=
  _ ← unregister;
  _ ← on_close true;
  conn_drop.

(** ** The forwarding loop *)

Definition H1 : Z := 3600 * 1000000000.

(** One turn of [try_port_forward_loop]: it ends with an error, always. *)
Definition forward_step (ev : Event) : Act (result str unit) :=
  match ev with
  | Ev_Cm Fc_Close => mret (Err (lit "Close requested from connection manager"))
  | Ev_Cm (Fc_CmErr e) => mret (Err e)
  | Ev_Forward (Some (Ok data)) sent => _ ← emit (SendRaw data); mret sent
  | Ev_Forward (Some (Err e)) _ => mret (Err e)
  | Ev_Forward None _ => mret (Err (lit "Forward reset by the peer"))
  | Ev_ForwardIn (Some (Ok data)) sent => _ ← emit (ForwardOut data); mret sent
  | Ev_ForwardIn (Some (Err e)) _ => mret (Err e)
  | Ev_ForwardIn None _ => mret (Err (lit "Stream reset by the peer"))
  | Ev_ForwardTimer idle => mret (if H1 <=? idle then Err (lit "Timeout") else Ok tt)
  | Ev_WebConsole conns =>
    id ← getc c_id;
    mret (if bool_decide (id ∈ conns) then Err (lit "Closed manually by the web console") else Ok tt)
  | _ => mret (Ok tt)
  end.

(** ** The machine *)

Definition step (ev : Event) (p : Phase) : Act Phase :=
  match p with
  | Ended => mret Ended
  | Main =>
    keep ← loop_step ev;
    if (keep : bool) then mret Main
    else
      forwarding ← leave_loop;
      if (forwarding : bool) then mret Forwarding else _ ← finish_connection; mret Ended
  | Forwarding =>
    r ← forward_step ev;
    match r with
    | Ok _ => mret Forwarding
    | Err _ =>
      _ ← on_close false;
      _ ← remove_my_session;
      _ ← finish_connection;
      mret Ended
    end
  end.

(** [Connection::start] before its loop. *)
Definition start (ip : str) (audit_conn audit_file : bool) : Act Phase :=
  ok ← on_open ip audit_conn audit_file;
  if negb ok then
    _ ← modc (fun c => c <| c_closed := true |>);
    _ ← emit (Pause 1);
    _ ← conn_drop;
    mret Ended
  else _ ← announce_permissions; mret Main.

End Loop.

Record Tick := MkTick { t_env : Env; t_lenv : LoginEnv; t_ev : Event }.

Fixpoint run (ts : list Tick) (p : Phase) : Act Phase :=
  match ts with
  | [] => mret p
  | t :: rest => p' ← @step (t_env t) (t_lenv t) (t_ev t) p; run rest p'
  end.

(** The whole life of a connection: it opens, then its events.  The state it shares
    with other connections is changed by this connection only. *)
Definition life (e : Env) (l : LoginEnv) (ip : str) (audit_conn audit_file : bool) (ts : list Tick) : Act Phase :=
  p ← @start e l ip audit_conn audit_file; run ts p.
