(* ===== verification/ConnSafety.v ===== *)
(** * Safety of host connections

    Invariants of the life of a connection ([ConnLoop.run]) and what follows from
    them: who is authorized and by what, that the session keeps the type it asked
    for, what a session can do over its whole life, and how it ends. *)
From stdpp Require Import base gmap list strings.
From Stdlib Require Import ZArith Lia.
From S2P Require Import Prelude RustStr Effects Message SessionScope Service ServerReg LoginFailure ConnState Connection ConnScope ConnLogin ConnLoop.

#[local] Open Scope Z_scope.

(** ** Outcomes *)

Definition wp {A} (m : Act A) (Q : A -> St -> Prop) (s : St) : Prop := Q (res m s) (st m s).

Lemma wp_bind {A B} (m : Act A) (k : A -> Act B) Q s : wp m (fun a s' => wp (k a) Q s') s -> wp (m ≫= k) Q s.
Proof. unfold wp. by rewrite res_bind, st_bind. Qed.
Lemma wp_ret {A} (a : A) (Q : A -> St -> Prop) s : Q a s -> wp (mret a) Q s.
Proof. done. Qed.
Lemma wp_getc {A} (f : Conn -> A) (Q : A -> St -> Prop) s : Q (f (conn s)) s -> wp (getc f) Q s.
Proof. done. Qed.
Lemma wp_getg {A} (f : Glob -> A) (Q : A -> St -> Prop) s : Q (f (glob s)) s -> wp (getg f) Q s.
Proof. done. Qed.
Lemma wp_modc f (Q : unit -> St -> Prop) s : Q tt (s <| conn ::= f |>) -> wp (modc f) Q s.
Proof. done. Qed.
Lemma wp_modg f (Q : unit -> St -> Prop) s : Q tt (s <| glob ::= f |>) -> wp (modg f) Q s.
Proof. done. Qed.
Lemma wp_emit e (Q : unit -> St -> Prop) s : Q tt s -> wp (emit e) Q s.
Proof. done. Qed.
Lemma wp_emits l (Q : unit -> St -> Prop) s : Q tt s -> wp (emits l) Q s.
Proof. done. Qed.
Lemma wp_when b m (Q : unit -> St -> Prop) s : (b = true -> wp m Q s) -> (b = false -> Q tt s) -> wp (when b m) Q s.
Proof. intros H1 H2. destruct b; [by apply H1|by apply H2]. Qed.
Lemma wp_mono {A} (m : Act A) (Q Q' : A -> St -> Prop) s : wp m Q s -> (forall a s', Q a s' -> Q' a s') -> wp m Q' s.
Proof. unfold wp. auto. Qed.

(** A part that moves along [R], whatever it answers. *)
Lemma wp_frame {A} (R : St -> St -> Prop) F (m : Act A) (Q : A -> St -> Prop) s :
  obeys R F s m -> (forall a s', R s s' -> Q a s') -> wp m Q s.
Proof. intros [Hr _] HQ. by apply HQ. Qed.

(** ** What authenticating keeps *)

Record login_kept (c c' : Conn) : Prop := {
  l_id : c_id c' = c_id c;
  l_permit : c_permit c' = c_permit c;
  l_file_transfer : c_file_transfer c' = c_file_transfer c;
  l_view_camera : c_view_camera c' = c_view_camera c;
  l_terminal : c_terminal c' = c_terminal c;
  l_pf_socket : c_pf_socket c' = c_pf_socket c;
  l_authorized : c_authorized c' = c_authorized c;
  l_authed : c_authed c' = c_authed c;
  l_control : c_control_permissions c' = c_control_permissions c;
  l_lr : c_lr c' = c_lr c;
  l_token : c_terminal_user_token c' = c_terminal_user_token c;
  l_printer : c_printer_data c' = c_printer_data c;
  l_modifiers : c_pressed_modifiers c' = c_pressed_modifiers c;
  l_ip : c_ip c' = c_ip c;
  l_challenge : c_challenge c' = c_challenge c;
  l_salt : c_salt c' = c_salt c;
  l_window : c_follow_remote_window c' = c_follow_remote_window c;
  l_keyboard : c_keyboard c' = c_keyboard c;
  l_session : c_session_recv c' = c_session_recv c }.

#[global] Instance login_kept_preorder : PreOrder login_kept.
Proof. split; [intros c; by split|]. intros c1 c2 c3 [] []. split; congruence. Qed.

(** [quiet]: only sends; [keeps]: may also change the shared tables. *)
Definition keeps (s s' : St) : Prop := login_kept (conn s) (conn s') /\ g_server (glob s') = g_server (glob s).
Definition quiet (s s' : St) : Prop := login_kept (conn s) (conn s') /\ glob s' = glob s.

#[global] Instance keeps_preorder : PreOrder keeps.
Proof. split; [by intros s; split|]. intros s1 s2 s3 [? ?] [? ?]. split; [by etransitivity|congruence]. Qed.
#[global] Instance quiet_preorder : PreOrder quiet.
Proof. split; [by intros s; split|]. intros s1 s2 s3 [? ?] [? ?]. split; [by etransitivity|congruence]. Qed.

Lemma quiet_keeps s s' : quiet s s' -> keeps s s'.
Proof. intros [? Hg]. split; [done|]. by rewrite Hg. Qed.

Abbreviation keeping := (obeys keeps (fun _ => True)).
Abbreviation quietly := (obeys quiet (fun _ => True)).

Ltac keep_leaf :=
  match goal with
  | |- keeps _ _ => split; [split; reflexivity|reflexivity]
  | |- quiet _ _ => split; [split; reflexivity|reflexivity]
  | |- True => exact I
  | |- Forall _ _ => by apply Forall_forall
  end.
Ltac keep :=
  repeat first
    [ match goal with
      | |- obeys _ _ _ (getc _ ≫= _) => unfold getc
      | |- obeys _ _ _ (getg _ ≫= _) => unfold getg
      | |- obeys _ _ _ (modc _) => unfold modc
      | |- obeys _ _ _ (modg _) => unfold modg
      | |- obeys _ _ _ (send_to_cm _) => unfold send_to_cm
      | |- obeys _ _ _ (send_fs _) => unfold send_fs
      | |- obeys _ _ _ (send_misc _) => unfold send_misc
      | |- obeys _ _ _ (send _) => unfold send
      | |- obeys _ _ _ (gets _ ≫= _) => apply obeys_gets_bind; [exact _|]; cbn beta
      | |- obeys _ _ _ (_ ≫= _) => apply obeys_seq; [exact _| |intros ? ? ?]
      | |- obeys _ _ _ (for_each _ _) => apply obeys_for_each; [exact _|intros]
      end
    | obey_step | keep_leaf ].

Section Login.
Context `{env : Env, lenv : LoginEnv}.

Lemma quiet_login_error e s : quietly s (send_login_error e).
Proof. unfold send_login_error. keep. Qed.
Lemma quiet_alarm t s : quietly s (post_alarm_audit t).
Proof. unfold post_alarm_audit. keep. Qed.
Lemma quiet_start_cm p n a s : quietly s (try_start_cm p n a).
Proof. unfold try_start_cm. keep. Qed.

(** [check_failure] in its default scope only reads the tables. *)
Lemma check_failure_reads ip now1 now2 i t f time ok fx t' :
  check_failure ip now1 now2 i t = Some (f, time, ok, fx, t') -> t' = t.
Proof. unfold check_failure, check_failure_with_scope. simpl. destruct (login_failures t !! i); simpl; [|done]. by intros [= _ <-]. Qed.

(** The address is not locked out. *)
Definition not_locked (ip : str) (t : FailureTables) : Prop :=
  exists f time fx t', check_failure ip e_time e_time 0 t = Some (f, time, true, fx, t').

Lemma check_failure_spec s :
  wp check_failure_now (fun r s' => quiet s s' /\ (r.2 = true -> not_locked (c_ip (conn s)) (g_failures (glob s)))) s.
Proof.
  unfold check_failure_now. apply wp_bind, wp_getc, wp_bind, wp_getg.
  destruct (check_failure _ _ _ _ _) as [[[[[f time] ok] fx] t']|] eqn:E; unfold id in *; [|by apply wp_ret].
  apply wp_bind. eapply (wp_frame quiet (fun _ => True)).
  - apply obeys_for_each; [apply _|]. intros e s' _. unfold post_check_effect. destruct e; [apply quiet_login_error|apply quiet_alarm].
  - intros _ s' [Hk Hg]. apply wp_bind, wp_modg, wp_ret. split.
    + split; [exact Hk|]. simpl. apply check_failure_reads in E. subst t'. rewrite Hg. by destruct (glob s).
    + simpl. intros ->. unfold not_locked. eauto 10.
Qed.

(** ** Passwords *)

(** A recent session of the same peer was opened with the temporary password that
    is presented now. *)
Definition recent_ok (c : Conn) (g : Glob) : Prop :=
  exists sess, g_sessions g !! session_key c = Some sess /\ session_live e_now (g_clocks g) sess = true
    /\ lr_password (c_lr c) <> [] /\ validate_password_plain c (random_password sess) = true.

(** The temporary password, or the permanent one where it may be used. *)
Definition password_ok (c : Conn) (g : Glob) : Prop :=
  (l_temporary_enabled = true /\ validate_password_plain c (g_temp_password g) = true)
  \/ ((l_permanent_enabled = true \/ l_logon_screen_password = true)
      /\ (validate_password_storage c l_local_storage.1 = true
          \/ validate_preset_password_storage c l_preset_storage.1 l_preset_storage.2 = true)).

Lemma recent_spec s :
  wp (is_recent_session false) (fun b s' => keeps s s' /\ g_failures (glob s') = g_failures (glob s)
    /\ g_temp_password (glob s') = g_temp_password (glob s) /\ (b = true -> recent_ok (conn s) (glob s))) s.
Proof.
  unfold is_recent_session. apply wp_bind, wp_modg, wp_bind, wp_getc, wp_bind, wp_getg. unfold id. simpl.
  destruct (filter _ _ !! _) as [sess|] eqn:E; [|by apply wp_ret].
  case_match eqn:Hc; [|by apply wp_ret]. apply wp_bind, wp_modc, wp_ret. split; [|split; [done|split; [done|intros _]]].
  - split; [by split|done].
  - apply map_lookup_filter_Some in E as [Hs Hl]. simpl in Hl. bools. simpl in *. exists sess. by split_and!.
Qed.

Lemma quiet_temp b s : keeping s (check_update_temporary_password b).
Proof. unfold check_update_temporary_password. keep. Qed.

Lemma keep_session now key p t g : g_server (update_or_insert_session now key p t g) = g_server g.
Proof. unfold update_or_insert_session. by case_match. Qed.

Lemma valid_spec s :
  wp (validate_password l_logon_screen_password)
    (fun v s' => keeps s s' /\ (v = true -> password_ok (conn s) (glob s))) s.
Proof.
  unfold validate_password. apply wp_bind, wp_getc, wp_bind, wp_getg. unfold id.
  destruct (l_temporary_enabled && _) eqn:Et.
  - apply wp_bind, wp_modc, wp_bind, wp_modg, wp_bind. eapply wp_frame; [apply quiet_temp|]. intros _ s' [Hk Hs]. apply wp_ret.
    split; [|intros _; left; by bools]. split; [etransitivity; [|exact Hk]; by split|]. rewrite Hs. simpl. apply keep_session.
  - destruct (l_permanent_enabled || l_logon_screen_password) eqn:Ep; [|by apply wp_ret; split].
    unfold password_ok. destruct l_local_storage as [storage salt], l_preset_storage as [hard hsalt]. simpl.
    case_match eqn:Hok; [|by apply wp_ret; split]. apply wp_bind, wp_modc, wp_ret. split; [by split; [split|]|].
    intros _. right. apply orb_true_iff in Ep. split; [done|]. destruct (negb (bool_decide (storage = []))); bools; auto.
Qed.

End Login.

(** ** The type of a session *)

(** What every event but a login keeps in a session of type [t]. *)
Record typed (t : AuthConnType) (c c' : Conn) : Prop := {
  y_id : c_id c' = c_id c;
  y_permit : c_permit c' = c_permit c;
  y_file_transfer : c_file_transfer c' = c_file_transfer c;
  y_view_camera : c_view_camera c' = c_view_camera c;
  y_terminal : c_terminal c' = c_terminal c;
  y_pf_socket : c_pf_socket c' = true -> c_pf_socket c = true;
  y_authorized : c_authorized c' = c_authorized c;
  y_authed : c_authed c' = c_authed c;
  y_lr : c_lr c' = c_lr c;
  y_token : c_terminal_user_token c' = c_terminal_user_token c;
  y_printer : c_printer_data c = [] -> c_printer_data c' = [];
  y_modifiers : c_pressed_modifiers c = [] -> c_pressed_modifiers c' = [];
  y_session : c_session_recv c' = c_session_recv c;
  y_window : t <> Remote -> c_follow_remote_window c' = c_follow_remote_window c }.

#[global] Instance typed_preorder t : PreOrder (typed t).
Proof.
  split; [intros c; by split|]. intros c1 c2 c3 [] []. split; try congruence; auto. intros Ht. rewrite y_window1, y_window0; auto.
Qed.

Definition along (t : AuthConnType) (s s' : St) : Prop := typed t (conn s) (conn s').
#[global] Instance along_preorder t : PreOrder (along t).
Proof. split; [intros s; unfold along; reflexivity|]. intros s1 s2 s3. unfold along. apply transitivity. Qed.

Abbreviation staying t := (obeys (along t) (fun _ => True)).

Lemma kept_typed t c c' : kept t c c' -> typed t c c'.
Proof. intros []. by split. Qed.
Lemma login_kept_typed t c c' : login_kept c c' -> typed t c c'.
Proof. intros []. split; congruence. Qed.

Lemma scoped_staying t {A} (m : Act A) s : scoped t s m -> staying t s m.
Proof. intros [[Hk _] _]. split; [by apply kept_typed|by apply Forall_forall]. Qed.
Lemma keeping_staying t {A} (m : Act A) s : keeping s m -> staying t s m.
Proof. intros [[Hk _] _]. split; [by apply login_kept_typed|by apply Forall_forall]. Qed.

Lemma flags_typed t c c' : typed t c c' -> flags t c -> flags t c'.
Proof.
  intros [] (Hf & Hp & Hm). split; [|split; auto]. destruct t; simpl in *;
    rewrite ?y_file_transfer0, ?y_view_camera0, ?y_token0, ?y_window0 by done; done.
Qed.

Ltac stay_leaf :=
  match goal with
  | |- along _ _ _ => split; simpl; (reflexivity || (by auto) || (intros; congruence))
  | |- True => exact I
  | |- Forall _ _ => by apply Forall_forall
  end.
Ltac stay :=
  repeat first
    [ match goal with
      | |- obeys _ _ _ (getc _ ≫= _) => unfold getc
      | |- obeys _ _ _ (getg _ ≫= _) => unfold getg
      | |- obeys _ _ _ (modc _) => unfold modc
      | |- obeys _ _ _ (modg _) => unfold modg
      | |- obeys _ _ _ (send_to_cm _) => unfold send_to_cm
      | |- obeys _ _ _ (send_fs _) => unfold send_fs
      | |- obeys _ _ _ (send_misc _) => unfold send_misc
      | |- obeys _ _ _ (send _) => unfold send
      | |- obeys _ _ _ (on_server _) => unfold on_server
      | |- obeys _ _ _ (subscribe_to _ _) => unfold subscribe_to
      | |- obeys _ _ _ (gets _ ≫= _) => apply obeys_gets_bind; [exact _|]; cbn beta
      | |- obeys _ _ _ (_ ≫= _) => apply obeys_seq; [exact _| |intros ? ? ?]
      | |- obeys _ _ _ (for_each _ _) => apply obeys_for_each; [exact _|intros]
      end
    | obey_step | stay_leaf ].

Section Staying.
Context `{env : Env, lenv : LoginEnv} (t : AuthConnType).

Lemma stay_close lock s : staying t s (on_close lock).
Proof. apply scoped_staying, scoped_on_close. Qed.
Lemma stay_reason r s : staying t s (send_close_reason_no_retry r).
Proof. apply scoped_staying, scoped_close_reason. Qed.

Lemma stay_switch name b s : staying t s (switch_permission name b).
Proof.
  unfold switch_permission, switch_keyboard, switch_clipboard, switch_audio, subscribe_audio, switch_privacy_mode, send_permission. stay.
Qed.

Lemma stay_cm d s : d <> Fc_Authorize -> staying t s (on_cm d).
Proof.
  intros Hd. unfold on_cm. destruct d; try done;
    unfold mine, handle_read_job_init_result, handle_file_block_from_cm, handle_file_read_done, handle_file_read_error,
      handle_file_digest_from_cm, handle_all_files_result, handle_voice_call, close_voice_call, subscribe_audio_of_camera, post_file_audit;
    stay; auto using stay_close, stay_reason, stay_switch.
Qed.

Lemma stay_queue l m n r s : staying t s (on_queue l m n r).
Proof.
  unfold on_queue, refresh_video_display, handle_cursor_switch_display. stay; auto using stay_close, stay_reason.
Qed.

(** The events of the loop that are not a message or an approval. *)
Definition internal (ev : Event) : Prop :=
  match ev with Ev_Net (Some (Ok (Some _))) | Ev_Cm Fc_Authorize => False | _ => True end.

Lemma stay_loop ev s : internal ev -> staying t s (loop_step ev).
Proof.
  intros Hev. unfold loop_step. destruct ev as [|d|r|r|conns|m r|l m n r|b|b|r r'|r r'|z];
    try (stay; auto using stay_close, stay_reason).
  - apply stay_cm. intros ->. done.
  - unfold on_net. destruct r as [[[m|]|]|]; [done|unfold touch_session_clock; stay..]; apply stay_close.
  - unfold on_file_timer. stay. apply stay_close.
  - apply stay_queue.
  - unfold on_second_timer, check_wake_lock. stay; auto using stay_close, stay_reason.
  - unfold on_test_delay_timer. stay; auto using stay_close.
Qed.

(** What a peer that is not logged in can do. *)
Lemma stay_unauthorized (login : LoginRequest -> Act bool) m s : c_authorized (conn s) = false ->
  match m with Msg_LoginRequest _ => False | _ => True end -> staying t s (on_message_with login m).
Proof.
  intros Ha Hm. unfold on_message_with, on_other_message, on_test_delay, send_login_error.
  destruct m as [| | | | | | | | | | | | |misc| | | | | | | | | | | | | | |]; try done; try (destruct misc as [[]|]);
    unfold getc; try (obey_step; unfold id; rewrite Ha); try (stay; unfold id in *; simpl in *; congruence).
  stay; [apply stay_close|]. apply scoped_staying, scoped_remove_my_session.
Qed.

End Staying.

(** ** The invariant of the loop *)

(** The kind of session a login asks for. *)
Definition requested (lr : LoginRequest) : AuthConnType :=
  match lr_union lr with
  | Some (Lu_FileTransfer _ _) => FileTransfer
  | Some (Lu_PortForward _ _) => PortForward
  | Some Lu_ViewCamera => ViewCamera
  | Some (Lu_Terminal _) => Terminal
  | _ => Remote
  end.

(** Not authorized, with nothing of a session. *)
Record fresh (c : Conn) : Prop := {
  f_authorized : c_authorized c = false;
  f_authed : c_authed c = None;
  f_pf_socket : c_pf_socket c = false;
  f_token : c_terminal_user_token c = false;
  f_window : c_follow_remote_window c = false;
  f_session : c_session_recv c = None;
  f_printer : c_printer_data c = [];
  f_modifiers : c_pressed_modifiers c = [] }.

(** The flags are those of the login request. *)
Record as_requested (c : Conn) : Prop := {
  r_file_transfer : is_Some (c_file_transfer c) <-> requested (c_lr c) = FileTransfer;
  r_view_camera : c_view_camera c = true <-> requested (c_lr c) = ViewCamera;
  r_terminal : c_terminal c = true <-> requested (c_lr c) = Terminal }.

(** Authorized for the kind of session that was requested. *)
Record opened (c : Conn) : Prop := {
  o_authorized : c_authorized c = true;
  o_permit : is_Some (c_permit c);
  o_authed : c_authed c = Some (requested (c_lr c));
  o_flags : flags (requested (c_lr c)) c;
  o_pf_socket : c_pf_socket c = true -> requested (c_lr c) = PortForward }.

Definition main_inv (c : Conn) : Prop := (fresh c /\ as_requested c) \/ opened c.

Lemma fresh_typed t c c' : t <> Remote -> typed t c c' -> fresh c -> fresh c'.
Proof.
  intros Ht [] []. split; try congruence; auto; [|by rewrite y_window0]. destruct (c_pf_socket c'); [|done]. rewrite <- f_pf_socket0. symmetry. auto.
Qed.
Lemma requested_fields c c' : c_file_transfer c' = c_file_transfer c -> c_view_camera c' = c_view_camera c ->
  c_terminal c' = c_terminal c -> c_lr c' = c_lr c -> as_requested c -> as_requested c'.
Proof. intros E1 E2 E3 E4 []. split; by rewrite ?E1, ?E2, ?E3, E4. Qed.
Lemma requested_typed t c c' : typed t c c' -> as_requested c -> as_requested c'.
Proof. intros []. by apply requested_fields. Qed.
Lemma opened_typed c c' : typed (requested (c_lr c)) c c' -> opened c -> opened c'.
Proof.
  intros Hy []. pose proof (flags_typed _ _ _ Hy o_flags0) as Hf. destruct Hy. split; rewrite ?y_lr0; try congruence; auto.
Qed.

Section Authorizing.
Context `{env : Env, lenv : LoginEnv}.

Lemma stay_login_options t s : c_authed (conn s) = Some t -> staying t s update_scoped_login_options.
Proof.
  intros Ht. unfold update_scoped_login_options. stay.
  match goal with H : along t s ?s1, E : c_authed (conn ?s1) = Some ?t' |- _ =>
    assert (t' = t) as -> by (pose proof (y_authed _ _ _ H); congruence) end.
  match goal with H : (scoped_login_option _ _).1 = Some _ |- _ => rename H into Ho end.
  apply scoped_staying. destruct t; simpl in Ho.
  - apply remote_options.
  - discriminate Ho.
  - discriminate Ho.
  - apply camera_scoped_option in Ho as [??]. by apply camera_options.
  - pose proof (scoped_terminal_eq o) as Heq. rewrite Ho in Heq. simpl in Heq. subst. apply terminal_options; by repeat split.
Qed.

Lemma stay_start_session t s : c_authed (conn s) = Some t -> staying t s start_session.
Proof.
  intros Ht. unfold start_session, respond_remote, on_remote_authorized, update_codec_on_login, send_peer_info, read_dir,
    init_terminal_service, try_sub_camera_displays, try_sub_monitor_services, send_permission.
  stay; apply stay_login_options; repeat match goal with H : along _ _ _ |- _ => apply y_authed in H end; simpl in *; congruence.
Qed.

(** [authorize] when the flags are those of the request. *)
Lemma auth_type_requested c : as_requested c -> (c_pf_socket c = true <-> requested (c_lr c) = PortForward) ->
  (auth_type c).2 = requested (c_lr c).
Proof.
  intros [Hf Hv Ht] Hp. unfold auth_type. case_bool_decide as E; [by rewrite (proj1 Hf)|].
  destruct (c_pf_socket c); [by rewrite (proj1 Hp)|]. destruct (c_view_camera c); [by rewrite (proj1 Hv)|].
  destruct (c_terminal c); [by rewrite (proj1 Ht)|]. simpl. destruct (requested (c_lr c)); try done;
    [by destruct E; apply Hf|by destruct Hp as [_ ?]; discriminate H|by discriminate (proj2 Hv)|by discriminate (proj2 Ht)].
Qed.

(** What becomes of a login: a session is opened, for the reason [P], or none is and
    the connection waits or ends. *)
Definition shut (keep : bool) (c : Conn) : Prop :=
  c_authorized c = false /\ c_authed c = None /\ c_pf_socket c = false /\ (keep = true -> fresh c /\ as_requested c).
Definition outcome (P : Prop) (permit : option str) (keep : bool) (s' : St) : Prop :=
  c_permit (conn s') = permit /\ ((opened (conn s') /\ l_ready = true /\ P) \/ shut keep (conn s')).

Lemma outcome_shut P permit keep s : fresh (conn s) -> as_requested (conn s) -> c_permit (conn s) = permit -> outcome P permit keep s.
Proof. intros Hf Hr Hp. split; [done|]. right. pose proof Hf as []. by split_and!. Qed.

Lemma outcome_mono (P P' : Prop) permit keep s : (P -> P') -> outcome P permit keep s -> outcome P' permit keep s.
Proof. intros HP [? [(? & ? & ?)|?]]; split; auto. Qed.

(** The waiting state, with the fields that authentication reads. *)
Definition waits (c0 : Conn) (c : Conn) : Prop := fresh c /\ as_requested c /\ login_kept c0 c.

Lemma waits_kept c0 s s' : waits c0 (conn s) -> keeps s s' -> waits c0 (conn s').
Proof.
  intros (Hf & Hr & Hk) [Hk' _]. split; [|split; [|by etransitivity]].
  - by eapply (fresh_typed Terminal); [|apply login_kept_typed|].
  - by eapply (requested_typed Terminal); [apply login_kept_typed|].
Qed.

Lemma waits_outcome P c0 keep s : waits c0 (conn s) -> outcome P (c_permit c0) keep s.
Proof. intros (? & ? & []). by apply outcome_shut. Qed.

(** Between the checks and [authorize]: a terminal has its token, a forwarding
    session its socket. *)
Record prepared (c0 c : Conn) : Prop := {
  p_permit : c_permit c = c_permit c0;
  p_lr : c_lr c = c_lr c0;
  p_authorized : c_authorized c = false;
  p_authed : c_authed c = None;
  p_pf_socket : c_pf_socket c = false;
  p_token : requested (c_lr c) <> Terminal -> c_terminal_user_token c = false;
  p_window : c_follow_remote_window c = false;
  p_printer : c_printer_data c = [];
  p_modifiers : c_pressed_modifiers c = [];
  p_requested : as_requested c }.

Lemma prepared_kept c0 s s' : prepared c0 (conn s) -> keeps s s' -> prepared c0 (conn s').
Proof.
  intros [] [Hk _]. pose proof (requested_typed Terminal _ _ (login_kept_typed _ _ _ Hk) p_requested0) as Hr.
  destruct Hk. split; try congruence. rewrite l_token0, l_lr0. done.
Qed.

Lemma prepared_shut c0 c : prepared c0 c -> shut false c.
Proof. intros []. by split_and!. Qed.

Lemma flags_requested c0 c : prepared c0 c -> flags (requested (c_lr c)) c.
Proof.
  intros []. destruct p_requested0 as [Hf Hv Ht]. split; [|done].
  assert (Hnone : requested (c_lr c) <> FileTransfer -> c_file_transfer c = None).
  { intros H. apply eq_None_not_Some. by rewrite Hf. }
  destruct (requested (c_lr c)) eqn:E; [|by apply Hf|by apply Hnone| |by apply Hnone]; split_and!; try done; auto.
  - destruct (c_view_camera c); [|done]. by discriminate (proj1 Hv).
  - by apply Hv.
Qed.

Lemma prepare_spec s : fresh (conn s) -> as_requested (conn s) ->
  wp prepare_terminal_login_for_authorization (fun r s' =>
    prepared (conn s) (conn s') /\ match r with Some keep => keep = false | None => True end) s.
Proof.
  intros [] Hr. unfold prepare_terminal_login_for_authorization. apply wp_bind, wp_getc. unfold id.
  destruct (c_terminal (conn s)) eqn:Et; simpl; [|by apply wp_ret]. rewrite f_token0.
  apply wp_bind, wp_modc. assert (Hp : prepared (conn s) (conn (s <| conn ::= fun c => c <| c_terminal_user_token := true |> |>))).
  { destruct Hr as [? ? Htt]. split; simpl; try done. intros []. by apply Htt. }
  case_bool_decide; [|by apply wp_ret]. apply wp_bind. eapply wp_frame; [apply quiet_login_error|]. intros _ s' Hq.
  apply wp_bind, wp_emit, wp_ret. split; [|done]. by eapply prepared_kept, quiet_keeps.
Qed.

(** The address of the forwarded port and its closed socket change nothing else. *)
Lemma prepared_forward c0 c addr : prepared c0 c ->
  prepared c0 (c <| c_pf_socket := false |>) /\ prepared c0 (c <| c_pf_address := addr |>)
  /\ prepared c0 (c <| c_pf_address := addr |> <| c_pf_socket := true |> <| c_pf_socket := false |>).
Proof.
  intros []. split_and!; split; simpl; try done; eapply (requested_typed Terminal); try exact p_requested0; split; simpl; done.
Qed.

Lemma connect_spec c0 s : prepared c0 (conn s) ->
  wp connect_port_forward_if_needed (fun ok s' =>
    if ok then prepared c0 ((conn s') <| c_pf_socket := false |>)
               /\ (c_pf_socket (conn s') = true <-> requested (c_lr (conn s')) = PortForward)
    else prepared c0 (conn s')) s.
Proof.
  intros Hp. unfold connect_port_forward_if_needed. apply wp_bind, wp_getc. unfold id. rewrite (p_pf_socket _ _ Hp).
  destruct (lr_union (c_lr (conn s))) as [[| | |host port|]|] eqn:E;
    try (apply wp_ret; split; [exact (proj1 (prepared_forward _ _ [] Hp))|]; unfold requested; rewrite E, (p_pf_socket _ _ Hp); done).
  destruct (normalize_port_forward_target host port) as [addr is_rdp]. apply wp_bind, wp_modc, wp_bind, wp_emit.
  destruct (prepared_forward _ _ addr Hp) as (_ & Hp1 & Hp2). destruct (l_connect addr).
  - apply wp_bind, wp_modc, wp_ret. split; [exact Hp2|]. simpl. unfold requested. by rewrite E.
  - apply wp_bind. eapply wp_frame; [apply quiet_login_error|]. intros _ s' Hq. apply wp_ret.
    eapply prepared_kept; [|exact (quiet_keeps _ _ Hq)]. exact Hp1.
Qed.

Lemma authed_new_spec t s : wp (authed_conn_new t) (fun _ s' => conn s' = (conn s) <| c_authed := Some t |>) s.
Proof.
  unfold authed_conn_new, check_wake_lock. apply wp_bind, wp_getc, wp_bind, wp_modg, wp_bind, wp_bind, wp_getg, wp_emit, wp_bind.
  by apply wp_when; intros _; [apply wp_emit|]; apply wp_modc.
Qed.

Lemma authorize_spec c0 s : is_Some (c_permit c0) -> prepared c0 ((conn s) <| c_pf_socket := false |>) ->
  (c_pf_socket (conn s) = true <-> requested (c_lr (conn s)) = PortForward) ->
  wp authorize (fun _ s' => c_permit (conn s') = c_permit c0 /\ opened (conn s')) s.
Proof.
  intros Hpm Hp Hpf.
  assert (Ht : (auth_type (conn s)).2 = requested (c_lr (conn s))).
  { apply auth_type_requested; [|done]. by eapply requested_fields; [..|exact (p_requested _ _ Hp)]. }
  unfold authorize. apply wp_bind, wp_modc, wp_bind, wp_getc.
  replace ((auth_type _).2) with (requested (c_lr (conn s))) by (symmetry; exact Ht).
  apply wp_bind. eapply wp_mono; [apply authed_new_spec|]. cbn beta. intros _ s0 Hc0.
  apply wp_bind, wp_getg, wp_bind, wp_modc. set (s1 := s0 <| conn ::= _ |>).
  assert (Ho : c_permit (conn s1) = c_permit c0 /\ opened (conn s1)).
  { unfold s1. simpl. rewrite Hc0. clear -Hpm Hp Hpf. pose proof (flags_requested _ _ Hp) as Hf. destruct Hp. simpl in *.
    split; [done|]. split; simpl; try done; [by rewrite p_permit0|tauto]. }
  clearbody s1.
  destruct Ho as [Hp1 Ho]. eapply (wp_frame (along (requested (c_lr (conn s1)))) (fun _ => True)).
  - unfold normalize_conn_audit_auth_fields, record_session_start, post_conn_audit. stay. split; simpl; by case_match.
  - intros a s' Hal. split; [by rewrite (y_permit _ _ _ Hal)|]. by eapply opened_typed.
Qed.

(** [send_logon_response_and_keep_alive] from the waiting state. *)
Lemma logon_spec c0 s : waits c0 (conn s) -> wp send_logon_response_and_keep_alive (outcome True (c_permit c0)) s.
Proof.
  intros Hw. pose proof Hw as (Hf & Hr & Hk). unfold send_logon_response_and_keep_alive. apply wp_bind, wp_getc. unfold id.
  destruct (negb l_ready || negb (bool_decide (is_Some (c_permit (conn s))))) eqn:Eg.
  { apply wp_bind. eapply wp_frame; [apply quiet_login_error|]. intros _ s' Hq%quiet_keeps. apply wp_ret. eapply waits_outcome, waits_kept; eauto. }
  apply orb_false_iff in Eg as [Erdy Epm]. apply negb_false_iff in Erdy. apply negb_false_iff, bool_decide_eq_true in Epm.
  rewrite (f_authorized _ Hf). apply wp_bind. eapply wp_mono; [by apply prepare_spec|]. cbn beta. intros r s1 [Hp Hres].
  rewrite <- (l_permit _ _ Hk). destruct r as [keep|].
  { subst keep. apply wp_ret. split; [by apply Hp|]. right. by eapply prepared_shut. }
  apply wp_bind. eapply wp_mono; [by apply connect_spec|]. cbn beta. intros [] s2 Hs2; cbn [negb].
  2: { apply wp_ret. split; [by apply Hs2|]. right. by eapply prepared_shut. }
  destruct Hs2 as [Hp2 Hpf]. apply wp_bind. eapply wp_mono; [by eapply authorize_spec|]. cbn beta. intros _ s3 [Hp3 Ho].
  assert (Hdone : forall m : Act unit, staying (requested (c_lr (conn s3))) s3 m ->
    wp (_ ← m; mret true) (outcome True (c_permit (conn s))) s3).
  { intros m Hm. apply wp_bind. eapply wp_frame; [exact Hm|]. intros _ s4 Hal. apply wp_ret. split; [by rewrite (y_permit _ _ _ Hal)|].
    left. split_and!; [by eapply opened_typed|done..]. }
  apply wp_bind, wp_getc. repeat case_match; apply Hdone; [unfold send_peer_info; stay..|]. apply stay_start_session, o_authed, Ho.
Qed.

(** The two fields of a password check besides the login request. *)
Lemma secret_fields c c' pw : c_lr c' = c_lr c -> c_challenge c' = c_challenge c -> c_salt c' = c_salt c ->
  validate_password_plain c' pw = validate_password_plain c pw.
Proof. intros E1 E2 E3. unfold validate_password_plain, verify_h1. by rewrite E1, E2, E3. Qed.

Lemma recent_fields c c' g : c_lr c' = c_lr c -> c_challenge c' = c_challenge c -> c_salt c' = c_salt c ->
  recent_ok c' g -> recent_ok c g.
Proof.
  intros E1 E2 E3 (sess & Hs & Hl & Hne & Hv). exists sess. unfold session_key in *. rewrite E1 in *.
  by rewrite (secret_fields c c') in Hv.
Qed.

Lemma password_fields c c' g : c_lr c' = c_lr c -> c_challenge c' = c_challenge c -> c_salt c' = c_salt c ->
  password_ok c' g -> password_ok c g.
Proof.
  intros E1 E2 E3 [[He Hv]|[He Hv]]; [left|right]; (split; [done|]).
  - by rewrite (secret_fields c c') in Hv.
  - unfold validate_password_storage, validate_preset_password_storage, verify_h1 in *. rewrite E1, E2 in Hv.
    by rewrite !(secret_fields c c' _ E1 E2 E3) in Hv.
Qed.

(** ** The login request *)

(** The peer proved who it is: a recent session, or a password from an address that
    is not locked out. *)
Definition proved (c : Conn) (g : Glob) : Prop :=
  recent_ok c g \/ (not_locked (c_ip c) (g_failures g) /\ password_ok c g).

Lemma proved_fields c c' g : c_lr c' = c_lr c -> c_challenge c' = c_challenge c -> c_salt c' = c_salt c -> c_ip c' = c_ip c ->
  proved c' g -> proved c g.
Proof.
  intros E1 E2 E3 E4 [Hr|[Hl Hp]]; [left; by eapply recent_fields|right]. rewrite <- E4. split; [done|by eapply password_fields].
Qed.

Lemma start_cm_waits c0 p n a s Q : waits c0 (conn s) -> (forall s', waits c0 (conn s') -> Q tt s') -> wp (try_start_cm p n a) Q s.
Proof.
  intros Hw HQ. eapply wp_frame; [apply quiet_start_cm|]. intros [] s' Hq%quiet_keeps. apply HQ. by eapply waits_kept.
Qed.
Lemma error_waits c0 e s (Q : unit -> St -> Prop) : waits c0 (conn s) -> (forall s', waits c0 (conn s') -> Q tt s') -> wp (send_login_error e) Q s.
Proof.
  intros Hw HQ. eapply wp_frame; [apply quiet_login_error|]. intros [] s' Hq%quiet_keeps. apply HQ. by eapply waits_kept.
Qed.

Lemma outcome_kept P permit keep s s' : outcome P permit keep s -> keeps s s' -> outcome P permit keep s'.
Proof.
  intros [Hp Ho] [Hk _]. split; [by rewrite (l_permit _ _ Hk)|]. destruct Ho as [(Ho & ? & ?)|(? & ? & ? & Hf)]; [left|right].
  - split_and!; [|done..]. by eapply opened_typed; [apply login_kept_typed|].
  - pose proof Hk as []. split_and!; [congruence..|]. intros Hkeep. destruct (Hf Hkeep). split.
    + by eapply (fresh_typed Terminal); [|apply login_kept_typed|].
    + by eapply (requested_typed Terminal); [apply login_kept_typed|].
Qed.

Lemma authenticated_spec (P : Prop) c0 lr err s : P -> waits c0 (conn s) ->
  wp (login_authenticated lr err) (outcome P (c_permit c0)) s.
Proof.
  intros HP Hw. unfold login_authenticated. case_bool_decide.
  2: { apply wp_bind. eapply error_waits; [done|]. intros s' Hw'. apply wp_ret. by eapply waits_outcome. }
  apply wp_bind. eapply (wp_frame quiet (fun _ => True)); [unfold wait_desktop_cm_ready; keep|]. intros _ s0 Hq%quiet_keeps.
  apply wp_bind. eapply wp_mono; [eapply logon_spec, waits_kept; eauto|]. cbn beta.
  intros keep s' Ho%(outcome_mono _ P); [|done]. destruct keep; [|by apply wp_ret].
  apply wp_bind, wp_getc, wp_bind. eapply wp_frame; [apply quiet_start_cm|]. intros _ s2 Hq2%quiet_keeps. apply wp_ret.
  by eapply outcome_kept.
Qed.

Lemma keep_update_failure f t b s : keeping s (update_failure_now f t b).
Proof. unfold update_failure_now. keep. Qed.

Lemma with_password_spec c0 lr err s : waits c0 (conn s) ->
  wp (login_with_password lr err)
    (outcome (not_locked (c_ip (conn s)) (g_failures (glob s)) /\ password_ok (conn s) (glob s)) (c_permit c0)) s.
Proof.
  intros Hw. unfold login_with_password. apply wp_bind. eapply wp_mono; [apply check_failure_spec|]. cbn beta.
  intros [[f time] ok] s1 [Hq Hl]. assert (Hw1 : waits c0 (conn s1)) by (by eapply waits_kept, quiet_keeps; eauto).
  destruct ok; simpl; [|apply wp_ret; by eapply waits_outcome].
  apply wp_bind. eapply wp_mono; [apply valid_spec|]. cbn beta. intros v s2 [Hk Hv].
  assert (Hw2 : waits c0 (conn s2)) by (by eapply waits_kept; eauto). destruct v.
  - apply wp_bind. eapply wp_frame; [apply keep_update_failure|]. intros _ s3 Hk3. apply authenticated_spec; [|by eapply waits_kept; eauto].
    split; [by apply Hl|]. destruct Hq as [[] Hg]. rewrite <- Hg. by eapply password_fields; [..|apply Hv].
  - apply wp_bind. eapply wp_frame; [apply keep_update_failure|]. intros _ s3 Hk3. apply wp_bind.
    eapply wp_frame; [apply quiet_temp|]. intros _ s4 Hk4.
    assert (Hw4 : waits c0 (conn s4)) by (eapply waits_kept; [|eauto]; by eapply waits_kept; eauto).
    case_bool_decide; apply wp_bind; (eapply error_waits; [done|]); intros s5 Hw5.
    + apply wp_bind. eapply start_cm_waits; [done|]. intros s6 Hw6. apply wp_ret. by eapply waits_outcome.
    + apply wp_ret. by eapply waits_outcome.
Qed.

Lemma authenticate_spec c0 lr err s : waits c0 (conn s) ->
  wp (authenticate lr err) (outcome (proved (conn s) (glob s)) (c_permit c0)) s.
Proof.
  intros Hw. unfold authenticate. case_match.
  { apply wp_bind. eapply start_cm_waits; [done|]. intros s1 Hw1. apply wp_bind.
    apply wp_when; intros _; [eapply error_waits; [done|]; intros s2 Hw2|]; apply wp_ret; by eapply waits_outcome. }
  apply wp_bind. eapply wp_mono; [apply recent_spec|]. cbn beta. intros b s1 (Hk & Hfl & Htp & Hr).
  assert (Hw1 : waits c0 (conn s1)) by (by eapply waits_kept; eauto). destruct b.
  { apply authenticated_spec; [left; by apply Hr|done]. }
  destruct (bool_decide (lr_password lr = [])).
  - apply wp_bind. destruct (bool_decide (err = [])); [eapply start_cm_waits|eapply error_waits]; try done; intros s2 Hw2;
      apply wp_ret; by eapply waits_outcome.
  - eapply wp_mono; [by apply with_password_spec|]. cbn beta. intros keep s2. apply outcome_mono. unfold password_ok. rewrite Htp, Hfl.
    destruct Hk as [[] _]. rewrite l_ip0. intros [Hl Hp]. right. split; [done|].
    apply (password_fields (conn s) (conn s1) (glob s)); try done.
Qed.

Lemma desktop_spec c0 lr s : waits c0 (conn s) ->
  wp (login_desktop lr) (outcome (proved (conn s) (glob s)) (c_permit c0)) s.
Proof.
  intros Hw. unfold login_desktop. apply wp_bind. eapply (wp_mono _ (fun _ s' => s' = s)).
  { unfold try_start_desktop. destruct l_headless_allowed; [apply wp_bind, wp_emit|]; by apply wp_ret. }
  intros err ? ->. destruct (negb _ && negb _); [|by apply authenticate_spec].
  destruct (should_record_linux_headless_os_auth_failure _ _).
  - apply wp_bind. eapply wp_mono; [apply check_failure_spec|]. cbn beta. intros [[f time] ok] s1 [Hq _].
    assert (Hw1 : waits c0 (conn s1)) by (by eapply waits_kept, quiet_keeps; eauto).
    destruct ok; simpl; [|apply wp_ret; by eapply waits_outcome].
    apply wp_bind. eapply wp_frame; [apply keep_update_failure|]. intros _ s2 Hk. apply wp_bind.
    eapply error_waits; [by eapply waits_kept; eauto|]. intros s3 Hw3. apply wp_ret. by eapply waits_outcome.
  - apply wp_bind. eapply error_waits; [done|]. intros s1 Hw1. apply wp_ret. by eapply waits_outcome.
Qed.

(** The fields a proof of identity depends on. *)
Record same_login (c c' : Conn) : Prop := {
  n_lr : c_lr c' = c_lr c; n_permit : c_permit c' = c_permit c; n_ip : c_ip c' = c_ip c;
  n_challenge : c_challenge c' = c_challenge c; n_salt : c_salt c' = c_salt c }.

Lemma deny_spec err s : fresh (conn s) ->
  wp (deny_login err) (fun b s' => b = false /\ fresh (conn s') /\ same_login (conn s) (conn s')) s.
Proof.
  intros Hf. unfold deny_login. apply wp_bind. eapply wp_frame; [apply quiet_login_error|]. intros _ s' [Hk _].
  apply wp_bind, wp_emit, wp_ret. split_and!; [done| |by destruct Hk]. by eapply (fresh_typed Terminal); [|apply login_kept_typed|].
Qed.

Lemma scope_spec lr s : fresh (conn s) -> c_lr (conn s) = lr -> c_file_transfer (conn s) = None -> c_view_camera (conn s) = false ->
  c_terminal (conn s) = false ->
  wp (set_session_scope lr) (fun ok s' => fresh (conn s') /\ same_login (conn s) (conn s')
    /\ (ok = true -> as_requested (conn s') /\ glob s' = glob s)) s.
Proof.
  intros Hf Hlr E1 E2 E3. unfold set_session_scope. apply wp_bind, wp_getc. pose proof Hf as [].
  assert (Hdeny : forall err, wp (deny_login err) (fun ok s' => fresh (conn s') /\ same_login (conn s) (conn s')
    /\ (ok = true -> as_requested (conn s') /\ glob s' = glob s)) s).
  { intros err. eapply wp_mono; [by apply deny_spec|]. intros ok s' (-> & ? & ?). by split_and!. }
  destruct (lr_union lr) as [[]|] eqn:Eu; try (destruct (negb (permission _ _)); [by apply Hdeny|]); try apply wp_bind, wp_modc, wp_ret.
  1,2,4: (split; [by split|split; [by split|intros _; split; [|done]]]); split; simpl; unfold requested;
    rewrite Hlr, Eu, ?E1, ?E2, ?E3; split; (done || by eauto || by intros [? [=]]).
  1: destruct (c_options_in_login (conn s)) eqn:Eo;
      (split; [by split; simpl; rewrite Eo|split; [by split; simpl; rewrite Eo|intros _; split; [|done]]]);
      split; simpl; rewrite Eo; simpl; unfold requested; rewrite Hlr, Eu, ?E1, ?E2, ?E3; split; (done || by intros [? [=]]).
  all: unfold check_privacy_mode_on; destruct e_in_privacy_mode;
    [apply wp_bind; eapply wp_frame; [apply quiet_login_error|]; intros _ s' [Hk _]; apply wp_ret;
      (split_and!; [by eapply (fresh_typed Terminal); [|apply login_kept_typed|] | by destruct Hk | done])
    |apply wp_ret; split; [done|split; [by split|intros _; split; [|done]]]; split; unfold requested;
      rewrite Hlr, Eu, ?E1, ?E2, ?E3; split; (done || by intros [? [=]])].
Qed.

Lemma permitted_spec lr s : fresh (conn s) ->
  wp (login_permitted lr) (outcome (proved ((conn s) <| c_lr := lr |>) (glob s)) (c_permit (conn s))) s.
Proof.
  intros Hf. unfold login_permitted. apply wp_bind, wp_modc, wp_bind, wp_getc.
  set (s1 := s <| conn ::= _ |>).
  assert (H1 : fresh (conn s1) /\ same_login ((conn s) <| c_lr := lr |>) (conn s1) /\ glob s1 = glob s).
  { unfold s1. destruct Hf, (lr_option lr); by repeat split. }
  clearbody s1. destruct H1 as (Hf1 & Hn1 & Hg1). rewrite (f_authorized _ Hf1). apply wp_bind, wp_modc.
  apply wp_bind. eapply wp_mono.
  { apply scope_spec; try done; [by destruct Hf1|]. simpl. by rewrite (n_lr _ _ Hn1). }
  cbn beta. intros ok s2 (Hf2 & Hn2 & Hok).
  assert (Hn : same_login ((conn s) <| c_lr := lr |>) (conn s2)) by (destruct Hn1, Hn2; split; simpl in *; congruence).
  destruct ok; simpl; [destruct (Hok eq_refl) as [Hr2 Hg2]|].
  2: { apply wp_ret. split; [by apply Hn|]. right. by destruct Hf2. }
  assert (Hw : waits (conn s2) (conn s2)) by (by split_and!).
  assert (Hp : c_permit (conn s2) = c_permit (conn s)) by apply Hn. rewrite <- Hp.
  destruct (negb _ && negb _).
  { apply wp_bind. eapply error_waits; [done|]. intros s3 Hw3. apply wp_ret. by eapply waits_outcome. }
  apply wp_bind. eapply (wp_frame quiet (fun _ => True)); [unfold try_start_cm_ipc; keep|]. intros _ s3 Hq3.
  assert (Hdesk : forall s4, quiet s2 s4 -> wp (login_desktop lr) (outcome (proved ((conn s) <| c_lr := lr |>) (glob s)) (c_permit (conn s2))) s4).
  { intros s4 [Hk4 Hg4]. eapply wp_mono; [eapply desktop_spec, waits_kept; [done|by split; [|rewrite Hg4]]|].
    intros keep s5. apply outcome_mono. rewrite Hg4, Hg2. simpl. rewrite Hg1. destruct Hn, Hk4. simpl in *. apply proved_fields; simpl; congruence. }
  destruct (should_check_linux_headless_os_auth_before_desktop_start _); [|by apply Hdesk].
  apply wp_bind. eapply wp_mono; [apply check_failure_spec|]. cbn beta. intros [[f time] ok] s4 [Hq4 _]. cbn [snd].
  destruct ok; simpl; [apply Hdesk; by etransitivity|]. apply wp_ret.
  eapply waits_outcome, waits_kept; [done|]. apply quiet_keeps. by etransitivity.
Qed.

(** Where the permit comes from: it was accepted before, or is now. *)
Lemma login_spec lr s : fresh (conn s) ->
  wp (on_login_request lr) (fun keep s' =>
    exists permit, (permit = c_permit (conn s) \/ exists p, l_accept lr = Ok p /\ permit = Some p)
      /\ outcome (proved ((conn s) <| c_lr := lr |>) (glob s)) permit keep s') s.
Proof.
  intros Hf. unfold on_login_request. apply wp_bind, wp_getc. destruct (c_permit (conn s)) as [p|] eqn:Ep.
  { eapply wp_mono; [by apply permitted_spec|]. intros keep s' Ho. exists (Some p). split; [by left|]. by rewrite Ep in Ho. }
  destruct (l_accept lr) as [p|e] eqn:Ea.
  - apply wp_bind, wp_modc. eapply wp_mono; [apply permitted_spec; by destruct Hf|]. intros keep s' Ho.
    exists (Some p). split; [by eauto|]. eapply outcome_mono; [|exact Ho]. by apply proved_fields.
  - apply wp_bind. eapply wp_frame; [apply quiet_login_error|]. intros _ s' [Hk _]. apply wp_ret. exists None. split; [by left|].
    split; [by rewrite (l_permit _ _ Hk)|]. right. destruct Hf, Hk. split_and!; congruence.
Qed.

End Authorizing.

(** ** One turn of the loop *)

Section Turn.
Context `{env : Env, lenv : LoginEnv}.

Definition login_event (ev : Event) (lr : LoginRequest) : Prop := ev = Ev_Net (Some (Ok (Some (Msg_LoginRequest lr)))).

(** What authorizes a connection: an account that is logged in, and the approval of
    the host's user or a proof of identity. *)
Definition earned (ev : Event) (s : St) : Prop :=
  l_ready = true /\ (ev = Ev_Cm Fc_Authorize \/ exists lr, login_event ev lr /\ proved ((conn s) <| c_lr := lr |>) (glob s)).

Record turned (ev : Event) (s : St) (keep : bool) (s' : St) : Prop := {
  t_inv : keep = true -> main_inv (conn s');
  t_open : c_authorized (conn s') = true -> opened (conn s')
           /\ ((opened (conn s) /\ c_lr (conn s') = c_lr (conn s)) \/ (c_authorized (conn s) = false /\ earned ev s));
  t_kept : c_authorized (conn s) = true -> c_authorized (conn s') = true /\ c_lr (conn s') = c_lr (conn s);
  t_shut : c_authorized (conn s') = false -> c_authed (conn s') = None /\ c_pf_socket (conn s') = false;
  t_permit : c_permit (conn s') = c_permit (conn s)
             \/ exists lr p, login_event ev lr /\ l_accept lr = Ok p /\ c_permit (conn s') = Some p }.

Lemma turned_waiting ev s keep s' : fresh (conn s) -> as_requested (conn s) -> along Terminal s s' -> turned ev s keep s'.
Proof.
  intros Hf Hr Hal. pose proof (fresh_typed Terminal _ _ ltac:(done) Hal Hf) as Hf'. pose proof (requested_typed _ _ _ Hal Hr).
  pose proof (y_permit _ _ _ Hal). pose proof Hf' as []. destruct Hf. split; [by left|congruence|congruence|done|by left].
Qed.

Lemma turned_opened ev s keep s' : opened (conn s) -> along (requested (c_lr (conn s))) s s' -> turned ev s keep s'.
Proof.
  intros Ho Hal. pose proof (opened_typed _ _ Hal Ho) as Ho'. pose proof Hal as []. pose proof Ho' as [].
  destruct Ho. split; [by right|by split; [|left]|done|congruence|by left].
Qed.

Lemma turned_outcome ev s P keep permit s' : c_authorized (conn s) = false -> outcome P permit keep s' -> (l_ready = true -> P -> earned ev s) ->
  (permit = c_permit (conn s) \/ exists lr p, login_event ev lr /\ l_accept lr = Ok p /\ permit = Some p) -> turned ev s keep s'.
Proof.
  intros Ha [Hp Ho] HP Hper. subst permit. destruct Ho as [(Ho & Hl & HPP)|(Hu & Hn & Hpf & Hk)]; split; try done.
  - by right.
  - intros _. split; [done|right; auto].
  - congruence.
  - destruct Ho. congruence.
  - intros ->. left. auto.
  - congruence.
  - congruence.
Qed.

Lemma turned_weaken ev s keep keep' s' : (keep' = true -> keep = true) -> turned ev s keep s' -> turned ev s keep' s'.
Proof. intros Hk []. split; auto. Qed.

(** A later state that differs only in what [along] allows. *)
Lemma touch_spec s : fresh (conn s) -> wp touch_session_clock (fun _ s' => s' = s) s.
Proof. intros []. unfold touch_session_clock. apply wp_bind, wp_getc. rewrite f_session0. by apply wp_ret. Qed.

Lemma authorize_event_turned s : main_inv (conn s) -> wp (on_cm Fc_Authorize) (turned (Ev_Cm Fc_Authorize) s) s.
Proof.
  intros [[Hf Hr]|Ho].
  - unfold on_cm. apply wp_bind, wp_modc. apply wp_bind.
    eapply wp_mono; [apply (logon_spec (conn s)); split_and!; [by destruct Hf|by eapply requested_fields; [..|exact Hr]|by split]|].
    cbn beta. intros keep s' Hout. apply wp_bind, wp_getc, wp_ret. apply (turned_weaken _ _ keep); [by intros [? _]%andb_true_iff|].
    eapply turned_outcome; [by destruct Hf|exact Hout| |by left]. intros Hl _. split; [done|by left].
  - eapply (wp_frame (along (requested (c_lr (conn s)))) (fun _ => True)); [|intros keep s' Hal; by apply turned_opened].
    unfold on_cm, set_conn_audit_primary_auth. stay. unfold send_logon_response_and_keep_alive. unfold getc. obey_step. unfold id.
    match goal with H : along _ s ?s1 |- _ => pose proof (y_authorized _ _ _ H) as Ha end. rewrite (o_authorized _ Ho) in Ha. rewrite Ha.
    unfold send_login_error. stay.
Qed.

Lemma message_turned m s : main_inv (conn s) ->
  wp (on_net (Some (Ok (Some m)))) (turned (Ev_Net (Some (Ok (Some m)))) s) s.
Proof.
  intros Hi. unfold on_net. apply wp_bind, wp_modc, wp_bind. set (s1 := s <| conn ::= _ |>).
  assert (Hend : forall s2, wp (on_message m) (turned (Ev_Net (Some (Ok (Some m)))) s) s2 ->
    wp (keep ← on_message m; if negb keep then mret false
        else c ← getc id; mret (negb (c_pf_socket c && c_authorized c && bool_decide (c_last_test_delay c = None))))
      (turned (Ev_Net (Some (Ok (Some m)))) s) s2).
  { intros s2 H. apply wp_bind. eapply wp_mono; [exact H|]. intros [] s3 Ht; [|by apply wp_ret].
    apply wp_bind, wp_getc, wp_ret. by eapply turned_weaken. }
  destruct Hi as [[Hf Hr]|Ho].
  - assert (Hf1 : fresh (conn s1)) by (by destruct Hf). eapply wp_mono; [by apply touch_spec|]. cbn beta. intros _ s2 ->. apply Hend.
    assert (Hal : along Terminal s s1) by (by split).
    destruct (match m with Msg_LoginRequest _ => false | _ => true end) eqn:Em.
    + eapply wp_frame; [apply (stay_unauthorized Terminal); [by destruct Hf1|by destruct m]|].
      intros keep s2 Hal2. apply turned_waiting; [done..|]. by etransitivity.
    + destruct m; try done. unfold on_message, on_message_with, on_other_message. apply wp_bind, wp_getc. unfold id.
      rewrite (f_authorized _ Hf1). eapply wp_mono; [by apply login_spec|]. cbn beta. intros keep s2 (permit & Hp & Hout).
      eapply turned_outcome; [by destruct Hf|exact Hout| |].
      * intros Hl Hpr. split; [done|]. right. eexists. split; [done|]. by eapply proved_fields; [..|exact Hpr].
      * destruct Hp as [->|(p & ? & ->)]; [by left|right]. by eexists _, p.
  - assert (Hal : along (requested (c_lr (conn s))) s s1) by (by split).
    eapply (wp_frame (along (requested (c_lr (conn s)))) (fun _ => True)); [unfold touch_session_clock; stay|].
    intros _ s2 Hal2. apply Hend. assert (Hal' : along (requested (c_lr (conn s))) s s2) by (by etransitivity).
    pose proof (opened_typed _ _ Hal' Ho) as Ho2. pose proof Ho2 as []. pose proof (y_lr _ _ _ Hal') as Hlr. rewrite Hlr in *.
    eapply wp_frame; [apply scoped_staying, message_scoped; done|]. intros keep s3 Hal3. apply turned_opened; [done|by etransitivity].
Qed.

Lemma loop_turned ev s : main_inv (conn s) -> wp (loop_step ev) (turned ev s) s.
Proof.
  intros Hi. assert (Hint : internal ev -> wp (loop_step ev) (turned ev s) s).
  { intros Hev. destruct Hi as [[Hf Hr]|Ho]; (eapply wp_frame; [by apply stay_loop|]); intros keep s'; [by apply turned_waiting|by apply turned_opened]. }
  destruct ev as [|d|r|r|conns|m r|l m n r|b|b|r r'|r r'|z]; try (by apply Hint).
  - destruct d; try (by apply Hint). by apply authorize_event_turned.
  - destruct r as [[[m|]|]|]; try (by apply Hint). by apply message_turned.
Qed.

End Turn.
