(* ===== verification/ConnLife.v ===== *)
(** * Lives of host connections

    Properties of whole lives ([ConnLoop.life]): authorization is earned, a session
    keeps the type it asked for, the peer causes nothing before it is authorized,
    the events that end a session do, and its end is announced exactly once and
    leaves nothing behind. *)
From stdpp Require Import base gmap list strings.
From Stdlib Require Import ZArith Lia.
From S2P Require Import Prelude RustStr Effects Message SessionScope Service ServerReg LoginFailure ConnState Connection ConnScope ConnLogin ConnLoop ConnSafety.

#[local] Open Scope Z_scope.

(** ** The end is announced once

    [calm]: neither closes nor tells the connection manager that it closed. *)

Definition notice (e : Effect) : bool := match e with ToCm (Cm_Close | Cm_Disconnected) => true | _ => false end.
Definition same_closed (s s' : St) : Prop := c_closed (conn s') = c_closed (conn s).
#[global] Instance same_closed_preorder : PreOrder same_closed.
Proof. split; [done|]. intros s1 s2 s3 H1 H2. unfold same_closed in *. congruence. Qed.

Abbreviation calm := (obeys same_closed (fun e => notice e = false)).

(** Closing is announced, once, and drops the forwarded socket. *)
Definition notices (l : list Effect) : nat := length (filter (fun e => notice e = true) l).
Definition told {A} (m : Act A) (s : St) : Prop :=
  (notices (fx m s) + Nat.b2n (c_closed (conn s)) = Nat.b2n (c_closed (conn (st m s))))%nat
  /\ (c_closed (conn (st m s)) = true -> c_closed (conn s) = true \/ c_pf_socket (conn (st m s)) = false).

(** A handler that closes ends the loop. *)
Definition going (m : Act bool) (s : St) : Prop := told m s /\ (res m s = true -> calm s m).

Lemma notices_app l l' : notices (l ++ l') = (notices l + notices l')%nat.
Proof. unfold notices. by rewrite filter_app, length_app. Qed.
Lemma notices_none l : Forall (fun e => notice e = false) l -> notices l = 0%nat.
Proof. unfold notices. induction 1 as [|e l He _ IH]; [done|]. rewrite filter_cons, He. by simpl. Qed.

Lemma calm_told {A} (m : Act A) s : calm s m -> told m s.
Proof. intros [Hc Hf]. unfold told. rewrite (notices_none _ Hf), Hc. auto. Qed.
Lemma told_bind {A B} (m : Act A) (k : A -> Act B) s : calm s m -> told (k (res m s)) (st m s) -> told (m ≫= k) s.
Proof. intros [Hc Hf] [Hn Hp]. unfold told. rewrite fx_bind, st_bind, notices_app, (notices_none _ Hf). rewrite Hc in *. auto. Qed.

Lemma calm_going m s : calm s m -> going m s.
Proof. intros H. split; [by apply calm_told|done]. Qed.
Lemma going_bind {A} (m : Act A) (k : A -> Act bool) s :
  calm s m -> (forall s' a, going (k a) s') -> going (m ≫= k) s.
Proof.
  intros Hm Hk. split; [apply told_bind; [done|]; apply Hk|]. intros Hr. rewrite res_bind in Hr.
  apply obeys_bind; [exact _|done|]. intros _. by apply Hk.
Qed.
Lemma going_gets {A} (f : St -> A) (k : A -> Act bool) s : going (k (f s)) s -> going (gets f ≫= k) s.
Proof. unfold going, told, obeys, res, st, fx. by rewrite run_gets_bind. Qed.
Lemma going_then (m k : Act bool) s :
  going m s -> (forall s', going k s') -> going (keep ← m; if negb keep then mret false else k) s.
Proof.
  intros [Ht Hm] Hk. unfold going. rewrite res_bind. destruct (res m s) eqn:E; cbn [negb].
  - split; [apply told_bind; [by apply Hm|]; rewrite E; apply Hk|]. intros Hr. apply obeys_bind; [exact _|by apply Hm|].
    intros _. rewrite E. by apply Hk.
  - split; [|done]. unfold told. rewrite fx_bind, st_bind, E, app_nil_r. exact Ht.
Qed.

(** The ways the loop ends by closing. *)
Section Closing.
Context `{env : Env}.

Lemma close_run lock s : c_closed (conn s) = false ->
  on_close lock s =
    (tt, s <| conn ::= fun c => c <| c_closed := true |> |> <| conn ::= fun c => c <| c_pf_socket := false |> |>,
     [ResetVoiceInput] ++ (if lock && c_lock_after_session_end (conn s) && c_keyboard (conn s) then [LockScreen] else [])
     ++ [ToCm (if c_chat_unanswered (conn s) || c_file_transferred (conn s) then Cm_Disconnected else Cm_Close)]).
Proof.
  intros E. unfold on_close, getc. rewrite run_gets_bind. unfold id. rewrite E. unfold when. by destruct (_ && _ && _).
Qed.
Lemma close_again lock s : c_closed (conn s) = true -> on_close lock s = (tt, s, []).
Proof. intros E. unfold on_close, getc. rewrite run_gets_bind. unfold id. by rewrite E. Qed.

Lemma told_close lock s : told (on_close lock) s.
Proof.
  unfold told, fx, st. destruct (c_closed (conn s)) eqn:E; [rewrite close_again by done; simpl; rewrite ?E; by auto|].
  rewrite close_run by done. simpl. split; [|by right]. by destruct (_ && _ && _), (_ || _).
Qed.

Lemma told_then {A} (m : Act unit) (b : A) s : told m s -> told (_ ← m; mret b) s.
Proof. unfold told. by rewrite fx_bind, st_bind, app_nil_r. Qed.
Lemma going_close lock s : going (_ ← on_close lock; mret false) s.
Proof. split; [apply told_then, told_close|]. by rewrite res_bind. Qed.
Lemma going_reason r lock s : going (_ ← send_close_reason_no_retry r; _ ← on_close lock; mret false) s.
Proof.
  split; [|by rewrite !res_bind]. apply told_bind; [|apply told_then, told_close]. unfold send_close_reason_no_retry, remove_my_session, send_misc, send, getc, modg.
  by repeat obey_step.
Qed.
Lemma going_peer_close s : going (_ ← on_close true; _ ← remove_my_session; mret false) s.
Proof.
  split; [|by rewrite !res_bind]. unfold told. rewrite fx_bind, st_bind, fx_bind, st_bind, !app_nil_r. exact (told_close true s).
Qed.

End Closing.

Ltac calm_leaf :=
  match goal with
  | |- same_closed _ _ => reflexivity
  | |- notice _ = false => by repeat case_match
  | |- Forall _ (_ <$> _) => by apply Forall_fmap, Forall_true
  end.
Ltac calm_unfold :=
  match goal with
  | |- context [getc _ ≫= _] => unfold getc
  | |- context [getg _ ≫= _] => unfold getg
  | |- obeys _ _ _ (modc _) => unfold modc
  | |- obeys _ _ _ (modg _) => unfold modg
  | |- obeys _ _ _ (send_to_cm _) => unfold send_to_cm
  | |- obeys _ _ _ (send_fs _) => unfold send_fs
  | |- obeys _ _ _ (send_misc _) => unfold send_misc
  | |- obeys _ _ _ (send _) => unfold send
  | |- obeys _ _ _ (on_server _) => unfold on_server
  | |- obeys _ _ _ (subscribe_to _ _) => unfold subscribe_to
  | |- obeys _ _ _ (if_set ?f _) => unfold if_set
  | |- obeys _ _ _ (send_permission _ _) => unfold send_permission
  | |- obeys _ _ _ (send_login_error _) => unfold send_login_error
  | |- obeys _ _ _ update_auto_disconnect_timer => unfold update_auto_disconnect_timer
  | |- obeys _ _ _ (refresh_video_display _) => unfold refresh_video_display
  | |- obeys _ _ _ (post_file_audit _ _ _) => unfold post_file_audit
  end.
Ltac calms :=
  repeat first
    [ calm_unfold
    | match goal with
      | |- obeys _ _ _ (gets _ ≫= _) => apply obeys_gets_bind; [exact _|]; cbn beta
      | |- obeys _ _ _ (_ ≫= _) => apply obeys_seq; [exact _| |intros ? ? ?]
      | |- obeys _ _ _ (for_each _ _) => apply obeys_for_each; [exact _|intros]
      end
    | obey_step | calm_leaf ].
(** Handlers that answer whether the loop goes on. *)
Ltac goes :=
  repeat first
    [ match goal with
      | |- going (mret _) _ => apply calm_going, obeys_ret; exact _
      | |- going (on_close _ ≫= _) _ => first [apply going_close | apply going_peer_close]
      | |- going (send_close_reason_no_retry _ ≫= _) _ => apply going_reason
      | |- going (getc _ ≫= _) _ => unfold getc
      | |- going (getg _ ≫= _) _ => unfold getg
      | |- going (gets _ ≫= _) _ => apply going_gets; cbn beta
      | |- going (_ ≫= _) _ => apply going_bind; [|intros]
      | |- going (if ?b then _ else _) _ => destruct b eqn:?
      | |- going (match ?x with _ => _ end) _ => destruct x eqn:?
      end ].

Section Calm.
Context `{env : Env, lenv : LoginEnv}.

Lemma calm_privacy_on k s : calm s (turn_on_privacy k).
Proof. unfold turn_on_privacy, turn_off_privacy_to_msg. calms. Qed.
Lemma calm_privacy_off k s : calm s (turn_off_privacy k).
Proof. unfold turn_off_privacy, turn_off_privacy_to_msg. calms. Qed.
Lemma calm_options o s : calm s (update_options o).
Proof.
  unfold update_options, update_quality, subscribe_cursor, subscribe_audio, update_privacy_mode, update_block_input,
    update_terminal_persistence, update_show_my_cursor, send_block_input_error.
  calms; auto using calm_privacy_on, calm_privacy_off.
Qed.
Lemma calm_resolution d r s : calm s (change_resolution d r).
Proof. unfold change_resolution. calms. Qed.
Lemma calm_close_voice_call s : calm s close_voice_call.
Proof. unfold close_voice_call, subscribe_audio_of_camera. calms. Qed.
Lemma calm_switch_display d w h s : calm s (handle_switch_display d w h).
Proof. unfold handle_switch_display, switch_display_to. calms. apply calm_resolution. Qed.
Lemma calm_capture add sub set s : calm s (capture_displays_of add sub set).
Proof. unfold capture_displays_of. calms. Qed.
Lemma calm_option o s : calm s (on_option o).
Proof. unfold on_option. calms; apply calm_options. Qed.
Lemma calm_remove_session s : calm s remove_my_session.
Proof. unfold remove_my_session. calms. Qed.

Lemma calm_file_action fa s : calm s (on_file_action fa).
Proof.
  unfold on_file_action, run_file_action, on_send, on_receive, on_cancel, on_send_confirm, read_empty_dirs, read_dir,
    create_and_start_read_job, process_new_read_job. calms.
Qed.

Lemma going_misc m s : going (on_misc m) s.
Proof.
  unfold on_misc, toggle_privacy_mode, on_switch_sides_request. goes; calms;
    auto using calm_switch_display, calm_capture, calm_privacy_on, calm_privacy_off, calm_option, calm_resolution.
Qed.

Lemma going_session m s : going (on_session_message m) s.
Proof.
  unfold on_session_message. destruct m; try (by goes);
    unfold on_mouse_event, on_pointer_device_event, on_key_event, on_clipboard, on_file_response, on_audio_frame,
      on_voice_call_request, on_screenshot_request, handle_terminal_action;
    try (by apply calm_going; calms; auto using calm_close_voice_call); [apply calm_going, calm_file_action|apply going_misc].
Qed.

Lemma going_message (login : LoginRequest -> Act bool) m s :
  (forall lr s', c_authorized (conn s') = false -> going (login lr) s') -> going (on_message_with login m) s.
Proof.
  intros Hl.
  assert (Hother : (forall lr, m = Msg_LoginRequest lr -> c_authorized (conn s) = false) -> going (on_other_message login m) s).
  { intros Hm. unfold on_other_message. destruct m; try (by apply Hl, (Hm _ eq_refl)); try (by goes; auto using going_session);
      apply calm_going; unfold on_test_delay; calms. }
  assert (Hviol : forall message, going (handle_authorized_scope_violation message) s).
  { intros message. unfold handle_authorized_scope_violation, post_session_scope_violation_alarm. goes; calms. }
  unfold on_message_with. destruct m as [| | | | | | | | | | | | |misc| | | | | | | | | | | | | | |]; try (destruct misc as [[]|]);
    try (by goes); unfold getc; apply going_gets; unfold id; destruct (c_authorized (conn s)) eqn:Ha;
    try (by goes); try (by apply Hother); (case_match; [apply Hviol|by apply Hother]).
Qed.

Lemma calm_login_options s : calm s update_scoped_login_options.
Proof. unfold update_scoped_login_options. calms. apply calm_options. Qed.
Lemma calm_start_session s : calm s start_session.
Proof.
  unfold start_session, respond_remote, on_remote_authorized, update_codec_on_login, send_peer_info, read_dir,
    init_terminal_service, try_sub_camera_displays, try_sub_monitor_services.
  calms; apply calm_login_options.
Qed.
Lemma calm_logon s : calm s send_logon_response_and_keep_alive.
Proof.
  unfold send_logon_response_and_keep_alive, prepare_terminal_login_for_authorization, connect_port_forward_if_needed, authorize,
    authed_conn_new, check_wake_lock, normalize_conn_audit_auth_fields, record_session_start, post_conn_audit, send_peer_info.
  calms; auto using calm_start_session. unfold same_closed. simpl. by case_match.
Qed.
Lemma calm_check_failure s : calm s check_failure_now.
Proof. unfold check_failure_now, post_check_effect, post_alarm_audit. calms. Qed.
Lemma calm_temp b s : calm s (check_update_temporary_password b).
Proof. unfold check_update_temporary_password. calms. Qed.
Lemma calm_authenticated lr err s : calm s (login_authenticated lr err).
Proof. unfold login_authenticated, wait_desktop_cm_ready, try_start_cm. calms. apply calm_logon. Qed.
Lemma calm_with_password lr err s : calm s (login_with_password lr err).
Proof.
  unfold login_with_password, validate_password, update_failure_now, try_start_cm, set_conn_audit_primary_auth.
  calms; auto using calm_check_failure, calm_temp, calm_authenticated.
Qed.
Lemma calm_login lr s : calm s (on_login_request lr).
Proof.
  unfold on_login_request, login_permitted, handle_login_request_without_validation, reset_session_scope_for_login, set_session_scope,
    deny_login, check_privacy_mode_on, try_start_cm_ipc, login_desktop, try_start_desktop, authenticate, is_recent_session,
    set_conn_audit_primary_auth, set_conn_audit_two_factor, update_failure_now, try_start_cm.
  calms; auto using calm_check_failure, calm_authenticated, calm_with_password.
  all: unfold same_closed; simpl; by case_match.
Qed.

Lemma going_cm d s : going (on_cm d) s.
Proof.
  unfold on_cm. destruct d; unfold mine, handle_read_job_init_result, handle_file_block_from_cm, handle_file_read_done,
      handle_file_read_error, handle_file_digest_from_cm, handle_all_files_result, handle_voice_call, subscribe_audio_of_camera,
      set_conn_audit_primary_auth, switch_permission, switch_keyboard, switch_clipboard, switch_audio, subscribe_audio, switch_privacy_mode;
    try (by goes; calms; auto using calm_logon, calm_close_voice_call).
Qed.

Lemma calm_logs now r : Forall (fun e => notice e = false) (ToCm <$> (on_timer now r).1).
Proof.
  unfold on_timer. case_match; simpl; [constructor|]. rewrite fmap_app. apply Forall_app.
  split; apply Forall_fmap, Forall_fmap, Forall_forall; done.
Qed.

Lemma going_loop ev s : going (loop_step ev) s.
Proof.
  unfold loop_step. destruct ev as [|d|r|r|conns|m r|l m n r|b|b|r r'|r r'|z]; try (by goes; calms); [apply going_cm|..].
  - unfold on_net. destruct r as [[[m|]|]|]; try (by goes; unfold touch_session_clock; calms).
    apply going_bind; [calms|intros s1 _]. apply going_bind; [unfold touch_session_clock; calms|intros s2 _].
    apply going_then; [|intros; by goes]. apply going_message. intros. apply calm_going, calm_login.
  - unfold on_file_timer. goes; calms.
  - unfold on_queue, handle_cursor_switch_display. goes; calms.
  - unfold on_second_timer, check_wake_lock. goes; calms.
    match goal with H : on_timer _ _ = (?l, _) |- _ => replace l with (on_timer e_now (c_remove_log (id (conn s')))).1 by (by rewrite H) end.
    by apply calm_logs.
  - unfold on_test_delay_timer. goes; calms.
Qed.

End Calm.

(** ** The server stays well formed *)

Definition srv_ok (g : Glob) : Prop := forall v, g_server g = Some v -> reg_ok v.
Definition steady (s s' : St) : Prop := c_id (conn s') = c_id (conn s) /\ (srv_ok (glob s) -> srv_ok (glob s')).
#[global] Instance steady_preorder : PreOrder steady.
Proof. split; [done|]. intros s1 s2 s3 [??] [??]. split; [congruence|auto]. Qed.
Abbreviation steadily := (obeys steady (fun _ => True)).

Lemma moves_steady t s s' : moves t s s' -> steady s s'.
Proof.
  intros [[] Hs]. split; [done|]. intros Hok v' Hv'. rewrite Hv' in Hs. destruct (g_server (glob s)) as [v|] eqn:E; [|done].
  by apply Hs, Hok.
Qed.
Lemma scoped_steadily t {A} (m : Act A) s : scoped t s m -> steadily s m.
Proof. intros [Hm _]. split; [by eapply moves_steady|by apply Forall_forall]. Qed.

Lemma steady_server s f : (forall v, reg_ok v -> reg_ok (f v)) -> steady s (s <| glob ::= fun g => g <| g_server ::= fmap f |> |>).
Proof.
  intros Hf. split; [done|]. intros Hok v. simpl. destruct (g_server (glob s)) eqn:E; simpl; [|done]. intros [= <-]. auto.
Qed.
Lemma steady_on_server f s : (forall v, reg_ok v -> reg_ok (f (conn s) v)) -> steadily s (on_server f).
Proof. intros Hf. unfold on_server, getc, modg. obey_step. apply obeys_modify. by apply steady_server. Qed.
Lemma steady_subscribe n f s : steadily s (subscribe_to n f).
Proof. apply steady_on_server. intros. by apply subscribe_reg_ok. Qed.

Ltac steady_leaf :=
  match goal with
  | |- steady _ _ => split; [reflexivity || (simpl; by repeat case_match)|unfold srv_ok; simpl; (by auto) || (by repeat case_match)]
  | |- True => exact I
  | |- Forall _ _ => by apply Forall_forall
  end.
Ltac steadies :=
  repeat first
    [ match goal with
      | |- obeys _ _ _ (on_server _) => fail 2
      | |- obeys _ _ _ (subscribe_to _ _) => apply steady_subscribe
      | |- obeys _ _ _ (_ ≫= _) =>
        first [calm_unfold | apply obeys_gets_bind; [exact _|]; cbn beta | apply obeys_seq; [exact _| |intros ? ? ?]]
      | |- obeys _ _ _ (for_each _ _) => apply obeys_for_each; [exact _|intros]
      end
    | calm_unfold | obey_step | steady_leaf ].

Section Steady.
Context `{env : Env, lenv : LoginEnv}.

Lemma steady_close lock s : steadily s (on_close lock).
Proof. eapply (scoped_steadily Remote), scoped_on_close. Qed.
Lemma steady_reason r s : steadily s (send_close_reason_no_retry r).
Proof. eapply (scoped_steadily Remote), scoped_close_reason. Qed.
Lemma steady_remove_session s : steadily s remove_my_session.
Proof. eapply (scoped_steadily Remote), scoped_remove_my_session. Qed.

Lemma steady_start_session s : steadily s start_session.
Proof.
  unfold start_session, respond_remote, on_remote_authorized, update_codec_on_login, send_peer_info, read_dir,
    init_terminal_service, try_sub_camera_displays, try_sub_monitor_services, update_scoped_login_options.
  steadies; [eapply (scoped_steadily Remote), remote_options|apply steady_on_server; intros v Hv..].
  - by apply (exec_reg_ok (COpenCamera _ _)), (exec_reg_ok (CAddCamera _)).
  - by apply (exec_reg_ok (COpen _ _ _)), (exec_reg_ok (CAddPrimary _)).
Qed.
Lemma steady_logon s : steadily s send_logon_response_and_keep_alive.
Proof.
  unfold send_logon_response_and_keep_alive, prepare_terminal_login_for_authorization, connect_port_forward_if_needed, authorize,
    authed_conn_new, check_wake_lock, normalize_conn_audit_auth_fields, record_session_start, post_conn_audit, send_peer_info.
  steadies; auto using steady_start_session.
Qed.
Lemma steady_check_failure s : steadily s check_failure_now.
Proof. unfold check_failure_now, post_check_effect, post_alarm_audit. steadies. Qed.
Lemma steady_temp b s : steadily s (check_update_temporary_password b).
Proof. unfold check_update_temporary_password. steadies. Qed.
Lemma steady_authenticated lr err s : steadily s (login_authenticated lr err).
Proof. unfold login_authenticated, wait_desktop_cm_ready, try_start_cm. steadies. apply steady_logon. Qed.
Lemma steady_with_password lr err s : steadily s (login_with_password lr err).
Proof.
  unfold login_with_password, validate_password, update_failure_now, try_start_cm, set_conn_audit_primary_auth.
  steadies; auto using steady_check_failure, steady_temp, steady_authenticated.
  split; [done|]. unfold srv_ok. simpl. by rewrite keep_session.
Qed.
Lemma steady_login lr s : steadily s (on_login_request lr).
Proof.
  unfold on_login_request, login_permitted, handle_login_request_without_validation, reset_session_scope_for_login, set_session_scope,
    deny_login, check_privacy_mode_on, try_start_cm_ipc, login_desktop, try_start_desktop, authenticate, is_recent_session,
    set_conn_audit_primary_auth, set_conn_audit_two_factor, update_failure_now, try_start_cm.
  steadies; auto using steady_check_failure, steady_authenticated, steady_with_password.
Qed.

Lemma steady_cm d s : steadily s (on_cm d).
Proof.
  unfold on_cm. destruct d; unfold mine, handle_read_job_init_result, handle_file_block_from_cm, handle_file_read_done,
      handle_file_read_error, handle_file_digest_from_cm, handle_all_files_result, handle_voice_call, close_voice_call, subscribe_audio_of_camera,
      set_conn_audit_primary_auth, switch_permission, switch_keyboard, switch_clipboard, switch_audio, subscribe_audio, switch_privacy_mode;
    steadies; auto using steady_logon, steady_close, steady_reason.
Qed.

Lemma steady_message m s : main_inv (conn s) -> steadily s (on_message m).
Proof.
  intros [[Hf _]|Ho].
  - pose proof (f_authorized _ Hf) as Ha. unfold on_message, on_message_with, on_other_message, on_test_delay.
    destruct m as [| | | | | | | | | | | | |misc| | | | | | | | | | | | | | |]; try (destruct misc as [[]|]);
      try (unfold getc; obey_step; unfold id; rewrite Ha);
      first [apply steady_login | by steadies; auto using steady_close, steady_remove_session | idtac];
      steadies; unfold id in *; congruence.
  - destruct Ho. eapply scoped_steadily. by apply message_scoped.
Qed.

Lemma steady_loop ev s : main_inv (conn s) -> steadily s (loop_step ev).
Proof.
  intros Hi. unfold loop_step. destruct ev as [|d|r|r|conns|m r|l m n r|b|b|r r'|r r'|z];
    try (by steadies; auto using steady_close, steady_reason); [apply steady_cm|..].
  - unfold on_net. destruct r as [[[m|]|]|]; try (by unfold touch_session_clock; steadies; auto using steady_close).
    apply obeys_bind; [exact _|steadies|intros _]. apply obeys_bind; [exact _|unfold touch_session_clock; steadies|intros _].
    apply obeys_bind; [exact _| |intros _; destruct (res _ _); steadies]. apply steady_message.
    assert (Hal : forall t, along t s (st touch_session_clock (st (modc (fun c => c <| c_last_recv := e_now |>)) s))).
    { intros t. etransitivity; [|refine (proj1 (_ : staying t _ _)); unfold touch_session_clock; stay]. by split. }
    destruct Hi as [[Hf Hr]|Ho]; [left|right; exact (opened_typed _ _ (Hal _) Ho)].
    split; [exact (fresh_typed Terminal _ _ ltac:(done) (Hal _) Hf)|exact (requested_typed Terminal _ _ (Hal _) Hr)].
  - unfold on_file_timer. steadies. apply steady_close.
  - unfold on_queue, handle_cursor_switch_display. steadies; auto using steady_close, steady_reason.
    apply steady_on_server. intros v Hv. by apply (exec_reg_ok (COpt _ _ _)).
  - unfold on_second_timer, check_wake_lock. steadies; auto using steady_close, steady_reason.
  - unfold on_test_delay_timer. steadies. apply steady_close.
Qed.

End Steady.

(** ** Leaving *)

(** Nothing of the connection is left in the server and in the registry of
    authorized connections. *)
Definition gone (s : St) : Prop :=
  (forall v, g_server (glob s) = Some v ->
     connections v !! c_id (conn s) = None /\ forall n, follows (c_id (conn s)) n v = false)
  /\ (is_Some (c_authed (conn s)) -> forall a, a ∈ g_authed (glob s) -> ac_conn_id a <> c_id (conn s)).

Section Leaving.
Context `{env : Env, lenv : LoginEnv}.

Lemma calm_leave s : calm s leave_loop.
Proof. unfold leave_loop, turn_off_privacy_to_msg. calms. Qed.
Lemma stay_leave t s : staying t s leave_loop.
Proof. unfold leave_loop, turn_off_privacy_to_msg. stay. Qed.
Lemma steady_leave s : steadily s leave_loop.
Proof. unfold leave_loop, turn_off_privacy_to_msg. steadies. Qed.
Lemma leave_pf s : res leave_loop s = c_pf_socket (conn s) /\ c_pf_socket (conn (st leave_loop s)) = false.
Proof.
  change (wp leave_loop (fun b s' => b = c_pf_socket (conn s) /\ c_pf_socket (conn s') = false) s).
  unfold leave_loop. apply wp_bind, wp_getc. unfold id. apply wp_bind. eapply (wp_frame (along Terminal) (fun _ => True)).
  { unfold turn_off_privacy_to_msg. stay. }
  intros _ s1 _. apply wp_bind, wp_emit, wp_bind. eapply (wp_frame (along Terminal) (fun _ => True)); [stay|].
  intros _ s2 _. by apply wp_bind, wp_modc, wp_ret.
Qed.

Lemma calm_drop s : calm s conn_drop.
Proof. unfold conn_drop, release_pressed_modifiers, authed_conn_drop, check_wake_lock. calms. Qed.
Lemma stay_drop t s : staying t s conn_drop.
Proof. unfold conn_drop, release_pressed_modifiers, authed_conn_drop, check_wake_lock. stay. Qed.

Lemma drop_gone s : (forall v, g_server (glob s) = Some v ->
     connections v !! c_id (conn s) = None /\ forall n, follows (c_id (conn s)) n v = false) -> gone (st conn_drop s).
Proof.
  intros Hs. change (wp conn_drop (fun _ => gone) s). unfold conn_drop. apply wp_bind. unfold release_pressed_modifiers.
  apply wp_bind, wp_getc, wp_bind, wp_emits, wp_modc, wp_bind, wp_getc, wp_bind. eapply (wp_mono _ (fun _ => eq _)).
  { apply wp_when; intros _; [by apply wp_emit|done]. }
  intros _ ? <-. apply wp_bind. eapply (wp_mono _ (fun _ => gone)).
  2: { intros _ s' Hg. apply wp_bind, wp_getc, wp_bind, wp_getc. apply wp_when; intros _; [by apply wp_emit|done]. }
  unfold authed_conn_drop, check_wake_lock. apply wp_bind, wp_getc. simpl. destruct (c_authed (conn s)) as [t|] eqn:E.
  - apply wp_bind. apply wp_when; intros _; [apply wp_bind, wp_emit, wp_emit|];
      (apply wp_bind, wp_modg, wp_bind, wp_getg, wp_bind; apply wp_when; intros _; [apply wp_emit|]);
      (apply wp_bind, wp_bind, wp_getg, wp_emit, wp_emit); (split; [exact Hs|]); intros _ a; simpl; by intros [? _]%list_elem_of_filter.
  - apply wp_ret. split; [exact Hs|]. simpl. rewrite ?E. by intros [? [=]].
Qed.

Lemma unregister_spec s : srv_ok (glob s) ->
  wp unregister (fun _ s' => conn s' = conn s /\ forall v, g_server (glob s') = Some v ->
     connections v !! c_id (conn s') = None /\ forall n, follows (c_id (conn s')) n v = false) s.
Proof.
  intros Hok. unfold unregister. apply wp_bind. eapply (wp_mono _ (fun _ => eq s)).
  { unfold post_conn_audit. apply wp_bind, wp_getc. apply wp_when; intros _; [by apply wp_emit|done]. }
  intros _ ? <-. apply wp_bind, wp_getg. apply wp_when; rewrite ?bool_decide_eq_true, ?bool_decide_eq_false; intros Hs.
  - unfold on_server. apply wp_bind, wp_bind, wp_getc, wp_modg, wp_emit. split; [done|]. intros v. simpl. unfold id.
    destruct (g_server (glob s)) as [v0|] eqn:E; [|done]. intros [= <-]. split; [apply lookup_delete_eq|].
    intros n. change (follows (c_id (conn s)) n (remove_connection (c_id (conn s)) v0) = false).
    rewrite follows_remove by (by apply Hok). by rewrite bool_decide_eq_true_2.
  - split; [done|]. intros v E. rewrite E in Hs. by destruct Hs.
Qed.

Lemma calm_unregister s : calm s unregister.
Proof. unfold unregister, post_conn_audit. calms. Qed.
Lemma stay_unregister t s : staying t s unregister.
Proof. unfold unregister, post_conn_audit. stay. Qed.

(** [finish_connection]: the rest of the announcement, and nothing is left. *)
Lemma finish_spec s : srv_ok (glob s) ->
  gone (st finish_connection s) /\ c_closed (conn (st finish_connection s)) = true
  /\ (notices (fx finish_connection s) + Nat.b2n (c_closed (conn s)) = 1)%nat.
Proof.
  intros Hok. unfold finish_connection. rewrite !st_bind, !fx_bind, !notices_app.
  destruct (unregister_spec s Hok) as [Hc Hg]. set (s1 := st unregister s) in *.
  destruct (calm_drop (st (on_close true) s1)) as [Hd Hdf]. destruct (calm_unregister s) as [_ Huf].
  rewrite (notices_none _ Huf), (notices_none _ Hdf), Hd, <- Hc. destruct (c_closed (conn s1)) eqn:E.
  - assert (Hst : st (on_close true) s1 = s1) by (unfold st; by rewrite close_again). rewrite Hst.
    unfold fx. rewrite close_again by done. split_and!; [by apply drop_gone|done..].
  - unfold fx. rewrite close_run by done. split_and!; [apply drop_gone|..].
    + unfold st. rewrite close_run by done. exact Hg.
    + unfold st. by rewrite close_run.
    + simpl. by repeat case_match.
Qed.

Lemma stay_finish t s : staying t s finish_connection.
Proof. unfold finish_connection. stay; auto using stay_unregister, stay_close, stay_drop. Qed.

(** ** One step *)

Definition phase_inv (p : Phase) (s : St) : Prop :=
  match p with
  | Main => main_inv (conn s) /\ c_closed (conn s) = false /\ srv_ok (glob s)
  | Forwarding => opened (conn s) /\ requested (c_lr (conn s)) = PortForward /\ c_closed (conn s) = false /\ srv_ok (glob s)
  | Ended => c_closed (conn s) = true /\ gone s
  end.

Definition has_ended (p : Phase) : bool := bool_decide (p = Ended).

(** From the end of the loop on. *)
Definition after_loop : Act Phase :=
  forwarding ← leave_loop;
  if (forwarding : bool) then mret Forwarding else _ ← finish_connection; mret Ended.

Lemma stay_after t s : staying t s after_loop.
Proof. unfold after_loop. stay; [apply stay_leave|apply stay_finish]. Qed.

Lemma after_spec s : srv_ok (glob s) ->
  (c_pf_socket (conn s) = true -> opened (conn s) /\ c_closed (conn s) = false) ->
  phase_inv (res after_loop s) (st after_loop s)
  /\ (notices (fx after_loop s) + Nat.b2n (c_closed (conn s)) = Nat.b2n (has_ended (res after_loop s)))%nat
  /\ (c_pf_socket (conn s) = false -> res after_loop s = Ended).
Proof.
  intros Hok Hpf. unfold after_loop. rewrite res_bind, st_bind, fx_bind, notices_app.
  destruct (leave_pf s) as [Hb _]. rewrite Hb. destruct (calm_leave s) as [Hcl Hfl]. destruct (steady_leave s) as [[_ Hst] _].
  rewrite (notices_none _ Hfl). unfold same_closed in Hcl. destruct (c_pf_socket (conn s)) eqn:E; simpl.
  - destruct (Hpf eq_refl) as [Ho Hc]. rewrite Hc in *. pose proof (proj1 (stay_leave (requested (c_lr (conn s))) s)) as Hal.
    split; [|done]. split_and!; [exact (opened_typed _ _ Hal Ho)| |exact Hcl|exact (Hst Hok)].
    exact (eq_trans (f_equal requested (y_lr _ _ _ Hal)) (o_pf_socket _ Ho E)).
  - rewrite res_bind, st_bind, fx_bind, app_nil_r. destruct (finish_spec (st leave_loop s) (Hst Hok)) as (Hg & Hc & Hn).
    rewrite Hcl in Hn. by split_and!.
Qed.

(** Forwarding changes nothing of the connection. *)
Lemma forward_quiet ev s : st (forward_step ev) s = s /\ notices (fx (forward_step ev) s) = 0%nat.
Proof.
  unfold forward_step. destruct ev as [|[]| | |conns| | | | |[[]|]|[[]|]|]; try done; unfold getc; rewrite ?st_bind, ?fx_bind; done.
Qed.

(** The end of the forwarding loop. *)
Definition after_forward : Act Phase :=
  _ ← on_close false; _ ← remove_my_session; _ ← finish_connection; mret Ended.

Lemma after_forward_spec s : srv_ok (glob s) -> c_closed (conn s) = false ->
  phase_inv Ended (st after_forward s) /\ notices (fx after_forward s) = 1%nat /\ res after_forward s = Ended.
Proof.
  intros Hok Hc. unfold after_forward. rewrite !res_bind, !st_bind, !fx_bind, !notices_app.
  set (s1 := st (on_close false) s).
  destruct (proj1 (steady_close false s)) as [_ Hst1]. destruct (proj1 (steady_remove_session s1)) as [_ Hst2].
  destruct (calm_remove_session s1) as [Hcl Hf]. destruct (finish_spec (st remove_my_session s1) (Hst2 (Hst1 Hok))) as (Hg & Hc2 & Hn).
  assert (Hc1 : c_closed (conn s1) = true) by (unfold s1, st; by rewrite close_run).
  destruct (told_close false s) as [Hn1 _]. rewrite (notices_none _ Hf). unfold same_closed in Hcl. fold s1 in Hn1.
  rewrite Hcl, Hc1 in Hn. rewrite Hc, Hc1 in Hn1. split_and!; [by split| |done].
  change (notices (fx (mret Ended) _)) with 0%nat. simpl in *. lia.
Qed.

Lemma step_spec ev p s : phase_inv p s ->
  phase_inv (res (step ev p) s) (st (step ev p) s)
  /\ (notices (fx (step ev p) s) + Nat.b2n (has_ended p) = Nat.b2n (has_ended (res (step ev p) s)))%nat.
Proof.
  destruct p; simpl.
  - intros (Hi & Hc & Hok). rewrite res_bind, st_bind, fx_bind, notices_app.
    destruct (going_loop ev s) as [[Hn Hp] Hgo]. destruct (steady_loop ev s Hi) as [[_ Hst] _]. pose proof (loop_turned ev s Hi) as Ht.
    unfold wp in Ht. rewrite Hc in *. destruct (res (loop_step ev) s) eqn:E.
    + destruct (Hgo eq_refl) as [Hcl Hf]. rewrite (notices_none _ Hf). split; [|done]. split_and!; [by apply Ht| |exact (Hst Hok)].
      exact (eq_trans Hcl Hc).
    + fold after_loop. destruct (after_spec (st (loop_step ev) s) (Hst Hok)) as (Hi' & Hn' & _).
      { intros Hpf. destruct (c_authorized (conn (st (loop_step ev) s))) eqn:Ha; [|by destruct (t_shut _ _ _ _ Ht Ha); congruence].
        split; [by apply (t_open _ _ _ _ Ht Ha)|]. apply not_true_is_false. intros Hcl. destruct (Hp Hcl); congruence. }
      split; [exact Hi'|]. unfold after_loop, has_ended in *. simpl in *. lia.
  - intros (Ho & Hr & Hc & Hok). rewrite res_bind, st_bind, fx_bind, notices_app.
    destruct (forward_quiet ev s) as [Hs Hf]. rewrite Hs, Hf. destruct (res (forward_step ev) s) eqn:E; [by split; [split_and!|]|].
    fold after_forward. destruct (after_forward_spec s Hok Hc) as (Hi & Hn & Hr'). rewrite Hr', Hn. by split.
  - intros Hi. split; [exact Hi|done].
Qed.

Lemma stay_step t ev p s : p <> Main -> staying t s (step ev p).
Proof.
  intros Hp. destruct p; [done| |simpl; stay]. unfold step, forward_step, remove_my_session.
  stay; auto using stay_close, stay_finish.
Qed.

End Leaving.

(** ** Runs *)

Lemma run_spec ts : forall p s, phase_inv p s ->
  phase_inv (res (run ts p) s) (st (run ts p) s)
  /\ (notices (fx (run ts p) s) + Nat.b2n (has_ended p) = Nat.b2n (has_ended (res (run ts p) s)))%nat.
Proof.
  induction ts as [|t ts IH]; intros p s Hi; [done|]. cbn [run]. rewrite res_bind, st_bind, fx_bind, notices_app.
  destruct (@step_spec (t_env t) (t_lenv t) (t_ev t) p s Hi) as [Hi' Hn]. destruct (IH _ _ Hi') as [Hi2 Hn2]. split; [done|lia].
Qed.

(** ** The start *)

Section Start.
Context `{env : Env, lenv : LoginEnv}.

Definition accepted (id : Z) (cp : option Z) (salt challenge : str) (g : Glob) : St := MkSt (conn_new id cp salt challenge) g.

Lemma accepted_waits id cp salt challenge g :
  let c := conn (accepted id cp salt challenge g) in
  fresh c /\ as_requested c /\ c_permit c = None /\ c_closed c = false.
Proof. split_and!; try done. by split; [split; [intros [? [=]]|]|..]. Qed.

Lemma start_spec s ip a f : fresh (conn s) -> as_requested (conn s) -> c_closed (conn s) = false -> srv_ok (glob s) ->
  let p := res (start ip a f) s in let s' := st (start ip a f) s in
  (p = Main /\ phase_inv Main s' /\ fresh (conn s') \/ p = Ended)
  /\ c_authorized (conn s') = false /\ c_permit (conn s') = c_permit (conn s) /\ notices (fx (start ip a f) s) = 0%nat.
Proof.
  intros Hf Hr Hc Hok. cbv zeta.
  assert (Hopen : staying Terminal s (on_open ip a f) /\ calm s (on_open ip a f) /\ steadily s (on_open ip a f)).
  { unfold on_open, check_whitelist, post_alarm_audit, post_conn_audit. split_and!; [unfold send_login_error; stay|calms|steadies]. }
  destruct Hopen as ([Hy _] & [Hcl Hfx] & [[_ Hst] _]). unfold start. rewrite res_bind, st_bind, fx_bind, notices_app, (notices_none _ Hfx).
  set (s1 := st (on_open ip a f) s) in *. destruct (res (on_open ip a f) s); cbn [negb].
  - set (m := (_ ← announce_permissions; mret Main) : Act Phase).
    assert (Hm : staying Terminal s1 m /\ calm s1 m /\ steadily s1 m).
    { unfold m, announce_permissions. split_and!; [unfold send_permission; stay|calms|steadies]. }
    destruct Hm as ([Hy2 _] & [Hcl2 Hfx2] & [[_ Hst2] _]). assert (Hal : along Terminal s (st m s1)) by (by etransitivity).
    pose proof (fresh_typed Terminal _ _ ltac:(done) Hal Hf) as Hf'. rewrite (notices_none _ Hfx2).
    assert (Hi : phase_inv Main (st m s1)).
    { split_and!; [left; split; [done|exact (requested_typed _ _ _ Hal Hr)]| |by apply Hst2, Hst].
      unfold same_closed in *. congruence. }
    split_and!; [left; split_and!; [unfold m; by rewrite res_bind|done..]|by destruct Hf'|apply Hal|done].
  - set (m := (_ ← modc _; _) : Act Phase). assert (Hal : along Terminal s (st m s1)).
    { etransitivity; [exact Hy|]. refine (proj1 (_ : staying Terminal s1 m)). unfold m. stay. apply stay_drop. }
    split_and!; [right; unfold m; by rewrite !res_bind|by rewrite (y_authorized _ _ _ Hal); destruct Hf|apply Hal|]. unfold m. rewrite !fx_bind, !notices_app.
    rewrite (notices_none (fx conn_drop _)); [done|apply calm_drop].
Qed.

End Start.
