(* ===== verification/ConnTrust.v ===== *)
(** * Trust in the life of a host connection

    What a peer causes before it is authorized, what authorizes it, what it may do
    then, and how every life ends: the claims about whole lives ([ConnLoop.life]). *)
From stdpp Require Import base gmap list strings.
From Stdlib Require Import ZArith Lia.
From S2P Require Import Prelude RustStr Effects Message SessionScope Service ServerReg LoginFailure ConnState Connection ConnScope ConnLogin ConnLoop ConnSafety.
From S2P Require Import ConnLife.

#[local] Open Scope Z_scope.

(** ** Before authorization *)

(** What a peer can cause before it is authorized: answers, notices to the
    connection manager, alarms, the desktop session it may log in to, the
    connection it asks to be forwarded to. *)
Definition preauth (e : Effect) : Prop :=
  match e with
  | Send _ | PostAudit (Alarm _) | ToCm (Cm_Login _ | Cm_Close | Cm_Disconnected) | ResetVoiceInput | LockScreen
  | Qos (Q_network_delay _) | ConnectTcp _ | Pause _ | StartCmIpc | StartDesktop | WaitDesktopReady
  | UpdateTemporaryPassword => True
  | _ => False
  end.

Definition anything (s s' : St) : Prop := True.
#[global] Instance anything_preorder : PreOrder anything.
Proof. split; done. Qed.
Abbreviation harmless := (obeys anything preauth).

(** The handler does only that, unless it authorizes. *)
Definition pre {A} (m : Act A) (s : St) : Prop := c_authorized (conn (st m s)) = true \/ Forall preauth (fx m s).

Lemma pre_harmless {A} (m : Act A) s : harmless s m -> pre m s.
Proof. intros [_ H]. by right. Qed.
Lemma pre_bind {A B} (m : Act A) (k : A -> Act B) s : harmless s m -> (forall s' a, pre (k a) s') -> pre (m ≫= k) s.
Proof.
  intros [_ Hm] Hk. unfold pre. rewrite st_bind, fx_bind. destruct (Hk (st m s) (res m s)) as [H|H]; [by left|right]. by apply Forall_app.
Qed.
Lemma pre_gets {A B} (f : St -> A) (k : A -> Act B) s : pre (k (f s)) s -> pre (gets f ≫= k) s.
Proof. unfold pre, st, fx. by rewrite run_gets_bind. Qed.
Lemma pre_then {A B} (m : Act A) (k : A -> Act B) s : pre m s -> (forall s' a, harmless s' (k a)) ->
  (forall s' a, staying Remote s' (k a)) -> pre (m ≫= k) s.
Proof.
  intros Hm Hk Hs. unfold pre. rewrite st_bind, fx_bind. destruct Hm as [H|H]; [left|right].
  - by rewrite (y_authorized _ _ _ (proj1 (Hs (st m s) (res m s)))).
  - apply Forall_app. split; [done|apply Hk].
Qed.

Ltac pre_leaf :=
  match goal with
  | |- anything _ _ => exact I
  | |- preauth _ => simpl; first [exact I | by repeat case_match]
  end.
Ltac harmlesses :=
  repeat first
    [ calm_unfold
    | match goal with
      | |- obeys _ _ _ (gets _ ≫= _) => apply obeys_gets_bind; [exact _|]; cbn beta
      | |- obeys _ _ _ (_ ≫= _) => apply obeys_seq; [exact _| |intros ? ? ?]
      | |- obeys _ _ _ (for_each _ _) => apply obeys_for_each; [exact _|intros]
      end
    | obey_step | pre_leaf ].
Ltac pres :=
  repeat first
    [ match goal with
      | |- pre (mret _) _ => apply pre_harmless, obeys_ret; exact _
      | |- pre (getc _ ≫= _) _ => unfold getc
      | |- pre (getg _ ≫= _) _ => unfold getg
      | |- pre (gets _ ≫= _) _ => apply pre_gets; cbn beta
      | |- pre (authorize ≫= _) _ => fail 2
      | |- pre (send_logon_response_and_keep_alive ≫= _) _ => fail 2
      | |- pre (_ ≫= _) _ => apply pre_bind; [|intros]
      | |- pre (if ?b then _ else _) _ => destruct b eqn:?
      | |- pre (match ?x with _ => _ end) _ => destruct x eqn:?
      end ].

Section Before.
Context `{env : Env, lenv : LoginEnv}.

Lemma harmless_close lock s : harmless s (on_close lock).
Proof. unfold on_close. harmlesses. Qed.

Lemma pre_authorize {A} (k : unit -> Act A) s :
  (forall s' a, is_Some (c_authed (conn s')) -> exists t, staying t s' (k a)) -> pre (authorize ≫= k) s.
Proof.
  intros Hk. left. rewrite st_bind.
  assert (Ha : c_authorized (conn (st authorize s)) = true /\ is_Some (c_authed (conn (st authorize s)))).
  { change (wp authorize (fun _ s' => c_authorized (conn s') = true /\ is_Some (c_authed (conn s'))) s).
    unfold authorize. apply wp_bind, wp_modc, wp_bind, wp_getc, wp_bind. eapply wp_mono; [apply authed_new_spec|].
    cbn beta. intros _ s1 Hc. apply wp_bind, wp_getg, wp_bind, wp_modc. eapply (wp_frame (along Remote) (fun _ => True)).
    - unfold normalize_conn_audit_auth_fields, record_session_start, post_conn_audit. stay. split; simpl; by case_match.
    - intros _ s2 Hal. rewrite (y_authorized _ _ _ Hal), (y_authed _ _ _ Hal). simpl. rewrite Hc. simpl. by eauto. }
  destruct Ha as [Ha Hs]. destruct (Hk _ (res authorize s) Hs) as [t [Hal _]]. by rewrite (y_authorized _ _ _ Hal).
Qed.

Lemma pre_logon s : pre send_logon_response_and_keep_alive s.
Proof.
  unfold send_logon_response_and_keep_alive, prepare_terminal_login_for_authorization, connect_port_forward_if_needed. pres; try harmlesses.
  apply pre_authorize. intros s2 _ [t Ht]. exists t. stay; [unfold send_peer_info; stay..|].
  apply stay_start_session. done.
Qed.

Lemma harmless_start_cm p n b s : harmless s (try_start_cm p n b).
Proof. unfold try_start_cm. harmlesses. Qed.

Lemma pre_authenticated lr err s : pre (login_authenticated lr err) s.
Proof.
  unfold login_authenticated, wait_desktop_cm_ready. pres; try harmlesses. apply pre_then; [apply pre_logon|..]; intros s1 keep.
  - harmlesses. apply harmless_start_cm.
  - unfold try_start_cm. stay.
Qed.

Lemma harmless_check_failure s : harmless s check_failure_now.
Proof. unfold check_failure_now, post_check_effect, post_alarm_audit. harmlesses. Qed.
Lemma harmless_temp b s : harmless s (check_update_temporary_password b).
Proof. unfold check_update_temporary_password. harmlesses. Qed.

Lemma pre_with_password lr err s : pre (login_with_password lr err) s.
Proof.
  unfold login_with_password, validate_password, update_failure_now, set_conn_audit_primary_auth.
  pres; try apply pre_authenticated; harmlesses; auto using harmless_check_failure, harmless_temp, harmless_start_cm.
Qed.

Lemma pre_login lr s : pre (on_login_request lr) s.
Proof.
  unfold on_login_request, login_permitted, handle_login_request_without_validation, reset_session_scope_for_login, set_session_scope,
    deny_login, check_privacy_mode_on, try_start_cm_ipc, login_desktop, try_start_desktop, authenticate, is_recent_session,
    set_conn_audit_primary_auth, set_conn_audit_two_factor, update_failure_now.
  pres; try apply pre_authenticated; try apply pre_with_password; harmlesses; auto using harmless_check_failure, harmless_start_cm.
Qed.

Lemma pre_message m s : c_authorized (conn s) = false -> pre (on_message m) s.
Proof.
  intros Ha. unfold on_message, on_message_with, on_other_message, on_test_delay, remove_my_session.
  destruct m as [| | | | | | | | | | | | |misc| | | | | | | | | | | | | | |]; try (destruct misc as [[]|]);
    unfold getc; try (apply pre_gets; unfold id; rewrite Ha); try apply pre_login;
    try (by pres; harmlesses; auto using harmless_close; unfold id in *; congruence);
    try (apply pre_gets; unfold id; rewrite Ha); pres; harmlesses.
Qed.

End Before.

(** ** Authorization in a run *)

Definition past (ts : list Tick) (p : str) : Prop :=
  exists t lr, t ∈ ts /\ login_event (t_ev t) lr /\ @l_accept (t_lenv t) lr = Ok p.

Definition earned_at (t : Tick) (s : St) : Prop := @earned (t_env t) (t_lenv t) (t_ev t) s.

(** What one step does to the authorization. *)
Record advanced (t : Tick) (p : Phase) (s s' : St) : Prop := {
  a_open : c_authorized (conn s') = true -> opened (conn s');
  a_kept : c_authorized (conn s) = true -> c_authorized (conn s') = true /\ c_lr (conn s') = c_lr (conn s);
  a_earned : c_authorized (conn s) = false -> c_authorized (conn s') = true -> p = Main /\ earned_at t s;
  a_permit : c_permit (conn s') = c_permit (conn s) \/ exists q, past [t] q /\ c_permit (conn s') = Some q }.

Lemma advanced_along t p s s' : (c_authorized (conn s) = true -> opened (conn s)) -> (forall k, along k s s') -> advanced t p s s'.
Proof.
  intros Ho Hal. pose proof (y_authorized _ _ _ (Hal Terminal)) as Ea. pose proof (y_lr _ _ _ (Hal Terminal)) as El.
  split; [|by rewrite Ea, El|congruence|left; exact (y_permit _ _ _ (Hal Terminal))]. rewrite Ea. intros Ha. exact (opened_typed _ _ (Hal _) (Ho Ha)).
Qed.

Lemma after_loop_along t s b : forall k, along k s (if b : bool then s else st (@after_loop (t_env t) (t_lenv t)) s).
Proof. intros k. destruct b; [done|]. apply (stay_after k). Qed.

Lemma step_main_state t s :
  st (@step (t_env t) (t_lenv t) (t_ev t) Main) s =
  let m := @loop_step (t_env t) (t_lenv t) (t_ev t) in
  if res m s then st m s else st (@after_loop (t_env t) (t_lenv t)) (st m s).
Proof. simpl. rewrite st_bind. by destruct (res _ s). Qed.

Lemma step_advanced t p s : phase_inv p s -> (c_authorized (conn s) = true -> opened (conn s)) ->
  advanced t p s (st (@step (t_env t) (t_lenv t) (t_ev t) p) s).
Proof.
  intros Hi Ho. destruct p; [|apply advanced_along; [done|]; intros k; by apply (stay_step k)..].
  rewrite step_main_state. cbv zeta. set (m := loop_step _). destruct Hi as (Hi & _ & _).
  pose proof (@loop_turned (t_env t) (t_lenv t) (t_ev t) s Hi) as Ht. unfold wp in Ht. fold m in Ht.
  pose proof (after_loop_along t (st m s) (res m s)) as Hal. set (s' := if res m s then _ else _) in *. clearbody s'.
  pose proof (y_authorized _ _ _ (Hal Terminal)) as Ea. pose proof (y_lr _ _ _ (Hal Terminal)) as El.
  pose proof (y_permit _ _ _ (Hal Terminal)) as Ep. destruct Ht as [_ Hto Htk _ Htp]. split; rewrite ?Ea, ?El, ?Ep; [|done|..].
  - intros Ha. exact (opened_typed _ _ (Hal _) (proj1 (Hto Ha))).
  - intros Hn Ha. destruct (Hto Ha) as [_ [[Hop _]|[_ He]]]; [by destruct Hop; congruence|done].
  - destruct Htp as [?|(lr & q & ? & ? & ?)]; [by left|right]. exists q. split; [|done]. exists t, lr. by split; [left|].
Qed.

(** Runs: the last step that authorizes, and the permit. *)
Lemma run_advanced ts : forall p s, phase_inv p s -> (c_authorized (conn s) = true -> opened (conn s)) ->
  let s' := st (run ts p) s in
  (c_authorized (conn s') = true -> opened (conn s'))
  /\ (c_authorized (conn s) = true -> c_authorized (conn s') = true /\ c_lr (conn s') = c_lr (conn s))
  /\ (c_authorized (conn s) = false -> c_authorized (conn s') = true ->
      exists ts1 t ts2, ts = ts1 ++ t :: ts2 /\ res (run ts1 p) s = Main /\ c_authorized (conn (st (run ts1 p) s)) = false
        /\ earned_at t (st (run ts1 p) s) /\ c_authorized (conn (st (run (ts1 ++ [t]) p) s)) = true)
  /\ (forall q, c_permit (conn s') = Some q -> c_permit (conn s) = Some q \/ past ts q).
Proof.
  induction ts as [|t ts IH]; intros p s Hi Ho; cbv zeta.
  { split_and!; [done..| |by left]. intros H1 H2. simpl in H2. unfold st in H2. simpl in H2. congruence. }
  cbn [run]. rewrite st_bind. set (m := @step (t_env t) (t_lenv t) (t_ev t) p).
  pose proof (step_advanced t p s Hi Ho) as [Ao Ak Ae Ap]. fold m in Ao, Ak, Ae, Ap.
  destruct (@step_spec (t_env t) (t_lenv t) (t_ev t) p s Hi) as [Hi' _]. fold m in Hi'.
  destruct (IH (res m s) (st m s) Hi' Ao) as (Bo & Bk & Be & Bp). clear IH. split_and!; [done|..].
  - intros Ha. destruct (Ak Ha) as [Ha1 E1]. destruct (Bk Ha1) as [Ha2 E2]. split; congruence.
  - intros Hn Ha. destruct (c_authorized (conn (st m s))) eqn:E.
    + destruct (Ae Hn eq_refl) as [-> He]. exists [], t, ts. split_and!; try done. cbn [app run]. fold m. by rewrite st_bind.
    + destruct (Be eq_refl Ha) as (ts1 & t' & ts2 & -> & Hr & Hn1 & He & Ha1). exists (t :: ts1), t', ts2. cbn [app run]. fold m.
      rewrite res_bind, !st_bind. by split_and!.
  - intros q Hq. destruct (Bp q Hq) as [Hq1|(t' & lr & Hin & Hl)].
    + destruct Ap as [Ap|(q' & Hpast & Ap)]; [left; congruence|right]. rewrite Ap in Hq1. injection Hq1 as ->.
      destruct Hpast as (t' & lr & Hin & Hl). exists t', lr. split; [|done]. apply list_elem_of_singleton in Hin as ->. left.
    + right. exists t', lr. split; [by right|done].
Qed.

(** ** Lives *)

Lemma run_ended ts s : run ts Ended s = (Ended, s, []).
Proof. induction ts as [|t ts IH]; [done|]. cbn [run step]. unfold mbind, M_bind. simpl. by rewrite IH. Qed.

Lemma run_split ts1 ts2 : forall p s,
  res (run (ts1 ++ ts2) p) s = res (run ts2 (res (run ts1 p) s)) (st (run ts1 p) s)
  /\ st (run (ts1 ++ ts2) p) s = st (run ts2 (res (run ts1 p) s)) (st (run ts1 p) s).
Proof.
  induction ts1 as [|t ts1 IH]; intros p s; [done|]. simpl. rewrite !res_bind, !st_bind. apply IH.
Qed.

Section Lives.
Context (e : Env) (l : LoginEnv) (id : Z) (cp : option Z) (salt challenge ip : str) (a f : bool) (g : Glob).

Definition born : St := @accepted e l id cp salt challenge g.
(** The phase, the state and the effects of a life. *)
Definition phase_of (ts : list Tick) : Phase := res (life e l ip a f ts) born.
Definition state_of (ts : list Tick) : St := st (life e l ip a f ts) born.
Definition effects_of (ts : list Tick) : list Effect := fx (life e l ip a f ts) born.

Context (Hok : srv_ok g).

Lemma life_cases :
  let s := st (@start e l ip a f) born in
  ((res (@start e l ip a f) born = Main /\ phase_inv Main s /\ fresh (conn s)) \/ res (@start e l ip a f) born = Ended)
  /\ c_authorized (conn s) = false /\ c_permit (conn s) = None /\ notices (fx (@start e l ip a f) born) = 0%nat.
Proof. destruct (@accepted_waits e l id cp salt challenge g) as (Hf & Hr & Hp & Hc). cbv zeta in *. rewrite <- Hp. by apply start_spec. Qed.

(** A life that was let in, seen from the end of its start. *)
Lemma life_run ts :
  let s := st (@start e l ip a f) born in
  phase_of [] = Main ->
  phase_inv Main s /\ c_authorized (conn s) = false /\ c_permit (conn s) = None
  /\ phase_of ts = res (run ts Main) s /\ state_of ts = st (run ts Main) s
  /\ notices (effects_of ts) = notices (fx (run ts Main) s).
Proof.
  cbv zeta. intros Hm. unfold phase_of, state_of, effects_of, life in *. rewrite res_bind in Hm. simpl in Hm. unfold res at 1 in Hm. simpl in Hm.
  rewrite !res_bind, !st_bind, !fx_bind, !notices_app. destruct life_cases as (Hc & Ha & Hp & Hn). cbv zeta in *.
  rewrite Hm in *. destruct Hc as [(_ & Hi & _)|]; [|done]. by rewrite Hn.
Qed.

(** A life that was not let in does nothing more. *)
Lemma life_refused ts : phase_of [] <> Main -> c_authorized (conn (state_of ts)) = false /\ phase_of ts = Ended.
Proof.
  intros Hm. unfold phase_of, state_of, life in *. rewrite res_bind in Hm. rewrite res_bind, st_bind.
  destruct life_cases as (Hc & Ha & Hp & Hn). cbv zeta in *. destruct Hc as [(Hc & _)|Hc]; [by rewrite Hc in Hm|]. rewrite Hc.
  unfold st at 1, res at 1. by rewrite run_ended.
Qed.

End Lives.

(** ** Events that end a session *)

(** The loop ends and no forwarding follows. *)
Definition stops (m : Act bool) (s : St) : Prop := res m s = false /\ c_pf_socket (conn (st m s)) = false.

Section Stops.
Context `{env : Env, lenv : LoginEnv}.

Lemma stops_bind {A} (m : Act A) (k : A -> Act bool) s :
  c_closed (conn s) = false -> calm s m -> (forall s' x, c_closed (conn s') = false -> stops (k x) s') -> stops (m ≫= k) s.
Proof. intros Hc [Hcl _] Hk. unfold stops. rewrite res_bind, st_bind. apply Hk. unfold same_closed in Hcl. congruence. Qed.
Lemma stops_close lock s : c_closed (conn s) = false -> stops (_ ← on_close lock; mret false) s.
Proof. intros Hc. unfold stops. rewrite res_bind, st_bind. split; [done|]. unfold st at 2. by rewrite close_run. Qed.
Lemma stops_reason r lock s : c_closed (conn s) = false -> stops (_ ← send_close_reason_no_retry r; _ ← on_close lock; mret false) s.
Proof.
  intros Hc. apply stops_bind; [done| |intros; by apply stops_close]. unfold send_close_reason_no_retry, remove_my_session. calms.
Qed.
Lemma stops_peer_close s : c_closed (conn s) = false -> stops (_ ← on_close true; _ ← remove_my_session; mret false) s.
Proof.
  intros Hc. unfold stops. rewrite !res_bind, !st_bind. split; [done|]. unfold st at 3. by rewrite close_run.
Qed.
Lemma stops_skip (k : unit -> Act bool) s : stops (k tt) s -> stops (skip ≫= k) s.
Proof. unfold stops. by rewrite res_bind, st_bind. Qed.
Lemma stops_gets {A} (h : St -> A) (k : A -> Act bool) s : stops (k (h s)) s -> stops (gets h ≫= k) s.
Proof. unfold stops, res, st. by rewrite run_gets_bind. Qed.

(** The events that must end the session in state [s]. *)
Definition must_end (ev : Event) (s : St) : Prop :=
  match ev with
  | Ev_Revoked => is_Some (c_permit (conn s))
  | Ev_Cm Fc_Close => True
  | Ev_Cm (Fc_CmErr err) => err <> lit "expected"
  | Ev_WebConsole conns => c_id (conn s) ∈ conns
  | Ev_Net None | Ev_Net (Some (Err _)) => True
  | Ev_Net (Some (Ok (Some (Msg_Misc (Some (Misc_CloseReason _)))))) => True
  | Ev_Queue _ (Msg_Misc (Some Misc_StopService)) _ _ => True
  | Ev_SecondTimer false =>
    match c_auto_disconnect_timer (conn s) with
    | Some (instant, minute) => minute * 60 < Z.max 0 (e_now - instant) / 1000000000
    | None => False
    end
  | Ev_TestDelayTimer _ => SEC30 <= e_now - c_last_recv (conn s)
  | _ => False
  end.

(** The events that must end a session that forwards a port; revocation is not
    among them. *)
Definition must_end_forwarding (ev : Event) (s : St) : Prop :=
  match ev with
  | Ev_Cm Fc_Close | Ev_Cm (Fc_CmErr _) => True
  | Ev_WebConsole conns => c_id (conn s) ∈ conns
  | Ev_Forward None _ | Ev_Forward (Some (Err _)) _ | Ev_ForwardIn None _ | Ev_ForwardIn (Some (Err _)) _ => True
  | Ev_Forward (Some (Ok _)) (Err _) | Ev_ForwardIn (Some (Ok _)) (Err _) => True
  | Ev_ForwardTimer idle => H1 <= idle
  | _ => False
  end.

Lemma must_end_forwarding_stops ev s : must_end_forwarding ev s -> exists e, res (forward_step ev) s = Err e.
Proof.
  destruct ev as [|d|r|r|conns|m r|lat m n r|b|b|r r'|r r'|z]; try done; simpl.
  - destruct d; try done; simpl; eauto.
  - intros Hc. unfold getc, res. rewrite run_gets_bind, bool_decide_eq_true_2 by done. simpl. eauto.
  - destruct r as [[data|e]|], r' as [?|?]; try done; simpl; eauto.
  - destruct r as [[data|e]|], r' as [?|?]; try done; simpl; eauto.
  - intros Hz. rewrite (proj2 (Z.leb_le _ _) Hz). eauto.
Qed.

Lemma must_end_stops ev s : c_closed (conn s) = false -> must_end ev s -> stops (loop_step ev) s.
Proof.
  intros Hc Hev. destruct ev as [|d|r|r|conns|m r|lat m n r|b|b|r r'|r r'|z]; try done.
  - unfold loop_step, getc. apply stops_gets. rewrite bool_decide_eq_true_2 by done. by apply stops_reason.
  - destruct d; try done; unfold loop_step, on_cm.
    + apply stops_bind; [done|calms|]. intros. by apply stops_reason.
    + rewrite bool_decide_eq_false_2 by done. by apply stops_close.
  - unfold loop_step, on_net. destruct r as [[[m|]|]|]; try done; [|by apply stops_close..].
    destruct m; try done. destruct m as [[]|]; try done. unfold touch_session_clock.
    apply stops_bind; [done|calms|]. intros s1 _ Hc1. apply stops_bind; [done|calms|]. intros s2 _ Hc2.
    destruct (stops_peer_close s2 Hc2) as [Hr Hp].
    unfold stops, on_message, on_message_with. rewrite (res_bind (_ ≫= _)), (st_bind (_ ≫= _)), Hr. by split.
  - unfold loop_step, getc. apply stops_gets. rewrite bool_decide_eq_true_2 by done. by apply stops_reason.
  - destruct m; try done. destruct m as [[]|]; try done. by apply stops_reason.
  - destruct b; try done. unfold loop_step, on_second_timer. simpl in Hev. apply stops_skip, stops_gets. unfold Datatypes.id.
    destruct (c_auto_disconnect_timer (conn s)) as [[instant minute]|]; [|done].
    rewrite (proj2 (Z.ltb_lt _ _)) by done. by apply stops_reason.
  - unfold loop_step, on_test_delay_timer. apply stops_gets. unfold Datatypes.id. simpl in Hev.
    rewrite (proj2 (Z.leb_le _ _)) by lia. by apply stops_close.
Qed.

End Stops.

(** ** Claims *)

Module ConnTrustClaims.

Section Claims.
Context (e : Env) (l : LoginEnv) (id : Z) (cp : option Z) (salt challenge ip : str) (a f : bool) (g : Glob).
Context (Hok : srv_ok g).
#[local] Abbreviation phase := (phase_of e l id cp salt challenge ip a f g).
#[local] Abbreviation state := (state_of e l id cp salt challenge ip a f g).
#[local] Abbreviation effects := (effects_of e l id cp salt challenge ip a f g).

Lemma let_in ts : phase ts = Main \/ c_authorized (conn (state ts)) = true -> phase [] = Main.
Proof.
  intros H. destruct (decide (phase [] = Main)) as [|Hn]; [done|].
  destruct (life_refused e l id cp salt challenge ip a f g Hok ts Hn) as [Ha Hp]. destruct H; congruence.
Qed.

Lemma main_facts ts : phase ts = Main -> phase_inv Main (state ts) /\ (c_authorized (conn (state ts)) = true -> opened (conn (state ts))).
Proof.
  intros Hm. destruct (life_run e l id cp salt challenge ip a f g Hok ts) as (Hi & Ha & _ & Ep & Es & _); [by apply (let_in ts); left|].
  rewrite Es. split.
  - rewrite Ep in Hm. destruct (run_spec ts Main _ Hi) as [Hi' _]. by rewrite Hm in Hi'.
  - apply run_advanced; [done|congruence].
Qed.

(** C6: Authorization is earned.  A connection that is authorized at some point of its
    life became so at one event of its loop, while the account was logged in and
    after the account server's permit was accepted for a login request of this
    connection; and that event was the approval of the host's user, or a login that
    presented the password of a recent session of the same peer, or a valid password
    from an address that was not locked out. *)
Theorem authorization_is_earned (ts : list Tick) (Ha : c_authorized (conn (state ts)) = true) :
  exists ts1 t ts2 q, ts = ts1 ++ t :: ts2 /\ phase ts1 = Main /\ c_authorized (conn (state ts1)) = false
    /\ earned_at t (state ts1) /\ past (ts1 ++ [t]) q /\ c_permit (conn (state (ts1 ++ [t]))) = Some q.
Proof.
  pose proof (let_in ts (or_intror Ha)) as Hm.
  destruct (life_run e l id cp salt challenge ip a f g Hok ts Hm) as (Hi & Hn & Hp & _ & Es & _).
  set (s := st _ _) in *. assert (Hno : c_authorized (conn s) = true -> opened (conn s)) by congruence.
  rewrite Es in Ha. destruct (run_advanced ts Main s Hi Hno) as (_ & _ & He & _).
  destruct (He Hn Ha) as (ts1 & t & ts2 & -> & Hr & Hn1 & He1 & Ha1).
  destruct (run_advanced (ts1 ++ [t]) Main s Hi Hno) as (Hop & _ & _ & Hper). destruct (Hop Ha1) as [_ [q Hq] _ _ _].
  destruct (Hper q Hq) as [?|Hpast]; [congruence|]. exists ts1, t, ts2, q.
  destruct (life_run e l id cp salt challenge ip a f g Hok ts1 Hm) as (_ & _ & _ & -> & -> & _).
  destruct (life_run e l id cp salt challenge ip a f g Hok (ts1 ++ [t]) Hm) as (_ & _ & _ & _ & -> & _). by split_and!.
Qed.

(** C8: Once authorized, a session has the type its login asked for, and keeps the
    login, the type and the permit check behind it for the rest of its life. *)
Theorem session_type_is_final (ts ts' : list Tick) (Ha : c_authorized (conn (state ts)) = true) :
  let c := conn (state ts) in let c' := conn (state (ts ++ ts')) in
  c_authed c = Some (requested (c_lr c)) /\ flags (requested (c_lr c)) c
  /\ c_authorized c' = true /\ c_lr c' = c_lr c /\ c_authed c' = c_authed c /\ is_Some (c_permit c').
Proof.
  pose proof (let_in ts (or_intror Ha)) as Hm.
  destruct (life_run e l id cp salt challenge ip a f g Hok ts Hm) as (Hi & Hn & _ & _ & Es & _).
  destruct (life_run e l id cp salt challenge ip a f g Hok (ts ++ ts') Hm) as (_ & _ & _ & _ & Es' & _).
  set (s := st _ _) in *. cbv zeta. rewrite Es, Es' in *. rewrite (proj2 (run_split ts ts' Main s)).
  destruct (run_advanced ts Main s Hi) as (Ho & _); [congruence|]. destruct (run_spec ts Main s Hi) as [Hi' _].
  destruct (run_advanced ts' _ _ Hi' Ho) as (Ho' & Hk & _). destruct (Hk Ha) as [Ha' El]. destruct (Ho Ha), (Ho' Ha').
  rewrite El in *. split_and!; congruence.
Qed.

(** C7: Least privilege over a whole life.  At any point of the life of an authorized
    session, any message makes the host do only what the type of the session allows
    ([allowed]) and follow only services of that type; a message outside the scope
    of the type at most ends the session. *)
Theorem sessions_stay_in_scope (ts : list Tick) (env : Env) (lenv : LoginEnv) (m : Message)
    (Hm : phase ts = Main) (Ha : c_authorized (conn (state ts)) = true) :
  let s := state ts in let t := requested (c_lr (conn s)) in
  Forall (fun e => allowed t e = true) (fx (@on_message env lenv m) s)
  /\ moves t s (st (@on_message env lenv m) s)
  /\ (authorized_message_scope_violation t m <> None -> Forall ending (fx (@on_message env lenv m) s)).
Proof.
  cbv zeta. destruct (main_facts ts Hm) as [_ Ho]. destruct (Ho Ha) as [_ _ Ht Hf _].
  destruct (message_scoped on_login_request m _ _ Ha Ht Hf) as [[??]?]. done.
Qed.

(** C9: Before a connection is authorized, nothing the peer sends has an effect on
    the host beyond the login itself ([preauth]), unless it is what authorizes it. *)
Theorem nothing_before_authorization (ts : list Tick) (env : Env) (lenv : LoginEnv) (m : Message)
    (Ha : c_authorized (conn (state ts)) = false)
    (Hn : c_authorized (conn (st (@on_message env lenv m) (state ts))) = false) :
  Forall preauth (fx (@on_message env lenv m) (state ts)).
Proof. destruct (pre_message m (state ts) Ha) as [|]; [congruence|done]. Qed.

(** C11: The end of a connection that was let in is announced to the connection
    manager exactly once, however it comes about; and afterwards nothing of it is
    left in the server's connections, among the followers of any service, or among
    the authorized connections. *)
Theorem end_is_announced_once (ts : list Tick) (Hm : phase [] = Main) :
  notices (effects ts) = Nat.b2n (has_ended (phase ts)) /\ (phase ts = Ended -> gone (state ts)).
Proof.
  destruct (life_run e l id cp salt challenge ip a f g Hok ts Hm) as (Hi & _ & _ & -> & -> & ->).
  destruct (run_spec ts Main _ Hi) as [Hi' Hn]. simpl in Hn. rewrite Nat.add_0_r in Hn. split; [done|].
  intros E. rewrite E in Hi'. apply Hi'.
Qed.

(** What a connection must do on an event, by its phase *)
Definition ends_at_once (ts : list Tick) (t : Tick) : Prop :=
  (phase ts = Main -> @must_end (t_env t) (t_ev t) (state ts) -> phase (ts ++ [t]) = Ended)
  /\ (phase ts = Forwarding -> must_end_forwarding (t_ev t) (state ts) -> phase (ts ++ [t]) = Ended)
  /\ (phase ts = Forwarding -> t_ev t = Ev_Revoked -> phase (ts ++ [t]) = Forwarding)
  /\ (phase ts = Ended -> phase (ts ++ [t]) = Ended).

(** C10: In the connection's loop, revocation of the permit, the connection
    manager's user, the web console, the end of the stream, the peer's own close,
    the end of the service, inactivity and thirty seconds of silence each end the
    connection at once.  A connection that has become a port forwarding is ended at
    once by the connection manager, the web console, the end or an error of either
    stream and an idle hour; the revocation of its permit does not end it.  An
    ended connection stays ended. *)
Theorem ending_events_end (ts : list Tick) (t : Tick) (Hm : phase [] = Main) : ends_at_once ts t.
Proof.
  destruct (life_run e l id cp salt challenge ip a f g Hok ts Hm) as (Hi & _ & _ & Ep & Es & _).
  destruct (life_run e l id cp salt challenge ip a f g Hok (ts ++ [t]) Hm) as (_ & _ & _ & En & _).
  unfold ends_at_once. rewrite (proj1 (run_split ts [t] Main _)), <- Ep, <- Es in En.
  rewrite En. clear En. split_and!; intros Hp; rewrite Hp; cbn [run step]; [intros Hev| |intros ->; done|done].
  - destruct (main_facts ts Hp) as [(Hinv & Hc & Hsrv) _].
    destruct (must_end_stops (env := t_env t) (lenv := t_lenv t) (t_ev t) (state ts) Hc Hev) as [Hr Hs].
    rewrite res_bind, res_bind, Hr. change (res (mret ?x) _) with x.
    destruct (steady_loop (env := t_env t) (lenv := t_lenv t) (t_ev t) (state ts) Hinv) as [[_ Hst] _].
    destruct (after_spec (env := t_env t) (lenv := t_lenv t) _ (Hst Hsrv)) as (_ & _ & Hend); [congruence|exact (Hend Hs)].
  - intros Hev. destruct (must_end_forwarding_stops (t_ev t) (state ts) Hev) as [err Hr].
    rewrite res_bind, res_bind, Hr, !res_bind. reflexivity.
Qed.

(** A session that forwards a port does not notice the revocation of its permit:
    no number of revocations ends it. *)
Theorem forwarding_survives_revocation (ts ts' : list Tick) (Hf : phase ts = Forwarding)
    (Hr : Forall (fun t => t_ev t = Ev_Revoked) ts') :
  phase (ts ++ ts') = Forwarding /\ state (ts ++ ts') = state ts.
Proof.
  assert (Hm : phase [] = Main).
  { destruct (decide (phase [] = Main)) as [|Hn]; [done|].
    destruct (life_refused e l id cp salt challenge ip a f g Hok ts Hn); congruence. }
  destruct (life_run e l id cp salt challenge ip a f g Hok ts Hm) as (_ & _ & _ & Ep & Es & _).
  destruct (life_run e l id cp salt challenge ip a f g Hok (ts ++ ts') Hm) as (_ & _ & _ & -> & -> & _).
  destruct (run_split ts ts' Main (st (@start e l ip a f) (born e l id cp salt challenge g))) as [-> ->].
  rewrite <- Ep, <- Es, Hf. clear -Hr. generalize (state ts). induction Hr as [|t ts' Ht _ IH]; intros s; [done|].
  cbn [run]. rewrite res_bind, st_bind. simpl. rewrite Ht. apply IH.
Qed.

(** A key that is held down is never recorded as pressed, so the modifiers that a
    session leaves held are not released when it ends. *)
Theorem modifiers_never_recorded (ts : list Tick) (env : Env) (Hm : phase ts = Main) :
  c_pressed_modifiers (conn (state ts)) = [] /\ fx release_pressed_modifiers (state ts) = [].
Proof.
  destruct (main_facts ts Hm) as [([[Hf _]|Ho] & _) _].
  - pose proof (f_modifiers _ Hf) as E. split; [done|]. unfold fx, release_pressed_modifiers, getc. rewrite run_gets_bind, E. done.
  - destruct (o_flags _ Ho) as (_ & _ & E). split; [done|]. unfold fx, release_pressed_modifiers, getc. rewrite run_gets_bind, E. done.
Qed.

End Claims.

Section Messages.
Context `{env : Env}.

(** The messages that older clients broadcast to all their sessions are
    accepted by the limited sessions and do nothing there. *)
Theorem compat_messages_are_noops (login : LoginRequest -> Act bool) (m : Message) (s : St) (t : AuthConnType)
    (Hauth : c_authorized (conn s) = true) (Ht : c_authed (conn s) = Some t) (Hn : noop_compat t m = true) :
  on_message_with login m s = (true, s, []).
Proof.
  pose proof (noop_session t m s Hn Ht) as Hs.
  assert (Hv : authorized_message_scope_violation t m = None).
  { unfold authorized_message_scope_violation. rewrite Hn. by destruct (is_connection_housekeeping_message m). }
  unfold on_message_with, on_other_message.
  destruct m; try (by destruct t); try (destruct m as [[]|]; try (by destruct t));
    unfold getc; rewrite run_gets_bind; unfold id; rewrite Hauth, Ht; cbn [authorized_scope_violation]; rewrite Hv, run_gets_bind, Hauth;
    destruct (c_pf_socket (conn s)); done.
Qed.

(** C12: In an authorized session, input is injected, input is blocked, the clipboard
    is written, the machine is restarted, the resolution is changed and privacy
    mode is entered only while the connection has the permission for it. *)
Theorem effects_need_permission (login : LoginRequest -> Act bool) (m : Message) (s : St)
    (Hauth : c_authorized (conn s) = true) :
  Forall (permitted (conn s)) (fx (on_message_with login m) s)
  /\ perms (conn (st (on_message_with login m) s)) = perms (conn s).
Proof.
  enough (obeys same_perms (permitted (conn s)) s (on_message_with login m)) as [??] by done.
  assert (Hother : forall m', match m' with Msg_LoginRequest _ => False | _ => True end ->
    obeys same_perms (permitted (conn s)) s (on_other_message login m')).
  { intros m' Hm. unfold on_other_message. destruct m'; try done; unfold getc;
      first [by apply perm_test_delay | by apply perm_login_error |
             obey_step; unfold id; rewrite Hauth; destruct (c_pf_socket (conn s)); [by obey_step|by apply perm_session]]. }
  unfold on_message_with.
  destruct m as [| | | | | | | | | | | | |misc| | | | | | | | | | | | | | |]; try (destruct misc as [[]|]);
    first [apply perm_peer_close | unfold getc; obey_step; unfold id; rewrite Hauth; first [by obey_step | case_match; [apply perm_violation|by apply Hother]]].
Qed.

End Messages.

(** *** A connection that logs in with the temporary password *)

Definition tick (ev : Event) : Tick := MkTick SampleEnv.env SampleLogin.lenv ev.
Definition login (union : option LoginUnion) : Tick :=
  tick (Ev_Net (Some (Ok (Some (Msg_LoginRequest (SampleLogin.request union)))))).
#[local] Abbreviation sample P := (P SampleEnv.env SampleLogin.lenv 5 None (lit "s") (lit "c") (lit "1.1.1.1") false false SampleLogin.glob).

Lemma sample_ok : srv_ok SampleLogin.glob.
Proof. done. Qed.

Lemma authorization_is_earned_witness :
  exists ts1 t ts2 q, [tick (Ev_TestDelayTimer 0); login None] = ts1 ++ t :: ts2
    /\ sample phase_of ts1 = Main /\ c_authorized (conn (sample state_of ts1)) = false
    /\ earned_at t (sample state_of ts1) /\ past (ts1 ++ [t]) q /\ c_permit (conn (sample state_of (ts1 ++ [t]))) = Some q.
Proof. apply (sample authorization_is_earned sample_ok). vm_compute. reflexivity. Defined.

Lemma session_type_is_final_witness :
  let c := conn (sample state_of [login (Some Lu_ViewCamera)]) in
  c_authed c = Some ViewCamera
  /\ c_authed (conn (sample state_of ([login (Some Lu_ViewCamera)] ++ [login None; tick Ev_Revoked]))) = c_authed c.
Proof.
  assert (Ha : c_authorized (conn (sample state_of [login (Some Lu_ViewCamera)])) = true) by (vm_compute; reflexivity).
  destruct (sample session_type_is_final sample_ok _ [login None; tick Ev_Revoked] Ha) as (H1 & _ & _ & _ & H2 & _).
  split; [rewrite H1; vm_compute; reflexivity|exact H2].
Defined.

Lemma sessions_stay_in_scope_witness :
  requested (c_lr (conn (sample state_of [login (Some Lu_ViewCamera)]))) = ViewCamera
  /\ Forall (fun e => allowed ViewCamera e = true)
    (fx (@on_message SampleEnv.env SampleLogin.lenv (Msg_KeyEvent (MkKey true false (Known Legacy) None)))
       (sample state_of [login (Some Lu_ViewCamera)])).
Proof.
  set (m := Msg_KeyEvent _). set (ts := [login (Some Lu_ViewCamera)]).
  assert (Hm : sample phase_of ts = Main) by (vm_compute; reflexivity).
  assert (Ha : c_authorized (conn (sample state_of ts)) = true) by (vm_compute; reflexivity).
  assert (Et : requested (c_lr (conn (sample state_of ts))) = ViewCamera) by (vm_compute; reflexivity).
  destruct (sample sessions_stay_in_scope sample_ok ts SampleEnv.env SampleLogin.lenv m Hm Ha) as [H _].
  rewrite Et in H. split; [exact Et|exact H].
Defined.

Lemma nothing_before_authorization_witness :
  Forall preauth (fx (@on_message SampleEnv.env SampleLogin.lenv Msg_SwitchSidesResponse) (sample state_of [tick (Ev_TestDelayTimer 0)])).
Proof. apply (sample nothing_before_authorization); vm_compute; reflexivity. Defined.

Lemma end_is_announced_once_witness :
  notices (sample effects_of [login None; tick Ev_Revoked; login None]) = 1%nat /\ gone (sample state_of [login None; tick Ev_Revoked; login None]).
Proof.
  assert (Hm : sample phase_of [] = Main) by (vm_compute; reflexivity).
  destruct (sample end_is_announced_once sample_ok [login None; tick Ev_Revoked; login None] Hm) as [H1 H2].
  assert (He : sample phase_of [login None; tick Ev_Revoked; login None] = Ended) by (vm_compute; reflexivity).
  split; [rewrite H1, He; reflexivity|exact (H2 He)].
Defined.

Lemma ending_events_end_witness :
  sample phase_of ([login None] ++ [tick Ev_Revoked]) = Ended /\
  sample phase_of ([login (Some (Lu_PortForward (lit "nas") 22))] ++ [tick (Ev_ForwardTimer H1)]) = Ended.
Proof.
  assert (Hm : sample phase_of [] = Main) by (vm_compute; reflexivity).
  split.
  - apply (proj1 (sample ending_events_end sample_ok [login None] (tick Ev_Revoked) Hm)); [vm_compute; reflexivity|].
    eexists. vm_compute. reflexivity.
  - apply (proj1 (proj2 (sample ending_events_end sample_ok [login (Some (Lu_PortForward (lit "nas") 22))] (tick (Ev_ForwardTimer H1)) Hm)));
      [vm_compute; reflexivity|]. apply Z.le_refl.
Defined.

Lemma forwarding_survives_revocation_witness :
  let forward := login (Some (Lu_PortForward (lit "nas") 22)) in
  is_Some (c_permit (conn (sample state_of [forward])))
  /\ sample phase_of ([forward] ++ [tick Ev_Revoked; tick Ev_Revoked]) = Forwarding.
Proof.
  cbv zeta. split; [eexists; vm_compute; reflexivity|].
  apply (sample forwarding_survives_revocation sample_ok); [vm_compute; reflexivity|by repeat constructor].
Defined.

Lemma modifiers_never_recorded_witness :
  let down := tick (Ev_Net (Some (Ok (Some (Msg_KeyEvent (MkKey true false (Known Legacy) (Some (Ku_ControlKey (Known CkShift))))))))) in
  c_pressed_modifiers (conn (sample state_of [login None; down])) = [].
Proof. cbv zeta. apply (sample modifiers_never_recorded sample_ok); [exact SampleEnv.env|]. vm_compute. reflexivity. Defined.

Definition in_camera : St := Eval vm_compute in sample state_of [login (Some Lu_ViewCamera)].
Definition in_remote : St := Eval vm_compute in sample state_of [login None].

Lemma compat_messages_are_noops_witness :
  @on_message_with SampleEnv.env (fun _ => mret true) (Msg_Clipboard [1]) in_camera = (true, in_camera, []).
Proof. apply (compat_messages_are_noops _ _ _ ViewCamera); reflexivity. Defined.

Lemma effects_need_permission_witness :
  Forall (permitted (conn in_remote))
    (fx (@on_message_with SampleEnv.env (fun _ => mret true) (Msg_KeyEvent (MkKey true false (Known Legacy) None))) in_remote).
Proof. apply (effects_need_permission (fun _ => mret true)). reflexivity. Defined.

End ConnTrustClaims.
