(* ===== verification/ConnManager.v ===== *)
(** * The connection manager (Linux desktop)

    [client/src/ui_cm_interface.rs]: the process the host's user sees.  Every
    connection of the server opens a channel to it and one task serves the channel
    ([ipc_task], [run]); the user's clicks and the tasks meet in the table
    [CLIENTS].  File requests of a session are carried out here ([handle_fs] and the
    read jobs).  The other end of the channel is [start_ipc] of
    [server/connection.rs].

    Transfer jobs and file operations are the [hbb_common] submodule's: the class
    [FsLib].  A computation on the manager lists what it does to the user
    interface, the file system and the channels as [Fx]; what the outside answers
    is given by [CmEnv], per event. *)
From stdpp Require Import base gmap list strings.
From Stdlib Require Import ZArith Lia.
From S2P Require Import Prelude RustStr Effects Message ConnState.

#[local] Open Scope Z_scope.

(** ** What goes over the channel *)

(** [ipc::FS] *)
Inductive Request :=
| Rq_ReadEmptyDirs (dir : str) (include_hidden : bool)
| Rq_ReadDir (dir : str) (include_hidden : bool)
| Rq_RemoveDir (path : str) (id : Z) (recursive : bool)
| Rq_RemoveFile (path : str) (id file_num : Z)
| Rq_CreateDir (path : str) (id : Z)
| Rq_NewWrite (path : str) (id file_num : Z) (files : list (str * Z)) (overwrite_detection : bool) (total_size conn_id : Z)
| Rq_CancelWrite (id : Z)
| Rq_WriteBlock (id file_num : Z) (data : bytes) (compressed : bool)
| Rq_WriteDone (id file_num : Z)
| Rq_WriteError (id file_num : Z) (err : str)
| Rq_WriteOffset (id file_num offset_blk : Z)
| Rq_CheckDigest (id file_num file_size last_modified : Z) (is_upload is_resume : bool)
| Rq_SendConfirm (b : bytes)
| Rq_Rename (id : Z) (path new_name : str)
| Rq_ReadFile (path : str) (id file_num : Z) (include_hidden : bool) (conn_id : Z) (overwrite_detection : bool)
| Rq_CancelRead (id conn_id : Z)
| Rq_SendConfirmForRead (id file_num : Z) (skip : bool) (offset_blk conn_id : Z)
| Rq_ReadAllFiles (path : str) (id : Z) (include_hidden : bool) (conn_id : Z).

(** [ipc::Data], as far as the two ends of this channel tell its cases apart;
    [Login] has the fields of [CmLogin] and three more (its
    [file_transfer_enabled] is read on Windows only). *)
Inductive Data :=
| D_Login (id : Z) (l : CmLogin) (avatar : str) (from_switch : bool)
| D_ChatMessage (text : str)
| D_SwitchPermission (name : str) (enabled : bool)
| D_ClickTime (ms : Z)
| D_Authorize
| D_Close
| D_Disconnected
| D_FS (f : Request)
| D_FileTransferLog (action log : str)
| D_Theme (dark : str)
| D_Language (lang : str)
| D_CmShowElevation (show : bool)
| D_StartVoiceCall
| D_VoiceCallIncoming
| D_VoiceCallResponse (accept : bool)
| D_CloseVoiceCall (reason : str)
| D_SwitchSidesBack
| D_RawMessage (b : bytes)
| D_ReadJobInitResult (id file_num : Z) (include_hidden : bool) (conn_id : Z) (r : result str bytes)
| D_FileBlockFromCM (id file_num : Z) (data : bytes) (compressed : bool) (conn_id : Z)
| D_FileReadDone (id file_num conn_id : Z)
| D_FileReadError (id file_num : Z) (err : str) (conn_id : Z)
| D_FileDigestFromCM (id file_num last_modified file_size : Z) (is_resume : bool) (conn_id : Z)
| D_AllFilesResult (id conn_id : Z) (path : str) (r : result str bytes)
| D_Other (tag : str).

(** A frame of the channel: a serialized [Data], or raw bytes *)
Inductive Frame := F_Data (d : Data) | F_Raw (b : bytes).

(** The part of a digest the manager reads or writes *)
Record Digest := MkDigest { dg_id : Z; dg_file_num : Z; dg_last_modified : Z; dg_file_size : Z; dg_is_upload : bool }.

Record FileDirectory := MkDir { fd_id : Z; fd_path : str; fd_entries : list FileEntry }.

(** The messages for the peer the manager makes; the connection passes on their
    encoding. *)
Inductive Reply :=
| Rp_Done (id file_num : Z)
| Rp_Error (id : Z) (err : str) (file_num : Z)
| Rp_Dir (d : FileDirectory)
| Rp_EmptyDirs (path : str) (dirs : list FileDirectory)
| Rp_Digest (d : Digest)
| Rp_SendConfirm (r : SendConfirmRequest).

Inductive DigestCheckResult := IsSame | NeedConfirm (d : Digest) | NoSuchFile.

(** ** Transfer jobs *)

(** [fs::TransferJob]: the fields the manager reads or sets; [j_source] is the path
    of a [FilePath] source, and [j_rest] the library's own state. *)
Record Job {Rest : Type} := MkTJob {
  j_id : Z; j_source : option str; j_file_num : Z; j_files : list FileEntry; j_total_size : Z; j_conn_id : Z;
  j_is_last_job : bool; j_is_resume : bool; j_rest : Rest }.
Arguments Job Rest : clear implicits.
#[global] Instance eta_job {Rest} : EtaRecord (Job Rest) := fun j =>
  MkTJob Rest (j_id j) (j_source j) (j_file_num j) (j_files j) (j_total_size j) (j_conn_id j) (j_is_last_job j) (j_is_resume j) (j_rest j).

Record Block := MkBlock { b_id : Z; b_file_num : Z; b_data : bytes; b_compressed : bool }.

(** The library's functions that do not touch files *)
Class FsLib (Rest : Type) := {
  new_write : Z -> str -> Z -> bool -> Job Rest;                  (** id, path, file_num, overwrite_detection *)
  set_files : list (str * Z) -> Job Rest -> result str (Job Rest);
  set_digest : Z -> Z -> Job Rest -> Job Rest;
  confirm : SendConfirmRequest -> Job Rest -> Job Rest;
  job_completed : Job Rest -> bool;
  job_error : Job Rest -> option str;
  get_job : Z -> list (Job Rest) -> option nat;                   (** where the job is *)
  remove_job : Z -> list (Job Rest) -> option (Job Rest * list (Job Rest));
  join : str -> str -> str;
  get_path : str -> str;
  serialize_transfer_job : Job Rest -> bool -> bool -> str -> str;
  serialize_transfer_jobs : list (Job Rest) -> str;
  write_reply : Reply -> option bytes;                            (** [Message::write_to_bytes] *)
  write_dir : FileDirectory -> result str bytes;
  parse_confirm : bytes -> option SendConfirmRequest;
}.

(** What the file system and the configuration answer during one event.  A task
    run on the blocking pool can itself fail: the outer [result]. *)
Class CmEnv (Rest : Type) := {
  e_max_files_option : str;                                        (** the builtin option's value *)
  e_perm_change_allowed : bool;                                    (** [option2bool] of the accept window's option *)
  e_home : str;                                                    (** [Config::get_home] *)
  e_empty_dirs : str -> bool -> result str (result str (list FileDirectory));
  e_read_dir : str -> bool -> result str (result str FileDirectory);
  e_get_files : str -> bool -> result str (result str (list FileEntry));     (** [get_recursive_files] *)
  e_remove_file : str -> result str (result str unit);
  e_create_dir : str -> result str (result str unit);
  e_rename_file : str -> str -> result str (result str unit);
  e_remove_all_empty_dir : str -> result str (result str unit);
  e_remove_dir : str -> result str (result str unit);
  e_write : Job Rest -> Block -> result str unit * Job Rest;
  e_need_confirmation : bool -> str -> Digest -> result str DigestCheckResult;
  e_job_new_read : Z -> str -> Z -> bool -> bool -> result str (result str (Job Rest));
  e_init_stream : Job Rest -> result str (option (Z * Z)) * Job Rest;        (** modified, size *)
  e_read : Job Rest -> result str (option Block) * Job Rest;
  e_sent : nat -> bool;                                            (** whether the n-th send on the stream succeeds *)
}.

(** ** The manager *)

Record Client := MkClient {
  k_client_id : Z; k_login : CmLogin; k_disconnected : bool; k_avatar : str; k_from_switch : bool;
  k_in_voice_call : bool; k_incoming_voice_call : bool;
  k_tx : nat }.                       (** the task whose queue [tx] is *)
#[global] Instance eta_client : EtaRecord Client := fun c =>
  MkClient (k_client_id c) (k_login c) (k_disconnected c) (k_avatar c) (k_from_switch c) (k_in_voice_call c) (k_incoming_voice_call c) (k_tx c).
#[global] Instance eta_cm_login : EtaRecord CmLogin := fun l =>
  MkCmLogin (cl_is_file_transfer l) (cl_is_view_camera l) (cl_is_terminal l) (cl_port_forward l) (cl_peer_id l) (cl_name l)
    (cl_authorized l) (cl_keyboard l) (cl_clipboard l) (cl_audio l) (cl_file l) (cl_restart l) (cl_recording l) (cl_block_input l) (cl_privacy_mode l).

(** [IpcTaskRunner], with the locals of [run]: [t_write_jobs], [t_logs] (the
    channel [rx_log]) and [t_fast] (the file timer's period is 5 ms) *)
Record Task {Rest : Type} := MkTask {
  t_rx : list Data; t_close : bool; t_running : bool; t_conn_id : Z; t_read_jobs : list (Job Rest);
  t_write_jobs : list (Job Rest); t_logs : list str; t_fast : bool }.
Arguments Task Rest : clear implicits.
#[global] Instance eta_task {Rest} : EtaRecord (Task Rest) := fun t =>
  MkTask Rest (t_rx t) (t_close t) (t_running t) (t_conn_id t) (t_read_jobs t) (t_write_jobs t) (t_logs t) (t_fast t).

(** [CLIENTS], [CLICK_TIME], the tasks and how many were started so far *)
Record Cm {Rest : Type} := MkCm { clients : gmap Z Client; click_time : Z; tasks : gmap nat (Task Rest); spawned : nat }.
Arguments Cm Rest : clear implicits.
#[global] Instance eta_cm {Rest} : EtaRecord (Cm Rest) := fun c => MkCm Rest (clients c) (click_time c) (tasks c) (spawned c).

Inductive Fx {Rest : Type} :=
| Ui_add_connection (c : Client)
| Ui_remove_connection (id : Z) (close : bool)
| Ui_new_message (id : Z) (text : str)
| Ui_change_theme (dark : str)
| Ui_change_language
| Ui_show_elevation (show : bool)
| Ui_update_voice_call_state (c : Client)
| Ui_file_transfer_log (action log : str)
| SetLang (lang : str)
| QuitGui
| Wire (t : nat) (f : Frame)              (** sent on the task's stream *)
| File_list (path : str)                  (** a directory is read *)
| File_remove (path : str) | File_create_dir (path : str) | File_rename (path new_name : str)
| File_remove_dir (path : str) (recursive : bool)
| File_write (t : nat) (j : Job Rest) (b : Block)
| File_remove_download (j : Job Rest) | File_modify_time (j : Job Rest)
| File_digest (path : str)
| File_open (j : Job Rest) | File_read (j : Job Rest).
Arguments Fx Rest : clear implicits.

Section Manager.
Context {Rest : Type} `{!FsLib Rest}.

Abbreviation Do := (M (Cm Rest) (Fx Rest)).

(** ** The table of clients *)

Definition add_connection (t : nat) (id : Z) (l : CmLogin) (avatar : str) (from_switch : bool) : Do unit :=
  let client := MkClient id l false avatar from_switch false false t in
  _ ← modify (fun s => s <| clients ::= filter (fun kc => k_disconnected kc.2 && bool_decide (cl_peer_id (k_login kc.2) = cl_peer_id l) = false) |>);
  _ ← modify (fun s => s <| clients ::= <[id := client]> |>);
  emit (Ui_add_connection client).

Definition remove_connection (id : Z) (close : bool) : Do unit :=
  _ ← modify (fun s => s <| clients ::= if close then delete id else alter (fun c => c <| k_disconnected := true |>) id |>);
  emit (Ui_remove_connection id close).

Definition set_voice_call (id : Z) (incoming in_call : bool) : Do unit :=
  r ← gets (fun s => clients s !! id);
  match r with
  | Some c =>
    let c := c <| k_incoming_voice_call := incoming |> <| k_in_voice_call := in_call |> in
    _ ← modify (fun s => s <| clients ::= <[id := c]> |>);
    emit (Ui_update_voice_call_state c)
  | None => skip
  end.
Definition voice_call_started (id : Z) : Do unit := set_voice_call id false true.
Definition voice_call_incoming (id : Z) : Do unit := set_voice_call id true false.
Definition voice_call_closed (id : Z) : Do unit := set_voice_call id false false.

(** [tx.send]: lost when the task is gone *)
Definition tx_send (t : nat) (d : Data) : Do unit :=
  modify (fun s => s <| tasks ::= alter (fun k => k <| t_rx ::= fun q => q ++ [d] |>) t |>).

Definition to_client (id : Z) (d : Data) : Do unit :=
  r ← gets (fun s => clients s !! id);
  match r with Some c => tx_send (k_tx c) d | None => skip end.

(** ** What the user does *)

Definition check_click_time (id : Z) : Do unit := to_client id (D_ClickTime 0).

Definition authorize (id : Z) : Do unit :=
  r ← gets (fun s => clients s !! id);
  match r with
  | Some c =>
    _ ← modify (fun s => s <| clients ::= <[id := c <| k_login ::= fun l => l <| cl_authorized := true |> |>]> |>);
    tx_send (k_tx c) D_Authorize
  | None => skip
  end.

Definition close (id : Z) : Do unit := to_client id D_Close.
Definition remove (id : Z) : Do unit := modify (fun s => s <| clients ::= delete id |>).
Definition send_chat (id : Z) (text : str) : Do unit := to_client id (D_ChatMessage text).

Definition switch_permission `{!CmEnv Rest} (id : Z) (name : str) (enabled : bool) : Do unit :=
  if negb e_perm_change_allowed then skip else to_client id (D_SwitchPermission name enabled).

Definition switch_back (id : Z) : Do unit := to_client id D_SwitchSidesBack.
Definition handle_incoming_voice_call (id : Z) (accept : bool) : Do unit := to_client id (D_VoiceCallResponse accept).
Definition close_voice_call (id : Z) : Do unit := to_client id (D_CloseVoiceCall []).
Definition quit_cm : Do unit := _ ← modify (fun s => s <| clients := ∅ |>); emit QuitGui.

(** ** File requests *)

Section Handle.
Context `{!CmEnv Rest} (t : nat).

Definition get_task {A} (f : Task Rest -> A) (d : A) : Do A := gets (fun s => from_option f d (tasks s !! t)).
Definition mod_task (f : Task Rest -> Task Rest) : Do unit := modify (fun s => s <| tasks ::= alter f t |>).

Definition send_raw (r : Reply) : Do unit :=
  match write_reply r with Some b => tx_send t (D_RawMessage b) | None => skip end.

Definition DEFAULT_MAX_VALIDATED_FILES : Z := 10000.

Definition get_max_validated_files : Z :=
  let c := default (u_max 64) (parse_u 64 (trim e_max_files_option)) in
  if c =? 0 then DEFAULT_MAX_VALIDATED_FILES else c.

Definition OPTION_FILE_TRANSFER_MAX_FILES : str := lit "file-transfer-max-files".

Definition check_file_count_limit (file_count : Z) : result str unit :=
  let max_files := get_max_validated_files in
  if max_files <? file_count then
    Err (lit "file transfer rejected: too many files (" ++ fmt_Z file_count ++ lit " files exceeds limit of " ++ fmt_Z max_files
         ++ lit "). Adjust '" ++ OPTION_FILE_TRANSFER_MAX_FILES ++ lit "' option to increase limit.")
  else Ok tt.

Definition handle_result (res : result str (result str unit)) (id file_num : Z) : Do unit :=
  send_raw match res with
           | Err err | Ok (Err err) => Rp_Error id err file_num
           | Ok (Ok _) => Rp_Done id file_num
           end.

Definition remove_file (path : str) (id file_num : Z) : Do unit :=
  _ ← emit (File_remove path); handle_result (e_remove_file path) id file_num.
Definition create_dir (path : str) (id : Z) : Do unit :=
  _ ← emit (File_create_dir path); handle_result (e_create_dir path) id 0.
Definition rename_file (path new_name : str) (id : Z) : Do unit :=
  _ ← emit (File_rename path new_name); handle_result (e_rename_file path new_name) id 0.
Definition remove_dir (path : str) (id : Z) (recursive : bool) : Do unit :=
  let path := get_path path in
  _ ← emit (File_remove_dir path recursive);
  handle_result (if recursive then e_remove_all_empty_dir path else e_remove_dir path) id 0.

Definition read_empty_dirs (dir : str) (include_hidden : bool) : Do unit :=
  _ ← emit (File_list dir);
  match e_empty_dirs dir include_hidden with Ok (Ok fds) => send_raw (Rp_EmptyDirs dir fds) | _ => skip end.

Definition read_dir (dir : str) (include_hidden : bool) : Do unit :=
  let path := match dir with [] => e_home | _ => get_path dir end in
  _ ← emit (File_list path);
  match e_read_dir path include_hidden with Ok (Ok fd) => send_raw (Rp_Dir fd) | _ => skip end.

Definition read_all_files (path : str) (include_hidden : bool) (id conn_id : Z) : Do unit :=
  _ ← emit (File_list path);
  let r :=
    match e_get_files path include_hidden with
    | Ok (Ok files) =>
      match check_file_count_limit (Z.of_nat (length files)) with
      | Err msg => Err msg
      | Ok _ => match write_dir (MkDir id path files) with Ok b => Ok b | Err e => Err (lit "serialize failed: " ++ e) end
      end
    | Ok (Err e) => Err e
    | Err e => Err (lit "task failed: " ++ e)
    end in
  tx_send t (D_AllFilesResult id conn_id path r).

Definition start_read_job (path : str) (file_num : Z) (include_hidden : bool) (id conn_id : Z) (overwrite_detection : bool) : Do unit :=
  let answer r := tx_send t (D_ReadJobInitResult id file_num include_hidden conn_id r) in
  _ ← emit (File_list path);
  match e_job_new_read id path file_num include_hidden overwrite_detection with
  | Ok (Ok job) =>
    match check_file_count_limit (Z.of_nat (length (j_files job))) with
    | Err msg => answer (Err msg)
    | Ok _ =>
      match write_dir (MkDir id path (j_files job)) with
      | Err e => answer (Err (lit "serialize failed: " ++ e))
      | Ok dir_bytes =>
        _ ← answer (Ok dir_bytes);
        mod_task (fun k => k <| t_read_jobs ::= fun l => l ++ [job <| j_conn_id := conn_id |>] |>)
      end
    end
  | Ok (Err e) => answer (Err (lit "validation failed: " ++ e))
  | Err e => answer (Err (lit "validation task failed: " ++ e))
  end.

(** [tx_log.send] *)
Definition log_send (s : str) : Do unit := mod_task (fun k => k <| t_logs ::= fun l => l ++ [s] |>).

Definition take_write_job (id : Z) : Do (option (Job Rest)) :=
  l ← get_task t_write_jobs [];
  match remove_job id l with
  | Some (j, rest) => _ ← mod_task (fun k => k <| t_write_jobs := rest |>); mret (Some j)
  | None => mret None
  end.
Definition take_read_job (id : Z) : Do (option (Job Rest)) :=
  l ← get_task t_read_jobs [];
  match remove_job id l with
  | Some (j, rest) => _ ← mod_task (fun k => k <| t_read_jobs := rest |>); mret (Some j)
  | None => mret None
  end.

Definition find_job (id : Z) (l : list (Job Rest)) : option (nat * Job Rest) :=
  i ← get_job id l; j ← l !! i; Some (i, j).

Definition put_write_job (i : nat) (j : Job Rest) : Do unit := mod_task (fun k => k <| t_write_jobs ::= <[i := j]> |>).
Definition put_read_job (i : nat) (j : Job Rest) : Do unit := mod_task (fun k => k <| t_read_jobs ::= <[i := j]> |>).

Definition check_digest (id file_num file_size last_modified : Z) (is_upload is_resume : bool) : Do unit :=
  l ← get_task t_write_jobs [];
  match find_job id l with
  | None => skip
  | Some (i, job) =>
    let req := MkConfirm id file_num false 0 in
    let digest := MkDigest id file_num last_modified file_size false in
    match (if file_num <? 0 then None else j_files job !! Z.to_nat file_num), j_source job with
    | Some file, Some p =>
      let path := join p (fe_name file) in
      _ ← emit (File_digest path);
      match e_need_confirmation is_resume path digest with
      | Ok r =>
        _ ← put_write_job i (set_digest file_size last_modified job);
        send_raw match r with
                 | IsSame => Rp_SendConfirm (MkConfirm id file_num true 0)
                 | NeedConfirm digest => Rp_Digest (MkDigest (dg_id digest) (dg_file_num digest) (dg_last_modified digest) (dg_file_size digest) is_upload)
                 | NoSuchFile => Rp_SendConfirm req
                 end
      | Err err => send_raw (Rp_Error id err file_num)
      end
    | _, _ => skip
    end
  end.

Definition handle_fs (fs : Request) : Do unit :=
  match fs with
  | Rq_ReadEmptyDirs dir include_hidden => read_empty_dirs dir include_hidden
  | Rq_ReadDir dir include_hidden => read_dir dir include_hidden
  | Rq_RemoveDir path id recursive => remove_dir path id recursive
  | Rq_RemoveFile path id file_num => remove_file path id file_num
  | Rq_CreateDir path id => create_dir path id
  | Rq_NewWrite path id file_num files overwrite_detection total_size conn_id =>
    match set_files files (new_write id path file_num overwrite_detection) with
    | Err e => send_raw (Rp_Error id e file_num)
    | Ok job => mod_task (fun k => k <| t_write_jobs ::= fun l => l ++ [job <| j_total_size := total_size |> <| j_conn_id := conn_id |>] |>)
    end
  | Rq_CancelWrite id =>
    r ← take_write_job id;
    match r with
    | Some job => _ ← emit (File_remove_download job); log_send (serialize_transfer_job job false true [])
    | None => skip
    end
  | Rq_WriteDone id file_num =>
    r ← take_write_job id;
    match r with
    | Some job =>
      _ ← emit (File_modify_time job);
      _ ← send_raw (Rp_Done id file_num);
      log_send (serialize_transfer_job job true false [])
    | None => skip
    end
  | Rq_WriteError id file_num err =>
    r ← take_write_job id;
    match r with
    | Some job =>
      _ ← log_send (serialize_transfer_job job false false err);
      send_raw (Rp_Error (j_id job) err file_num)
    | None => skip
    end
  | Rq_WriteBlock id file_num data compressed =>
    l ← get_task t_write_jobs [];
    match find_job id l with
    | None => skip
    | Some (i, job) =>
      let b := MkBlock id file_num data compressed in
      _ ← emit (File_write t job b);
      let '(r, job') := e_write job b in
      _ ← put_write_job i job';
      match r with Err err => send_raw (Rp_Error id err file_num) | Ok _ => skip end
    end
  | Rq_CheckDigest id file_num file_size last_modified is_upload is_resume =>
    check_digest id file_num file_size last_modified is_upload is_resume
  | Rq_SendConfirm bs =>
    match parse_confirm bs with
    | None => skip
    | Some r =>
      l ← get_task t_write_jobs [];
      match find_job (sc_id r) l with
      | Some (i, job) => put_write_job i (confirm r job)
      | None => skip
      end
    end
  | Rq_Rename id path new_name => rename_file path new_name id
  | Rq_ReadFile path id file_num include_hidden conn_id overwrite_detection =>
    start_read_job path file_num include_hidden id conn_id overwrite_detection
  | Rq_CancelRead id _ =>
    r ← take_read_job id;
    match r with Some job => log_send (serialize_transfer_job job false true []) | None => skip end
  | Rq_SendConfirmForRead id _ skip_ offset_blk _ =>
    l ← get_task t_read_jobs [];
    match find_job id l with
    | Some (i, job) => put_read_job i (confirm (MkConfirm id (j_file_num job) skip_ (if skip_ then 0 else offset_blk)) job)
    | None => skip
    end
  | Rq_ReadAllFiles path id include_hidden conn_id => read_all_files path include_hidden id conn_id
  | Rq_WriteOffset _ _ _ => skip
  end.

(** ** Read jobs *)

Definition init_read_job_for_cm (job : Job Rest) (conn_id : Z) : Do (result str unit * Job Rest) :=
  _ ← emit (File_open job);
  let '(r, job) := e_init_stream job in
  match r with
  | Err e => mret (Err e, job)
  | Ok (Some (last_modified, file_size)) =>
    _ ← tx_send t (D_FileDigestFromCM (j_id job) (j_file_num job) last_modified file_size (j_is_resume job) conn_id);
    mret (Ok tt, job)
  | Ok None => mret (Ok tt, job)
  end.

(** One block of a job whose stream is open; whether the job is finished *)
Definition read_one (job : Job Rest) (conn_id : Z) : Do (Job Rest * bool) :=
  _ ← emit (File_read job);
  let '(r, job) := e_read job in
  match r with
  | Err err => _ ← tx_send t (D_FileReadError (j_id job) (j_file_num job) err conn_id); mret (job, true)
  | Ok (Some block) =>
    _ ← tx_send t (D_FileBlockFromCM (b_id block) (b_file_num block) (b_data block) (b_compressed block) conn_id); mret (job, false)
  | Ok None =>
    if job_completed job then
      _ ← tx_send t match job_error job with
                    | Some err => D_FileReadError (j_id job) (j_file_num job) err conn_id
                    | None => D_FileReadDone (j_id job) (j_file_num job) conn_id
                    end;
      mret (job, true)
    else mret (job, false)
  end.

(** The loop over the jobs: it stops after the first one it reads from. *)
Fixpoint tick_jobs (conn_id : Z) (jobs : list (Job Rest)) : Do (list (Job Rest) * list Z) :=
  match jobs with
  | [] => mret ([], [])
  | job :: rest =>
    if j_is_last_job job then
      '(rest, finished) ← tick_jobs conn_id rest; mret (job :: rest, finished)
    else
      '(r, job) ← init_read_job_for_cm job conn_id;
      match r with
      | Err err =>
        _ ← tx_send t (D_FileReadError (j_id job) (j_file_num job) err conn_id);
        '(rest, finished) ← tick_jobs conn_id rest;
        mret (job :: rest, j_id job :: finished)
      | Ok _ =>
        '(job, done) ← read_one job conn_id;
        mret (job :: rest, if (done : bool) then [j_id job] else [])
      end
  end.

Definition drop_jobs (finished : list Z) (jobs : list (Job Rest)) : list (Job Rest) :=
  foldl (fun l id => from_option snd l (remove_job id l)) jobs finished.

Definition handle_read_jobs_tick (conn_id : Z) : Do unit :=
  jobs ← get_task t_read_jobs [];
  '(jobs, finished) ← tick_jobs conn_id jobs;
  mod_task (fun k => k <| t_read_jobs := drop_jobs finished jobs |>).

(** ** The loop of a task *)

(** What [stream.next] returns: the stream ended, something that is no [Data], or a
    [Data] (with what [next_raw] returns if it is asked for) *)
Inductive Incoming := In_err | In_none | In_data (d : Data) (raw : option bytes).

Definition log_jobs (jobs : list (Job Rest)) : Do unit := emit (Ui_file_transfer_log (lit "transfer") (serialize_transfer_jobs jobs)).

(** Whether the loop goes on. *)
Definition on_data (d : Data) (raw : option bytes) : Do bool :=
  conn_id ← get_task t_conn_id 0;
  match d with
  | D_Login id l avatar from_switch =>
    _ ← add_connection t id l avatar from_switch;
    _ ← mod_task (fun k => k <| t_conn_id := id |> <| t_running := true |>);
    mret false
  | D_Close => mret false
  | D_Disconnected => _ ← mod_task (fun k => k <| t_close := false |>); mret false
  | D_ClickTime ms => _ ← modify (fun s => s <| click_time := ms |>); mret true
  | D_ChatMessage text => _ ← emit (Ui_new_message conn_id text); mret true
  | D_SwitchPermission name enabled =>
    if bool_decide (name = lit "privacy_mode") then
      r ← gets (fun s => clients s !! conn_id);
      match r with
      | Some c =>
        let c := c <| k_login ::= fun l => l <| cl_privacy_mode := enabled |> |> in
        _ ← modify (fun s => s <| clients ::= <[conn_id := c]> |>);
        _ ← emit (Ui_add_connection c);
        mret true
      | None => mret true
      end
    else mret true
  | D_FS fs =>
    _ ← match fs with
        | Rq_WriteBlock id file_num _ compressed =>
          match raw with Some bytes => handle_fs (Rq_WriteBlock id file_num bytes compressed) | None => skip end
        | _ => handle_fs fs
        end;
    reads ← get_task t_read_jobs [];
    _ ← when (negb (bool_decide (length reads = 0%nat))) (mod_task (fun k => k <| t_fast := true |>));
    writes ← get_task t_write_jobs [];
    _ ← log_jobs writes;
    mret true
  | D_FileTransferLog action log => _ ← emit (Ui_file_transfer_log action log); mret true
  | D_Theme dark => _ ← emit (Ui_change_theme dark); mret true
  | D_Language lang => _ ← emit (SetLang lang); _ ← emit Ui_change_language; mret true
  | D_CmShowElevation show => _ ← emit (Ui_show_elevation show); mret true
  | D_StartVoiceCall => _ ← voice_call_started conn_id; mret true
  | D_VoiceCallIncoming => _ ← voice_call_incoming conn_id; mret true
  | D_CloseVoiceCall _ => _ ← voice_call_closed conn_id; mret true
  | _ => mret true
  end.

(** The next [Data] of the queue is sent on the stream. *)
Definition on_queue : Do bool :=
  q ← get_task t_rx [];
  match q with
  | [] => mret true
  | data :: rest =>
    _ ← mod_task (fun k => k <| t_rx := rest |>);
    match data with
    | D_FileBlockFromCM id file_num bs compressed conn_id =>
      if negb (e_sent 0) then mret false
      else
        _ ← emit (Wire t (F_Data (D_FileBlockFromCM id file_num [] compressed conn_id)));
        if negb (e_sent 1) then mret false
        else _ ← emit (Wire t (F_Raw bs)); mret true
    | _ =>
      if negb (e_sent 0) then mret false
      else
        _ ← emit (Wire t (F_Data data));
        match data with
        | D_Authorize => _ ← mod_task (fun k => k <| t_running := true |>); mret false
        | _ => mret true
        end
    end
  end.

Definition on_log : Do bool :=
  l ← get_task t_logs [];
  match l with
  | [] => mret true
  | s :: rest =>
    _ ← mod_task (fun k => k <| t_logs := rest |>);
    _ ← emit (Ui_file_transfer_log (lit "transfer") s);
    mret true
  end.

Definition on_timer : Do bool :=
  jobs ← get_task t_read_jobs [];
  match jobs with
  | [] => _ ← mod_task (fun k => k <| t_fast := false |>); mret true
  | _ =>
    conn_id ← get_task t_conn_id 0;
    _ ← handle_read_jobs_tick conn_id;
    jobs ← get_task t_read_jobs [];
    _ ← log_jobs jobs;
    mret true
  end.

Inductive TaskEvent := Te_stream (i : Incoming) | Te_queue | Te_log | Te_timer.

(** One turn of [run]'s loop *)
Definition run_turn (e : TaskEvent) : Do bool :=
  match e with
  | Te_stream In_err => mret false
  | Te_stream In_none => mret true
  | Te_stream (In_data d raw) => on_data d raw
  | Te_queue => on_queue
  | Te_log => on_log
  | Te_timer => on_timer
  end.

(** [run] begins: [running] is cleared, its locals are new. *)
Definition enter_run (k : Task Rest) : Task Rest :=
  k <| t_running := false |> <| t_write_jobs := [] |> <| t_logs := [] |> <| t_fast := false |>.

(** One turn of [ipc_task]: the loop of [run] goes on, [run] is called again, or
    the task ends. *)
Definition task_step (e : TaskEvent) : Do unit :=
  goes_on ← run_turn e;
  if (goes_on : bool) then skip
  else
    k ← gets (fun s => tasks s !! t);
    match k with
    | None => skip
    | Some k =>
      if t_running k then mod_task enter_run
      else
        _ ← when (0 <? t_conn_id k) (remove_connection (t_conn_id k) (t_close k));
        modify (fun s => s <| tasks ::= delete t |>)
    end.

End Handle.

(** A task before its first [run] *)
Definition new_task : Task Rest := MkTask Rest [] true true 0 [] [] [] false.

(** ** The process: channels are accepted, tasks take turns, the user acts *)

Inductive UserAct :=
| U_check_click_time (id : Z) | U_authorize (id : Z) | U_close (id : Z) | U_remove (id : Z) | U_send_chat (id : Z) (text : str)
| U_switch_permission (id : Z) (name : str) (enabled : bool) | U_switch_back (id : Z)
| U_handle_incoming_voice_call (id : Z) (accept : bool) | U_close_voice_call (id : Z) | U_quit.

Inductive CmEvent := Accept | OfTask (t : nat) (e : TaskEvent) | User (u : UserAct).

Definition user_act `{!CmEnv Rest} (u : UserAct) : Do unit :=
  match u with
  | U_check_click_time id => check_click_time id
  | U_authorize id => authorize id
  | U_close id => close id
  | U_remove id => remove id
  | U_send_chat id text => send_chat id text
  | U_switch_permission id name enabled => switch_permission id name enabled
  | U_switch_back id => switch_back id
  | U_handle_incoming_voice_call id accept => handle_incoming_voice_call id accept
  | U_close_voice_call id => close_voice_call id
  | U_quit => quit_cm
  end.

(** A stream is accepted and gets a task; a task that ended takes no turns. *)
Definition cm_step `{!CmEnv Rest} (ev : CmEvent) : Do unit :=
  match ev with
  | Accept => modify (fun s => s <| tasks ::= <[spawned s := enter_run new_task]> |> <| spawned ::= S |>)
  | OfTask t e =>
    k ← gets (fun s => tasks s !! t);
    match k with Some _ => task_step t e | None => skip end
  | User u => user_act u
  end.

Fixpoint cm_run (evs : list (CmEnv Rest * CmEvent)) : Do unit :=
  match evs with [] => skip | (env, ev) :: r => _ ← @cm_step env ev; cm_run r end.

Definition cm_init : Cm Rest := MkCm Rest ∅ 0 ∅ 0.

End Manager.

(** ** The channel and the thread at its other end *)

Section Channel.
(** [serde_json], which writes a [Data] and reads one back *)
Context (to_vec : Data -> bytes) (from_str : bytes -> option Data).

Definition frame_bytes (f : Frame) : bytes := match f with F_Data d => to_vec d | F_Raw b => b end.

(** [ConnectionTmpl::next] of a frame *)
Definition next (f : Frame) : option Data := from_str (frame_bytes f).

(** [start_ipc] of the connection: a [Data] for the manager *)
Definition to_cm (d : Data) : list Frame :=
  match d with
  | D_FS (Rq_WriteBlock id file_num data compressed) => [F_Data (D_FS (Rq_WriteBlock id file_num [] compressed)); F_Raw data]
  | _ => [F_Data d]
  end.

(** [start_ipc]: the frames of the manager; what is passed to the connection, and
    the answers sent back *)
Fixpoint from_cm (click : Z) (fs : list Frame) : list Data * list Frame :=
  match fs with
  | [] => ([], [])
  | f :: r =>
    match next f with
    | None => from_cm click r
    | Some (D_ClickTime _) => let '(ds, out) := from_cm click r in (ds, F_Data (D_ClickTime click) :: out)
    | Some (D_FileBlockFromCM id file_num _ compressed conn_id) =>
      match r with
      | [] => ([], [])
      | g :: r => let '(ds, out) := from_cm click r in (D_FileBlockFromCM id file_num (frame_bytes g) compressed conn_id :: ds, out)
      end
    | Some d => let '(ds, out) := from_cm click r in (d :: ds, out)
    end
  end.

(** What the manager's task sends for a [Data] of its queue ([on_queue]) *)
Definition queue_frames (d : Data) : list Frame :=
  match d with
  | D_FileBlockFromCM id file_num bs compressed conn_id => [F_Data (D_FileBlockFromCM id file_num [] compressed conn_id); F_Raw bs]
  | _ => [F_Data d]
  end.

(** What the manager's task reads from the frames it gets *)
Fixpoint cm_receive (fs : list Frame) : list Incoming :=
  match fs with
  | [] => [In_err]
  | f :: r =>
    match next f with
    | None => In_none :: cm_receive r
    | Some (D_FS (Rq_WriteBlock _ _ _ _) as d) =>
      match r with
      | [] => [In_data d None; In_err]
      | g :: r => In_data d (Some (frame_bytes g)) :: cm_receive r
      end
    | Some d => In_data d None :: cm_receive r
    end
  end.

(** The [Data] that is then handled ([on_data]) *)
Definition handled (i : Incoming) : option Data :=
  match i with
  | In_err | In_none => None
  | In_data (D_FS (Rq_WriteBlock id file_num _ compressed)) raw => (fun b => D_FS (Rq_WriteBlock id file_num b compressed)) <$> raw
  | In_data d _ => Some d
  end.

Definition is_block (d : Data) : bool := match d with D_FileBlockFromCM _ _ _ _ _ => true | _ => false end.
Definition is_click (d : Data) : bool := match d with D_ClickTime _ => true | _ => false end.

(** The data of a block is not serialized. *)
Definition skipped (d : Data) : Data :=
  match d with D_FileBlockFromCM id file_num _ compressed conn_id => D_FileBlockFromCM id file_num [] compressed conn_id | _ => d end.

(** What [serde_json] wrote it reads back. *)
Definition reads_back (f : Frame) : Prop :=
  match f with F_Data d => from_str (to_vec d) = Some (skipped d) | F_Raw _ => True end.

Lemma next_data d : reads_back (F_Data d) -> next (F_Data d) = Some (skipped d).
Proof. done. Qed.

Lemma to_cm_received ds : Forall (fun d => is_block d = false) ds -> Forall reads_back (ds ≫= to_cm) ->
  omap handled (cm_receive (ds ≫= to_cm)) = ds.
Proof.
  induction 1 as [|d ds Hd _ IH]; [done|]. cbn [mbind list_bind]. fold (mbind (M := list) to_cm ds). rewrite Forall_app. intros [Hf Hr]. specialize (IH Hr).
  assert (E : forall d fs, Forall reads_back (F_Data d :: fs) -> is_block d = false -> next (F_Data d) = Some d)
    by (intros e fs [Hn _]%Forall_cons He; rewrite next_data by done; by destruct e).
  destruct d as [| | | | | | |f| | | | | | | | | | | | | | | | |]; try done;
    try (cbn [to_cm app cm_receive] in *; rewrite (E _ _ Hf eq_refl); cbn [omap list_omap handled]; f_equal; exact IH).
  destruct f; cbn [to_cm app cm_receive] in *; rewrite (E _ _ Hf eq_refl); cbn [omap list_omap handled fmap option_fmap option_map frame_bytes]; f_equal; exact IH.
Qed.

Lemma from_cm_received click ds : Forall reads_back (ds ≫= queue_frames) ->
  from_cm click (ds ≫= queue_frames) = (filter (fun d => is_click d = false) ds, (fun _ => F_Data (D_ClickTime click)) <$> filter (fun d => is_click d = true) ds).
Proof.
  induction ds as [|d ds IH]; [done|]. cbn [mbind list_bind]. fold (mbind (M := list) queue_frames ds). rewrite Forall_app. intros [Hf Hr]. specialize (IH Hr).
  assert (E : forall d fs, Forall reads_back (F_Data d :: fs) -> next (F_Data d) = Some (skipped d)) by (by intros e fs [Hn _]%Forall_cons).
  rewrite !filter_cons.
  destruct d; cbn [queue_frames app from_cm is_click] in *; rewrite (E _ _ Hf); cbn [skipped]; rewrite IH; cbn [frame_bytes];
    repeat (rewrite decide_True by done || rewrite decide_False by done); done.
Qed.
End Channel.

(** ** What file requests leave alone *)

(** What the user asks of a connection *)
Definition command (d : Data) : bool :=
  match d with
  | D_Authorize | D_Close | D_ChatMessage _ | D_SwitchPermission _ _ | D_SwitchSidesBack | D_VoiceCallResponse _ | D_CloseVoiceCall _ | D_ClickTime _ => true
  | _ => false
  end.

Section Frames.
Context {Rest : Type} `{!FsLib Rest}.

Definition task_kept (k k' : Task Rest) : Prop :=
  t_conn_id k' = t_conn_id k /\ t_close k' = t_close k /\ t_running k' = t_running k
  /\ exists l, t_rx k' = t_rx k ++ l /\ Forall (fun d => command d = false) l.

#[local] Instance task_kept_preorder : PreOrder task_kept.
Proof.
  split.
  - intros k. split_and!; [done..|]. exists []. by rewrite app_nil_r.
  - intros k1 k2 k3 (E1 & E2 & E3 & l1 & E4 & F1) (G1 & G2 & G3 & l2 & G4 & F2). split_and!; [congruence..|].
    exists (l1 ++ l2). rewrite G4, E4, app_assoc. split; [done|]. by apply Forall_app.
Qed.

(** Only task [t] changes, and of it neither the connection it serves nor how it
    ends; what it queues are no commands. *)
Record frame (t : nat) (s s' : Cm Rest) : Prop := {
  fr_clients : clients s' = clients s;
  fr_click : click_time s' = click_time s;
  fr_spawned : spawned s' = spawned s;
  fr_others u : u <> t -> tasks s' !! u = tasks s !! u;
  fr_task : option_relation task_kept (fun _ => False) (fun _ => False) (tasks s !! t) (tasks s' !! t) }.

#[local] Instance frame_preorder t : PreOrder (frame t).
Proof.
  split.
  - intros s. split; try done. destruct (tasks s !! t); simpl; [reflexivity|done].
  - intros s1 s2 s3 [C1 K1 N1 O1 T1] [C2 K2 N2 O2 T2]. split; [congruence..| |].
    + intros u Hu. rewrite O2, O1; done.
    + destruct (tasks s1 !! t), (tasks s2 !! t), (tasks s3 !! t); simpl in *; try done. by etransitivity.
Qed.

Definition file_fx (e : Fx Rest) : Prop :=
  match e with
  | File_list _ | File_remove _ | File_create_dir _ | File_rename _ _ | File_remove_dir _ _ | File_write _ _ _
  | File_remove_download _ | File_modify_time _ | File_digest _ | File_open _ | File_read _ => True
  | _ => False
  end.

Lemma frame_alter t f s : (forall k, task_kept k (f k)) -> frame t s (s <| tasks ::= alter f t |>).
Proof.
  intros Hf. split; simpl; try done.
  - intros u Hu. by rewrite lookup_alter_ne.
  - rewrite lookup_alter_eq. destruct (tasks s !! t); simpl; auto.
Qed.

Lemma frame_tx t d s : command d = false -> obeys (frame t) file_fx s (tx_send t d).
Proof.
  intros Hd. unfold tx_send. apply obeys_modify. apply frame_alter. intros k. split_and!; [done..|].
  exists [d]. split; [done|]. by repeat constructor.
Qed.

Lemma frame_mod t f s : (forall k, task_kept k (f k)) -> obeys (frame t) file_fx s (mod_task t f).
Proof. intros Hf. unfold mod_task. apply obeys_modify. by apply frame_alter. Qed.

Lemma task_kept_same (k k' : Task Rest) : t_conn_id k' = t_conn_id k -> t_close k' = t_close k -> t_running k' = t_running k ->
  t_rx k' = t_rx k -> task_kept k k'.
Proof. intros. split_and!; [done..|]. exists []. by rewrite app_nil_r. Qed.

Lemma frame_raw t r s : obeys (frame t) file_fx s (send_raw t r).
Proof. unfold send_raw. destruct (write_reply r); [by apply frame_tx|apply obeys_ret; exact _]. Qed.

Context `{!CmEnv Rest}.

Ltac framed :=
  repeat match goal with
  | |- obeys _ _ _ (get_task _ _ _ ≫= _) => unfold get_task at 1; apply obeys_gets_bind; [exact _|]; cbn beta
  | |- obeys _ _ _ (gets _ ≫= _) => apply obeys_gets_bind; [exact _|]; cbn beta
  | |- obeys _ _ _ (_ ≫= _) => apply obeys_seq; [exact _| |intros ? ? ?]
  | |- obeys _ _ _ (mret _) => apply obeys_ret; exact _
  | |- obeys _ _ _ skip => apply obeys_ret; exact _
  | |- obeys _ _ _ (emit _) => apply obeys_emit; [exact _|exact I]
  | |- obeys _ _ _ (tx_send _ _) => apply frame_tx; try done
  | |- obeys _ _ _ (send_raw _ _) => apply frame_raw
  | |- obeys _ _ _ (mod_task _ _) => apply frame_mod; intros ?; by apply task_kept_same
  | |- obeys _ _ _ (if ?b then _ else _) => destruct b
  | |- obeys _ _ _ (match ?x with _ => _ end) => destruct x
  end.

Lemma take_write_frame t id s : obeys (frame t) file_fx s (take_write_job t id).
Proof. unfold take_write_job. framed. Qed.
Lemma take_read_frame t id s : obeys (frame t) file_fx s (take_read_job t id).
Proof. unfold take_read_job. framed. Qed.

Lemma handle_fs_frame t fs s : obeys (frame t) file_fx s (handle_fs t fs).
Proof.
  destruct fs; cbn [handle_fs]; unfold read_empty_dirs, read_dir, remove_dir, remove_file, create_dir, rename_file, handle_result,
    start_read_job, read_all_files, check_digest, log_send, put_write_job, put_read_job;
    repeat first [apply take_write_frame | apply take_read_frame | progress framed].
Qed.

Lemma init_read_frame t job c s : obeys (frame t) file_fx s (init_read_job_for_cm t job c).
Proof. unfold init_read_job_for_cm. framed. Qed.
Lemma read_one_frame t job c s : obeys (frame t) file_fx s (read_one t job c).
Proof. unfold read_one. framed; destruct (job_error _); done. Qed.

Lemma tick_jobs_frame t c jobs : forall s, obeys (frame t) file_fx s (tick_jobs t c jobs).
Proof.
  induction jobs as [|j r IH]; intros s; cbn [tick_jobs]; [apply obeys_ret; exact _|].
  repeat first [apply IH | apply init_read_frame | apply read_one_frame | progress framed].
Qed.

Lemma read_tick_frame t c s : obeys (frame t) file_fx s (handle_read_jobs_tick t c).
Proof. unfold handle_read_jobs_tick. repeat first [apply tick_jobs_frame | progress framed]. Qed.

End Frames.

(** ** The table and the tasks *)

Section Table.
Context {Rest : Type} `{!FsLib Rest}.

(** The connection that each channel serves *)
Context (ids : nat -> Z).

(** A row stands for the connection of its task; while it is not marked as
    disconnected the task is there. *)
Record row_ok (s : Cm Rest) (k : Z) (c : Client) : Prop := {
  row_id : k_client_id c = k;
  row_tx : k = ids (k_tx c);
  row_voice : k_in_voice_call c && k_incoming_voice_call c = false;
  row_live : k_disconnected c = false -> 0 < k /\ exists k', tasks s !! k_tx c = Some k' /\ t_conn_id k' = k }.

Record table_ok (s : Cm Rest) : Prop := {
  tb_rows k c : clients s !! k = Some c -> row_ok s k c;
  tb_tasks t k : tasks s !! t = Some k -> (t_conn_id k = 0 \/ t_conn_id k = ids t) /\ (t < spawned s)%nat }.

Definition keeps_table (s s' : Cm Rest) : Prop := table_ok s -> table_ok s'.
#[local] Instance keeps_table_preorder : PreOrder keeps_table.
Proof. split; [by intros s H|]. intros s1 s2 s3 H1 H2 H. auto. Qed.

Abbreviation sane := (obeys keeps_table (fun _ : Fx Rest => True)).

(** Tasks change, but not which connections they serve. *)
Lemma table_tasks s s' : clients s' = clients s -> spawned s' = spawned s ->
  (forall t, t_conn_id <$> tasks s' !! t = t_conn_id <$> tasks s !! t) -> keeps_table s s'.
Proof.
  intros Ec Es Et [Hr Ht]. split.
  - intros k c Hc. rewrite Ec in Hc. destruct (Hr k c Hc) as [E1 E2 E3 E4]. split; [done..|]. intros Hd.
    destruct (E4 Hd) as (Hk & k' & Hk' & Ek). split; [done|]. specialize (Et (k_tx c)). rewrite Hk' in Et. simpl in Et.
    destruct (tasks s' !! k_tx c) as [k''|]; [|done]. exists k''. split; [done|]. simpl in Et. congruence.
  - intros t k Hk. specialize (Et t). rewrite Hk in Et. simpl in Et. destruct (tasks s !! t) as [k0|] eqn:E; [|done].
    simpl in Et. rewrite Es. destruct (Ht t k0 E). split; [|done]. injection Et as ->. done.
Qed.

Lemma table_frame t s s' : frame t s s' -> keeps_table s s'.
Proof.
  intros [Ec _ Es Eo Et]. apply table_tasks; [done..|]. intros u. destruct (decide (u = t)) as [->|Hu]; [|by rewrite Eo].
  destruct (tasks s !! t), (tasks s' !! t); simpl in *; try done. by destruct Et as [-> _].
Qed.

Lemma sane_frame {A} t s (m : M (Cm Rest) (Fx Rest) A) F : obeys (frame t) F s m -> sane s m.
Proof. intros [Hf _]. split; [by eapply table_frame|]. apply Forall_true. done. Qed.

Lemma sane_mod_task t f s : (forall k, t_conn_id (f k) = t_conn_id k) -> sane s (mod_task t f).
Proof.
  intros Hf. apply obeys_modify. apply table_tasks; [done..|]. intros u. simpl. destruct (decide (u = t)) as [->|Hu].
  - rewrite lookup_alter_eq. destruct (tasks s !! t); simpl; congruence.
  - by rewrite lookup_alter_ne.
Qed.

Lemma sane_tx t d s : sane s (tx_send t d).
Proof. apply (sane_mod_task t (fun k => k <| t_rx ::= fun q => q ++ [d] |>)). done. Qed.

(** A row changes, but not what it stands for. *)
Lemma table_row s k c c' : clients s !! k = Some c -> k_client_id c' = k_client_id c -> k_tx c' = k_tx c ->
  (k_disconnected c' = false -> k_disconnected c = false) -> k_in_voice_call c' && k_incoming_voice_call c' = false ->
  keeps_table s (s <| clients ::= <[k := c']> |>).
Proof.
  intros Hc E1 E2 E3 E4 [Hr Ht]. split; [|done]. simpl. intros k0 c0. destruct (decide (k0 = k)) as [->|Hk].
  - rewrite lookup_insert_eq. intros [= <-]. destruct (Hr k c Hc) as [F1 F2 F3 F4]. split; simpl; [congruence..|].
    rewrite E2. auto.
  - rewrite lookup_insert_ne by done. intros Hc0. destruct (Hr k0 c0 Hc0). by split.
Qed.

Lemma table_filter s (P : Z * Client -> Prop) `{!forall x, Decision (P x)} : keeps_table s (s <| clients ::= filter P |>).
Proof. intros [Hr Ht]. split; [|done]. simpl. intros k c [Hc _]%map_lookup_filter_Some. destruct (Hr k c Hc). by split. Qed.

Lemma table_delete s k : keeps_table s (s <| clients ::= delete k |>).
Proof. intros [Hr Ht]. split; [|done]. simpl. intros k0 c [Hk Hc]%lookup_delete_Some. destruct (Hr k0 c Hc). by split. Qed.

(** A login: the row is new, and its task is of that connection from now on. *)
Lemma sane_login t l avatar fs s : 0 < ids t -> is_Some (tasks s !! t) ->
  sane s (_ ← add_connection t (ids t) l avatar fs;
          _ ← mod_task t (fun k => k <| t_conn_id := ids t |> <| t_running := true |>);
          mret false).
Proof.
  intros Hpos [k0 Hk0]. split; [|by apply Forall_true]. intros Hs. unfold add_connection, mod_task.
  rewrite !st_bind. unfold st. cbn. pose proof (table_filter s
    (fun kc => k_disconnected kc.2 && bool_decide (cl_peer_id (k_login kc.2) = cl_peer_id l) = false) Hs) as [Hr Ht].
  split; simpl.
  - intros k c. destruct (decide (k = ids t)) as [->|Hk].
    + rewrite lookup_insert_eq. intros [= <-]. split; simpl; [done..|]. intros _. split; [done|].
      eexists. rewrite lookup_alter_eq, Hk0. by split.
    + rewrite lookup_insert_ne by done. intros Hc. destruct (Hr k c Hc) as [E1 E2 E3 E4]. split; [done..|]. intros Hd.
      destruct (E4 Hd) as (Hp & k' & Hk' & Ek). split; [done|]. simpl in Hk'. exists k'. split; [|done].
      simpl. rewrite lookup_alter_ne; [done|]. intros E. apply Hk. by rewrite E, <- E2.
  - intros u k Hu. destruct (decide (u = t)) as [->|Hne].
    + rewrite lookup_alter_eq in Hu. rewrite Hk0 in Hu. injection Hu as <-. split; [by right|]. by apply (Ht t k0).
    + rewrite lookup_alter_ne in Hu by done. by apply (Ht u k).
Qed.

Lemma removed_state id close (s : Cm Rest) : st (remove_connection id close) s =
  s <| clients ::= if close then delete id else alter (fun c => c <| k_disconnected := true |>) id |>.
Proof. done. Qed.

(** The end of a task: its row goes or is marked. *)
Lemma sane_end t k s : tasks s !! t = Some k ->
  sane s (_ ← when (0 <? t_conn_id k) (remove_connection (t_conn_id k) (t_close k)); modify (fun s => s <| tasks ::= delete t |>)).
Proof.
  intros Hk. split; [|by apply Forall_true]. intros [Hr Ht]. rewrite st_bind. split; cbn.
  - intros k0 c Hc.
    assert (Hold : exists c0, clients s !! k0 = Some c0 /\ (k_disconnected c = false -> k_disconnected c0 = false /\ (0 < t_conn_id k -> k0 <> t_conn_id k))
                   /\ k_client_id c = k_client_id c0 /\ k_tx c = k_tx c0 /\ k_in_voice_call c = k_in_voice_call c0 /\ k_incoming_voice_call c = k_incoming_voice_call c0).
    { revert Hc. destruct (0 <? t_conn_id k) eqn:E; cbn; [|intros Hc; exists c; split_and!; try done; intros Hl; split; [done|bools; lia]].
      rewrite removed_state. destruct (t_close k); simpl.
      - intros [Hne Hc]%lookup_delete_Some. exists c. split_and!; try done; auto.
      - destruct (decide (k0 = t_conn_id k)) as [->|Hne].
        + rewrite lookup_alter_eq. destruct (clients s !! t_conn_id k) as [c0|] eqn:E0; [|done]. intros [= <-]. exists c0. by split_and!.
        + rewrite lookup_alter_ne by done. intros Hc. exists c. split_and!; try done. }
    destruct Hold as (c0 & Hc0 & Hd & E1 & E2 & E3 & E4). destruct (Hr k0 c0 Hc0) as [F1 F2 F3 F4]. split; [congruence..|].
    intros Hl. destruct (Hd Hl) as [Hl0 Hne]. destruct (F4 Hl0) as (Hp & k' & Hk' & Ek). split; [done|]. exists k'. rewrite E2. split; [|done].
    assert (Hcl : tasks (st (when (0 <? t_conn_id k) (remove_connection (t_conn_id k) (t_close k))) s) = tasks s) by (by destruct (0 <? t_conn_id k)).
    rewrite Hcl. cbn [tasks]. rewrite lookup_delete_ne; [done|]. intros E. rewrite <- E, Hk in Hk'. injection Hk' as <-. apply Hne; lia.
  - intros u k'. assert (Hcl : tasks (st (when (0 <? t_conn_id k) (remove_connection (t_conn_id k) (t_close k))) s) = tasks s) by (by destruct (0 <? t_conn_id k)).
    assert (Hsp : spawned (st (when (0 <? t_conn_id k) (remove_connection (t_conn_id k) (t_close k))) s) = spawned s) by (by destruct (0 <? t_conn_id k)).
    rewrite Hcl, Hsp. intros [_ Hu]%lookup_delete_Some. by apply (Ht u k').
Qed.

(** *** Every step *)

Definition login_id (ev : CmEvent) : Prop :=
  match ev with OfTask t (Te_stream (In_data (D_Login id _ _ _) _)) => id = ids t /\ 0 < id | _ => True end.

Context `{!CmEnv Rest}.

Lemma sane_row (s : Cm Rest) k c c' (m : M (Cm Rest) (Fx Rest) unit) : clients s !! k = Some c -> k_client_id c' = k_client_id c -> k_tx c' = k_tx c ->
  (k_disconnected c' = false -> k_disconnected c = false) ->
  (k_in_voice_call c && k_incoming_voice_call c = false -> k_in_voice_call c' && k_incoming_voice_call c' = false) ->
  (forall s', sane s' m) -> sane s (_ ← modify (fun s => s <| clients ::= <[k := c']> |>); m).
Proof.
  intros Hc E1 E2 E3 E4 Hm. apply obeys_seq; [exact _| |intros s' [] _; apply Hm]. apply obeys_modify. intros Hs.
  eapply table_row; try done. apply E4. by destruct (tb_rows _ Hs k c Hc).
Qed.

Lemma sane_emit e s : sane s (emit e).
Proof. apply obeys_emit; [exact _|done]. Qed.

Lemma sane_voice id a b s : a && b = false -> sane s (set_voice_call id a b).
Proof.
  intros Hab. unfold set_voice_call. apply obeys_gets_bind; [exact _|]. destruct (clients s !! id) as [c|] eqn:E; [|apply obeys_ret; exact _].
  eapply sane_row; try done; [|intros; apply sane_emit]. intros _. simpl. by rewrite andb_comm.
Qed.

Lemma sane_to_client id d s : sane s (to_client id d).
Proof. unfold to_client. apply obeys_gets_bind; [exact _|]. destruct (clients s !! id); [apply sane_tx|apply obeys_ret; exact _]. Qed.

Ltac sanely :=
  repeat match goal with
  | |- obeys _ _ _ (get_task _ _ _ ≫= _) => unfold get_task at 1; apply obeys_gets_bind; [exact _|]; cbn beta
  | |- obeys _ _ _ (gets _ ≫= _) => apply obeys_gets_bind; [exact _|]; cbn beta
  | |- obeys _ _ _ (_ ≫= _) => apply obeys_seq; [exact _| |intros ? ? ?]
  | |- obeys _ _ _ (mret _) => apply obeys_ret; exact _
  | |- obeys _ _ _ skip => apply obeys_ret; exact _
  | |- obeys _ _ _ (emit _) => apply sane_emit
  | |- obeys _ _ _ (tx_send _ _) => apply sane_tx
  | |- obeys _ _ _ (set_voice_call _ _ _) => by apply sane_voice
  | |- obeys _ _ _ (mod_task _ _) => by apply sane_mod_task
  | |- obeys _ _ _ (to_client _ _) => apply sane_to_client
  | |- obeys _ _ _ (when _ _) => apply obeys_when; [exact _|intros _]
  | |- obeys _ _ _ (handle_fs _ _) => eapply sane_frame, handle_fs_frame
  | |- obeys _ _ _ (handle_read_jobs_tick _ _) => eapply sane_frame, read_tick_frame
  | |- obeys _ _ _ (log_jobs _) => apply sane_emit
  | |- obeys _ _ _ (if ?b then _ else _) => destruct b
  | |- obeys _ _ _ (match ?x with _ => _ end) => destruct x eqn:?
  end.

Lemma sane_on_data t d raw s : login_id (OfTask t (Te_stream (In_data d raw))) -> is_Some (tasks s !! t) -> sane s (on_data t d raw).
Proof.
  intros Hl Ht. unfold on_data, get_task at 1. apply obeys_gets_bind; [exact _|]. cbn beta.
  destruct d; try by (unfold voice_call_started, voice_call_incoming, voice_call_closed; sanely).
  - destruct Hl as [-> Hp]. by apply sane_login.
  - destruct (bool_decide _); [|sanely]. apply obeys_gets_bind; [exact _|].
    destruct (clients s !! _) as [c|] eqn:E; [|sanely]. apply obeys_seq; [exact _| |intros; sanely].
    apply obeys_modify. intros Hs. eapply table_row; try done. by destruct (tb_rows _ Hs _ _ E).
  - apply obeys_seq; [exact _| |intros; sanely]. apply obeys_modify. by apply table_tasks.
Qed.

Lemma sane_task_step t e s : login_id (OfTask t e) -> is_Some (tasks s !! t) -> sane s (task_step t e).
Proof.
  intros Hl Ht. unfold task_step. apply obeys_seq; [exact _| |].
  - destruct e as [[| |d raw]| | |]; cbn [run_turn]; [sanely..| | | |]; [by apply sane_on_data|unfold on_queue; sanely|unfold on_log; sanely|unfold on_timer; sanely].
  - intros s' b _. destruct b; [sanely|]. apply obeys_gets_bind; [exact _|]. destruct (tasks s' !! t) as [k|] eqn:E; [|sanely].
    destruct (t_running k); [by apply sane_mod_task|by apply sane_end].
Qed.

Lemma sane_user u s : sane s (user_act u).
Proof.
  destruct u; cbn [user_act]; unfold check_click_time, close, send_chat, switch_permission, switch_back, handle_incoming_voice_call, close_voice_call;
    try by sanely.
  - unfold authorize. apply obeys_gets_bind; [exact _|]. destruct (clients s !! id) as [c|] eqn:E; [|sanely].
    eapply sane_row; try done. intros. apply sane_tx.
  - apply obeys_modify, table_delete.
  - unfold quit_cm. apply obeys_seq; [exact _| |intros; sanely]. apply obeys_modify. intros [Hr Hk]. by split.
Qed.

Lemma sane_step ev s : login_id ev -> sane s (cm_step ev).
Proof.
  intros Hl. destruct ev as [|t e|u]; cbn [cm_step]; [|apply obeys_gets_bind; [exact _|]; destruct (tasks s !! t) eqn:E; [by apply sane_task_step|sanely]|apply sane_user].
  apply obeys_modify. intros [Hr Ht]. split; simpl.
  - intros k c Hc. destruct (Hr k c Hc) as [E1 E2 E3 E4]. split; [done..|]. intros Hd. destruct (E4 Hd) as (Hp & k' & Hk' & Ek). split; [done|].
    exists k'. split; [|done]. simpl. rewrite lookup_insert_ne; [done|]. destruct (Ht _ _ Hk') as [_ Hlt]. lia.
  - intros t k. destruct (decide (t = spawned s)) as [->|Hne].
    + rewrite lookup_insert_eq. intros [= <-]. split; [by left|lia].
    + rewrite lookup_insert_ne by done. intros Hk. destruct (Ht t k Hk). split; [done|lia].
Qed.
End Table.

Lemma cm_run_table {Rest} `{!FsLib Rest} (ids : nat -> Z) (evs : list (CmEnv Rest * CmEvent)) : forall s,
  Forall (fun x => login_id ids x.2) evs -> table_ok ids s -> table_ok ids (st (cm_run evs) s).
Proof.
  induction evs as [|[env ev] r IH]; intros s Hl Hs; [done|]. apply Forall_cons in Hl as [Hl Hr]. cbn [cm_run]. rewrite st_bind.
  apply IH; [done|]. by apply (sane_step ids ev s Hl).
Qed.

(** ** Where commands come from *)

Section Commands.
Context {Rest : Type} `{!FsLib Rest}.

(** What the user's act puts in the queue of a task *)
Definition asks `{!CmEnv Rest} (s : Cm Rest) (u : UserAct) : option (Z * nat * Data) :=
  let row id d := (fun c => (id, k_tx c, d)) <$> clients s !! id in
  match u with
  | U_check_click_time id => row id (D_ClickTime 0)
  | U_authorize id => row id D_Authorize
  | U_close id => row id D_Close
  | U_send_chat id text => row id (D_ChatMessage text)
  | U_switch_permission id name enabled => if e_perm_change_allowed then row id (D_SwitchPermission name enabled) else None
  | U_switch_back id => row id D_SwitchSidesBack
  | U_handle_incoming_voice_call id accept => row id (D_VoiceCallResponse accept)
  | U_close_voice_call id => row id (D_CloseVoiceCall [])
  | U_remove _ | U_quit => None
  end.

Definition queued (s : Cm Rest) (t : nat) (d : Data) : Prop := exists k, tasks s !! t = Some k /\ d ∈ t_rx k.

(** No command appears in a queue. *)
Definition no_commands (s s' : Cm Rest) : Prop := forall t d, command d = true -> queued s' t d -> queued s t d.
#[local] Instance no_commands_preorder : PreOrder no_commands.
Proof. split; [by intros s t d|]. intros s1 s2 s3 H1 H2 t d Hd Hq. auto. Qed.

Definition wires_queued (s : Cm Rest) (e : Fx Rest) : Prop :=
  match e with Wire t (F_Data d) => command d = true -> queued s t d | _ => True end.

Lemma no_commands_tasks s s' : (forall t k', tasks s' !! t = Some k' -> exists k l, tasks s !! t = Some k /\ t_rx k' ⊆ t_rx k ++ l /\ Forall (fun d => command d = false) l) ->
  no_commands s s'.
Proof.
  intros H t d Hd (k' & Hk' & Hin). destruct (H t k' Hk') as (k & l & Hk & Hsub & Hl). exists k. split; [done|].
  pose proof (Hsub d Hin) as Hs. apply elem_of_app in Hs as [?|Hs]; [done|]. rewrite Forall_forall in Hl. specialize (Hl d Hs). congruence.
Qed.

Lemma no_commands_same s s' : (forall t, t_rx <$> tasks s' !! t = t_rx <$> tasks s !! t) -> no_commands s s'.
Proof.
  intros H t d Hd (k' & Hk' & Hin). specialize (H t). rewrite Hk' in H. simpl in H. destruct (tasks s !! t) as [k|] eqn:E; [|done].
  injection H as H. exists k. split; [done|]. by rewrite <- H.
Qed.

Lemma frame_no_commands t s s' : frame t s s' -> no_commands s s'.
Proof.
  intros [_ _ _ Ho Ht]. apply no_commands_tasks. intros u k' Hk'. destruct (decide (u = t)) as [->|Hu].
  - rewrite Hk' in Ht. destruct (tasks s !! t) as [k|]; simpl in Ht; [|done]. destruct Ht as (_ & _ & _ & l & El & Hl).
    exists k, l. by rewrite El.
  - rewrite Ho in Hk' by done. exists k', []. split_and!; [done|set_solver|done].
Qed.

Context (s0 : Cm Rest).
Abbreviation obedient := (obeys no_commands (wires_queued s0)).

Lemma obedient_frame {A} t s (m : M (Cm Rest) (Fx Rest) A) : obeys (frame t) file_fx s m -> obedient s m.
Proof.
  intros [Hf Hx]. split; [by eapply frame_no_commands|]. eapply Forall_impl; [exact Hx|]. intros e He. by destruct e.
Qed.

Lemma obedient_mod_task t f s : (forall k, t_rx (f k) ⊆ t_rx k) -> obedient s (mod_task t f).
Proof.
  intros Hf. apply obeys_modify. apply no_commands_tasks. intros u k'. simpl. destruct (decide (u = t)) as [->|Hu].
  - rewrite lookup_alter_eq. destruct (tasks s !! t) as [k|]; [|done]. intros [= <-]. exists k, []. rewrite app_nil_r. auto.
  - rewrite lookup_alter_ne by done. intros Hk'. exists k', []. rewrite app_nil_r. auto.
Qed.

Lemma obedient_modify f s : (forall s : Cm Rest, tasks (f s) = tasks s) -> obedient s (modify f).
Proof. intros Hf. apply obeys_modify, no_commands_same. intros t. by rewrite Hf. Qed.

Context `{!CmEnv Rest}.

Ltac obediently :=
  repeat match goal with
  | |- obeys _ _ _ (get_task _ _ _ ≫= _) => unfold get_task at 1; apply obeys_gets_bind; [exact _|]; cbn beta
  | |- obeys _ _ _ (gets _ ≫= _) => apply obeys_gets_bind; [exact _|]; cbn beta
  | |- obeys _ _ _ (_ ≫= _) => apply obeys_seq; [exact _| |intros ? ? ?]
  | |- obeys _ _ _ (mret _) => apply obeys_ret; exact _
  | |- obeys _ _ _ skip => apply obeys_ret; exact _
  | |- obeys _ _ _ (emit _) => apply obeys_emit; [exact _|try done]
  | |- obeys _ _ _ (mod_task _ _) => apply obedient_mod_task; intros ?; try done
  | |- obeys _ _ _ (modify _) => by apply obedient_modify
  | |- obeys _ _ _ (when _ _) => apply obeys_when; [exact _|intros _]
  | |- obeys _ _ _ (handle_fs _ _) => eapply obedient_frame, handle_fs_frame
  | |- obeys _ _ _ (handle_read_jobs_tick _ _) => eapply obedient_frame, read_tick_frame
  | |- obeys _ _ _ (log_jobs _) => apply obeys_emit; [exact _|done]
  | |- obeys _ _ _ (if ?b then _ else _) => destruct b
  | |- obeys _ _ _ (match ?x with _ => _ end) => destruct x eqn:?
  end.

Lemma obedient_queue t s : s = s0 -> obedient s (on_queue t).
Proof.
  intros ->. unfold on_queue, get_task. apply obeys_gets_bind; [exact _|]. cbn beta.
  destruct (tasks s0 !! t) as [k|] eqn:E; [|apply obeys_ret; exact _]. simpl. destruct (t_rx k) as [|d q] eqn:Eq; [apply obeys_ret; exact _|].
  assert (Hd : queued s0 t d) by (exists k; rewrite Eq; set_solver).
  apply obeys_seq; [exact _| |].
  { apply obeys_modify, no_commands_tasks. intros u k'. simpl. destruct (decide (u = t)) as [->|Hu].
    - rewrite lookup_alter_eq, E. intros [= <-]. exists k, []. simpl. rewrite Eq. split_and!; [done|set_solver|done].
    - rewrite lookup_alter_ne by done. intros Hk'. exists k', []. split_and!; [done|set_solver|done]. }
  intros s' [] _. destruct d; obediently; simpl; auto.
Qed.

Lemma obedient_task t e : obedient s0 (task_step t e).
Proof.
  unfold task_step. apply obeys_seq; [exact _| |].
  - destruct e as [[| |d raw]| | |]; cbn [run_turn]; [by obediently..| |by apply obedient_queue|unfold on_log; by obediently|unfold on_timer; by obediently].
    unfold on_data. destruct d; unfold voice_call_started, voice_call_incoming, voice_call_closed, set_voice_call, add_connection; by obediently.
  - intros s' b _. destruct b; [by obediently|]. apply obeys_gets_bind; [exact _|]. destruct (tasks s' !! t) as [k|] eqn:E; [|by obediently].
    unfold remove_connection. destruct (t_running k); [by obediently|]. obediently.
    apply obeys_modify, no_commands_tasks. intros u k'. simpl. intros [_ Hu]%lookup_delete_Some. exists k', []. split_and!; [done|set_solver|done].
Qed.

(** The user's acts *)
Lemma user_queues u s : (forall e, e ∈ fx (user_act u) s -> match e with Wire _ _ => False | _ => True end) /\
  forall t d, command d = true -> queued (st (user_act u) s) t d -> queued s t d \/ exists id, asks s u = Some (id, t, d).
Proof.
  assert (Hpush : forall id d0 (c : Client) t d, clients s !! id = Some c -> queued (s <| tasks ::= alter (fun k => k <| t_rx ::= fun q => q ++ [d0] |>) (k_tx c) |>) t d ->
    queued s t d \/ (t = k_tx c /\ d = d0)).
  { intros id d0 c t d Hc (k' & Hk' & Hin). simpl in Hk'. destruct (decide (t = k_tx c)) as [->|Ht].
    - rewrite lookup_alter_eq in Hk'. destruct (tasks s !! k_tx c) as [k|] eqn:E; [|done]. injection Hk' as <-. simpl in Hin.
      apply elem_of_app in Hin as [Hin|Hin%list_elem_of_singleton]; [left; exists k; auto|by right].
    - rewrite lookup_alter_ne in Hk' by done. left. by exists k'. }
  assert (Hto : forall id d0, (forall e, e ∈ fx (to_client id d0) s -> match e with Wire _ _ => False | _ => True end) /\
    forall t d, command d = true -> queued (st (to_client id d0) s) t d -> queued s t d \/ exists c, clients s !! id = Some c /\ t = k_tx c /\ d = d0).
  { intros id d0. unfold to_client, fx, st. rewrite run_gets_bind. destruct (clients s !! id) as [c|] eqn:E; simpl; (split; [by intros e ?%not_elem_of_nil|]).
    - intros t d _ Hq. destruct (Hpush _ _ _ _ _ E Hq) as [?|[-> ->]]; eauto.
    - auto. }
  assert (Hrow : forall id d0, (forall e, e ∈ fx (to_client id d0) s -> match e with Wire _ _ => False | _ => True end) /\
    forall t d, command d = true -> queued (st (to_client id d0) s) t d -> queued s t d \/ exists id', (fun c => (id, k_tx c, d0)) <$> clients s !! id = Some (id', t, d)).
  { intros id d0. destruct (Hto id d0) as [Hf Hq]. split; [done|]. intros t d Hd Hin. destruct (Hq t d Hd Hin) as [?|(c & -> & -> & ->)]; [by left|right; by eexists]. }
  destruct u; cbn [user_act asks]; try apply Hrow.
  - unfold authorize, fx, st. rewrite run_gets_bind. destruct (clients s !! id) as [c|] eqn:E; simpl; (split; [by intros e ?%not_elem_of_nil|]); [|auto].
    intros t d _ Hq. destruct (Hpush _ _ _ _ _ E Hq) as [?|[-> ->]]; eauto.
  - split; [by intros e ?%not_elem_of_nil|]. auto.
  - unfold switch_permission. destruct e_perm_change_allowed; simpl; [apply Hrow|]. split; [by intros e ?%not_elem_of_nil|]. auto.
  - split; [by intros e ->%list_elem_of_singleton|]. auto.
Qed.

Lemma step_queues ev s : s = s0 -> (forall t d, Wire t (F_Data d) ∈ fx (cm_step ev) s -> command d = true -> queued s t d) /\
  forall t d, command d = true -> queued (st (cm_step ev) s) t d -> queued s t d \/ exists u id, ev = User u /\ asks s u = Some (id, t, d).
Proof.
  intros Es. destruct ev as [|t e|u]; cbn [cm_step].
  - split; [by intros t d ?%not_elem_of_nil|]. intros t d Hd (k & Hk & Hin). left. simpl in Hk. destruct (decide (t = spawned s)) as [->|Ht].
    + rewrite lookup_insert_eq in Hk. injection Hk as <-. by apply not_elem_of_nil in Hin.
    + rewrite lookup_insert_ne in Hk by done. by exists k.
  - unfold fx, st. rewrite run_gets_bind. destruct (tasks s !! t); [|split; [by intros t' d ?%not_elem_of_nil|auto]].
    subst s. destruct (obedient_task t e) as [Hn Hf]. split; [|intros t' d Hd Hq; left; by apply Hn].
    intros t' d Hin Hd. rewrite Forall_forall in Hf. by apply (Hf _ Hin).
  - destruct (user_queues u s) as [Hf Hq]. split; [by intros t d ?%Hf|]. intros t d Hd Hin. destruct (Hq t d Hd Hin) as [?|[id E]]; eauto.
Qed.
End Commands.

(** A command in a queue or on the wire was asked for. *)
Definition asked {Rest} `{!FsLib Rest} (evs : list (CmEnv Rest * CmEvent)) (s : Cm Rest) (t : nat) (d : Data) : Prop :=
  exists evs1 env u evs2 id, evs = evs1 ++ (env, User u) :: evs2 /\ @asks Rest env (st (cm_run evs1) s) u = Some (id, t, d).

Lemma cm_run_commands {Rest} `{!FsLib Rest} (evs : list (CmEnv Rest * CmEvent)) : forall s t d, command d = true ->
  (Wire t (F_Data d) ∈ fx (cm_run evs) s \/ queued (st (cm_run evs) s) t d) -> queued s t d \/ asked evs s t d.
Proof.
  induction evs as [|[env ev] r IH]; intros s t d Hd Hor.
  { destruct Hor as [?%not_elem_of_nil|?]; [done|by left]. }
  cbn [cm_run] in Hor. rewrite fx_bind, st_bind, elem_of_app in Hor.
  destruct (step_queues s ev s eq_refl) as [Hw Hq].
  assert (Hr : Wire t (F_Data d) ∈ fx (cm_step ev) s \/ (queued (st (cm_step ev) s) t d \/ asked r (st (cm_step ev) s) t d)).
  { destruct Hor as [[?|?]|?]; [by left|right; apply IH; auto|right; apply IH; auto]. }
  destruct Hr as [?|[Hin|Ha]]; [left; by apply Hw| |].
  - destruct (Hq t d Hd Hin) as [?|(u & id & -> & E)]; [by left|right]. exists [], env, u, r, id. split; [done|]. exact E.
  - right. destruct Ha as (evs1 & env' & u & evs2 & id & -> & E). exists ((env, ev) :: evs1), env', u, evs2, id. split; [done|].
    cbn [cm_run]. rewrite st_bind. exact E.
Qed.

(** ** What is written to files *)

(** What the code relies on: [set_files] accepts only lists it holds safe, the
    other methods leave the list alone, and jobs are found by their id. *)
Class JobLaws (Rest : Type) `{!FsLib Rest} (Safe : Job Rest -> Prop) := {
  set_files_safe files j j' : set_files files j = Ok j' -> Safe j';
  safe_fields (j : Job Rest) n c : Safe j -> Safe (j <| j_total_size := n |> <| j_conn_id := c |>);
  set_digest_safe a b j : Safe j -> Safe (set_digest a b j);
  confirm_safe r j : Safe j -> Safe (confirm r j);
  get_job_found id l i : get_job id l = Some i -> exists j, l !! i = Some j /\ j_id j = id;
  remove_job_found id l j rest : remove_job id l = Some (j, rest) -> j_id j = id /\ l ≡ₚ j :: rest;
  remove_job_none id l : remove_job id l = None -> id ∉ (j_id <$> l);
}.
Class EnvLaws {Rest : Type} `{!FsLib Rest} (Safe : Job Rest -> Prop) (env : CmEnv Rest) := {
  write_safe j b : Safe j -> Safe (e_write j b).2;
  init_stream_id (j : Job Rest) : j_id (e_init_stream j).2 = j_id j;
  read_id (j : Job Rest) : j_id (e_read j).2 = j_id j;
}.

Section Writes.
Context {Rest : Type} `{!FsLib Rest} (Safe : Job Rest -> Prop) `{!JobLaws Rest Safe}.

Definition all_safe (s : Cm Rest) : Prop := forall t k, tasks s !! t = Some k -> Forall Safe (t_write_jobs k).
Definition keeps_safe (s s' : Cm Rest) : Prop := all_safe s -> all_safe s'.
#[local] Instance keeps_safe_preorder : PreOrder keeps_safe.
Proof. split; [by intros s H|]. intros s1 s2 s3 H1 H2 H. auto. Qed.

Definition safe_fx (e : Fx Rest) : Prop :=
  match e with File_write _ j _ | File_remove_download j | File_modify_time j => Safe j | _ => True end.

Abbreviation safely := (obeys keeps_safe safe_fx).

Lemma safely_mod t f s : (forall k, Forall Safe (t_write_jobs k) -> Forall Safe (t_write_jobs (f k))) -> safely s (mod_task t f).
Proof.
  intros Hf. apply obeys_modify. intros Hs u k. simpl. destruct (decide (u = t)) as [->|Hu].
  - rewrite lookup_alter_eq. destruct (tasks s !! t) as [k0|] eqn:E; [|done]. intros [= <-]. apply Hf. by apply (Hs t).
  - rewrite lookup_alter_ne by done. apply Hs.
Qed.
Lemma safely_tx t d s : safely s (tx_send t d).
Proof. by apply (safely_mod t (fun k => k <| t_rx ::= fun q => q ++ [d] |>)). Qed.
Lemma safely_raw t r s : safely s (send_raw t r).
Proof. unfold send_raw. destruct (write_reply r); [apply safely_tx|apply obeys_ret; exact _]. Qed.
Lemma safely_modify f s : (forall s : Cm Rest, tasks (f s) = tasks s) -> safely s (modify f).
Proof. intros Hf. apply obeys_modify. intros Hs u k. rewrite Hf. apply Hs. Qed.

Ltac safe_steps :=
  repeat match goal with
  | |- obeys _ _ _ (get_task _ _ _ ≫= _) => unfold get_task at 1; apply obeys_gets_bind; [exact _|]; cbn beta
  | |- obeys _ _ _ (gets _ ≫= _) => apply obeys_gets_bind; [exact _|]; cbn beta
  | |- obeys _ _ _ (_ ≫= _) => apply obeys_seq; [exact _| |intros ? ? ?]
  | |- obeys _ _ _ (mret _) => apply obeys_ret; exact _
  | |- obeys _ _ _ skip => apply obeys_ret; exact _
  | |- obeys _ _ _ (emit _) => apply obeys_emit; [exact _|try done]
  | |- obeys _ _ _ (tx_send _ _) => apply safely_tx
  | |- obeys _ _ _ (send_raw _ _) => apply safely_raw
  | |- obeys _ _ _ (mod_task _ _) => apply safely_mod; try done
  | |- obeys _ _ _ (modify _) => by apply safely_modify
  | |- obeys _ _ _ (when _ _) => apply obeys_when; [exact _|intros _]
  | |- obeys _ _ _ (log_jobs _) => apply obeys_emit; [exact _|done]
  | |- obeys _ _ _ (if ?b then _ else _) => destruct b
  | |- obeys _ _ _ (match ?x with _ => _ end) => destruct x eqn:?
  end.

Lemma task_jobs_safe s t : all_safe s -> Forall Safe (from_option t_write_jobs [] (tasks s !! t)).
Proof. intros Hs. destruct (tasks s !! t) as [k|] eqn:E; [by apply (Hs t)|constructor]. Qed.

Lemma find_job_safe id l i j : Forall Safe l -> find_job id l = Some (i, j) -> Safe j.
Proof.
  intros Hl. unfold find_job. destruct (get_job id l) as [i'|]; [|done]. simpl. destruct (l !! i') as [j'|] eqn:E; [|done]. simpl.
  intros [= <- <-]. by eapply Forall_lookup_1.
Qed.

Lemma take_write_safe t id s : all_safe s -> safely s (take_write_job t id) /\ match res (take_write_job t id) s with Some j => Safe j | None => True end.
Proof.
  intros Hs. unfold take_write_job, get_task. pose proof (task_jobs_safe s t Hs) as Hl. set (l := from_option t_write_jobs [] (tasks s !! t)) in *. split.
  - apply obeys_gets_bind; [exact _|]. fold l. destruct (remove_job id l) as [[j rest]|] eqn:E; [|safe_steps].
    apply remove_job_found in E as [_ E]. rewrite E in Hl. apply Forall_cons in Hl as [_ Hl]. safe_steps.
  - rewrite res_bind. unfold res at 2, st at 1. simpl. fold l. destruct (remove_job id l) as [[j rest]|] eqn:E; [|done].
    apply remove_job_found in E as [_ E]. rewrite E in Hl. apply Forall_cons in Hl as [Hj _]. exact Hj.
Qed.

Lemma safely_taken t id s (k : option (Job Rest) -> M (Cm Rest) (Fx Rest) unit) : all_safe s ->
  (forall r s', match r with Some j => Safe j | None => True end -> safely s' (k r)) -> safely s (r ← take_write_job t id; k r).
Proof. intros Hs Hk. destruct (take_write_safe t id s Hs) as [Ht Hr]. apply obeys_bind; [exact _|done|]. intros _. by apply Hk. Qed.

Lemma safely_put t i j s : Safe j -> safely s (put_write_job t i j).
Proof. intros Hj. unfold put_write_job. apply safely_mod. intros k Hk. simpl. by apply Forall_insert. Qed.

Context `{env : !CmEnv Rest, !EnvLaws Safe env}.

Lemma handle_fs_safe t fs s : all_safe s -> safely s (handle_fs t fs).
Proof.
  intros Hs. pose proof (task_jobs_safe s t Hs) as Hl.
  destruct fs; cbn [handle_fs]; unfold read_empty_dirs, read_dir, remove_dir, remove_file, create_dir, rename_file, handle_result,
    start_read_job, read_all_files, log_send, put_read_job, take_read_job; try by safe_steps.
  - destruct (set_files _ _) as [j|] eqn:E; [|safe_steps]. apply safely_mod. intros k Hk. simpl. apply Forall_app. split; [done|].
    repeat constructor. apply (safe_fields j). by eapply set_files_safe.
  - apply safely_taken; [done|]. intros [j|] s' Hj; by safe_steps.
  - unfold get_task. apply obeys_gets_bind; [exact _|]. destruct (find_job _ _) as [[i j]|] eqn:E; [|safe_steps].
    apply (find_job_safe _ _ _ _ Hl) in E. safe_steps. apply safely_put. replace j0 with (e_write j (MkBlock id file_num data compressed)).2 by (by rewrite Heqp).
    by apply write_safe.
  - apply safely_taken; [done|]. intros [j|] s' Hj; by safe_steps.
  - apply safely_taken; [done|]. intros [j|] s' Hj; by safe_steps.
  - unfold check_digest, get_task. apply obeys_gets_bind; [exact _|]. destruct (find_job _ _) as [[i j]|] eqn:E; [|safe_steps].
    apply (find_job_safe _ _ _ _ Hl) in E. safe_steps; by apply safely_put, set_digest_safe.
  - destruct (parse_confirm _) as [r|]; [|safe_steps]. unfold get_task. apply obeys_gets_bind; [exact _|].
    destruct (find_job _ _) as [[i j]|] eqn:E; [|safe_steps]. apply (find_job_safe _ _ _ _ Hl) in E. by apply safely_put, confirm_safe.
Qed.

Lemma safely_read_tick t c s : safely s (handle_read_jobs_tick t c).
Proof.
  unfold handle_read_jobs_tick. unfold get_task at 1. apply obeys_gets_bind; [exact _|]. apply obeys_seq; [exact _| |intros s' [? ?] _; safe_steps].
  generalize (from_option t_read_jobs [] (tasks s !! t)) as jobs. intros jobs. revert s.
  induction jobs as [|j r IH]; intros s; cbn [tick_jobs]; unfold init_read_job_for_cm, read_one; repeat first [apply IH | progress safe_steps].
Qed.

Lemma cm_step_safe ev s : all_safe s -> safely s (cm_step ev).
Proof.
  intros Hs. destruct ev as [|t e|u]; cbn [cm_step].
  - apply obeys_modify. intros _ t k. simpl. destruct (decide (t = spawned s)) as [->|Ht].
    + rewrite lookup_insert_eq. intros [= <-]. constructor.
    + rewrite lookup_insert_ne by done. apply Hs.
  - apply obeys_gets_bind; [exact _|]. destruct (tasks s !! t); [|safe_steps]. unfold task_step. apply obeys_seq; [exact _| |].
    + destruct e as [[| |d raw]| | |]; cbn [run_turn]; [by safe_steps..| |unfold on_queue; by safe_steps|unfold on_log; by safe_steps|].
      * unfold on_data, get_task at 1. apply obeys_gets_bind; [exact _|]. cbn beta.
        destruct d; unfold voice_call_started, voice_call_incoming, voice_call_closed, set_voice_call, add_connection; try by safe_steps.
        apply obeys_bind; [exact _| |intros _; by safe_steps]. destruct f; try by apply handle_fs_safe. destruct raw; [by apply handle_fs_safe|safe_steps].
      * unfold on_timer. safe_steps. apply safely_read_tick.
    + intros s' b _. destruct b; [safe_steps|]. apply obeys_gets_bind; [exact _|]. destruct (tasks s' !! t) as [k|]; [|safe_steps].
      unfold remove_connection. destruct (t_running k); [safe_steps; constructor|]. safe_steps. apply obeys_modify. intros Hs' u k'. simpl.
      intros [_ Hu]%lookup_delete_Some. by apply (Hs' u).
  - destruct u; cbn [user_act]; unfold check_click_time, authorize, close, remove, send_chat, switch_permission, switch_back, handle_incoming_voice_call,
      close_voice_call, quit_cm, to_client; by safe_steps.
Qed.
End Writes.

(** ** One turn of the read jobs *)

Section ReadTick.
Context {Rest : Type} `{!FsLib Rest} (Safe : Job Rest -> Prop) `{!JobLaws Rest Safe} `{env : !CmEnv Rest, !EnvLaws Safe env}.

(** What was queued for task [t], and nothing else *)
Definition adds (t : nat) (msgs : list Data) (s s' : Cm Rest) : Prop :=
  s' = s <| tasks ::= alter (fun k => k <| t_rx ::= fun q => q ++ msgs |>) t |>.

Lemma adds_nil t s : adds t [] s s.
Proof.
  unfold adds. destruct s as [c k ts n]. simpl. f_equal. apply map_eq. intros u. destruct (decide (u = t)) as [->|Hu].
  - rewrite lookup_alter_eq. destruct (ts !! t) as [x|]; [|done]. simpl. rewrite app_nil_r. by destruct x.
  - by rewrite lookup_alter_ne.
Qed.
Lemma adds_app t l1 l2 s1 s2 s3 : adds t l1 s1 s2 -> adds t l2 s2 s3 -> adds t (l1 ++ l2) s1 s3.
Proof.
  unfold adds. intros -> ->. destruct s1 as [c k ts n]. simpl. f_equal. apply map_eq. intros u. destruct (decide (u = t)) as [->|Hu].
  - rewrite !lookup_alter_eq. destruct (ts !! t) as [x|]; [|done]. simpl. by rewrite app_assoc.
  - by rewrite !lookup_alter_ne.
Qed.
Lemma adds_tx t d s : adds t [d] s (st (tx_send t d) s).
Proof. done. Qed.

Lemma st_emit {A} (e : Fx Rest) (k : unit -> M (Cm Rest) (Fx Rest) A) s : st (emit e ≫= k) s = st (k tt) s.
Proof. by rewrite st_bind. Qed.
Lemma res_emit {A} (e : Fx Rest) (k : unit -> M (Cm Rest) (Fx Rest) A) s : res (emit e ≫= k) s = res (k tt) s.
Proof. by rewrite res_bind. Qed.

Lemma filter_agree {A} (P Q : A -> Prop) `{!forall x, Decision (P x), !forall x, Decision (Q x)} (l : list A) :
  (forall x, x ∈ l -> P x <-> Q x) -> filter P l = filter Q l.
Proof.
  induction l as [|x l IH]; intros Hl; [done|]. rewrite !filter_cons, IH by (intros y Hy; apply Hl; set_solver).
  specialize (Hl x ltac:(set_solver)). by repeat case_decide; tauto || done.
Qed.

(** The jobs a message says are over, and the blocks *)
Definition ended (d : Data) : option Z := match d with D_FileReadDone id _ _ | D_FileReadError id _ _ _ => Some id | _ => None end.
Definition blocks (msgs : list Data) : list Data := filter (fun d => is_block d = true) msgs.

(** What a loop over [jobs] did *)
Definition ticked (t : nat) (jobs : list (Job Rest)) (s : Cm Rest) (m : M (Cm Rest) (Fx Rest) (list (Job Rest) * list Z)) : Prop :=
  exists msgs, adds t msgs s (st m s) /\ j_id <$> (res m s).1 = j_id <$> jobs /\ omap ended msgs = (res m s).2
    /\ sublist (res m s).2 (j_id <$> jobs) /\ (length (blocks msgs) <= 1)%nat.

Lemma init_ticked t j c s : exists msgs, adds t msgs s (st (init_read_job_for_cm t j c) s) /\ omap ended msgs = [] /\ blocks msgs = []
  /\ j_id (res (init_read_job_for_cm t j c) s).2 = j_id j.
Proof.
  pose proof (init_stream_id j) as Hj. unfold init_read_job_for_cm. rewrite st_emit, res_emit.
  destruct (e_init_stream j) as [[[[a b]|]|e] j']; simpl in Hj |- *.
  - eexists. split; [apply adds_tx|]. by split_and!.
  - exists []. split; [apply adds_nil|]. by split_and!.
  - exists []. split; [apply adds_nil|]. by split_and!.
Qed.

Lemma read_one_ticked t j c s : exists msgs, adds t msgs s (st (read_one t j c) s) /\ j_id (res (read_one t j c) s).1 = j_id j
  /\ omap ended msgs = (if (res (read_one t j c) s).2 then [j_id j] else []) /\ (length (blocks msgs) <= 1)%nat.
Proof.
  pose proof (read_id j) as Hj. unfold read_one. rewrite st_emit, res_emit.
  destruct (e_read j) as [[[b|]|e] j']; simpl in Hj |- *.
  - eexists. split; [apply adds_tx|]. by split_and!.
  - destruct (job_completed j'); simpl.
    + eexists. split; [apply adds_tx|]. destruct (job_error j'); simpl; rewrite Hj; split_and!; try done; simpl; lia.
    + exists []. split; [apply adds_nil|]. split_and!; try done; simpl; lia.
  - eexists. split; [apply adds_tx|]. simpl. rewrite Hj. split_and!; try done; simpl; lia.
Qed.

Lemma tick_jobs_ticked t c jobs : forall s, ticked t jobs s (tick_jobs t c jobs).
Proof.
  induction jobs as [|j r IH]; intros s; cbn [tick_jobs].
  { exists []. split; [apply adds_nil|]. split_and!; try done; simpl; lia. }
  destruct (j_is_last_job j).
  { destruct (IH s) as (msgs & Ha & Hi & He & Hs & Hb). exists msgs. rewrite st_bind, res_bind. destruct (res (tick_jobs t c r) s) as [r' fin].
    split; [done|]. split_and!; [exact (f_equal (cons (j_id j)) Hi)|done|by constructor|done]. }
  destruct (init_ticked t j c s) as (m1 & A1 & E1 & B1 & I1). unfold ticked. rewrite st_bind, res_bind.
  set (s1 := st (init_read_job_for_cm t j c) s) in *. destruct (res (init_read_job_for_cm t j c) s) as [[[]|e] j1]; cbn [snd] in I1.
  - destruct (read_one_ticked t j1 c s1) as (m2 & A2 & I2 & E2 & B2). rewrite st_bind, res_bind. destruct (res (read_one t j1 c) s1) as [j2 fin].
    cbn [fst snd] in *. rewrite I1 in *. assert (Ef : (if fin then [j_id j2] else []) = (if fin then [j_id j] else [])) by (by rewrite I2).
    exists (m1 ++ m2). split; [by eapply adds_app|]. unfold blocks in *. rewrite omap_app, E1, E2, filter_app, B1.
    split_and!; [exact (f_equal2 cons I2 eq_refl)|by symmetry| |done].
    change (sublist (if fin then [j_id j2] else []) (j_id j :: fmap (M := list) j_id r)). rewrite Ef. destruct fin; [constructor|]; apply sublist_nil_l.
  - set (d := D_FileReadError (j_id j1) (j_file_num j1) e c). rewrite !st_bind, !res_bind. destruct (IH (st (tx_send t d) s1)) as (m2 & A2 & I2 & E2 & S2 & B2).
    destruct (res (tick_jobs t c r) (st (tx_send t d) s1)) as [r' fin]. cbn [fst snd] in *. exists (m1 ++ [d] ++ m2).
    split; [eapply adds_app; [exact A1|]; eapply adds_app; [apply adds_tx|exact A2]|]. unfold blocks in *.
    rewrite !omap_app, E1, E2, !filter_app, B1. split_and!; [exact (f_equal2 cons I1 I2)|done| |exact B2].
    change (sublist (j_id j1 :: fin) (j_id j :: fmap (M := list) j_id r)). rewrite I1. by constructor.
Qed.

(** Finished jobs are dropped, the others stay. *)
Lemma drop_jobs_spec finished : forall jobs, NoDup finished -> NoDup (j_id <$> jobs) ->
  j_id <$> drop_jobs finished jobs ≡ₚ filter (fun id => id ∉ finished) (j_id <$> jobs).
Proof.
  induction finished as [|id fin IH]; intros jobs Hf Hn; cbn [drop_jobs foldl].
  { assert (Hall : forall l : list Z, filter (fun id => id ∉ []) l = l)
      by (induction l as [|x l IHl]; [done|]; rewrite filter_cons_True by set_solver; by rewrite IHl). by rewrite Hall. }
  apply NoDup_cons in Hf as [Hid Hf]. fold (drop_jobs fin (from_option snd jobs (remove_job id jobs))).
  destruct (remove_job id jobs) as [[j rest]|] eqn:E; simpl.
  - apply remove_job_found in E as [Ej Ep]. assert (Ep' : j_id <$> jobs ≡ₚ id :: (j_id <$> rest)) by (rewrite Ep; simpl; by rewrite Ej).
    rewrite Ep' in Hn. apply NoDup_cons in Hn as [Hj Hn]. rewrite IH by done. rewrite Ep', filter_cons_False by set_solver.
    apply Permutation_refl', filter_agree. intros x Hx. set_solver.
  - apply remove_job_none in E. rewrite IH by done. apply Permutation_refl', filter_agree. intros x Hx. set_solver.
Qed.

Lemma st_gets {A B} (f : Cm Rest -> A) (k : A -> M (Cm Rest) (Fx Rest) B) s : st (gets f ≫= k) s = st (k (f s)) s.
Proof. unfold st. by rewrite run_gets_bind. Qed.
Lemma res_gets {A B} (f : Cm Rest -> A) (k : A -> M (Cm Rest) (Fx Rest) B) s : res (gets f ≫= k) s = res (k (f s)) s.
Proof. unfold res. by rewrite run_gets_bind. Qed.

Lemma read_tick_spec t c s k : tasks s !! t = Some k -> NoDup (j_id <$> t_read_jobs k) ->
  exists k' msgs, tasks (st (handle_read_jobs_tick t c) s) !! t = Some k' /\ t_rx k' = t_rx k ++ msgs /\ (length (blocks msgs) <= 1)%nat
    /\ sublist (omap ended msgs) (j_id <$> t_read_jobs k)
    /\ j_id <$> t_read_jobs k' ≡ₚ filter (fun id => id ∉ omap ended msgs) (j_id <$> t_read_jobs k).
Proof.
  intros Hk Hn. unfold handle_read_jobs_tick, get_task. rewrite st_gets, Hk. cbn [from_option]. rewrite st_bind.
  destruct (tick_jobs_ticked t c (t_read_jobs k) s) as (msgs & Ha & Hi & He & Hs & Hb). unfold adds in Ha. rewrite Ha.
  destruct (res (tick_jobs t c (t_read_jobs k)) s) as [jobs' fin]. cbn [fst snd] in *. subst fin.
  eexists _, msgs. split; [unfold mod_task, modify, st; simpl; rewrite !lookup_alter_eq, Hk; simpl; reflexivity|]. cbn [t_rx t_read_jobs].
  split_and!; [done..|]. rewrite drop_jobs_spec; [by rewrite Hi|by eapply sublist_NoDup|by rewrite Hi].
Qed.
End ReadTick.

(** ** Limits of listings *)

Section Limits.
Context {Rest : Type} `{!FsLib Rest} `{env : !CmEnv Rest}.

(** A successful listing that was queued: how many files it has *)
Lemma limit_checked n : check_file_count_limit n = Ok tt <-> n <= get_max_validated_files.
Proof. unfold check_file_count_limit. destruct (get_max_validated_files <? n) eqn:E; bools; split; try done; intros; lia. Qed.

(** What was not queued before is what is queued now. *)
Lemma queued_new t (s : Cm Rest) k d d' : tasks s !! t = Some k -> d' ∉ t_rx k -> queued (st (tx_send t d) s) t d' -> d' = d.
Proof.
  intros Hk Hn (k' & Hk' & Hin). simpl in Hk'. rewrite lookup_alter_eq, Hk in Hk'. injection Hk' as <-. simpl in Hin.
  apply elem_of_app in Hin as [?|Hin%list_elem_of_singleton]; done.
Qed.
End Limits.

(** ** A library and an environment for the witnesses

    Jobs are found by their position in the list; file names with a slash or a dot
    in front are refused. *)
Module SampleFs.

Definition name_ok (n : str) : bool := match n with [] => false | c :: _ => negb (c =? 46) && negb (existsb (fun c => c =? 47) n) end.

Definition index_of (id : Z) (l : list (Job unit)) : option nat := fst <$> list_find (fun j => j_id j = id) l.

#[global] Instance lib : FsLib unit := {|
  new_write := fun id path n _ => MkTJob unit id (Some path) n [] 0 0 false false tt;
  set_files := fun files j => if forallb (fun f => name_ok f.1) files then Ok (j <| j_files := (fun f => MkEntry f.1 0 f.2) <$> files |>) else Err (lit "unsafe");
  set_digest := fun _ _ j => j;
  confirm := fun _ j => j;
  job_completed := fun _ => true;
  job_error := fun _ => None;
  get_job := index_of;
  remove_job := fun id l => i ← index_of id l; j ← l !! i; Some (j, delete i l);
  join := fun p n => p ++ lit "/" ++ n;
  get_path := fun p => p;
  serialize_transfer_job := fun _ _ _ _ => [];
  serialize_transfer_jobs := fun _ => [];
  write_reply := fun _ => Some [];
  write_dir := fun _ => Ok [];
  parse_confirm := fun _ => None |}.

Definition Safe (j : Job unit) : Prop := forallb (fun f => name_ok (fe_name f)) (j_files j) = true.

#[global] Instance laws : JobLaws unit Safe.
Proof.
  split; unfold Safe; simpl; try done.
  - intros files j j'. destruct (forallb (fun f => name_ok f.1) files) eqn:E; [|done]. intros [= <-]. simpl. rewrite forallb_forall in *.
    intros x [y [<- Hy]]%in_map_iff. by apply E.
  - intros id l i. unfold index_of. destruct (list_find _ l) as [[i' j]|] eqn:E; [|done]. intros [= <-]. apply list_find_Some in E as (E & Ej & _). eauto.
  - intros id l j rest. unfold index_of. destruct (list_find _ l) as [[i' j']|] eqn:E; [|done]. simpl. apply list_find_Some in E as (E & Ej & _).
    rewrite E. simpl. intros [= <- <-]. split; [done|]. by apply delete_Permutation.
  - intros id l. unfold index_of. destruct (list_find _ l) as [[i' j']|] eqn:E; simpl.
    + apply list_find_Some in E as (E & Ej & _). by rewrite E.
    + intros _. apply list_find_None in E. rewrite list_elem_of_fmap. intros (j & -> & Hj). rewrite Forall_forall in E. by apply (E j).
Qed.

Definition env : CmEnv unit := {|
  e_max_files_option := []; e_perm_change_allowed := true; e_home := lit "/home/u";
  e_empty_dirs := fun _ _ => Ok (Ok []); e_read_dir := fun _ _ => Err []; e_get_files := fun _ _ => Ok (Ok []);
  e_remove_file := fun _ => Ok (Ok tt); e_create_dir := fun _ => Ok (Ok tt); e_rename_file := fun _ _ => Ok (Ok tt);
  e_remove_all_empty_dir := fun _ => Ok (Ok tt); e_remove_dir := fun _ => Ok (Ok tt); e_write := fun j _ => (Ok tt, j);
  e_need_confirmation := fun _ _ _ => Ok NoSuchFile;
  e_job_new_read := fun id path n _ _ => Ok (Ok (MkTJob unit id (Some path) n [] 0 0 false false tt));
  e_init_stream := fun j => (Ok None, j); e_read := fun j => (Ok None, j); e_sent := fun _ => true |}.

#[global] Instance env_laws : EnvLaws Safe env.
Proof. by split. Qed.

Definition login : CmLogin := MkCmLogin true false false [] (lit "peer") (lit "name") false false false false true false false false false.

(** A connection logs in, the user accepts it, and it asks for a file to be written. *)
Definition session : list (CmEnv unit * CmEvent) := (fun e => (env, e)) <$>
  [Accept; OfTask 0 (Te_stream (In_data (D_Login 7 login [] false) None)); User (U_authorize 7); OfTask 0 Te_queue;
   OfTask 0 (Te_stream (In_data (D_FS (Rq_NewWrite (lit "/tmp") 3 0 [(lit "a", 1)] false 1 7)) None));
   OfTask 0 (Te_stream (In_data (D_FS (Rq_WriteBlock 3 0 [] false)) (Some [1; 2])))].

End SampleFs.

Module ConnManagerClaims.

(** A row of the manager's table stands for the connection of its channel, and
    is marked as disconnected once the task of that channel is gone: without
    tasks no row is live. *)
Theorem live_rows_have_tasks {Rest} `{!FsLib Rest} (ids : nat -> Z) (evs : list (CmEnv Rest * CmEvent))
    (Hl : Forall (fun x => login_id ids x.2) evs) (id : Z) (c : Client) :
  let s := st (cm_run evs) cm_init in
  clients s !! id = Some c ->
  k_client_id c = id /\ id = ids (k_tx c) /\ k_in_voice_call c && k_incoming_voice_call c = false
  /\ (tasks s !! k_tx c = None -> k_disconnected c = true)
  /\ (k_disconnected c = false -> exists k, tasks s !! k_tx c = Some k /\ t_conn_id k = id).
Proof.
  intros s Hc. assert (Hs : table_ok ids s) by (apply cm_run_table; [done|]; by split). destruct (tb_rows _ _ Hs id c Hc) as [E1 E2 E3 E4].
  split_and!; [done..| |].
  - intros Ht. destruct (k_disconnected c); [done|]. destruct (E4 eq_refl) as (_ & k & Hk & _). congruence.
  - intros Hd. destruct (E4 Hd) as (_ & k & Hk & Ek). eauto.
Qed.

Lemma live_rows_have_tasks_witness :
  exists c, clients (st (cm_run SampleFs.session) cm_init) !! 7 = Some c /\ (k_disconnected c = false -> exists k, tasks (st (cm_run SampleFs.session) cm_init) !! k_tx c = Some k /\ t_conn_id k = 7).
Proof.
  destruct (clients (st (cm_run SampleFs.session) cm_init) !! 7) as [c|] eqn:E; [|by vm_compute in E].
  exists c. split; [done|].
  apply (live_rows_have_tasks (fun _ => 7) SampleFs.session ltac:(by repeat constructor) 7 c E).
Defined.

(** The manager sends a connection a command (accept, close, chat, change a
    permission, answer a call ...) only when the user asked for it in the row of
    that connection. *)
Theorem commands_come_from_the_user {Rest} `{!FsLib Rest} (ids : nat -> Z) (evs : list (CmEnv Rest * CmEvent))
    (Hl : Forall (fun x => login_id ids x.2) evs) (t : nat) (d : Data) :
  command d = true -> Wire t (F_Data d) ∈ fx (cm_run evs) cm_init ->
  exists evs1 env u evs2, evs = evs1 ++ (env, User u) :: evs2 /\ @asks Rest env (st (cm_run evs1) cm_init) u = Some (ids t, t, d).
Proof.
  intros Hd Hw. destruct (cm_run_commands evs cm_init t d Hd) as [(k & Hk & _)|(evs1 & env & u & evs2 & id & -> & E)]; [by left|done|].
  exists evs1, env, u, evs2. split; [done|]. rewrite E. do 3 f_equal. apply Forall_app in Hl as [Hl _].
  assert (Hs : table_ok ids (st (cm_run evs1) cm_init)) by (apply cm_run_table; [done|]; by split).
  unfold asks in E. destruct u; try done; try (destruct e_perm_change_allowed; [|done]);
    (destruct (clients _ !! _) as [c|] eqn:Ec; [|done]; simpl in E; simplify_eq; by destruct (tb_rows _ _ Hs _ _ Ec)).
Qed.

Lemma commands_come_from_the_user_witness :
  exists evs1 env u evs2, SampleFs.session = evs1 ++ (env, User u) :: evs2
    /\ @asks unit env (st (cm_run evs1) cm_init) u = Some (7, 0%nat, D_Authorize).
Proof.
  apply (commands_come_from_the_user (fun _ => 7) SampleFs.session ltac:(by repeat constructor) 0 D_Authorize eq_refl).
  vm_compute. repeat (constructor || right); fail.
Defined.

(** C18: What either end of the channel sends is what the other end handles, in
    order, with the data of blocks that travel beside their message put back;
    questions for the click time are answered by the connection's thread. *)
Theorem channel_round_trip (to_vec : Data -> bytes) (from_str : bytes -> option Data) (click : Z) (ds : list Data)
    (Hserde : Forall (reads_back to_vec from_str) ((ds ≫= to_cm) ++ (ds ≫= queue_frames))) :
  (Forall (fun d => is_block d = false) ds -> omap handled (cm_receive to_vec from_str (ds ≫= to_cm)) = ds)
  /\ from_cm to_vec from_str click (ds ≫= queue_frames)
     = (filter (fun d => is_click d = false) ds, (fun _ => F_Data (D_ClickTime click)) <$> filter (fun d => is_click d = true) ds).
Proof.
  apply Forall_app in Hserde as [H1 H2]. split; [intros Hb; by apply to_cm_received|by apply from_cm_received].
Qed.

Lemma channel_round_trip_witness :
  let to_vec d := match d with D_FS (Rq_WriteBlock id n data _) => [1; id; n; hd 0 data] | D_ClickTime ms => [2; ms] | _ => [3] end in
  let from_str b := match b with
                    | [1; id; n; 0] => Some (D_FS (Rq_WriteBlock id n [] false)) | [1; id; n; x] => Some (D_FS (Rq_WriteBlock id n [x] false))
                    | [2; ms] => Some (D_ClickTime ms) | [3] => Some D_Close | _ => None end in
  omap handled (cm_receive to_vec from_str ([D_FS (Rq_WriteBlock 1 0 [9] false); D_ClickTime 4; D_Close] ≫= to_cm))
  = [D_FS (Rq_WriteBlock 1 0 [9] false); D_ClickTime 4; D_Close].
Proof.
  intros to_vec from_str.
  apply (channel_round_trip to_vec from_str 0 [D_FS (Rq_WriteBlock 1 0 [9] false); D_ClickTime 4; D_Close]); by repeat constructor.
Defined.

(** C17: Every block is written to a job whose list of files was accepted. *)
Theorem only_accepted_jobs_are_written {Rest} `{!FsLib Rest} (Safe : Job Rest -> Prop) `{!JobLaws Rest Safe}
    (evs : list (CmEnv Rest * CmEvent)) (He : Forall (fun x => EnvLaws Safe x.1) evs) :
  Forall (safe_fx Safe) (fx (cm_run evs) cm_init).
Proof.
  assert (H : forall s, all_safe Safe s -> Forall (safe_fx Safe) (fx (cm_run evs) s)); [|apply H; by intros t k Hk].
  induction He as [|[env ev] r Henv _ IH]; intros s Hs; [constructor|]. cbn [cm_run]. rewrite fx_bind.
  destruct (cm_step_safe Safe ev s Hs) as [Hk Hf]. apply Forall_app. split; [done|]. apply IH. by apply Hk.
Qed.

Lemma only_accepted_jobs_are_written_witness :
  Forall (safe_fx SampleFs.Safe) (fx (cm_run SampleFs.session) cm_init).
Proof. apply (only_accepted_jobs_are_written SampleFs.Safe). repeat constructor; apply SampleFs.env_laws. Defined.

(** A turn of the read jobs sends at most one block, and the jobs it says are
    over are exactly those it drops, each once. *)
Theorem read_turn_accounts {Rest} `{!FsLib Rest} (Safe : Job Rest -> Prop) `{!JobLaws Rest Safe} `{env : !CmEnv Rest, !EnvLaws Safe env}
    (t : nat) (s : Cm Rest) (k : Task Rest) :
  tasks s !! t = Some k -> NoDup (j_id <$> t_read_jobs k) ->
  exists k' msgs, tasks (st (task_step t Te_timer) s) !! t = Some k' /\ t_rx k' = t_rx k ++ msgs /\ (length (blocks msgs) <= 1)%nat
    /\ NoDup (omap ended msgs) /\ omap ended msgs ⊆ (j_id <$> t_read_jobs k)
    /\ j_id <$> t_read_jobs k' ≡ₚ filter (fun id => id ∉ omap ended msgs) (j_id <$> t_read_jobs k).
Proof.
  intros Hk Hn.
  assert (E : st (task_step t Te_timer) s = st (on_timer t) s).
  { unfold task_step. cbn [run_turn]. rewrite st_bind. assert (Hr : res (on_timer t) s = true); [|by rewrite Hr].
    unfold on_timer, get_task. rewrite res_gets. destruct (from_option t_read_jobs [] (tasks s !! t)); [by rewrite res_bind|].
    by rewrite res_gets, res_bind, res_gets, res_bind. }
  rewrite E. unfold on_timer, get_task. rewrite st_gets, Hk. cbn [from_option]. destruct (t_read_jobs k) as [|j r] eqn:Ej.
  - exists (k <| t_fast := false |>), []. rewrite st_bind. unfold mod_task, modify, st. simpl. rewrite lookup_alter_eq, Hk, app_nil_r. simpl. rewrite Ej.
    split_and!; try done; first [simpl; lia | constructor].
  - rewrite st_gets, Hk. cbn [from_option]. rewrite st_bind, st_gets, st_bind.
    rewrite <- Ej in Hn |- *. destruct (read_tick_spec Safe t (t_conn_id k) s k Hk Hn) as (k' & msgs & H1 & H2 & H3 & H4 & H5).
    exists k', msgs. split_and!; [exact H1|done|done|by eapply sublist_NoDup|by apply sublist_subseteq|done].
Qed.

Lemma read_turn_accounts_witness :
  let s := MkCm unit ∅ 0 {[ 0%nat := MkTask unit [] true false 7 [MkTJob unit 3 None 0 [] 0 7 false false tt; MkTJob unit 4 None 0 [] 0 7 false false tt] [] [] true ]} 1 in
  exists k' msgs, tasks (st (@task_step unit _ SampleFs.env 0 Te_timer) s) !! 0%nat = Some k'
    /\ j_id <$> t_read_jobs k' ≡ₚ filter (fun id => id ∉ omap ended msgs) [3; 4] /\ (length (blocks msgs) <= 1)%nat.
Proof.
  intros s. destruct (read_turn_accounts SampleFs.Safe (env := SampleFs.env) 0 s _ eq_refl) as (k' & msgs & H1 & _ & H3 & _ & _ & H5).
  - apply (bool_decide_eq_true_1 (NoDup [3; 4])). vm_compute. reflexivity.
  - exists k', msgs. split; [exact H1|]. split; [exact H5|exact H3].
Defined.

(** A listing that is sent back has at most as many files as the limit, which is
    the option's number, 10000 for zero, and none if the option is no number. *)
Theorem listings_within_limit {Rest} `{!FsLib Rest} `{env : !CmEnv Rest} (t : nat) (s : Cm Rest) (k : Task Rest) (path : str)
    (include_hidden overwrite : bool) (id file_num conn_id : Z) (b : bytes) :
  tasks s !! t = Some k -> D_AllFilesResult id conn_id path (Ok b) ∉ t_rx k -> D_ReadJobInitResult id file_num include_hidden conn_id (Ok b) ∉ t_rx k ->
  (queued (st (read_all_files t path include_hidden id conn_id) s) t (D_AllFilesResult id conn_id path (Ok b)) ->
     exists files, e_get_files path include_hidden = Ok (Ok files) /\ Z.of_nat (length files) <= get_max_validated_files)
  /\ (queued (st (start_read_job t path file_num include_hidden id conn_id overwrite) s) t (D_ReadJobInitResult id file_num include_hidden conn_id (Ok b)) ->
     exists job, e_job_new_read id path file_num include_hidden overwrite = Ok (Ok job) /\ Z.of_nat (length (j_files job)) <= get_max_validated_files)
  /\ get_max_validated_files = match parse_u 64 (trim e_max_files_option) with Some n => if n =? 0 then 10000 else n | None => u_max 64 end.
Proof.
  intros Hk Ha Hr. split_and!.
  - unfold read_all_files. rewrite st_emit. intros Hq. apply (queued_new _ _ _ _ _ Hk Ha) in Hq. injection Hq as Hq.
    destruct (e_get_files path include_hidden) as [[files|]|]; try done. exists files. split; [done|].
    destruct (check_file_count_limit _) as [[]|] eqn:E; [|done]. by apply limit_checked.
  - unfold start_read_job. rewrite st_emit. destruct (e_job_new_read _ _ _ _ _) as [[job|]|]; try (by intros Hq; apply (queued_new _ _ _ _ _ Hk Hr) in Hq).
    destruct (check_file_count_limit _) as [[]|] eqn:E; [|by intros Hq; apply (queued_new _ _ _ _ _ Hk Hr) in Hq].
    intros _. exists job. split; [done|]. by apply limit_checked.
  - unfold get_max_validated_files, DEFAULT_MAX_VALIDATED_FILES. by destruct (parse_u 64 _).
Qed.

Lemma listings_within_limit_witness :
  let s := MkCm unit ∅ 0 {[ 0%nat := @enter_run unit new_task ]} 1 in
  exists files, @e_get_files unit SampleFs.env (lit "/") false = Ok (Ok files) /\ Z.of_nat (length files) <= @get_max_validated_files unit SampleFs.env.
Proof.
  intros s. destruct (@listings_within_limit unit _ SampleFs.env 0 s _ (lit "/") false false 1 0 7 [] eq_refl) as [H _].
  - apply not_elem_of_nil.
  - apply not_elem_of_nil.
  - apply H. eexists. split; [vm_compute; reflexivity|]. vm_compute. left.
Defined.

End ConnManagerClaims.
