(* ===== verification/ConnFiles.v ===== *)
(** * Whose request the connection manager serves

    Every file operation of the manager ([ConnManager]) goes back to requests that
    arrived on the channel of the task that performs it: a directory is listed, a
    file removed or renamed because this very path was asked for, and a block is
    written into a job that the same channel opened under that number and path. *)
From stdpp Require Import base gmap list strings.
From Stdlib Require Import ZArith Lia.
From S2P Require Import Prelude RustStr Effects Message ConnState Connection ConnManager.

#[local] Open Scope Z_scope.

(** The library's functions keep a job's number and its path.  [set_files], the
    digest and a confirmation change what is transferred; writing and reading
    change the open file and the position. *)
Definition same_job {Rest} (j j' : Job Rest) : Prop := j_id j' = j_id j /\ j_source j' = j_source j.

Class OriginLaws (Rest : Type) `{!FsLib Rest} := {
  origin_new id path n o : j_id (new_write id path n o) = id /\ j_source (new_write id path n o) = Some path;
  origin_files files (j j' : Job Rest) : set_files files j = Ok j' -> same_job j j';
  origin_digest a b (j : Job Rest) : same_job j (set_digest a b j);
  origin_confirm r (j : Job Rest) : same_job j (confirm r j);
  origin_get id (l : list (Job Rest)) i j : get_job id l = Some i -> l !! i = Some j -> j_id j = id;
  origin_remove id (l rest : list (Job Rest)) j : remove_job id l = Some (j, rest) -> j_id j = id /\ l ≡ₚ j :: rest;
}.
Class EnvOrigin {Rest : Type} (env : CmEnv Rest) := {
  origin_write (j : Job Rest) b : same_job j (e_write j b).2;
  origin_open (j : Job Rest) : same_job j (e_init_stream j).2;
  origin_read (j : Job Rest) : same_job j (e_read j).2;
  origin_new_read id path n h o (j : Job Rest) : e_job_new_read id path n h o = Ok (Ok j) -> j_id j = id /\ j_source j = Some path;
}.

(** ** What justifies an operation *)

Section Justified.
Context {Rest : Type} `{!FsLib Rest} (asked : Request -> Prop).

(** A job was opened by a request for its number and path. *)
Definition write_origin (j : Job Rest) : Prop :=
  exists path n files o total c, asked (Rq_NewWrite path (j_id j) n files o total c) /\ j_source j = Some path.
Definition read_origin (j : Job Rest) : Prop :=
  exists path n h c o, asked (Rq_ReadFile path (j_id j) n h c o) /\ j_source j = Some path.

Definition listing_asked `{!CmEnv Rest} (path : str) : Prop :=
  (exists h, asked (Rq_ReadEmptyDirs path h))
  \/ (exists dir h, asked (Rq_ReadDir dir h) /\ path = match dir with [] => e_home | _ => get_path dir end)
  \/ (exists id n h c o, asked (Rq_ReadFile path id n h c o))
  \/ (exists id h c, asked (Rq_ReadAllFiles path id h c)).

(** The operation [e] of task [t] is one that was asked for. *)
Definition justified `{!CmEnv Rest} (t : nat) (e : Fx Rest) : Prop :=
  match e with
  | File_list path => listing_asked path
  | File_remove path => exists id n, asked (Rq_RemoveFile path id n)
  | File_create_dir path => exists id, asked (Rq_CreateDir path id)
  | File_rename path new_name => exists id, asked (Rq_Rename id path new_name)
  | File_remove_dir path r => exists dir id, asked (Rq_RemoveDir dir id r) /\ path = get_path dir
  | File_write u j b =>
    u = t /\ write_origin j /\ b_id b = j_id j /\ asked (Rq_WriteBlock (b_id b) (b_file_num b) (b_data b) (b_compressed b))
  | File_remove_download j => write_origin j /\ asked (Rq_CancelWrite (j_id j))
  | File_modify_time j => write_origin j /\ exists n, asked (Rq_WriteDone (j_id j) n)
  | File_digest path =>
    exists j p name n sz m u r, write_origin j /\ j_source j = Some p /\ path = join p name /\ asked (Rq_CheckDigest (j_id j) n sz m u r)
  | File_open j | File_read j => read_origin j
  | _ => True
  end.

Lemma write_origin_same j j' : same_job j j' -> write_origin j -> write_origin j'.
Proof. intros [Ei Es]. unfold write_origin. by rewrite Ei, Es. Qed.
Lemma read_origin_same j j' : same_job j j' -> read_origin j -> read_origin j'.
Proof. intros [Ei Es]. unfold read_origin. by rewrite Ei, Es. Qed.

Lemma justified_some `{!CmEnv Rest} t e : file_fx e -> justified t e -> exists f, asked f.
Proof.
  destruct e; simpl; try done; unfold listing_asked, write_origin, read_origin; intros _ Hj; naive_solver.
Qed.
End Justified.

Lemma justified_mono {Rest} `{!FsLib Rest, !CmEnv Rest} (P Q : Request -> Prop) t (e : Fx Rest) :
  (forall f, P f -> Q f) -> justified P t e -> justified Q t e.
Proof.
  intros Hpq. destruct e; simpl; try done; unfold listing_asked, write_origin, read_origin; naive_solver.
Qed.

(** ** The jobs of every task come from its own channel *)

Section Origin.
Context {Rest : Type} `{!FsLib Rest, !OriginLaws Rest} (asked : nat -> Request -> Prop).

Definition jobs_asked (t : nat) (k : Task Rest) : Prop :=
  Forall (write_origin (asked t)) (t_write_jobs k) /\ Forall (read_origin (asked t)) (t_read_jobs k).
Definition all_asked (s : Cm Rest) : Prop := forall t k, tasks s !! t = Some k -> jobs_asked t k.
Definition keeps_asked (s s' : Cm Rest) : Prop := all_asked s -> all_asked s'.
#[local] Instance keeps_asked_preorder : PreOrder keeps_asked.
Proof. split; [by intros s H|]. intros s1 s2 s3 H1 H2 H. auto. Qed.

Context `{env : !CmEnv Rest, !EnvOrigin env} (t : nat).
Abbreviation serves := (obeys keeps_asked (justified (asked t) t)).

Lemma serves_mod f s : (forall k, jobs_asked t k -> jobs_asked t (f k)) -> serves s (mod_task t f).
Proof.
  intros Hf. apply obeys_modify. intros Hs u k. simpl. destruct (decide (u = t)) as [->|Hu].
  - rewrite lookup_alter_eq. destruct (tasks s !! t) as [k0|] eqn:E; [|done]. intros [= <-]. by apply Hf, (Hs t).
  - rewrite lookup_alter_ne by done. apply Hs.
Qed.
Lemma serves_tx u d s : serves s (tx_send u d).
Proof.
  apply obeys_modify. intros Hs v k. simpl. destruct (decide (v = u)) as [->|Hv]; [|rewrite lookup_alter_ne by done; apply Hs].
  rewrite lookup_alter_eq. destruct (tasks s !! u) as [k0|] eqn:E; [|done]. intros [= <-]. by apply (Hs u k0).
Qed.
Lemma serves_raw r s : serves s (send_raw t r).
Proof. unfold send_raw. destruct (write_reply r); [apply serves_tx|apply obeys_ret; exact _]. Qed.
Lemma serves_modify f s : (forall s : Cm Rest, tasks (f s) = tasks s) -> serves s (modify f).
Proof. intros Hf. apply obeys_modify. intros Hs u k. rewrite Hf. apply Hs. Qed.

Ltac serve_steps :=
  repeat match goal with
  | |- obeys _ _ _ (get_task _ _ _ ≫= _) => unfold get_task at 1; apply obeys_gets_bind; [exact _|]; cbn beta
  | |- obeys _ _ _ (gets _ ≫= _) => apply obeys_gets_bind; [exact _|]; cbn beta
  | |- obeys _ _ _ (_ ≫= _) => apply obeys_seq; [exact _| |intros ? ? ?]
  | |- obeys _ _ _ (mret _) => apply obeys_ret; exact _
  | |- obeys _ _ _ skip => apply obeys_ret; exact _
  | |- obeys _ _ _ (emit _) => apply obeys_emit; [exact _|try done]
  | |- obeys _ _ _ (tx_send _ _) => apply serves_tx
  | |- obeys _ _ _ (send_raw _ _) => apply serves_raw
  | |- obeys _ _ _ (mod_task _ _) => apply serves_mod; try done
  | |- obeys _ _ _ (modify _) => by apply serves_modify
  | |- obeys _ _ _ (when _ _) => apply obeys_when; [exact _|intros _]
  | |- obeys _ _ _ (log_jobs _) => apply obeys_emit; [exact _|done]
  | |- obeys _ _ _ (if ?b then _ else _) => destruct b
  | |- obeys _ _ _ (match ?x with _ => _ end) => destruct x eqn:?
  end.

Lemma task_jobs_asked s : all_asked s -> Forall (write_origin (asked t)) (from_option t_write_jobs [] (tasks s !! t))
  /\ Forall (read_origin (asked t)) (from_option t_read_jobs [] (tasks s !! t)).
Proof. intros Hs. destruct (tasks s !! t) as [k|] eqn:E; [by apply (Hs t)|split; constructor]. Qed.

Lemma find_job_spec id l i j : find_job id l = Some (i, j) -> j ∈ l /\ j_id j = id.
Proof.
  unfold find_job. destruct (get_job id l) as [i'|] eqn:Eg; [|done]. simpl. destruct (l !! i') as [j'|] eqn:E; [|done]. simpl.
  intros [= <- <-]. split; [by eapply list_elem_of_lookup_2|by eapply origin_get].
Qed.

(** Taking a job out *)
Lemma serves_taken id s (k : option (Job Rest) -> M (Cm Rest) (Fx Rest) unit) : all_asked s ->
  (forall r s', match r with Some j => write_origin (asked t) j /\ j_id j = id | None => True end -> serves s' (k r)) ->
  serves s (r ← take_write_job t id; k r).
Proof.
  intros Hs Hk. destruct (task_jobs_asked s Hs) as [Hl _]. apply obeys_bind; [exact _| |intros _].
  - unfold take_write_job, get_task. apply obeys_gets_bind; [exact _|]. destruct (remove_job id _) as [[j rest]|] eqn:E; [|serve_steps].
    apply origin_remove in E as [_ E]. rewrite E in Hl. apply Forall_cons in Hl as [_ Hl]. serve_steps. intros k0 [_ Hr]. by split.
  - apply Hk. unfold take_write_job, get_task. unfold res. rewrite run_gets_bind. destruct (remove_job id _) as [[j rest]|] eqn:E; [|done].
    apply origin_remove in E as [Ei E]. rewrite E in Hl. apply Forall_cons in Hl as [Hj _]. by split.
Qed.

Lemma serves_put i j s : write_origin (asked t) j -> serves s (put_write_job t i j).
Proof. intros Hj. apply serves_mod. intros k [Hw Hr]. split; [by apply Forall_insert|done]. Qed.
Lemma serves_put_read i j s : read_origin (asked t) j -> serves s (put_read_job t i j).
Proof. intros Hj. apply serves_mod. intros k [Hw Hr]. split; [done|by apply Forall_insert]. Qed.

Lemma handle_fs_serves fs s : asked t fs -> all_asked s -> serves s (handle_fs t fs).
Proof.
  intros Ha Hs. destruct (task_jobs_asked s Hs) as [Hl Hlr]. rewrite Forall_forall in Hl, Hlr.
  destruct fs; cbn [handle_fs]; unfold read_empty_dirs, read_dir, remove_dir, remove_file, create_dir, rename_file, handle_result,
    read_all_files, log_send; try (by serve_steps; unfold justified, listing_asked; eauto 10).
  - destruct (set_files _ _) as [j|] eqn:E; [|serve_steps]. apply serves_mod. intros k [Hw Hr]. split; [|done]. apply Forall_app. split; [done|].
    apply origin_files in E as [Ei Es]. destruct (origin_new id path file_num overwrite_detection) as [Ni Ns].
    repeat constructor. unfold write_origin. simpl. rewrite Ei, Es, Ni, Ns. by eauto 10.
  - apply serves_taken; [done|]. intros [j|] s' Hj; [|by serve_steps]. destruct Hj as [Hj <-]. by serve_steps.
  - unfold get_task. apply obeys_gets_bind; [exact _|]. destruct (find_job _ _) as [[i j]|] eqn:E; [|serve_steps].
    apply find_job_spec in E as [E <-]. serve_steps; [simpl; auto|]. apply serves_put.
    pose proof (origin_write j (MkBlock (j_id j) file_num data compressed)) as Hj. rewrite Heqp in Hj. eapply write_origin_same; [exact Hj|auto].
  - apply serves_taken; [done|]. intros [j|] s' Hj; [|by serve_steps]. destruct Hj as [Hj <-]. serve_steps; split; eauto.
  - apply serves_taken; [done|]. intros [j|] s' Hj; by serve_steps.
  - unfold check_digest, get_task. apply obeys_gets_bind; [exact _|]. destruct (find_job _ _) as [[i j]|] eqn:E; [|serve_steps].
    apply find_job_spec in E as [E <-]. serve_steps; [|eapply serves_put, write_origin_same; [apply origin_digest|auto]].
    simpl. eexists j, _, _, _, _, _, _, _. split_and!; eauto.
  - destruct (parse_confirm _) as [r|]; [|serve_steps]. unfold get_task. apply obeys_gets_bind; [exact _|].
    destruct (find_job _ _) as [[i j]|] eqn:E; [|serve_steps]. apply find_job_spec in E as [E _].
    eapply serves_put, write_origin_same; [apply origin_confirm|auto].
  - unfold start_read_job. serve_steps; [unfold justified, listing_asked; eauto 10|]. apply origin_new_read in Heqr as [Ei Es].
    intros k [Hw Hr]. split; [done|]. apply Forall_app. split; [done|]. repeat constructor. unfold read_origin. simpl. rewrite Ei, Es. by eauto 10.
  - unfold take_read_job, get_task. apply obeys_seq; [exact _| |intros s' [j|] _; by serve_steps]. apply obeys_gets_bind; [exact _|].
    destruct (remove_job id _) as [[j rest]|] eqn:E; [|serve_steps]. apply origin_remove in E as [_ E].
    serve_steps. intros k [Hw _]. split; [done|]. apply Forall_forall. intros x Hx. apply Hlr. rewrite E. by right.
  - unfold get_task. apply obeys_gets_bind; [exact _|]. destruct (find_job _ _) as [[i j]|] eqn:E; [|serve_steps]. apply find_job_spec in E as [E _].
    eapply serves_put_read, read_origin_same; [apply origin_confirm|auto].
Qed.

(** *** Read jobs *)

Lemma init_read_serves job c s : read_origin (asked t) job ->
  serves s (init_read_job_for_cm t job c) /\ read_origin (asked t) (res (init_read_job_for_cm t job c) s).2.
Proof.
  intros Hj. pose proof (origin_open job) as Ho. unfold init_read_job_for_cm. split.
  - serve_steps.
  - rewrite res_bind. destruct (e_init_stream job) as [r job']. simpl in Ho. apply (read_origin_same _ _ _ Ho) in Hj.
    destruct r as [[[? ?]|]|]; done.
Qed.

Lemma read_one_serves job c s : read_origin (asked t) job ->
  serves s (read_one t job c) /\ read_origin (asked t) (res (read_one t job c) s).1.
Proof.
  intros Hj. pose proof (origin_read job) as Ho. unfold read_one. split.
  - serve_steps.
  - rewrite res_bind. destruct (e_read job) as [r job']. simpl in Ho. apply (read_origin_same _ _ _ Ho) in Hj.
    destruct r as [[?|]|]; [done| |done]. by destruct (job_completed job').
Qed.

Lemma tick_jobs_serves c jobs : Forall (read_origin (asked t)) jobs -> forall s,
  serves s (tick_jobs t c jobs) /\ Forall (read_origin (asked t)) (res (tick_jobs t c jobs) s).1.
Proof.
  induction 1 as [|job rest Hj Hr IH]; intros s; cbn [tick_jobs]; [split; [serve_steps|constructor]|].
  destruct (j_is_last_job job).
  - destruct (IH s) as [Hs Hl]. split; [apply obeys_bind; [exact _|done|]; intros _; destruct (res (tick_jobs t c rest) s); serve_steps|].
    rewrite res_bind. destruct (res (tick_jobs t c rest) s) as [l f]. by constructor.
  - destruct (init_read_serves job c s Hj) as [Hs Ho]. unfold obeys at 1. rewrite st_bind, fx_bind, res_bind.
    set (s1 := st (init_read_job_for_cm t job c) s) in *. destruct (res (init_read_job_for_cm t job c) s) as [r job1]. simpl in Ho.
    assert (Hk : serves s1 (match r with
        | Err err => _ ← tx_send t (D_FileReadError (j_id job1) (j_file_num job1) err c);
                     '(rest, finished) ← tick_jobs t c rest; mret (job1 :: rest, j_id job1 :: finished)
        | Ok _ => '(job, done) ← read_one t job1 c; mret (job :: rest, if (done : bool) then [j_id job] else [])
        end) /\ Forall (read_origin (asked t)) (res (match r with
        | Err err => _ ← tx_send t (D_FileReadError (j_id job1) (j_file_num job1) err c);
                     '(rest, finished) ← tick_jobs t c rest; mret (job1 :: rest, j_id job1 :: finished)
        | Ok _ => '(job, done) ← read_one t job1 c; mret (job :: rest, if (done : bool) then [j_id job] else [])
        end) s1).1).
    { destruct r as [u|err].
      - destruct (read_one_serves job1 c s1 Ho) as [H1 H2]. split; [apply obeys_bind; [exact _|done|]; intros _; destruct (res (read_one t job1 c) s1); serve_steps|].
        rewrite res_bind. destruct (res (read_one t job1 c) s1). by constructor.
      - split; [apply obeys_seq; [exact _|apply serves_tx|]; intros s2 _ _; apply obeys_seq; [exact _|apply IH|intros s3 [? ?] _; serve_steps]|].
        rewrite !res_bind. match goal with |- context [res (tick_jobs t c rest) ?s2] => destruct (IH s2) as [_ Hl]; destruct (res (tick_jobs t c rest) s2) end.
        by constructor. }
    destruct Hs as [Hs1 Hs2], Hk as [[Hk1 Hk2] Hk3]. split; [split; [by etransitivity|by apply Forall_app]|done].
Qed.

Lemma drop_jobs_asked finished jobs : Forall (read_origin (asked t)) jobs -> Forall (read_origin (asked t)) (drop_jobs finished jobs).
Proof.
  unfold drop_jobs. revert jobs. induction finished as [|id r IH]; intros jobs Hj; [done|]. simpl. apply IH.
  destruct (remove_job id jobs) as [[j rest]|] eqn:E; [|done]. apply origin_remove in E as [_ E]. rewrite E in Hj. by apply Forall_cons in Hj as [_ ?].
Qed.

Lemma read_tick_serves c s : all_asked s -> serves s (handle_read_jobs_tick t c).
Proof.
  intros Hs. destruct (task_jobs_asked s Hs) as [_ Hr]. unfold handle_read_jobs_tick. unfold get_task at 1. apply obeys_gets_bind; [exact _|].
  destruct (tick_jobs_serves c _ Hr s) as [H1 H2]. apply obeys_bind; [exact _|done|]. intros _.
  destruct (res (tick_jobs t c _) s) as [jobs finished]. apply serves_mod. intros k [Hw _]. split; [done|by apply drop_jobs_asked].
Qed.

(** *** Turns *)

Lemma on_data_serves d raw s : (forall f, handled (In_data d raw) = Some (D_FS f) -> asked t f) -> all_asked s -> serves s (on_data t d raw).
Proof.
  intros Ha Hs. unfold on_data, get_task at 1. apply obeys_gets_bind; [exact _|]. cbn beta.
  destruct d; unfold voice_call_started, voice_call_incoming, voice_call_closed, set_voice_call, add_connection; try by serve_steps.
  apply obeys_bind; [exact _| |intros _; by serve_steps].
  destruct f; try (by apply handle_fs_serves; [apply Ha|]). destruct raw; [|serve_steps]. by apply handle_fs_serves; [apply Ha|].
Qed.

Lemma run_turn_serves e s : (forall i f, e = Te_stream i -> handled i = Some (D_FS f) -> asked t f) -> all_asked s -> serves s (run_turn t e).
Proof.
  intros Ha Hs. destruct e as [[| |d raw]| | |]; cbn [run_turn]; [by serve_steps..| |unfold on_queue; by serve_steps|unfold on_log; by serve_steps|].
  - apply on_data_serves; [|done]. intros f Hf. by eapply Ha.
  - unfold on_timer. unfold get_task at 1. apply obeys_gets_bind; [exact _|]. destruct (from_option _ _ _); [serve_steps|].
    unfold get_task at 1. apply obeys_gets_bind; [exact _|]. apply obeys_seq; [exact _|by apply read_tick_serves|]. intros. by serve_steps.
Qed.

Lemma task_step_serves e s : (forall i f, e = Te_stream i -> handled i = Some (D_FS f) -> asked t f) -> all_asked s -> serves s (task_step t e).
Proof.
  intros Ha Hs. unfold task_step. apply obeys_seq; [exact _|by apply run_turn_serves|]. intros s' b _. destruct b; [serve_steps|].
  apply obeys_gets_bind; [exact _|]. destruct (tasks s' !! t) as [k|]; [|serve_steps]. unfold remove_connection.
  destruct (t_running k); [serve_steps; intros k0 [_ Hr]; by split|]. serve_steps. apply obeys_modify. intros Hs' u k'. simpl.
  intros [_ Hu]%lookup_delete_Some. by apply (Hs' u).
Qed.

Lemma user_serves u s : serves s (user_act u).
Proof.
  destruct u; cbn [user_act]; unfold check_click_time, authorize, close, remove, send_chat, switch_permission, switch_back,
    handle_incoming_voice_call, close_voice_call, quit_cm, to_client; by serve_steps.
Qed.
End Origin.

(** The user's commands touch no files. *)
Lemma user_no_files {Rest} `{!FsLib Rest, !CmEnv Rest} u (s : Cm Rest) : Forall (fun e => ~ file_fx e) (fx (user_act u) s).
Proof.
  assert (Hpre : PreOrder (fun _ _ : Cm Rest => True)) by (split; done).
  enough (obeys (fun _ _ => True) (fun e : Fx Rest => ~ file_fx e) s (user_act u)) as [_ H] by exact H.
  destruct u; cbn [user_act]; unfold check_click_time, authorize, close, remove, send_chat, switch_permission, switch_back,
    handle_incoming_voice_call, close_voice_call, quit_cm, to_client, tx_send; repeat first [obey_step|exact I|by intros []].
Qed.

(** ** The process *)

Section Process.
Context {Rest : Type} `{!FsLib Rest, !OriginLaws Rest}.

(** The requests that task [t] has read from its channel *)
Definition requested (evs : list (CmEnv Rest * CmEvent)) (t : nat) (f : Request) : Prop :=
  exists env i, (env, OfTask t (Te_stream i)) ∈ evs /\ handled i = Some (D_FS f).

Lemma cm_step_serves (asked : nat -> Request -> Prop) `{env : !CmEnv Rest, !EnvOrigin env} ev s :
  (forall t i f, ev = OfTask t (Te_stream i) -> handled i = Some (D_FS f) -> asked t f) -> all_asked asked s ->
  all_asked asked (st (cm_step ev) s) /\
  Forall (fun e => file_fx e -> exists t te, ev = OfTask t te /\ justified (asked t) t e) (fx (cm_step ev) s).
Proof.
  intros Ha Hs. destruct ev as [|t e|u]; cbn [cm_step].
  - split; [|constructor]. intros t k. simpl. destruct (decide (t = spawned s)) as [->|Ht].
    + rewrite lookup_insert_eq. intros [= <-]. split; constructor.
    + rewrite lookup_insert_ne by done. apply Hs.
  - unfold st, fx. rewrite run_gets_bind. destruct (tasks s !! t) as [k|]; [|by split; [|constructor]].
    destruct (task_step_serves asked t e s) as [Hk Hf]; [intros i f -> Hh; by eapply Ha|done|].
    split; [by apply Hk|]. eapply Forall_impl; [exact Hf|]. intros x Hx _. eauto.
  - destruct (user_serves asked 0 u s) as [Hk _]. split; [by apply Hk|].
    eapply Forall_impl; [apply user_no_files|]. intros x Hx Hf. by destruct Hx.
Qed.

Lemma cm_run_asked (asked : nat -> Request -> Prop) (evs : list (CmEnv Rest * CmEvent)) : Forall (fun x => EnvOrigin x.1) evs ->
  (forall t f, requested evs t f -> asked t f) -> forall s, all_asked asked s -> all_asked asked (st (cm_run evs) s).
Proof.
  induction 1 as [|[env ev] r He _ IH]; intros Ha s Hs; [done|]. cbn [cm_run]. rewrite st_bind. simpl in He. apply IH.
  - intros t f (env' & i & Hin & Hh). apply Ha. exists env', i. split; [by right|done].
  - destruct (cm_step_serves asked ev s) as [? _]; [|done..]. intros t i f -> Hh. apply Ha. exists env, i. split; [left|done].
Qed.

(** Whatever a task does to files, it was asked for on its own channel, up to
    that moment. *)
Lemma files_were_asked (evs : list (CmEnv Rest * CmEvent)) (env : CmEnv Rest) (ev : CmEvent) (e : Fx Rest) :
  Forall (fun x => EnvOrigin x.1) (evs ++ [(env, ev)]) -> e ∈ fx (cm_step ev) (st (cm_run evs) cm_init) -> file_fx e ->
  exists t te, ev = OfTask t te /\ justified (requested (evs ++ [(env, ev)]) t) t e.
Proof.
  intros He Hin Hf. apply Forall_app in He as [He [Hev _]%Forall_cons]. simpl in Hev.
  set (Q := requested (evs ++ [(env, ev)])).
  assert (Hs : all_asked Q (st (cm_run evs) cm_init)).
  { apply cm_run_asked; [done| |by intros t k]. intros t f (env' & i & Hi & Hh). exists env', i. split; [apply elem_of_app; by left|done]. }
  destruct (cm_step_serves Q ev (st (cm_run evs) cm_init)) as [_ Hall]; [|done|].
  - intros t i f -> Hh. exists env, i. split; [apply elem_of_app; right; by left|done].
  - rewrite Forall_forall in Hall. destruct (Hall e Hin Hf) as (t & te & E & Hj). eauto.
Qed.
End Process.

(** The laws hold of the sample library. *)
#[global] Instance sample_origin : OriginLaws unit.
Proof.
  split; try done.
  - intros files j j'. simpl. destruct (forallb _ files); [|done]. by intros [= <-].
  - intros id l i j Hi Hj. destruct (get_job_found (Safe := SampleFs.Safe) id l i Hi) as (j' & Hj' & <-). congruence.
  - intros id l rest j E. by apply (remove_job_found (Safe := SampleFs.Safe)) in E.
Qed.
#[global] Instance sample_env_origin : EnvOrigin SampleFs.env.
Proof. split; try done. by intros id path n h o j [= <-]. Qed.
