(* ===== verification/ConnAccept.v ===== *)
(** * A host connection and its manager together

    The connection ([ConnLoop]) and the manager's task for it ([ConnManager]) run in
    two processes and talk over one channel.  Here the two models are put together:
    the events a connection gets from its manager are what the task sent, and the
    requests a task serves are what the connection sent. *)
From stdpp Require Import base gmap list strings.
From Stdlib Require Import ZArith Lia.
From S2P Require Import Prelude RustStr Effects Message SessionScope Service ServerReg LoginFailure ConnState Connection ConnScope ConnLogin ConnLoop ConnSafety.
From S2P Require Import ConnLife ConnTrust ConnManager ConnFiles.

#[local] Open Scope Z_scope.

(** ** What a task sends *)

Section Wires.
Context {Rest : Type} `{!FsLib Rest}.

Definition wire_of (t : nat) (e : Fx Rest) : option Frame := match e with Wire u f => if bool_decide (u = t) then Some f else None | _ => None end.
Definition wired (t : nat) (l : list (Fx Rest)) : list Frame := omap (wire_of t) l.

Definition silent (e : Fx Rest) : Prop := match e with Wire _ _ => False | _ => True end.

Lemma silent_wired t l : Forall silent l -> wired t l = [].
Proof. induction 1 as [|e l He _ IH]; [done|]. unfold wired in *. csimpl. rewrite IH. by destruct e. Qed.

(** Tasks keep their [running] flag, and none starts. *)
Definition same_running (s s' : Cm Rest) : Prop := spawned s' = spawned s /\ forall u, t_running <$> tasks s' !! u = t_running <$> tasks s !! u.
#[local] Instance same_running_preorder : PreOrder same_running.
Proof. split; [done|]. intros s1 s2 s3 [E1 H1] [E2 H2]. split; [congruence|]. intros u. by rewrite H2, H1. Qed.

Abbreviation quietly := (obeys same_running silent).

Lemma quiet_frame {A} t s (m : M (Cm Rest) (Fx Rest) A) : obeys (frame t) file_fx s m -> quietly s m.
Proof.
  intros [[_ _ Es Ho Ht] Hf]. split.
  - split; [done|]. intros u. destruct (decide (u = t)) as [->|Hu]; [|by rewrite Ho]. destruct (tasks s !! t), (tasks (st m s) !! t); simpl in *; try done.
    by destruct Ht as (_ & _ & -> & _).
  - eapply Forall_impl; [exact Hf|]. intros e He. by destruct e.
Qed.

Lemma quiet_mod t f s : (forall k, t_running (f k) = t_running k) -> quietly s (mod_task t f).
Proof.
  intros Hf. apply obeys_modify. split; [done|]. intros u. simpl. destruct (decide (u = t)) as [->|Hu]; [|by rewrite lookup_alter_ne].
  rewrite lookup_alter_eq. destruct (tasks s !! t); simpl; congruence.
Qed.
Lemma quiet_modify f s : (forall s : Cm Rest, tasks (f s) = tasks s /\ spawned (f s) = spawned s) -> quietly s (modify f).
Proof. intros Hf. apply obeys_modify. destruct (Hf s) as [Et Es]. split; [done|]. intros u. by rewrite Et. Qed.

Context `{!CmEnv Rest}.

Ltac quiets :=
  repeat match goal with
  | |- obeys _ _ _ (get_task _ _ _ ≫= _) => unfold get_task at 1; apply obeys_gets_bind; [exact _|]; cbn beta
  | |- obeys _ _ _ (gets _ ≫= _) => apply obeys_gets_bind; [exact _|]; cbn beta
  | |- obeys _ _ _ (_ ≫= _) => apply obeys_seq; [exact _| |intros ? ? ?]
  | |- obeys _ _ _ (mret _) => apply obeys_ret; exact _
  | |- obeys _ _ _ skip => apply obeys_ret; exact _
  | |- obeys _ _ _ (emit _) => apply obeys_emit; [exact _|exact I]
  | |- obeys _ _ _ (tx_send _ _) => apply (quiet_mod _ (fun k => k <| t_rx ::= _ |>)); done
  | |- obeys _ _ _ (mod_task _ _) => apply quiet_mod; done
  | |- obeys _ _ _ (modify _) => by apply quiet_modify
  | |- obeys _ _ _ (when _ _) => apply obeys_when; [exact _|intros _]
  | |- obeys _ _ _ (handle_fs _ _) => eapply quiet_frame, handle_fs_frame
  | |- obeys _ _ _ (handle_read_jobs_tick _ _) => eapply quiet_frame, read_tick_frame
  | |- obeys _ _ _ (log_jobs _) => apply obeys_emit; [exact _|exact I]
  | |- obeys _ _ _ (if ?b then _ else _) => destruct b
  | |- obeys _ _ _ (match ?x with _ => _ end) => destruct x eqn:?
  end.

Lemma quiet_user u s : quietly s (user_act u).
Proof.
  destruct u; cbn [user_act]; unfold check_click_time, authorize, close, remove, send_chat, switch_permission, switch_back, handle_incoming_voice_call,
    close_voice_call, quit_cm, to_client; quiets.
Qed.

(** A turn that goes on keeps the flag; only a turn of the queue sends. *)
Lemma turn_data t d raw s : Forall silent (fx (on_data t d raw) s) /\ (res (on_data t d raw) s = true -> same_running s (st (on_data t d raw) s))
  /\ spawned (st (on_data t d raw) s) = spawned s
  /\ forall u, u <> t -> t_running <$> tasks (st (on_data t d raw) s) !! u = t_running <$> tasks s !! u.
Proof.
  assert (Hq : quietly s (on_data t d raw) -> Forall silent (fx (on_data t d raw) s) /\ (res (on_data t d raw) s = true -> same_running s (st (on_data t d raw) s))
    /\ spawned (st (on_data t d raw) s) = spawned s
    /\ forall u, u <> t -> t_running <$> tasks (st (on_data t d raw) s) !! u = t_running <$> tasks s !! u)
    by (intros [[Es Hr] Hf]; split_and!; try done; by intros u _).
  destruct d; try (apply Hq; unfold on_data, voice_call_started, voice_call_incoming, voice_call_closed, set_voice_call; by quiets).
  unfold on_data, get_task, add_connection, mod_task. split; [repeat constructor|]. split; [done|]. split; [done|]. intros u Hu.
  rewrite st_gets, !st_bind. unfold st, modify. simpl. by rewrite lookup_alter_ne.
Qed.

Definition whole (fs : list Frame) : Prop := exists ds, fs = ds ≫= queue_frames.
(** Only the first frame of a block was sent. *)
Definition broken (fs : list Frame) : Prop := exists id n c i, fs = [F_Data (D_FileBlockFromCM id n [] c i)].

Lemma wired_app t (l1 l2 : list (Fx Rest)) : wired t (l1 ++ l2) = wired t l1 ++ wired t l2.
Proof. apply omap_app. Qed.

Lemma wired_own t (fs : list Frame) : wired t (Wire t <$> fs) = fs.
Proof. unfold wired. induction fs as [|f fs IH]; [done|]. csimpl. rewrite bool_decide_true by done. by rewrite IH. Qed.
Lemma wired_other t u (fs : list Frame) : u <> t -> wired u (Wire t <$> fs) = [].
Proof. intros Hu. unfold wired. induction fs as [|f fs IH]; [done|]. csimpl. rewrite bool_decide_false by done. by rewrite IH. Qed.

Lemma whole_nil : whole [].
Proof. by exists []. Qed.
Lemma whole_one d : whole (queue_frames d).
Proof. exists [d]. simpl. by rewrite app_nil_r. Qed.

(** A turn: what it sends, and the flags after it *)
Record turned_ok (t : nat) (s : Cm Rest) (o : bool * Cm Rest * list (Fx Rest)) : Prop := {
  tn_others u : u <> t -> wired u o.2 = [];
  tn_wire : whole (wired t o.2) \/ (broken (wired t o.2) /\ o.1.1 = false /\ same_running s o.1.2);
  tn_running : o.1.1 = true -> same_running s o.1.2;
  tn_rest u : u <> t -> t_running <$> tasks o.1.2 !! u = t_running <$> tasks s !! u;
  tn_spawned : spawned o.1.2 = spawned s }.

Lemma turned_same t s b s' l : same_running s s' -> (forall u, u <> t -> wired u l = []) ->
  whole (wired t l) \/ (broken (wired t l) /\ b = false) -> turned_ok t s (b, s', l).
Proof.
  intros [Es Hr] Ho Hw. split; simpl; try done. destruct Hw as [?|[? ?]]; [by left|by right].
Qed.

Lemma quiet_turned t s (m : M (Cm Rest) (Fx Rest) bool) : quietly s m -> turned_ok t s (m s).
Proof.
  intros [Hr Hf]. unfold st, fx in *. destruct (m s) as [[b s'] l]. apply turned_same; [done| |].
  - intros u _. by apply silent_wired.
  - left. simpl in Hf. rewrite silent_wired by done. apply whole_nil.
Qed.

Lemma on_queue_run t s d q : from_option t_rx [] (tasks s !! t) = d :: q ->
  on_queue t s =
    let s1 := s <| tasks ::= alter (fun k => k <| t_rx := q |>) t |> in
    if negb (e_sent 0) then (false, s1, [])
    else if is_block d && negb (e_sent 1) then (false, s1, [Wire t (F_Data (skipped d))])
    else match d with
         | D_Authorize => (false, s1 <| tasks ::= alter (fun k => k <| t_running := true |>) t |>, [Wire t (F_Data D_Authorize)])
         | _ => (true, s1, Wire t <$> queue_frames d)
         end.
Proof.
  intros E. unfold on_queue, get_task. rewrite run_gets_bind, E. unfold mbind, M_bind, mod_task, modify.
  destruct d; simpl; destruct (e_sent 0); simpl; try done. by destruct (e_sent 1).
Qed.

Lemma queue_turned t s : turned_ok t s (on_queue t s).
Proof.
  destruct (from_option t_rx [] (tasks s !! t)) as [|d q] eqn:E.
  { unfold on_queue, get_task. rewrite run_gets_bind, E. split; try done. left. apply whole_nil. }
  rewrite (on_queue_run t s d q E). cbv zeta. set (s1 := s <| tasks ::= _ |>).
  assert (Hs1 : same_running s s1) by (apply (quiet_mod t (fun k => k <| t_rx := q |>) s); done).
  destruct (e_sent 0); simpl negb; cbv iota; [|apply turned_same; try done; left; apply whole_nil].
  destruct (is_block d && negb (e_sent 1)) eqn:Eb.
  { apply turned_same; [done|intros u Hu; by apply (wired_other t u [_])|]. right. split; [|done].
    change (broken (wired t (Wire t <$> [F_Data (skipped d)]))). rewrite wired_own. destruct d; try done. by eexists _, _, _, _. }
  assert (Hout : turned_ok t s (true, s1, Wire t <$> queue_frames d)).
  { apply turned_same; [done|intros u Hu; by apply wired_other|]. left. rewrite wired_own. apply whole_one. }
  destruct d; try exact Hout. split; try done; [intros u Hu; by apply (wired_other t u [_])| |].
  - left. change (whole (wired t (Wire t <$> [F_Data D_Authorize]))). rewrite wired_own. apply (whole_one D_Authorize).
  - intros u Hu. simpl. rewrite lookup_alter_ne by done. apply Hs1.
Qed.

Lemma run_turned t e s : turned_ok t s (run_turn t e s).
Proof.
  destruct e as [[| |d raw]| | |]; cbn [run_turn].
  1,2: by split; try done; left; apply whole_nil.
  - destruct (turn_data t d raw s) as (Hf & Hr & Hs & Ho). split; try done.
    + intros u _. by apply silent_wired.
    + left. fold (fx (on_data t d raw) s). rewrite silent_wired by done. apply whole_nil.
  - apply queue_turned.
  - apply quiet_turned. unfold on_log. by quiets.
  - apply quiet_turned. unfold on_timer. by quiets.
Qed.

(** Between turns no task has its flag set, and tasks are numbered as they start. *)
Definition idle (s : Cm Rest) : Prop := forall t k, tasks s !! t = Some k -> t_running k = false /\ (t < spawned s)%nat.

Record stepped (s s' : Cm Rest) (l : list (Fx Rest)) : Prop := {
  sp_idle : idle s';
  sp_gone t : tasks s !! t = None -> (t < spawned s)%nat -> tasks s' !! t = None /\ wired t l = [];
  sp_spawned : (spawned s <= spawned s')%nat;
  sp_wire t : whole (wired t l) \/ (broken (wired t l) /\ tasks s' !! t = None /\ (t < spawned s')%nat) }.

(** After a turn that broke out of the loop: [run] again, or the end of the task *)
Definition settle (t : nat) : M (Cm Rest) (Fx Rest) unit :=
  k ← gets (fun s => tasks s !! t);
  match k with
  | None => skip
  | Some k =>
    if t_running k then mod_task t enter_run
    else
      _ ← when (0 <? t_conn_id k) (remove_connection (t_conn_id k) (t_close k));
      modify (fun s => s <| tasks ::= delete t |>)
  end.

Lemma settle_spec t s : Forall silent (fx (settle t) s) /\ spawned (st (settle t) s) = spawned s
  /\ (forall u, u <> t -> tasks (st (settle t) s) !! u = tasks s !! u)
  /\ (tasks (st (settle t) s) !! t = None \/ exists k, tasks s !! t = Some k /\ t_running k = true /\ tasks (st (settle t) s) !! t = Some (enter_run k)).
Proof.
  unfold settle. rewrite st_gets. unfold fx. rewrite run_gets_bind. destruct (tasks s !! t) as [k|] eqn:E1; [|split_and!; try done; by left].
  destruct (t_running k) eqn:Ek.
  - split_and!; try done; [intros u Hne; simpl; by rewrite lookup_alter_ne|]. right. exists k. simpl. by rewrite lookup_alter_eq, E1.
  - fold (fx (_ ← when (0 <? t_conn_id k) (remove_connection (t_conn_id k) (t_close k)); modify (fun s => s <| tasks ::= delete t |>)) s).
    rewrite st_bind, fx_bind. destruct (0 <? t_conn_id k); cbn [when]; rewrite ?removed_state;
      (split_and!; [by repeat constructor|done|intros u Hne; simpl; by rewrite lookup_delete_ne|left; simpl; by rewrite lookup_delete_eq]).
Qed.

Lemma cm_step_stepped ev s : idle s -> stepped s (st (cm_step ev) s) (fx (cm_step ev) s).
Proof.
  intros Hi. destruct ev as [|t e|u]; cbn [cm_step].
  - split; unfold fx, st, wired; simpl; [|intros t Ht Hlt|lia|intros t; left; apply whole_nil].
    + intros t k. simpl. destruct (decide (t = spawned s)) as [->|Ht].
      * rewrite lookup_insert_eq. intros [= <-]. split; [done|lia].
      * rewrite lookup_insert_ne by done. intros Hk. destruct (Hi t k Hk). split; [done|lia].
    + rewrite lookup_insert_ne by lia. done.
  - rewrite st_gets. unfold fx. rewrite run_gets_bind. destruct (tasks s !! t) as [k0|] eqn:Et.
    2: { split; [done| |apply Nat.le_refl|intros u; left; apply whole_nil]. intros u Hu _. by split. }
    fold (fx (task_step t e) s). destruct (Hi t k0 Et) as [_ Hlt]. unfold task_step. rewrite st_bind, fx_bind.
    pose proof (run_turned t e s) as [Ho Hw Hr Hu Hs]. fold (fx (run_turn t e) s) in Ho, Hw. fold (res (run_turn t e) s) in Hw, Hr.
    fold (st (run_turn t e) s) in Hw, Hr, Hu, Hs. set (s1 := st (run_turn t e) s) in *.
    assert (Hgone : forall u, tasks s !! u = None -> tasks s1 !! u = None).
    { intros u Hn. specialize (Hu u). rewrite Hn in Hu. destruct (decide (u = t)) as [->|Hne]; [congruence|].
      specialize (Hu Hne). by destruct (tasks s1 !! u). }
    assert (Hidle : forall u k, u <> t -> tasks s1 !! u = Some k -> t_running k = false /\ (u < spawned s1)%nat).
    { intros u k Hne Hk. specialize (Hu u Hne). rewrite Hk in Hu. destruct (tasks s !! u) as [k1|] eqn:E1; [|done]. simpl in Hu.
      injection Hu as ->. rewrite Hs. by apply Hi. }
    destruct (res (run_turn t e) s) eqn:Er.
    + destruct Hw as [Hw|(_ & ? & _)]; [|done]. destruct (Hr eq_refl) as [_ Hr']. change (st skip s1) with s1.
      change (fx skip s1) with (@nil (Fx Rest)). rewrite app_nil_r. split.
      * intros u k Hk. destruct (decide (u = t)) as [->|Hne]; [|by apply Hidle]. specialize (Hr' t).
        rewrite Hk, Et in Hr'. injection Hr' as ->. rewrite Hs. by apply Hi.
      * intros u Hn _. split; [by apply Hgone|]. apply Ho. intros ->. congruence.
      * lia.
      * intros u. left. destruct (decide (u = t)) as [->|Hne]; [done|]. rewrite Ho by done. apply whole_nil.
    + fold (settle t). destruct (settle_spec t s1) as (Hl2 & Es2 & Ho2 & Ht2).
      set (s2 := st (settle t) s1) in *. set (l2 := fx (settle t) s1) in *. split; [| |lia|].
      * intros u k Hk. destruct (decide (u = t)) as [->|Hne].
        -- destruct Ht2 as [?|(k1 & _ & _ & E2)]; [congruence|]. rewrite E2 in Hk. injection Hk as <-. split; [done|lia].
        -- rewrite Ho2 in Hk by done. destruct (Hidle u k Hne Hk). split; [done|lia].
      * intros u Hn _. assert (u <> t) by congruence. rewrite Ho2, wired_app, Ho, silent_wired by done. split; [by apply Hgone|done].
      * intros u. rewrite wired_app, (silent_wired u l2), app_nil_r by done. destruct (decide (u = t)) as [->|Hne]; [|left; rewrite Ho by done; apply whole_nil].
        destruct Hw as [?|(Hb & _ & _ & Hsame)]; [by left|]. right. split; [done|]. split; [|lia].
        destruct Ht2 as [?|(k1 & Ek1 & Ek & _)]; [done|]. specialize (Hsame t). rewrite Ek1, Et in Hsame. simpl in Hsame. injection Hsame as Hsame.
        destruct (Hi t k0 Et). congruence.
  - destruct (quiet_user u s) as [[Es Hr] Hf]. split.
    + intros t k Hk. specialize (Hr t). rewrite Hk in Hr. destruct (tasks s !! t) as [k1|] eqn:E; [|done]. injection Hr as ->. rewrite Es. by apply Hi.
    + intros t Hn _. rewrite silent_wired by done. split; [|done]. specialize (Hr t). rewrite Hn in Hr. by destruct (tasks _ !! t).
    + lia.
    + intros t. left. rewrite silent_wired by done. apply whole_nil.
Qed.

Lemma whole_app f1 f2 : whole f1 -> whole f2 -> whole (f1 ++ f2).
Proof. intros [d1 ->] [d2 ->]. exists (d1 ++ d2). by rewrite bind_app. Qed.
End Wires.

(** What a task sent in a run: whole messages, and at its end perhaps the beginning
    of one. *)
Lemma cm_run_wires {Rest} `{!FsLib Rest} (evs : list (CmEnv Rest * CmEvent)) : forall s t, idle s ->
  idle (st (cm_run evs) s) /\ (tasks s !! t = None -> (t < spawned s)%nat -> wired t (fx (cm_run evs) s) = [])
  /\ exists f1 f2, wired t (fx (cm_run evs) s) = f1 ++ f2 /\ whole f1 /\ (f2 = [] \/ broken f2).
Proof.
  induction evs as [|[env ev] r IH]; intros s t Hi.
  { split; [done|]. split; [done|]. exists [], []. split; [done|]. split; [apply whole_nil|by left]. }
  cbn [cm_run]. rewrite st_bind, fx_bind, wired_app. destruct (cm_step_stepped ev s Hi) as [Hi' Hg Hs Hw].
  destruct (IH (st (cm_step ev) s) t Hi') as (Hi2 & Hg2 & f1 & f2 & E & H1 & H2). split; [done|]. split.
  - intros Hn Hlt. destruct (Hg t Hn Hlt) as [Hn' ->]. rewrite Hg2; [done..|lia].
  - destruct (Hw t) as [Hwh|(Hb & Hn & Hlt)].
    + exists (wired t (fx (cm_step ev) s) ++ f1), f2. rewrite E, app_assoc. split; [done|]. split; [by apply whole_app|done].
    + rewrite (Hg2 Hn Hlt), app_nil_r. exists [], (wired t (fx (cm_step ev) s)). split; [done|]. split; [apply whole_nil|by right].
Qed.

(** ** The connection's end *)

Section Link.
(** Decoders of parts the connection only takes from managers on other platforms *)
Context (name_of : str -> string) (parse_dir : bytes -> option (str * list FileEntry)) (parse_all : bytes -> result str (Z * str * list FileEntry)).

(** A message of the manager, as the connection's loop sees it *)
Definition of_data (d : Data) : FromCm :=
  match d with
  | D_Authorize => Fc_Authorize
  | D_Close => Fc_Close
  | D_ChatMessage text => Fc_ChatMessage text
  | D_SwitchPermission name enabled => Fc_SwitchPermission (name_of name) enabled
  | D_RawMessage b => Fc_RawMessage b
  | D_SwitchSidesBack => Fc_SwitchSidesBack
  | D_VoiceCallResponse accept => Fc_VoiceCallResponse accept
  | D_CloseVoiceCall _ => Fc_CloseVoiceCall
  | D_ReadJobInitResult id _ _ conn_id r => Fc_ReadJobInitResult id conn_id (match r with Ok b => Ok (parse_dir b) | Err e => Err e end)
  | D_FileBlockFromCM id n data c conn_id => Fc_FileBlockFromCM id n data c conn_id
  | D_FileReadDone id n conn_id => Fc_FileReadDone id n conn_id
  | D_FileReadError id n err conn_id => Fc_FileReadError id n err conn_id
  | D_FileDigestFromCM id n m sz r conn_id => Fc_FileDigestFromCM id n m sz r conn_id
  | D_AllFilesResult id conn_id path r => Fc_AllFilesResult id conn_id path (match r with Ok b => Ok (parse_all b) | Err e => Err e end)
  | _ => Fc_Other
  end.

(** An event of the connection that came over the channel; an error is its own
    thread's. *)
Definition cm_event (tk : Tick) : option FromCm :=
  match t_ev tk with Ev_Cm (Fc_CmErr _) => None | Ev_Cm d => Some d | _ => None end.

Context (to_vec : Data -> bytes) (from_str : bytes -> option Data) (click : Z).

Lemma received_whole ds f2 d : Forall (reads_back to_vec from_str) ((ds ≫= queue_frames) ++ f2) -> f2 = [] \/ broken f2 ->
  d ∈ (from_cm to_vec from_str click ((ds ≫= queue_frames) ++ f2)).1 -> d ∈ ds.
Proof.
  intros Hf H2. induction ds as [|d0 ds IH]; cbn [mbind list_bind] in *; [|fold (mbind (M := list) queue_frames ds) in *].
  { destruct H2 as [->|(id & n & c & i & ->)]; [by intros ?%not_elem_of_nil|]. simpl in Hf |- *. apply Forall_cons in Hf as [Hn _].
    unfold next, frame_bytes. simpl in Hn. rewrite Hn. simpl. by intros ?%not_elem_of_nil. }
  rewrite <- app_assoc in *. apply Forall_app in Hf as [H1 Hf]. specialize (IH Hf). intros Hin. rewrite elem_of_cons.
  assert (E : forall e fs, Forall (reads_back to_vec from_str) (F_Data e :: fs) -> next to_vec from_str (F_Data e) = Some (skipped e)) by (by intros e fs [Hn _]%Forall_cons).
  destruct d0; cbn [queue_frames app from_cm] in Hin, H1; rewrite (E _ _ H1) in Hin; cbn [skipped] in Hin;
    destruct (from_cm to_vec from_str click ((ds ≫= queue_frames) ++ f2)) as [ds' out]; cbn [fst frame_bytes] in *; rewrite ?elem_of_cons in Hin;
    try (destruct Hin as [->|Hin]; [by left|]); right; by apply IH.
Qed.

(** The events of the connection are what its thread received so far. *)
Definition linked {Rest} `{!FsLib Rest} (t : nat) (evs : list (CmEnv Rest * CmEvent)) (ts : list Tick) : Prop :=
  omap cm_event ts `prefix_of` (of_data <$> (from_cm to_vec from_str click (wired t (fx (cm_run evs) cm_init))).1).

Lemma accepted_over_channel {Rest} `{!FsLib Rest} t (evs : list (CmEnv Rest * CmEvent)) ts tk :
  Forall (reads_back to_vec from_str) (wired t (fx (cm_run evs) cm_init)) -> linked t evs ts ->
  tk ∈ ts -> t_ev tk = Ev_Cm Fc_Authorize -> Wire t (F_Data D_Authorize) ∈ fx (cm_run evs) cm_init.
Proof.
  intros Hs [l Hl] Hin Hev. assert (H1 : Fc_Authorize ∈ omap cm_event ts) by (apply list_elem_of_omap; exists tk; unfold cm_event; by rewrite Hev).
  assert (H2 : Fc_Authorize ∈ of_data <$> (from_cm to_vec from_str click (wired t (fx (cm_run evs) cm_init))).1) by (rewrite Hl; set_solver).
  apply list_elem_of_fmap in H2 as (d & Ed & Hd). assert (d = D_Authorize) as -> by (by destruct d).
  destruct (cm_run_wires evs cm_init t) as (_ & _ & f1 & f2 & E & [ds ->] & H2); [by intros u k|].
  rewrite E in Hs, Hd. pose proof (received_whole ds f2 _ Hs H2 Hd) as Hds.
  assert (Hw : F_Data D_Authorize ∈ wired t (fx (cm_run evs) cm_init)).
  { rewrite E. apply elem_of_app. left. apply list_elem_of_bind. exists D_Authorize. split; [left|done]. }
  apply list_elem_of_omap in Hw as (x & Hx & Hw). unfold wire_of in Hw. destruct x; try done. by case_bool_decide; simplify_eq.
Qed.
End Link.

(** ** Requests for files *)

Definition nofs (e : Effect) : Prop := match e with ToCm (Cm_FS _) => False | _ => True end.
Abbreviation plain := (obeys anything nofs).

Lemma preauth_nofs l : Forall preauth l -> Forall nofs l.
Proof. intros H. eapply Forall_impl; [exact H|]. intros e. destruct e; try done. by destruct d. Qed.

Ltac plain_leaf :=
  match goal with
  | |- anything _ _ => exact I
  | |- nofs _ => first [exact I | by repeat case_match]
  | |- Forall nofs (ToCm <$> _) => idtac
  end.
Ltac plains :=
  repeat first
    [ calm_unfold
    | match goal with
      | |- obeys _ _ _ (gets _ ≫= _) => apply obeys_gets_bind; [exact _|]; cbn beta
      | |- obeys _ _ _ (_ ≫= _) => apply obeys_seq; [exact _| |intros ? ? ?]
      | |- obeys _ _ _ (for_each _ _) => apply obeys_for_each; [exact _|intros]
      end
    | obey_step | plain_leaf ].

Section Requests.
Context `{env : Env, lenv : LoginEnv}.

Lemma plain_close lock s : plain s (on_close lock).
Proof. unfold on_close. plains. Qed.
Lemma plain_reason r s : plain s (send_close_reason_no_retry r).
Proof. unfold send_close_reason_no_retry, remove_my_session. plains. Qed.
Lemma plain_remove_session s : plain s remove_my_session.
Proof. unfold remove_my_session. plains. Qed.

Lemma plain_cm d s : d <> Fc_Authorize -> plain s (on_cm d).
Proof.
  intros Hd. unfold on_cm. destruct d; try done; unfold mine, handle_read_job_init_result, handle_file_block_from_cm, handle_file_read_done,
      handle_file_read_error, handle_file_digest_from_cm, handle_all_files_result, handle_voice_call, Connection.close_voice_call, subscribe_audio_of_camera,
      set_conn_audit_primary_auth, ConnLoop.switch_permission, switch_keyboard, switch_clipboard, switch_audio, subscribe_audio, switch_privacy_mode, post_file_audit;
    plains; auto using plain_close, plain_reason.
Qed.


Lemma plain_logs now r : Forall nofs (ToCm <$> (Connection.on_timer now r).1).
Proof.
  unfold Connection.on_timer. case_match; simpl; [constructor|]. rewrite fmap_app. apply Forall_app.
  split; apply Forall_fmap, Forall_fmap, Forall_forall; done.
Qed.

(** A turn that leaves the connection unauthorized asks for no files. *)
Definition restrained {A} (m : Act A) (s : St) : Prop := c_authorized (conn (st m s)) = true \/ Forall nofs (fx m s).

Lemma restrained_plain {A} (m : Act A) s : plain s m -> restrained m s.
Proof. intros [_ H]. by right. Qed.
Lemma restrained_pre {A} (m : Act A) s : pre m s -> restrained m s.
Proof. intros [?|?]; [by left|right; by apply preauth_nofs]. Qed.
Lemma restrained_then {A B} (m : Act A) (k : A -> Act B) s : restrained m s -> (forall s' x, plain s' (k x)) ->
  (forall s' x, staying Terminal s' (k x)) -> restrained (m ≫= k) s.
Proof.
  intros Hm Hk Hs. unfold restrained. rewrite st_bind, fx_bind. destruct Hm as [H|H]; [left|right].
  - by rewrite (y_authorized _ _ _ (proj1 (Hs (st m s) (res m s)))).
  - apply Forall_app. split; [done|apply Hk].
Qed.
Lemma restrained_bind {A B} (m : Act A) (k : A -> Act B) s : plain s m -> restrained (k (res m s)) (st m s) -> restrained (m ≫= k) s.
Proof. intros [_ Hm] Hk. unfold restrained. rewrite st_bind, fx_bind. destruct Hk as [H|H]; [by left|right]. by apply Forall_app. Qed.

Lemma restrained_loop ev s : c_authorized (conn s) = false -> restrained (loop_step ev) s.
Proof.
  intros Ha. unfold loop_step. destruct ev as [|d|r|r|conns|m r|l m n r|b|b|r r'|r r'|z];
    try (by apply restrained_plain; plains; auto using plain_close, plain_reason).
  - destruct d; try by apply restrained_plain, plain_cm. unfold on_cm, set_conn_audit_primary_auth.
    apply restrained_bind; [plains|]. apply restrained_then; [apply restrained_pre, pre_logon|intros; plains|intros; stay].
  - unfold on_net. destruct r as [[[m|]|]|]; try (by apply restrained_plain; unfold touch_session_clock; plains; auto using plain_close).
    apply restrained_bind; [plains|]. apply restrained_bind; [unfold touch_session_clock; plains|].
    apply restrained_then; [|intros; plains|intros; stay]. apply restrained_pre, pre_message. rewrite <- Ha.
    assert (Hal : along Terminal s (st touch_session_clock (st (modc (fun c => c <| c_last_recv := e_now |>)) s))).
    { etransitivity; [|refine (proj1 (_ : staying Terminal _ _)); unfold touch_session_clock; stay]. by split. }
    apply (y_authorized _ _ _ Hal).
  - apply restrained_plain. unfold on_file_timer. plains. apply plain_close.
  - apply restrained_plain. unfold ConnLoop.on_queue, handle_cursor_switch_display. plains; auto using plain_close, plain_reason.
  - apply restrained_plain. unfold on_second_timer, check_wake_lock. plains; auto using plain_close, plain_reason.
    match goal with H : Connection.on_timer ?n ?r = (?l, _) |- _ => replace l with (Connection.on_timer n r).1 by (by rewrite H) end. apply plain_logs.
  - apply restrained_plain. unfold on_test_delay_timer. plains. apply plain_close.
Qed.

Lemma plain_after s : plain s after_loop.
Proof.
  unfold after_loop, leave_loop, finish_connection, unregister, conn_drop, authed_conn_drop, check_wake_lock, release_pressed_modifiers,
    turn_off_privacy_to_msg, post_conn_audit. plains; auto using plain_close. apply Forall_fmap, Forall_true. done.
Qed.

Lemma restrained_step ev p s : phase_inv p s -> (c_authorized (conn s) = true -> opened (conn s)) -> restrained (step ev p) s.
Proof.
  intros Hi Ho. destruct (c_authorized (conn s)) eqn:Ha.
  { left. destruct (step_advanced (MkTick env lenv ev) p s Hi) as [_ Hk _ _]; [auto|]. by apply Hk. }
  destruct p; [|destruct Hi as [[Hx _ _ _ _] _]; congruence|by right].
  change (step ev Main) with (keep ← loop_step ev; if (keep : bool) then mret Main else after_loop).
  unfold restrained. rewrite st_bind, fx_bind. destruct (restrained_loop ev s Ha) as [H|H].
  - left. destruct (res (loop_step ev) s); [done|]. by rewrite (y_authorized _ _ _ (proj1 (stay_after Terminal (st (loop_step ev) s)))).
  - right. apply Forall_app. split; [done|]. destruct (res (loop_step ev) s); [constructor|]. apply plain_after.
Qed.
End Requests.

Lemma restrained_run ts : forall p s, phase_inv p s -> (c_authorized (conn s) = true -> opened (conn s)) -> restrained (run ts p) s.
Proof.
  induction ts as [|t ts IH]; intros p s Hi Ho; [by right; constructor|]. cbn [run]. unfold restrained. rewrite st_bind, fx_bind.
  set (m := @step (t_env t) (t_lenv t) (t_ev t) p). destruct (@step_spec (t_env t) (t_lenv t) (t_ev t) p s Hi) as [Hi' _].
  destruct (step_advanced t p s Hi Ho) as [Ho' _ _ _]. fold m in Hi', Ho'.
  destruct (run_advanced ts (res m s) (st m s) Hi' Ho') as (_ & Hk & _).
  destruct (restrained_step (env := t_env t) (lenv := t_lenv t) (t_ev t) p s Hi Ho) as [H|H].
  - left. by apply Hk.
  - destruct (IH (res m s) (st m s) Hi' Ho') as [?|?]; [by left|right]. by apply Forall_app.
Qed.

Lemma restrained_start (e : Env) (l : LoginEnv) ip a f s : plain s (@ConnLoop.start e l ip a f).
Proof.
  unfold ConnLoop.start, on_open, check_whitelist, announce_permissions, conn_drop, authed_conn_drop, check_wake_lock, release_pressed_modifiers,
    post_conn_audit, post_alarm_audit. plains. apply Forall_fmap, Forall_true. done.
Qed.

(** A connection asks for files only when it is authorized. *)
Lemma life_files e l id cp salt challenge ip a f g (Hok : srv_ok g) ts fs :
  ToCm (Cm_FS fs) ∈ effects_of e l id cp salt challenge ip a f g ts -> c_authorized (conn (state_of e l id cp salt challenge ip a f g ts)) = true.
Proof.
  intros Hin. pose proof (restrained_start e l ip a f (born e l id cp salt challenge g)) as [_ Hst]. unfold effects_of, state_of, life in *.
  rewrite fx_bind in Hin. rewrite st_bind. apply elem_of_app in Hin as [Hin|Hin].
  { rewrite Forall_forall in Hst. by apply Hst in Hin. }
  destruct (life_cases e l id cp salt challenge ip a f g Hok) as ([(Hr & Hi & _)|Hr] & Ha & _). all: cbv zeta in *; rewrite Hr in *.
  - destruct (restrained_run ts Main _ Hi) as [H|H]; [congruence|done|]. rewrite Forall_forall in H. by apply H in Hin.
  - assert (Hend : forall ts s, fx (run ts Ended) s = []) by (intros l0; induction l0 as [|t0 l0 IH]; intros s; [done|]; cbn [run]; rewrite fx_bind; cbn; apply IH).
    rewrite Hend in Hin. by apply not_elem_of_nil in Hin.
Qed.

(** ** The requests of connections, over their channels *)

Section Up.
(** Encodings: a confirmation, a log line, an avatar *)
Context (confirm_bytes : SendConfirmRequest -> bytes) (log_text : FileLog -> str * str) (str_of : string -> str) (avatar : str) (from_switch : bool).

Definition request_of (f : FS) : Request :=
  match f with
  | FS_ReadEmptyDirs dir h => Rq_ReadEmptyDirs dir h
  | FS_ReadDir dir h => Rq_ReadDir dir h
  | FS_NewWrite path id n files o total conn_id => Rq_NewWrite path id n files o total conn_id
  | FS_RemoveDir path id r => Rq_RemoveDir path id r
  | FS_RemoveFile path id n => Rq_RemoveFile path id n
  | FS_CreateDir path id => Rq_CreateDir path id
  | FS_CancelWrite id => Rq_CancelWrite id
  | FS_CancelRead id conn_id => Rq_CancelRead id conn_id
  | FS_SendConfirmForRead id n skip o conn_id => Rq_SendConfirmForRead id n skip o conn_id
  | FS_SendConfirm r => Rq_SendConfirm (confirm_bytes r)
  | FS_Rename id path new_name => Rq_Rename id path new_name
  | FS_WriteBlock id n data c => Rq_WriteBlock id n data c
  | FS_WriteDone id n => Rq_WriteDone id n
  | FS_CheckDigest id n sz m u r => Rq_CheckDigest id n sz m u r
  | FS_WriteError id n err => Rq_WriteError id n err
  end.

(** What connection [id] sends its manager *)
Definition to_data (id : Z) (d : CmData) : Data :=
  match d with
  | Cm_FS f => D_FS (request_of f)
  | Cm_Login l => D_Login id l avatar from_switch
  | Cm_ChatMessage text => D_ChatMessage text
  | Cm_FileTransferLog l => let '(action, log) := log_text l in D_FileTransferLog action log
  | Cm_VoiceCallIncoming => D_VoiceCallIncoming
  | Cm_StartVoiceCall => D_StartVoiceCall
  | Cm_CloseVoiceCall => D_CloseVoiceCall []
  | Cm_SwitchPermission name enabled => D_SwitchPermission (str_of name) enabled
  | Cm_Disconnected => D_Disconnected
  | Cm_Close => D_Close
  end.

Definition sent_to_cm (id : Z) (l : list Effect) : list Data := omap (fun e => match e with ToCm d => Some (to_data id d) | _ => None end) l.

(** What a connection sends is never a block of the manager's. *)
Lemma sent_no_block id l : Forall (fun d => is_block d = false) (sent_to_cm id l).
Proof.
  apply Forall_forall. intros d (x & _ & Hx)%list_elem_of_omap. destruct x; try done.
  injection Hx as <-. destruct d0; try done. simpl. by destruct (log_text l0).
Qed.

Lemma sent_fs id l f : D_FS f ∈ sent_to_cm id l -> exists f0, ToCm (Cm_FS f0) ∈ l /\ request_of f0 = f.
Proof.
  intros (x & Hin & Hx)%list_elem_of_omap. destruct x; try done. injection Hx as Hx. destruct d; try done; simpl in Hx.
  - injection Hx as <-. eauto.
  - by destruct (log_text l0).
Qed.
End Up.

(** A connection's life up to now *)
Record Host := MkHost {
  h_env : Env; h_lenv : LoginEnv; h_id : Z; h_cp : option Z; h_salt : str; h_challenge : str; h_ip : str; h_a : bool; h_f : bool; h_glob : Glob;
  h_ts : list Tick }.
Definition h_state (h : Host) : St :=
  state_of (h_env h) (h_lenv h) (h_id h) (h_cp h) (h_salt h) (h_challenge h) (h_ip h) (h_a h) (h_f h) (h_glob h) (h_ts h).
Definition h_effects (h : Host) : list Effect :=
  effects_of (h_env h) (h_lenv h) (h_id h) (h_cp h) (h_salt h) (h_challenge h) (h_ip h) (h_a h) (h_f h) (h_glob h) (h_ts h).

(** What it sent its manager so far *)
Definition h_sent (confirm_bytes : SendConfirmRequest -> bytes) (log_text : FileLog -> str * str) (str_of : string -> str) (avatar : str) (from_switch : bool)
    (h : Host) : list Data := sent_to_cm confirm_bytes log_text str_of avatar from_switch (h_id h) (h_effects h).

(** What task [t] read from its stream *)
Definition incoming_of {Rest} (t : nat) (evs : list (CmEnv Rest * CmEvent)) : list Incoming :=
  omap (fun x => match x.2 with OfTask u (Te_stream i) => if bool_decide (u = t) then Some i else None | _ => None end) evs.

Module ConnAcceptClaims.

(** C13: A session of the host is authorized only by its user or by a proof of
    identity: if a connection is authorized at some point of its life, then the
    host's user clicked accept in the row of this very connection, or one of the
    connection's logins presented a password that was valid at that moment. *)
Theorem authorized_by_user_or_proof (e : Env) (l : LoginEnv) (id : Z) (cp : option Z) (salt challenge ip : str) (a f : bool) (g : Glob) (Hok : srv_ok g)
    {Rest} `{!FsLib Rest} (ids : nat -> Z) (evs : list (CmEnv Rest * CmEvent)) (Hl : Forall (fun x => login_id ids x.2) evs)
    name_of parse_dir parse_all to_vec from_str click (t : nat) (Hid : ids t = id)
    (Hserde : Forall (reads_back to_vec from_str) (wired t (fx (cm_run evs) cm_init)))
    (ts : list Tick) (Hlink : linked name_of parse_dir parse_all to_vec from_str click t evs ts) :
  c_authorized (conn (state_of e l id cp salt challenge ip a f g ts)) = true ->
  (exists evs1 env evs2 c, evs = evs1 ++ (env, User (U_authorize id)) :: evs2 /\ clients (st (cm_run evs1) cm_init) !! id = Some c /\ k_tx c = t)
  \/ (exists ts1 tk ts2 lr, ts = ts1 ++ tk :: ts2 /\ login_event (t_ev tk) lr
      /\ let s := state_of e l id cp salt challenge ip a f g ts1 in @proved (t_env tk) (t_lenv tk) ((conn s) <| c_lr := lr |>) (glob s)).
Proof.
  intros Ha.
  assert (Hm : phase_of e l id cp salt challenge ip a f g [] = Main).
  { destruct (decide (phase_of e l id cp salt challenge ip a f g [] = Main)) as [|Hn]; [done|].
    destruct (life_refused e l id cp salt challenge ip a f g Hok ts Hn). congruence. }
  destruct (life_run e l id cp salt challenge ip a f g Hok ts Hm) as (Hi & Hn & _ & _ & Es & _).
  rewrite Es in Ha. destruct (run_advanced ts Main _ Hi) as (_ & _ & He & _); [congruence|].
  destruct (He Hn Ha) as (ts1 & tk & ts2 & -> & _ & _ & [_ [Hev|(lr & Hlr & Hp)]] & _).
  - left. pose proof (accepted_over_channel _ _ _ _ _ _ t evs _ tk Hserde Hlink ltac:(set_solver) Hev) as Hw.
    destruct (cm_run_commands evs cm_init t D_Authorize eq_refl) as [(k & Hk & _)|(evs1 & env & u & evs2 & id' & -> & E)]; [by left|done|].
    apply Forall_app in Hl as [Hl _]. assert (Hs : table_ok ids (st (cm_run evs1) cm_init)) by (apply cm_run_table; [done|]; by split).
    unfold asks in E. destruct u; try done; try (destruct e_perm_change_allowed; [|done]); destruct (clients _ !! _) as [c|] eqn:Ec; simplify_eq/=.
    destruct (tb_rows _ _ Hs _ _ Ec) as [_ Er _ _]. exists evs1, env, evs2, c. rewrite <- Er. by split_and!.
  - right. exists ts1, tk, ts2, lr. split; [done|]. split; [done|]. cbv zeta.
    destruct (life_run e l id cp salt challenge ip a f g Hok ts1 Hm) as (_ & _ & _ & _ & -> & _). exact Hp.
Qed.

Definition tick (ev : Event) : Tick := MkTick SampleEnv.env SampleLogin.lenv ev.
Definition login_event_sample (password : bytes) (u : option LoginUnion) : Event :=
  Ev_Net (Some (Ok (Some (Msg_LoginRequest (MkLogin (lit "host") password (lit "peer") (lit "name") [] None u false 7 [] None [] None))))).

Lemma authorized_by_user_or_proof_witness :
  let evs := (fun e => (SampleFs.env, e)) <$>
    [Accept; OfTask 0 (Te_stream (In_data (D_Login 5 SampleFs.login [] false) None)); User (U_authorize 5); OfTask 0 Te_queue] in
  let ts := [tick (login_event_sample [] None); tick (Ev_Cm Fc_Authorize)] in
  (exists evs1 env evs2 c, evs = evs1 ++ (env, User (U_authorize 5)) :: evs2 /\ clients (st (cm_run evs1) cm_init) !! 5 = Some c /\ k_tx c = 0%nat)
  \/ (exists ts1 tk ts2 lr, ts = ts1 ++ tk :: ts2 /\ login_event (t_ev tk) lr
      /\ let s := state_of SampleEnv.env SampleLogin.lenv 5 None (lit "s") (lit "c") (lit "1.1.1.1") false false SampleLogin.glob ts1 in
         @proved (t_env tk) (t_lenv tk) ((conn s) <| c_lr := lr |>) (glob s)).
Proof.
  intros evs ts.
  apply (authorized_by_user_or_proof SampleEnv.env SampleLogin.lenv 5 None (lit "s") (lit "c") (lit "1.1.1.1") false false SampleLogin.glob ltac:(done)
    (fun _ => 5) evs ltac:(by repeat constructor) (fun _ => "x"%string) (fun _ => None) (fun _ => Err []) (fun _ => [1]) (fun _ => Some D_Authorize) 0 0 eq_refl).
  - vm_compute. repeat constructor.
  - vm_compute. exists []. reflexivity.
  - vm_compute. reflexivity.
Defined.

(** The requests for files that a connection has sent, as the manager reads them *)
Definition sent_request (confirm_bytes : SendConfirmRequest -> bytes) (h : Host) (f : Request) : Prop :=
  exists f0, ToCm (Cm_FS f0) ∈ h_effects h /\ request_of confirm_bytes f0 = f.

(** C14: The manager touches files only for sessions that are authorized, and only as
    they asked: when an event makes it list, write, rename or remove something, the
    event is a turn of one connection's task, this connection is authorized, and
    the operation is one that this connection requested ([justified]): the listed,
    removed, renamed or created path is the requested one, and a block is written
    with the requested data into a job the connection opened under that number
    and path. *)
Theorem files_need_an_authorized_session {Rest} `{!FsLib Rest, !OriginLaws Rest} (evs1 evs2 : list (CmEnv Rest * CmEvent)) (env : CmEnv Rest)
    (ev : CmEvent) (hosts : nat -> Host) confirm_bytes log_text str_of avatar from_switch to_vec from_str (Hok : forall t, srv_ok (h_glob (hosts t)))
    (Henv : Forall (fun x => EnvOrigin x.1) (evs1 ++ (env, ev) :: evs2))
    (Hserde : forall t, Forall (reads_back to_vec from_str) (h_sent confirm_bytes log_text str_of avatar from_switch (hosts t) ≫= to_cm))
    (Hlink : forall t, incoming_of t (evs1 ++ (env, ev) :: evs2) `prefix_of`
                       cm_receive to_vec from_str (h_sent confirm_bytes log_text str_of avatar from_switch (hosts t) ≫= to_cm)) (e : Fx Rest) :
  e ∈ fx (cm_step ev) (st (cm_run evs1) cm_init) -> file_fx e ->
  exists t te, ev = OfTask t te /\ c_authorized (conn (h_state (hosts t))) = true
    /\ justified (sent_request confirm_bytes (hosts t)) t e.
Proof.
  intros He Hf. set (sent := fun t => h_sent confirm_bytes log_text str_of avatar from_switch (hosts t)) in *.
  rewrite (cons_middle (env, ev) evs1 evs2), app_assoc in Henv. apply Forall_app in Henv as [Henv _].
  destruct (files_were_asked evs1 env ev e Henv He Hf) as (t & te & -> & Hj). exists t, te. split; [done|].
  assert (Hj' : justified (sent_request confirm_bytes (hosts t)) t e).
  { eapply justified_mono; [|exact Hj]. intros f (env' & i & Hin & Hh). apply (sent_fs confirm_bytes log_text str_of avatar from_switch (h_id (hosts t))).
    change (D_FS f ∈ sent t). rewrite <- (to_cm_received to_vec from_str (sent t)); [|apply sent_no_block|apply Hserde].
    apply list_elem_of_omap. exists i. split; [|done]. destruct (Hlink t) as [l El]. unfold sent in *. rewrite El. apply elem_of_app. left.
    apply list_elem_of_omap. exists (env', OfTask t (Te_stream i)). simpl. rewrite bool_decide_true by done. split; [|done].
    rewrite (cons_middle (env, OfTask t te) evs1 evs2), app_assoc. apply elem_of_app. by left. }
  split; [|done]. destruct (justified_some _ t e Hf Hj') as (f & f0 & Hin & _). by eapply life_files.
Qed.

Definition file_host : Host :=
  MkHost SampleEnv.env SampleLogin.lenv 5 None (lit "s") (lit "c") (lit "1.1.1.1") false false SampleLogin.glob
    [tick (login_event_sample (str_bytes (lit "psc")) (Some (Lu_FileTransfer (lit "/") false)));
     tick (Ev_Net (Some (Ok (Some (Msg_FileAction (Some (Fa_RemoveFile (MkRemoveFile 3 (lit "/a") 0))))))))].

Definition file_events : list (CmEnv unit * CmEvent) :=
  (fun e => (SampleFs.env, e)) <$>
    [Accept; OfTask 0 (Te_stream (In_data (D_FS (Rq_ReadDir [] false)) None));
     OfTask 0 (Te_stream (In_data (default D_Close (h_sent (fun _ => []) (fun _ => ([], [])) (fun _ => []) [] false file_host !! 1%nat)) None))].

Lemma files_need_an_authorized_session_witness :
  c_authorized (conn (h_state file_host)) = true /\ exists id n, sent_request (fun _ => []) file_host (Rq_RemoveFile (lit "/a") id n).
Proof.
  destruct (files_need_an_authorized_session file_events [] SampleFs.env (OfTask 0 (Te_stream (In_data (D_FS (Rq_RemoveFile (lit "/a") 3 0)) None)))
    (fun _ => file_host) (fun _ => []) (fun _ => ([], [])) (fun _ => []) [] false
    (fun d => match d with D_FS (Rq_ReadDir _ _) => [0] | D_Login _ _ _ _ => [1] | _ => [2] end)
    (fun b => match b with
              | [x] => h_sent (fun _ => []) (fun _ => ([], [])) (fun _ => []) [] false file_host !! Z.to_nat x
              | _ => None end)
    ltac:(done)) with (e := File_remove (Rest := unit) (lit "/a")) as (t & te & _ & Ha & Hj).
  - repeat (apply List.Forall_cons; [exact sample_env_origin|]). constructor.
  - intros _. vm_compute. repeat constructor.
  - intros [|t]; vm_compute; eexists; reflexivity.
  - vm_compute. left.
  - exact I.
  - split; [exact Ha|exact Hj].
Defined.

End ConnAcceptClaims.
