(* ===== verification/ClientSync.v ===== *)
(** * The controller and the host together

    Composes the two ends of a session: [ClientConfig] and [Controller] (the
    controller's settings, its login and its option messages) with [Connection]
    and [ConnLogin] (the host).  The flags of the host's connection follow the
    controller's settings, and the proof the controller computes from a password is
    the one the host accepts, at a login from the interface and at a
    reconnection. *)
From stdpp Require Import base gmap list strings.
From Stdlib Require Import ZArith Lia.
From S2P Require Import Prelude RustStr Effects HomedeskNet HomedeskConfig NestlinkAuth NestlinkPermit Message SessionScope ServerReg ConnState Connection ConnLogin ConnPolicy ConnLife ClientConfig Controller.

#[local] Open Scope Z_scope.

(** ** Options *)

(** The options of a session as the host keeps them *)
Record HostFlags := MkFlags {
  hf_lock : bool; hf_cursor : bool; hf_follow_cursor : bool; hf_follow_window : bool; hf_audio : bool; hf_clipboard : bool;
  hf_keyboard : bool }.

Definition host_flags (c : Conn) : HostFlags :=
  MkFlags (c_lock_after_session_end c) (c_show_remote_cursor c) (c_follow_remote_cursor c) (c_follow_remote_window c)
    (c_disable_audio c) (c_disable_clipboard c) (c_disable_keyboard c).

Definition no_flags : HostFlags := MkFlags false false false false false false false.

(** A field of a message applied to a flag *)
Definition update_flag (f : bool_field) (old : bool) : bool :=
  match enum_value f with Ok No => false | Ok Yes => true | _ => old end.

Definition host_apply (o : OptionMessage) (f : HostFlags) : HostFlags :=
  MkFlags (update_flag (o_lock_after_session_end o) (hf_lock f)) (update_flag (o_show_remote_cursor o) (hf_cursor f))
    (update_flag (o_follow_remote_cursor o) (hf_follow_cursor f)) (update_flag (o_follow_remote_window o) (hf_follow_window f))
    (update_flag (o_disable_audio o) (hf_audio f)) (update_flag (o_disable_clipboard o) (hf_clipboard f))
    (update_flag (o_disable_keyboard o) (hf_keyboard f)).

(** What the controller's settings ask for: view-only mode masks some of them. *)
Definition wanted_by (c : PeerConfig) : HostFlags :=
  let v := pc_view_only c in
  MkFlags (negb v && pc_lock_after_session_end c) (v || pc_show_remote_cursor c) (pc_follow_remote_cursor c)
    (pc_follow_remote_window c) (pc_disable_audio c) (v || pc_disable_clipboard c) v.
Definition wanted (h : LoginConfigHandler) : HostFlags := wanted_by (lc_config h).

Section HostSide.
Context `{!Env}.

(** [flags_after f m]: what [m] does to the flags *)
Definition flags_after {A} (f : HostFlags -> HostFlags) (m : Act A) : Prop := forall s,
  host_flags (conn (st m s)) = f (host_flags (conn s)).

Lemma flags_bind {A B} f g (m : Act A) (k : A -> Act B) :
  flags_after f m -> (forall a, flags_after g (k a)) -> flags_after (fun x => g (f x)) (m ≫= k).
Proof. intros Hm Hk s. rewrite st_bind, Hk, Hm. done. Qed.

Lemma flags_same {A} (m : Act A) : (forall s, conn (st m s) = conn s) -> flags_after (fun x => x) m.
Proof. intros Hm s. by rewrite Hm. Qed.

Lemma flags_if_set f g (k : bool -> Act unit) : (forall b, flags_after (g b) (k b)) ->
  flags_after (fun x => match enum_value f with Ok No => g false x | Ok Yes => g true x | _ => x end) (if_set f k).
Proof. intros Hk s. unfold if_set. destruct (enum_value f) as [[| |]|]; try done; apply Hk. Qed.

(** Handlers that leave the flags *)
Definition same_flags (s s' : St) : Prop := host_flags (conn s') = host_flags (conn s).
#[local] Instance same_flags_preorder : PreOrder same_flags.
Proof. split; [done|]. unfold same_flags. intros a b c Ha Hb. congruence. Qed.
Abbreviation keeps := (obeys same_flags (fun _ => True)).

Lemma flags_kept {A} (m : Act A) : (forall s, keeps s m) -> flags_after (fun x => x) m.
Proof. intros Hm s. apply Hm. Qed.

Ltac keep := repeat first
  [ calm_unfold
  | match goal with
    | |- obeys _ _ _ (gets _ ≫= _) => apply obeys_gets_bind; [exact _|]; cbn beta
    | |- obeys _ _ _ (_ ≫= _) => apply obeys_seq; [exact _| |intros ? ? ?]
    end
  | obey_step | reflexivity | exact I ].

Lemma keep_privacy o s : keeps s (update_privacy_mode o).
Proof. unfold update_privacy_mode, turn_on_privacy, turn_off_privacy, turn_off_privacy_to_msg. keep. Qed.
Lemma keep_block_input o s : keeps s (update_block_input o).
Proof. unfold update_block_input, send_block_input_error. keep. Qed.
Lemma keep_terminal b s : keeps s (update_terminal_persistence b).
Proof. unfold update_terminal_persistence. keep. Qed.
Lemma keep_my_cursor b s : keeps s (update_show_my_cursor b).
Proof. unfold update_show_my_cursor. keep. Qed.
Lemma keep_subscribe n f s : keeps s (subscribe_to n f).
Proof. keep. Qed.
Lemma keep_audio s : keeps s subscribe_audio.
Proof. unfold subscribe_audio. keep. Qed.
Lemma keep_quality o s : keeps s (update_quality o).
Proof. unfold update_quality. keep. Qed.

Lemma keep_if_set f (k : bool -> Act unit) : (forall b s, keeps s (k b)) -> forall s, keeps s (if_set f k).
Proof. intros Hk s. unfold if_set. destruct (enum_value f) as [[| |]|]; try (apply obeys_ret; exact _); apply Hk. Qed.

(** A flag set by a field, with subscriptions that follow *)
Lemma flags_set f get (put : bool -> HostFlags -> HostFlags) (set : bool -> Conn -> Conn) (rest : Act unit) :
  (forall b c, host_flags (set b c) = put b (host_flags c)) -> (forall x, put (get x) x = x) -> (forall s, keeps s rest) ->
  flags_after (fun x => put (update_flag f (get x)) x) (if_set f (fun b => _ ← modc (set b); rest)).
Proof.
  intros Hs Hg Hr s. unfold if_set, update_flag. destruct (enum_value f) as [[| |]|]; try (by rewrite Hg);
    rewrite st_bind; rewrite (flags_kept rest Hr); simpl; apply Hs.
Qed.
Lemma flags_set_only f get (put : bool -> HostFlags -> HostFlags) (set : bool -> Conn -> Conn) :
  (forall b c, host_flags (set b c) = put b (host_flags c)) -> (forall x, put (get x) x = x) ->
  flags_after (fun x => put (update_flag f (get x)) x) (if_set f (fun b => modc (set b))).
Proof.
  intros Hs Hg s. unfold if_set, update_flag. destruct (enum_value f) as [[| |]|]; try (by rewrite Hg); simpl; apply Hs.
Qed.

Definition put_lock : bool -> HostFlags -> HostFlags := (fun b x => MkFlags b (hf_cursor x) (hf_follow_cursor x) (hf_follow_window x) (hf_audio x) (hf_clipboard x) (hf_keyboard x)).
Definition put_cursor : bool -> HostFlags -> HostFlags := (fun b x => MkFlags (hf_lock x) b (hf_follow_cursor x) (hf_follow_window x) (hf_audio x) (hf_clipboard x) (hf_keyboard x)).
Definition put_follow_cursor : bool -> HostFlags -> HostFlags := (fun b x => MkFlags (hf_lock x) (hf_cursor x) b (hf_follow_window x) (hf_audio x) (hf_clipboard x) (hf_keyboard x)).
Definition put_follow_window : bool -> HostFlags -> HostFlags := (fun b x => MkFlags (hf_lock x) (hf_cursor x) (hf_follow_cursor x) b (hf_audio x) (hf_clipboard x) (hf_keyboard x)).
Definition put_audio : bool -> HostFlags -> HostFlags := (fun b x => MkFlags (hf_lock x) (hf_cursor x) (hf_follow_cursor x) (hf_follow_window x) b (hf_clipboard x) (hf_keyboard x)).
Definition put_clipboard : bool -> HostFlags -> HostFlags := (fun b x => MkFlags (hf_lock x) (hf_cursor x) (hf_follow_cursor x) (hf_follow_window x) (hf_audio x) b (hf_keyboard x)).
Definition put_keyboard : bool -> HostFlags -> HostFlags := (fun b x => MkFlags (hf_lock x) (hf_cursor x) (hf_follow_cursor x) (hf_follow_window x) (hf_audio x) (hf_clipboard x) b).

Lemma step_lock f : flags_after (fun x => put_lock (update_flag f (hf_lock x)) x) (if_set f (fun b => modc (fun c => c <| c_lock_after_session_end := b |>))).
Proof. apply (flags_set_only f hf_lock put_lock (fun b c => c <| c_lock_after_session_end := b |>)); [reflexivity|by intros []]. Qed.
Lemma step_cursor f : flags_after (fun x => put_cursor (update_flag f (hf_cursor x)) x) (if_set f (fun b => _ ← modc (fun c => c <| c_show_remote_cursor := b |>); _ ← subscribe_cursor; subscribe_to NAME_POS c_show_remote_cursor)).
Proof.
  apply (flags_set f hf_cursor put_cursor (fun b c => c <| c_show_remote_cursor := b |>) (_ ← subscribe_cursor; subscribe_to NAME_POS c_show_remote_cursor)); [reflexivity|by intros []|].
  intros. unfold subscribe_cursor; keep.
Qed.
Lemma step_follow_cursor f : flags_after (fun x => put_follow_cursor (update_flag f (hf_follow_cursor x)) x) (if_set f (fun b => modc (fun c => c <| c_follow_remote_cursor := b |>))).
Proof. apply (flags_set_only f hf_follow_cursor put_follow_cursor (fun b c => c <| c_follow_remote_cursor := b |>)); [reflexivity|by intros []]. Qed.
Lemma step_follow_window f : flags_after (fun x => put_follow_window (update_flag f (hf_follow_window x)) x) (if_set f (fun b => _ ← modc (fun c => c <| c_follow_remote_window := b |>); subscribe_to NAME_WINDOW_FOCUS c_follow_remote_window)).
Proof.
  apply (flags_set f hf_follow_window put_follow_window (fun b c => c <| c_follow_remote_window := b |>) (subscribe_to NAME_WINDOW_FOCUS c_follow_remote_window)); [reflexivity|by intros []|].
  intros. unfold subscribe_cursor; keep.
Qed.
Lemma step_audio f : flags_after (fun x => put_audio (update_flag f (hf_audio x)) x) (if_set f (fun b => _ ← modc (fun c => c <| c_disable_audio := b |>); subscribe_audio)).
Proof.
  apply (flags_set f hf_audio put_audio (fun b c => c <| c_disable_audio := b |>) (subscribe_audio)); [reflexivity|by intros []|].
  intros. apply keep_audio.
Qed.
Lemma step_clipboard f : flags_after (fun x => put_clipboard (update_flag f (hf_clipboard x)) x) (if_set f (fun b => _ ← modc (fun c => c <| c_disable_clipboard := b |>); subscribe_to CLIPBOARD_NAME can_sub_clipboard_service)).
Proof.
  apply (flags_set f hf_clipboard put_clipboard (fun b c => c <| c_disable_clipboard := b |>) (subscribe_to CLIPBOARD_NAME can_sub_clipboard_service)); [reflexivity|by intros []|].
  intros. unfold subscribe_cursor; keep.
Qed.
Lemma step_keyboard f : flags_after (fun x => put_keyboard (update_flag f (hf_keyboard x)) x) (if_set f (fun b => _ ← modc (fun c => c <| c_disable_keyboard := b |>); _ ← subscribe_to CLIPBOARD_NAME can_sub_clipboard_service; subscribe_cursor)).
Proof.
  apply (flags_set f hf_keyboard put_keyboard (fun b c => c <| c_disable_keyboard := b |>) (_ ← subscribe_to CLIPBOARD_NAME can_sub_clipboard_service; subscribe_cursor)); [reflexivity|by intros []|].
  intros. unfold subscribe_cursor; keep.
Qed.

Lemma flags_ext {A} f g (m : Act A) : flags_after f m -> (forall x, f x = g x) -> flags_after g m.
Proof. intros Hm Hf s. by rewrite <- Hf. Qed.

Lemma update_options_flags o : flags_after (host_apply o) (update_options o).
Proof.
  eapply flags_ext; [unfold update_options|].
  - eapply flags_bind; [apply flags_kept, keep_quality|intros _].
    eapply flags_bind; [apply flags_kept; intros; keep|intros _].
    eapply flags_bind; [apply flags_kept; intros; keep|intros _].
    eapply flags_bind; [apply step_lock|intros _]. eapply flags_bind; [apply step_cursor|intros _].
    eapply flags_bind; [apply step_follow_cursor|intros _]. eapply flags_bind; [apply step_follow_window|intros _].
    eapply flags_bind; [apply step_audio|intros _]. eapply flags_bind; [apply step_clipboard|intros _].
    eapply flags_bind; [apply step_keyboard|intros _]. eapply flags_bind; [apply flags_kept, keep_privacy|intros _].
    eapply flags_bind; [apply flags_kept, keep_block_input|intros _].
    eapply flags_bind; [apply flags_kept, keep_if_set, keep_terminal|intros _].
    apply flags_kept, keep_if_set, keep_my_cursor.
  - intros x. reflexivity.
Qed.

(** Options never change the type of the session. *)
Definition same_type (s s' : St) : Prop := c_authed (conn s') = c_authed (conn s).
#[local] Instance same_type_preorder : PreOrder same_type.
Proof. split; [done|]. unfold same_type. intros a b c Ha Hb. congruence. Qed.
Lemma update_options_type o s : obeys same_type (fun _ => True) s (update_options o).
Proof.
  unfold update_options, update_quality, subscribe_cursor, subscribe_audio, update_privacy_mode, update_block_input,
    update_terminal_persistence, update_show_my_cursor, send_block_input_error, turn_on_privacy, turn_off_privacy, turn_off_privacy_to_msg.
  keep.
Qed.

Lemma on_option_remote o s : c_authed (conn s) = Some Remote ->
  host_flags (conn (st (on_option o) s)) = host_apply o (host_flags (conn s)) /\ c_authed (conn (st (on_option o) s)) = Some Remote.
Proof.
  intros Ha. unfold on_option, st. unfold getc. rewrite run_gets_bind, Ha, bool_decide_true by done. split; [apply update_options_flags|].
  destruct (update_options_type o s) as [Ht _]. unfold same_type in Ht. by rewrite <- Ha.
Qed.

Lemma login_options_remote o s : c_authed (conn s) = Some Remote -> c_options_in_login (conn s) = Some o ->
  host_flags (conn (st update_scoped_login_options s)) = host_apply o (host_flags (conn s))
  /\ c_authed (conn (st update_scoped_login_options s)) = Some Remote.
Proof.
  intros Ha Hl. set (s1 := s <| conn ::= fun c => c <| c_options_in_login := None |> |>).
  assert (Ha1 : c_authed (conn s1) = Some Remote) by exact Ha.
  assert (E : st update_scoped_login_options s = st (on_option o) s1).
  { unfold update_scoped_login_options, on_option, getc. rewrite !st_bind. cbn [res gets fst snd]. rewrite Hl.
    change (st (gets (fun s0 => c_options_in_login (conn s0))) s) with s. rewrite !st_bind. change (st (modc _) s) with s1.
    cbn [res gets fst snd]. rewrite Ha1, bool_decide_true by done. reflexivity. }
  rewrite E. change (host_flags (conn s)) with (host_flags (conn s1)). by apply on_option_remote.
Qed.

End HostSide.

(** ** The controller's side *)
Section ControllerSide.
Context {P : Type} `{!PeerStore P, !PeerStoreLaws P, !ClientKeys, !ClientKeysLaws, !ClientEnv}.
Abbreviation Sess := (LoginConfigHandler * P)%type.
Implicit Types (h : LoginConfigHandler) (x : Sess).

Ltac by_name := unfold get_toggle_option; rewrite terminal_persistent_key, enable_file_copy_paste_key; reflexivity.
Lemma read_view_only h : get_toggle_option h (lit "view-only") = pc_view_only (lc_config h).
Proof. by_name. Qed.
Lemma read_cursor h : get_toggle_option h (lit "show-remote-cursor") = pc_show_remote_cursor (lc_config h).
Proof. by_name. Qed.
Lemma read_follow_cursor h : get_toggle_option h (lit "follow-remote-cursor") = pc_follow_remote_cursor (lc_config h).
Proof. by_name. Qed.
Lemma read_follow_window h : get_toggle_option h (lit "follow-remote-window") = pc_follow_remote_window (lc_config h).
Proof. by_name. Qed.
Lemma read_lock h : get_toggle_option h (lit "lock-after-session-end") = pc_lock_after_session_end (lc_config h).
Proof. by_name. Qed.
Lemma read_audio h : get_toggle_option h (lit "disable-audio") = pc_disable_audio (lc_config h).
Proof. by_name. Qed.
Lemma read_clipboard h : get_toggle_option h (lit "disable-clipboard") = pc_disable_clipboard (lc_config h).
Proof. by_name. Qed.

(** The fields a message leaves alone *)
Definition unset_flags (o : OptionMessage) : Prop :=
  o_lock_after_session_end o = Known NotSet /\ o_show_remote_cursor o = Known NotSet /\ o_follow_remote_cursor o = Known NotSet /\
  o_follow_remote_window o = Known NotSet /\ o_disable_audio o = Known NotSet /\ o_disable_clipboard o = Known NotSet /\
  o_disable_keyboard o = Known NotSet.

Lemma toggle_fields_wanted h o : unset_flags o -> host_apply (toggle_fields h o) no_flags = wanted h.
Proof.
  unfold toggle_fields.
  rewrite read_view_only, read_cursor, read_follow_cursor, read_follow_window, read_lock, read_audio, read_clipboard.
  unfold wanted, wanted_by. destruct o. unfold unset_flags. simpl. intros (->&->&->&->&->&->&->).
  generalize (get_toggle_option h (lit "show-my-cursor")), (get_toggle_option h OPTION_ENABLE_FILE_COPY_PASTE). intros m n.
  destruct (pc_view_only _), (pc_lock_after_session_end _), (pc_show_remote_cursor _), (pc_follow_remote_cursor _),
    (pc_follow_remote_window _), (pc_disable_audio _), (pc_disable_clipboard _), m, n; reflexivity.
Qed.

(** The login message of a remote-control session asks for what is wanted. *)
Lemma login_options_wanted public ignore x : lc_conn_type x.1 = DEFAULT_CONN -> exists o,
  (get_option_message public ignore x).1 = Some o /\ host_apply o no_flags = wanted x.1.
Proof.
  intros Hc. unfold get_option_message. rewrite Hc. destruct (get_image_quality_enum _ _) as [q|].
  { eexists. split; [reflexivity|]. by apply toggle_fields_wanted. }
  case_bool_decide; [|eexists; split; [reflexivity|]; by apply toggle_fields_wanted].
  unfold custom_quality. destruct (pc_options _ !! _); eexists; (split; [reflexivity|]); by apply toggle_fields_wanted.
Qed.

(** The settings view-only mode masks: while it is on, their messages would take
    effect on the host although the mode says otherwise. *)
Definition masked_names : list str := [lit "show-remote-cursor"; lit "disable-clipboard"; lit "lock-after-session-end"].
Definition in_order (name : str) h : bool := negb (pc_view_only (lc_config h) && bool_decide (name ∈ masked_names)).

(** What is wanted depends on the flags. *)
Lemma wanted_flags c c' : flags c = flags c' -> wanted_by c = wanted_by c'.
Proof. unfold flags. intros Hf. injection Hf as ?????????????. unfold wanted_by. congruence. Qed.

(** A message of the controller as the host applies it *)
Definition host_receives (m : option Message) (f : HostFlags) : HostFlags :=
  match m with Some (Msg_Misc (Some (Misc_Option o))) => host_apply o f | _ => f end.

(** A named branch: the message carries what changed; a request to block the
    host's input changes nothing. *)
Lemma toggle_effect name h c0 c o : flags c0 = flags (lc_config h) -> (name ∈ masked_names -> pc_view_only c0 = false) ->
  toggle_named name h c0 = Some (c, o) ->
  host_apply o (wanted_by c0) = wanted_by c /\ (contains (lit "block-input") name = true -> c = c0).
Proof.
  intros Hs Hv. unfold toggle_named. rewrite terminal_persistent_key.
  assert (Hplain : forall (b : bool) (Q : Prop), b = false -> b = true -> Q) by (intros b Q E1 E2; congruence).
  assert (Hm : forall n, name = n -> bool_decide (n ∈ masked_names) = true -> pc_view_only c0 = false).
  { intros n -> Hn. apply Hv. by apply bool_decide_eq_true in Hn. }
  do 13 (case_bool_decide; [match goal with Hx : name = _ |- _ => rename Hx into Hn end; intros E; injection E as <- <-;
    split; [try (specialize (Hm _ Hn eq_refl)); unfold host_apply, wanted_by, update_flag, yes_no; simpl; rewrite ?Hm; simpl;
            rewrite ?orb_true_r, ?andb_false_r; by repeat case_match
           |subst name; first [intros _; reflexivity|apply Hplain; vm_compute; reflexivity]]|]).
  case_bool_decide; [|case_bool_decide; [|intros E; discriminate E]].
  - intros E. split; [|subst name; apply Hplain; vm_compute; reflexivity]. unfold flags in Hs. injection Hs as Hc _ _ _ Hcl Hl _ _ _ _ _ _ _.
    injection E as E. unfold toggle_view_only in E. rewrite read_clipboard, read_cursor, <- Hcl, <- Hc, <- Hl in E. simpl in E.
    unfold host_apply, wanted_by, update_flag. destruct (pc_view_only c0) eqn:Ev; simpl in E.
    + destruct (pc_show_my_cursor c0); injection E as <- <-; simpl; rewrite ?Ev; simpl; f_equal; by repeat case_match.
    + injection E as <- <-. simpl. rewrite ?Ev. reflexivity.
  - intros E. injection E as <- <-. split; [reflexivity|subst name; apply Hplain; vm_compute; reflexivity].
Qed.

Lemma toggle_follows name x : synced x -> in_order name x.1 = true ->
  host_receives (toggle_option name x).1 (wanted x.1) = wanted (toggle_option name x).2.1.
Proof.
  intros Hs Ho. destruct x as [h p]. unfold synced in Hs. unfold in_order, masked_names in Ho. simpl in Ho.
  assert (Hw : wanted h = wanted_by (load_config (h, p))) by (symmetry; by apply wanted_flags).
  unfold toggle_option. destruct (toggle_named name h (load_config (h, p))) as [[c o]|] eqn:E.
  2:{ simpl. unfold wanted. simpl. by apply wanted_flags. }
  set (c0 := load_config (h, p)) in *. clearbody c0.
  assert (Hv : name ∈ masked_names -> pc_view_only c0 = false).
  { intros Hn. unfold flags in Hs. injection Hs as _ _ _ _ _ _ _ _ _ _ _ -> _. rewrite (bool_decide_true _ Hn), andb_true_r in Ho.
    by apply negb_true_iff in Ho. }
  destruct (toggle_effect name h c0 c o Hs Hv E) as [He Hb]. unfold option_message. cbn [fst snd host_receives].
  rewrite Hw, He. destruct (contains _ name); [|reflexivity]. rewrite Hb by done. symmetry. exact Hw.
Qed.

Lemma toggle_synced name x : synced x -> synced (toggle_option name x).2.
Proof.
  intros Hs. unfold toggle_option. destruct x as [h p]. destruct (toggle_named _ _ _) as [[c o]|]; [|apply flags_save].
  destruct (contains _ _); [done|apply flags_save].
Qed.

(** Toggles of the user, one after the other, with the messages sent for them *)
Fixpoint user_toggles (names : list str) x : list (option Message) * Sess :=
  match names with
  | [] => ([], x)
  | n :: r => let '(m, x) := toggle_option n x in let '(l, x) := user_toggles r x in (m :: l, x)
  end.

(** No masked setting is toggled while view-only mode is on. *)
Fixpoint all_in_order (names : list str) x : bool :=
  match names with [] => true | n :: r => in_order n x.1 && all_in_order r (toggle_option n x).2 end.

Lemma login_message_keeps public ignore x :
  lc_config (get_option_message public ignore x).2.1 = lc_config x.1 /\ lc_id (get_option_message public ignore x).2.1 = lc_id x.1 /\
  (get_option_message public ignore x).2.2 = x.2.
Proof.
  unfold get_option_message, custom_quality. destruct (lc_conn_type x.1); try done;
    (destruct (get_image_quality_enum _ _); [done|]; case_bool_decide; [|done]; by destruct (pc_options _ !! _)).
Qed.

End ControllerSide.

(** ** A session of both *)
Section Session.
Context {P : Type} `{!PeerStore P, !PeerStoreLaws P, !ClientKeys, !ClientKeysLaws, !ClientEnv, !Env}.
Abbreviation Sess := (LoginConfigHandler * P)%type.

(** The host handles the controller's messages in their order. *)
Fixpoint host_handles (l : list (option Message)) : Act unit :=
  match l with
  | Some (Msg_Misc (Some (Misc_Option o))) :: r => _ ← on_option o; host_handles r
  | _ :: r => host_handles r
  | [] => skip
  end.

Lemma host_handles_flags l : forall s, c_authed (conn s) = Some Remote ->
  host_flags (conn (st (host_handles l) s)) = foldl (fun f m => host_receives m f) (host_flags (conn s)) l.
Proof.
  induction l as [|m l IH]; intros s Ha; [done|]. simpl.
  destruct m as [[| | | | | | | | | | | | |[[]|]| | | | | | | | | | | | | | |]|]; try (by apply IH).
  rewrite st_bind. destruct (on_option_remote o s Ha) as [Hf Ht]. rewrite IH, Hf by done. done.
Qed.

Lemma toggles_follow names : forall x : Sess, synced x -> all_in_order names x = true ->
  foldl (fun f m => host_receives m f) (wanted x.1) (user_toggles names x).1 = wanted (user_toggles names x).2.1.
Proof.
  induction names as [|n r IH]; intros x Hs Ho; [done|]. simpl in *. apply andb_prop in Ho as [Ho Hr].
  pose proof (toggle_follows n x Hs Ho) as Hf. pose proof (toggle_synced n x Hs) as Hs'.
  destruct (toggle_option n x) as [m x1]. simpl in *. specialize (IH x1 Hs' Hr).
  destruct (user_toggles r x1) as [l x2]. simpl in *. by rewrite Hf.
Qed.

End Session.

(** ** Passwords *)
Section Passwords.
Context {P : Type} `{!PeerStore P, !ClientKeys, !ClientEnv, !LoginUi, !Env, !LoginEnv}.
Abbreviation Sess := (LoginConfigHandler * P)%type.

(** The login message carries the proof it is given; making it only remembers
    the frame rate. *)
Lemma login_message_proof public ou op p (x : Sess) :
  lr_password (create_login_msg public ou op p x).1 = p /\
  exists fps, (create_login_msg public ou op p x).2 = (x.1 <| lc_custom_fps := fps |>, x.2).
Proof.
  assert (Hk : exists fps, (get_option_message public true x).2 = (x.1 <| lc_custom_fps := fps |>, x.2)).
  { assert (Hid : x = (x.1 <| lc_custom_fps := lc_custom_fps x.1 |>, x.2)) by (by destruct x as [[] ?]).
    unfold get_option_message, custom_quality. destruct (lc_conn_type x.1); try (by eexists);
      (destruct (get_image_quality_enum _ _); [by eexists|]; case_bool_decide; [|by eexists]; destruct (pc_options _ !! _); by eexists). }
  unfold create_login_msg. destruct Hk as [fps Hk]. destruct (get_option_message public true x) as [o x'].
  destruct (lc_other_server x.1) as [[[? ?] ?]|]; destruct (lc_nestlink_permit x.1); simpl in *; eauto.
Qed.

(** The proof from a hashed password is the one the host computes. *)
Lemma proof_validates (c : Conn) (password : str) : (forall b, sha256 b = l_sha256 b) -> password <> [] ->
  lr_password (c_lr c) = sha256 (hash_password (str_bytes password) (c_salt c) ++ str_bytes (c_challenge c)) ->
  validate_password_plain c password = true.
Proof.
  intros He Hn Hp. unfold validate_password_plain. rewrite bool_decide_false by done. unfold verify_h1, hash_password in *.
  rewrite constant_time_eq_spec. apply bool_decide_true. by rewrite Hp, !He.
Qed.

End Passwords.

(** ** Claims *)

Module ClientSyncClaims.

Section Options.
Context {P : Type} `{!PeerStore P, !PeerStoreLaws P, !ClientKeys, !ClientKeysLaws, !ClientEnv, !Env}.

(** What the host's flags then allow of the peer's input and clipboard *)
Lemma view_only_blocks (h : LoginConfigHandler) (c : Conn) : host_flags c = wanted h -> pc_view_only (lc_config h) = true ->
  peer_keyboard_enabled c = false /\ clipboard_enabled c = false.
Proof.
  intros Hf Hv. unfold host_flags, wanted, wanted_by in Hf. injection Hf as _ _ _ _ _ Hc Hk. rewrite Hv in Hc, Hk. simpl in Hc, Hk.
  unfold peer_keyboard_enabled, clipboard_enabled. rewrite Hc, Hk. by rewrite !andb_false_r.
Qed.

(** C15: The host's view of a session follows the controller's: after the options of
    the login message and any sequence of toggles of the user, whose messages the
    host handles in order, the host's flags are what the controller's settings
    ask for.  In view-only mode the host therefore ignores the peer's input and
    does not share the clipboard.  The toggles masked by view-only mode (which
    the interface disables while it is on) are left out. *)
Theorem host_options_follow (public : bool) (x : LoginConfigHandler * P) (o : OptionMessage) (names : list str) (s : St) :
  synced x -> lc_conn_type x.1 = DEFAULT_CONN -> (get_option_message public true x).1 = Some o ->
  c_authed (conn s) = Some Remote -> c_options_in_login (conn s) = Some o -> host_flags (conn s) = no_flags ->
  let x0 := (get_option_message public true x).2 in
  all_in_order names x0 = true ->
  let '(messages, x1) := user_toggles names x0 in
  let c := conn (st (_ ← update_scoped_login_options; host_handles messages) s) in
  host_flags c = wanted x1.1 /\
  (pc_view_only (lc_config x1.1) = true -> peer_keyboard_enabled c = false /\ clipboard_enabled c = false).
Proof.
  cbv zeta. intros Hs Ht Ho Ha Hl Hf Hn. destruct (login_options_wanted public true x Ht) as (o'&Ho'&Hw). rewrite Ho in Ho'. injection Ho' as <-.
  destruct (login_message_keeps public true x) as (Hc&Hi&Hp). destruct (get_option_message public true x) as [? x0]. simpl in *.
  assert (Hs0 : synced x0) by (unfold synced, load_config in *; destruct x, x0; simpl in *; congruence).
  pose proof (toggles_follow names x0 Hs0 Hn) as Hfold. destruct (user_toggles names x0) as [l x1]. simpl in Hfold.
  destruct (login_options_remote o s Ha Hl) as [Hf1 Ha1].
  assert (Hfin : host_flags (conn (st (_ ← update_scoped_login_options; host_handles l) s)) = wanted x1.1).
  { rewrite st_bind, host_handles_flags, Hf1, Hf, Hw by done. rewrite <- Hfold. unfold wanted. by rewrite Hc. }
  split; [done|]. by apply view_only_blocks.
Qed.

End Options.

Import ExampleClient.

Definition login_options : OptionMessage := default option_new (get_option_message false true sample_session).1.
Definition sample_host : St :=
  MkSt ((@conn_new SampleEnv.env SampleLogin.lenv 5 None [] []) <| c_authed := Some Remote |> <| c_options_in_login := Some login_options |>)
    SampleLogin.glob.
Definition sample_toggles : list str := [lit "disable-clipboard"; lit "view-only"; lit "disable-audio"].

#[local] Existing Instance SampleEnv.env.

Lemma host_options_follow_witness :
  let '(messages, x1) := user_toggles sample_toggles (get_option_message false true sample_session).2 in
  let c := conn (st (_ ← update_scoped_login_options; host_handles messages) sample_host) in
  host_flags c = MkFlags false true false false true true true /\ peer_keyboard_enabled c = false.
Proof.
  assert (H1 : synced sample_session) by (vm_compute; reflexivity).
  assert (H3 : (get_option_message false true sample_session).1 = Some login_options) by (vm_compute; reflexivity).
  assert (H6 : host_flags (conn sample_host) = no_flags) by (vm_compute; reflexivity).
  assert (H7 : all_in_order sample_toggles (get_option_message false true sample_session).2 = true) by (vm_compute; reflexivity).
  pose proof (host_options_follow false sample_session login_options sample_toggles sample_host H1
    ltac:(vm_compute; reflexivity) H3 ltac:(vm_compute; reflexivity) ltac:(vm_compute; reflexivity) H6 H7) as H.
  assert (Hv : pc_view_only (lc_config (user_toggles sample_toggles (get_option_message false true sample_session).2).2.1) = true)
    by (vm_compute; reflexivity).
  assert (Hw : wanted (user_toggles sample_toggles (get_option_message false true sample_session).2).2.1 = MkFlags false true false false true true true)
    by (vm_compute; reflexivity).
  destruct (user_toggles sample_toggles (get_option_message false true sample_session).2) as [l x1]. simpl in Hv, Hw.
  destruct H as [Hf Hk]. rewrite Hw in Hf. split; [done|]. by apply Hk.
Defined.

(** The handlers themselves do not refuse a masked toggle: switched on and off in
    view-only mode, "disable-clipboard" opens the host's clipboard although the
    settings still say view-only. *)
Example masked_toggle_opens_clipboard :
  let '(messages, x1) := user_toggles [lit "view-only"; lit "disable-clipboard"; lit "disable-clipboard"] sample_session in
  let c := conn (st (_ ← update_scoped_login_options; host_handles messages) sample_host) in
  pc_view_only (lc_config x1.1) && negb (c_disable_clipboard c) = true.
Proof. vm_compute. reflexivity. Qed.

Section Proofs.
Context {P : Type} `{!PeerStore P, !ClientKeys, !ClientEnv, !LoginUi, !Env, !LoginEnv}.

Lemma validate_accepts allow (s : St) : l_temporary_enabled = true -> validate_password_plain (conn s) (g_temp_password (glob s)) = true ->
  res (validate_password allow) s = true.
Proof.
  intros Ht Hv. unfold validate_password, getc, getg. rewrite !res_bind. cbn [res gets st fst snd]. unfold id.
  change (st (gets _) s) with s. rewrite Ht. change (conn (st _ s)) with (conn s). rewrite Hv. simpl. by rewrite !res_bind.
Qed.

(** A password in use is used again; its proof answers the new challenge. *)
Lemma password_in_use preset salt (h : LoginConfigHandler) : lc_password h <> [] -> lc_shared_password h = None ->
  choose_password preset salt h = (lc_password h, lc_password_source h).
Proof.
  intros Hp Hs. unfold choose_password. rewrite Hs. rewrite (bool_decide_false _ Hp). simpl.
  by rewrite !(bool_decide_false _ Hp).
Qed.

Lemma answers_challenge public preset hash (x : LoginConfigHandler * P) :
  lc_password x.1 <> [] -> lc_shared_password x.1 = None -> lc_switch_uuid x.1 = None -> lc_is_terminal_admin x.1 = false ->
  exists lr, (handle_hash public preset hash x).1 = [SentLogin lr] /\ lr_password lr = sha256 (lc_password x.1 ++ str_bytes (h_challenge hash)).
Proof.
  intros Hp Hs Hu Ha. unfold handle_hash. rewrite Hu. simpl. unfold login_with_hash. rewrite password_in_use by done. simpl.
  rewrite Ha, andb_false_r, (bool_decide_false _ Hp). simpl.
  match goal with |- context [let '(_, _) := ?y in _] => destruct y as [u p] end. unfold send_login.
  match goal with |- context [create_login_msg ?a ?b ?c ?d ?y] => destruct (login_message_proof a b c d y) as [Hl _];
    destruct (create_login_msg a b c d y) as [lr x1] end.
  exists lr. by split.
Qed.

(** The request of a controller, as the host holds it *)
Definition with_request (lr : LoginRequest) (s : St) : St := s <| conn ::= fun c => c <| c_lr := lr |> |>.

(** C16: The proof the controller computes is the one the host checks: the temporary
    password typed by the user, hashed with the salt and challenge the host sent,
    passes [validate_password]; and after a reconnection the controller answers
    the new challenge, without asking again, with a proof the host accepts as
    long as its salt and password are the same. *)
Theorem controller_proof_is_accepted (public remember allow : bool) (ou op password preset : str) (x : LoginConfigHandler * P) (s s' : St) :
  (forall b, sha256 b = l_sha256 b /\ sha256 b <> []) -> password <> [] -> l_temporary_enabled = true ->
  g_temp_password (glob s) = password -> g_temp_password (glob s') = password ->
  lc_hash x.1 = MkHash (c_salt (conn s)) (c_challenge (conn s)) -> c_salt (conn s') = c_salt (conn s) ->
  lc_switch_uuid x.1 = None -> lc_shared_password x.1 = None -> lc_is_terminal_admin x.1 = false ->
  let '(fx1, x1) := handle_login_from_ui public ou op password remember x in
  exists lr lr', fx1 = [SentLogin lr] /\ res (validate_password allow) (with_request lr s) = true /\
    (handle_hash public preset (MkHash (c_salt (conn s')) (c_challenge (conn s'))) x1).1 = [SentLogin lr'] /\
    res (validate_password allow) (with_request lr' s') = true.
Proof.
  intros Hsha Hpw Ht Hg Hg' Hh Hsalt Hu Hsp Hadm. unfold handle_login_from_ui. rewrite bool_decide_false by done. unfold send_login.
  match goal with |- context [create_login_msg ?a ?b ?c ?p ?y] => destruct (login_message_proof a b c p y) as [Hp (fps&Hx)];
    destruct (create_login_msg a b c p y) as [lr x1] end.
  simpl in Hp, Hx. rewrite Hh in Hp. simpl in Hp.
  assert (Hx1 : lc_password x1.1 = hash_password (str_bytes password) (c_salt (conn s))) by (rewrite Hx; simpl; by rewrite Hh).
  destruct (answers_challenge public preset (MkHash (c_salt (conn s')) (c_challenge (conn s'))) x1) as (lr'&Hl&Hp'); try (by rewrite Hx).
  { rewrite Hx1. apply Hsha. }
  exists lr, lr'. split_and!; [done| |done|]; apply validate_accepts; try done; simpl; rewrite ?Hg, ?Hg';
    (apply proof_validates; [apply Hsha|done|]); simpl; [done|]. by rewrite Hp', Hx1, Hsalt.
Qed.

End Proofs.

#[local] Instance sample_ui : LoginUi := {|
  uuid_of _ := None; consume_switch_uuid _ _ := false; access_token := []; ab_access_token := []; ab_entries := [];
  LINK_HEADLESS_LINUX_SUPPORT := "" |}.

(** A host that hashes as the sample controller does *)
#[local] Instance hashing_login : LoginEnv := SampleLogin.lenv_with sha256.

Definition host_with (salt challenge : str) : St := MkSt (conn_new 5 None salt challenge) SampleLogin.glob.

Lemma controller_proof_is_accepted_witness :
  let x := (sample_session.1 <| lc_hash := MkHash (lit "s") (lit "c1") |>, sample_session.2) in
  exists lr lr',
    (handle_login_from_ui false [] [] (lit "p") true x).1 = [SentLogin lr] /\
    res (validate_password false) (with_request lr (host_with (lit "s") (lit "c1"))) = true /\
    (handle_hash false [] (MkHash (lit "s") (lit "c2")) (handle_login_from_ui false [] [] (lit "p") true x).2).1 = [SentLogin lr'] /\
    res (validate_password false) (with_request lr' (host_with (lit "s") (lit "c2"))) = true.
Proof.
  cbv zeta. set (x := (_, _)).
  pose proof (controller_proof_is_accepted false true false [] [] (lit "p") [] x (host_with (lit "s") (lit "c1")) (host_with (lit "s") (lit "c2"))) as H.
  assert (Hsha : forall b, sha256 b = l_sha256 b /\ sha256 b <> []) by (intros b; split; [reflexivity|cbn; discriminate]).
  assert (Hp : lit "p" <> []) by (vm_compute; discriminate).
  specialize (H Hsha Hp). do 8 (match type of H with ?A -> _ => let E := fresh in assert (E : A) by (vm_compute; reflexivity); specialize (H E) end).
  destruct (handle_login_from_ui false [] [] (lit "p") true x) as [l x1]. exact H.
Defined.

End ClientSyncClaims.
