(* ===== verification/TerminalBuffer.v ===== *)
(** * Terminal output: the replay buffer and the UTF-8 splitter

    Models [OutputBuffer], [find_utf8_split_point], [Utf8ChunkAccumulator] and
    [try_send_output] of [client/src/server/terminal_service.rs].  Bytes are
    [Z]; sizes are [Z] ([usize]). *)
From stdpp Require Import base gmap list strings.
From Stdlib Require Import ZArith Lia.
From S2P Require Import Prelude RustStr.

#[local] Open Scope Z_scope.

Definition MAX_OUTPUT_BUFFER_SIZE : Z := 1024 * 1024.
Definition MAX_BUFFER_LINES : Z := 10000.

Abbreviation bytes := (list Z).
Definition blen (b : bytes) : Z := Z.of_nat (length b).
Definition lcount (l : list bytes) : Z := Z.of_nat (length l).
Definition total (l : list bytes) : Z := foldr (fun b acc => blen b + acc) 0 l.
Definition flat (l : list bytes) : bytes := concat l.

(** ** OutputBuffer *)

Record OutputBuffer := MkBuffer { lines : list bytes; total_size : Z; last_line_incomplete : bool }.
Definition buffer_new : OutputBuffer := MkBuffer [] 0 false.

(** [data.iter().position(|&b| b == b'\n')]: the data up to and including the
    first newline, and the rest. *)
Fixpoint after_newline (data : bytes) : option (bytes * bytes) :=
  match data with
  | [] => None
  | b :: r => if b =? 10 then Some ([10], r) else '(h, t) ← after_newline r; Some (b :: h, t)
  end.

(** The loop over the pieces of the remaining data. *)
Fixpoint push_pieces (ends_with_newline : bool) (pieces : list bytes) (b : OutputBuffer) : OutputBuffer :=
  match pieces with
  | [] => b
  | [p] =>
    let incomplete := if negb ends_with_newline && negb (bool_decide (p = [])) then true else last_line_incomplete b in
    if bool_decide (p = []) then MkBuffer (lines b) (total_size b) incomplete
    else let line := if ends_with_newline then p ++ [10] else p in
         MkBuffer (lines b ++ [line]) (total_size b + blen line) incomplete
  | p :: rest =>
    let line := p ++ [10] in
    push_pieces ends_with_newline rest (MkBuffer (lines b ++ [line]) (total_size b + blen line) (last_line_incomplete b))
  end.

(** The trimming loop: oldest lines first. *)
Fixpoint trim_lines (ls : list bytes) (size : Z) (incomplete : bool) : OutputBuffer :=
  if (MAX_OUTPUT_BUFFER_SIZE <? size) || (MAX_BUFFER_LINES <? lcount ls) then
    match ls with
    | removed :: rest =>
      trim_lines rest (if size <? blen removed then total rest else size - blen removed)
        (if bool_decide (rest = []) then false else incomplete)
    | [] => MkBuffer [] 0 false
    end
  else MkBuffer ls size incomplete.

Definition append_rest (remaining : bytes) (b : OutputBuffer) : OutputBuffer :=
  let ends := bool_decide (last remaining = Some 10) in
  let b := push_pieces ends (split_char 10 remaining) b in
  trim_lines (lines b) (total_size b) (last_line_incomplete b).

Definition append (data : bytes) (b : OutputBuffer) : OutputBuffer :=
  if bool_decide (data = []) then b
  else
    match (if last_line_incomplete b then last (lines b) else None) with
    | Some last_line =>
      let init := take (length (lines b) - 1) (lines b) in
      match after_newline data with
      | Some (h, t) => append_rest t (MkBuffer (init ++ [last_line ++ h]) (total_size b + blen h) false)
      | None => MkBuffer (init ++ [last_line ++ data]) (total_size b + blen data) (last_line_incomplete b)
      end
    | None => append_rest data b
    end.

(** Skip at most three continuation bytes. *)
Fixpoint align (n : nat) (l : bytes) : bytes :=
  match n, l with
  | S n', b :: r => if Z.land b 0xC0 =? 0x80 then align n' r else l
  | _, _ => l
  end.

Arguments align : simpl never.

(** From the newest line to the oldest; the chunks come out newest first. *)
Fixpoint recent_chunks (max size : Z) (newest_first : list bytes) : list bytes :=
  match newest_first with
  | [] => []
  | line :: older =>
    if max <? size + blen line then
      if (size =? 0) && (max <? blen line) then
        let t := align 3 (drop (Z.to_nat (blen line - max)) line) in
        if bool_decide (t = []) then [] else [t]
      else []
    else line :: recent_chunks max (size + blen line) older
  end.

Definition get_recent (max : Z) (b : OutputBuffer) : bytes :=
  if max =? 0 then [] else flat (reverse (recent_chunks max 0 (reverse (lines b)))).

(** ** Splitting at a character boundary *)

(** The bytes held back: scans at most [n] bytes from the end; [dist] is the
    distance of the byte from the end. *)
Fixpoint held_back (n : nat) (dist : Z) (from_end : bytes) : Z :=
  match n, from_end with
  | S n', b :: r =>
    if Z.land b 0x80 =? 0 then 0
    else if Z.land b 0xC0 =? 0x80 then held_back n' (dist + 1) r
    else
      let enough (seq_len : Z) := if seq_len <=? dist then 0 else dist in
      if Z.land b 0xE0 =? 0xC0 then enough 2
      else if Z.land b 0xF0 =? 0xE0 then enough 3
      else if Z.land b 0xF8 =? 0xF0 then enough 4
      else 0
  | _, _ => 0
  end.

Definition find_utf8_split_point (buf : bytes) : Z := blen buf - held_back 3 1 (reverse buf).

(** [Utf8ChunkAccumulator]: the remainder is the state. *)
Definition push_chunk (data : bytes) (remainder : bytes) : option bytes * bytes :=
  if bool_decide (data = []) then (None, remainder)
  else
    let had_remainder := negb (bool_decide (remainder = [])) in
    let data := if had_remainder then remainder ++ data else data in
    let split := find_utf8_split_point data in
    if split =? blen data then (Some data, [])
    else if negb had_remainder && (0 <? split) && negb (bool_decide (is_Some (from_utf8 (take (Z.to_nat split) data))))
    then (Some data, [])
    else
      let rem := drop (Z.to_nat split) data in
      let out := take (Z.to_nat split) data in
      (if bool_decide (out = []) then None else Some out, rem).

Definition finish (remainder : bytes) : option bytes * bytes :=
  if bool_decide (remainder = []) then (None, []) else (Some remainder, []).

(** [try_send_output]: the channel's answer, and the drop statistics; the result
    says whether the reader stops. *)
Inductive TrySend := Sent | Full | Disconnected.
Record DropStats := MkDrops { drop_count : Z; last_drop_warn : Z }.
Definition try_send_output (answer : TrySend) (now : Z) (d : DropStats) : bool * DropStats :=
  match answer with
  | Sent => (false, MkDrops (if 0 <? drop_count d then 0 else drop_count d) (last_drop_warn d))
  | Full =>
    let n := u64_add (drop_count d) 1 in
    if 5000000000 <=? now - last_drop_warn d then (false, MkDrops 0 now) else (false, MkDrops n (last_drop_warn d))
  | Disconnected => (true, d)
  end.

(** What one call of [reader.read] meets: the result of the read, the [exiting]
    flag when the loop looks at it, and the channel's answer to the send. *)
Inductive ReadEvent :=
| ReadEof (answer : TrySend) (now : Z)
| ReadData (exiting : bool) (data : bytes) (answer : TrySend) (now : Z)
| ReadWouldBlock (exiting : bool)
| ReadError.

(** The reader thread: the chunks it offers to the output channel, with the
    channel's answers. *)
Fixpoint reader_loop (events : list ReadEvent) (remainder : bytes) (d : DropStats) : list (bytes * TrySend) :=
  match events with
  | [] => []
  | ReadEof a _ :: _ => match (finish remainder).1 with Some data => [(data, a)] | None => [] end
  | ReadData exiting data a now :: rest =>
    if exiting then []
    else
      match push_chunk data remainder with
      | (None, remainder) => reader_loop rest remainder d
      | (Some data, remainder) =>
        let '(stop, d) := try_send_output a now d in
        (data, a) :: (if stop then [] else reader_loop rest remainder d)
      end
  | ReadWouldBlock exiting :: rest => if exiting then [] else reader_loop rest remainder d
  | ReadError :: _ => []
  end.

(** ** The buffer's content *)

Definition buffer_ok (b : OutputBuffer) : Prop := total_size b = total (lines b).

Lemma total_app l l' : total (l ++ l') = total l + total l'.
Proof. induction l as [|x l IH]; simpl; [done|]. rewrite IH. lia. Qed.

Lemma total_flat l : total l = blen (flat l).
Proof.
  unfold flat, blen. induction l as [|x l IH]; simpl; [done|]. rewrite IH, length_app. unfold blen. lia.
Qed.

Lemma blen_app (a b : bytes) : blen (a ++ b) = blen a + blen b.
Proof. unfold blen. rewrite length_app. lia. Qed.

Lemma flat_one (x : bytes) : flat [x] = x.
Proof. apply app_nil_r. Qed.

Lemma flat_app l l' : flat (l ++ l') = flat l ++ flat l'.
Proof. apply concat_app. Qed.

Lemma after_newline_some data h t : after_newline data = Some (h, t) -> data = h ++ t /\ last h = Some 10.
Proof.
  revert h t. induction data as [|b r IH]; intros h t; simpl; [done|].
  destruct (Z.eqb_spec b 10) as [->|]; [intros [= <- <-]; done|].
  destruct (after_newline r) as [[h' t']|]; simpl; [|done]. intros [= <- <-].
  destruct (IH h' t' eq_refl) as [-> Hl]. split; [done|]. destruct h'; [done|]. exact Hl.
Qed.

(** The pieces pushed are the data. *)
Lemma push_pieces_flat ends ps b : buffer_ok b -> ps <> [] -> (ends = true -> last ps = Some []) ->
  buffer_ok (push_pieces ends ps b) /\ flat (lines (push_pieces ends ps b)) = flat (lines b) ++ join [10] ps.
Proof.
  revert b. induction ps as [|p [|q rest] IH]; intros b Hok Hne Hends; [done| |].
  - clear IH. unfold buffer_ok in *. simpl. case_bool_decide as Hp; simpl.
    + subst p. split; [done|]. rewrite !app_nil_r. done.
    + destruct ends; [by specialize (Hends eq_refl) as [= ->]|]. simpl.
      split; [rewrite total_app; simpl; lia|]. rewrite flat_app. unfold flat at 2. simpl. by rewrite !app_nil_r.
  - change (push_pieces ends (p :: q :: rest) b) with
      (push_pieces ends (q :: rest) (MkBuffer (lines b ++ [p ++ [10]]) (total_size b + blen (p ++ [10])) (last_line_incomplete b))).
    destruct (IH (MkBuffer (lines b ++ [p ++ [10]]) (total_size b + blen (p ++ [10])) (last_line_incomplete b)))
      as [Hok' Hfl]; [|done| |].
    + unfold buffer_ok in *; simpl. rewrite total_app. simpl. lia.
    + intros He. specialize (Hends He). done.
    + split; [done|]. rewrite Hfl. simpl lines. rewrite flat_app. unfold flat at 2; simpl. rewrite app_nil_r, <- !app_assoc. done.
Qed.

Lemma trim_spec ls size inc : size = total ls ->
  let b := trim_lines ls size inc in
  buffer_ok b /\ total_size b <= MAX_OUTPUT_BUFFER_SIZE /\ lcount (lines b) <= MAX_BUFFER_LINES /\
  exists dropped, ls = dropped ++ lines b.
Proof.
  revert size inc. induction ls as [|x ls IH]; intros size inc Hs; simpl.
  - simpl in Hs. subst size. split; [done|]. simpl. unfold MAX_OUTPUT_BUFFER_SIZE, MAX_BUFFER_LINES. simpl.
    split; [lia|]. split; [unfold lcount; simpl; lia|]. by exists [].
  - destruct (_ || _) eqn:E.
    + simpl in Hs. assert (Hnn : 0 <= total ls) by (rewrite total_flat; unfold blen; lia).
      destruct (IH (if size <? blen x then total ls else size - blen x) (if bool_decide (ls = []) then false else inc))
        as (Hb & Ht & Hl & d & Hd); [zcases; lia|].
      split; [done|]. split; [done|]. split; [done|]. exists (x :: d). simpl. by f_equal.
    + bools. simpl. split; [done|]. split; [lia|]. split; [lia|]. by exists [].
Qed.

Lemma split_last_newline data : last data = Some 10 -> last (split_char 10 data) = Some [].
Proof.
  unfold split_char. induction data as [|b r IH]; [done|]. intros Hl. simpl.
  destruct r as [|b' r'].
  - injection Hl as ->. done.
  - assert (Hl' : last (b' :: r') = Some 10) by exact Hl. specialize (IH Hl').
    destruct (split _ (b' :: r')) as [|w ws] eqn:E; [done|].
    destruct (b =? 10); [exact IH|]. destruct ws as [|w' ws]; [|exact IH].
    injection IH as ->. exfalso. pose proof (join_split 10 (b' :: r')) as Hj. unfold split_char in Hj. rewrite E in Hj. done.
Qed.

(** Appending past an open line: everything kept, up to dropped oldest lines, and
    the limits hold. *)
Lemma append_rest_spec data b : buffer_ok b ->
  let b' := append_rest data b in
  buffer_ok b' /\ total_size b' <= MAX_OUTPUT_BUFFER_SIZE /\ lcount (lines b') <= MAX_BUFFER_LINES /\
  exists dropped, flat (lines b) ++ data = dropped ++ flat (lines b').
Proof.
  intros Hok. unfold append_rest. cbv zeta.
  set (ends := bool_decide (last data = Some 10)).
  destruct (push_pieces_flat ends (split_char 10 data) b Hok) as [Hok1 Hfl].
  - apply split_nonempty.
  - unfold ends. intros He. apply bool_decide_eq_true in He. by apply split_last_newline.
  - rewrite join_split in Hfl. set (b1 := push_pieces ends (split_char 10 data) b) in *.
    destruct (trim_spec (lines b1) (total_size b1) (last_line_incomplete b1) Hok1) as (H1 & H2 & H3 & d & Hd).
    split; [done|]. split; [done|]. split; [done|]. exists (flat d). rewrite <- Hfl, Hd at 1. apply flat_app.
Qed.

Lemma last_init {A} (l : list A) x : last l = Some x -> l = take (length l - 1) l ++ [x].
Proof.
  intros Hl. apply last_Some in Hl as [l' ->]. rewrite length_app. simpl.
  replace (length l' + 1 - 1)%nat with (length l') by lia. by rewrite take_app_length.
Qed.

(** A line left open that new data does not close. *)
Definition stays_open (data : bytes) (b : OutputBuffer) : bool :=
  last_line_incomplete b && negb (bool_decide (lines b = [])) && bool_decide (after_newline data = None).

Lemma append_spec data b : buffer_ok b ->
  let b' := append data b in
  buffer_ok b' /\ (exists dropped, flat (lines b) ++ data = dropped ++ flat (lines b')) /\
  (data <> [] -> stays_open data b = false -> total_size b' <= MAX_OUTPUT_BUFFER_SIZE /\ lcount (lines b') <= MAX_BUFFER_LINES) /\
  (stays_open data b = true -> total_size b' = total_size b + blen data).
Proof.
  intros Hok. unfold append. cbv zeta. case_bool_decide as Hne.
  { subst data. split; [done|]. split; [exists []; by rewrite app_nil_r|]. split; [done|]. intros _. unfold blen; simpl; lia. }
  unfold stays_open. destruct (last_line_incomplete b) eqn:Hinc; simpl.
  - destruct (last (lines b)) as [ll|] eqn:Hlast.
    + assert (Hnl : lines b <> []) by (intros E; by rewrite E in Hlast). rewrite (bool_decide_false (lines b = [])) by done. simpl.
      pose proof (last_init _ _ Hlast) as Hinit. set (init := take (length (lines b) - 1) (lines b)) in *. clearbody init.
      assert (Hopen : forall h inc, buffer_ok (MkBuffer (init ++ [ll ++ h]) (total_size b + blen h) inc) /\
        flat (init ++ [ll ++ h]) = flat (lines b) ++ h).
      { intros h inc. unfold buffer_ok in *. simpl. rewrite Hok, Hinit, !total_app, !flat_app, !flat_one. simpl.
        rewrite blen_app, <- app_assoc. split; [lia|done]. }
      destruct (after_newline data) as [[h t]|] eqn:Ha; simpl.
      * apply after_newline_some in Ha as [-> _]. destruct (Hopen h false) as [Hok1 Hfl].
        destruct (append_rest_spec t _ Hok1) as (H1 & H2 & H3 & d & Hd). simpl in Hd. rewrite Hfl, <- app_assoc in Hd.
        split; [done|]. split; [by exists d|]. split; [done|]. done.
      * destruct (Hopen data true) as [Hok1 Hfl]. split; [done|]. split; [exists []; by rewrite Hfl|]. split; [done|done].
    + apply last_None in Hlast. rewrite Hlast. simpl.
      destruct (append_rest_spec data b Hok) as (H1 & H2 & H3 & d & Hd). split; [done|]. split; [rewrite Hlast in Hd; by exists d|]. done.
  - destruct (append_rest_spec data b Hok) as (H1 & H2 & H3 & d & Hd). split; [done|]. split; [by exists d|]. done.
Qed.

(** ** Recent output *)

Lemma align_suffix n l : exists skipped, l = skipped ++ align n l /\ (length skipped <= n)%nat.
Proof.
  revert l. induction n as [|n IH]; intros l; [by exists []; split; simpl; [|lia]|].
  destruct l as [|b r]; [exists []; split; [done|simpl; lia]|]. unfold align; fold align.
  destruct (_ =? _); [|exists []; split; [done|simpl; lia]].
  destruct (IH r) as (sk & E & Hl). exists (b :: sk). simpl. split; [by f_equal|lia].
Qed.

Lemma recent_chunks_spec max size (nf : list bytes) : 0 <= size <= max ->
  blen (flat (reverse (recent_chunks max size nf))) <= max - size /\
  exists rest, flat (reverse nf) = rest ++ flat (reverse (recent_chunks max size nf)).
Proof.
  revert size. induction nf as [|line older IH]; intros size Hs; simpl.
  - unfold blen, flat; simpl. split; [lia|]. by exists [].
  - assert (Hl0 : 0 <= blen line) by (unfold blen; lia).
    rewrite reverse_cons, flat_app. destruct (Z.ltb_spec max (size + blen line)).
    + destruct ((size =? 0) && (max <? blen line)) eqn:E.
      * bools. set (t := drop (Z.to_nat (blen line - max)) line).
        assert (Ht : blen t = max) by (unfold t, blen in *; rewrite length_drop; lia).
        destruct (align_suffix 3 t) as (sk & Hsk & _).
        assert (Hal : blen (align 3 t) <= max) by (pose proof (f_equal blen Hsk) as E; rewrite blen_app in E; unfold blen in *; lia).
        assert (Hline : line = take (Z.to_nat (blen line - max)) line ++ sk ++ align 3 t).
        { rewrite <- Hsk. unfold t. by rewrite take_drop. }
        rewrite flat_one. case_bool_decide as Hemp;
          [split; [change (0 <= max - size); lia|eexists; symmetry; apply app_nil_r]|].
        rewrite reverse_singleton, flat_one. split; [lia|].
        exists (flat (reverse older) ++ take (Z.to_nat (blen line - max)) line ++ sk). rewrite <- !app_assoc. by rewrite <- Hline.
      * split; [change (0 <= max - size); lia|eexists; symmetry; apply app_nil_r].
    + destruct (IH (size + blen line)) as [Hb (rest & Hr)]; [lia|]. rewrite reverse_cons, flat_app, Hr, !flat_one.
      split; [|exists rest; by rewrite <- app_assoc]. rewrite blen_app. lia.
Qed.

(** What a replay of at most [max] bytes is, given the lines held: all of them
    when they fit; otherwise the newest lines, as many as fit; or the end of the
    newest line, at most three bytes short of [max], when that line alone is too
    long. *)
Inductive recent_of (max : Z) (ls : list bytes) (replay : bytes) : Prop :=
| recent_whole : total ls <= max -> replay = flat ls -> recent_of max ls replay
| recent_lines older line newer : ls = older ++ line :: newer ->
    0 < total newer <= max -> max < blen line + total newer -> replay = flat newer -> recent_of max ls replay
| recent_tail older line newer skipped : ls = older ++ line :: newer -> total newer = 0 ->
    max < blen line -> line = skipped ++ replay -> max - 3 <= blen replay <= max -> recent_of max ls replay.

Lemma recent_chunks_of max (nf newer : list bytes) : total newer <= max ->
  recent_of max (reverse nf ++ newer) (flat (reverse (recent_chunks max (total newer) nf)) ++ flat newer).
Proof.
  revert newer. induction nf as [|line older IH]; intros newer Hs.
  - apply recent_whole; done.
  - assert (Hn0 : 0 <= total newer) by (rewrite total_flat; unfold blen; lia).
    rewrite reverse_cons, <- app_assoc. cbn [app recent_chunks]. destruct (Z.ltb_spec max (total newer + blen line)) as [Hx|Hx].
    + destruct ((total newer =? 0) && (max <? blen line)) eqn:E; bools.
      * assert (Hfl : flat newer = []) by (apply nil_length_inv; rewrite total_flat in *; unfold blen in *; lia).
        rewrite Hfl, app_nil_r. set (t := drop (Z.to_nat (blen line - max)) line).
        assert (Ht : blen t = max) by (unfold t, blen in *; rewrite length_drop; lia).
        destruct (align_suffix 3 t) as (sk & Hsk & Hsl).
        assert (Er : flat (reverse (if bool_decide (align 3 t = []) then [] else [align 3 t])) = align 3 t).
        { case_bool_decide as He; [by rewrite He|]. by rewrite reverse_singleton, flat_one. }
        rewrite Er. apply (recent_tail _ _ _ (reverse older) line newer (take (Z.to_nat (blen line - max)) line ++ sk)); try done.
        -- rewrite <- app_assoc, <- Hsk. unfold t. by rewrite take_drop.
        -- pose proof (f_equal blen Hsk) as El. rewrite blen_app in El. unfold blen in *. lia.
      * apply (recent_lines _ _ _ (reverse older) line newer); [done| |lia|done]. lia.
    + specialize (IH (line :: newer)). cbn [total foldr] in IH. fold (total newer) in IH.
      rewrite (Z.add_comm (total newer)), reverse_cons, flat_app, flat_one, <- app_assoc. apply IH. lia.
Qed.

Lemma get_recent_of max (b : OutputBuffer) : 0 < max -> recent_of max (lines b) (get_recent max b).
Proof.
  intros Hm. pose proof (recent_chunks_of max (reverse (lines b)) [] ltac:(simpl; lia)) as H.
  rewrite reverse_involutive, !app_nil_r in H. unfold get_recent. by rewrite (proj2 (Z.eqb_neq max 0)) by lia.
Qed.

Lemma get_recent_suffix max (b : OutputBuffer) : 0 < max -> exists older, flat (lines b) = older ++ get_recent max b.
Proof.
  intros Hm. unfold get_recent. rewrite (proj2 (Z.eqb_neq max 0)) by lia.
  destruct (recent_chunks_spec max 0 (reverse (lines b))) as [_ H]; [lia|]. by rewrite reverse_involutive in H.
Qed.

Lemma recent_of_whole max ls replay : recent_of max ls replay -> total ls <= max -> replay = flat ls.
Proof.
  intros [_ H|older line newer -> Hn Hx _|older line newer sk -> Hn Hx _ _] Hle; [done| |];
    rewrite total_app in Hle; simpl in Hle; fold (total newer) in *;
    assert (0 <= total older) by (rewrite total_flat; unfold blen; lia); lia.
Qed.

(** ** Short histories are never trimmed *)

Definition filled (ls : list bytes) : Prop := Forall (fun l => l <> []) ls.

Lemma filled_count ls : filled ls -> lcount ls <= total ls.
Proof.
  induction 1 as [|l ls Hl _ IH]; [done|]. unfold lcount in *. simpl. destruct l; [done|]. unfold blen. simpl length. lia.
Qed.

Lemma push_pieces_filled ends ps b : filled (lines b) -> filled (lines (push_pieces ends ps b)).
Proof.
  revert b. induction ps as [|p [|q rest] IH]; intros b Hb; [done| |].
  - simpl. case_bool_decide as Hp; [done|]. simpl. apply Forall_app. split; [done|]. constructor; [|done].
    destruct ends; [|done]. by destruct p.
  - apply (IH (MkBuffer (lines b ++ [p ++ [10]]) (total_size b + blen (p ++ [10])) (last_line_incomplete b))). simpl.
    apply Forall_app. split; [done|]. constructor; [|done]. by destruct p.
Qed.

Lemma append_rest_short data b : buffer_ok b -> filled (lines b) -> total (lines b) + blen data <= MAX_BUFFER_LINES ->
  filled (lines (append_rest data b)) /\ flat (lines (append_rest data b)) = flat (lines b) ++ data.
Proof.
  intros Hok Hf Hl. unfold append_rest. cbv zeta. set (ends := bool_decide (last data = Some 10)).
  destruct (push_pieces_flat ends (split_char 10 data) b Hok) as [Hok1 Hfl].
  { apply split_nonempty. } { unfold ends. intros He. apply bool_decide_eq_true in He. by apply split_last_newline. }
  pose proof (push_pieces_filled ends (split_char 10 data) b Hf) as Hf1. rewrite join_split in Hfl.
  set (b1 := push_pieces ends (split_char 10 data) b) in *. clearbody b1.
  assert (Ht : total (lines b1) <= MAX_BUFFER_LINES) by (rewrite total_flat in *; rewrite Hfl, blen_app; lia).
  pose proof (filled_count _ Hf1) as Hc.
  assert (Et : trim_lines (lines b1) (total_size b1) (last_line_incomplete b1) = MkBuffer (lines b1) (total_size b1) (last_line_incomplete b1)).
  { rewrite Hok1. clear -Ht Hc. unfold MAX_BUFFER_LINES in *. destruct (lines b1) as [|l ls] eqn:E; [done|]. cbn [trim_lines].
    rewrite (proj2 (Z.ltb_ge _ _)) by (unfold MAX_OUTPUT_BUFFER_SIZE; lia).
    rewrite (proj2 (Z.ltb_ge _ _)) by (unfold MAX_BUFFER_LINES; lia). done. }
  rewrite Et. done.
Qed.

Lemma append_short data b : buffer_ok b -> filled (lines b) -> total (lines b) + blen data <= MAX_BUFFER_LINES ->
  filled (lines (append data b)) /\ flat (lines (append data b)) = flat (lines b) ++ data.
Proof.
  intros Hok Hf Hl. unfold append. cbv zeta. case_bool_decide as Hne; [subst data; by rewrite app_nil_r|].
  destruct (if last_line_incomplete b then last (lines b) else None) as [ll|] eqn:El; [|by apply append_rest_short].
  assert (Hlast : last (lines b) = Some ll) by (by destruct (last_line_incomplete b)).
  pose proof (last_init _ _ Hlast) as Hinit. set (init := take (length (lines b) - 1) (lines b)) in *. clearbody init.
  rewrite Hinit in Hf. apply Forall_app in Hf as [Hf1 Hf2]. apply Forall_cons in Hf2 as [Hll _].
  assert (Hopen : forall h, filled (init ++ [ll ++ h]) /\ flat (init ++ [ll ++ h]) = flat (lines b) ++ h /\
      total (init ++ [ll ++ h]) = total (lines b) + blen h).
  { intros h. rewrite Hinit, !flat_app, !flat_one, !total_app, <- app_assoc. simpl. rewrite blen_app. split; [|split; [done|lia]].
    apply Forall_app. split; [done|]. constructor; [by destruct ll|done]. }
  destruct (after_newline data) as [[h t]|] eqn:Ea; [|simpl; by destruct (Hopen data) as (? & ? & _)].
  apply after_newline_some in Ea as [-> _]. destruct (Hopen h) as (H1 & H2 & H3). rewrite blen_app in Hl.
  destruct (append_rest_short t (MkBuffer (init ++ [ll ++ h]) (total_size b + blen h) false)) as [Ha Hb]; simpl; [|done|lia|].
  - unfold buffer_ok in *. simpl. lia.
  - split; [exact Ha|]. rewrite Hb. simpl. by rewrite H2, app_assoc.
Qed.

(** ** Character boundaries *)

Definition cont (b : Z) : Prop := 128 <= b < 192.
Definition lead (k : nat) (b : Z) : Prop :=
  (k = 2%nat /\ 192 <= b < 224) \/ (k = 3%nat /\ 224 <= b < 240) \/ (k = 4%nat /\ 240 <= b < 248).

(** The bit tests, as ranges, for every byte. *)
Lemma byte_classes b : 0 <= b < 256 ->
  (Z.land b 0x80 =? 0) = (b <? 128) /\ (128 <= b -> (Z.land b 0xC0 =? 0x80) = (b <? 192)) /\
  (192 <= b -> (Z.land b 0xE0 =? 0xC0) = (b <? 224)) /\ (224 <= b -> (Z.land b 0xF0 =? 0xE0) = (b <? 240)) /\
  (240 <= b -> (Z.land b 0xF8 =? 0xF0) = (b <? 248)).
Proof.
  intros Hb. assert (Hc := octet_check (fun b => eqb (Z.land b 0x80 =? 0) (b <? 128) &&
    ((b <? 128) || eqb (Z.land b 0xC0 =? 0x80) (b <? 192)) && ((b <? 192) || eqb (Z.land b 0xE0 =? 0xC0) (b <? 224)) &&
    ((b <? 224) || eqb (Z.land b 0xF0 =? 0xE0) (b <? 240)) && ((b <? 240) || eqb (Z.land b 0xF8 =? 0xF0) (b <? 248)))
    ltac:(vm_compute; reflexivity) b Hb). simpl in Hc.
  repeat (apply andb_prop in Hc as [Hc ?]).
  split; [by apply eqb_prop|].
  repeat split; intros; match goal with H : (?x <? ?y) || eqb ?u ?v = true |- ?u = ?v =>
    apply orb_prop in H as [H|H]; [apply Z.ltb_lt in H; lia|by apply eqb_prop] end.
Qed.

Lemma held_cont n d b r : cont b -> held_back (S n) d (b :: r) = held_back n (d + 1) r.
Proof.
  unfold cont. intros Hb. destruct (byte_classes b ltac:(lia)) as (E1 & E2 & _). simpl.
  rewrite E1, E2 by lia. rewrite (proj2 (Z.ltb_ge b 128)), (proj2 (Z.ltb_lt b 192)) by lia. done.
Qed.

Lemma held_lead n d k b r : lead k b -> held_back (S n) d (b :: r) = if Z.of_nat k <=? d then 0 else d.
Proof.
  unfold lead. intros Hb. destruct (byte_classes b ltac:(lia)) as (E1 & E2 & E3 & E4 & E5). simpl.
  rewrite E1, E2, E3 by lia. rewrite (proj2 (Z.ltb_ge b 128)), (proj2 (Z.ltb_ge b 192)) by lia.
  destruct Hb as [[-> Hb]|[[-> Hb]|[-> Hb]]].
  - by rewrite (proj2 (Z.ltb_lt b 224)) by lia.
  - rewrite (proj2 (Z.ltb_ge b 224)), E4 by lia. by rewrite (proj2 (Z.ltb_lt b 240)) by lia.
  - rewrite (proj2 (Z.ltb_ge b 224)), E4, (proj2 (Z.ltb_ge b 240)), E5 by lia. by rewrite (proj2 (Z.ltb_lt b 248)) by lia.
Qed.

Lemma held_conts t n d rest : Forall cont t -> (length t <= n)%nat ->
  held_back n d (reverse t ++ rest) = held_back (n - length t) (d + blen t) rest.
Proof.
  revert n d rest. induction t as [|b t IH] using rev_ind; intros n d rest Ht Hn.
  - simpl. unfold blen; simpl. by rewrite Z.add_0_r, Nat.sub_0_r.
  - apply Forall_app in Ht as [Ht Hb]. apply Forall_cons in Hb as [Hb _]. rewrite length_app in Hn. simpl in Hn.
    rewrite reverse_app, reverse_singleton. simpl app. destruct n as [|n]; [lia|].
    rewrite held_cont by done. rewrite IH by (done || lia). rewrite blen_app, length_app. simpl.
    f_equal; [lia|]. unfold blen; simpl. lia.
Qed.

(** An encoded character: ASCII, or a lead byte with its continuation bytes. *)
Lemma utf8_shape c : is_scalar c ->
  (exists a, utf8_char c = [a] /\ 0 <= a < 128) \/
  (exists l t, utf8_char c = l :: t /\ lead (S (length t)) l /\ Forall cont t /\ (length t <= 3)%nat).
Proof.
  unfold is_scalar, utf8_char, lead. intros Hc.
  destruct (Z.ltb_spec c 0x80); [left; exists c; split; [done|lia]|right].
  destruct (Z.ltb_spec c 0x800); [|destruct (Z.ltb_spec c 0x10000)]; eexists _, _; (split; [done|]); simpl length.
  - split; [left; divmod|]. split; [|lia]. repeat constructor; unfold cont; divmod.
  - split; [right; left; divmod|]. split; [|lia]. repeat constructor; unfold cont; divmod.
  - split; [right; right; divmod|]. split; [|lia]. repeat constructor; unfold cont; divmod.
Qed.

Lemma held_complete cs : Forall is_scalar cs -> held_back 3 1 (reverse (str_bytes cs)) = 0.
Proof.
  intros Hcs. induction cs as [|c cs _] using rev_ind; [done|].
  apply Forall_app in Hcs as [Hcs Hc]. apply Forall_cons in Hc as [Hc _].
  assert (E : str_bytes (cs ++ [c]) = str_bytes cs ++ utf8_char c).
  { unfold str_bytes. rewrite bind_app. simpl. by rewrite app_nil_r. }
  rewrite E, reverse_app. destruct (utf8_shape c Hc) as [(a & -> & Ha)|(l & t & -> & Hl & Ht & Hlen)].
  - rewrite reverse_singleton. destruct (byte_classes a ltac:(lia)) as (E1 & _). simpl app. unfold held_back.
    rewrite E1. by rewrite (proj2 (Z.ltb_lt a 128)) by lia.
  - rewrite reverse_cons, <- app_assoc, held_conts by done. simpl app.
    destruct (3 - length t)%nat eqn:En; [done|]. rewrite (held_lead _ _ _ _ _ Hl).
    rewrite (proj2 (Z.leb_le (Z.of_nat (S (length t))) (1 + blen t))); [done|unfold blen; lia].
Qed.

(** A proper prefix of an encoded character is held back whole. *)
Lemma held_partial c p q rest : is_scalar c -> utf8_char c = p ++ q -> p <> [] -> q <> [] ->
  held_back 3 1 (reverse p ++ rest) = blen p.
Proof.
  intros Hc E Hp Hq. destruct (utf8_shape c Hc) as [(a & Hs & Ha)|(l & t & Hs & Hl & Ht & Hlen)]; rewrite Hs in E.
  - destruct p as [|x [|y p]]; [done| |done]. destruct q; [done|]. done.
  - destruct p as [|x p]; [done|]. simpl in E. injection E as <- Et. subst t.
    apply Forall_app in Ht as [Ht _]. rewrite length_app in *. destruct q; [done|]. simpl length in *.
    rewrite reverse_cons, <- app_assoc, held_conts by (done || lia). simpl app.
    destruct (3 - length p)%nat eqn:En; [lia|]. rewrite (held_lead _ _ _ _ _ Hl).
    rewrite (proj2 (Z.leb_gt (Z.of_nat (S (length p + S (length q)))) (1 + blen p))); unfold blen; simpl length; lia.
Qed.

(** A prefix of an encoded text is some whole characters and part of the next. *)
Lemma prefix_decomp (data later : bytes) (cs : str) : str_bytes cs = data ++ later -> Forall is_scalar cs ->
  exists cs1 p cs2, cs = cs1 ++ cs2 /\ data = str_bytes cs1 ++ p /\
    (p = [] \/ exists c q cs3, cs2 = c :: cs3 /\ utf8_char c = p ++ q /\ p <> [] /\ q <> []).
Proof.
  revert data. induction cs as [|c cs IH]; intros data E Hcs.
  - exists [], [], []. split; [done|]. change (str_bytes []) with (@nil Z) in E. destruct data; [|done]. by split; [|left].
  - apply Forall_cons in Hcs as [Hc Hcs]. change (str_bytes (c :: cs)) with (utf8_char c ++ str_bytes cs) in E.
    destruct (decide (length data < length (utf8_char c))%nat) as [Hlt|Hge].
    + exists [], data, (c :: cs). split; [done|]. split; [done|].
      destruct data as [|d data]; [by left|right]. exists c, (drop (length (d :: data)) (utf8_char c)), cs.
      assert (Ep : take (length (d :: data)) (utf8_char c) = d :: data).
      { rewrite <- (take_app_le (utf8_char c) (str_bytes cs)) by lia. rewrite E. by rewrite take_app_length. }
      split; [done|]. split; [by rewrite <- Ep at 1; rewrite take_drop|]. split; [done|].
      intros Hn. apply (f_equal length) in Hn. rewrite length_drop in Hn. simpl in *. lia.
    + assert (Ed : data = utf8_char c ++ drop (length (utf8_char c)) data).
      { rewrite <- (take_drop (length (utf8_char c)) data) at 1. f_equal.
        rewrite <- (take_app_le data later) by lia. rewrite <- E. by rewrite take_app_length. }
      rewrite Ed, <- app_assoc in E. apply app_inv_head in E. destruct (IH _ E Hcs) as (cs1 & p & cs2 & -> & Ed' & Hp).
      exists (c :: cs1), p, cs2. split; [done|]. split; [|done].
      change (str_bytes (c :: cs1)) with (utf8_char c ++ str_bytes cs1). rewrite Ed, Ed', <- app_assoc. done.
Qed.

(** ** The splitter *)

Lemma held_back_bound n d l : 1 <= d -> 0 <= held_back n d l <= d + Z.of_nat n - 1.
Proof.
  revert d l. induction n as [|n IH]; intros d l Hd; [simpl; lia|]. destruct l as [|b r]; [simpl; lia|].
  simpl. destruct (Z.land b 128 =? 0); [lia|]. destruct (_ =? 128); [specialize (IH (d + 1) r); lia|].
  repeat (match goal with |- context [if ?c then _ else _] => destruct c end); lia.
Qed.

Lemma held_back_len n d l : 1 <= d -> 0 <= held_back n d l <= d + blen l - 1.
Proof.
  revert d l. induction n as [|n IH]; intros d l Hd; [simpl; unfold blen; lia|].
  destruct l as [|b r]; [unfold blen; simpl; lia|]. assert (E : blen (b :: r) = 1 + blen r) by (unfold blen; simpl; lia). rewrite E.
  assert (0 <= blen r) by (unfold blen; lia).
  simpl. destruct (Z.land b 128 =? 0); [lia|]. destruct (_ =? 128); [specialize (IH (d + 1) r); lia|].
  repeat (match goal with |- context [if ?c then _ else _] => destruct c end); lia.
Qed.

Lemma blen_reverse (l : bytes) : blen (reverse l) = blen l.
Proof. unfold blen. by rewrite length_reverse. Qed.

(** The splitter neither loses nor invents bytes, and keeps at most three. *)
Lemma push_chunk_lossless data rem : blen rem <= 3 ->
  let '(out, rem') := push_chunk data rem in default [] out ++ rem' = rem ++ data /\ blen rem' <= 3.
Proof.
  intros Hr. unfold push_chunk. case_bool_decide as Hd; [subst; simpl; by rewrite app_nil_r|].
  assert (E : (if negb (bool_decide (rem = [])) then rem ++ data else data) = rem ++ data)
    by (case_bool_decide; [by subst rem|done]).
  rewrite E. clear E. set (D := rem ++ data). set (h := negb _). clearbody h. unfold find_utf8_split_point.
  pose proof (held_back_bound 3 1 (reverse D) ltac:(lia)) as Hb.
  pose proof (held_back_len 3 1 (reverse D) ltac:(lia)) as Hl. rewrite blen_reverse in Hl.
  set (k := held_back 3 1 (reverse D)) in *. cbv zeta.
  assert (Hnil : blen [] <= 3) by (unfold blen; simpl; lia).
  destruct (_ =? _); [split; [apply app_nil_r|done]|]. destruct (_ && _); [split; [apply app_nil_r|done]|].
  split; [|unfold blen in *; rewrite length_drop; lia].
  case_bool_decide as Ho; simpl; [|apply take_drop]. pose proof (take_drop (Z.to_nat (blen D - k)) D) as Et. rewrite Ho in Et. exact Et.
Qed.

Lemma str_bytes_app cs cs' : str_bytes (cs ++ cs') = str_bytes cs ++ str_bytes cs'.
Proof. unfold str_bytes. apply bind_app. Qed.

(** On encoded text the splitter passes on whole characters. *)
Lemma push_chunk_text data rem later cs : data <> [] -> Forall is_scalar cs -> str_bytes cs = (rem ++ data) ++ later ->
  exists cs1 cs2 rem', cs = cs1 ++ cs2 /\ rem' ++ later = str_bytes cs2 /\
    (push_chunk data rem = (Some (str_bytes cs1), rem') \/ (push_chunk data rem = (None, rem') /\ cs1 = [])).
Proof.
  intros Hd Hcs E. destruct (prefix_decomp _ _ _ E Hcs) as (cs1 & p & cs2 & Ecs & ED & Hp). subst cs.
  exists cs1, cs2, p. split; [done|].
  assert (Hlater : p ++ later = str_bytes cs2).
  { rewrite str_bytes_app, ED, <- app_assoc in E. by apply app_inv_head in E. }
  split; [done|]. apply Forall_app in Hcs as [Hcs1 Hcs2]. unfold push_chunk. rewrite (bool_decide_false (data = [])) by done.
  assert (Eif : (if negb (bool_decide (rem = [])) then rem ++ data else data) = rem ++ data)
    by (case_bool_decide; [by subst rem|done]).
  rewrite Eif, ED. clear Eif. set (h := negb _). clearbody h. cbv zeta. unfold find_utf8_split_point.
  destruct Hp as [->|(c & q & cs3 & -> & Ec & Hpn & Hq)].
  - rewrite app_nil_r, held_complete by done. rewrite Z.sub_0_r, Z.eqb_refl. by left.
  - apply Forall_cons in Hcs2 as [Hc _]. rewrite reverse_app, (held_partial c p q) by done.
    assert (Hpl : 0 < blen p) by (unfold blen; destruct p; [done|simpl; lia]). rewrite blen_app.
    replace (blen (str_bytes cs1) + blen p - blen p) with (blen (str_bytes cs1)) by lia.
    rewrite (proj2 (Z.eqb_neq _ _)) by lia.
    assert (Et : take (Z.to_nat (blen (str_bytes cs1))) (str_bytes cs1 ++ p) = str_bytes cs1)
      by (unfold blen; by rewrite Nat2Z.id, take_app_length).
    assert (Ed : drop (Z.to_nat (blen (str_bytes cs1))) (str_bytes cs1 ++ p) = p)
      by (unfold blen; by rewrite Nat2Z.id, drop_app_length).
    rewrite Et, Ed, from_utf8_bytes by done. rewrite (bool_decide_true (is_Some (Some cs1))) by eauto.
    rewrite andb_false_r.
    case_bool_decide as Hz; [right|by left]. split; [done|]. destruct cs1 as [|c1 cs1]; [done|].
    exfalso. apply (f_equal length) in Hz. change (str_bytes (c1 :: cs1)) with (utf8_char c1 ++ str_bytes cs1) in Hz.
    rewrite length_app in Hz. destruct (utf8_shape c1) as [(a & Ea & _)|(l & t & Ea & _)];
      [by inversion Hcs1| |]; rewrite Ea in Hz; done.
Qed.

(** ** Whole runs *)

Definition record (chunks : list bytes) : OutputBuffer := foldl (fun b d => append d b) buffer_new chunks.

Lemma record_snoc chunks d : record (chunks ++ [d]) = append d (record chunks).
Proof. unfold record. by rewrite foldl_app. Qed.

Lemma record_facts chunks :
  buffer_ok (record chunks) /\ exists dropped, flat chunks = dropped ++ flat (lines (record chunks)).
Proof.
  induction chunks as [|d chunks [Hok (dr & Hs)]] using rev_ind; [split; [done|by exists []]|].
  rewrite record_snoc. destruct (append_spec d _ Hok) as (Hok' & (dr' & Hs') & _). split; [done|].
  exists (dr ++ dr'). rewrite flat_app, flat_one, Hs, <- !app_assoc, Hs'. done.
Qed.

Lemma record_short chunks : blen (flat chunks) <= MAX_BUFFER_LINES ->
  filled (lines (record chunks)) /\ flat (lines (record chunks)) = flat chunks.
Proof.
  induction chunks as [|d chunks IH] using rev_ind; intros Hl; [split; [constructor|done]|].
  rewrite flat_app, flat_one, blen_app in *. destruct IH as [Hf He]; [unfold blen in *; lia|].
  rewrite record_snoc. destruct (append_short d (record chunks)) as [Hf' He'];
    [apply record_facts|done|rewrite total_flat, He; lia|]. split; [done|]. by rewrite He', He.
Qed.

Lemma recent_chunks_all max size (nf : list bytes) : 0 <= size -> size + total nf <= max -> recent_chunks max size nf = nf.
Proof.
  revert size. induction nf as [|l nf IH]; intros size Hs Ht; [done|]. simpl in *.
  assert (0 <= total nf) by (rewrite total_flat; unfold blen; lia). assert (0 <= blen l) by (unfold blen; lia).
  rewrite (proj2 (Z.ltb_ge _ _)) by lia. f_equal. apply IH; lia.
Qed.

Lemma total_reverse l : total (reverse l) = total l.
Proof.
  induction l as [|x l IH]; [done|]. rewrite reverse_cons, total_app, IH. simpl. lia.
Qed.

(** A chunk without a newline is one piece. *)
Lemma split_no_newline (d : bytes) : 10 ∉ d -> (split_char 10 d) = [d].
Proof.
  unfold split_char. induction d as [|b d IH]; [done|]. intros Hn. apply not_elem_of_cons in Hn as [Hb Hn].
  simpl. rewrite IH by done. by rewrite (proj2 (Z.eqb_neq b 10)) by congruence.
Qed.

Lemma after_newline_none (d : bytes) : 10 ∉ d -> after_newline d = None.
Proof.
  induction d as [|b d IH]; [done|]. intros Hn. apply not_elem_of_cons in Hn as [Hb Hn]. simpl.
  rewrite (proj2 (Z.eqb_neq b 10)) by congruence. by rewrite IH.
Qed.

Definition open_chunk (d : bytes) : Prop := d <> [] /\ (10 ∉ d) /\ (blen d <= 4096).

Lemma append_open_first d : open_chunk d -> append d buffer_new = MkBuffer [d] (blen d) true.
Proof.
  intros (Hne & Hn & Hl). unfold append. rewrite bool_decide_false by done. simpl. unfold append_rest.
  rewrite split_no_newline by done. rewrite (bool_decide_false (last d = Some 10));
    [|intros E; apply last_Some in E as [l' ->]; apply Hn; set_solver].
  cbn [push_pieces]. rewrite !(bool_decide_false (d = [])) by done. cbn [negb andb lines total_size last_line_incomplete buffer_new app trim_lines].
  rewrite (proj2 (Z.ltb_ge _ _)) by (unfold MAX_OUTPUT_BUFFER_SIZE; lia). done.
Qed.

Lemma record_open d chunks : open_chunk d -> Forall open_chunk chunks ->
  record (d :: chunks) = MkBuffer [d ++ flat chunks] (blen d + blen (flat chunks)) true.
Proof.
  intros Hd Hcs. induction chunks as [|c chunks IH] using rev_ind.
  - unfold record. simpl. rewrite append_open_first by done. unfold flat, blen. simpl. rewrite app_nil_r. f_equal; lia.
  - apply Forall_app in Hcs as [Hcs Hc]. apply Forall_cons in Hc as [(Hne & Hn & _) _].
    change (d :: chunks ++ [c]) with ((d :: chunks) ++ [c]). rewrite record_snoc, IH by done.
    unfold append. rewrite bool_decide_false by done. simpl. rewrite after_newline_none by done.
    rewrite flat_app, flat_one, blen_app, app_assoc. f_equal. lia.
Qed.

(** A reader that is not told to exit, whose channel stays connected. *)
Definition keeps_reading (e : ReadEvent) : Prop :=
  match e with
  | ReadData exiting data a _ => exiting = false /\ data <> [] /\ a <> Disconnected
  | ReadWouldBlock exiting => exiting = false
  | _ => False
  end.
#[global] Instance keeps_reading_dec e : Decision (keeps_reading e).
Proof.
  destruct e as [| |ex|]; simpl; try apply _. apply and_dec; [apply _|]. apply and_dec; [apply _|].
  apply not_dec. destruct answer; [right|right|left]; done.
Defined.

Definition payload (e : ReadEvent) : bytes := match e with ReadData _ d _ _ => d | _ => [] end.

Lemma try_send_continues a now d : a <> Disconnected -> exists d', try_send_output a now d = (false, d').
Proof. destruct a; [| |done]; intros _; simpl; [by eexists|]. destruct (_ <=? _); by eexists. Qed.

Lemma reader_lossless evs rem d a now : Forall keeps_reading evs -> blen rem <= 3 ->
  flat (reader_loop (evs ++ [ReadEof a now]) rem d).*1 = rem ++ flat (payload <$> evs).
Proof.
  revert rem d. induction evs as [|e evs IH]; intros rem d He Hr; simpl.
  - unfold finish. case_bool_decide; [by subst rem|]. simpl. unfold flat. simpl. by rewrite !app_nil_r.
  - apply Forall_cons in He as [He Hes]. destruct e as [| ex data ans t | ex |]; simpl in He; [done| | |done].
    + destruct He as (-> & Hd & Ha). pose proof (push_chunk_lossless data rem Hr) as Hp.
      destruct (push_chunk data rem) as [out rem']. destruct Hp as [Hp Hr'].
      change (flat (payload <$> ReadData false data ans t :: evs)) with (data ++ flat (payload <$> evs)).
      rewrite (app_assoc rem data), <- Hp. destruct out as [o|]; simpl.
      * destruct (try_send_continues ans t d Ha) as [d' ->]. simpl.
        change (flat (o :: ?l)) with (o ++ flat l). rewrite IH by done. by rewrite app_assoc.
      * by rewrite IH.
    + subst ex. by rewrite IH.
Qed.

Lemma reader_text evs rem d later cs : Forall keeps_reading evs -> Forall is_scalar cs ->
  str_bytes cs = rem ++ flat (payload <$> evs) ++ later ->
  Forall (fun o => is_Some (from_utf8 o)) (reader_loop evs rem d).*1.
Proof.
  revert rem d cs. induction evs as [|e evs IH]; intros rem d cs He Hcs E; simpl; [constructor|].
  apply Forall_cons in He as [He Hes]. destruct e as [| ex data ans t | ex |]; simpl in He; [done| | |done].
  - destruct He as (-> & Hd & Ha).
    change (flat (payload <$> ReadData false data ans t :: evs)) with (data ++ flat (payload <$> evs)) in E.
    rewrite <- app_assoc, app_assoc in E.
    destruct (push_chunk_text _ _ _ _ Hd Hcs E) as (cs1 & cs2 & rem' & -> & E2 & Hp).
    apply Forall_app in Hcs as [Hcs1 Hcs2]. destruct Hp as [->|[-> ->]].
    + destruct (try_send_continues ans t d Ha) as [d' ->]. simpl. constructor; [rewrite from_utf8_bytes by done; eauto|].
      eapply IH; [done|exact Hcs2|]. by rewrite E2.
    + eapply IH; [done|exact Hcs2|]. by rewrite E2.
  - subst ex. eapply IH; [done|exact Hcs|exact E].
Qed.

Module TerminalBufferClaims.

(** C40: The replay buffer of a terminal holds a suffix of the terminal's output
    and its size counter is exact after every append; unless the appended data
    merely lengthens a line that stays open, it holds at most
    [MAX_OUTPUT_BUFFER_SIZE] bytes in at most [MAX_BUFFER_LINES] lines. *)
Theorem replay_buffer_bounded_suffix (chunks : list bytes) (data : bytes) : data <> [] ->
  let b := record chunks in
  let b' := append data b in
  total_size b' = blen (flat (lines b')) /\
  (exists dropped, flat chunks ++ data = dropped ++ flat (lines b')) /\
  (stays_open data b = false ->
   total_size b' <= MAX_OUTPUT_BUFFER_SIZE /\ lcount (lines b') <= MAX_BUFFER_LINES).
Proof.
  intros Hd b b'. destruct (record_facts chunks) as [Hok (dr & Hs)].
  destruct (append_spec data _ Hok) as (Hok' & (dr' & Hs') & Hlim & _).
  split; [rewrite <- total_flat; exact Hok'|]. split; [|by apply Hlim].
  exists (dr ++ dr'). rewrite Hs, <- !app_assoc. f_equal. exact Hs'.
Qed.

Lemma replay_buffer_bounded_suffix_witness :
  total_size (append [99; 10; 100] (record [[97; 10; 98]])) <= MAX_OUTPUT_BUFFER_SIZE /\
  lines (append [99; 10; 100] (record [[97; 10; 98]])) = [[97; 10]; [98; 99; 10]; [100]].
Proof.
  split; [|vm_compute; reflexivity].
  apply (replay_buffer_bounded_suffix [[97; 10; 98]] [99; 10; 100] ltac:(done)). vm_compute. reflexivity.
Defined.

(** Output without newlines is never trimmed: whatever the number of
    newline-free reads, the buffer keeps all of them, past
    [MAX_OUTPUT_BUFFER_SIZE]. *)
Theorem newline_free_output_unbounded (d : bytes) (chunks : list bytes) : open_chunk d -> Forall open_chunk chunks ->
  total_size (record (d :: chunks)) = blen d + blen (flat chunks) /\
  flat (lines (record (d :: chunks))) = d ++ flat chunks.
Proof. intros Hd Hcs. rewrite record_open by done. split; [done|]. apply flat_one. Qed.

Lemma newline_free_output_unbounded_witness :
  MAX_OUTPUT_BUFFER_SIZE < total_size (record (repeat 97 4096 :: repeat (repeat 97 4096) 256)).
Proof.
  assert (Ho : open_chunk (repeat 97 4096)) by (apply (bool_decide_eq_true_1 _); vm_compute; reflexivity).
  rewrite (proj1 (newline_free_output_unbounded (repeat 97 4096) (repeat (repeat 97 4096) 256) Ho
    (proj2 (Forall_forall _ _) (fun x Hx => eq_ind_r open_chunk Ho (repeat_spec _ _ _ (proj1 (list_elem_of_In _ _) Hx)))))).
  vm_compute. reflexivity.
Defined.

(** The replay sent on reconnection is the end of the buffered output, at
    most the requested number of bytes, and all of it when it fits. *)
Theorem replay_is_recent_suffix (chunks : list bytes) (max : Z) : 0 <= max ->
  let b := record chunks in
  blen (get_recent max b) <= max /\
  (exists older, flat (lines b) = older ++ get_recent max b) /\
  (0 < max -> total_size b <= max -> get_recent max b = flat (lines b)).
Proof.
  intros Hm b. unfold get_recent. destruct (Z.eqb_spec max 0) as [->|Hz].
  { split; [done|]. split; [exists (flat (lines b)); by rewrite app_nil_r|lia]. }
  destruct (recent_chunks_spec max 0 (reverse (lines b))) as [Hb (older & Ho)]; [lia|]. rewrite reverse_involutive in Ho.
  split; [lia|]. split; [by exists older|]. intros _ Ht. destruct (record_facts chunks) as [Hok _].
  rewrite recent_chunks_all; [by rewrite reverse_involutive|lia|].
  rewrite total_reverse. fold b in Hok. unfold buffer_ok in Hok. lia.
Qed.

Lemma replay_is_recent_suffix_witness :
  blen (get_recent 4 (record [[97; 10; 98; 98; 10]])) <= 4 /\ get_recent 4 (record [[97; 10; 98; 98; 10]]) = [98; 98; 10] /\
  get_recent 5 (record [[97; 10; 98; 98; 10]]) = [97; 10; 98; 98; 10].
Proof.
  split; [apply (replay_is_recent_suffix [[97; 10; 98; 98; 10]] 4); lia|]. split; [vm_compute; reflexivity|].
  apply (replay_is_recent_suffix [[97; 10; 98; 98; 10]] 5); [lia..|]. vm_compute. discriminate.
Defined.

(** While it is not told to exit and its channel stays connected, the reader
    thread offers to the channel, up to the end of the file, exactly the bytes
    it reads, in order. *)
Theorem reader_passes_every_byte (evs : list ReadEvent) (d : DropStats) (a : TrySend) (now : Z) :
  Forall keeps_reading evs ->
  flat (reader_loop (evs ++ [ReadEof a now]) [] d).*1 = flat (payload <$> evs).
Proof. intros He. apply reader_lossless; [done|]. unfold blen. simpl. lia. Qed.

Lemma reader_passes_every_byte_witness :
  flat (reader_loop ([ReadData false [72; 0xE4] Sent 0; ReadWouldBlock false; ReadData false [0xBD; 0xA0] Full 1] ++ [ReadEof Sent 2])
    [] (MkDrops 0 0)).*1 = [72; 0xE4; 0xBD; 0xA0].
Proof.
  apply (reader_passes_every_byte [ReadData false [72; 0xE4] Sent 0; ReadWouldBlock false; ReadData false [0xBD; 0xA0] Full 1]).
  repeat constructor; discriminate.
Defined.

(** However the terminal's UTF-8 output is cut into reads, every chunk the
    reader passes on is valid UTF-8 on its own. *)
Theorem reader_never_splits_a_character (evs : list ReadEvent) (d : DropStats) (cs : str) (later : bytes) :
  Forall keeps_reading evs -> Forall is_scalar cs -> str_bytes cs = flat (payload <$> evs) ++ later ->
  Forall (fun o => is_Some (from_utf8 o)) (reader_loop evs [] d).*1.
Proof. intros He Hcs E. eapply reader_text; [done|exact Hcs|exact E]. Qed.

Lemma reader_never_splits_a_character_witness :
  let evs := [ReadData false [72; 0xE4] Sent 0; ReadData false [0xBD; 0xA0; 0xF0] Sent 1] in
  Forall (fun o => is_Some (from_utf8 o)) (reader_loop evs [] (MkDrops 0 0)).*1 /\
  (reader_loop evs [] (MkDrops 0 0)).*1 = [[72]; [0xE4; 0xBD; 0xA0]].
Proof.
  split; [|vm_compute; reflexivity].
  apply (reader_never_splits_a_character [ReadData false [72; 0xE4] Sent 0; ReadData false [0xBD; 0xA0; 0xF0] Sent 1]
    (MkDrops 0 0) [72; 0x4F60; 0x1F600] [0x9F; 0x98; 0x80]).
  - repeat constructor; discriminate.
  - repeat constructor; unfold is_scalar; lia.
  - vm_compute. reflexivity.
Defined.

End TerminalBufferClaims.
