(* ===== verification/Terminal.v ===== *)
(** * Terminal sessions and the registry of persistent terminal services

    Models [client/src/server/terminal_service.rs] (its Linux build: a PTY driven
    directly, no helper process): the registry of services and its limit, the
    sessions with their reconnection state machine, every action of
    [TerminalServiceProxy] and [read_outputs].

    What the operating system answers (whether a resize or a spawn succeeds,
    whether a reader thread has finished, a child's exit status) is an argument
    of the operation that asks.  The PTY is the list of the sizes it was given;
    the input channel is the list of the messages sent to the writer thread; the
    output channel is the queue of the chunks not yet drained.  A child process
    is its identifier. *)
From stdpp Require Import base gmap list strings sorting fin_maps.
From Stdlib Require Import ZArith Lia.
From S2P Require Import Prelude RustStr TerminalBuffer.

#[local] Open Scope Z_scope.

Definition MAX_SERVICES : nat := 100.
Definition SERVICE_IDLE_TIMEOUT : Z := 3600 * 1000000000.
Definition CHANNEL_BUFFER_SIZE : nat := 500.
Definition COMPRESS_THRESHOLD : Z := 512.
Definition DEFAULT_RECONNECT_BUFFER_BYTES : Z := 8 * 1024.
Definition MAX_SIGWINCH_PHASE_ATTEMPTS : Z := 3.

(** ** Sessions *)

Inductive SigwinchPhase := Idle | TempResize (retries : Z) | Restore (retries : Z).
Inductive SigwinchAction := ActTempResize | ActRestore.
Inductive SessionState := Closed | Active (pending_buffer : option bytes) (sigwinch : SigwinchPhase).

Record TerminalSession := MkSession {
  t_created_at : Z; t_last_activity : Z;
  pty_pair : option (list (Z * Z)); child : option Z;
  input_tx : option (list bytes); output_rx : option (list bytes);
  exiting : bool; reader_thread : bool; writer_thread : bool;
  output_buffer : OutputBuffer; title : str; pid : Z; rows : Z; cols : Z;
  closed_message_sent : bool; state : SessionState }.

Definition session_new (now terminal_id r c : Z) : TerminalSession :=
  MkSession now now None None None None false false false buffer_new (lit "Terminal " ++ fmt_Z terminal_id) 0 r c false Closed.

Definition set_state (st : SessionState) (t : TerminalSession) : TerminalSession :=
  MkSession (t_created_at t) (t_last_activity t) (pty_pair t) (child t) (input_tx t) (output_rx t) (exiting t) (reader_thread t)
    (writer_thread t) (output_buffer t) (title t) (pid t) (rows t) (cols t) (closed_message_sent t) st.
Definition touch_session (now : Z) (t : TerminalSession) : TerminalSession :=
  MkSession (t_created_at t) now (pty_pair t) (child t) (input_tx t) (output_rx t) (exiting t) (reader_thread t)
    (writer_thread t) (output_buffer t) (title t) (pid t) (rows t) (cols t) (closed_message_sent t) (state t).
Definition set_pty (p : option (list (Z * Z))) (t : TerminalSession) : TerminalSession :=
  MkSession (t_created_at t) (t_last_activity t) p (child t) (input_tx t) (output_rx t) (exiting t) (reader_thread t)
    (writer_thread t) (output_buffer t) (title t) (pid t) (rows t) (cols t) (closed_message_sent t) (state t).
Definition set_size (r c : Z) (t : TerminalSession) : TerminalSession :=
  MkSession (t_created_at t) (t_last_activity t) (pty_pair t) (child t) (input_tx t) (output_rx t) (exiting t) (reader_thread t)
    (writer_thread t) (output_buffer t) (title t) (pid t) r c (closed_message_sent t) (state t).
Definition set_input (tx : option (list bytes)) (t : TerminalSession) : TerminalSession :=
  MkSession (t_created_at t) (t_last_activity t) (pty_pair t) (child t) tx (output_rx t) (exiting t) (reader_thread t)
    (writer_thread t) (output_buffer t) (title t) (pid t) (rows t) (cols t) (closed_message_sent t) (state t).
Definition set_output (rx : option (list bytes)) (b : OutputBuffer) (t : TerminalSession) : TerminalSession :=
  MkSession (t_created_at t) (t_last_activity t) (pty_pair t) (child t) (input_tx t) rx (exiting t) (reader_thread t)
    (writer_thread t) b (title t) (pid t) (rows t) (cols t) (closed_message_sent t) (state t).
Definition set_child (ch : option Z) (t : TerminalSession) : TerminalSession :=
  MkSession (t_created_at t) (t_last_activity t) (pty_pair t) ch (input_tx t) (output_rx t) (exiting t) (reader_thread t)
    (writer_thread t) (output_buffer t) (title t) (pid t) (rows t) (cols t) (closed_message_sent t) (state t).
Definition set_closed_sent (b : bool) (t : TerminalSession) : TerminalSession :=
  MkSession (t_created_at t) (t_last_activity t) (pty_pair t) (child t) (input_tx t) (output_rx t) (exiting t) (reader_thread t)
    (writer_thread t) (output_buffer t) (title t) (pid t) (rows t) (cols t) b (state t).

(** [stop]: also what dropping a session runs; the child goes to the reaper. *)
Definition stop (t : TerminalSession) : TerminalSession * list Z :=
  (MkSession (t_created_at t) (t_last_activity t) None None None None true false false
     (output_buffer t) (title t) (pid t) (rows t) (cols t) (closed_message_sent t) Closed,
   option_list (child t)).

(** The reader thread's [try_send] on the bounded output channel. *)
Definition reader_send (data : bytes) (t : TerminalSession) : TrySend * TerminalSession :=
  match output_rx t with
  | None => (Disconnected, t)
  | Some q => if bool_decide (CHANNEL_BUFFER_SIZE <= length q)%nat then (Full, t)
              else (Sent, set_output (Some (q ++ [data])) (output_buffer t) t)
  end.

(** ** Responses *)

Record TerminalOpened := MkOpened {
  o_terminal_id : Z; o_success : bool; o_message : str; o_pid : Z; o_service_id : str;
  o_replay : bool; o_persistent_sessions : list Z }.
Inductive TerminalResponse :=
| RespOpened (o : TerminalOpened)
| RespData (terminal_id : Z) (compressed : bool) (data : bytes)
| RespClosed (terminal_id exit_code : Z)
| RespError (message : str).

(** The compression library. *)
Class Compression := {
  compress : bytes -> bytes;
  decompress : bytes -> bytes;
}.
(** Its documented law. *)
Class CompressionLaws `{!Compression} := { decompress_compress b : decompress (compress b) = b }.

Definition create_terminal_data_response `{!Compression} (terminal_id : Z) (data : bytes) : TerminalResponse :=
  if COMPRESS_THRESHOLD <? blen data then
    let c := compress data in
    if blen c <? blen data then RespData terminal_id true c else RespData terminal_id false data
  else RespData terminal_id false data.

(** ** The two-phase SIGWINCH sequence *)

Definition target_rows (action : SigwinchAction) (r : Z) : Z :=
  match action with
  | ActTempResize => if 2 <? r then Z.max 0 (r - 1) else Z.min 65535 (r + 1)
  | ActRestore => r
  end.

(** [do_sigwinch_resize]; [os_ok] is the answer of the PTY. *)
Definition do_sigwinch_resize (os_ok : bool) (action : SigwinchAction) (t : TerminalSession) : bool * TerminalSession :=
  if (rows t =? 0) || (cols t =? 0) then (false, t)
  else
    match pty_pair t with
    | Some sizes =>
      if os_ok then (true, set_pty (Some (sizes ++ [(target_rows action (rows t), cols t)])) t) else (false, t)
    | None => (false, t)
    end.

(** What the phase asks for in this round. *)
Definition sigwinch_next (ph : SigwinchPhase) : SigwinchPhase * option SigwinchAction :=
  match ph with
  | TempResize retries => if retries =? 0 then (Idle, None) else (TempResize (retries - 1), Some ActTempResize)
  | Restore retries => if retries =? 0 then (Idle, None) else (Restore (retries - 1), Some ActRestore)
  | Idle => (Idle, None)
  end.

Definition sigwinch_done (action : SigwinchAction) (resize_ok : bool) (ph : SigwinchPhase) : SigwinchPhase :=
  if resize_ok then match action with ActTempResize => Restore MAX_SIGWINCH_PHASE_ATTEMPTS | ActRestore => Idle end
  else ph.

Definition run_sigwinch (os_ok : bool) (action : option SigwinchAction) (t : TerminalSession) : TerminalSession :=
  match action with
  | None => t
  | Some a =>
    let '(ok, t) := do_sigwinch_resize os_ok a t in
    match state t with
    | Active pb ph => set_state (Active pb (sigwinch_done a ok ph)) t
    | Closed => t
    end
  end.

(** ** One session of [read_outputs] *)

(** What the round sees of the world: whether the session's lock is free, whether
    its reader thread has finished, the child's status, and the PTY's answer. *)
Record Poll := MkPoll {
  p_now : Z; p_free : bool; p_reader_finished : bool; p_try_wait : result unit (option Z); p_resize_ok : bool }.

Definition detect_closed (p : Poll) (t : TerminalSession) : bool :=
  negb (closed_message_sent t) &&
  ((reader_thread t && p_reader_finished p) ||
   match child t with Some _ => match p_try_wait p with Ok (Some _) => true | _ => false end | None => false end).

(** Drain the channel into the replay buffer. *)
Definition drain (t : TerminalSession) : list bytes * TerminalSession :=
  match output_rx t with
  | Some q => (q, set_output (Some []) (foldl (fun b d => append d b) (output_buffer t) q) t)
  | None => ([], t)
  end.

Section Poll.
Context `{!Compression}.

(** The responses, and whether the terminal is reported closed. *)
Definition poll_session (p : Poll) (terminal_id : Z) (t : TerminalSession) : list TerminalResponse * bool * TerminalSession :=
  if negb (p_free p) then ([], false, t)
  else
    let closed := detect_closed p t in
    let t := if closed then set_closed_sent true t else t in
    let '(received, t) := drain t in
    match state t with
    | Closed => ([], closed, t)
    | Active pb ph =>
      let '(ph, action) := sigwinch_next ph in
      let t := set_state (Active None ph) t in
      let replay := match pb with
                    | Some b => if bool_decide (b = []) then [] else [create_terminal_data_response terminal_id b]
                    | None => []
                    end in
      let t := if bool_decide (received = []) then t else touch_session (p_now p) t in
      let t := run_sigwinch (p_resize_ok p) action t in
      (replay ++ (create_terminal_data_response terminal_id <$> received), closed, t)
    end.
End Poll.

(** ** Services and their registry *)

Record PersistentTerminalService := MkService {
  service_id : str; sessions : gmap Z TerminalSession; created_at : Z; last_activity : Z;
  is_persistent : bool; needs_session_sync : bool; is_specified_user : bool }.

Definition service_new (id : str) (persistent specified : bool) (now : Z) : PersistentTerminalService :=
  MkService id ∅ now now persistent false specified.
Definition set_sessions (m : gmap Z TerminalSession) (s : PersistentTerminalService) : PersistentTerminalService :=
  MkService (service_id s) m (created_at s) (last_activity s) (is_persistent s) (needs_session_sync s) (is_specified_user s).
Definition clear_sync (s : PersistentTerminalService) : PersistentTerminalService :=
  MkService (service_id s) (sessions s) (created_at s) (last_activity s) (is_persistent s) false (is_specified_user s).
Definition update_activity (now : Z) (s : PersistentTerminalService) : PersistentTerminalService :=
  MkService (service_id s) (sessions s) (created_at s) now (is_persistent s) (needs_session_sync s) (is_specified_user s).
Definition reset_status (persistent : bool) (s : PersistentTerminalService) : PersistentTerminalService :=
  MkService (service_id s) (set_state Closed <$> sessions s) (created_at s) (last_activity s) persistent true (is_specified_user s).

Definition list_terminals (s : PersistentTerminalService) : list (Z * str * Z * Z) :=
  (fun '(id, t) => (id, title t, pid t, t_created_at t)) <$> map_to_list (sessions s).
Definition get_terminal_buffer (id max : Z) (s : PersistentTerminalService) : option bytes :=
  (fun t => get_recent max (output_buffer t)) <$> sessions s !! id.
Definition get_terminal_info (id : Z) (s : PersistentTerminalService) : option (Z * Z * bytes) :=
  (fun t => (rows t, cols t, get_recent DEFAULT_RECONNECT_BUFFER_BYTES (output_buffer t))) <$> sessions s !! id.
Definition has_active_terminals (s : PersistentTerminalService) : bool := negb (bool_decide (sessions s = ∅)).

(** The registry of services, the children handed to the zombie reaper, and
    whether the cleanup task runs. *)
Record Registry := MkRegistry {
  services : gmap str PersistentTerminalService; tasks : list Z; cleanup_task : bool }.
Definition init_registry : Registry := MkRegistry ∅ [] false.
Definition set_services (m : gmap str PersistentTerminalService) (r : Registry) : Registry :=
  MkRegistry m (tasks r) (cleanup_task r).
Definition add_to_reaper (cs : list Z) (r : Registry) : Registry :=
  MkRegistry (services r) (tasks r ++ cs) (cleanup_task r).

Definition get_service (id : str) (r : Registry) : option PersistentTerminalService := services r !! id.
Definition is_service_specified_user (id : str) (r : Registry) : option bool := is_specified_user <$> get_service id r.

Definition too_many_services : str :=
  lit "Maximum number of terminal services (" ++ fmt_Z (Z.of_nat MAX_SERVICES) ++ lit ") reached".
Definition get_or_create_service (id : str) (persistent specified : bool) (now : Z) (r : Registry)
  : result str unit * Registry :=
  if bool_decide (services r !! id = None) && bool_decide (MAX_SERVICES <= size (services r))%nat
  then (Err too_many_services, r)
  else
    let s := default (service_new id persistent specified now) (services r !! id) in
    (Ok tt, MkRegistry (<[id := reset_status persistent s]> (services r)) (tasks r) true).

Definition children (m : gmap Z TerminalSession) : list Z := omap child (map_to_list m).*2.

(** [remove_service]: every session is stopped, which hands its child to the reaper. *)
Definition remove_service (id : str) (r : Registry) : Registry :=
  match services r !! id with
  | Some s => add_to_reaper (concat ((fun t => (stop t).2) <$> (map_to_list (sessions s)).*2)) (set_services (delete id (services r)) r)
  | None => r
  end.

Definition set_persistent (id : str) (persistent : bool) (r : Registry) : result str unit * Registry :=
  match services r !! id with
  | Some s =>
    (Ok tt, set_services (<[id := MkService (service_id s) (sessions s) (created_at s) (last_activity s) persistent
                                    (needs_session_sync s) (is_specified_user s)]> (services r)) r)
  | None => (Err (lit "Service " ++ id ++ lit " not found"), r)
  end.

Definition list_services (r : Registry) : list (str * Z * nat * bool) :=
  (fun '(id, s) => (id, created_at s, size (sessions s), is_persistent s)) <$> map_to_list (services r).

(** The services idle for too long, and their removal. *)
Definition inactive (now : Z) (s : PersistentTerminalService) : bool :=
  if negb (is_persistent s) && (SERVICE_IDLE_TIMEOUT <? now - last_activity s) then true
  else is_persistent s && bool_decide (sessions s = ∅) && (SERVICE_IDLE_TIMEOUT * 2 <? now - last_activity s).
Definition inactive_ids (now : Z) (r : Registry) : list str :=
  (List.filter (fun x => inactive now x.2) (map_to_list (services r))).*1.
Definition cleanup_inactive_services (now : Z) (r : Registry) : Registry :=
  foldl (fun r id => remove_service id r) r (inactive_ids now r).

(** A task still running is kept; one that has exited, or cannot be asked, is
    removed. *)
Definition check_zombie_terminals (try_wait : Z -> result unit (option Z)) (r : Registry) : Registry :=
  MkRegistry (services r) (List.filter (fun c => match try_wait c with Ok None => true | _ => false end) (tasks r)) (cleanup_task r).

Definition get_terminal_session_count (include_zombie_tasks : bool) (r : Registry) : nat :=
  (size (services r) + if include_zombie_tasks then length (tasks r) else 0)%nat.

(** ** The proxy of a connection *)

Record Proxy := MkProxy { x_service_id : str; x_is_persistent : bool }.
Definition proxy_new (id : str) (persistent : option bool) (r : Registry) : Proxy :=
  MkProxy id (default (match get_service id r with Some s => is_persistent s | None => false end) persistent).

(** *** Opening a terminal *)

Definition lowest_key {A} (m : gmap Z A) : option Z :=
  foldr (fun k acc => Some (match acc with Some a => Z.min k a | None => k end)) None (map_to_list m).*1.

(** The one-time reassignment of a surviving session to the requested handle. *)
Definition remap (id : Z) (s : PersistentTerminalService) : PersistentTerminalService :=
  if bool_decide (sessions s !! id = None) && needs_session_sync s && negb (bool_decide (sessions s = ∅)) then
    match lowest_key (sessions s) with
    | Some low =>
      match sessions s !! low with
      | Some t => set_sessions (<[id := t]> (delete low (sessions s))) s
      | None => s
      end
    | None => s
    end
  else s.

Definition reconnect (t : TerminalSession) : bool * TerminalSession :=
  let buffer := get_recent DEFAULT_RECONNECT_BUFFER_BYTES (output_buffer t) in
  let backlog := take CHANNEL_BUFFER_SIZE (default [] (output_rx t)) in
  let t := match output_rx t with
           | Some q => set_output (Some (drop CHANNEL_BUFFER_SIZE q)) (foldl (fun b d => append d b) (output_buffer t) backlog) t
           | None => t
           end in
  let buffer := if bool_decide (backlog = []) then buffer else get_recent DEFAULT_RECONNECT_BUFFER_BYTES (output_buffer t) in
  let has_pending := negb (bool_decide (buffer = [])) in
  (has_pending, set_state (Active (if has_pending then Some buffer else None) (TempResize MAX_SIGWINCH_PHASE_ATTEMPTS)) t).

(** How far opening a PTY and a shell got. *)
Inductive Spawn :=
| OpenPtyFailed | SpawnFailed | WriterFailed | ReaderFailed
| Spawned (child : Z) (process_id : option Z).

Definition spawn_error (sp : Spawn) : option string :=
  match sp with
  | OpenPtyFailed => Some "Failed to open PTY"
  | SpawnFailed => Some "Failed to spawn command"
  | WriterFailed => Some "Failed to get writer"
  | ReaderFailed => Some "Failed to get reader"
  | Spawned _ _ => None
  end%string.

(** A [u32] field [as u16]. *)
Definition as_u16 (x : Z) : Z := x mod 65536.

Definition opened_session (now id r c ch : Z) (process_id : option Z) : TerminalSession :=
  MkSession now now (Some [(r, c)]) (Some ch) (Some []) (Some []) false true true buffer_new
    (lit "Terminal " ++ fmt_Z id) (default 0 process_id) r c false (Active None Idle).

Definition keys {A} (m : gmap Z A) : list Z := (map_to_list m).*1.

Definition handle_open (x : Proxy) (sp : Spawn) (now id r c : Z) (s : PersistentTerminalService)
  : result str (option TerminalResponse) * PersistentTerminalService :=
  let s := remap id s in
  match sessions s !! id with
  | Some t =>
    let '(has_pending, t) := reconnect t in
    let others := if needs_session_sync s && bool_decide (1 < size (sessions s))%nat
                  then List.filter (fun k => negb (k =? id)) (keys (sessions s)) else [] in
    let msg := if has_pending then lit "Reconnected to existing terminal with pending output"
               else lit "Reconnected to existing terminal" in
    (Ok (Some (RespOpened (MkOpened id true msg (pid t) (x_service_id x) has_pending others))),
     clear_sync (set_sessions (<[id := t]> (sessions s)) s))
  | None =>
    match sp with
    | Spawned ch process_id =>
      let t := opened_session now id (as_u16 r) (as_u16 c) ch process_id in
      let others := if needs_session_sync s then keys (sessions s) else [] in
      (Ok (Some (RespOpened (MkOpened id true (lit "Terminal opened") (pid t) (service_id s) false others))),
       set_sessions (<[id := t]> (sessions s)) (clear_sync s))
    | _ => (Err (lit (default "" (spawn_error sp))%string), s)
    end
  end.

(** *** The other actions *)

(** [os] is the PTY's answer to the resize. *)
Definition handle_resize (os : result str unit) (now r c : Z) (t : TerminalSession) : result str (option TerminalResponse) * TerminalSession :=
  let t := set_size (as_u16 r) (as_u16 c) (touch_session now t) in
  match pty_pair t with
  | Some sizes =>
    match os with
    | Ok _ => (Ok None, set_pty (Some (sizes ++ [(as_u16 r, as_u16 c)])) t)
    | Err err => (Err err, t)
    end
  | None => (Ok None, t)
  end.

(** [sent] says whether the writer thread still receives. *)
Definition handle_data (sent : bool) (now : Z) (data : bytes) (t : TerminalSession) : TerminalSession :=
  let t := touch_session now t in
  match input_tx t with
  | Some q => if sent then set_input (Some (q ++ [data])) t else t
  | None => t
  end.

(** [handle_close]: the removed session is dropped, so it stops; a child that
    could not be killed is dropped without reaching the reaper. *)
Definition handle_close (kill : result str unit) (id : Z) (s : PersistentTerminalService)
  : result str (option TerminalResponse) * PersistentTerminalService * list Z :=
  match sessions s !! id with
  | Some t =>
    let s := set_sessions (delete id (sessions s)) s in
    match child t with
    | Some ch =>
      match kill with
      | Ok _ => (Ok (Some (RespClosed id (-1))), s, ch :: (stop (set_child None t)).2)
      | Err err => (Err err, s, (stop (set_child None t)).2)
      end
    | None => (Ok (Some (RespClosed id 0)), s, (stop t).2)
    end
  | None => (Ok None, s, [])
  end.

Inductive TerminalAction :=
| ActOpen (terminal_id rows cols : Z)
| ActResize (terminal_id rows cols : Z)
| ActData (terminal_id : Z) (data : bytes)
| ActClose (terminal_id : Z)
| ActOther.

(** The answers of the operating system to one action. *)
Record ActEnv := MkActEnv { e_now : Z; e_spawn : Spawn; e_resize : result str unit; e_sent : bool; e_kill : result str unit }.

Definition put_service (id : str) (s : PersistentTerminalService) (r : Registry) : Registry :=
  set_services (<[id := s]> (services r)) r.
Definition put_session (id : Z) (t : TerminalSession) (s : PersistentTerminalService) : PersistentTerminalService :=
  set_sessions (<[id := t]> (sessions s)) s.

Definition service_action (x : Proxy) (e : ActEnv) (a : TerminalAction) (s : PersistentTerminalService)
  : result str (option TerminalResponse) * PersistentTerminalService * list Z :=
  match a with
  | ActOpen id r c => let '(res, s) := handle_open x (e_spawn e) (e_now e) id r c s in (res, s, [])
  | ActResize id r c =>
    match sessions s !! id with
    | Some t => let '(res, t) := handle_resize (e_resize e) (e_now e) r c t in (res, put_session id t s, [])
    | None => (Ok None, s, [])
    end
  | ActData id d =>
    match sessions s !! id with
    | Some t => (Ok None, put_session id (handle_data (e_sent e) (e_now e) d t) s, [])
    | None => (Ok None, s, [])
    end
  | ActClose id => handle_close (e_kill e) id s
  | ActOther => (Ok None, s, [])
  end.

Definition handle_action (x : Proxy) (e : ActEnv) (a : TerminalAction) (r : Registry)
  : result str (option TerminalResponse) * Registry :=
  match get_service (x_service_id x) r with
  | None => (Ok (Some (RespError (lit "Terminal service " ++ x_service_id x ++ lit " not found"))), r)
  | Some s =>
    let '(res, s, reaped) := service_action x e a (update_activity (e_now e) s) in
    (res, add_to_reaper reaped (put_service (x_service_id x) s r))
  end.

(** *** Reading the outputs *)

Section Outputs.
Context `{!Compression}.

(** The loop over the sessions; [polls] is what the round sees of each. *)
Definition poll_all (polls : Z -> Poll) (l : list (Z * TerminalSession))
  : list TerminalResponse * list Z * list (Z * TerminalSession) :=
  foldr (fun '(id, t) '(rs, closed, ts) =>
           let '(r, c, t) := poll_session (polls id) id t in
           (r ++ rs, if c then id :: closed else closed, (id, t) :: ts)) ([], [], []) l.

(** One terminal of the closing loop: its exit code, the sessions left, and the
    child for the reaper. *)
Definition close_terminal (persistent : bool) (exit : result unit (option Z)) (id : Z) (m : gmap Z TerminalSession)
  : TerminalResponse * gmap Z TerminalSession * list Z :=
  match m !! id with
  | Some t =>
    let exit_code := match child t with
                     | Some _ => match exit with Ok (Some code) => code | _ => 0 end
                     | None => 0
                     end in
    let reaped := option_list (child t) in
    let t := set_child None t in
    let m := if negb persistent || closed_message_sent t then delete id m else <[id := t]> m in
    (RespClosed id exit_code, m, reaped)
  | None => (RespClosed id 0, m, [])
  end.

Definition close_terminals (persistent : bool) (exits : Z -> result unit (option Z)) (ids : list Z)
  (m : gmap Z TerminalSession) : list TerminalResponse * gmap Z TerminalSession * list Z :=
  foldl (fun '(rs, m, reaped) id =>
           let '(r, m, c) := close_terminal persistent (exits id) id m in (rs ++ [r], m, reaped ++ c)) ([], m, []) ids.

Definition read_outputs (x : Proxy) (polls : Z -> Poll) (exits : Z -> result unit (option Z)) (r : Registry)
  : list TerminalResponse * Registry :=
  match get_service (x_service_id x) r with
  | None => ([], r)
  | Some s =>
    let '(rs, closed, ts) := poll_all polls (map_to_list (sessions s)) in
    let '(rs', m, reaped) := close_terminals (x_is_persistent x) exits closed (list_to_map ts) in
    (rs ++ rs', add_to_reaper reaped (put_service (x_service_id x) (set_sessions m s) r))
  end.

Definition on_disconnect (x : Proxy) (r : Registry) : Registry :=
  if negb (x_is_persistent x) then remove_service (x_service_id x) r else r.
End Outputs.

(** ** Runs of the registry *)

Section Runs.
Context `{!Compression}.

Inductive Ev :=
| EvCreate (id : str) (persistent specified : bool) (now : Z)
| EvSetPersistent (id : str) (persistent : bool)
| EvAction (x : Proxy) (e : ActEnv) (a : TerminalAction)
| EvOutputs (x : Proxy) (polls : Z -> Poll) (exits : Z -> result unit (option Z))
| EvDisconnect (x : Proxy)
| EvCleanup (now : Z)
| EvZombies (try_wait : Z -> result unit (option Z))
| EvReader (id : str) (terminal_id : Z) (data : bytes).

(** The reader thread of a terminal sends a chunk. *)
Definition reader_event (id : str) (tid : Z) (data : bytes) (r : Registry) : Registry :=
  match services r !! id with
  | Some s => match sessions s !! tid with
              | Some t => put_service id (put_session tid (reader_send data t).2 s) r
              | None => r
              end
  | None => r
  end.

Definition step (r : Registry) (ev : Ev) : Registry :=
  match ev with
  | EvCreate id p sp now => (get_or_create_service id p sp now r).2
  | EvSetPersistent id p => (set_persistent id p r).2
  | EvAction x e a => (handle_action x e a r).2
  | EvOutputs x polls exits => (read_outputs x polls exits r).2
  | EvDisconnect x => on_disconnect x r
  | EvCleanup now => cleanup_inactive_services now r
  | EvZombies tw => check_zombie_terminals tw r
  | EvReader id tid data => reader_event id tid data r
  end.
Definition steps (evs : list Ev) (r : Registry) : Registry := foldl step r evs.

(** A child is accounted for: the reaper has it, or a session does. *)
Definition in_session (r : Registry) (c : Z) : Prop :=
  exists sid s tid t, services r !! sid = Some s /\ sessions s !! tid = Some t /\ child t = Some c.
Definition tracked (r : Registry) (c : Z) : Prop := c ∈ tasks r \/ in_session r c.

(** The two ways a child leaves the books: the reaper finds it gone, or killing
    it fails. *)
Definition lets_go (ev : Ev) (c : Z) : Prop :=
  match ev with
  | EvZombies tw => tw c <> Ok None
  | EvAction _ e (ActClose _) => is_ok (e_kill e) = false
  | _ => False
  end.

(** *** The number of services *)

Lemma size_put (id : str) (s : PersistentTerminalService) (m : gmap str PersistentTerminalService) : is_Some (m !! id) -> size (<[id := s]> m) = size m.
Proof. intros Hm. by rewrite map_size_insert_Some. Qed.

Lemma size_remove id r : (size (services (remove_service id r)) <= size (services r))%nat.
Proof.
  unfold remove_service. destruct (services r !! id) eqn:E; [|done]. simpl.
  rewrite map_size_delete. rewrite E. simpl. lia.
Qed.

Lemma size_cleanup ids r : (size (services (foldl (fun r id => remove_service id r) r ids)) <= size (services r))%nat.
Proof.
  revert r. induction ids as [|id ids IH]; intros r; simpl; [done|]. etrans; [apply IH|apply size_remove].
Qed.

Lemma handle_action_size x e a r : size (services (handle_action x e a r).2) = size (services r).
Proof.
  unfold handle_action, get_service. destruct (services r !! x_service_id x) eqn:E; [|done].
  destruct (service_action _ _ _ _) as [[res s'] reaped]. simpl. apply size_put. by rewrite E.
Qed.

Lemma read_outputs_size x polls exits r : size (services (read_outputs x polls exits r).2) = size (services r).
Proof.
  unfold read_outputs, get_service. destruct (services r !! x_service_id x) eqn:E; [|done].
  destruct (poll_all _ _) as [[rs closed] ts]. destruct (close_terminals _ _ _ _) as [[rs' m] reaped]. simpl.
  apply size_put. by rewrite E.
Qed.

Lemma step_size ev r : (size (services r) <= MAX_SERVICES -> size (services (step r ev)) <= MAX_SERVICES)%nat.
Proof.
  intros Hs. destruct ev as [id p sp now|id p|x e a|x polls exits|x|now|tw|id tid data]; simpl.
  - unfold get_or_create_service. destruct (bool_decide _ && _) eqn:E; [done|]. simpl.
    destruct (services r !! id) as [s|] eqn:El.
    + rewrite size_put; [done|]. by rewrite El.
    + rewrite map_size_insert_None by done. rewrite bool_decide_true in E by done. simpl in E.
      apply bool_decide_eq_false in E. lia.
  - unfold set_persistent. destruct (services r !! id) eqn:E; [|done]. simpl. rewrite size_put; [done|]. by rewrite E.
  - by rewrite handle_action_size.
  - by rewrite read_outputs_size.
  - unfold on_disconnect. destruct (negb _); [|done]. etrans; [apply size_remove|done].
  - etrans; [apply size_cleanup|done].
  - done.
  - unfold reader_event. destruct (services r !! id) eqn:E; [|done]. destruct (sessions _ !! tid); [|done].
    simpl. rewrite size_put; [done|]. by rewrite E.
Qed.

(** *** No child is forgotten *)

Definition holds (m : gmap Z TerminalSession) (c : Z) : Prop := exists tid t, m !! tid = Some t /\ child t = Some c.

Lemma in_session_holds r c : in_session r c <-> exists sid s, services r !! sid = Some s /\ holds (sessions s) c.
Proof. unfold in_session, holds. naive_solver. Qed.

Lemma put_tracked r sid s s' reaped c : services r !! sid = Some s ->
  (holds (sessions s) c -> holds (sessions s') c \/ c ∈ reaped) ->
  tracked r c -> tracked (add_to_reaper reaped (put_service sid s' r)) c.
Proof.
  intros Hs Hh [Ht|Hin]; [left; simpl; set_solver|]. apply in_session_holds in Hin as (sid' & s0 & Hs0 & Hc).
  destruct (decide (sid' = sid)) as [->|Hne].
  - rewrite Hs in Hs0. injection Hs0 as <-. destruct (Hh Hc) as [Hc'|Hr]; [|left; simpl; set_solver].
    right. apply in_session_holds. exists sid, s'. simpl. by rewrite lookup_insert_eq.
  - right. apply in_session_holds. exists sid', s0. simpl. by rewrite lookup_insert_ne by congruence.
Qed.

Lemma put_tracked_nil r sid s s' c : services r !! sid = Some s ->
  (holds (sessions s) c -> holds (sessions s') c) -> tracked r c -> tracked (put_service sid s' r) c.
Proof.
  intros Hs Hh Ht. pose proof (put_tracked r sid s s' [] c Hs (fun H => or_introl (Hh H)) Ht) as Hp.
  unfold tracked in *. simpl in Hp. rewrite app_nil_r in Hp. exact Hp.
Qed.

Lemma holds_put m id t t' c : m !! id = Some t -> child t' = child t -> holds m c -> holds (<[id := t']> m) c.
Proof.
  intros Hm Hc (tid & t0 & Ht0 & Hc0). destruct (decide (tid = id)) as [->|Hne].
  - exists id, t'. rewrite lookup_insert_eq. split; [done|]. congruence.
  - exists tid, t0. by rewrite lookup_insert_ne by congruence.
Qed.

Lemma holds_add m id t' c : m !! id = None -> holds m c -> holds (<[id := t']> m) c.
Proof.
  intros Hm (tid & t0 & Ht0 & Hc0). exists tid, t0. rewrite lookup_insert_ne; [done|]. congruence.
Qed.

Lemma holds_remap id s c : holds (sessions s) c -> holds (sessions (remap id s)) c.
Proof.
  unfold remap. destruct (_ && _) eqn:E; [|done]. apply andb_prop in E as [E _]. apply andb_prop in E as [E _].
  apply bool_decide_eq_true in E.
  destruct (lowest_key _) as [low|]; [|done]. destruct (sessions s !! low) as [t|] eqn:El; [|done]. simpl.
  intros (tid & t0 & Ht0 & Hc). destruct (decide (tid = low)) as [->|Hne].
  - exists id, t0. rewrite lookup_insert_eq. split; [congruence|done].
  - exists tid, t0. rewrite lookup_insert_ne by congruence. by rewrite lookup_delete_ne by congruence.
Qed.

Lemma reconnect_child t : child (reconnect t).2 = child t.
Proof. unfold reconnect. destruct (output_rx t); done. Qed.

Lemma holds_open x sp now id r c s res s' ch : handle_open x sp now id r c s = (res, s') ->
  holds (sessions s) ch -> holds (sessions s') ch.
Proof.
  unfold handle_open. intros E Hh. apply (holds_remap id) in Hh. set (s0 := remap id s) in *. clearbody s0.
  destruct (sessions s0 !! id) as [t|] eqn:El.
  - destruct (reconnect t) as [hp t'] eqn:Er. injection E as <- <-. simpl.
    eapply holds_put; [exact El| |done]. by rewrite <- (reconnect_child t), Er.
  - destruct sp; injection E as <- <-; [exact Hh|exact Hh|exact Hh|exact Hh|]. simpl. by apply holds_add.
Qed.

Lemma holds_close kill id s res s' reaped c : handle_close kill id s = (res, s', reaped) -> is_ok kill = true ->
  holds (sessions s) c -> holds (sessions s') c \/ c ∈ reaped.
Proof.
  unfold handle_close. destruct kill as [k|err]; [|done]. intros E _ (tid & t0 & Ht0 & Hc).
  destruct (sessions s !! id) as [t|] eqn:El; [|injection E as <- <- <-; left; by exists tid, t0].
  destruct (decide (tid = id)) as [->|Hne].
  - rewrite El in Ht0. injection Ht0 as ->. rewrite Hc in E. injection E as <- <- <-. right. set_solver.
  - left. exists tid, t0. destruct (child t); injection E as <- <- <-; simpl; by rewrite lookup_delete_ne by congruence.
Qed.

Lemma service_action_holds x e a s res s' reaped c : service_action x e a s = (res, s', reaped) ->
  (forall id, a = ActClose id -> is_ok (e_kill e) = true) ->
  holds (sessions s) c -> holds (sessions s') c \/ c ∈ reaped.
Proof.
  intros E Hk Hh. destruct a as [id r0 c0|id r0 c0|id d|id|]; simpl in E.
  - destruct (handle_open _ _ _ _ _ _ _) as [res1 s1] eqn:Eo. injection E as <- <- <-. left. by eapply holds_open.
  - destruct (sessions s !! id) as [t|] eqn:El; [|injection E as <- <- <-; by left].
    destruct (handle_resize _ _ _ _ t) as [res1 t1] eqn:Er. injection E as <- <- <-. left. simpl.
    eapply holds_put; [exact El| |done]. unfold handle_resize in Er. simpl in Er.
    destruct (pty_pair t); [destruct (e_resize e)|]; by injection Er as <- <-.
  - destruct (sessions s !! id) as [t|] eqn:El; injection E as <- <- <-; [|by left]. left. simpl.
    eapply holds_put; [exact El| |done]. unfold handle_data. simpl. destruct (input_tx t); [|done]. by destruct (e_sent e).
  - eapply holds_close; [exact E|by eapply Hk|done].
  - injection E as <- <- <-. by left.
Qed.

Lemma poll_session_facts p id t rs closed t' : poll_session p id t = (rs, closed, t') ->
  child t' = child t /\ (closed = true -> closed_message_sent t' = true) /\
  Forall (fun r => exists cp d, r = RespData id cp d) rs.
Proof.
  unfold poll_session. destruct (negb _); [intros [= <- <- <-]; done|].
  set (cl := detect_closed p t). set (t1 := if cl then set_closed_sent true t else t). clearbody cl.
  destruct (drain t1) as [received t2] eqn:Ed.
  assert (H2 : child t2 = child t /\ (cl = true -> closed_message_sent t2 = true)).
  { unfold drain in Ed. destruct (output_rx t1); injection Ed as <- <-; unfold t1; by destruct cl. }
  clear Ed. destruct H2 as [Hch Hcl].
  assert (Hdata : forall d, exists cp d', create_terminal_data_response id d = RespData id cp d').
  { intros d. unfold create_terminal_data_response. destruct (_ <? _); [destruct (_ <? _)|]; eauto. }
  destruct (state t2) as [|pb ph]; [intros [= <- <- <-]; done|].
  destruct (sigwinch_next ph) as [ph' action]. intros [= <- <- <-].
  set (t3 := if bool_decide (received = []) then _ else _).
  assert (H3 : child t3 = child t2 /\ closed_message_sent t3 = closed_message_sent t2) by (unfold t3; by case_bool_decide).
  assert (H4 : forall os a (u : TerminalSession), child (run_sigwinch os a u) = child u /\ closed_message_sent (run_sigwinch os a u) = closed_message_sent u).
  { intros os [a|] u; [|done]. unfold run_sigwinch, do_sigwinch_resize. destruct (_ || _); [by destruct (state u)|].
    destruct (pty_pair u); [destruct os|]; simpl; by destruct (state u). }
  destruct (H4 (p_resize_ok p) action t3) as [H5 H6], H3 as [H7 H8].
  split; [congruence|]. split; [intros ->; rewrite H6, H8; auto|].
  apply Forall_app. split.
  - destruct pb as [b|]; [|constructor]. case_bool_decide; [constructor|]. constructor; [apply Hdata|constructor].
  - apply Forall_fmap, Forall_true. intros d. apply Hdata.
Qed.

Lemma poll_all_spec polls l :
  poll_all polls l =
    (concat ((fun '(id, t) => (poll_session (polls id) id t).1.1) <$> l),
     (List.filter (fun '(id, t) => (poll_session (polls id) id t).1.2) l).*1,
     (fun '(id, t) => (id, (poll_session (polls id) id t).2)) <$> l).
Proof.
  unfold poll_all. induction l as [|[id t] l IH]; [done|]. simpl. rewrite IH.
  destruct (poll_session (polls id) id t) as [[r cl] t']. simpl. by destruct cl.
Qed.

Definition polled polls (m : gmap Z TerminalSession) : gmap Z TerminalSession :=
  list_to_map ((fun '(id, t) => (id, (poll_session (polls id) id t).2)) <$> map_to_list m).

Lemma polled_lookup polls m id : polled polls m !! id = (fun t => (poll_session (polls id) id t).2) <$> m !! id.
Proof.
  unfold polled. set (f := fun '(id, t) => (id, (poll_session (polls id) id t).2)).
  assert (Hk : (f <$> map_to_list m).*1 = (map_to_list m).*1)
    by (rewrite <- list_fmap_compose; apply list_fmap_ext; by intros _ [? ?] _).
  destruct (m !! id) as [t|] eqn:E; simpl.
  - apply elem_of_list_to_map_1; [rewrite Hk; apply NoDup_fst_map_to_list|].
    apply list_elem_of_fmap. exists (id, t). split; [done|]. by apply elem_of_map_to_list.
  - apply not_elem_of_list_to_map_1. rewrite Hk. intros Hin. apply list_elem_of_fmap in Hin as ([id' t] & -> & Hin).
    apply elem_of_map_to_list in Hin. simpl in *. congruence.
Qed.

Lemma close_terminal_facts persistent ex id m r m' reaped : close_terminal persistent ex id m = (r, m', reaped) ->
  (forall c, holds m c -> holds m' c \/ c ∈ reaped) /\
  (forall k, k <> id -> m' !! k = m !! k) /\
  ((forall t, m !! id = Some t -> closed_message_sent t = true) -> m' !! id = None) /\
  (exists code, r = RespClosed id code).
Proof.
  unfold close_terminal. destruct (m !! id) as [t|] eqn:El; intros [= <- <- <-].
  - split.
    { intros c (tid & t0 & Ht0 & Hc). destruct (decide (tid = id)) as [->|Hne].
      - right. rewrite El in Ht0. injection Ht0 as ->. rewrite Hc. set_solver.
      - left. exists tid, t0. split; [|done].
        destruct (_ || _); [by rewrite lookup_delete_ne by congruence|by rewrite lookup_insert_ne by congruence]. }
    split.
    { intros k Hk. destruct (_ || _); [by rewrite lookup_delete_ne by congruence|by rewrite lookup_insert_ne by congruence]. }
    split; [|eauto]. intros Hs. specialize (Hs t eq_refl).
    change (closed_message_sent (set_child None t)) with (closed_message_sent t). rewrite Hs, orb_true_r.
    apply lookup_delete_eq.
  - split; [by left|]. split; [done|]. split; [done|eauto].
Qed.

Lemma close_terminals_go persistent exits ids : forall rs0 m reaped0,
  let '(rs, m', reaped) := foldl (fun '(rs, m, reaped) id =>
    let '(r, m, c) := close_terminal persistent (exits id) id m in (rs ++ [r], m, reaped ++ c)) (rs0, m, reaped0) ids in
  (forall c, holds m c \/ c ∈ reaped0 -> holds m' c \/ c ∈ reaped) /\
  (forall k, m !! k = None -> m' !! k = None) /\
  (forall id, id ∈ ids -> (forall t, m !! id = Some t -> closed_message_sent t = true) -> m' !! id = None) /\
  (exists rs', rs = rs0 ++ rs' /\ Forall2 (fun id r => exists code, r = RespClosed id code) ids rs').
Proof.
  induction ids as [|id ids IH]; intros rs0 m reaped0; cbn [foldl].
  - split; [done|]. split; [done|]. split; [intros id Hid; inversion Hid|]. exists []. by rewrite app_nil_r.
  - destruct (close_terminal persistent (exits id) id m) as [[r m1] c1] eqn:E.
    destruct (close_terminal_facts _ _ _ _ _ _ _ E) as (F1 & F2 & F3 & code & ->).
    specialize (IH (rs0 ++ [RespClosed id code]) m1 (reaped0 ++ c1)).
    destruct (foldl _ _ ids) as [[rs m'] reaped]. destruct IH as (I1 & I2 & I3 & rs' & -> & I4).
    assert (Hnone : forall k, m !! k = None -> m1 !! k = None).
    { intros k Hk. destruct (decide (k = id)) as [->|]; [|by rewrite F2]. apply F3. intros t Ht. congruence. }
    split; [|split; [|split]].
    + intros c [Hc|Hc]; apply I1; [destruct (F1 c Hc) as [?|?]; [by left|right; set_solver]|right; set_solver].
    + auto.
    + intros id' Hid' Hsent. destruct (decide (id' = id)) as [->|Hne]; [apply I2; auto|].
      apply I3; [set_solver|]. intros t Ht. rewrite F2 in Ht by done. eauto.
    + exists (RespClosed id code :: rs'). rewrite <- app_assoc. split; [done|]. constructor; eauto.
Qed.

Lemma close_terminals_facts persistent exits ids m rs m' reaped : close_terminals persistent exits ids m = (rs, m', reaped) ->
  (forall c, holds m c -> holds m' c \/ c ∈ reaped) /\
  (forall k, m !! k = None -> m' !! k = None) /\
  (forall id, id ∈ ids -> (forall t, m !! id = Some t -> closed_message_sent t = true) -> m' !! id = None) /\
  Forall2 (fun id r => exists code, r = RespClosed id code) ids rs.
Proof.
  unfold close_terminals. intros E. pose proof (close_terminals_go persistent exits ids [] m []) as Hg. rewrite E in Hg.
  destruct Hg as (G1 & G2 & G3 & rs' & -> & G4). split; [auto|]. done.
Qed.

(** What [read_outputs] does, in one piece. *)
Lemma read_outputs_eq x polls exits r s : services r !! x_service_id x = Some s ->
  exists rs m reaped, let closed := (List.filter (fun '(id, t) => (poll_session (polls id) id t).1.2) (map_to_list (sessions s))).*1 in
    close_terminals (x_is_persistent x) exits closed (polled polls (sessions s)) = (rs, m, reaped) /\
    read_outputs x polls exits r =
      (concat ((fun '(id, t) => (poll_session (polls id) id t).1.1) <$> map_to_list (sessions s)) ++ rs,
       add_to_reaper reaped (put_service (x_service_id x) (set_sessions m s) r)).
Proof.
  intros Hs. unfold read_outputs, get_service. rewrite Hs, poll_all_spec. fold (polled polls (sessions s)).
  destruct (close_terminals _ _ _ _) as [[rs m] reaped]. by exists rs, m, reaped.
Qed.

Lemma holds_polled polls m c : holds m c -> holds (polled polls m) c.
Proof.
  intros (tid & t & Ht & Hc). exists tid, (poll_session (polls tid) tid t).2. rewrite polled_lookup, Ht. split; [done|].
  destruct (poll_session (polls tid) tid t) as [[rs cl] t'] eqn:E. simpl.
  destruct (poll_session_facts _ _ _ _ _ _ E) as [-> _]. done.
Qed.

Lemma remove_tracked id r c : tracked r c -> tracked (remove_service id r) c.
Proof.
  unfold remove_service. destruct (services r !! id) as [s|] eqn:E; [|done]. intros [Ht|Hin]; [left; simpl; set_solver|].
  apply in_session_holds in Hin as (sid & s0 & Hs0 & tid & t & Ht & Hc). destruct (decide (sid = id)) as [->|Hne].
  - left. simpl. apply elem_of_app. right. apply list_elem_of_In, in_concat. exists (stop t).2. split; [|apply list_elem_of_In; simpl; rewrite Hc; set_solver].
    apply list_elem_of_In, list_elem_of_fmap. exists t. split; [done|]. apply list_elem_of_fmap. exists (tid, t). split; [done|].
    apply elem_of_map_to_list. congruence.
  - right. apply in_session_holds. exists sid, s0. simpl. rewrite lookup_delete_ne by congruence. split; [done|]. by exists tid, t.
Qed.

Lemma step_tracked ev r c : ~ lets_go ev c -> tracked r c -> tracked (step r ev) c.
Proof.
  intros Hl Ht. destruct ev as [id p sp now|id p|x e a|x polls exits|x|now|tw|id tid data]; simpl in *.
  - unfold get_or_create_service. destruct (bool_decide _ && _); [done|]. simpl.
    destruct (services r !! id) as [s|] eqn:E; simpl.
    + destruct Ht as [Ht|Hin]; [by left|]. right. apply in_session_holds in Hin as (sid & s0 & Hs0 & tid & t & Ht & Hc).
      apply in_session_holds. destruct (decide (sid = id)) as [->|Hne].
      * exists id, (reset_status p s). simpl. rewrite lookup_insert_eq. split; [done|]. rewrite E in Hs0. injection Hs0 as <-.
        exists tid, (set_state Closed t). simpl. by rewrite lookup_fmap, Ht.
      * exists sid, s0. simpl. rewrite lookup_insert_ne by congruence. split; [done|]. by exists tid, t.
    + destruct Ht as [Ht|Hin]; [by left|]. right. apply in_session_holds in Hin as (sid & s0 & Hs0 & Hh).
      apply in_session_holds. exists sid, s0. simpl. rewrite lookup_insert_ne by congruence. done.
  - unfold set_persistent. destruct (services r !! id) as [s|] eqn:E; [|done]. simpl. by eapply put_tracked_nil.
  - unfold handle_action, get_service. destruct (services r !! x_service_id x) as [s|] eqn:E; [|done].
    destruct (service_action _ _ _ _) as [[res s'] reaped] eqn:Ea. simpl. eapply put_tracked; [exact E| |done].
    intros Hh. eapply service_action_holds; [exact Ea| |exact Hh]. intros id ->. by destruct (is_ok (e_kill e)).
  - destruct (services r !! x_service_id x) as [s|] eqn:E; [|unfold read_outputs, get_service; by rewrite E].
    destruct (read_outputs_eq x polls exits r s E) as (rs & m & reaped & Ec & ->). simpl.
    eapply put_tracked; [exact E| |done]. intros Hh. simpl.
    destruct (close_terminals_facts _ _ _ _ _ _ _ Ec) as (F1 & _). apply F1. by apply holds_polled.
  - unfold on_disconnect. destruct (negb _); [by apply remove_tracked|done].
  - unfold cleanup_inactive_services. clear Hl. generalize (inactive_ids now r). intros ids. revert r Ht.
    induction ids as [|id ids IH]; intros r Ht; simpl; [done|]. apply IH. by apply remove_tracked.
  - destruct Ht as [Ht|Hin]; [|by right]. left. simpl. apply list_elem_of_In, filter_In. split; [by apply list_elem_of_In|].
    destruct (tw c) as [[?|]|?] eqn:Et; [exfalso; by apply Hl|done|exfalso; by apply Hl].
  - unfold reader_event. destruct (services r !! id) as [s|] eqn:E; [|done].
    destruct (sessions s !! tid) as [t|] eqn:El; [|done]. eapply put_tracked_nil; [exact E| |done]. intros Hh. simpl.
    eapply holds_put; [exact El| |done]. unfold reader_send. destruct (output_rx t); [|done]. by case_bool_decide.
Qed.
End Runs.

(** ** One session between reconnections *)

Inductive SEv := SPush (data : bytes) | SPoll (p : Poll).

Definition queue (t : TerminalSession) : list bytes := default [] (output_rx t).
Definition pending (t : TerminalSession) : bytes :=
  match state t with Active pb _ => default [] pb | Closed => [] end.
Definition phase (t : TerminalSession) : option SigwinchPhase :=
  match state t with Active _ ph => Some ph | Closed => None end.
(** What the shell prints, and what of it a channel that holds 500 chunks and
    is emptied by every round that gets the lock takes in, [used] chunks being in
    it already. *)
Fixpoint printed (evs : list SEv) : list bytes :=
  match evs with
  | [] => []
  | SPush d :: rest => d :: printed rest
  | SPoll _ :: rest => printed rest
  end.
Fixpoint taken_in (used : nat) (evs : list SEv) : list bytes :=
  match evs with
  | [] => []
  | SPush d :: rest => if (used <? 500)%nat then d :: taken_in (S used) rest else taken_in used rest
  | SPoll p :: rest => taken_in (if p_free p then 0 else used) rest
  end.


Definition rank (ph : SigwinchPhase) : Z :=
  match ph with Idle => 0 | Restore k => k + 1 | TempResize k => k + 1 + (MAX_SIGWINCH_PHASE_ATTEMPTS + 1) end.
Definition phase_ok (ph : SigwinchPhase) : Prop :=
  match ph with Idle => True | Restore k => 0 <= k | TempResize k => 0 <= k end.

Section Stream.
Context `{!Compression, !CompressionLaws}.

(** The responses, and the session.  The reader's [try_send] may find the channel
    full: [try_send_output] then counts the chunk as dropped and goes on. *)
Fixpoint session_run (id : Z) (evs : list SEv) (t : TerminalSession) : list TerminalResponse * TerminalSession :=
  match evs with
  | [] => ([], t)
  | SPush d :: rest =>
    let '(_, t) := reader_send d t in
    session_run id rest t
  | SPoll p :: rest =>
    let '(r, _, t) := poll_session p id t in
    let '(rs, t) := session_run id rest t in
    (r ++ rs, t)
  end.

(** What the client reads from the responses. *)
Definition decode (r : TerminalResponse) : bytes :=
  match r with RespData _ c d => if c then decompress d else d | _ => [] end.
Definition visible (rs : list TerminalResponse) : bytes := flat (decode <$> rs).

Lemma decode_created id d : decode (create_terminal_data_response id d) = d.
Proof.
  unfold create_terminal_data_response. destruct (_ <? _); [destruct (_ <? _)|]; simpl; [|done|done]. apply decompress_compress.
Qed.

Lemma visible_app a b : visible (a ++ b) = visible a ++ visible b.
Proof. unfold visible. by rewrite fmap_app, flat_app. Qed.

Lemma visible_created id ds : visible (create_terminal_data_response id <$> ds) = flat ds.
Proof.
  unfold visible. rewrite <- list_fmap_compose. f_equal.
  rewrite <- (list_fmap_id ds) at 2. apply list_fmap_ext. intros _ d _. apply decode_created.
Qed.

Lemma run_sigwinch_frame os a t : let t' := run_sigwinch os a t in
  output_rx t' = output_rx t /\ pending t' = pending t /\ output_buffer t' = output_buffer t /\ rows t' = rows t /\ cols t' = cols t.
Proof.
  destruct a as [a|]; [|done]. unfold run_sigwinch, do_sigwinch_resize, pending. destruct (_ || _).
  - by destruct (state t) eqn:E; simpl; rewrite ?E.
  - destruct (pty_pair t); [destruct os|]; simpl; destruct (state t) eqn:E; simpl; by rewrite ?E.
Qed.

(** A free round on an active session, spelled out. *)
Lemma poll_active p id t pb ph : p_free p = true -> state t = Active pb ph ->
  let '(ph', a) := sigwinch_next ph in
  exists cl t1, poll_session p id t =
    ((match pb with Some b => if bool_decide (b = []) then [] else [create_terminal_data_response id b] | None => [] end)
       ++ (create_terminal_data_response id <$> queue t), cl, run_sigwinch (p_resize_ok p) a t1) /\
    state t1 = Active None ph' /\ queue t1 = [] /\ pty_pair t1 = pty_pair t /\ rows t1 = rows t /\ cols t1 = cols t /\
    (is_Some (output_rx t1) <-> is_Some (output_rx t)) /\
    output_buffer t1 = foldl (fun b d => append d b) (output_buffer t) (queue t).
Proof.
  intros Hf Hst. destruct (sigwinch_next ph) as [ph' a] eqn:En. unfold poll_session. rewrite Hf. simpl.
  set (cl := detect_closed p t). exists cl. clearbody cl.
  assert (Ed : drain (if cl then set_closed_sent true t else t) =
    (queue t, (if cl then set_closed_sent true else Datatypes.id)
                (match output_rx t with Some q => set_output (Some []) (foldl (fun b d => append d b) (output_buffer t) q) t | None => t end))).
  { unfold drain, queue. destruct cl; simpl; destruct (output_rx t); done. }
  rewrite Ed. set (t2 := (if cl then set_closed_sent true else Datatypes.id) _).
  assert (F : state t2 = Active pb ph /\ queue t2 = [] /\ pty_pair t2 = pty_pair t /\ rows t2 = rows t /\ cols t2 = cols t /\
    (is_Some (output_rx t2) <-> is_Some (output_rx t)) /\ output_buffer t2 = foldl (fun b d => append d b) (output_buffer t) (queue t)).
  { unfold t2, queue. destruct cl; simpl; destruct (output_rx t) eqn:Eo; simpl; rewrite ?Eo, ?Hst; repeat split; intros [? ?]; eauto. }
  clearbody t2. destruct F as (F1 & F2 & F3 & F4 & F5 & F6 & F7). rewrite F1, En.
  eexists. split; [reflexivity|]. case_bool_decide; simpl; unfold queue in *; simpl; done.
Qed.

Lemma run_sigwinch_state os ph ph1 a t : sigwinch_next ph = (ph1, a) -> phase_ok ph -> state t = Active None ph1 ->
  exists ph', state (run_sigwinch os a t) = Active None ph' /\ phase_ok ph' /\ rank ph' <= Z.max 0 (rank ph - 1).
Proof.
  intros En Hok Hst. unfold run_sigwinch. destruct a as [a|].
  - destruct (do_sigwinch_resize os a t) as [ok t'] eqn:Ed.
    assert (Hst' : state t' = Active None ph1).
    { unfold do_sigwinch_resize in Ed. destruct (_ || _); [by injection Ed as <- <-|].
      destruct (pty_pair t); [destruct os|]; by injection Ed as <- <-. }
    rewrite Hst'. exists (sigwinch_done a ok ph1). split; [done|]. unfold MAX_SIGWINCH_PHASE_ATTEMPTS, sigwinch_done in *.
    destruct ph as [|k|k]; simpl in En, Hok; [done| |]; destruct (Z.eqb_spec k 0); try done; injection En as <- <-;
      destruct ok; simpl; unfold MAX_SIGWINCH_PHASE_ATTEMPTS; lia.
  - exists ph1. split; [done|]. destruct ph as [|k|k]; simpl in En, Hok; [by injection En as <-| |];
      destruct (Z.eqb_spec k 0); try done; injection En as <-; simpl; lia.
Qed.

(** One round: the client gets a prefix of what is due, and the SIGWINCH phase
    comes closer to [Idle]. *)
Lemma poll_step p id t pb ph rs cl t' : state t = Active pb ph -> phase_ok ph -> poll_session p id t = (rs, cl, t') ->
  exists pb' ph', state t' = Active pb' ph' /\ phase_ok ph' /\
    visible rs ++ pending t' ++ flat (queue t') = pending t ++ flat (queue t) /\
    length (queue t') = (if p_free p then 0%nat else length (queue t)) /\
    rank ph' <= (if p_free p then Z.max 0 (rank ph - 1) else rank ph).
Proof.
  intros Hst Hok E. destruct (p_free p) eqn:Hf.
  - pose proof (poll_active p id t pb ph Hf Hst) as Hp. destruct (sigwinch_next ph) as [ph1 a] eqn:En.
    destruct Hp as (cl' & t1 & Ep & Hst1 & Hq1 & _). rewrite E in Ep. injection Ep as -> -> ->.
    destruct (run_sigwinch_state (p_resize_ok p) ph ph1 a t1 En Hok Hst1) as (ph' & Hst' & Hok' & Hr).
    exists None, ph'. split; [done|]. split; [done|].
    destruct (run_sigwinch_frame (p_resize_ok p) a t1) as (Ho & Hpd & _). rewrite Hpd. unfold queue in *. rewrite Ho, Hq1.
    split; [|done].
    unfold pending. rewrite Hst, Hst1. simpl. rewrite !app_nil_r, visible_app, visible_created. f_equal.
    destruct pb as [b|]; [|done]. case_bool_decide as Hb; [by subst b|]. unfold visible. simpl. rewrite decode_created.
    unfold flat. simpl. by rewrite app_nil_r.
  - unfold poll_session in E. rewrite Hf in E. injection E as <- <- <-. exists pb, ph. split; [done|]. split; [done|].
    split; [done|]. split; [done|]. lia.
Qed.

Lemma reader_step d t pb ph : state t = Active pb ph -> is_Some (output_rx t) ->
  let t' := (reader_send d t).2 in
  state t' = Active pb ph /\ is_Some (output_rx t') /\ pending t' = pending t /\
  queue t' = if (length (queue t) <? 500)%nat then queue t ++ [d] else queue t.
Proof.
  intros Hst [q Hq]. unfold reader_send. rewrite Hq. unfold pending, queue. rewrite Hq, Hst. simpl default.
  unfold CHANNEL_BUFFER_SIZE. case_bool_decide as Hc; simpl; rewrite ?Hst, ?Hq; simpl; repeat split; eauto;
    [by rewrite (proj2 (Nat.ltb_ge _ _)) by lia|by rewrite (proj2 (Nat.ltb_lt _ _)) by lia].
Qed.

Definition free_polls (evs : list SEv) : Z :=
  foldr (fun e n => match e with SPoll p => if p_free p then n + 1 else n | SPush _ => n end) 0 evs.

Lemma free_polls_nonneg evs : 0 <= free_polls evs.
Proof. induction evs as [|[d|p] evs IH]; simpl; [lia|lia|]. destruct (p_free p); lia. Qed.

Lemma poll_channel p id t : is_Some (output_rx t) -> is_Some (output_rx (poll_session p id t).2).
Proof.
  intros [q Hq]. unfold poll_session. destruct (negb _); [simpl; eauto|].
  set (cl := detect_closed p t). clearbody cl.
  assert (Ed : exists l b t1, drain (if cl then set_closed_sent true t else t) = (l, set_output (Some []) b t1)).
  { unfold drain. destruct cl; simpl; rewrite Hq; eauto. }
  destruct Ed as (l & b & t1 & ->). simpl. destruct (state t1) as [|pb ph]; simpl; [eauto|].
  destruct (sigwinch_next ph) as [ph1 a]. simpl.
  match goal with |- is_Some (output_rx (run_sigwinch ?os ?a ?u)) => destruct (run_sigwinch_frame os a u) as [-> _] end.
  case_bool_decide; simpl; eauto.
Qed.

Lemma session_run_stream id evs t pb ph : state t = Active pb ph -> phase_ok ph -> is_Some (output_rx t) ->
  let '(rs, t') := session_run id evs t in
  exists pb' ph', state t' = Active pb' ph' /\ phase_ok ph' /\
    visible rs ++ pending t' ++ flat (queue t') = pending t ++ flat (queue t) ++ flat (taken_in (length (queue t)) evs) /\
    rank ph' <= Z.max 0 (rank ph - free_polls evs).
Proof.
  revert t pb ph. induction evs as [|[d|p] evs IH]; intros t pb ph Hst Hok Hrx; cbn [session_run].
  - exists pb, ph. split; [done|]. split; [done|]. split; [by rewrite app_nil_r|]. simpl. lia.
  - pose proof (reader_step d t pb ph Hst Hrx) as Hr. destruct (reader_send d t) as [a t1]. simpl in Hr.
    destruct Hr as (Hst1 & Hrx1 & Hp1 & Hq1).
    specialize (IH t1 pb ph Hst1 Hok Hrx1). destruct (session_run id evs t1) as [rs t'].
    destruct IH as (pb' & ph' & I1 & I2 & I3 & I4). exists pb', ph'. split; [done|]. split; [done|]. split; [|exact I4].
    rewrite I3, Hp1, Hq1. cbn [taken_in]. destruct (_ <? _)%nat; [|done].
    rewrite flat_app, flat_one, length_app, Nat.add_1_r, <- !app_assoc. done.
  - destruct (poll_session p id t) as [[r cl] t1] eqn:Ep. destruct (poll_step _ _ _ _ _ _ _ _ Hst Hok Ep) as (pb1 & ph1 & H1' & H2' & H3' & Hl & H4').
    pose proof (poll_channel p id t Hrx) as Hrx1. rewrite Ep in Hrx1. simpl in Hrx1.
    specialize (IH t1 pb1 ph1 H1' H2' Hrx1). destruct (session_run id evs t1) as [rs t'].
    destruct IH as (pb' & ph' & I1 & I2 & I3 & I4). exists pb', ph'. split; [done|]. split; [done|]. split.
    + rewrite visible_app, <- app_assoc, I3, Hl, (app_assoc (pending t)), <- H3', <- !app_assoc. done.
    + pose proof (free_polls_nonneg evs). simpl. destruct (p_free p); lia.
Qed.

End Stream.

Definition closed_ids (rs : list TerminalResponse) : list Z :=
  omap (fun r => match r with RespClosed id _ => Some id | _ => None end) rs.

Lemma closed_ids_data id rs : Forall (fun r => exists cp d, r = RespData id cp d) rs -> closed_ids rs = [].
Proof. induction 1 as [|r rs (cp & d & ->) _ IH]; [done|]. exact IH. Qed.

Lemma closed_ids_closed ids rs : Forall2 (fun id r => exists code, r = RespClosed id code) ids rs -> closed_ids rs = ids.
Proof. induction 1 as [|id r ids rs (code & ->) _ IH]; [done|]. change (id :: closed_ids rs = id :: ids). by rewrite IH. Qed.

Lemma closed_ids_app a b : closed_ids (a ++ b) = closed_ids a ++ closed_ids b.
Proof. apply omap_app. Qed.

Lemma NoDup_filter_fst {B} (f : Z * B -> bool) (l : list (Z * B)) : NoDup l.*1 -> NoDup (List.filter f l).*1.
Proof.
  induction l as [|[k b] l IH]; [done|]. simpl. intros Hn. apply NoDup_cons in Hn as [Hk Hn].
  destruct (f (k, b)); [|auto]. simpl. apply NoDup_cons. split; [|auto]. intros Hin. apply Hk.
  apply list_elem_of_fmap in Hin as ([k' b'] & -> & Hin). apply list_elem_of_In, filter_In in Hin as [Hin _].
  apply list_elem_of_fmap. exists (k', b'). split; [done|]. by apply list_elem_of_In.
Qed.

(** The terminals [read_outputs] reports closed are those its rounds detect. *)
Lemma read_outputs_closed `{!Compression} x polls exits r s : services r !! x_service_id x = Some s ->
  closed_ids (read_outputs x polls exits r).1 =
    (List.filter (fun '(id, t) => (poll_session (polls id) id t).1.2) (map_to_list (sessions s))).*1.
Proof.
  intros Hs. destruct (read_outputs_eq x polls exits r s Hs) as (rs & m & reaped & Ec & ->). cbn [fst].
  rewrite closed_ids_app. destruct (close_terminals_facts _ _ _ _ _ _ _ Ec) as (_ & _ & _ & F4).
  rewrite (closed_ids_closed _ _ F4). clear Ec F4.
  assert (Hnil : forall l : list (Z * TerminalSession),
    closed_ids (concat ((fun '(id, t) => (poll_session (polls id) id t).1.1) <$> l)) = []).
  { induction l as [|[id t] l IH]; [done|]. cbn [fmap list_fmap concat]. rewrite closed_ids_app.
    destruct (poll_session (polls id) id t) as [[r0 c0] t0] eqn:E. simpl.
    destruct (poll_session_facts _ _ _ _ _ _ E) as (_ & _ & Hd). rewrite (closed_ids_data id r0 Hd). exact IH. }
  exact (f_equal (fun a => a ++ _) (Hnil _)).
Qed.

Module TerminalClaims.

Section Claims.
Context `{!Compression, !CompressionLaws}.

(** Whatever connections, cleanups and threads do, there are never more than
    [MAX_SERVICES] terminal services. *)
Theorem services_stay_bounded (evs : list Ev) : (size (services (steps evs init_registry)) <= MAX_SERVICES)%nat.
Proof.
  unfold steps. induction evs as [|ev evs IH] using rev_ind; [simpl; unfold MAX_SERVICES; rewrite map_size_empty; lia|].
  rewrite foldl_app. simpl. by apply step_size.
Qed.

(** The shell process of a newly opened terminal stays accounted for, in its
    session or with the zombie reaper, through every later event, until the
    reaper finds it gone or killing it fails. *)
Theorem opened_child_never_forgotten x e id rr cc c pr r s (evs : list Ev) :
  services r !! x_service_id x = Some s ->
  sessions (remap id (update_activity (e_now e) s)) !! id = None ->
  e_spawn e = Spawned c pr ->
  Forall (fun ev => ~ lets_go ev c) evs ->
  tracked (steps (EvAction x e (ActOpen id rr cc) :: evs) r) c.
Proof.
  intros Hs Hn Hsp Hevs. unfold steps. simpl.
  assert (Ht : tracked (handle_action x e (ActOpen id rr cc) r).2 c).
  { right. apply in_session_holds. unfold handle_action, get_service. rewrite Hs. simpl. unfold handle_open. rewrite Hn, Hsp. simpl.
    eexists _, _. split; [by rewrite lookup_insert_eq|]. simpl. eexists id, _. by rewrite lookup_insert_eq. }
  revert Ht. generalize (handle_action x e (ActOpen id rr cc) r).2 as r0. clear -Hevs.
  induction Hevs as [|ev evs Hev _ IH]; intros r0 Ht; simpl; [done|]. apply IH. by apply step_tracked.
Qed.


(** C38: The two-phase SIGWINCH sequence started by a reconnection is over after
    at most eight rounds whatever the PTY answers, and when both resizes succeed
    the terminal sees first another height and then its own size. *)
Theorem sigwinch_settles (id : Z) (t : TerminalSession) (q : list bytes) (evs : list SEv) :
  output_rx t = Some q ->
  (8 <= free_polls evs -> phase (session_run id evs (reconnect t).2).2 = Some Idle) /\
  (forall p1 p2 sizes, pty_pair t = Some sizes -> 0 < rows t -> 0 < cols t ->
   p_free p1 = true -> p_free p2 = true -> p_resize_ok p1 = true -> p_resize_ok p2 = true ->
   let t' := (session_run id [SPoll p1; SPoll p2] (reconnect t).2).2 in
   exists other, other <> rows t /\ phase t' = Some Idle /\ pty_pair t' = Some (sizes ++ [(other, cols t); (rows t, cols t)])).
Proof.
  intros Hq. destruct (reconnect t) as [hp t1] eqn:Er. cbn [snd].
  assert (Ht1 : (exists pb, state t1 = Active pb (TempResize 3)) /\ is_Some (output_rx t1) /\ pty_pair t1 = pty_pair t /\ rows t1 = rows t /\ cols t1 = cols t).
  { unfold reconnect in Er. rewrite Hq in Er. injection Er as <- <-. simpl. split; [eauto|]. split; [eauto|done]. }
  clear Er. destruct Ht1 as ((pb & Hst) & Hrx & Hpty & Hrows & Hcols). split.
  - intros Hn. pose proof (session_run_stream id evs t1 pb _ Hst ltac:(simpl; lia) Hrx) as Hrun.
    destruct (session_run id evs t1) as [rs t']. destruct Hrun as (pb' & ph' & Hst' & Hok & _ & Hrank).
    simpl. unfold phase. rewrite Hst'. unfold rank, MAX_SIGWINCH_PHASE_ATTEMPTS in Hrank.
    destruct ph' as [|k|k]; [done| |]; simpl in Hok; lia.
  - intros p1 p2 sizes Hp Hr Hc Hf1 Hf2 Ho1 Ho2. cbn [session_run].
    destruct (poll_active p1 id t1 pb (TempResize 3) Hf1 Hst) as (cl1 & u1 & -> & Hs1 & _ & Hp1 & Hr1 & Hc1 & _).
    rewrite Ho1. unfold run_sigwinch, do_sigwinch_resize. rewrite Hr1, Hc1, Hrows, Hcols, Hp1, Hpty, Hp.
    rewrite (proj2 (Z.eqb_neq (rows t) 0)), (proj2 (Z.eqb_neq (cols t) 0)) by lia. simpl. rewrite Hs1. unfold sigwinch_done.
    match goal with |- context [poll_session p2 id ?v] => set (v1 := v) end.
    destruct (poll_active p2 id v1 None (Restore 3) Hf2 eq_refl) as (cl2 & u2 & -> & Hs2 & _ & Hp2 & Hr2 & Hc2 & _).
    rewrite Ho2. unfold run_sigwinch, do_sigwinch_resize. rewrite Hr2, Hc2, Hp2. simpl. rewrite Hr1, Hc1, Hrows, Hcols.
    rewrite (proj2 (Z.eqb_neq (rows t) 0)), (proj2 (Z.eqb_neq (cols t) 0)) by lia. simpl. rewrite Hs2. simpl.
    exists (if 2 <? rows t then Z.max 0 (rows t - 1) else Z.min 65535 (rows t + 1)).
    split; [zcases; lia|]. split; [done|]. by rewrite <- app_assoc.
Qed.

(** A terminal reported closed by a round is reported once and is gone from
    its service afterwards, persistent or not. *)
Theorem closed_terminals_removed x polls exits r rs r' :
  read_outputs x polls exits r = (rs, r') ->
  NoDup (closed_ids rs) /\
  (forall id s', id ∈ closed_ids rs -> services r' !! x_service_id x = Some s' -> sessions s' !! id = None).
Proof.
  intros E. destruct (services r !! x_service_id x) as [s|] eqn:Hs;
    [|unfold read_outputs, get_service in E; rewrite Hs in E; injection E as <- <-; split; [constructor|]; intros id s' Hin; inversion Hin].
  pose proof (read_outputs_closed x polls exits r s Hs) as Hc. rewrite E in Hc. cbn [fst] in Hc. rewrite Hc.
  split; [apply NoDup_filter_fst, NoDup_fst_map_to_list|].
  destruct (read_outputs_eq x polls exits r s Hs) as (rs1 & m & reaped & Ec & Er). rewrite E in Er. injection Er as -> ->.
  intros id s' Hin. simpl. rewrite lookup_insert_eq. intros [= <-]. simpl.
  destruct (close_terminals_facts _ _ _ _ _ _ _ Ec) as (_ & _ & F3 & _). apply F3; [exact Hin|].
  intros t. rewrite polled_lookup. apply list_elem_of_fmap in Hin as ([id' t0] & -> & Hin). simpl.
  apply list_elem_of_In, filter_In in Hin as [Hin Hcl]. apply list_elem_of_In, elem_of_map_to_list in Hin. rewrite Hin. simpl.
  intros [= <-]. destruct (poll_session (polls id') id' t0) as [[r1 c1] t1] eqn:Ep. simpl in *.
  destruct (poll_session_facts _ _ _ _ _ _ Ep) as (_ & Hcs & _). by apply Hcs.
Qed.

End Claims.

(** A compressor for the examples: a run of one letter is its length. *)
#[local] Instance run_length : Compression := {
  compress b := if bool_decide (b = repeat 97 (length b)) then [1; Z.of_nat (length b)] else 0 :: b;
  decompress c := match c with 1 :: n :: _ => repeat 97 (Z.to_nat n) | _ :: b => b | [] => [] end;
}.
#[local] Instance run_length_laws : CompressionLaws.
Proof.
  constructor. intros b. simpl. case_bool_decide as Hb; [|done]. cbn [decompress run_length]. rewrite Nat2Z.id. by symmetry.
Qed.

Definition proxy1 : Proxy := MkProxy [115] false.
Definition env1 : ActEnv := MkActEnv 5 (Spawned 42 (Some 42)) (Ok tt) true (Ok tt).
Definition registry1 : Registry := (get_or_create_service [115] false false 0 init_registry).2.
Definition running (now : Z) : Poll := MkPoll now true false (Ok None) true.
Definition exited : Poll := MkPoll 9 true true (Ok (Some 0)) true.

Lemma opened_child_never_forgotten_witness :
  let evs := [EvOutputs proxy1 (fun _ => exited) (fun _ => Ok (Some 0)); EvDisconnect proxy1; EvZombies (fun _ => Ok None)] in
  tracked (steps (EvAction proxy1 env1 (ActOpen 1 24 80) :: evs) registry1) 42 /\
  tasks (steps (EvAction proxy1 env1 (ActOpen 1 24 80) :: evs) registry1) = [42].
Proof.
  split; [|vm_compute; reflexivity].
  apply (opened_child_never_forgotten proxy1 env1 1 24 80 42 (Some 42) registry1
    (reset_status false (service_new [115] false false 0))); [vm_compute; reflexivity..|].
  repeat constructor; simpl; [tauto|tauto|]. intros Hn. by apply Hn.
Defined.

Definition session1 : TerminalSession :=
  set_state Closed (set_output (Some [[98]]) (record [[97; 10]]) (opened_session 0 1 24 80 42 (Some 42))).


(** A shell that prints 501 chunks before the next round loses the last one. *)
Example output_dropped_when_full :
  let evs := (SPush <$> repeat [97] 501) ++ [SPoll (running 1)] in
  blen (visible (session_run 1 evs (reconnect session1).2).1) = 3 + 500 /\
  length (printed evs) = 501%nat /\ length (taken_in 0 evs) = 500%nat.
Proof. vm_compute. done. Qed.

Definition refused (now : Z) : Poll := MkPoll now true false (Ok None) false.

Lemma sigwinch_settles_witness :
  phase (session_run 1 (SPoll <$> repeat (refused 1) 8) (reconnect session1).2).2 = Some Idle /\
  exists other, other <> 24 /\ phase (session_run 1 [SPoll (running 1); SPoll (running 2)] (reconnect session1).2).2 = Some Idle /\
    pty_pair (session_run 1 [SPoll (running 1); SPoll (running 2)] (reconnect session1).2).2 = Some ([(24, 80)] ++ [(other, 80); (24, 80)]).
Proof.
  split.
  - apply (sigwinch_settles 1 session1 [[98]] (SPoll <$> repeat (refused 1) 8) eq_refl). vm_compute. discriminate.
  - apply (proj2 (sigwinch_settles 1 session1 [[98]] [] eq_refl) (running 1) (running 2) [(24, 80)]); [reflexivity|reflexivity|reflexivity|reflexivity..].
Defined.

Definition registry2 : Registry := steps [EvAction proxy1 env1 (ActOpen 1 24 80); EvAction proxy1 env1 (ActOpen 2 24 80)] registry1.

Lemma closed_terminals_removed_witness :
  let '(rs, r') := read_outputs proxy1 (fun id => if id =? 1 then exited else running 9) (fun _ => Ok (Some 7)) registry2 in
  NoDup (closed_ids rs) /\
  (forall id s', id ∈ closed_ids rs -> services r' !! x_service_id proxy1 = Some s' -> sessions s' !! id = None) /\
  rs = [RespClosed 1 7].
Proof.
  destruct (read_outputs _ _ _ registry2) as [rs r'] eqn:E.
  destruct (closed_terminals_removed proxy1 _ _ registry2 rs r' E) as [Hn Hr]. split; [exact Hn|]. split; [exact Hr|].
  apply (f_equal fst) in E. vm_compute in E. by symmetry.
Defined.

End TerminalClaims.
